(* ===== verification/_CoqProject ===== *)
-Q . S2P
Prelude.v
Mem.v
CString.v
Kernel.v
Queue.v
Scheduler.v
SchedulerSpec.v
Aging.v
Lottery.v
Dispatch.v
Entries.v
Boot.v
Ipc.v
Machine.v
Uart.v
Irq.v
Mm.v
MmSpec.v
MmMap.v
MmProps.v
MmCopy.v
Fork.v
ForkSpec.v
UserMode.v
Exceptions.v
FatFormat.v
FatVolume.v
FatDir.v
FatFile.v
FatFormatProps.v
FatBytes.v
FatVolumeSpec.v
FatChain.v
FatVolumeProps.v
FatFileProps.v
FatWrite.v
Sd.v
Video.v
VideoProps.v
BootMap.v
Start.v
SdSpec.v
SdClock.v
Filesystem.v
SdHost.v
SdProps.v
Main.v
Syscalls.v
SyscallsSpec.v
SyscallsProps.v
CardWrite.v
Kept.v
Ownership.v
Descriptors.v
Shell.v
ShellPath.v
ShellCd.v
Programs.v
SelectionProps.v
TickProps.v
Idle.v
Svc.v
