(* ===== verification/Prelude.v ===== *)
(** * demoOS: a verification development for its kernel

    demoOS is a small operating system for the Raspberry Pi (AArch64, one core).
    This development models the kernel's own logic in Gallina, function by
    function, over explicit states, and proves what makes it correct.  Every
    definition that models code carries the name of the C function, type or
    constant it translates, and is executable.

    ** The program and the files

    - Scheduler (libs/scheduler.c, scheduler.h, fork_asm.S).  Kernel.v: PCBs in a
      heap by address, the global variables, the load and store operations.
      Scheduler.v: the whole file, seven algorithms included.  Queue.v,
      SchedulerSpec.v, Aging.v, Lottery.v, Dispatch.v, Entries.v, Boot.v: the
      abstract kernel ([AState], queues as lists), the relation [R] between the
      two, the invariant [Inv], and the proof that every entry point refines its
      abstract counterpart and preserves the invariant.  [Inv] takes at most 2^56
      tickets for each process, a bound that sched_set_param does not enforce.
    - Memory and strings (common/memory.S, common/string.c).  Mem.v, CString.v:
      bytes by address, the assembly and C loops as they are.
    - IPC (libs/ipc.c).  Ipc.v.  Blocking calls are modelled by one turn of their
      loop: a turn returns, or leaves the CPU through schedule.
    - The machine (Machine.v) puts the scheduler's state beside the memory, the
      UART and the page allocator; the UART driver (drivers/uart/uart.c) is Uart.v.
    - Interrupts (drivers/irq/controller.c, drivers/timer/timer.c).  Irq.v adds
      the registers of both to the machine; handle_irq composes the timer tick of
      Scheduler.v and the handler of Uart.v.  Idle.v: the idle task under them.
    - Memory management (libs/mm.c).  Mm.v; MmSpec.v, MmMap.v, MmCopy.v, MmProps.v
      prove it against the processor's table walk ([translate]).
    - Process creation (libs/fork.c).  Fork.v, ForkSpec.v: it calls the page
      allocator, the copy of the address space and add_process_to_scheduler.
      UserMode.v: the loading of the first program.
    - The kernel's entry.  Start.v: boot/start.S, with its translation tables in
      BootMap.v.  Exceptions.v: the saving and restoring of the registers and the
      vectors (drivers/irq/entry.S).  Svc.v: a system call from its wrapper in user mode
      (common/user_syscalls.S) to the dispatcher and back.  Main.v: kernel_main and
      kernel_process (kernel/kernel.c), over the whole system: the machine with its
      interrupts, the board and the file system.
    - FAT32 (libs/fat32/fat.c, fat.h).  FatFormat.v: the formats on the disk and
      names.  FatVolume.v: the sector buffer, the table, cluster chains.
      FatDir.v: directories.  FatFile.v: mounting, files, paths.  FatBytes.v,
      FatVolumeSpec.v, FatChain.v, FatVolumeProps.v, FatFileProps.v, FatWrite.v,
      FatFormatProps.v hold the proofs.
    - The SD card driver (drivers/sd/sd.c, sd.h, arch/gpio.h).  Sd.v: every
      function, over the registers of a board.  SdSpec.v: on any board its loops
      end.  SdClock.v: the clock divisor.  SdHost.v: a controller with a card as a
      state machine, [Emmc].  SdProps.v: the driver on it.
    - The mailbox and the framebuffer (drivers/mbox, drivers/framebuffer), and
      uart_init, which uses the mailbox.  Video.v; VideoProps.v on printing.
    - The file system (libs/filesystem.c) and the system calls (libs/syscalls.c).
      Filesystem.v: the card's adapters and the mount.  Syscalls.v: descriptors,
      exec, and the dispatcher, which composes all of the above.  SyscallsSpec.v,
      SyscallsProps.v, CardWrite.v: the calls on files.  Kept.v, Ownership.v,
      Descriptors.v: the pages of the processes under everything the kernel does.
    - The shell (app/shell.c).  Shell.v: every command, over the program's memory
      and the system calls it makes.  ShellPath.v, ShellCd.v: paths.

    - The programs of the user (app/, user/user.c, common/process_api.c), as
      interaction trees of their system calls.  Programs.v.

    ** Interfaces

    Where a part relies on another one, or on hardware, it does so through an
    interface, and its theorems hold for every implementation of it:
    - [DiskOps] and [BlockDevice] (FatVolume.v, FatVolumeSpec.v): the disk of the
      FAT library.  A disk in memory ([ram_device]) implements it, and so does the
      card driver on a working controller ([sd_device], SdHost.v), which is the
      composition the system runs.
    - [Bus] (Sd.v) and [Timer] (SdSpec.v): a board whose registers answer reads and
      writes, and whose clock runs.  [SdHost] (SdHost.v): a board with a working
      controller and card; [Emmc] implements it.  [Gpu] (Video.v) is what the video
      processor answers in the mailbox.
    - [Services] (Shell.v): the system calls of a user program.
    The console the card driver prints on is separate from the UART device of
    Machine.v.

    ** How code is read

    A C function is a Gallina function in a state monad.  [M S] (this file) has
    faults: following a NULL or dangling pointer, indexing out of bounds, using a
    variable without a value.  [E S] (FatVolume.v) adds the error codes of the
    FAT library: [inl err] is [return err].  Machine integers are [Z] wrapped at
    their width ([u8], [u32], [s32], ...) where the code can overflow.  Shared
    objects (PCBs, queues, volumes, files) are in maps by address and mutated
    there.  A context switch is the assignment of the CPU's registers; a call to
    schedule that does not come back to its caller at once ends the modelled
    step.  Device inputs (characters received, the system timer, the pending
    registers of the interrupt controller) are part of the state or arguments.

    ** What the theorems show

    - Scheduler: the dispatcher refines an abstract selection for each of the
      seven algorithms (SelectionProps.v), the pointer queues are lists, the
      shortest-job queue is sorted and stable, round robin waits are bounded,
      aging picks the largest counter within a bounded number of epochs, the
      lottery is proportional as long as the total of the tickets does not overflow
      and its generator never dies, multilevel queues serve the first ready process
      of the highest level; ticks, exits, parameters and the context switch
      (TickProps.v).
    - The kernel's entry: start.S brings the first core to kernel_main in the linear
      map that everything else takes for granted ([start_spec]); kernel_main sets up
      the system on any board ([kernel_main_spec]); the first process gets from ret_from_fork to the
      user's code ([first_process_spec]); an exception keeps the registers
      ([exception_round_trip]); a program that calls a wrapper goes on where its frame
      says, which is behind the call, with the kernel's answer and the registers it
      had, unless the call was an exec ([system_call_spec]); a data abort
      stops the machine ([data_abort_hangs]).
    - Interrupts: however they and the rest of the system interleave, each is
      handled without a fault, one source at a time, the invariants are kept and
      the timer stays on its grid ([timer_grid]).  The idle task gives the processor
      to the first ready process under round robin, and to none under the
      algorithms that are not preemptive ([idle_dispatch]).
    - Memory: the allocator is the list of free pages, map_page changes one page
      of the address space, copy_virtual_memory makes a private copy, fork gives
      a READY child with the parent's memory, trap frame and parameters; the
      error paths of fork.
    - IPC, UART and strings: the message ring is in order and where it breaks, the
      receive interrupt and the one that loses characters, line input, strcat and
      strsplit.
    - FAT32: the buffered volume refines the image of the disk
      ([volume_refines_image]); what put_fat writes get_fat reads, in both copies
      of the table; remove_chain ends on any table and frees exactly a chain;
      stretch_chain takes a free cluster and links it, when it answers that the volume
      is full, and what its error path returns; a directory's entries are visited in order where clusters are
      aligned; reading a file returns the bytes of its clusters; what is written
      to a file is read back, and is on the disk once the file is closed
      ([write_read_back], [write_close_spec]); timestamps and short names.
    - SD card: a transfer returns on any board with a running clock, whatever its
      registers answer ([sd_transfer_returns]); on a working controller and card
      the driver reads and replaces exactly one sector ([sd_card_spec]); the bits
      of the clock divisor.
    - Files through descriptors: opening and closing on every branch, reading and
      writing from the system call down to the registers of the card
      ([card_read_spec], [card_write_spec]), and
      the invariant of the pages of all processes, those of descriptors and those of
      memory, under every system call, the interrupts and the creation of processes
      ([descriptors_typed]); it takes two free pages for a call that opens, and the
      theorem says what becomes of it with one.
    - Framebuffer: printing draws a reference picture and writes nothing off the
      screen ([framebuffer_print_spec]).
    - Programs: print_int writes the decimal numeral of its argument.
    - Shell: normalize_path, which rewrites a path in place, resolves the path's
      components; cd, from the line typed to the directory opened.

    ** Fuel

    Loops whose recursion is not structural take fuel, and [OutOfFuel] is a fault
    the theorems exclude: the walks of a queue have as much as there are
    processes, strings as many bytes as memory has, the search for a free
    cluster and the freeing of a chain two turns more than there are clusters
    (a turn frees one or moves to the next), a read as many turns as the file has
    bytes and a write as it has bytes to write, printing as many as the string.
    The shell's loops have the length of a string, the entries of a directory or
    the commands typed.  Polling loops of the SD driver with a time limit end when
    the clock reaches it; [patience] turns are enough on a board with a running
    clock.  The loops that poll without a limit (the mailbox, and the read of the
    SCR register, which may not end in the code either) take the number of polls
    to follow ([spin]).  The programs of the user are interaction trees, whose loops
    need none.  Two FAT loops whose end depends on the disk (the cluster
    search with an impossible last cluster, directories whose chain is cyclic) do
    not end in the code either; there the model answers [OutOfFuel].

    ** Not modelled

    Labels that no code reaches (kernel_launch in start.S, ni_sys in entry.S and
    thread_start in user_syscalls.S).  Interrupts arrive between the modelled
    steps, not inside them; DMA, caches and barriers are not modelled. *)
From stdpp Require Import base gmap list.
From Stdlib Require Import ZArith Lia.

#[local] Open Scope Z_scope.

(** ** Faults and the kernel monad

    The C code has undefined behaviour where it follows a NULL or a dangling
    pointer and where it indexes an array out of its bounds.  A modelled
    operation returns [Fault] there; [OutOfFuel] is the value of a loop whose
    fuel is spent, and the theorems prove that the loops do not produce it. *)

Inductive fault : Type :=
| NullPointer
| DanglingPointer
| OutOfBounds
| OutOfFuel
| Uninitialised.

Inductive outcome (A : Type) : Type :=
| Done (a : A)
| Fault (f : fault).
Arguments Done {A} a.
Arguments Fault {A} f.

(** Stateful, fallible code over a state [S]. *)
Definition M (S A : Type) : Type := S → outcome (A * S).

#[export] Instance M_ret S : MRet (M S) := λ A a s, Done (a, s).
#[export] Instance M_bind S : MBind (M S) := λ A B f m s,
  match m s with
  | Done (a, s') => f a s'
  | Fault e => Fault e
  end.

Definition gets {S A} (f : S → A) : M S A := λ s, Done (f s, s).
Definition modify {S} (f : S → S) : M S unit := λ s, Done (tt, f s).
Definition fail_with {S A} (e : fault) : M S A := λ _, Fault e.
Definition when {S} (b : bool) (m : M S unit) : M S unit :=
  if b then m else mret tt.
(** [require e o] is the value of [o], or the fault [e]. *)
Definition require {S A} (e : fault) (o : option A) : M S A :=
  match o with Some a => mret a | None => fail_with e end.

(** [for (i = from; i < from + n; i++) body(i)] *)
Fixpoint for_loop {S} (n : nat) (i : Z) (body : Z → M S unit) : M S unit :=
  match n with
  | O => mret tt
  | Datatypes.S n => body i;; for_loop n (i + 1) body
  end.

(** ** Machine integers: values at their width, as the compiled code holds them *)
Definition wrap_u (w x : Z) : Z := x mod 2 ^ w.
Definition wrap_s (w x : Z) : Z := (x + 2 ^ (w - 1)) mod 2 ^ w - 2 ^ (w - 1).
Definition u8 := wrap_u 8.
Definition u16 := wrap_u 16.
Definition u32 := wrap_u 32.
Definition u64 := wrap_u 64.
Definition s8 := wrap_s 8.
Definition s32 := wrap_s 32.
Definition s64 := wrap_s 64.

(** ** C arrays: lists indexed by a C integer *)
Definition array_get {A} (l : list A) (i : Z) : option A :=
  if i <? 0 then None else l !! Z.to_nat i.
Definition array_set {A} (l : list A) (i : Z) (a : A) : option (list A) :=
  if (i <? 0) || (Z.of_nat (length l) <=? i) then None
  else Some (<[Z.to_nat i := a]> l).

(** ** Tactics *)

(** Splits the boolean tests of the goal and of the hypotheses into facts on [Z]. *)
Ltac zify_bools :=
  repeat match goal with
  | H : (_ <? _) = true |- _ => apply Z.ltb_lt in H
  | H : (_ <? _) = false |- _ => apply Z.ltb_ge in H
  | H : (_ <=? _) = true |- _ => apply Z.leb_le in H
  | H : (_ <=? _) = false |- _ => apply Z.leb_gt in H
  | H : (_ =? _) = true |- _ => apply Z.eqb_eq in H
  | H : (_ =? _) = false |- _ => apply Z.eqb_neq in H
  | H : (_ && _) = true |- _ => apply andb_true_iff in H as [? ?]
  | H : (_ || _) = false |- _ => apply orb_false_iff in H as [? ?]
  | H : negb _ = true |- _ => apply negb_true_iff in H
  | H : negb _ = false |- _ => apply negb_false_iff in H
  end.

(** Case analysis on the boolean comparison the goal is stuck on. *)
Ltac case_bool :=
  match goal with
  | |- context [if ?b then _ else _] => destruct b eqn:?; zify_bools
  end.

(** ** Lemmas on the monad *)
Lemma bind_done {S A B} (m : M S A) (f : A → M S B) s a s' :
  m s = Done (a, s') → (m ≫= f) s = f a s'.
Proof. intros H. unfold mbind, M_bind. by rewrite H. Qed.

Lemma bind_fault {S A B} (m : M S A) (f : A → M S B) s e :
  m s = Fault e → (m ≫= f) s = Fault e.
Proof. intros H. unfold mbind, M_bind. by rewrite H. Qed.

Lemma bind_assoc {S A B C} (m : M S A) (f : A → M S B) (g : B → M S C) s :
  ((m ≫= f) ≫= g) s = (m ≫= (λ a, f a ≫= g)) s.
Proof. unfold mbind, M_bind. by destruct (m s) as [[a s']|]. Qed.

Lemma bind_inv {S A B} (m : M S A) (f : A → M S B) s b s' :
  (m ≫= f) s = Done (b, s') → ∃ a s1, m s = Done (a, s1) ∧ f a s1 = Done (b, s').
Proof. unfold mbind, M_bind. destruct (m s) as [[a s1]|]; [eauto|done]. Qed.

Lemma bind_gets {S A B} (g : S → A) (f : A → M S B) s :
  (gets g ≫= f) s = f (g s) s.
Proof. done. Qed.

Lemma bind_modify {S B} (g : S → S) (f : unit → M S B) s :
  (modify g ≫= f) s = f tt (g s).
Proof. done. Qed.

Lemma bind_ret {S A B} (a : A) (f : A → M S B) s :
  (mret a ≫= f) s = f a s.
Proof. done. Qed.

Lemma bind_require_some {S A B} e (o : option A) a (f : A → M S B) s :
  o = Some a → (require e o ≫= f) s = f a s.
Proof. by intros ->. Qed.

Lemma bind_require_none {S A B} e (o : option A) (f : A → M S B) s :
  o = None → (require e o ≫= f) s = Fault e.
Proof. by intros ->. Qed.

(** *** What a run that returns preserves *)
Definition preserves {S A} (P : S → Prop) (m : M S A) : Prop := ∀ s x s', P s → m s = Done (x, s') → P s'.

Section preserves.
Context {S : Type} (P : S → Prop).

Lemma preserves_ret {A} (x : A) : preserves P (mret x).
Proof. intros s y s' Hs E. by injection E as _ <-. Qed.

Lemma preserves_fail {A} e : preserves P (A := A) (fail_with e).
Proof. by intros s y s' _ E. Qed.

Lemma preserves_bind {A C} (m : M S A) (f : A → M S C) : preserves P m → (∀ x, preserves P (f x)) → preserves P (m ≫= f).
Proof. intros Hm Hf s x s' Hs (y & s1 & E1 & E2)%bind_inv. eapply Hf; [eapply Hm; [exact Hs|exact E1]|exact E2]. Qed.

Lemma preserves_gets {A} (f : S → A) : preserves P (gets f).
Proof. intros s y s' Hs E. by injection E as _ <-. Qed.

Lemma preserves_require {A} e (o : option A) : preserves P (require e o).
Proof. destruct o; [apply preserves_ret|apply preserves_fail]. Qed.

Lemma preserves_modify f : (∀ s, P s → P (f s)) → preserves P (modify f).
Proof. intros Hf s y s' Hs E. injection E as _ <-. by apply Hf. Qed.

Lemma preserves_for n body : (∀ i, preserves P (body i)) → ∀ i, preserves P (for_loop n i body).
Proof. intros Hb. induction n as [|n IH]; intros i; [apply preserves_ret|]. apply preserves_bind; [apply Hb|]. intros _. apply IH. Qed.
End preserves.

Create Rewrite HintDb monad.
#[export] Hint Rewrite @bind_gets @bind_modify @bind_ret @bind_assoc : monad.

(** Runs the leading primitive operations of the goal's computation. *)
Ltac mrun := repeat (rewrite bind_gets || rewrite bind_modify || rewrite bind_ret
                     || rewrite bind_assoc).

(** ** Lemmas on machine integers *)
Lemma wrap_u_id w x : 0 ≤ x < 2 ^ w → wrap_u w x = x.
Proof. intros H. by apply Z.mod_small. Qed.

Lemma wrap_u_range w x : 0 ≤ w → 0 ≤ wrap_u w x < 2 ^ w.
Proof. intros H. apply Z.mod_pos_bound. lia. Qed.

Lemma wrap_s_id w x : 0 < w → - 2 ^ (w - 1) ≤ x < 2 ^ (w - 1) → wrap_s w x = x.
Proof.
  intros Hw Hx. unfold wrap_s.
  assert (2 ^ w = 2 * 2 ^ (w - 1)) as E.
  { rewrite <- Z.pow_succ_r by lia. f_equal; lia. }
  rewrite Z.mod_small by lia. lia.
Qed.

Lemma wrap_s_range w x : 0 < w → - 2 ^ (w - 1) ≤ wrap_s w x < 2 ^ (w - 1).
Proof.
  intros Hw. unfold wrap_s.
  assert (2 ^ w = 2 * 2 ^ (w - 1)) as E.
  { rewrite <- Z.pow_succ_r by lia. f_equal; lia. }
  pose proof (Z.mod_pos_bound (x + 2 ^ (w - 1)) (2 ^ w)). lia.
Qed.

Lemma s64_id x : - 2 ^ 63 ≤ x < 2 ^ 63 → s64 x = x.
Proof. intros H. by apply (wrap_s_id 64). Qed.

Lemma s32_id x : - 2 ^ 31 ≤ x < 2 ^ 31 → s32 x = x.
Proof. intros H. by apply (wrap_s_id 32). Qed.

Lemma s32_range x : - 2 ^ 31 ≤ s32 x < 2 ^ 31.
Proof. by apply (wrap_s_range 32). Qed.

Lemma s64_range x : - 2 ^ 63 ≤ s64 x < 2 ^ 63.
Proof. by apply (wrap_s_range 64). Qed.

Lemma u8_range x : 0 ≤ u8 x < 256.
Proof. by apply (wrap_u_range 8). Qed.

Lemma u16_range x : 0 ≤ u16 x < 2 ^ 16.
Proof. by apply (wrap_u_range 16). Qed.

Lemma u32_range x : 0 ≤ u32 x < 2 ^ 32.
Proof. by apply (wrap_u_range 32). Qed.

Lemma u8_id x : 0 ≤ x < 256 → u8 x = x.
Proof. by apply (wrap_u_id 8). Qed.

Lemma u16_id x : 0 ≤ x < 2 ^ 16 → u16 x = x.
Proof. by apply (wrap_u_id 16). Qed.

Lemma u32_id x : 0 ≤ x < 2 ^ 32 → u32 x = x.
Proof. by apply (wrap_u_id 32). Qed.

Lemma u64_id x : 0 ≤ x < 2 ^ 64 → u64 x = x.
Proof. by apply (wrap_u_id 64). Qed.

(** ** Lemmas on arrays *)
Lemma array_get_nat {A} (l : list A) (i : nat) : array_get l (Z.of_nat i) = l !! i.
Proof. unfold array_get. case_bool; [lia|]. by rewrite Nat2Z.id. Qed.

Lemma array_get_Some {A} (l : list A) i a :
  array_get l i = Some a → 0 ≤ i < Z.of_nat (length l).
Proof.
  unfold array_get. case_bool; [done|]. intros H%lookup_lt_Some. lia.
Qed.

Lemma array_get_is_Some {A} (l : list A) i :
  0 ≤ i < Z.of_nat (length l) → is_Some (array_get l i).
Proof. intros H. unfold array_get. case_bool; [lia|]. apply lookup_lt_is_Some. lia. Qed.

Lemma array_get_None {A} (l : list A) i :
  Z.of_nat (length l) ≤ i → array_get l i = None.
Proof.
  intros H. unfold array_get. case_bool; [done|]. apply lookup_ge_None. lia.
Qed.

Lemma array_set_Some {A} (l : list A) i (a : A) :
  0 ≤ i < Z.of_nat (length l) → array_set l i a = Some (<[Z.to_nat i := a]> l).
Proof. intros H. unfold array_set. case_bool; [|done]. apply orb_true_iff in Heqb as [?|?]; zify_bools; lia. Qed.

Lemma array_set_None {A} (l : list A) i (a : A) :
  Z.of_nat (length l) ≤ i → array_set l i a = None.
Proof.
  intros H. unfold array_set. case_bool; [done|]. lia.
Qed.

(** ** Lemmas on lists *)
Lemma last_cons_ne {A} (x : A) l : l ≠ [] → last (x :: l) = last l.
Proof. by destruct l. Qed.

Lemma last_not_nil {A} (l : list A) : l ≠ [] → is_Some (last l).
Proof. destruct l as [|x l]; [done|]. intros _. rewrite last_cons. destruct (last l); eauto. Qed.

Lemma filter_all {A} (P : A → Prop) `{!∀ x, Decision (P x)} (l : list A) :
  (∀ x, x ∈ l → P x) → filter P l = l.
Proof.
  induction l as [|x l IH]; intros Hl; [done|]. rewrite filter_cons, decide_True by set_solver.
  f_equal. apply IH. set_solver.
Qed.

Lemma filter_none {A} (P : A → Prop) `{!∀ x, Decision (P x)} (l : list A) :
  (∀ x, x ∈ l → ¬ P x) → filter P l = [].
Proof.
  induction l as [|x l IH]; intros Hl; [done|]. rewrite filter_cons, decide_False by set_solver.
  apply IH. set_solver.
Qed.

Lemma filter_ext_in {A} (P Q : A → Prop) `{!∀ x, Decision (P x), !∀ x, Decision (Q x)} (l : list A) :
  (∀ x, x ∈ l → P x ↔ Q x) → filter P l = filter Q l.
Proof.
  induction l as [|x l IH]; intros Hl; [done|]. rewrite !filter_cons, IH by set_solver.
  specialize (Hl x ltac:(set_solver)). repeat case_decide; tauto.
Qed.
