(* ===== verification/Mem.v ===== *)
(** * Memory: bytes, little-endian words and common/memory.S

    The memory that the kernel reaches through its linear map, as a finite map
    from kernel virtual addresses to bytes (a byte never written reads as zero),
    and the four routines of common/memory.S, loop by loop as the assembly has
    them: the counts are decremented and tested after the body, so memzero always
    clears a multiple of eight bytes and memcpy always copies at least one byte. *)
From stdpp Require Import base gmap list.
From Stdlib Require Import ZArith Lia.
From S2P Require Import Prelude.

#[local] Open Scope Z_scope.

(** The start of the linear map: libs/mm.h. *)
Definition VA_START : Z := 0xffff000000000000.

Abbreviation mem := (gmap Z Z) (only parsing).

Definition byte_at (m : mem) (a : Z) : Z := u8 (default 0 (m !! a)).
Definition put_byte (a v : Z) (m : mem) : mem := <[a := u8 v]> m.

(** [n]-byte little-endian accesses. *)
Fixpoint load_le (n : nat) (a : Z) (m : mem) : Z :=
  match n with
  | O => 0
  | S n => byte_at m a + 256 * load_le n (a + 1) m
  end.

Fixpoint store_le (n : nat) (a v : Z) (m : mem) : mem :=
  match n with
  | O => m
  | S n => store_le n (a + 1) (v / 256) (put_byte a v m)
  end.

Abbreviation load64 := (load_le 8).
Abbreviation store64 := (store_le 8).
Abbreviation load32 := (load_le 4).
Abbreviation store32 := (store_le 4).
Abbreviation load16 := (load_le 2).
Abbreviation store16 := (store_le 2).

(** ** common/memory.S *)

(** [str xzr, [x0], #8; subs x1, x1, #8; b.gt memzero] *)
Fixpoint memzero_loop (fuel : nat) (x0 x1 : Z) (m : mem) : mem :=
  match fuel with
  | O => m
  | S fuel =>
    let m := store64 x0 0 m in
    let x1 := s64 (x1 - 8) in
    if 0 <? x1 then memzero_loop fuel (x0 + 8) x1 m else m
  end.
Definition memzero (src n : Z) (m : mem) : mem := memzero_loop (S (Z.to_nat (n / 8))) src n m.

(** [ldrb w3, [x1], #1; strb w3, [x0], #1; subs w2, w2, #1; b.gt memcpy] *)
Fixpoint memcpy_loop (fuel : nat) (x0 x1 w2 : Z) (m : mem) : mem :=
  match fuel with
  | O => m
  | S fuel =>
    let m := put_byte x0 (byte_at m x1) m in
    let w2 := s32 (w2 - 1) in
    if 0 <? w2 then memcpy_loop fuel (x0 + 1) (x1 + 1) w2 m else m
  end.
Definition memcpy (dest src count : Z) (m : mem) : mem :=
  memcpy_loop (S (Z.to_nat count)) dest src count m.

(** The difference of the first bytes that differ, or 0. *)
Fixpoint memcmp_loop (fuel : nat) (x0 x1 x2 : Z) (m : mem) : Z :=
  match fuel with
  | O => 0
  | S fuel =>
    let w5 := byte_at m x0 - byte_at m x1 in
    if negb (w5 =? 0) then w5 else
    let x2 := x2 - 1 in
    if negb (x2 =? 0) then memcmp_loop fuel (x0 + 1) (x1 + 1) x2 m else 0
  end.
Definition memcmp (src1 src2 n : Z) (m : mem) : Z :=
  if n =? 0 then 0 else memcmp_loop (Z.to_nat n) src1 src2 n m.

Fixpoint memset_loop (fuel : nat) (x0 w1 : Z) (x2 : Z) (m : mem) : mem :=
  match fuel with
  | O => m
  | S fuel =>
    if x2 =? 0 then m else memset_loop fuel (x0 + 1) w1 (x2 - 1) (put_byte x0 w1 m)
  end.
Definition memset (dest c count : Z) (m : mem) : mem :=
  memset_loop (S (Z.to_nat count)) dest c count m.

(** ** Lemmas on bytes *)
Lemma byte_at_range m a : 0 ≤ byte_at m a < 256.
Proof. apply u8_range. Qed.

Lemma u8_u8 x : u8 (u8 x) = u8 x.
Proof. apply u8_id, u8_range. Qed.

Lemma byte_at_put m a v x : byte_at (put_byte a v m) x = if decide (x = a) then u8 v else byte_at m x.
Proof.
  unfold byte_at, put_byte. case_decide as E; [subst; rewrite lookup_insert_eq; apply u8_u8|].
  by rewrite lookup_insert_ne.
Qed.

(** Two memories with the same bytes. *)
Definition mem_same (m1 m2 : mem) : Prop := ∀ a, byte_at m1 a = byte_at m2 a.

#[export] Instance mem_same_equivalence : Equivalence mem_same.
Proof. split; [by intros ? ?|by intros ? ? H a|intros ? ? ? H1 H2 a; by rewrite H1]. Qed.

#[export] Instance byte_at_proper : Proper (mem_same ==> eq ==> eq) byte_at.
Proof. intros m1 m2 H a ? <-. apply H. Qed.

#[export] Instance put_byte_proper : Proper (eq ==> eq ==> mem_same ==> mem_same) put_byte.
Proof. intros a ? <- v ? <- m1 m2 H x. rewrite !byte_at_put. by rewrite H. Qed.

#[export] Instance load_le_proper n : Proper (eq ==> mem_same ==> eq) (load_le n).
Proof.
  intros a ? <- m1 m2 H. revert a. induction n as [|n IH]; intros a; [done|]. simpl.
  by rewrite IH, H.
Qed.

#[export] Instance store_le_proper n : Proper (eq ==> eq ==> mem_same ==> mem_same) (store_le n).
Proof.
  intros a ? <- v ? <-. revert a v. induction n as [|n IH]; intros a v m1 m2 H; [done|]. simpl.
  apply IH. by rewrite H.
Qed.

(** ** Lemmas on words *)
Lemma load_le_range n a m : 0 ≤ load_le n a m < 256 ^ Z.of_nat n.
Proof.
  revert a. induction n as [|n IH]; intros a; [simpl; lia|].
  rewrite Nat2Z.inj_succ, Z.pow_succ_r by lia. cbn [load_le].
  specialize (IH (a + 1)). pose proof (byte_at_range m a). lia.
Qed.

Lemma load_le_ext n a m1 m2 :
  (∀ x, a ≤ x < a + Z.of_nat n → byte_at m1 x = byte_at m2 x) → load_le n a m1 = load_le n a m2.
Proof.
  revert a. induction n as [|n IH]; intros a H; [done|]. cbn [load_le].
  rewrite IH, H; [done|lia|]. intros x Hx. apply H. lia.
Qed.

Lemma byte_at_store_le n a v m x :
  byte_at (store_le n a v m) x =
  if decide (a ≤ x < a + Z.of_nat n) then u8 (v / 256 ^ (x - a)) else byte_at m x.
Proof.
  revert a v m. induction n as [|n IH]; intros a v m.
  - rewrite decide_False by lia. done.
  - cbn [store_le]. rewrite IH. destruct (decide (x = a)) as [->|Hne].
    + rewrite decide_False, decide_True by lia. rewrite byte_at_put, decide_True by done.
      by rewrite Z.sub_diag, Z.pow_0_r, Z.div_1_r.
    + destruct (decide (a ≤ x < a + Z.of_nat (S n))).
      * rewrite decide_True by lia. f_equal. rewrite Z.div_div by lia. f_equal.
        rewrite <- Z.pow_succ_r by lia. f_equal. lia.
      * rewrite decide_False by lia. by rewrite byte_at_put, decide_False.
Qed.

Lemma load_store_le n a v m : load_le n a (store_le n a v m) = v mod 256 ^ Z.of_nat n.
Proof.
  revert a v m. induction n as [|n IH]; intros a v m; [by rewrite Z.mod_1_r|].
  cbn [load_le store_le]. rewrite IH, byte_at_store_le, decide_False by lia.
  rewrite byte_at_put, decide_True by done. rewrite Nat2Z.inj_succ, Z.pow_succ_r by lia.
  unfold u8, wrap_u. change (2 ^ 8) with 256.
  rewrite Z.rem_mul_r by lia. lia.
Qed.

Lemma load_le_zero n a m : (∀ x, a ≤ x < a + Z.of_nat n → byte_at m x = 0) → load_le n a m = 0.
Proof.
  revert a. induction n as [|n IH]; intros a H; [done|]. cbn [load_le]. rewrite IH, H; [done|lia|].
  intros x Hx. apply H. lia.
Qed.

Lemma load_le_move n a b m1 m2 :
  (∀ x, 0 ≤ x < Z.of_nat n → byte_at m1 (a + x) = byte_at m2 (b + x)) → load_le n a m1 = load_le n b m2.
Proof.
  revert a b. induction n as [|n IH]; intros a b H; [done|]. cbn [load_le].
  pose proof (H 0 ltac:(lia)) as H0. rewrite !Z.add_0_r in H0. rewrite H0, (IH (a + 1) (b + 1)); [done|].
  intros x Hx. specialize (H (x + 1) ltac:(lia)). by replace (a + 1 + x) with (a + (x + 1)) by lia;
    replace (b + 1 + x) with (b + (x + 1)) by lia.
Qed.

Lemma load_le_byte n a m i : 0 ≤ i < Z.of_nat n → u8 (load_le n a m / 256 ^ i) = byte_at m (a + i).
Proof.
  revert a i. induction n as [|n IH]; intros a i Hi; [lia|]. cbn [load_le].
  destruct (decide (i = 0)) as [->|Hne].
  - rewrite Z.add_0_r, Z.pow_0_r, Z.div_1_r, Z.mul_comm. unfold u8, wrap_u. change (2 ^ 8) with 256.
    rewrite Z.mod_add by lia. apply Z.mod_small, byte_at_range.
  - replace (256 ^ i) with (256 * 256 ^ (i - 1)) by (rewrite <- Z.pow_succ_r by lia; f_equal; lia).
    rewrite <- Z.div_div by lia. rewrite (Z.mul_comm 256 (load_le _ _ _)), Z.div_add by lia.
    rewrite (Z.div_small (byte_at m a)) by apply byte_at_range. rewrite Z.add_0_l, IH by lia. f_equal. lia.
Qed.

Lemma load_store_disjoint n n' a a' v m :
  a' + Z.of_nat n' ≤ a ∨ a + Z.of_nat n ≤ a' → load_le n' a' (store_le n a v m) = load_le n' a' m.
Proof. intros H. apply load_le_ext. intros x Hx. by rewrite byte_at_store_le, decide_False by lia. Qed.

(** ** The routines of memory.S *)

(** What memzero clears: the eight-byte words the count reaches, at least one. *)
Definition zeroed (n : Z) : Z := 8 * Z.max 1 ((n + 7) / 8).

Lemma memzero_loop_spec fuel x0 x1 m a :
  -8 < x1 < 2 ^ 63 → x1 ≤ 8 * Z.of_nat fuel → (0 < fuel)%nat →
  byte_at (memzero_loop fuel x0 x1 m) a =
  if decide (x0 ≤ a < x0 + zeroed x1) then 0 else byte_at m a.
Proof.
  revert x0 x1 m. induction fuel as [|fuel IH]; intros x0 x1 m Hx Hf H0; [lia|].
  cbn [memzero_loop]. rewrite s64_id by lia. unfold zeroed in *.
  assert (∀ x, byte_at (store64 x0 0 m) x = if decide (x0 ≤ x < x0 + 8) then 0 else byte_at m x) as Hs.
  { intros x. rewrite byte_at_store_le. change (Z.of_nat 8) with 8. case_decide; [|done].
    by rewrite Z.div_0_l by lia. }
  assert ((x1 + 7) / 8 = (x1 - 8 + 7) / 8 + 1) as E.
  { replace (x1 + 7) with ((x1 - 8 + 7) + 1 * 8) by lia. by rewrite Z.div_add by lia. }
  case_bool.
  - rewrite IH by lia. rewrite Hs. assert (1 ≤ (x1 - 8 + 7) / 8) by (apply Z.div_le_lower_bound; lia).
    repeat case_decide; try done; lia.
  - rewrite Hs. assert ((x1 - 8 + 7) / 8 < 1) by (apply Z.div_lt_upper_bound; lia).
    repeat case_decide; try done; lia.
Qed.

Lemma memzero_spec s n m a :
  0 ≤ n < 2 ^ 63 →
  byte_at (memzero s n m) a = if decide (s ≤ a < s + zeroed n) then 0 else byte_at m a.
Proof.
  intros Hn. apply memzero_loop_spec; [lia| |lia].
  pose proof (Z.div_mod n 8). pose proof (Z.mod_pos_bound n 8).
  assert (0 ≤ n / 8) by (apply Z.div_pos; lia). lia.
Qed.

Lemma memcpy_loop_spec fuel d s w m a :
  -1 < w < 2 ^ 31 → w < Z.of_nat fuel → d + Z.max 1 w ≤ s ∨ s + Z.max 1 w ≤ d →
  byte_at (memcpy_loop fuel d s w m) a =
  if decide (d ≤ a < d + Z.max 1 w) then byte_at m (s + (a - d)) else byte_at m a.
Proof.
  revert d s w m. induction fuel as [|fuel IH]; intros d s w m Hw Hf Hd; [lia|].
  cbn [memcpy_loop]. rewrite s32_id by lia. case_bool.
  - rewrite IH by lia. rewrite !byte_at_put. unfold byte_at at 1. rewrite u8_u8.
    fold (byte_at m s). repeat case_decide; try lia; try done; try (f_equal; lia).
    all: unfold byte_at; rewrite ?u8_u8; f_equal; f_equal; f_equal; lia.
  - rewrite byte_at_put. repeat case_decide; try lia; try done.
    subst. unfold byte_at. rewrite u8_u8. f_equal; f_equal; f_equal; lia.
Qed.

Lemma memcpy_spec d s n m a :
  0 ≤ n < 2 ^ 31 → d + Z.max 1 n ≤ s ∨ s + Z.max 1 n ≤ d →
  byte_at (memcpy d s n m) a =
  if decide (d ≤ a < d + Z.max 1 n) then byte_at m (s + (a - d)) else byte_at m a.
Proof. intros Hn Hd. apply memcpy_loop_spec; try done; lia. Qed.

Lemma memset_loop_spec fuel d c n m a :
  0 ≤ n < Z.of_nat fuel →
  byte_at (memset_loop fuel d c n m) a = if decide (d ≤ a < d + n) then u8 c else byte_at m a.
Proof.
  revert d n m. induction fuel as [|fuel IH]; intros d n m Hn; [lia|]. cbn [memset_loop].
  case_bool; [rewrite decide_False by lia; done|].
  rewrite IH, byte_at_put by lia. repeat case_decide; try done; lia.
Qed.

Lemma memset_spec d c n m a :
  0 ≤ n → byte_at (memset d c n m) a = if decide (d ≤ a < d + n) then u8 c else byte_at m a.
Proof. intros Hn. apply memset_loop_spec. lia. Qed.

Lemma memcmp_loop_zero fuel x0 x1 n m :
  0 < n ≤ Z.of_nat fuel →
  memcmp_loop fuel x0 x1 n m = 0 ↔ ∀ i, 0 ≤ i < n → byte_at m (x0 + i) = byte_at m (x1 + i).
Proof.
  revert x0 x1 n. induction fuel as [|fuel IH]; intros x0 x1 n Hn; [lia|]. cbn [memcmp_loop].
  destruct (byte_at m x0 - byte_at m x1 =? 0) eqn:E; simpl; zify_bools.
  - destruct (n - 1 =? 0) eqn:E'; simpl; zify_bools.
    + split; [|done]. intros _ i Hi. replace i with 0 by lia. rewrite !Z.add_0_r. lia.
    + rewrite IH by lia. split.
      * intros H i Hi. destruct (decide (i = 0)) as [->|]; [rewrite !Z.add_0_r; lia|].
        specialize (H (i - 1) ltac:(lia)). by replace (x0 + i) with (x0 + 1 + (i - 1)) by lia;
          replace (x1 + i) with (x1 + 1 + (i - 1)) by lia.
      * intros H i Hi. rewrite <- !Z.add_assoc. apply H. lia.
  - split; [done|]. intros H. specialize (H 0 ltac:(lia)). rewrite !Z.add_0_r in H. lia.
Qed.

Lemma memcmp_zero s1 s2 n m :
  0 ≤ n → memcmp s1 s2 n m = 0 ↔ ∀ i, 0 ≤ i < n → byte_at m (s1 + i) = byte_at m (s2 + i).
Proof.
  intros Hn. unfold memcmp. case_bool; [split; [intros; lia|done]|]. apply memcmp_loop_zero. lia.
Qed.
