(* ===== verification/CString.v ===== *)
(** * Strings: common/string.c

    The five string functions over byte memory, one Fixpoint per loop, and what
    they do to NUL-terminated strings.  The loops have no bound of their own; the
    fuel is one more than the number of bytes ever written, which is more than
    the number of bytes before any NUL. *)
From stdpp Require Import base gmap list.
From Stdlib Require Import ZArith Lia.
From S2P Require Import Prelude Mem.

#[local] Open Scope Z_scope.

Definition getc (a : Z) : M mem Z := gets (λ m, byte_at m a).
Definition putc (a v : Z) : M mem unit := modify (put_byte a v).
Definition string_fuel (m : mem) : nat := S (size m).

(** ** The functions *)
Fixpoint strlen_loop (fuel : nat) (str len : Z) : M mem Z :=
  match fuel with
  | O => fail_with OutOfFuel
  | S fuel =>
    c ← getc (str + len);
    if negb (c =? 0) then strlen_loop fuel str (len + 1) else mret len
  end.
Definition strlen (str : Z) : M mem Z :=
  fuel ← gets string_fuel; strlen_loop fuel str 0.

(** [while ( *pointer != '\0') pointer++;] *)
Fixpoint string_end (fuel : nat) (pointer : Z) : M mem Z :=
  match fuel with
  | O => fail_with OutOfFuel
  | S fuel =>
    c ← getc pointer;
    if negb (c =? 0) then string_end fuel (pointer + 1) else mret pointer
  end.

(** [while ( *src != '\0') *dest++ = *src++; *dest = '\0';] *)
Fixpoint copy_loop (fuel : nat) (dest src : Z) : M mem unit :=
  match fuel with
  | O => fail_with OutOfFuel
  | S fuel =>
    c ← getc src;
    if negb (c =? 0) then putc dest c;; copy_loop fuel (dest + 1) (src + 1)
    else putc dest 0
  end.

Definition strcat (dest src : Z) : M mem Z :=
  fuel ← gets string_fuel;
  pointer ← string_end fuel dest;
  copy_loop fuel pointer src;;
  mret dest.

Definition strcpy (dest src : Z) : M mem Z :=
  fuel ← gets string_fuel;
  copy_loop fuel dest src;;
  mret dest.

Definition ends_line (c : Z) : bool := (c =? 0) || (c =? 13) || (c =? 10).

(** The inner loop of strsplit: the rest of the line goes to dest2. *)
Fixpoint split_rest (fuel : nat) (pointer dest2 : Z) : M mem Z :=
  match fuel with
  | O => fail_with OutOfFuel
  | S fuel =>
    c ← getc pointer;
    if negb (ends_line c) then putc dest2 c;; split_rest fuel (pointer + 1) (dest2 + 1)
    else mret pointer
  end.

Fixpoint split_loop (fuel : nat) (pointer delimiter dest1 dest2 : Z) : M mem unit :=
  match fuel with
  | O => fail_with OutOfFuel
  | S fuel =>
    c ← getc pointer;
    if negb (ends_line c) then
      if c =? delimiter then
        putc dest1 0;;
        let dest2_start := pointer + 1 in
        pointer ← split_rest fuel (pointer + 1) dest2;
        split_loop fuel pointer delimiter dest1 dest2_start
      else
        c ← getc pointer;
        putc dest1 c;;
        split_loop fuel (pointer + 1) delimiter (dest1 + 1) dest2
    else mret tt
  end.
Definition strsplit (src delimiter dest1 dest2 : Z) : M mem unit :=
  fuel ← gets string_fuel; split_loop fuel src delimiter dest1 dest2.

Fixpoint strcmp_loop (n : nat) (i src1 src2 : Z) : M mem Z :=
  match n with
  | O => mret 0
  | S n =>
    a ← getc (src1 + i);
    b ← getc (src2 + i);
    if negb (a =? b) then mret 1 else strcmp_loop n (i + 1) src1 src2
  end.
Definition strcmp (src1 src2 sz : Z) : M mem Z := strcmp_loop (Z.to_nat sz) 0 src1 src2.

(** ** Strings in memory *)
Fixpoint bytes_at (m : mem) (a : Z) (l : list Z) : Prop :=
  match l with
  | [] => True
  | x :: l => byte_at m a = x ∧ bytes_at m (a + 1) l
  end.

(** The NUL-terminated string [l] at the address [a]. *)
Definition cstring (m : mem) (a : Z) (l : list Z) : Prop :=
  bytes_at m a (l ++ [0]) ∧ Forall (λ x, x ≠ 0) l.

Fixpoint write_bytes (a : Z) (l : list Z) (m : mem) : mem :=
  match l with
  | [] => m
  | x :: l => write_bytes (a + 1) l (put_byte a x m)
  end.

(** [n] bytes from [a] and [n'] bytes from [a'] have no byte in common. *)
Definition apart (a n a' n' : Z) : Prop := a + n ≤ a' ∨ a' + n' ≤ a.

Lemma bytes_at_app m a l1 l2 :
  bytes_at m a (l1 ++ l2) ↔ bytes_at m a l1 ∧ bytes_at m (a + Z.of_nat (length l1)) l2.
Proof.
  revert a. induction l1 as [|x l1 IH]; intros a; simpl.
  - rewrite Z.add_0_r. tauto.
  - rewrite IH. replace (a + 1 + Z.of_nat (length l1)) with (a + Z.of_nat (S (length l1))) by lia. tauto.
Qed.

Lemma bytes_at_ext m m' a l :
  (∀ x, a ≤ x < a + Z.of_nat (length l) → byte_at m' x = byte_at m x) →
  bytes_at m a l → bytes_at m' a l.
Proof.
  revert a. induction l as [|x l IH]; intros a H; [done|]. simpl in *. intros [<- Hl].
  split; [apply H; lia|]. apply IH; [|done]. intros y Hy. apply H. lia.
Qed.

Lemma byte_at_write_other a l m x :
  x < a ∨ a + Z.of_nat (length l) ≤ x → byte_at (write_bytes a l m) x = byte_at m x.
Proof.
  revert a m. induction l as [|y l IH]; intros a m H; [done|]. simpl in *.
  rewrite IH, byte_at_put, decide_False by lia. done.
Qed.

Lemma bytes_at_write a l m :
  Forall (λ x, 0 ≤ x < 256) l → bytes_at (write_bytes a l m) a l.
Proof.
  revert a m. induction l as [|y l IH]; intros a m Hl; [done|]. inversion Hl; subst. simpl. split.
  - rewrite byte_at_write_other, byte_at_put, decide_True by (done || lia). by apply u8_id.
  - by apply IH.
Qed.

Lemma bytes_at_write_apart a l a' l' m :
  apart a (Z.of_nat (length l)) a' (Z.of_nat (length l')) →
  bytes_at m a' l' → bytes_at (write_bytes a l m) a' l'.
Proof.
  intros Ha. apply bytes_at_ext. intros x Hx. apply byte_at_write_other. unfold apart in Ha. lia.
Qed.

Lemma write_bytes_app a l1 l2 m :
  write_bytes a (l1 ++ l2) m = write_bytes (a + Z.of_nat (length l1)) l2 (write_bytes a l1 m).
Proof.
  revert a m. induction l1 as [|x l1 IH]; intros a m; simpl; [by rewrite Z.add_0_r|].
  rewrite IH. by replace (a + 1 + Z.of_nat (length l1)) with (a + Z.of_nat (S (length l1))) by lia.
Qed.

Lemma bytes_at_range m a l : bytes_at m a l → Forall (λ x, 0 ≤ x < 256) l.
Proof.
  revert a. induction l as [|x l IH]; intros a; [done|]. intros [<- Hl]. constructor.
  - apply byte_at_range.
  - by eapply IH.
Qed.

Lemma bytes_at_lookup m a l i x :
  bytes_at m a l → l !! i = Some x → byte_at m (a + Z.of_nat i) = x.
Proof.
  revert a i. induction l as [|y l IH]; intros a i; [done|]. intros [<- Hl] Hi.
  destruct i as [|i]; simplify_eq/=; [by rewrite Z.add_0_r|].
  rewrite <- (IH _ _ Hl Hi). f_equal. lia.
Qed.

(** ** The fuel is enough *)

(** Non-zero bytes at distinct addresses have all been written. *)
Lemma nonzero_size m a l :
  bytes_at m a l → Forall (λ x, x ≠ 0) l → (length l ≤ size m)%nat.
Proof.
  intros Hb Hl.
  assert (∀ x, x ∈ seqZ a (Z.of_nat (length l)) → x ∈ dom m) as Hsub.
  { intros x Hx%elem_of_seqZ. apply elem_of_dom. destruct (m !! x) as [v|] eqn:E; [by exists v|].
    destruct (lookup_lt_is_Some_2 l (Z.to_nat (x - a))) as [v Hv]; [lia|].
    rewrite Forall_lookup in Hl. exfalso. apply (Hl _ _ Hv).
    rewrite <- (bytes_at_lookup _ _ _ _ _ Hb Hv). replace (a + Z.of_nat (Z.to_nat (x - a))) with x by lia.
    unfold byte_at. by rewrite E. }
  rewrite <- size_dom. replace (length l) with (length (seqZ a (Z.of_nat (length l)))).
  - rewrite <- (size_list_to_set (C:=gset Z)) by apply NoDup_seqZ.
    apply subseteq_size. intros x Hx%elem_of_list_to_set. by apply Hsub.
  - rewrite length_seqZ. lia.
Qed.

Lemma cstring_fuel m a l : cstring m a l → (length l < string_fuel m)%nat.
Proof. intros [Hb%bytes_at_app Hl]. pose proof (nonzero_size _ _ _ (proj1 Hb) Hl). unfold string_fuel. lia. Qed.

Lemma cstring_cons m a x l :
  cstring m a (x :: l) → byte_at m a = x ∧ x ≠ 0 ∧ cstring m (a + 1) l.
Proof. intros [[Hx Hb] Hl]. inversion Hl; subst. done. Qed.

Lemma cstring_nil m a : cstring m a [] → byte_at m a = 0.
Proof. by intros [[? _] _]. Qed.

Lemma bytes_at_get m a l x : bytes_at m a (x :: l) → byte_at m a = x.
Proof. by intros [? _]. Qed.

(** ** What the functions do *)
Lemma strlen_loop_run fuel str len m l :
  cstring m (str + len) l → (length l < fuel)%nat →
  strlen_loop fuel str len m = Done (len + Z.of_nat (length l), m).
Proof.
  revert fuel len. induction l as [|x l IH]; intros [|fuel] len Hc Hf; simpl in Hf; try lia.
  - simpl. unfold getc. mrun. rewrite (cstring_nil _ _ Hc). simpl. by rewrite Z.add_0_r.
  - apply cstring_cons in Hc as (Hx & Hne & Hc). simpl strlen_loop. unfold getc. mrun.
    rewrite Hx, (proj2 (Z.eqb_neq _ _) Hne). simpl. rewrite IH by (lia || by rewrite Z.add_assoc).
    do 2 f_equal. simpl. lia.
Qed.

Lemma strlen_run m s l : cstring m s l → strlen s m = Done (Z.of_nat (length l), m).
Proof.
  intros Hc. unfold strlen. mrun. rewrite (strlen_loop_run _ _ _ _ l); [done|by rewrite Z.add_0_r|].
  by eapply cstring_fuel.
Qed.

Lemma string_end_run fuel m p l :
  cstring m p l → (length l < fuel)%nat → string_end fuel p m = Done (p + Z.of_nat (length l), m).
Proof.
  revert fuel p. induction l as [|x l IH]; intros [|fuel] p Hc Hf; simpl in Hf; try lia.
  - simpl. unfold getc. mrun. rewrite (cstring_nil _ _ Hc). simpl. by rewrite Z.add_0_r.
  - apply cstring_cons in Hc as (Hx & Hne & Hc). simpl string_end. unfold getc. mrun.
    rewrite Hx, (proj2 (Z.eqb_neq _ _) Hne). simpl. rewrite IH by (done || lia).
    do 2 f_equal. lia.
Qed.

Lemma cstring_ext m m' a l :
  (∀ x, a ≤ x < a + Z.of_nat (length l) + 1 → byte_at m' x = byte_at m x) →
  cstring m a l → cstring m' a l.
Proof.
  intros H [Hb Hl]. split; [|done]. eapply bytes_at_ext; [|exact Hb].
  intros x Hx. apply H. rewrite length_app in Hx. simpl in Hx. lia.
Qed.

Lemma copy_loop_run fuel m d s l :
  cstring m s l → (length l < fuel)%nat →
  apart d (Z.of_nat (length l) + 1) s (Z.of_nat (length l) + 1) →
  copy_loop fuel d s m = Done (tt, write_bytes d (l ++ [0]) m).
Proof.
  revert fuel m d s. induction l as [|x l IH]; intros [|fuel] m d s Hc Hf Ha; simpl in Hf; try lia.
  - simpl. unfold getc. mrun. by rewrite (cstring_nil _ _ Hc).
  - apply cstring_cons in Hc as (Hx & Hne & Hc). simpl copy_loop. unfold getc, putc. mrun.
    rewrite Hx, (proj2 (Z.eqb_neq _ _) Hne). cbn [negb]. mrun. unfold apart in *. simpl length in Ha.
    rewrite IH; [done| |lia|lia]. eapply cstring_ext; [|exact Hc].
    intros y Hy. rewrite byte_at_put, decide_False by lia. done.
Qed.

Lemma cstring_bytes m a l : cstring m a l → Forall (λ x, 0 ≤ x < 256) (l ++ [0]).
Proof. intros [Hb _]. by eapply bytes_at_range. Qed.

Lemma cstring_write m m0 a l : cstring m0 a l → ∀ d, cstring (write_bytes d (l ++ [0]) m) d l.
Proof. intros Hc d. split; [apply bytes_at_write; by eapply cstring_bytes|apply Hc]. Qed.

Lemma strcpy_run m d s l :
  cstring m s l → apart d (Z.of_nat (length l) + 1) s (Z.of_nat (length l) + 1) →
  strcpy d s m = Done (d, write_bytes d (l ++ [0]) m).
Proof.
  intros Hc Ha. unfold strcpy. mrun.
  erewrite bind_done; [done|]. apply copy_loop_run; [done|by eapply cstring_fuel|done].
Qed.

(** Strcat on two strings that do not overlap. It completes, returns the
    destination, which then holds the concatenation with its NUL (so its length is
    the sum of the lengths), and no byte outside the appended part has changed. *)
Theorem strcat_spec m d s l1 l2 :
  cstring m d l1 → cstring m s l2 →
  apart d (Z.of_nat (length l1 + length l2) + 1) s (Z.of_nat (length l2) + 1) →
  ∃ m', strcat d s m = Done (d, m') ∧ cstring m' d (l1 ++ l2) ∧ cstring m' s l2 ∧
    strlen d m' = Done (Z.of_nat (length l1 + length l2), m') ∧
    ∀ x, x < d + Z.of_nat (length l1) ∨ d + Z.of_nat (length l1 + length l2) < x →
      byte_at m' x = byte_at m x.
Proof.
  intros H1 H2 Ha. unfold apart in Ha. set (e := d + Z.of_nat (length l1)).
  set (m' := write_bytes e (l2 ++ [0]) m). exists m'.
  assert (∀ x, x < e ∨ d + Z.of_nat (length l1 + length l2) < x → byte_at m' x = byte_at m x) as Hfr.
  { intros x Hx. apply byte_at_write_other. rewrite length_app. simpl. lia. }
  assert (cstring m' d (l1 ++ l2)) as Hd.
  { split; [|apply Forall_app; by split; [apply H1|apply H2]].
    rewrite <- app_assoc. apply bytes_at_app. split.
    - destruct H1 as [[Hb _]%bytes_at_app _]. eapply bytes_at_ext; [|exact Hb].
      intros x Hx. apply Hfr. lia.
    - apply bytes_at_write. by eapply cstring_bytes. }
  assert (cstring m' s l2) as Hs by (eapply cstring_ext; [|exact H2]; intros x Hx; apply Hfr; lia).
  split; [|split; [done|split; [done|split; [|done]]]].
  - unfold strcat. mrun. erewrite bind_done by (apply string_end_run; [done|by eapply cstring_fuel]).
    erewrite bind_done; [done|]. apply copy_loop_run; [done|by eapply cstring_fuel|unfold apart; lia].
  - rewrite <- length_app. by apply strlen_run.
Qed.

Lemma strcat_spec_witness :
  ∃ m', strcat 100 200 (write_bytes 200 [99; 0] (write_bytes 100 [97; 98; 0] ∅)) = Done (100, m') ∧
        cstring m' 100 [97; 98; 99].
Proof.
  destruct (strcat_spec (write_bytes 200 [99; 0] (write_bytes 100 [97; 98; 0] ∅)) 100 200 [97; 98] [99])
    as (m' & H1 & H2 & _).
  - split; [by vm_compute|by repeat constructor].
  - split; [by vm_compute|by repeat constructor].
  - unfold apart. simpl. lia.
  - by exists m'.
Defined.

(** *** strsplit *)
Definition plain (l : list Z) : Prop := Forall (λ x, ends_line x = false) l.

Lemma split_rest_run fuel m p d l e :
  bytes_at m p (l ++ [e]) → plain l → ends_line e = true → (length l < fuel)%nat →
  apart d (Z.of_nat (length l)) p (Z.of_nat (length l) + 1) →
  split_rest fuel p d m = Done (p + Z.of_nat (length l), write_bytes d l m).
Proof.
  revert fuel m p d. induction l as [|x l IH]; intros [|fuel] m p d Hb Hp He Hf Ha; simpl in Hf; try lia.
  - destruct Hb as [Hb _]. simpl. unfold getc. mrun. rewrite Hb, He. simpl. by rewrite Z.add_0_r.
  - destruct Hb as [Hx Hb]. inversion Hp as [|? ? Hpx Hpl]; subst. simpl split_rest. unfold getc, putc. mrun.
    rewrite Hpx. cbn [negb]. mrun. unfold apart in *. simpl length in Ha.
    rewrite IH; [simpl; do 2 f_equal; lia| |done|done|lia|lia].
    eapply bytes_at_ext; [|exact Hb]. intros y Hy. rewrite length_app in Hy. simpl in Hy.
    rewrite byte_at_put, decide_False by lia. done.
Qed.

(** The part of the line up to its end, or up to the delimiter. *)
Lemma split_loop_prefix fuel m p delim d1 d2 l rest :
  bytes_at m p (l ++ rest) → plain l → delim ∉ l → (length l ≤ fuel)%nat →
  apart d1 (Z.of_nat (length l)) p (Z.of_nat (length l + length rest)) →
  split_loop fuel p delim d1 d2 m =
  split_loop (fuel - length l) (p + Z.of_nat (length l)) delim (d1 + Z.of_nat (length l)) d2
    (write_bytes d1 l m).
Proof.
  revert fuel m p d1. induction l as [|x l IH]; intros fuel m p d1 Hb Hp Hd Hf Ha.
  - simpl. by rewrite Nat.sub_0_r, !Z.add_0_r.
  - destruct fuel as [|fuel]; [simpl in Hf; lia|]. destruct Hb as [Hx Hb].
    inversion Hp as [|? ? Hpx Hpl]; subst. simpl split_loop at 1. unfold getc, putc. mrun.
    rewrite Hpx. cbn [negb]. rewrite (proj2 (Z.eqb_neq _ _)) by set_solver. mrun.
    unfold apart in *. simpl length in *. rewrite IH; [| |done|set_solver|lia|lia].
    + simpl write_bytes. f_equal; lia.
    + eapply bytes_at_ext; [|exact Hb]. intros y Hy. rewrite length_app in Hy.
      rewrite byte_at_put, decide_False by lia. done.
Qed.

Lemma split_loop_end fuel m p delim d1 d2 :
  ends_line (byte_at m p) = true → (0 < fuel)%nat → split_loop fuel p delim d1 d2 m = Done (tt, m).
Proof. intros H Hf. destruct fuel; [lia|]. simpl. unfold getc. mrun. by rewrite H. Qed.

Lemma plain_nonzero l : plain l → Forall (λ x, x ≠ 0) l.
Proof. intros H. eapply Forall_impl; [exact H|]. by intros x Hx ->. Qed.

Lemma line_fuel m s l : bytes_at m s l → plain l → (length l < string_fuel m)%nat.
Proof. intros Hb Hl%plain_nonzero. pose proof (nonzero_size _ _ _ Hb Hl). unfold string_fuel. lia. Qed.

(** strsplit splits a line (ended by NUL, CR or LF) at the first delimiter,
    the source and the two destinations being disjoint. Without a delimiter the
    whole line goes to dest1 and nothing else is written, not even a NUL. With one,
    dest1 is the NUL-terminated part before it and dest2 receives the part after
    it, without a terminator: the string it holds is only right when the byte after
    it was already zero. *)
Theorem strsplit_spec m s delim d1 d2 l rest e :
  bytes_at m s (l ++ rest ++ [e]) → ends_line e = true → plain l → delim ∉ l →
  (rest = [] ∨ ∃ r, rest = delim :: r ∧ plain (delim :: r)) →
  let n := Z.of_nat (length l) in let n2 := Z.of_nat (length rest) in
  apart d1 (n + 1) s (n + n2 + 1) → apart d2 n2 s (n + n2 + 1) → apart d1 (n + 1) d2 n2 →
  ∃ m', strsplit s delim d1 d2 m = Done (tt, m') ∧
    match rest with
    | [] => m' = write_bytes d1 l m
    | _ :: r => cstring m' d1 l ∧ bytes_at m' d2 r ∧
        (byte_at m (d2 + Z.of_nat (length r)) = 0 → cstring m' d2 r) ∧
        ∀ x, ¬ d1 ≤ x ≤ d1 + n → ¬ d2 ≤ x < d2 + Z.of_nat (length r) → byte_at m' x = byte_at m x
    end.
Proof.
  intros Hb He Hp Hd Hr n n2 H1 H2 H12. unfold n, n2 in *. unfold apart in *.
  assert (length l + length rest < string_fuel m)%nat as Hf.
  { rewrite <- length_app. apply (line_fuel m s).
    - rewrite app_assoc in Hb. by apply bytes_at_app in Hb as [Hb _].
    - apply Forall_app. split; [done|]. by destruct Hr as [->|(r & -> & Hr)]. }
  unfold strsplit. mrun.
  rewrite (split_loop_prefix _ _ _ _ _ _ l (rest ++ [e])); [|done..|lia|unfold apart; rewrite length_app; simpl; lia].
  set (m1 := write_bytes d1 l m).
  assert (bytes_at m1 (s + Z.of_nat (length l)) (rest ++ [e])) as Hb1.
  { apply bytes_at_app in Hb as [_ Hb]. apply bytes_at_write_apart; [|done].
    unfold apart. rewrite length_app. simpl. lia. }
  destruct Hr as [->|(r & -> & Hr)].
  { exists m1. split; [|done]. destruct Hb1 as [Hb1 _]. apply split_loop_end; [by rewrite Hb1|simpl in Hf; lia]. }
  destruct Hb1 as [Hdl Hb1]. inversion Hr as [|? ? Hnd Hnr]; subst. simpl length in *.
  set (m2 := put_byte (d1 + Z.of_nat (length l)) 0 m1).
  assert (bytes_at m2 (s + Z.of_nat (length l) + 1) (r ++ [e])) as Hb2.
  { eapply bytes_at_ext; [|exact Hb1]. intros y Hy. rewrite length_app in Hy. simpl in Hy.
    unfold m2. rewrite byte_at_put, decide_False by lia. done. }
  exists (write_bytes d2 r m2). split.
  - destruct (string_fuel m - length l)%nat as [|f] eqn:Ef; [lia|]. cbn [split_loop]. unfold getc, putc. mrun.
    rewrite Hnd. cbn [negb]. rewrite Z.eqb_refl. mrun. fold m2.
    erewrite bind_done; [|apply (split_rest_run _ _ _ _ r e Hb2); [done|done|lia|unfold apart; lia]].
    apply split_loop_end; [|lia]. rewrite byte_at_write_other by lia.
    apply bytes_at_app in Hb2 as [_ [-> _]]. done.
  - assert (bytes_at (write_bytes d2 r m2) d2 r) as Hw.
    { apply bytes_at_write. apply bytes_at_app in Hb2 as [Hb2 _]. by eapply bytes_at_range. }
    assert (m2 = write_bytes d1 (l ++ [0]) m) as Em2 by (by rewrite write_bytes_app).
    assert (∀ x, ¬ d1 ≤ x ≤ d1 + Z.of_nat (length l) → byte_at m2 x = byte_at m x) as Hm2.
    { intros x Hx. rewrite Em2. apply byte_at_write_other. rewrite length_app. simpl. lia. }
    split; [|split; [done|split]].
    + split; [|by apply plain_nonzero]. apply bytes_at_write_apart; [unfold apart; rewrite length_app; simpl; lia|].
      rewrite Em2. apply bytes_at_write. apply Forall_app. split; [|by repeat constructor].
      apply bytes_at_app in Hb as [Hb _]. by eapply bytes_at_range.
    + intros Hz. split; [|by apply plain_nonzero]. apply bytes_at_app. split; [done|]. split; [|done].
      rewrite byte_at_write_other by lia. rewrite Hm2 by lia. done.
    + intros x Hx1 Hx2. rewrite byte_at_write_other by lia. by apply Hm2.
Qed.

Lemma strsplit_spec_witness :
  ∃ m', strsplit 100 32 200 300 (write_bytes 100 [99; 100; 32; 47; 13] ∅) = Done (tt, m') ∧
        cstring m' 200 [99; 100] ∧ bytes_at m' 300 [47].
Proof.
  destruct (strsplit_spec (write_bytes 100 [99; 100; 32; 47; 13] ∅) 100 32 200 300 [99; 100] [32; 47] 13)
    as (m' & H1 & H2 & H3 & _).
  - by vm_compute.
  - done.
  - by repeat constructor.
  - by apply (bool_decide_unpack _).
  - right. exists [47]. split; [done|]. by repeat constructor.
  - unfold apart. simpl. lia.
  - unfold apart. simpl. lia.
  - unfold apart. simpl. lia.
  - by exists m'.
Defined.

(** *** strcmp compares exactly [size] bytes *)
Lemma strcmp_loop_run n i s1 s2 m :
  ∃ r, strcmp_loop n i s1 s2 m = Done (r, m) ∧ (r = 0 ∨ r = 1) ∧
    (r = 0 ↔ ∀ j, i ≤ j < i + Z.of_nat n → byte_at m (s1 + j) = byte_at m (s2 + j)).
Proof.
  revert i. induction n as [|n IH]; intros i.
  - exists 0. split; [done|]. split; [by left|]. split; [intros; lia|done].
  - simpl. unfold getc. mrun. destruct (byte_at m (s1 + i) =? byte_at m (s2 + i)) eqn:E; simpl; zify_bools.
    + destruct (IH (i + 1)) as (r & Hr & H01 & Hiff). exists r. split; [done|]. split; [done|].
      rewrite Hiff. split; intros H j Hj.
      * destruct (decide (j = i)) as [->|]; [done|]. apply H. lia.
      * apply H. lia.
    + exists 1. split; [done|]. split; [by right|]. split; [done|]. intros H. destruct E. apply H. lia.
Qed.

(** ** Character arrays inside structures *)

(** strcpy from an array to an array: [None] when it would read or write past
    the end of one of them. *)
Fixpoint strcpy_array (dest src : list Z) : option (list Z) :=
  match src, dest with
  | x :: src, y :: dest =>
    if x =? 0 then Some (0 :: dest) else (x ::.) <$> strcpy_array dest src
  | _, _ => None
  end.

Lemma strcpy_array_Some dest src r :
  strcpy_array dest src = Some r →
  ∃ l src' dest', src = l ++ 0 :: src' ∧ Forall (λ x, x ≠ 0) l ∧ r = l ++ 0 :: dest' ∧
    length r = length dest ∧ dest' = drop (S (length l)) dest.
Proof.
  revert dest r. induction src as [|x src IH]; intros [|y dest] r; try done. simpl.
  destruct (x =? 0) eqn:E; zify_bools.
  - intros [= <-]. exists [], src, dest. subst. done.
  - destruct (strcpy_array dest src) as [r'|] eqn:Er; [|done]. intros [= <-].
    destruct (IH _ _ Er) as (l & src' & dest' & -> & Hl & -> & Hlen & ->).
    exists (x :: l), src', (drop (S (length l)) dest). repeat split; [by constructor| ].
    simpl. rewrite <- Hlen. simpl. done.
Qed.

Lemma strcpy_array_string dest src l :
  Forall (λ x, x ≠ 0) l → (length l < length dest)%nat →
  strcpy_array dest (l ++ 0 :: src) = Some (l ++ 0 :: drop (S (length l)) dest).
Proof.
  revert dest. induction l as [|x l IH]; intros [|y dest] Hl Hlen; simpl in Hlen; try lia; [done|].
  inversion Hl as [|? ? Hx Hl']; subst. simpl. rewrite (proj2 (Z.eqb_neq _ _) Hx).
  rewrite IH by (done || lia). done.
Qed.

(** On arrays that live in memory and do not overlap, it is what strcpy does. *)
Lemma strcpy_array_memory m d s dest src r :
  bytes_at m d dest → bytes_at m s src → strcpy_array dest src = Some r →
  apart d (Z.of_nat (length dest)) s (Z.of_nat (length src)) →
  ∃ m', strcpy d s m = Done (d, m') ∧ bytes_at m' d r ∧
    ∀ x, ¬ d ≤ x < d + Z.of_nat (length dest) → byte_at m' x = byte_at m x.
Proof.
  intros Hd Hs Hr Ha. destruct (strcpy_array_Some _ _ _ Hr) as (l & src' & dest' & -> & Hl & -> & Hlen & ->).
  rewrite length_app in *. simpl in *. rewrite length_drop in Hlen. unfold apart in Ha.
  assert (cstring m s l) as Hc.
  { split; [|done]. replace (l ++ 0 :: src') with ((l ++ [0]) ++ src') in Hs by (by rewrite <- app_assoc).
    by apply bytes_at_app in Hs as [Hs _]. }
  exists (write_bytes d (l ++ [0]) m). split; [|split].
  - apply strcpy_run; [done|unfold apart; lia].
  - replace (l ++ 0 :: drop (S (length l)) dest) with ((l ++ [0]) ++ drop (S (length l)) dest)
      by (by rewrite <- app_assoc).
    apply bytes_at_app. split; [apply bytes_at_write; by eapply cstring_bytes|].
    apply bytes_at_write_apart; [unfold apart; rewrite length_app; simpl; lia|].
    rewrite <- (take_drop (S (length l)) dest) in Hd. apply bytes_at_app in Hd as [_ Hd].
    rewrite length_take in Hd. rewrite length_app. simpl.
    replace (Z.of_nat (length l + 1)) with (Z.of_nat (S (length l) `min` length dest)) by lia. done.
  - intros x Hx. apply byte_at_write_other. rewrite length_app. simpl. lia.
Qed.
