(* ===== verification/Kernel.v ===== *)
(** * The kernel's data: process control blocks and scheduler globals

    The structures of libs/scheduler.h, the constants of libs/scheduler.h and
    common/ipc_types.h, and the global variables of libs/scheduler.c.  PCBs
    live in a heap indexed by their address, because the code shares them:
    the array [processes], the pointer [current_process] and the intrusive
    links [next_ready] of the ready queues all point to the same objects.
    A possibly NULL pointer is an [option ptr]. *)
From stdpp Require Import base gmap list.
From Stdlib Require Import ZArith Lia.
From S2P Require Import Prelude.

#[local] Open Scope Z_scope.

(** ** Pointers *)
Abbreviation ptr := Z (only parsing).

(** The address of the static object [init_process].  It is symbolic: what
    matters is that no page handed out by the page allocator has it. *)
Definition init_process : ptr := 1.

(** ** Constants *)
Definition N_PROCESSES : Z := 64.
Definition MAX_FILES_PER_PROCESS : Z := 16.
Definition MAX_PROCESS_PAGES : Z := 16.
Definition MAX_MESSAGES_PER_PROCESS : Z := 4.
Definition MAX_MESSAGES_BODY_SIZE : Z := 256.
Definition PF_KTHREAD : Z := 2.

Definition PROCESS_RUNNING : Z := 1.
Definition PROCESS_ZOMBIE : Z := 2.
Definition PROCESS_WAITING_UART_INPUT : Z := 3.
Definition PROCESS_WAITING_TO_RECEIVE_MESSAGE : Z := 4.
Definition PROCESS_WAITING_TO_SEND_MESSAGE : Z := 5.
Definition PROCESS_WAITING_ANOTHER_PROCESS : Z := 6.
Definition PROCESS_STOPPED : Z := 7.
Definition PROCESS_READY : Z := 8.

Definition QUEUE_PRIORITY_HIGHEST : Z := 0.
Definition MLFQ_BOOST_PERIOD : Z := 300.
Definition ML_MAX_LEVELS : Z := 5.

Definition SIGNAL_KILL : Z := 1.
Definition SIGNAL_STOP : Z := 2.
Definition SIGNAL_RESUME : Z := 3.

Definition SCHED_PARAM_PRIORITY : Z := 0.
Definition SCHED_PARAM_TICKETS : Z := 1.
Definition SCHED_PARAM_QUEUE_PRIORITY : Z := 2.

(** ** Structures *)
Record cpu_context : Type := mk_cpu_context {
  x19 : Z; x20 : Z; x21 : Z; x22 : Z; x23 : Z; x24 : Z; x25 : Z;
  x26 : Z; x27 : Z; x28 : Z; fp : Z; sp : Z; pc : Z
}.

Record user_page : Type := mk_user_page {
  physical_address : Z;
  virtual_address : Z
}.

Record mm_struct : Type := mk_mm_struct {
  pgd : Z;
  n_user_pages : Z;
  user_pages : list user_page;
  n_kernel_pages : Z;
  kernel_pages : list Z
}.

Record Message : Type := mk_Message {
  source_process : option ptr;
  destination_process : option ptr;
  body : list Z
}.

Record MessagesCircularBuffer : Type := mk_MessagesCircularBuffer {
  head : Z;
  tail : Z;
  buffer : list Message
}.

Record PCB : Type := mk_PCB {
  cpu_ctx : cpu_context;
  state : Z;
  counter : Z;
  priority : Z;
  est_burst : Z;
  burst_ticks : Z;
  queue_priority : Z;
  tickets : Z;
  preempt_disabled : Z;
  pid : Z;
  flags : Z;
  files : list (option ptr);
  mm : mm_struct;
  messages_buffer : MessagesCircularBuffer;
  pending_signals : Z;
  pid_to_wait : Z;
  next_ready : option ptr
}.

(** *** Field updates of a PCB *)
Definition with_cpu_ctx (v : cpu_context) (p : PCB) : PCB :=
  mk_PCB v (state p) (counter p) (priority p) (est_burst p) (burst_ticks p) (queue_priority p) (tickets p) (preempt_disabled p) (pid p) (flags p) (files p) (mm p) (messages_buffer p) (pending_signals p) (pid_to_wait p) (next_ready p).
Definition with_state (v : Z) (p : PCB) : PCB :=
  mk_PCB (cpu_ctx p) v (counter p) (priority p) (est_burst p) (burst_ticks p) (queue_priority p) (tickets p) (preempt_disabled p) (pid p) (flags p) (files p) (mm p) (messages_buffer p) (pending_signals p) (pid_to_wait p) (next_ready p).
Definition with_counter (v : Z) (p : PCB) : PCB :=
  mk_PCB (cpu_ctx p) (state p) v (priority p) (est_burst p) (burst_ticks p) (queue_priority p) (tickets p) (preempt_disabled p) (pid p) (flags p) (files p) (mm p) (messages_buffer p) (pending_signals p) (pid_to_wait p) (next_ready p).
Definition with_priority (v : Z) (p : PCB) : PCB :=
  mk_PCB (cpu_ctx p) (state p) (counter p) v (est_burst p) (burst_ticks p) (queue_priority p) (tickets p) (preempt_disabled p) (pid p) (flags p) (files p) (mm p) (messages_buffer p) (pending_signals p) (pid_to_wait p) (next_ready p).
Definition with_est_burst (v : Z) (p : PCB) : PCB :=
  mk_PCB (cpu_ctx p) (state p) (counter p) (priority p) v (burst_ticks p) (queue_priority p) (tickets p) (preempt_disabled p) (pid p) (flags p) (files p) (mm p) (messages_buffer p) (pending_signals p) (pid_to_wait p) (next_ready p).
Definition with_burst_ticks (v : Z) (p : PCB) : PCB :=
  mk_PCB (cpu_ctx p) (state p) (counter p) (priority p) (est_burst p) v (queue_priority p) (tickets p) (preempt_disabled p) (pid p) (flags p) (files p) (mm p) (messages_buffer p) (pending_signals p) (pid_to_wait p) (next_ready p).
Definition with_queue_priority (v : Z) (p : PCB) : PCB :=
  mk_PCB (cpu_ctx p) (state p) (counter p) (priority p) (est_burst p) (burst_ticks p) v (tickets p) (preempt_disabled p) (pid p) (flags p) (files p) (mm p) (messages_buffer p) (pending_signals p) (pid_to_wait p) (next_ready p).
Definition with_tickets (v : Z) (p : PCB) : PCB :=
  mk_PCB (cpu_ctx p) (state p) (counter p) (priority p) (est_burst p) (burst_ticks p) (queue_priority p) v (preempt_disabled p) (pid p) (flags p) (files p) (mm p) (messages_buffer p) (pending_signals p) (pid_to_wait p) (next_ready p).
Definition with_preempt_disabled (v : Z) (p : PCB) : PCB :=
  mk_PCB (cpu_ctx p) (state p) (counter p) (priority p) (est_burst p) (burst_ticks p) (queue_priority p) (tickets p) v (pid p) (flags p) (files p) (mm p) (messages_buffer p) (pending_signals p) (pid_to_wait p) (next_ready p).
Definition with_pid (v : Z) (p : PCB) : PCB :=
  mk_PCB (cpu_ctx p) (state p) (counter p) (priority p) (est_burst p) (burst_ticks p) (queue_priority p) (tickets p) (preempt_disabled p) v (flags p) (files p) (mm p) (messages_buffer p) (pending_signals p) (pid_to_wait p) (next_ready p).
Definition with_flags (v : Z) (p : PCB) : PCB :=
  mk_PCB (cpu_ctx p) (state p) (counter p) (priority p) (est_burst p) (burst_ticks p) (queue_priority p) (tickets p) (preempt_disabled p) (pid p) v (files p) (mm p) (messages_buffer p) (pending_signals p) (pid_to_wait p) (next_ready p).
Definition with_files (v : list (option ptr)) (p : PCB) : PCB :=
  mk_PCB (cpu_ctx p) (state p) (counter p) (priority p) (est_burst p) (burst_ticks p) (queue_priority p) (tickets p) (preempt_disabled p) (pid p) (flags p) v (mm p) (messages_buffer p) (pending_signals p) (pid_to_wait p) (next_ready p).
Definition with_mm (v : mm_struct) (p : PCB) : PCB :=
  mk_PCB (cpu_ctx p) (state p) (counter p) (priority p) (est_burst p) (burst_ticks p) (queue_priority p) (tickets p) (preempt_disabled p) (pid p) (flags p) (files p) v (messages_buffer p) (pending_signals p) (pid_to_wait p) (next_ready p).
Definition with_messages_buffer (v : MessagesCircularBuffer) (p : PCB) : PCB :=
  mk_PCB (cpu_ctx p) (state p) (counter p) (priority p) (est_burst p) (burst_ticks p) (queue_priority p) (tickets p) (preempt_disabled p) (pid p) (flags p) (files p) (mm p) v (pending_signals p) (pid_to_wait p) (next_ready p).
Definition with_pending_signals (v : Z) (p : PCB) : PCB :=
  mk_PCB (cpu_ctx p) (state p) (counter p) (priority p) (est_burst p) (burst_ticks p) (queue_priority p) (tickets p) (preempt_disabled p) (pid p) (flags p) (files p) (mm p) (messages_buffer p) v (pid_to_wait p) (next_ready p).
Definition with_pid_to_wait (v : Z) (p : PCB) : PCB :=
  mk_PCB (cpu_ctx p) (state p) (counter p) (priority p) (est_burst p) (burst_ticks p) (queue_priority p) (tickets p) (preempt_disabled p) (pid p) (flags p) (files p) (mm p) (messages_buffer p) (pending_signals p) v (next_ready p).
Definition with_next_ready (v : option ptr) (p : PCB) : PCB :=
  mk_PCB (cpu_ctx p) (state p) (counter p) (priority p) (est_burst p) (burst_ticks p) (queue_priority p) (tickets p) (preempt_disabled p) (pid p) (flags p) (files p) (mm p) (messages_buffer p) (pending_signals p) (pid_to_wait p) v.

(** *** Initial values (the macro INIT_PROCESS) *)
Definition zero_cpu_context : cpu_context := mk_cpu_context 0 0 0 0 0 0 0 0 0 0 0 0 0.
Definition zero_mm : mm_struct :=
  mk_mm_struct 0 0 (replicate (Z.to_nat MAX_PROCESS_PAGES) (mk_user_page 0 0))
               0 (replicate (Z.to_nat MAX_PROCESS_PAGES) 0).
Definition zero_message : Message :=
  mk_Message None None (replicate (Z.to_nat MAX_MESSAGES_BODY_SIZE) 0).
Definition zero_messages_buffer : MessagesCircularBuffer :=
  mk_MessagesCircularBuffer 0 0 (replicate (Z.to_nat MAX_MESSAGES_PER_PROCESS) zero_message).
Definition no_files : list (option ptr) :=
  replicate (Z.to_nat MAX_FILES_PER_PROCESS) None.

Definition INIT_PROCESS : PCB :=
  mk_PCB zero_cpu_context 0 1 1 0 0 QUEUE_PRIORITY_HIGHEST 10 0 0 0 no_files
         zero_mm zero_messages_buffer 0 (-1) None.

(** A PCB whose page has just been cleared. *)
Definition zero_PCB : PCB :=
  mk_PCB zero_cpu_context 0 0 0 0 0 0 0 0 0 0 no_files zero_mm zero_messages_buffer 0 0 None.

(** ** Scheduling algorithms *)

(** The address of one of the descriptors [sched_round_robin], ...: the values
    the pointer [active_algorithm] ranges over. *)
Inductive algorithm : Type :=
| ROUND_ROBIN | FCFS | SJF | LOTTERY | PRIORITY_AGING | MLQ | MLFQ.

Record MultilevelPolicy : Type := mk_MultilevelPolicy {
  n_levels : Z;
  quantum : list Z;
  demote_on_expiry : bool;
  boost_period : Z
}.

(** ** The scheduler's global state *)
Record ProcessQueue : Type := mk_ProcessQueue {
  qhead : option ptr;
  qtail : option ptr
}.

Definition QUEUE_INIT : ProcessQueue := mk_ProcessQueue None None.

(** The global variables other than the queues, with the processor state the
    kernel's assembly routines act on: the callee-saved registers, the
    translation base register, the interrupt mask and the free-running timer
    (an input: [system_timer n] is the value the [n]-th read returns). *)
Record Globals : Type := mk_Globals {
  current_process : ptr;
  processes : list (option ptr);
  n_processes : Z;
  queue_level : list Z;
  active_algorithm : algorithm;
  lottery_rng_state : Z;
  ml_ticks_since_boost : Z;
  ttbr0 : Z;
  cpu : cpu_context;
  irq_enabled : bool;
  system_timer : nat → Z;
  timer_reads : nat
}.

Definition with_current_process (v : ptr) (g : Globals) : Globals :=
  mk_Globals v (processes g) (n_processes g) (queue_level g) (active_algorithm g) (lottery_rng_state g) (ml_ticks_since_boost g) (ttbr0 g) (cpu g) (irq_enabled g) (system_timer g) (timer_reads g).
Definition with_processes (v : list (option ptr)) (g : Globals) : Globals :=
  mk_Globals (current_process g) v (n_processes g) (queue_level g) (active_algorithm g) (lottery_rng_state g) (ml_ticks_since_boost g) (ttbr0 g) (cpu g) (irq_enabled g) (system_timer g) (timer_reads g).
Definition with_n_processes (v : Z) (g : Globals) : Globals :=
  mk_Globals (current_process g) (processes g) v (queue_level g) (active_algorithm g) (lottery_rng_state g) (ml_ticks_since_boost g) (ttbr0 g) (cpu g) (irq_enabled g) (system_timer g) (timer_reads g).
Definition with_queue_level (v : list Z) (g : Globals) : Globals :=
  mk_Globals (current_process g) (processes g) (n_processes g) v (active_algorithm g) (lottery_rng_state g) (ml_ticks_since_boost g) (ttbr0 g) (cpu g) (irq_enabled g) (system_timer g) (timer_reads g).
Definition with_active_algorithm (v : algorithm) (g : Globals) : Globals :=
  mk_Globals (current_process g) (processes g) (n_processes g) (queue_level g) v (lottery_rng_state g) (ml_ticks_since_boost g) (ttbr0 g) (cpu g) (irq_enabled g) (system_timer g) (timer_reads g).
Definition with_lottery_rng_state (v : Z) (g : Globals) : Globals :=
  mk_Globals (current_process g) (processes g) (n_processes g) (queue_level g) (active_algorithm g) v (ml_ticks_since_boost g) (ttbr0 g) (cpu g) (irq_enabled g) (system_timer g) (timer_reads g).
Definition with_ml_ticks_since_boost (v : Z) (g : Globals) : Globals :=
  mk_Globals (current_process g) (processes g) (n_processes g) (queue_level g) (active_algorithm g) (lottery_rng_state g) v (ttbr0 g) (cpu g) (irq_enabled g) (system_timer g) (timer_reads g).
Definition with_ttbr0 (v : Z) (g : Globals) : Globals :=
  mk_Globals (current_process g) (processes g) (n_processes g) (queue_level g) (active_algorithm g) (lottery_rng_state g) (ml_ticks_since_boost g) v (cpu g) (irq_enabled g) (system_timer g) (timer_reads g).
Definition with_cpu (v : cpu_context) (g : Globals) : Globals :=
  mk_Globals (current_process g) (processes g) (n_processes g) (queue_level g) (active_algorithm g) (lottery_rng_state g) (ml_ticks_since_boost g) (ttbr0 g) v (irq_enabled g) (system_timer g) (timer_reads g).
Definition with_irq_enabled (v : bool) (g : Globals) : Globals :=
  mk_Globals (current_process g) (processes g) (n_processes g) (queue_level g) (active_algorithm g) (lottery_rng_state g) (ml_ticks_since_boost g) (ttbr0 g) (cpu g) v (system_timer g) (timer_reads g).
Definition with_system_timer (v : nat → Z) (g : Globals) : Globals :=
  mk_Globals (current_process g) (processes g) (n_processes g) (queue_level g) (active_algorithm g) (lottery_rng_state g) (ml_ticks_since_boost g) (ttbr0 g) (cpu g) (irq_enabled g) v (timer_reads g).
Definition with_timer_reads (v : nat) (g : Globals) : Globals :=
  mk_Globals (current_process g) (processes g) (n_processes g) (queue_level g) (active_algorithm g) (lottery_rng_state g) (ml_ticks_since_boost g) (ttbr0 g) (cpu g) (irq_enabled g) (system_timer g) v.

Record Kernel : Type := mk_Kernel {
  heap : gmap ptr PCB;
  ready_queue : ProcessQueue;
  ml_queues : list ProcessQueue;
  globals : Globals
}.

Definition with_heap (v : gmap ptr PCB) (k : Kernel) : Kernel :=
  mk_Kernel v (ready_queue k) (ml_queues k) (globals k).
Definition with_ready_queue (v : ProcessQueue) (k : Kernel) : Kernel :=
  mk_Kernel (heap k) v (ml_queues k) (globals k).
Definition with_ml_queues (v : list ProcessQueue) (k : Kernel) : Kernel :=
  mk_Kernel (heap k) (ready_queue k) v (globals k).
Definition with_globals (v : Globals) (k : Kernel) : Kernel :=
  mk_Kernel (heap k) (ready_queue k) (ml_queues k) v.

(** The state the scheduler's static initialisers give. *)
Definition boot_globals (a : algorithm) (timer : nat → Z) : Globals :=
  mk_Globals init_process
    (Some init_process :: replicate (Z.to_nat N_PROCESSES - 1) None)
    1 (replicate (Z.to_nat N_PROCESSES) 0) a 88172645463325252 0
    0 zero_cpu_context false timer 0.

Definition boot_kernel (a : algorithm) (timer : nat → Z) : Kernel :=
  mk_Kernel {[ init_process := INIT_PROCESS ]} QUEUE_INIT
    (replicate (Z.to_nat ML_MAX_LEVELS) QUEUE_INIT) (boot_globals a timer).

(** ** Access to the heap and to the globals *)
Definition cur (k : Kernel) : ptr := current_process (globals k).

Definition get_current : M Kernel ptr := gets cur.
Definition get_global {A} (f : Globals → A) : M Kernel A := gets (f ∘ globals).
Definition set_global (f : Globals → Globals) : M Kernel unit :=
  modify (λ k, with_globals (f (globals k)) k).

(** [p->field]: a read through a pointer that is not NULL. *)
Definition load (p : ptr) : M Kernel PCB := λ k,
  match heap k !! p with
  | Some c => Done (c, k)
  | None => Fault DanglingPointer
  end.

(** [p->field = ...]: a write through a pointer that is not NULL. *)
Definition store (p : ptr) (f : PCB → PCB) : M Kernel unit := λ k,
  match heap k !! p with
  | Some c => Done (tt, with_heap (<[p := f c]> (heap k)) k)
  | None => Fault DanglingPointer
  end.

Definition nonnull (o : option ptr) : M Kernel ptr := require NullPointer o.

(** [pid] is the index of an entry of the arrays of N_PROCESSES elements. *)
Definition get_queue_level (i : Z) : M Kernel Z :=
  l ← get_global queue_level; require OutOfBounds (array_get l i).
Definition set_queue_level (i v : Z) : M Kernel unit :=
  l ← get_global queue_level;
  l' ← require OutOfBounds (array_set l i v);
  set_global (with_queue_level l').

(** ** Lemmas *)
Lemma load_some k p c : heap k !! p = Some c → load p k = Done (c, k).
Proof. intros H. unfold load. by rewrite H. Qed.

Lemma store_some k p c f :
  heap k !! p = Some c → store p f k = Done (tt, with_heap (<[p := f c]> (heap k)) k).
Proof. intros H. unfold store. by rewrite H. Qed.

Lemma get_queue_level_some k i v :
  array_get (queue_level (globals k)) i = Some v → get_queue_level i k = Done (v, k).
Proof. intros H. unfold get_queue_level, get_global. mrun. simpl. by rewrite H. Qed.

#[export] Instance algorithm_eq_dec : EqDecision algorithm.
Proof. solve_decision. Defined.
