(* ===== verification/Queue.v ===== *)
(** * Ready queues: intrusive singly linked lists of PCBs

    The queue operations of libs/scheduler.c (enqueue_process_to,
    dequeue_process_from, remove_process_from, enqueue_sorted_to) on the
    pointer structure the code builds, an abstract kernel state in which a
    queue is a list of processes, and the representation relation [R] under
    which every operation refines its list counterpart. *)
From stdpp Require Import base gmap list.
From Stdlib Require Import ZArith Lia.
From S2P Require Import Prelude Kernel.

#[local] Open Scope Z_scope.

(** ** The pointer code *)

(** A [ProcessQueue *]: the address of one of the kernel's queues. *)
Inductive queue_ref : Type := READY_QUEUE | ML_QUEUE (level : nat).

#[export] Instance queue_ref_eq_dec : EqDecision queue_ref.
Proof. solve_decision. Defined.

Definition queue_at (k : Kernel) (q : queue_ref) : option ProcessQueue :=
  match q with
  | READY_QUEUE => Some (ready_queue k)
  | ML_QUEUE n => ml_queues k !! n
  end.

Definition put_queue (q : queue_ref) (v : ProcessQueue) (k : Kernel) : Kernel :=
  match q with
  | READY_QUEUE => with_ready_queue v k
  | ML_QUEUE n => with_ml_queues (<[n := v]> (ml_queues k)) k
  end.

Definition get_queue (q : queue_ref) : M Kernel ProcessQueue :=
  o ← gets (λ k, queue_at k q); require OutOfBounds o.
Definition set_queue (q : queue_ref) (v : ProcessQueue) : M Kernel unit :=
  modify (put_queue q v).

Definition enqueue_process_to (queue : queue_ref) (process : option ptr) : M Kernel unit :=
  match process with
  | None => mret tt
  | Some process =>
    if decide (process = init_process) then mret tt else
    store process (with_next_ready None);;
    store process (with_state PROCESS_READY);;
    q ← get_queue queue;
    match qtail q with
    | None => set_queue queue (mk_ProcessQueue (Some process) (Some process))
    | Some t =>
      store t (with_next_ready (Some process));;
      set_queue queue (mk_ProcessQueue (qhead q) (Some process))
    end
  end.

Definition dequeue_process_from (queue : queue_ref) : M Kernel (option ptr) :=
  q ← get_queue queue;
  match qhead q with
  | None => mret None
  | Some process =>
    c ← load process;
    set_queue queue (mk_ProcessQueue (next_ready c)
                       (match next_ready c with Some _ => qtail q | None => None end));;
    store process (with_next_ready None);;
    mret (Some process)
  end.

Definition remove_process_from (queue : queue_ref) (previous : option ptr)
    (process : ptr) : M Kernel unit :=
  c ← load process;
  match previous with
  | None =>
    q ← get_queue queue;
    set_queue queue (mk_ProcessQueue (next_ready c) (qtail q))
  | Some previous => store previous (with_next_ready (next_ready c))
  end;;
  q ← get_queue queue;
  (if decide (qtail q = Some process)
   then set_queue queue (mk_ProcessQueue (qhead q) previous) else mret tt);;
  store process (with_next_ready None).

(** The [while] loop of enqueue_sorted_to: the node after which to insert. *)
Fixpoint sorted_position (fuel : nat) (process current : ptr) : M Kernel ptr :=
  match fuel with
  | O => fail_with OutOfFuel
  | S fuel =>
    c ← load current;
    match next_ready c with
    | None => mret current
    | Some next =>
      p ← load process;
      n ← load next;
      if est_burst p <? est_burst n then mret current
      else sorted_position fuel process next
    end
  end.

Definition enqueue_sorted_to (queue : queue_ref) (process : option ptr) : M Kernel unit :=
  match process with
  | None => mret tt
  | Some process =>
    if decide (process = init_process) then mret tt else
    store process (with_next_ready None);;
    store process (with_state PROCESS_READY);;
    q ← get_queue queue;
    match qhead q with
    | None => set_queue queue (mk_ProcessQueue (Some process) (Some process))
    | Some h =>
      p ← load process;
      hc ← load h;
      if est_burst p <? est_burst hc then
        store process (with_next_ready (Some h));;
        set_queue queue (mk_ProcessQueue (Some process) (qtail q))
      else
        fuel ← gets (λ k, size (heap k));
        current ← sorted_position fuel process h;
        cc ← load current;
        store process (with_next_ready (next_ready cc));;
        store current (with_next_ready (Some process));;
        p ← load process;
        match next_ready p with
        | Some _ => mret tt
        | None => q ← get_queue queue;
                  set_queue queue (mk_ProcessQueue (qhead q) (Some process))
        end
    end
  end.

(** ** The abstract kernel: queues are lists of processes *)

Definition erase_next (c : PCB) : PCB := with_next_ready None c.
Definition erase (h : gmap ptr PCB) : gmap ptr PCB := erase_next <$> h.

Record AKernel : Type := mk_AKernel {
  a_pcbs : gmap ptr PCB;
  a_ready : list ptr;
  a_ml : list (list ptr);
  a_globals : Globals
}.

Definition a_queue (a : AKernel) (q : queue_ref) : list ptr :=
  match q with
  | READY_QUEUE => a_ready a
  | ML_QUEUE n => default [] (a_ml a !! n)
  end.

Definition a_set_queue (q : queue_ref) (l : list ptr) (a : AKernel) : AKernel :=
  match q with
  | READY_QUEUE => mk_AKernel (a_pcbs a) l (a_ml a) (a_globals a)
  | ML_QUEUE n => mk_AKernel (a_pcbs a) (a_ready a) (<[n := l]> (a_ml a)) (a_globals a)
  end.

Definition a_set_pcbs (m : gmap ptr PCB) (a : AKernel) : AKernel :=
  mk_AKernel m (a_ready a) (a_ml a) (a_globals a).
Definition a_update (p : ptr) (f : PCB → PCB) (a : AKernel) : AKernel :=
  a_set_pcbs (alter f p (a_pcbs a)) a.
Definition a_set_globals (f : Globals → Globals) (a : AKernel) : AKernel :=
  mk_AKernel (a_pcbs a) (a_ready a) (a_ml a) (f (a_globals a)).

(** What enqueueing does: the process is READY and last in its queue. *)
Definition a_enqueue (q : queue_ref) (p : ptr) (a : AKernel) : AKernel :=
  a_set_queue q (a_queue a q ++ [p]) (a_update p (with_state PROCESS_READY) a).

(** Insertion before the first process with a longer estimated burst. *)
Fixpoint insert_by_burst (burst : ptr → Z) (p : ptr) (l : list ptr) : list ptr :=
  match l with
  | [] => [p]
  | x :: l' => if burst p <? burst x then p :: x :: l' else x :: insert_by_burst burst p l'
  end.

Definition a_burst (a : AKernel) (p : ptr) : Z :=
  match a_pcbs a !! p with Some c => est_burst c | None => 0 end.

Definition a_enqueue_sorted (q : queue_ref) (p : ptr) (a : AKernel) : AKernel :=
  a_set_queue q (insert_by_burst (a_burst a) p (a_queue a q))
    (a_update p (with_state PROCESS_READY) a).

(** ** The representation relation *)

(** The nodes [l], linked from [o] by [next_ready], with [e] after the last. *)
Fixpoint lseg (h : gmap ptr PCB) (o : option ptr) (l : list ptr) (e : option ptr) : Prop :=
  match l with
  | [] => o = e
  | p :: l' => o = Some p ∧ ∃ c, h !! p = Some c ∧ lseg h (next_ready c) l' e
  end.

Definition queue_rep (h : gmap ptr PCB) (q : ProcessQueue) (l : list ptr) : Prop :=
  lseg h (qhead q) l None ∧ qtail q = last l.

Definition valid_queue (q : queue_ref) : Prop :=
  match q with
  | READY_QUEUE => True
  | ML_QUEUE n => (n < Z.to_nat ML_MAX_LEVELS)%nat
  end.

Definition queued (a : AKernel) (p : ptr) : Prop := ∃ q, p ∈ a_queue a q.

(** No process is linked twice, in one queue or in two. *)
Definition queues_disjoint (a : AKernel) : Prop :=
  (∀ q, NoDup (a_queue a q)) ∧
  (∀ q1 q2 p, p ∈ a_queue a q1 → p ∈ a_queue a q2 → q1 = q2).

Record R (k : Kernel) (a : AKernel) : Prop := mk_R {
  R_pcbs : a_pcbs a = erase (heap k);
  R_queues : ∀ q, valid_queue q →
    ∃ v, queue_at k q = Some v ∧ queue_rep (heap k) v (a_queue a q);
  R_globals : a_globals a = globals k;
  R_levels : length (ml_queues k) = Z.to_nat ML_MAX_LEVELS;
  R_alevels : length (a_ml a) = Z.to_nat ML_MAX_LEVELS;
  R_disjoint : queues_disjoint a
}.

(** [sim k m r a]: from [k], [m] completes with the result [r], in a state that
    represents [a]. *)
Definition sim {A} (k : Kernel) (m : M Kernel A) (r : A) (a : AKernel) : Prop :=
  ∃ k', m k = Done (r, k') ∧ R k' a.

(** Updates of a PCB that leave its link alone. *)
Class NextNeutral (f : PCB → PCB) : Prop := {
  neutral_next : ∀ c, next_ready (f c) = next_ready c;
  neutral_erase : ∀ c, erase_next (f c) = f (erase_next c)
}.

(** ** Simulation rules *)
Lemma sim_ret {A} k a (r : A) : R k a → sim k (mret r) r a.
Proof. intros H. by exists k. Qed.

Lemma sim_bind {A B} k (m : M Kernel A) (f : A → M Kernel B) r a r' a' :
  sim k m r a → (∀ k1, R k1 a → sim k1 (f r) r' a') → sim k (m ≫= f) r' a'.
Proof.
  intros (k1 & Hm & HR) Hf. destruct (Hf k1 HR) as (k2 & Hf2 & HR2).
  exists k2. split; [|done]. by rewrite (bind_done _ _ _ _ _ Hm).
Qed.

Lemma sim_done {A B} k (m : M Kernel A) (f : A → M Kernel B) x r a :
  m k = Done (x, k) → sim k (f x) r a → sim k (m ≫= f) r a.
Proof. intros H. unfold sim. by rewrite (bind_done _ _ _ _ _ H). Qed.

Lemma sim_run {A B} k (m : M Kernel A) (f : A → M Kernel B) x k1 r a :
  m k = Done (x, k1) → sim k1 (f x) r a → sim k (m ≫= f) r a.
Proof. intros H. unfold sim. by rewrite (bind_done _ _ _ _ _ H). Qed.

Lemma sim_assoc {A B C} k (m : M Kernel A) (f : A → M Kernel B) (g : B → M Kernel C) r a :
  sim k (m ≫= (λ x, f x ≫= g)) r a → sim k ((m ≫= f) ≫= g) r a.
Proof. unfold sim. by rewrite bind_assoc. Qed.

Lemma sim_gets {A B} k (g : Kernel → A) (f : A → M Kernel B) r a :
  sim k (f (g k)) r a → sim k (gets g ≫= f) r a.
Proof. done. Qed.

Lemma sim_global {A B} k a (g : Globals → A) (f : A → M Kernel B) r a' :
  R k a → sim k (f (g (a_globals a))) r a' → sim k (get_global g ≫= f) r a'.
Proof. intros H. by rewrite (R_globals _ _ H). Qed.

Lemma sim_current {B} k a (f : ptr → M Kernel B) r a' :
  R k a → sim k (f (current_process (a_globals a))) r a' → sim k (get_current ≫= f) r a'.
Proof. intros H. by rewrite (R_globals _ _ H). Qed.

Lemma R_heap_lookup k a p c :
  R k a → a_pcbs a !! p = Some c → ∃ c', heap k !! p = Some c' ∧ c = erase_next c'.
Proof.
  intros H. rewrite (R_pcbs _ _ H). unfold erase. rewrite lookup_fmap.
  intros (c' & ? & ?)%fmap_Some. eauto.
Qed.

Lemma R_heap_lookup_2 k a p c :
  R k a → heap k !! p = Some c → a_pcbs a !! p = Some (erase_next c).
Proof. intros H Hc. rewrite (R_pcbs _ _ H). unfold erase. by rewrite lookup_fmap, Hc. Qed.

Lemma sim_load {B} k a p c (f : PCB → M Kernel B) r a' :
  R k a → a_pcbs a !! p = Some c →
  (∀ c', heap k !! p = Some c' → c = erase_next c' → sim k (f c') r a') →
  sim k (load p ≫= f) r a'.
Proof.
  intros HR Hc Hf. destruct (R_heap_lookup _ _ _ _ HR Hc) as (c' & Hc' & ->).
  destruct (Hf c' Hc' eq_refl) as (k' & H1 & H2). exists k'. split; [|done].
  by rewrite (bind_done _ _ _ _ _ (load_some _ _ _ Hc')).
Qed.

Lemma sim_require {A B} k e (o : option A) v (f : A → M Kernel B) r a :
  o = Some v → sim k (f v) r a → sim k (require e o ≫= f) r a.
Proof. by intros ->. Qed.

(** *** Segments *)
Lemma lseg_frame h h' o l e :
  (∀ p, p ∈ l → next_ready <$> h' !! p = next_ready <$> h !! p) →
  lseg h o l e → lseg h' o l e.
Proof.
  revert o. induction l as [|p l IH]; intros o Hf; simpl; [done|].
  intros (-> & c & Hc & Hl). split; [done|].
  specialize (Hf p ltac:(set_solver)) as Hp. rewrite Hc in Hp. simpl in Hp.
  apply fmap_Some in Hp as (c' & Hc' & E). exists c'. split; [done|].
  rewrite <- E. apply IH; [|done]. intros q Hq. apply Hf. set_solver.
Qed.

Lemma lseg_app h o l1 l2 e :
  lseg h o (l1 ++ l2) e ↔ ∃ m, lseg h o l1 m ∧ lseg h m l2 e.
Proof.
  revert o. induction l1 as [|p l1 IH]; intros o; simpl.
  { split; [intros H; by exists o | intros (m & -> & H); done]. }
  split.
  - intros (-> & c & Hc & (m & H1 & H2)%IH). exists m. split; [|done].
    split; [done|]. eauto.
  - intros (m & (-> & c & Hc & H1) & H2). split; [done|]. exists c. split; [done|].
    apply IH. eauto.
Qed.

Lemma lseg_dom h o l e p : lseg h o l e → p ∈ l → is_Some (h !! p).
Proof.
  revert o. induction l as [|x l IH]; intros o; simpl; [set_solver|].
  intros (-> & c & Hc & Hl) [->|Hp]%elem_of_cons; eauto.
Qed.

(** A node of a duplicate-free segment is followed by the rest of the segment. *)
Lemma lseg_split h o l1 p l2 e :
  lseg h o (l1 ++ p :: l2) e ↔
  lseg h o l1 (Some p) ∧ ∃ c, h !! p = Some c ∧ lseg h (next_ready c) l2 e.
Proof.
  rewrite lseg_app. split.
  - intros (m & H1 & -> & H2). done.
  - intros (H1 & H2). exists (Some p). done.
Qed.

Lemma lseg_length h o l e : lseg h o l e → NoDup l → (length l ≤ size h)%nat.
Proof.
  intros H Hnd. rewrite <- (size_list_to_set (C := gset ptr) l Hnd), <- (size_dom (D := gset ptr)).
  apply subseteq_size. intros p. rewrite elem_of_list_to_set, elem_of_dom.
  by apply lseg_dom with (1 := H).
Qed.

(** *** Heap updates seen through [erase] *)
Lemma erase_insert h p c : erase (<[p := c]> h) = <[p := erase_next c]> (erase h).
Proof. unfold erase. by rewrite fmap_insert. Qed.

Lemma erase_lookup h p c : h !! p = Some c → erase h !! p = Some (erase_next c).
Proof. intros H. unfold erase. by rewrite lookup_fmap, H. Qed.

Lemma erase_with_next h p c o :
  h !! p = Some c → erase (<[p := with_next_ready o c]> h) = erase h.
Proof.
  intros H. rewrite erase_insert. apply insert_id. by rewrite (erase_lookup _ _ _ H).
Qed.

Lemma alter_is_insert (f : PCB → PCB) (m : gmap ptr PCB) p c :
  m !! p = Some c → alter f p m = <[p := f c]> m.
Proof.
  intros H. apply map_eq. intros i. destruct (decide (p = i)) as [<-|Hne].
  - by rewrite lookup_alter_eq, lookup_insert_eq, H.
  - by rewrite lookup_alter_ne, lookup_insert_ne.
Qed.

Lemma erase_store h p c f `{!NextNeutral f} :
  h !! p = Some c → erase (<[p := f c]> h) = alter f p (erase h).
Proof.
  intros H. rewrite erase_insert, neutral_erase. symmetry.
  by apply alter_is_insert, erase_lookup.
Qed.

Lemma next_insert_ne (h : gmap ptr PCB) p c x :
  x ≠ p → next_ready <$> (<[p := c]> h) !! x = next_ready <$> h !! x.
Proof. intros H. by rewrite lookup_insert_ne. Qed.

#[export] Instance neutral_state v : NextNeutral (with_state v).
Proof. by split. Qed.
#[export] Instance neutral_counter v : NextNeutral (with_counter v).
Proof. by split. Qed.
#[export] Instance neutral_counter_f f : NextNeutral (λ c, with_counter (f (counter c)) c).
Proof. by split. Qed.
#[export] Instance neutral_priority v : NextNeutral (with_priority v).
Proof. by split. Qed.
#[export] Instance neutral_tickets v : NextNeutral (with_tickets v).
Proof. by split. Qed.
#[export] Instance neutral_queue_priority v : NextNeutral (with_queue_priority v).
Proof. by split. Qed.
#[export] Instance neutral_pending v : NextNeutral (with_pending_signals v).
Proof. by split. Qed.
#[export] Instance neutral_pid_to_wait v : NextNeutral (with_pid_to_wait v).
Proof. by split. Qed.
#[export] Instance neutral_est v : NextNeutral (with_est_burst v).
Proof. by split. Qed.
#[export] Instance neutral_burst v : NextNeutral (with_burst_ticks v).
Proof. by split. Qed.
#[export] Instance neutral_cpu v : NextNeutral (with_cpu_ctx v).
Proof. by split. Qed.
#[export] Instance neutral_preempt v : NextNeutral (with_preempt_disabled v).
Proof. by split. Qed.
#[export] Instance neutral_messages v : NextNeutral (with_messages_buffer v).
Proof. by split. Qed.

Lemma queue_at_put k q v :
  valid_queue q → length (ml_queues k) = Z.to_nat ML_MAX_LEVELS →
  queue_at (put_queue q v k) q = Some v.
Proof.
  destruct q as [|n]; [done|]. simpl. intros H E. apply list_lookup_insert_eq. lia.
Qed.

Lemma queue_at_put_ne k q q' v : q ≠ q' → queue_at (put_queue q v k) q' = queue_at k q'.
Proof.
  destruct q as [|n], q' as [|m]; try done. simpl. intros H.
  apply list_lookup_insert_ne. congruence.
Qed.

Lemma a_queue_set a q l :
  valid_queue q → length (a_ml a) = Z.to_nat ML_MAX_LEVELS →
  a_queue (a_set_queue q l a) q = l.
Proof.
  destruct q as [|n]; [done|]. simpl. intros H E. rewrite list_lookup_insert_eq; [done|lia].
Qed.

Lemma a_queue_set_ne a q q' l : q ≠ q' → a_queue (a_set_queue q l a) q' = a_queue a q'.
Proof.
  destruct q as [|n], q' as [|m]; try done. simpl. intros H.
  rewrite list_lookup_insert_ne; [done|congruence].
Qed.

(** A queue of the kernel is changed, and with it links of its own nodes or of
    nodes that are in no other queue. *)
Lemma R_change_queue k a q v l h' m :
  R k a → valid_queue q →
  erase h' = m → queue_rep h' v l → NoDup l →
  (∀ x q', q' ≠ q → x ∈ a_queue a q' →
     (x ∉ l) ∧ (next_ready <$> h' !! x) = (next_ready <$> heap k !! x)) →
  R (put_queue q v (with_heap h' k)) (a_set_queue q l (a_set_pcbs m a)).
Proof.
  intros HR Hq Hm Hrep Hnd Hframe. destruct HR as [Hp Hqs Hg Hl Hal [Hn Hd]].
  assert (∀ q', a_queue (a_set_queue q l (a_set_pcbs m a)) q' =
                if decide (q = q') then l else a_queue a q') as Hsel.
  { intros q'. case_decide; subst; [by apply a_queue_set|by rewrite a_queue_set_ne]. }
  split.
  - destruct q; simpl; congruence.
  - intros q' Hq'. rewrite Hsel. case_decide as Heq; subst.
    + exists v. split; [by apply queue_at_put|]. by destruct q'.
    + destruct (Hqs q' Hq') as (v' & Hv' & Hlv & Htv). exists v'. split.
      * rewrite queue_at_put_ne by done. by destruct q'.
      * split; [|done]. apply lseg_frame with (heap k); [|done].
        intros x Hx. destruct q; by eapply Hframe.
  - by destruct q.
  - destruct q; simpl; [done|]. by rewrite length_insert.
  - destruct q; simpl; [done|]. by rewrite length_insert.
  - split.
    + intros q'. rewrite Hsel. by case_decide.
    + intros q1 q2 x. rewrite !Hsel. repeat case_decide; subst; try done; try by eauto.
      * intros H1 H2. exfalso. eapply Hframe; [|exact H2|exact H1]. congruence.
      * intros H1 H2. exfalso. eapply Hframe; [|exact H1|exact H2]. congruence.
Qed.

(** A PCB field other than the link is changed. *)
Lemma R_store k a p c f `{!NextNeutral f} :
  R k a → heap k !! p = Some c →
  R (with_heap (<[p := f c]> (heap k)) k) (a_update p f a).
Proof.
  intros [Hp Hqs Hg Hl Hal Hd] Hc. split; try done.
  - simpl. rewrite erase_store by done. by rewrite Hp.
  - intros q Hq. destruct (Hqs q Hq) as (v & Hv & Hlv & Htv).
    exists v. split; [by destruct q|]. split; [|by destruct q].
    assert (a_queue (a_update p f a) q = a_queue a q) as -> by by destruct q.
    apply lseg_frame with (heap k); [|done]. intros x _. simpl.
    destruct (decide (x = p)) as [->|Hne].
    + rewrite lookup_insert_eq, Hc. simpl. by rewrite neutral_next.
    + by apply next_insert_ne.
Qed.

Lemma sim_store {B} k a p f `{!NextNeutral f} (m : unit → M Kernel B) r a' :
  R k a → is_Some (a_pcbs a !! p) →
  (∀ k', R k' (a_update p f a) → sim k' (m tt) r a') →
  sim k (store p f ≫= m) r a'.
Proof.
  intros HR [c Hc] Hm. destruct (R_heap_lookup _ _ _ _ HR Hc) as (c' & Hc' & ->).
  destruct (Hm _ (R_store k a p c' f HR Hc')) as (k' & H1 & H2).
  exists k'. split; [|done]. by rewrite (bind_done _ _ _ _ _ (store_some _ _ _ _ Hc')).
Qed.

Lemma sim_set_global {B} k a f (m : unit → M Kernel B) r a' :
  R k a → (∀ k', R k' (a_set_globals f a) → sim k' (m tt) r a') →
  sim k (set_global f ≫= m) r a'.
Proof.
  intros [Hp Hqs Hg Hl Hal Hd] Hm. apply Hm. split; simpl; try done.
  by rewrite Hg.
Qed.

Lemma get_queue_some k q v : queue_at k q = Some v → get_queue q k = Done (v, k).
Proof. intros H. unfold get_queue. mrun. cbn beta. by rewrite H. Qed.

Lemma sim_set_global_last k a f : R k a → sim k (set_global f) tt (a_set_globals f a).
Proof.
  intros HR. eexists. split; [reflexivity|].
  destruct HR as [Hp Hqs Hg Hl Hal Hd]. split; simpl; try done. by rewrite Hg.
Qed.

Lemma sim_get_queue {B} k a q (f : ProcessQueue → M Kernel B) r a' :
  R k a → valid_queue q →
  (∀ v, queue_at k q = Some v → queue_rep (heap k) v (a_queue a q) → sim k (f v) r a') →
  sim k (get_queue q ≫= f) r a'.
Proof.
  intros HR Hq Hf. destruct (R_queues _ _ HR q Hq) as (v & Hv & Hrep).
  unfold sim, get_queue. rewrite bind_assoc, bind_gets, Hv. by apply Hf.
Qed.

Lemma queued_lookup k a q p :
  R k a → valid_queue q → p ∈ a_queue a q → is_Some (heap k !! p).
Proof.
  intros HR Hq Hp. destruct (R_queues _ _ HR q Hq) as (v & _ & Hl & _).
  by apply lseg_dom with (1 := Hl).
Qed.

Ltac run_store := erewrite bind_done by (apply store_some; eassumption).

(** ** The operations refine their list counterparts *)

(** A process that is in no queue is linked between [l1] and [l2]. *)
Lemma R_insert k a q p c l1 l2 v h' :
  R k a → valid_queue q → heap k !! p = Some c → ¬ queued a p →
  a_queue a q = l1 ++ l2 →
  erase h' = <[p := with_state PROCESS_READY (erase_next c)]> (erase (heap k)) →
  lseg h' (qhead v) (l1 ++ p :: l2) None → qtail v = last (l1 ++ p :: l2) →
  (∀ x, x ≠ p → x ∉ l1 → (next_ready <$> h' !! x) = (next_ready <$> heap k !! x)) →
  R (put_queue q v (with_heap h' k))
    (a_set_queue q (l1 ++ p :: l2) (a_update p (with_state PROCESS_READY) a)).
Proof.
  intros HR Hq Hc Hnq El He Hl Ht Hfr.
  assert (∀ q x, x ∈ a_queue a q → x ≠ p) as Hxp by (intros q' x Hx ->; apply Hnq; by exists q').
  pose proof (proj1 (R_disjoint _ _ HR) q) as Hn. rewrite El in Hn.
  assert (p ∉ l1 ++ l2) as Hp.
  { intros Hp. apply (Hxp q p); [by rewrite El|done]. }
  apply R_change_queue; try done.
  - rewrite He, (R_pcbs _ _ HR). symmetry. apply alter_is_insert. by apply erase_lookup.
  - rewrite <- Permutation_middle. by apply NoDup_cons.
  - intros x q' Hne Hx. pose proof (Hxp q' x Hx) as Hx'.
    assert (x ∉ l1 ++ l2) as Hx''.
    { intros Hin. apply Hne. eapply (R_disjoint _ _ HR); [done|]. by rewrite El. }
    rewrite elem_of_app, elem_of_cons. rewrite elem_of_app in Hx''.
    split; [tauto|]. apply Hfr; tauto.
Qed.

(** The state after the two stores that make the process READY and unlinked. *)
Definition ready_heap (h : gmap ptr PCB) (p : ptr) (c : PCB) : gmap ptr PCB :=
  <[p := with_state PROCESS_READY (with_next_ready None c)]> h.

Lemma erase_ready_heap h p c :
  erase (ready_heap h p c) = <[p := with_state PROCESS_READY (erase_next c)]> (erase h).
Proof. unfold ready_heap. by rewrite erase_insert. Qed.

Lemma ready_heap_other h p c x : x ≠ p → ready_heap h p c !! x = h !! x.
Proof. intros H. unfold ready_heap. by rewrite lookup_insert_ne. Qed.

Lemma store_ready {B} k p c (m : unit → M Kernel B) :
  heap k !! p = Some c →
  (store p (with_next_ready None);; store p (with_state PROCESS_READY) ≫= m) k =
  m tt (with_heap (ready_heap (heap k) p c) k).
Proof.
  intros H. run_store. erewrite bind_done by (apply store_some; simpl; apply lookup_insert_eq).
  simpl. by rewrite insert_insert_eq.
Qed.

(** What the queue operations know when they start linking [p] into [q]. *)
Lemma enqueue_start k a q p :
  R k a → valid_queue q → is_Some (a_pcbs a !! p) → ¬ queued a p →
  ∃ c v, heap k !! p = Some c ∧ queue_at (with_heap (ready_heap (heap k) p c) k) q = Some v ∧
    qtail v = last (a_queue a q) ∧ (p ∉ a_queue a q) ∧ NoDup (a_queue a q) ∧
    lseg (ready_heap (heap k) p c) (qhead v) (a_queue a q) None.
Proof.
  intros HR Hq [c0 Hc0] Hnq.
  destruct (R_heap_lookup _ _ _ _ HR Hc0) as (c & Hc & ->).
  destruct (R_queues _ _ HR q Hq) as (v & Hv & Hl & Ht).
  assert (p ∉ a_queue a q) by (intros ?; apply Hnq; by exists q).
  exists c, v. split; [done|]. split; [by destruct q|]. split; [done|]. split; [done|].
  split; [apply (R_disjoint _ _ HR)|].
  apply lseg_frame with (heap k); [|done]. intros x Hx.
  rewrite ready_heap_other; [done|congruence].
Qed.

Lemma enqueue_process_to_sim k a q p :
  R k a → valid_queue q → p ≠ init_process → is_Some (a_pcbs a !! p) → ¬ queued a p →
  sim k (enqueue_process_to q (Some p)) tt (a_enqueue q p a).
Proof.
  intros HR Hq Hp Hd Hnq.
  destruct (enqueue_start k a q p HR Hq Hd Hnq) as (c & v & Hc & Hv & Ht & Hpl & Hnd & Hl).
  unfold enqueue_process_to, sim. rewrite decide_False by done.
  rewrite (store_ready _ _ _ _ Hc). erewrite bind_done by (by apply get_queue_some).
  unfold a_enqueue. destruct (qtail v) as [t|].
  - symmetry in Ht. apply last_Some in Ht as (l1 & El). rewrite El in *.
    apply lseg_split in Hl as (Hl1 & ct & Hct & Hend). simpl in Hend.
    apply NoDup_app in Hnd as (_ & Hnt & _).
    erewrite bind_done by (by apply store_some).
    eexists. split; [reflexivity|].
    apply (R_insert k a q p c (l1 ++ [t]) []); try done; [by rewrite app_nil_r|..].
    + simpl. by rewrite (erase_with_next _ _ _ _ Hct), erase_ready_heap.
    + simpl. rewrite <- app_assoc. apply lseg_split. split.
      * apply lseg_frame with (ready_heap (heap k) p c); [|done]. intros x Hx.
        apply next_insert_ne. intros ->. apply (Hnt t); set_solver.
      * eexists. split; [apply lookup_insert_eq|]. simpl. split; [done|].
        eexists. rewrite lookup_insert_ne by set_solver.
        split; [apply lookup_insert_eq|done].
    + by rewrite last_snoc.
    + intros x Hx Hx'. simpl. rewrite lookup_insert_ne by set_solver.
      by rewrite ready_heap_other.
  - symmetry in Ht. apply last_None in Ht. rewrite Ht.
    eexists. split; [reflexivity|].
    apply (R_insert k a q p c [] []); try done.
    + by rewrite erase_ready_heap.
    + simpl. split; [done|]. eexists. split; [apply lookup_insert_eq|done].
    + intros x Hx _. by rewrite ready_heap_other.
Qed.

Lemma a_set_queue_id a q l : a_queue a q = l → valid_queue q →
  length (a_ml a) = Z.to_nat ML_MAX_LEVELS → a_set_queue q l a = a.
Proof.
  destruct a as [m r ml g], q as [|n]; simpl; intros <- Hq Hl; [done|]. f_equal.
  destruct (lookup_lt_is_Some_2 ml n ltac:(lia)) as [x Hx].
  rewrite Hx. simpl. by apply list_insert_id.
Qed.

Lemma a_set_pcbs_id a m : m = a_pcbs a → a_set_pcbs m a = a.
Proof. by destruct a; simpl; intros ->. Qed.

Lemma queue_facts k a q l1 p l2 :
  R k a → valid_queue q → a_queue a q = l1 ++ p :: l2 →
  (p ∉ l1) ∧ (p ∉ l2) ∧ NoDup (l1 ++ l2) ∧
  (∀ x q', q' ≠ q → x ∈ a_queue a q' → x ∉ l1 ++ p :: l2).
Proof.
  intros HR Hq E. pose proof (proj1 (R_disjoint _ _ HR) q) as Hn. rewrite E in Hn.
  apply NoDup_app in Hn as (Hn1 & Hn2 & [Hp Hn3]%NoDup_cons).
  repeat split; try done.
  - intros Hx. apply (Hn2 p Hx). set_solver.
  - apply NoDup_app. repeat split; try done. set_solver.
  - intros x q' Hne Hx Hx'. apply Hne. eapply (R_disjoint _ _ HR); [done|]. by rewrite E.
Qed.

Lemma last_app_ne {A} (l1 l2 : list A) : l2 ≠ [] → last (l1 ++ l2) = last l2.
Proof. intros H. destruct l2 as [|x l2] using rev_ind; [done|]. by rewrite app_assoc, !last_snoc. Qed.

Lemma dequeue_process_from_sim k a q :
  R k a → valid_queue q →
  sim k (dequeue_process_from q) (hd_error (a_queue a q))
      (a_set_queue q (tl (a_queue a q)) a).
Proof.
  intros HR Hq. destruct (R_queues _ _ HR q Hq) as (v & Hv & Hl & Ht).
  unfold dequeue_process_from, sim. erewrite bind_done by (by apply get_queue_some).
  destruct (a_queue a q) as [|p l] eqn:El; simpl in Hl.
  { rewrite Hl. exists k. split; [done|]. by rewrite a_set_queue_id by (done || apply HR). }
  destruct Hl as (-> & c & Hc & Hl).
  erewrite bind_done by (by apply load_some). unfold set_queue. rewrite bind_modify.
  erewrite bind_done by (apply store_some; by destruct q).
  eexists. split; [reflexivity|].
  rewrite <- (a_set_pcbs_id a (a_pcbs a)) by done.
  destruct (queue_facts k a q [] p l HR Hq El) as (_ & Hpl & Hnd & Hout).
  match goal with |- R (with_heap ?h (put_queue q ?w k)) _ =>
    assert (with_heap h (put_queue q w k) = put_queue q w (with_heap h k)) as -> by by destruct q end.
  simpl. assert (heap (put_queue q (mk_ProcessQueue (next_ready c)
     match next_ready c with Some _ => qtail v | None => None end) k) = heap k) as -> by by destruct q.
  apply R_change_queue; try done.
  - rewrite (erase_with_next _ _ _ _ Hc). symmetry. apply HR.
  - split; simpl.
    + apply lseg_frame with (heap k); [|done]. intros x Hx. apply next_insert_ne. set_solver.
    + destruct l as [|x l]; simpl in Hl.
      * by rewrite Hl.
      * destruct Hl as (-> & _). by rewrite Ht.
  - intros x q' Hne Hx. specialize (Hout x q' Hne Hx). split; [set_solver|].
    apply next_insert_ne. set_solver.
Qed.

Lemma put_queue_id k q v : queue_at k q = Some v → put_queue q v k = k.
Proof.
  destruct k as [h rq ml g], q as [|n]; simpl; intros H; [by simplify_eq|].
  unfold with_ml_queues. simpl. f_equal. by apply list_insert_id.
Qed.

Lemma put_queue_twice k q v w : put_queue q v (put_queue q w k) = put_queue q v k.
Proof. destruct q; [done|]. unfold put_queue, with_ml_queues. simpl. by rewrite list_insert_insert_eq. Qed.

Lemma heap_put_queue k q v : heap (put_queue q v k) = heap k.
Proof. by destruct q. Qed.

Lemma with_heap_put_queue k q v h h' :
  with_heap h (put_queue q v (with_heap h' k)) = put_queue q v (with_heap h k).
Proof. by destruct q. Qed.

Lemma with_heap_id k : with_heap (heap k) k = k.
Proof. by destruct k. Qed.

(** The end of remove_process_from, after the node has been bypassed: the tail
    moves back when the node was the last one. *)
Lemma remove_update_tail k q w h' l1 p l2 :
  valid_queue q → length (ml_queues k) = Z.to_nat ML_MAX_LEVELS →
  p ∉ l2 → qtail w = last (l1 ++ p :: l2) →
  (q0 ← get_queue q;
   if decide (qtail q0 = Some p) then set_queue q (mk_ProcessQueue (qhead q0) (last l1))
   else mret tt) (put_queue q w (with_heap h' k))
  = Done (tt, put_queue q (mk_ProcessQueue (qhead w) (last (l1 ++ l2))) (with_heap h' k)).
Proof.
  intros Hq Hlen Hp2 Htw.
  erewrite bind_done by (apply get_queue_some, queue_at_put; done).
  case_decide as Hd; rewrite Htw in Hd.
  - destruct l2 as [|y l2].
    + unfold set_queue, modify. by rewrite app_nil_r, put_queue_twice.
    + exfalso. apply Hp2. rewrite last_app_ne in Hd by done.
      by apply last_Some_elem_of.
  - destruct l2 as [|y l2]; [by rewrite last_snoc in Hd|].
    assert (mk_ProcessQueue (qhead w) (last (l1 ++ y :: l2)) = w) as ->; [|done].
    destruct w as [wh wt]. simpl in *. f_equal. by rewrite Htw, !last_app_ne.
Qed.

Lemma remove_finish k a q l1 p l2 w h' c :
  R k a → valid_queue q → a_queue a q = l1 ++ p :: l2 →
  h' !! p = Some c → erase h' = a_pcbs a → qtail w = last (l1 ++ p :: l2) →
  lseg h' (qhead w) (l1 ++ l2) None →
  (∀ x, x ∉ l1 → (next_ready <$> h' !! x) = (next_ready <$> heap k !! x)) →
  sim (put_queue q w (with_heap h' k))
    (q0 ← get_queue q;
     (if decide (qtail q0 = Some p) then set_queue q (mk_ProcessQueue (qhead q0) (last l1))
      else mret tt);; store p (with_next_ready None)) tt (a_set_queue q (l1 ++ l2) a).
Proof.
  intros HR Hq El Hc He Htw Hlw Hfr.
  destruct (queue_facts k a q l1 p l2 HR Hq El) as (Hp1 & Hp2 & Hnd & Hout).
  unfold sim. rewrite <- bind_assoc.
  erewrite bind_done by (apply remove_update_tail; try done; apply HR).
  erewrite store_some by (destruct q; exact Hc).
  eexists. split; [reflexivity|]. rewrite <- (a_set_pcbs_id a (a_pcbs a)) by done.
  rewrite heap_put_queue, with_heap_put_queue. apply R_change_queue; try done.
  - by rewrite (erase_with_next _ _ _ _ Hc).
  - split; [|done]. simpl. apply lseg_frame with h'; [|done].
    intros x Hx. apply next_insert_ne. set_solver.
  - intros x q' Hne Hx. specialize (Hout x q' Hne Hx). split; [set_solver|].
    rewrite <- (Hfr x) by (clear -Hout; set_solver).
    apply next_insert_ne. clear -Hout. set_solver.
Qed.

Lemma remove_process_from_sim k a q l1 p l2 :
  R k a → valid_queue q → a_queue a q = l1 ++ p :: l2 →
  sim k (remove_process_from q (last l1) p) tt (a_set_queue q (l1 ++ l2) a).
Proof.
  intros HR Hq El. destruct (R_queues _ _ HR q Hq) as (v & Hv & Hl & Ht).
  destruct (queue_facts k a q l1 p l2 HR Hq El) as (Hp1 & Hp2 & Hnd & Hout).
  rewrite El in Hl, Ht. pose proof Hl as Hall.
  apply lseg_split in Hl as (Hl1 & c & Hc & Hl2).
  unfold remove_process_from. unfold sim. erewrite bind_done by (by apply load_some).
  destruct (last l1) as [pr|] eqn:Elast; rewrite <- Elast.
  - apply last_Some in Elast as (l1' & ->).
    pose proof Hl1 as Hl1'. apply lseg_split in Hl1 as (Hl1 & cp & Hcp & _).
    erewrite bind_done by (by apply store_some).
    rewrite <- (put_queue_id (with_heap _ k) q v) by (by destruct q).
    apply NoDup_app in Hnd as (Hnd1 & Hnd2 & _).
    apply NoDup_app in Hnd1 as (_ & Hnd1 & _).
    apply remove_finish with (c := c); try done.
    + rewrite lookup_insert_ne; [done|]. set_solver.
    + rewrite (erase_with_next _ _ _ _ Hcp). symmetry. apply HR.
    + rewrite <- app_assoc. apply lseg_split. split.
      * apply lseg_frame with (heap k); [|done]. intros x Hx. apply next_insert_ne. set_solver.
      * eexists. split; [apply lookup_insert_eq|]. simpl.
        apply lseg_frame with (heap k); [|done]. intros x Hx. apply next_insert_ne. set_solver.
    + intros x Hx. apply next_insert_ne. set_solver.
  - apply last_None in Elast as ->. simpl in *.
    rewrite bind_assoc. erewrite bind_done by (by apply get_queue_some).
    erewrite (bind_done (set_queue _ _)) by reflexivity. rewrite <- (with_heap_id k).
    apply (remove_finish k a q [] p l2) with (c := c); try done. symmetry. apply HR.
Qed.

(** *** Sorted insertion *)
Definition burst_in (h : gmap ptr PCB) (p : ptr) : Z :=
  match h !! p with Some c => est_burst c | None => 0 end.

Lemma a_burst_heap k a p : R k a → a_burst a p = burst_in (heap k) p.
Proof.
  intros HR. unfold a_burst, burst_in. rewrite (R_pcbs _ _ HR). unfold erase.
  rewrite lookup_fmap. by destruct (heap k !! p).
Qed.

Lemma insert_by_burst_split b p l1 l2 :
  (∀ x, x ∈ l1 → b x ≤ b p) → (∀ y, hd_error l2 = Some y → b p < b y) →
  insert_by_burst b p (l1 ++ l2) = l1 ++ p :: l2.
Proof.
  intros H1 H2. induction l1 as [|x l1 IH]; simpl.
  - destruct l2 as [|y l2]; [done|]. simpl. specialize (H2 y eq_refl).
    case_bool; [done|lia].
  - specialize (H1 x ltac:(set_solver)) as Hx. case_bool; [lia|].
    rewrite IH; [done|]. intros y Hy. apply H1. set_solver.
Qed.

Lemma sorted_position_spec fuel k p current l :
  lseg (heap k) (Some current) (current :: l) None → is_Some (heap k !! p) →
  (length l < fuel)%nat → burst_in (heap k) current ≤ burst_in (heap k) p →
  ∃ l1 x l2, current :: l = l1 ++ x :: l2 ∧
    sorted_position fuel p current k = Done (x, k) ∧
    (∀ y, y ∈ l1 ++ [x] → burst_in (heap k) y ≤ burst_in (heap k) p) ∧
    (∀ y, hd_error l2 = Some y → burst_in (heap k) p < burst_in (heap k) y).
Proof.
  revert current l. induction fuel as [|fuel IH]; intros current l Hl [cp Hp] Hf Hb; [lia|].
  destruct Hl as (_ & c & Hc & Hl). cbn [sorted_position].
  rewrite (bind_done _ _ _ _ _ (load_some _ _ _ Hc)).
  destruct l as [|y l]; [simpl in Hl; rewrite Hl|].
  { exists [], current, []. repeat split; try done. intros y Hy.
    assert (y = current) as -> by set_solver. done. }
  destruct Hl as (-> & cy & Hcy & Hl).
  rewrite (bind_done _ _ _ _ _ (load_some _ _ _ Hp)).
  rewrite (bind_done _ _ _ _ _ (load_some _ _ _ Hcy)).
  assert (burst_in (heap k) p = est_burst cp) as Ebp by (unfold burst_in; by rewrite Hp).
  assert (burst_in (heap k) y = est_burst cy) as Eby by (unfold burst_in; by rewrite Hcy).
  case_bool.
  - exists [], current, (y :: l). repeat split; try done.
    + intros z Hz. assert (z = current) as -> by set_solver. done.
    + intros z [= <-]. lia.
  - destruct (IH y l) as (l1 & x & l2 & El & Es & H1 & H2); simpl in *; try (lia || eauto).
    exists (current :: l1), x, l2. rewrite El. repeat split; try done.
    intros z [->|Hz]%elem_of_cons; [done|by apply H1].
Qed.

(** Linking [p] after the node [x] of the queue, and the tail update. *)
Lemma sorted_link k a q p c v l1 x l2 cc :
  let h2 := ready_heap (heap k) p c in
  R k a → valid_queue q → heap k !! p = Some c → ¬ queued a p →
  a_queue a q = l1 ++ x :: l2 →
  queue_at (with_heap h2 k) q = Some v → qtail v = last (l1 ++ x :: l2) →
  lseg h2 (qhead v) (l1 ++ x :: l2) None → h2 !! x = Some cc →
  sim (with_heap h2 k)
    (store p (with_next_ready (next_ready cc));;
     store x (with_next_ready (Some p));;
     p0 ← load p;
     match next_ready p0 with
     | Some _ => mret tt
     | None => q0 ← get_queue q; set_queue q (mk_ProcessQueue (qhead q0) (Some p))
     end) tt (a_set_queue q ((l1 ++ [x]) ++ p :: l2) (a_update p (with_state PROCESS_READY) a)).
Proof.
  intros h2 HR Hq Hc Hnq El Hv Ht Hl Hcc.
  assert (h2 !! p = Some (with_state PROCESS_READY (with_next_ready None c))) as Hp2
    by apply lookup_insert_eq.
  destruct (queue_facts k a q l1 x l2 HR Hq El) as (Hx1 & Hx2 & _ & _).
  assert (p ∉ l1 ++ x :: l2) as Hp.
  { intros Hin. apply Hnq. exists q. by rewrite El. }
  apply not_elem_of_app in Hp as [Hp1 [Hpx Hp2']%not_elem_of_cons].
  apply lseg_split in Hl as (Hl1 & cc' & Hcc' & Hl2).
  assert (cc' = cc) as -> by congruence. clear Hcc'. unfold sim.
  erewrite bind_done by (apply store_some; exact Hp2).
  erewrite bind_done by (apply store_some; simpl; rewrite lookup_insert_ne by done; exact Hcc).
  erewrite bind_done
    by (apply load_some; simpl; rewrite lookup_insert_ne by done; apply lookup_insert_eq).
  cbn [next_ready with_next_ready with_heap heap]. set (h4 := <[x := _]> _).
  assert (erase h4 = <[p := with_state PROCESS_READY (erase_next c)]> (erase (heap k))) as He.
  { unfold h4. rewrite (erase_with_next _ x cc), (erase_with_next _ _ _ _ Hp2);
      [apply erase_ready_heap|]. by rewrite lookup_insert_ne. }
  assert (∀ y, y ≠ p → y ≠ x → h4 !! y = heap k !! y) as Hh4.
  { intros y Hy1 Hy2. unfold h4. rewrite !lookup_insert_ne by done. by apply ready_heap_other. }
  assert (lseg h4 (qhead v) ((l1 ++ [x]) ++ p :: l2) None) as Hl4.
  { rewrite <- app_assoc. apply lseg_split. split.
    - apply lseg_frame with h2; [|done]. intros y Hy. unfold h4.
      rewrite !next_insert_ne; [done|set_solver..].
    - eexists. split; [apply lookup_insert_eq|]. simpl. split; [done|].
      unfold h4. eexists. rewrite lookup_insert_ne by done.
      split; [apply lookup_insert_eq|]. simpl. apply lseg_frame with h2; [|done].
      intros y Hy. rewrite !next_insert_ne; [done|set_solver..]. }
  destruct l2 as [|y l2].
  - simpl in Hl2. rewrite Hl2. erewrite bind_done by (apply get_queue_some; by destruct q).
    eexists. split; [reflexivity|].
    apply (R_insert k a q p c (l1 ++ [x]) []); try done; [by rewrite app_nil_r|by rewrite last_snoc|].
    intros y Hy1 Hy2. rewrite Hh4; set_solver.
  - pose proof Hl2 as [-> _]. eexists. split; [reflexivity|]. simpl.
    rewrite <- (put_queue_id (with_heap h4 _) q v) by (by destruct q).
    apply (R_insert k a q p c (l1 ++ [x]) (y :: l2)); try done.
    + by rewrite <- app_assoc.
    + by rewrite Ht, !last_app_ne.
    + intros z Hz1 Hz2. rewrite Hh4; set_solver.
Qed.

Lemma enqueue_sorted_to_sim k a q p :
  R k a → valid_queue q → p ≠ init_process → is_Some (a_pcbs a !! p) → ¬ queued a p →
  sim k (enqueue_sorted_to q (Some p)) tt (a_enqueue_sorted q p a).
Proof.
  intros HR Hq Hp Hd Hnq.
  destruct (enqueue_start k a q p HR Hq Hd Hnq) as (c & v & Hc & Hv & Ht & Hpl & Hnd & Hl).
  set (h2 := ready_heap (heap k) p c) in *.
  assert (h2 !! p = Some (with_state PROCESS_READY (with_next_ready None c))) as Hp2
    by apply lookup_insert_eq.
  assert (∀ x, burst_in h2 x = a_burst a x) as Hburst.
  { intros x. rewrite (a_burst_heap _ _ _ HR). unfold burst_in.
    destruct (decide (x = p)) as [->|Hx]; [by rewrite Hp2, Hc|].
    unfold h2. by rewrite ready_heap_other. }
  unfold enqueue_sorted_to, sim. rewrite decide_False by done.
  rewrite (store_ready _ _ _ _ Hc). fold h2.
  erewrite bind_done by (by apply get_queue_some). unfold a_enqueue_sorted.
  destruct (a_queue a q) as [|x0 l] eqn:El; simpl in Hl.
  { rewrite Hl. eexists. split; [reflexivity|].
    apply (R_insert k a q p c [] []); try done.
    + unfold h2. apply erase_ready_heap.
    + simpl. split; [done|]. by eexists.
    + intros x Hx _. unfold h2. by rewrite ready_heap_other. }
  destruct Hl as (Ehd & cx & Hcx & Hl). rewrite Ehd.
  erewrite bind_done by (by apply load_some).
  erewrite bind_done by (by apply load_some).
  assert (burst_in h2 p = est_burst c) as Ebp by (unfold burst_in; by rewrite Hp2).
  assert (burst_in h2 x0 = est_burst cx) as Ebx by (unfold burst_in; by rewrite Hcx).
  change (est_burst (with_state _ _)) with (est_burst c).
  case_bool.
  - (* shortest burst of the whole queue *)
    assert (insert_by_burst (a_burst a) p (x0 :: l) = [] ++ p :: x0 :: l) as ->.
    { apply (insert_by_burst_split _ _ []); [set_solver|].
      intros y [= <-]. rewrite <- !Hburst. simpl in *. lia. }
    erewrite bind_done by (by apply store_some). eexists. split; [reflexivity|].
    apply (R_insert k a q p c [] (x0 :: l)); try done.
    + simpl. rewrite (erase_with_next _ _ _ _ Hp2). apply erase_ready_heap.
    + simpl. split; [done|]. eexists. split; [apply lookup_insert_eq|]. simpl.
      split; [done|]. exists cx. rewrite lookup_insert_ne by set_solver. split; [done|].
      apply lseg_frame with h2; [|done]. intros x Hx. apply next_insert_ne. set_solver.
    + intros x Hx _. simpl. rewrite lookup_insert_ne by done. unfold h2.
      by rewrite ready_heap_other.
  - assert (lseg h2 (Some x0) (x0 :: l) None) as Hl2 by (split; [done|by exists cx]).
    destruct (sorted_position_spec (size h2) (with_heap h2 k) p x0 l)
      as (l1 & x & l2 & Es & Epos & H1 & H2); [done|by eexists| |cbn [heap with_heap]; lia|].
    { apply lseg_length in Hl2; [simpl in Hl2; lia|done]. }
    rewrite bind_gets. erewrite bind_done by exact Epos.
    rewrite Es in Hl2 |- *.
    assert (insert_by_burst (a_burst a) p (l1 ++ x :: l2) = (l1 ++ [x]) ++ p :: l2) as ->.
    { rewrite (cons_middle x l1 l2), app_assoc. apply insert_by_burst_split.
      - intros y Hy. rewrite <- !Hburst. by apply H1.
      - intros y Hy. rewrite <- !Hburst. by apply H2. }
    destruct (lseg_dom _ _ _ _ x Hl2 ltac:(set_solver)) as [cc Hcc].
    erewrite bind_done by (by apply load_some).
    apply (sorted_link k a q p c v); try done; [by rewrite El|by rewrite <- Es|by rewrite Ehd].
Qed.

(** ** Loops *)
Lemma sim_for_loop n k i (body : Z → M Kernel unit) (inv : Z → AKernel) :
  (∀ j k1, i ≤ j < i + Z.of_nat n → R k1 (inv j) → sim k1 (body j) tt (inv (j + 1))) →
  R k (inv i) → sim k (for_loop n i body) tt (inv (i + Z.of_nat n)).
Proof.
  revert k i. induction n as [|n IH]; intros k i Hb HR; simpl.
  { rewrite Z.add_0_r. by apply sim_ret. }
  eapply sim_bind; [apply Hb; [lia|done]|]. intros k1 HR1.
  replace (i + Z.of_nat (S n)) with ((i + 1) + Z.of_nat n) by lia.
  apply IH; [|done]. intros j k2 Hj. apply Hb. lia.
Qed.
