(* ===== verification/Scheduler.v ===== *)
(** * The scheduler

    libs/scheduler.c in full: the insertion policies, the seven selection
    algorithms, the per-tick bookkeeping of the multilevel queues, signals, the
    context switch, the timer tick and process exit.  A selection is one step
    of the global state: [switch_to_process] leaves the outgoing process inside
    cpu_switch_to_process, and the [preempt_enable] that follows it in the text
    is executed by the process that was dispatched (by its own pending call, or
    by schedule_tail when it is new). *)
From stdpp Require Import base gmap list.
From Stdlib Require Import ZArith Lia.
From S2P Require Import Prelude Kernel Queue.

#[local] Open Scope Z_scope.

(** ** Multilevel policies *)
Definition ml_policy_mlq : MultilevelPolicy :=
  mk_MultilevelPolicy 5 [10; 12; 14; 16; 20] false 0.
Definition ml_policy_mlfq : MultilevelPolicy :=
  mk_MultilevelPolicy 5 [5; 8; 10; 15; 20] true MLFQ_BOOST_PERIOD.

(** ** Insertion policies *)
Definition _enqueue_fifo (process : ptr) : M Kernel unit :=
  enqueue_process_to READY_QUEUE (Some process).

Definition _enqueue_sjf (process : ptr) : M Kernel unit :=
  enqueue_sorted_to READY_QUEUE (Some process).

(** [&ml_queues[level]] *)
Definition ml_queue_ref (level : Z) : M Kernel queue_ref :=
  if (level <? 0) || (ML_MAX_LEVELS <=? level) then fail_with OutOfBounds
  else mret (ML_QUEUE (Z.to_nat level)).

Definition _enqueue_multilevel (process : ptr) : M Kernel unit :=
  c ← load process;
  level ← get_queue_level (pid c);
  q ← ml_queue_ref level;
  enqueue_process_to q (Some process).

(** The fields [enqueue] and [ml_policy] of the descriptor an algorithm names
    (the descriptors themselves are below). *)
Definition algorithm_enqueue (a : algorithm) : ptr → M Kernel unit :=
  match a with
  | ROUND_ROBIN | FCFS | LOTTERY | PRIORITY_AGING => _enqueue_fifo
  | SJF => _enqueue_sjf
  | MLQ | MLFQ => _enqueue_multilevel
  end.

Definition algorithm_ml_policy (a : algorithm) : option MultilevelPolicy :=
  match a with
  | MLQ => Some ml_policy_mlq
  | MLFQ => Some ml_policy_mlfq
  | _ => None
  end.

Definition enqueue_process (process : option ptr) : M Kernel unit :=
  match process with
  | None => mret tt
  | Some p =>
    if decide (p = init_process) then mret tt else
    a ← get_global active_algorithm;
    algorithm_enqueue a p
  end.

(** ** Critical sections *)
Definition preempt_enable : M Kernel unit :=
  p ← get_current;
  c ← load p;
  store p (with_preempt_disabled (s32 (preempt_disabled c - 1))).

Definition preempt_disable : M Kernel unit :=
  p ← get_current;
  c ← load p;
  store p (with_preempt_disabled (s32 (preempt_disabled c + 1))).

(** ** Registration and parameters *)

(** The starting level of a process, from its queue priority. *)
Definition clamp_level (a : algorithm) (start_level : Z) : Z :=
  let start_level := if start_level <? 0 then 0 else start_level in
  let start_level := if ML_MAX_LEVELS <=? start_level then ML_MAX_LEVELS - 1 else start_level in
  match algorithm_ml_policy a with
  | Some policy =>
    if n_levels policy <=? start_level then n_levels policy - 1 else start_level
  | None => start_level
  end.

Definition add_process_to_scheduler (process : ptr) : M Kernel Z :=
  n ← get_global n_processes;
  c ← load process;
  if (N_PROCESSES <=? n) || (N_PROCESSES <=? pid c) then mret (-1) else
  ps ← get_global processes;
  ps' ← require OutOfBounds (array_set ps (pid c) (Some process));
  set_global (with_processes ps');;
  a ← get_global active_algorithm;
  set_queue_level (pid c) (clamp_level a (queue_priority c));;
  (if state c =? PROCESS_READY then enqueue_process (Some process) else mret tt);;
  n ← get_global n_processes;
  set_global (with_n_processes (s32 (n + 1)));;
  mret 0.

Definition sched_set_param (process : option ptr) (param value : Z) : M Kernel Z :=
  match process with
  | None => mret (-1)
  | Some p =>
    if decide (p = init_process) then mret (-1) else
    if param =? SCHED_PARAM_PRIORITY then
      if value <? 1 then mret (-1) else store p (with_priority value);; mret 0
    else if param =? SCHED_PARAM_TICKETS then
      if value <? 1 then mret (-1) else store p (with_tickets value);; mret 0
    else if param =? SCHED_PARAM_QUEUE_PRIORITY then
      if (value <? 0) || (ML_MAX_LEVELS <=? value) then mret (-1) else
      a ← get_global active_algorithm;
      let value := match algorithm_ml_policy a with
                   | Some policy => if n_levels policy <=? value then n_levels policy - 1 else value
                   | None => value
                   end in
      preempt_disable;;
      store p (with_queue_priority (s32 value));;
      c ← load p;
      set_queue_level (pid c) (s32 value);;
      preempt_enable;;
      mret 0
    else mret (-1)
  end.

(** ** Signals *)
Definition has_signal (c : PCB) (signal : Z) : bool :=
  negb (Z.land (pending_signals c) (Z.shiftl 1 signal) =? 0).
Definition clear_signal (signal : Z) (c : PCB) : PCB :=
  with_pending_signals (Z.land (pending_signals c) (Z.lnot (Z.shiftl 1 signal))) c.

Definition handle_process_signals (process : ptr) : M Kernel unit :=
  c ← load process;
  if pending_signals c =? 0 then mret tt
  else if has_signal c SIGNAL_KILL then
    store process (with_state PROCESS_ZOMBIE);;
    store process (clear_signal SIGNAL_KILL)
  else if has_signal c SIGNAL_STOP then
    store process (with_state PROCESS_STOPPED);;
    store process (clear_signal SIGNAL_STOP)
  else if has_signal c SIGNAL_RESUME then
    store process (clear_signal SIGNAL_RESUME);;
    c ← load process;
    (if state c =? PROCESS_STOPPED then
       store process (with_state PROCESS_READY);;
       enqueue_process (Some process)
     else mret tt)
  else mret tt.

(** ** The context switch *)

(** libs/fork_asm.S: the callee-saved registers go to the outgoing PCB and
    come from the incoming one. *)
Definition cpu_switch_to_process (prev next : ptr) : M Kernel unit :=
  regs ← get_global cpu;
  store prev (with_cpu_ctx regs);;
  c ← load next;
  set_global (with_cpu (cpu_ctx c)).

Definition set_pgd (v : Z) : M Kernel unit := set_global (with_ttbr0 v).

Definition switch_to_process (next_process : ptr) : M Kernel unit :=
  store next_process (with_state PROCESS_RUNNING);;
  current ← get_current;
  if decide (current = next_process) then mret tt else
  let previous_process := current in
  c ← load previous_process;
  (if state c =? PROCESS_RUNNING
   then store previous_process (with_state PROCESS_READY) else mret tt);;
  set_global (with_current_process next_process);;
  c ← load next_process;
  set_pgd (pgd (mm c));;
  current ← get_current;
  cpu_switch_to_process previous_process current.

Definition schedule_tail : M Kernel unit := preempt_enable.

(** ** Selection algorithms *)

(** [current_process != &init_process && current_process->state == PROCESS_RUNNING] *)
Definition current_is_runnable : M Kernel bool :=
  p ← get_current;
  if decide (p = init_process) then mret false else
  c ← load p; mret (state c =? PROCESS_RUNNING).

(** [if (current != &init_process && current->state == RUNNING) requeue;] *)
Definition if_current_runnable (requeue : M Kernel unit) : M Kernel unit :=
  runnable ← current_is_runnable;
  if runnable : bool then requeue else mret tt.

(** The [while ((next_process = dequeue_process_from(queue)) != NULL)] loop: the
    first process of the queue that is READY once its signals are handled. *)
Fixpoint dequeue_ready (fuel : nat) (queue : queue_ref) : M Kernel (option ptr) :=
  match fuel with
  | O => fail_with OutOfFuel
  | S fuel =>
    next ← dequeue_process_from queue;
    match next with
    | None => mret None
    | Some p =>
      handle_process_signals p;;
      c ← load p;
      if state c =? PROCESS_READY then mret (Some p) else dequeue_ready fuel queue
    end
  end.

(** [if (next == NULL) next = &init_process; else next->counter = quantum;] *)
Definition recharged_or_init (quantum : Z) (next : option ptr) : M Kernel ptr :=
  match next with
  | None => mret init_process
  | Some p => store p (with_counter quantum);; mret p
  end.

(** A queue holds each process at most once. *)
Definition queue_fuel (k : Kernel) : nat := S (size (heap k)).

Definition _schedule_round_robin : M Kernel unit :=
  preempt_disable;;
  if_current_runnable (p ← get_current; enqueue_process_to READY_QUEUE (Some p));;
  next_process ← (fuel ← gets queue_fuel;
                  next ← dequeue_ready fuel READY_QUEUE;
                  recharged_or_init 10 next);
  switch_to_process next_process;;
  preempt_enable.

Definition _schedule_queue_head : M Kernel unit :=
  preempt_disable;;
  if_current_runnable
    (p ← get_current; a ← get_global active_algorithm; algorithm_enqueue a p);;
  next_process ← (fuel ← gets queue_fuel;
                  next ← dequeue_ready fuel READY_QUEUE;
                  mret (default init_process next));
  switch_to_process next_process;;
  preempt_enable.

(** *** Priority with aging *)

(** The walk of one pass over the ready queue: the best candidate, its
    predecessor and its counter. *)
Record aging_scan : Type := mk_aging_scan {
  best : option ptr;
  best_previous : option ptr;
  max_counter : Z
}.

Fixpoint aging_walk (fuel : nat) (s : aging_scan) (previous node : option ptr)
    : M Kernel aging_scan :=
  match node with
  | None => mret s
  | Some node =>
    match fuel with
    | O => fail_with OutOfFuel
    | S fuel =>
      c ← load node;
      let next_node := next_ready c in
      handle_process_signals node;;
      c ← load node;
      if negb (state c =? PROCESS_READY) then
        remove_process_from READY_QUEUE previous node;;
        aging_walk fuel s previous next_node
      else
        let s := if max_counter s <? counter c
                 then mk_aging_scan (Some node) previous (counter c) else s in
        aging_walk fuel s (Some node) next_node
    end
  end.

(** [counter = counter / 2 + priority] for every process. *)
Definition recharge (c : PCB) : PCB :=
  with_counter (s64 (Z.shiftr (counter c) 1 + priority c)) c.

Definition new_epoch : M Kernel unit :=
  for_loop (Z.to_nat N_PROCESSES) 0 (λ i,
    ps ← get_global processes;
    o ← require OutOfBounds (array_get ps i);
    match o with
    | Some p => store p recharge
    | None => mret tt
    end).

Fixpoint aging_select (fuel : nat) : M Kernel (option ptr) :=
  match fuel with
  | O => fail_with OutOfFuel
  | S fuel =>
    walk_fuel ← gets queue_fuel;
    q ← get_queue READY_QUEUE;
    s ← aging_walk walk_fuel (mk_aging_scan None None 0) None (qhead q);
    match best s with
    | Some b =>
      remove_process_from READY_QUEUE (best_previous s) b;;
      mret (Some b)
    | None =>
      q ← get_queue READY_QUEUE;
      match qhead q with
      | None => mret None
      | Some _ => new_epoch;; aging_select fuel
      end
    end
  end.

(** More passes than any exhausted process needs to get a positive counter. *)
Definition aging_fuel (k : Kernel) : nat :=
  map_fold (λ _ c n, Z.to_nat (Z.abs (counter c)) + n)%nat 3%nat (heap k).

Definition _schedule_priority_aging : M Kernel unit :=
  preempt_disable;;
  if_current_runnable (p ← get_current; enqueue_process_to READY_QUEUE (Some p));;
  next_process ← (fuel ← gets aging_fuel;
                  next ← aging_select fuel;
                  mret (default init_process next));
  switch_to_process next_process;;
  preempt_enable.

(** *** Lottery *)
Definition LOTTERY_SEED : Z := 88172645463325252.

(** The three shift-xor rounds of lottery_random. *)
Definition xorshift64 (x : Z) : Z :=
  let x := Z.lxor x (u64 (Z.shiftl x 13)) in
  let x := Z.lxor x (Z.shiftr x 7) in
  Z.lxor x (u64 (Z.shiftl x 17)).

(** [mmio_read(0x00003004)]: the low word of the system timer. *)
Definition read_system_timer : M Kernel Z :=
  n ← get_global timer_reads;
  t ← get_global system_timer;
  set_global (with_timer_reads (S n));;
  mret (u32 (t n)).

Definition lottery_random : M Kernel Z :=
  t ← read_system_timer;
  x ← get_global lottery_rng_state;
  let x := Z.lxor x t in
  let x := if x =? 0 then LOTTERY_SEED else x in
  let x := xorshift64 x in
  set_global (with_lottery_rng_state x);;
  mret x.

Definition tickets_of (c : PCB) : Z := if 0 <? tickets c then tickets c else 1.

Fixpoint sum_tickets (fuel : nat) (p : option ptr) (total_tickets : Z) : M Kernel Z :=
  match p with
  | None => mret total_tickets
  | Some p =>
    match fuel with
    | O => fail_with OutOfFuel
    | S fuel =>
      c ← load p;
      sum_tickets fuel (next_ready c) (s64 (total_tickets + tickets_of c))
    end
  end.

Fixpoint find_winner (fuel : nat) (winner ticket_counter : Z)
    (previous candidate : option ptr) : M Kernel (option ptr * option ptr) :=
  match candidate with
  | None => mret (previous, None)
  | Some p =>
    match fuel with
    | O => fail_with OutOfFuel
    | S fuel =>
      c ← load p;
      let ticket_counter := s64 (ticket_counter + tickets_of c) in
      if winner <? ticket_counter then mret (previous, Some p)
      else find_winner fuel winner ticket_counter (Some p) (next_ready c)
    end
  end.

Fixpoint lottery_select (fuel : nat) : M Kernel (option ptr) :=
  match fuel with
  | O => fail_with OutOfFuel
  | S fuel =>
    walk_fuel ← gets queue_fuel;
    q ← get_queue READY_QUEUE;
    total_tickets ← sum_tickets walk_fuel (qhead q) 0;
    if total_tickets =? 0 then mret None else
    r ← lottery_random;
    let winner := s64 (r mod u64 total_tickets) in
    q ← get_queue READY_QUEUE;
    found ← find_winner walk_fuel winner 0 None (qhead q);
    candidate ← nonnull found.2;
    remove_process_from READY_QUEUE found.1 candidate;;
    handle_process_signals candidate;;
    c ← load candidate;
    if state c =? PROCESS_READY then mret (Some candidate) else lottery_select fuel
  end.

Definition _schedule_lottery : M Kernel unit :=
  preempt_disable;;
  if_current_runnable (p ← get_current; enqueue_process_to READY_QUEUE (Some p));;
  next_process ← (fuel ← gets queue_fuel;
                  next ← lottery_select fuel;
                  recharged_or_init 10 next);
  switch_to_process next_process;;
  preempt_enable.

(** *** Multilevel queues *)

(** [active_algorithm->ml_policy], dereferenced. *)
Definition active_policy : M Kernel MultilevelPolicy :=
  a ← get_global active_algorithm; require NullPointer (algorithm_ml_policy a).

(** The [for] loop over the levels: the process found and its level. *)
Fixpoint scan_levels (n : nat) (q : Z) : M Kernel (option (ptr * Z)) :=
  match n with
  | O => mret None
  | S n =>
    queue ← ml_queue_ref q;
    fuel ← gets queue_fuel;
    next ← dequeue_ready fuel queue;
    match next with
    | Some p => mret (Some (p, q))
    | None => scan_levels n (q + 1)
    end
  end.

Definition _schedule_multilevel : M Kernel unit :=
  preempt_disable;;
  policy ← active_policy;
  if_current_runnable (p ← get_current; _enqueue_multilevel p);;
  next_process ← (found ← scan_levels (Z.to_nat (n_levels policy)) 0;
                  match found with
                  | None => mret init_process
                  | Some (p, target_level) =>
                    quantum ← require OutOfBounds (array_get (quantum policy) target_level);
                    recharged_or_init quantum (Some p)
                  end);
  switch_to_process next_process;;
  preempt_enable.

(** The inner [while] of the boost: one lower queue is emptied into level 0. *)
Fixpoint boost_queue (fuel : nat) (queue : queue_ref) : M Kernel unit :=
  match fuel with
  | O => fail_with OutOfFuel
  | S fuel =>
    o ← dequeue_process_from queue;
    match o with
    | None => mret tt
    | Some p =>
      c ← load p;
      set_queue_level (pid c) 0;;
      enqueue_process_to (ML_QUEUE 0) (Some p);;
      boost_queue fuel queue
    end
  end.

Definition boost (policy : MultilevelPolicy) : M Kernel unit :=
  for_loop (Z.to_nat (n_levels policy - 1)) 1 (λ q,
    queue ← ml_queue_ref q;
    fuel ← gets queue_fuel;
    boost_queue fuel queue);;
  for_loop (Z.to_nat N_PROCESSES) 0 (λ i, set_queue_level i 0);;
  set_global (with_ml_ticks_since_boost 0).

Definition _multilevel_on_tick : M Kernel unit :=
  policy ← active_policy;
  (if 0 <? boost_period policy then
     t ← get_global ml_ticks_since_boost;
     let t := s32 (t + 1) in
     set_global (with_ml_ticks_since_boost t);;
     if boost_period policy <=? t then boost policy else mret tt
   else mret tt);;
  current ← get_current;
  if negb (demote_on_expiry policy) then mret tt
  else if decide (current = init_process) then mret tt else
  c ← load current;
  if negb ((counter c <=? 0) && (preempt_disabled c =? 0)) then mret tt else
  level ← get_queue_level (pid c);
  if level <? n_levels policy - 1 then set_queue_level (pid c) (s32 (level + 1))
  else mret tt.

(** ** Algorithm descriptors *)
Record SchedAlgorithm : Type := mk_SchedAlgorithm {
  enqueue : ptr → M Kernel unit;
  pick_next : M Kernel unit;
  on_tick : option (M Kernel unit);
  is_preemptive : bool;
  ml_policy : option MultilevelPolicy
}.

Definition sched_round_robin : SchedAlgorithm :=
  mk_SchedAlgorithm _enqueue_fifo _schedule_round_robin None true None.
Definition sched_fcfs : SchedAlgorithm :=
  mk_SchedAlgorithm _enqueue_fifo _schedule_queue_head None false None.
Definition sched_sjf : SchedAlgorithm :=
  mk_SchedAlgorithm _enqueue_sjf _schedule_queue_head None false None.
Definition sched_lottery : SchedAlgorithm :=
  mk_SchedAlgorithm _enqueue_fifo _schedule_lottery None true None.
Definition sched_priority_aging : SchedAlgorithm :=
  mk_SchedAlgorithm _enqueue_fifo _schedule_priority_aging None true None.
Definition sched_mlq : SchedAlgorithm :=
  mk_SchedAlgorithm _enqueue_multilevel _schedule_multilevel
    (Some _multilevel_on_tick) true (Some ml_policy_mlq).
Definition sched_mlfq : SchedAlgorithm :=
  mk_SchedAlgorithm _enqueue_multilevel _schedule_multilevel
    (Some _multilevel_on_tick) true (Some ml_policy_mlfq).

Definition descriptor (a : algorithm) : SchedAlgorithm :=
  match a with
  | ROUND_ROBIN => sched_round_robin
  | FCFS => sched_fcfs
  | SJF => sched_sjf
  | LOTTERY => sched_lottery
  | PRIORITY_AGING => sched_priority_aging
  | MLQ => sched_mlq
  | MLFQ => sched_mlfq
  end.

Lemma descriptor_enqueue a : enqueue (descriptor a) = algorithm_enqueue a.
Proof. by destruct a. Qed.

Lemma descriptor_ml_policy a : ml_policy (descriptor a) = algorithm_ml_policy a.
Proof. by destruct a. Qed.

(** ** Dispatcher, tick and exit *)
Definition _schedule : M Kernel unit :=
  a ← get_global active_algorithm; pick_next (descriptor a).

Definition schedule : M Kernel unit :=
  current ← get_current;
  c ← load current;
  (if negb (bool_decide (current = init_process))
      && negb (state c =? PROCESS_RUNNING) && negb (state c =? PROCESS_READY) then
     store current (with_est_burst (Z.quot (s64 (burst_ticks c + est_burst c)) 2));;
     store current (with_burst_ticks 0)
   else mret tt);;
  store current (with_counter 0);;
  _schedule.

Definition enable_irq : M Kernel unit := set_global (with_irq_enabled true).
Definition disable_irq : M Kernel unit := set_global (with_irq_enabled false).

Definition handle_timer_tick : M Kernel unit :=
  current ← get_current;
  c ← load current;
  store current (with_counter (s64 (counter c - 1)));;
  store current (with_burst_ticks (s64 (burst_ticks c + 1)));;
  a ← get_global active_algorithm;
  default (mret tt) (on_tick (descriptor a));;
  current ← get_current;
  c ← load current;
  if (0 <? counter c) || (0 <? preempt_disabled c) then mret tt else
  store current (with_counter 0);;
  if negb (is_preemptive (descriptor a)) then mret tt else
  enable_irq;;
  _schedule;;
  disable_irq.

Definition exit_process : M Kernel unit :=
  preempt_disable;;
  current ← get_current;
  store current (with_state PROCESS_ZOMBIE);;
  for_loop (Z.to_nat N_PROCESSES) 0 (λ i,
    ps ← get_global processes;
    o ← require OutOfBounds (array_get ps i);
    match o with
    | None => mret tt
    | Some p =>
      c ← load p;
      current ← get_current;
      cc ← load current;
      if (state c =? PROCESS_WAITING_ANOTHER_PROCESS) && (pid_to_wait c =? pid cc) then
        store p (with_state PROCESS_READY);;
        store p (with_pid_to_wait (-1));;
        enqueue_process (Some p)
      else mret tt
    end);;
  preempt_enable;;
  schedule.
