(* ===== verification/SchedulerSpec.v ===== *)
(** * What the scheduler promises, on lists

    The abstract scheduler: the selection algorithms as functions on the
    abstract kernel of Queue.v, in which a queue is a list, signals act on a
    record and choosing a process is a list operation; the well-formedness
    invariant [WF] of the kernel; and the proofs that the pointer code of
    Scheduler.v refines these functions. *)
From stdpp Require Import base gmap list.
From Stdlib Require Import ZArith Lia.
From S2P Require Import Prelude Kernel Queue Scheduler.

#[local] Open Scope Z_scope.

(** ** The abstract operations *)
Definition a_cur (a : AKernel) : ptr := current_process (a_globals a).

Definition a_put (p : ptr) (c : PCB) (a : AKernel) : AKernel :=
  a_set_pcbs (<[p := c]> (a_pcbs a)) a.

(** Signals act on a READY process like this: KILL and STOP take it out of the
    competition, RESUME only consumes the signal. *)
Definition apply_signals (c : PCB) : PCB :=
  if pending_signals c =? 0 then c
  else if has_signal c SIGNAL_KILL then clear_signal SIGNAL_KILL (with_state PROCESS_ZOMBIE c)
  else if has_signal c SIGNAL_STOP then clear_signal SIGNAL_STOP (with_state PROCESS_STOPPED c)
  else if has_signal c SIGNAL_RESUME then clear_signal SIGNAL_RESUME c
  else c.

Definition bump_preempt (d : Z) (c : PCB) : PCB :=
  with_preempt_disabled (s32 (preempt_disabled c + d)) c.

Definition a_preempt (d : Z) (a : AKernel) : AKernel := a_update (a_cur a) (bump_preempt d) a.

(** The first process of a queue that is READY after its signals; the ones
    before it leave the queue. *)
Fixpoint first_ready (m : gmap ptr PCB) (l : list ptr)
    : option ptr * list ptr * gmap ptr PCB :=
  match l with
  | [] => (None, [], m)
  | p :: l =>
    match m !! p with
    | None => (None, [], m)
    | Some c =>
      let c := apply_signals c in
      if state c =? PROCESS_READY then (Some p, l, <[p := c]> m)
      else first_ready (<[p := c]> m) l
    end
  end.

Definition a_dequeue_ready (q : queue_ref) (a : AKernel) : option ptr * AKernel :=
  let '(o, l, m) := first_ready (a_pcbs a) (a_queue a q) in
  (o, a_set_queue q l (a_set_pcbs m a)).

Definition a_is_running (a : AKernel) (p : ptr) : bool :=
  match a_pcbs a !! p with Some c => state c =? PROCESS_RUNNING | None => false end.

(** The insertion policy of an algorithm. *)
Definition a_level (a : AKernel) (p : ptr) : Z :=
  match a_pcbs a !! p with
  | Some c => default 0 (array_get (queue_level (a_globals a)) (pid c))
  | None => 0
  end.

Definition a_enqueue_policy (alg : algorithm) (p : ptr) (a : AKernel) : AKernel :=
  match alg with
  | ROUND_ROBIN | FCFS | LOTTERY | PRIORITY_AGING => a_enqueue READY_QUEUE p a
  | SJF => a_enqueue_sorted READY_QUEUE p a
  | MLQ | MLFQ => a_enqueue (ML_QUEUE (Z.to_nat (a_level a p))) p a
  end.

Definition a_enqueue_process (p : ptr) (a : AKernel) : AKernel :=
  if decide (p = init_process) then a
  else a_enqueue_policy (active_algorithm (a_globals a)) p a.

(** The outgoing process, if it can still run, competes again. *)
Definition a_requeue (alg : algorithm) (a : AKernel) : AKernel :=
  if decide (a_cur a = init_process) then a
  else if a_is_running a (a_cur a) then a_enqueue_policy alg (a_cur a) a else a.

Definition a_context (p : ptr) (a : AKernel) : cpu_context :=
  match a_pcbs a !! p with Some c => cpu_ctx c | None => zero_cpu_context end.
Definition a_pgd (p : ptr) (a : AKernel) : Z :=
  match a_pcbs a !! p with Some c => pgd (mm c) | None => 0 end.

Definition a_switch (next : ptr) (a : AKernel) : AKernel :=
  let a := a_update next (with_state PROCESS_RUNNING) a in
  if decide (a_cur a = next) then a else
  let prev := a_cur a in
  let a := if a_is_running a prev then a_update prev (with_state PROCESS_READY) a else a in
  let a := a_set_globals (with_current_process next) a in
  let a := a_set_globals (with_ttbr0 (a_pgd next a)) a in
  let a := a_update prev (with_cpu_ctx (cpu (a_globals a))) a in
  a_set_globals (with_cpu (a_context next a)) a.

(** A selection: one critical section around requeue, choice and switch. *)
Definition a_select (alg : algorithm) (choose : AKernel → ptr * AKernel) (a : AKernel) : AKernel :=
  let a := a_requeue alg (a_preempt 1 a) in
  let '(next, a) := choose a in
  a_preempt (-1) (a_switch next a).

Definition or_init (quantum : option Z) (r : option ptr * AKernel) : ptr * AKernel :=
  match r with
  | (None, a) => (init_process, a)
  | (Some p, a) =>
    (p, match quantum with Some v => a_update p (with_counter v) a | None => a end)
  end.

Definition a_choose_head (quantum : option Z) (a : AKernel) : ptr * AKernel :=
  or_init quantum (a_dequeue_ready READY_QUEUE a).

(** ** The invariant *)
Record WF (a : AKernel) : Prop := mk_WF {
  wf_init : is_Some (a_pcbs a !! init_process);
  wf_current : is_Some (a_pcbs a !! a_cur a);
  wf_queued : ∀ p, queued a p →
    p ≠ init_process ∧ ∃ c, a_pcbs a !! p = Some c ∧ state c = PROCESS_READY;
  wf_levels : length (queue_level (a_globals a)) = Z.to_nat N_PROCESSES ∧
    Forall (λ l, 0 ≤ l < ML_MAX_LEVELS) (queue_level (a_globals a));
  wf_pid : ∀ p c, a_pcbs a !! p = Some c →
    0 ≤ pid c < N_PROCESSES ∧
    array_get (processes (a_globals a)) (pid c) = Some (Some p);
  wf_processes : length (processes (a_globals a)) = Z.to_nat N_PROCESSES ∧
    ∀ i p, array_get (processes (a_globals a)) i = Some (Some p) →
      ∃ c, a_pcbs a !! p = Some c ∧ pid c = i
}.

(** ** Updates of a PCB *)
Lemma a_update_put a p c f : a_pcbs a !! p = Some c → a_update p f a = a_put p (f c) a.
Proof. intros H. unfold a_update, a_put. by rewrite (alter_is_insert _ _ _ _ H). Qed.

Lemma a_put_put a p c c' : a_put p c (a_put p c' a) = a_put p c a.
Proof. unfold a_put, a_set_pcbs. simpl. by rewrite insert_insert_eq. Qed.

Lemma a_put_lookup a p c : a_pcbs (a_put p c a) !! p = Some c.
Proof. apply lookup_insert_eq. Qed.

Lemma a_put_id a p c : a_pcbs a !! p = Some c → a_put p c a = a.
Proof. intros H. unfold a_put. apply a_set_pcbs_id. by apply insert_id. Qed.

Lemma a_update_update a p f g : a_update p f (a_update p g a) = a_update p (λ c, f (g c)) a.
Proof.
  unfold a_update, a_set_pcbs. simpl. f_equal. apply map_eq. intros i.
  destruct (decide (p = i)) as [<-|H].
  - rewrite !lookup_alter_eq. by destruct (a_pcbs a !! p).
  - by rewrite !lookup_alter_ne.
Qed.

Lemma a_update_lookup a p f : a_pcbs (a_update p f a) !! p = f <$> a_pcbs a !! p.
Proof. apply lookup_alter_eq. Qed.

Lemma a_update_lookup_ne a p f q : p ≠ q → a_pcbs (a_update p f a) !! q = a_pcbs a !! q.
Proof. intros H. by apply lookup_alter_ne. Qed.

Lemma a_update_is_Some a p f q :
  is_Some (a_pcbs a !! q) → is_Some (a_pcbs (a_update p f a) !! q).
Proof.
  destruct (decide (p = q)) as [<-|H].
  - rewrite a_update_lookup. by apply fmap_is_Some.
  - by rewrite a_update_lookup_ne.
Qed.

Lemma a_queue_update a p f q : a_queue (a_update p f a) q = a_queue a q.
Proof. by destruct q. Qed.

Lemma a_set_queue_pcbs a q l : a_pcbs (a_set_queue q l a) = a_pcbs a.
Proof. by destruct q. Qed.

Lemma a_set_queue_globals a q l : a_globals (a_set_queue q l a) = a_globals a.
Proof. by destruct q. Qed.

#[export] Instance neutral_clear_signal s : NextNeutral (clear_signal s).
Proof. by split. Qed.
#[export] Instance neutral_bump_preempt d : NextNeutral (bump_preempt d).
Proof. by split. Qed.
#[export] Instance neutral_recharge : NextNeutral recharge.
Proof. by split. Qed.

(** A store of a value computed from the current contents. *)
Lemma sim_store_last k a p f `{!NextNeutral f} :
  R k a → is_Some (a_pcbs a !! p) → sim k (store p f) tt (a_update p f a).
Proof.
  intros HR [c Hc]. destruct (R_heap_lookup _ _ _ _ HR Hc) as (c' & Hc' & ->).
  eexists. split; [by apply store_some|]. by apply R_store.
Qed.

(** The update [f] agrees with the update [g] on the PCB it is applied to. *)
Lemma a_update_ext a p f g :
  (∀ c, a_pcbs a !! p = Some c → f c = g c) → a_update p f a = a_update p g a.
Proof.
  intros H. destruct (a_pcbs a !! p) as [c|] eqn:Hc.
  - by rewrite !(a_update_put _ _ _ _ Hc), H.
  - unfold a_update. f_equal. apply map_eq. intros i.
    destruct (decide (p = i)) as [<-|Hne].
    + by rewrite !lookup_alter_eq, Hc.
    + by rewrite !lookup_alter_ne.
Qed.

(** ** Critical sections and signals refine their specification *)
Lemma sim_ext {A} k (m : M Kernel A) r a a' : a = a' → sim k m r a → sim k m r a'.
Proof. by intros <-. Qed.

Lemma preempt_sim k a d :
  R k a → is_Some (a_pcbs a !! a_cur a) →
  sim k (p ← get_current; c ← load p;
         store p (with_preempt_disabled (s32 (preempt_disabled c + d)))) tt (a_preempt d a).
Proof.
  intros HR [c Hc]. eapply sim_current; [done|].
  eapply sim_load; [done|exact Hc|]. intros c' Hc' ->.
  eapply sim_ext; [|by apply sim_store_last; [apply _|done|eexists]].
  unfold a_preempt. apply a_update_ext. intros c1. rewrite Hc. by intros [= <-].
Qed.

Lemma preempt_disable_sim k a :
  R k a → is_Some (a_pcbs a !! a_cur a) → sim k preempt_disable tt (a_preempt 1 a).
Proof. apply preempt_sim. Qed.

Lemma preempt_enable_sim k a :
  R k a → is_Some (a_pcbs a !! a_cur a) → sim k preempt_enable tt (a_preempt (-1) a).
Proof. apply preempt_sim. Qed.

Lemma handle_process_signals_sim k a p c :
  R k a → a_pcbs a !! p = Some c → state c ≠ PROCESS_STOPPED →
  sim k (handle_process_signals p) tt (a_put p (apply_signals c) a).
Proof.
  intros HR Hc Hs. assert (is_Some (a_pcbs a !! p)) as Hp by eauto.
  unfold handle_process_signals, apply_signals.
  eapply sim_load; [done|exact Hc|]. intros c' Hc' ->.
  change (pending_signals (erase_next c')) with (pending_signals c').
  change (has_signal (erase_next c')) with (has_signal c').
  case_bool; [rewrite (a_put_id a p _ Hc); by apply sim_ret|].
  destruct (has_signal c' SIGNAL_KILL);
    [|destruct (has_signal c' SIGNAL_STOP); [|destruct (has_signal c' SIGNAL_RESUME)]].
  - apply (sim_store k a); [apply _|done|done|]. intros k1 HR1.
    eapply sim_ext; [|apply sim_store_last; [apply _|done|by apply a_update_is_Some]].
    by rewrite a_update_update, (a_update_put _ _ _ _ Hc).
  - apply (sim_store k a); [apply _|done|done|]. intros k1 HR1.
    eapply sim_ext; [|apply sim_store_last; [apply _|done|by apply a_update_is_Some]].
    by rewrite a_update_update, (a_update_put _ _ _ _ Hc).
  - apply (sim_store k a); [apply _|done|done|]. intros k1 HR1.
    rewrite (a_update_put _ _ _ _ Hc) in HR1.
    eapply sim_load; [done|apply a_put_lookup|]. intros c1 Hc1 E.
    assert (state c1 = state c') as ->.
    { change (state c1) with (state (erase_next c1)). by rewrite <- E. }
    case_bool; [done|]. by apply sim_ret.
  - rewrite (a_put_id a p _ Hc). by apply sim_ret.
Qed.

(** ** Dequeueing until a READY process is found *)
Lemma first_ready_dom m l x :
  is_Some (m !! x) → is_Some ((first_ready m l).2 !! x).
Proof.
  revert m. induction l as [|p l IH]; intros m Hx; simpl; [done|].
  destruct (m !! p) as [c|] eqn:Hp; [|done]. case_bool; simpl.
  - destruct (decide (x = p)) as [->|Hne]; [by rewrite lookup_insert_eq|].
    by rewrite lookup_insert_ne.
  - apply IH. destruct (decide (x = p)) as [->|Hne]; [by rewrite lookup_insert_eq|].
    by rewrite lookup_insert_ne.
Qed.

Lemma a_queue_put a p c q : a_queue (a_put p c a) q = a_queue a q.
Proof. by destruct q. Qed.

Lemma a_set_queue_twice a q l l' : a_set_queue q l (a_set_queue q l' a) = a_set_queue q l a.
Proof. destruct q; [done|]. unfold a_set_queue. simpl. by rewrite list_insert_insert_eq. Qed.

Lemma a_set_queue_put a q l p c : a_put p c (a_set_queue q l a) = a_set_queue q l (a_put p c a).
Proof. by destruct q. Qed.

Lemma a_set_pcbs_put a m p c : a_set_pcbs m (a_put p c a) = a_set_pcbs m a.
Proof. done. Qed.

Lemma a_set_pcbs_set_queue a m q l :
  a_set_pcbs m (a_set_queue q l a) = a_set_queue q l (a_set_pcbs m a).
Proof. by destruct q. Qed.

Lemma dequeue_ready_sim fuel k a q :
  R k a → valid_queue q → (length (a_queue a q) < fuel)%nat →
  (∀ p, p ∈ a_queue a q → ∃ c, a_pcbs a !! p = Some c ∧ state c = PROCESS_READY) →
  sim k (dequeue_ready fuel q) (a_dequeue_ready q a).1 (a_dequeue_ready q a).2.
Proof.
  revert k a. induction fuel as [|fuel IH]; intros k a HR Hq Hf Hwf; [lia|].
  assert (length (a_ml a) = Z.to_nat ML_MAX_LEVELS) as Hlen by apply HR.
  cbn [dequeue_ready]. eapply sim_bind; [by apply dequeue_process_from_sim|]. intros k1 HR1.
  unfold a_dequeue_ready.
  destruct (a_queue a q) as [|p l] eqn:El; simpl in *.
  { rewrite a_set_pcbs_id by done. by apply sim_ret. }
  destruct (Hwf p ltac:(set_solver)) as (c & Hc & Hs). rewrite Hc.
  set (c2 := apply_signals c) in *.
  assert (NoDup (p :: l)) as [Hpl Hnd]%NoDup_cons by (rewrite <- El; apply HR).
  set (a1 := a_set_queue q l a) in *.
  assert (a_pcbs a1 !! p = Some c) as Hc1 by (unfold a1; by rewrite a_set_queue_pcbs).
  eapply sim_bind.
  { apply (handle_process_signals_sim _ _ _ _ HR1 Hc1). rewrite Hs. done. }
  fold c2. intros k2 HR2. eapply sim_load; [done|apply a_put_lookup|]. intros c' Hc' E.
  assert (state c' = state c2) as ->.
  { rewrite E. done. }
  case_bool; simpl.
  - apply sim_ret. unfold a1 in HR2. by rewrite a_set_queue_put in HR2.
  - assert (a_queue (a_put p c2 a1) q = l) as Eq.
    { rewrite a_queue_put. by apply a_queue_set. }
    destruct (IH k2 (a_put p c2 a1) HR2 Hq) as (k3 & H3 & HR3).
    + rewrite Eq. lia.
    + rewrite Eq. intros x Hx. destruct (Hwf x ltac:(set_solver)) as (cx & Hcx & Hsx).
      exists cx. split; [|done]. simpl. rewrite lookup_insert_ne by set_solver.
      unfold a1. by rewrite a_set_queue_pcbs.
    + unfold a_dequeue_ready in *. rewrite Eq in *. simpl in *.
      assert (a_pcbs a1 = a_pcbs a) as Ea by apply a_set_queue_pcbs. rewrite Ea in *.
      destruct (first_ready (<[p:=c2]> (a_pcbs a)) l) as [[o l'] m]. simpl in *.
      exists k3. split; [done|]. unfold a1 in HR3.
      by rewrite a_set_pcbs_put, a_set_pcbs_set_queue, a_set_queue_twice in HR3.
Qed.

(** ** Insertion policies *)
Lemma WF_level a p c :
  WF a → a_pcbs a !! p = Some c →
  ∃ lv, array_get (queue_level (a_globals a)) (pid c) = Some lv ∧
        0 ≤ lv < ML_MAX_LEVELS ∧ a_level a p = lv.
Proof.
  intros [_ _ _ [Hl1 Hl2] Hpid _] Hc. destruct (Hpid p c Hc) as [Hr _].
  destruct (array_get_is_Some (queue_level (a_globals a)) (pid c)) as [lv Hlv].
  { rewrite Hl1. done. }
  exists lv. split; [done|]. split.
  - unfold array_get in Hlv. destruct (pid c <? 0); [done|].
    rewrite Forall_lookup in Hl2. eauto.
  - unfold a_level. by rewrite Hc, Hlv.
Qed.

Lemma get_queue_level_sim {B} k a i v (f : Z → M Kernel B) r a' :
  R k a → array_get (queue_level (a_globals a)) i = Some v →
  sim k (f v) r a' → sim k (get_queue_level i ≫= f) r a'.
Proof.
  intros HR Hv Hf. unfold sim. erewrite bind_done; [exact Hf|].
  apply get_queue_level_some. by rewrite <- (R_globals _ _ HR).
Qed.

Lemma ml_queue_ref_sim {B} k lv (f : queue_ref → M Kernel B) r a' :
  0 ≤ lv < ML_MAX_LEVELS →
  sim k (f (ML_QUEUE (Z.to_nat lv))) r a' → sim k (ml_queue_ref lv ≫= f) r a'.
Proof.
  intros Hlv Hf. unfold ml_queue_ref.
  assert ((lv <? 0) || (ML_MAX_LEVELS <=? lv) = false) as ->; [|done].
  apply orb_false_iff. split; [apply Z.ltb_ge|apply Z.leb_gt]; lia.
Qed.

Lemma valid_ml_queue lv : 0 ≤ lv < ML_MAX_LEVELS → valid_queue (ML_QUEUE (Z.to_nat lv)).
Proof. intros H. simpl. unfold ML_MAX_LEVELS in *. lia. Qed.

Lemma algorithm_enqueue_sim k a alg p :
  R k a → WF a → p ≠ init_process → is_Some (a_pcbs a !! p) → ¬ queued a p →
  sim k (algorithm_enqueue alg p) tt (a_enqueue_policy alg p a).
Proof.
  intros HR HW Hp [c Hc] Hnq.
  assert (sim k (_enqueue_multilevel p) tt
            (a_enqueue (ML_QUEUE (Z.to_nat (a_level a p))) p a)) as Hml.
  { destruct (WF_level a p c HW Hc) as (lv & Hlv & Hr & ->).
    unfold _enqueue_multilevel. eapply sim_load; [done|exact Hc|]. intros c' Hc' ->.
    eapply get_queue_level_sim; [done|exact Hlv|]. apply ml_queue_ref_sim; [done|].
    apply enqueue_process_to_sim; eauto using valid_ml_queue. }
  destruct alg; try exact Hml; try (apply enqueue_process_to_sim; by eauto).
  apply enqueue_sorted_to_sim; by eauto.
Qed.

Lemma enqueue_process_sim k a p :
  R k a → WF a → is_Some (a_pcbs a !! p) → ¬ queued a p →
  sim k (enqueue_process (Some p)) tt (a_enqueue_process p a).
Proof.
  intros HR HW Hp Hnq. unfold enqueue_process, a_enqueue_process.
  case_decide; [by apply sim_ret|]. eapply sim_global; [done|].
  by apply algorithm_enqueue_sim.
Qed.

Lemma current_is_runnable_sim {B} k a (f : bool → M Kernel B) r a' :
  R k a → is_Some (a_pcbs a !! a_cur a) →
  sim k (f (negb (bool_decide (a_cur a = init_process)) && a_is_running a (a_cur a))) r a' →
  sim k (current_is_runnable ≫= f) r a'.
Proof.
  intros HR [c Hc] Hf. unfold current_is_runnable.
  apply sim_assoc. eapply sim_current; [done|].
  fold (a_cur a). case_decide as Hd.
  - by rewrite bool_decide_eq_true_2 in Hf.
  - rewrite bool_decide_eq_false_2 in Hf by done. apply sim_assoc.
    eapply sim_load; [done|exact Hc|]. intros c' Hc' ->.
    unfold a_is_running in Hf. by rewrite Hc in Hf.
Qed.

(** ** The context switch *)
Lemma cpu_switch_sim k a prev next :
  R k a → is_Some (a_pcbs a !! prev) → is_Some (a_pcbs a !! next) →
  sim k (cpu_switch_to_process prev next) tt
    (let a := a_update prev (with_cpu_ctx (cpu (a_globals a))) a in
     a_set_globals (with_cpu (a_context next a)) a).
Proof.
  intros HR Hp Hn. unfold cpu_switch_to_process. eapply sim_global; [done|].
  apply (sim_store k a); [apply _|done|done|]. intros k1 HR1.
  destruct (a_update_is_Some a prev (with_cpu_ctx (cpu (a_globals a))) _ Hn) as [c Hc].
  eapply sim_load; [done|exact Hc|]. intros c' Hc' ->.
  eapply sim_ext; [|by apply sim_set_global_last]. simpl. unfold a_context. by rewrite Hc.
Qed.

Lemma switch_to_process_sim k a next :
  R k a → is_Some (a_pcbs a !! next) → is_Some (a_pcbs a !! a_cur a) →
  sim k (switch_to_process next) tt (a_switch next a).
Proof.
  intros HR Hn Hcur. unfold switch_to_process, a_switch.
  apply (sim_store k a); [apply _|done|done|]. intros k1 HR1.
  set (a1 := a_update next _ a) in *. eapply sim_current; [done|].
  change (current_process (a_globals a1)) with (a_cur a1).
  case_decide; [by apply sim_ret|].
  assert (is_Some (a_pcbs a1 !! a_cur a)) as [c Hc] by by apply a_update_is_Some.
  assert (is_Some (a_pcbs a1 !! next)) as Hn1 by by apply a_update_is_Some.
  eapply sim_load; [done|exact Hc|]. intros c' Hc' ->.
  set (a2 := if a_is_running a1 (a_cur a1) then _ else a1).
  apply (sim_bind _ _ _ tt a2).
  { unfold a2, a_is_running. change (a_cur a1) with (a_cur a). rewrite Hc. simpl.
    change (state (erase_next c')) with (state c'). case_bool; [|by apply sim_ret].
    apply sim_store_last; [apply _|done|by eexists]. }
  intros k2 HR2. eapply sim_set_global; [done|]. intros k3 HR3.
  assert (∀ x, is_Some (a_pcbs a1 !! x) → is_Some (a_pcbs a2 !! x)) as H12.
  { intros x Hx. unfold a2. destruct (a_is_running _ _); [|done]. by apply a_update_is_Some. }
  destruct (H12 _ Hn1) as [cn Hcn].
  eapply sim_load; [done|exact Hcn|]. intros cn' Hcn' ->.
  eapply sim_set_global; [done|]. intros k4 HR4. eapply sim_current; [done|].
  match goal with |- context [a_pgd next ?x] =>
    assert (a_pgd next x = pgd (mm cn')) as -> by (unfold a_pgd; simpl; by rewrite Hcn) end.
  apply cpu_switch_sim; [exact HR4|by apply H12|by eexists].
Qed.

(** ** The invariant is preserved: building blocks *)

(** Updates that keep the identity of a process, and those that also keep its state. *)
Class KeepsPid (f : PCB → PCB) : Prop := keeps_pid : ∀ c, pid (f c) = pid c.
Class KeepsState (f : PCB → PCB) : Prop := keeps_state : ∀ c, state (f c) = state c.

#[export] Instance keeps_pid_state v : KeepsPid (with_state v).
Proof. done. Qed.
#[export] Instance keeps_pid_bump d : KeepsPid (bump_preempt d).
Proof. done. Qed.
#[export] Instance keeps_state_bump d : KeepsState (bump_preempt d).
Proof. done. Qed.
#[export] Instance keeps_pid_counter v : KeepsPid (with_counter v).
Proof. done. Qed.
#[export] Instance keeps_state_counter v : KeepsState (with_counter v).
Proof. done. Qed.
#[export] Instance keeps_pid_ctx v : KeepsPid (with_cpu_ctx v).
Proof. done. Qed.
#[export] Instance keeps_state_ctx v : KeepsState (with_cpu_ctx v).
Proof. done. Qed.
#[export] Instance keeps_pid_recharge : KeepsPid recharge.
Proof. done. Qed.
#[export] Instance keeps_state_recharge : KeepsState recharge.
Proof. done. Qed.
#[export] Instance keeps_pid_est v : KeepsPid (with_est_burst v).
Proof. done. Qed.
#[export] Instance keeps_state_est v : KeepsState (with_est_burst v).
Proof. done. Qed.
#[export] Instance keeps_pid_burst v : KeepsPid (with_burst_ticks v).
Proof. done. Qed.
#[export] Instance keeps_state_burst v : KeepsState (with_burst_ticks v).
Proof. done. Qed.
#[export] Instance keeps_pid_to_wait v : KeepsPid (with_pid_to_wait v).
Proof. done. Qed.
#[export] Instance keeps_state_to_wait v : KeepsState (with_pid_to_wait v).
Proof. done. Qed.
#[export] Instance keeps_pid_signals : KeepsPid apply_signals.
Proof. intros c. unfold apply_signals. by repeat case_bool. Qed.

Lemma apply_signals_next_neutral c : erase_next (apply_signals c) = apply_signals (erase_next c).
Proof.
  unfold apply_signals. change (pending_signals (erase_next c)) with (pending_signals c).
  change (has_signal (erase_next c)) with (has_signal c). by repeat case_bool.
Qed.

Lemma queued_update a p f x : queued (a_update p f a) x ↔ queued a x.
Proof. unfold queued. by setoid_rewrite a_queue_update. Qed.

Lemma queued_put a p c x : queued (a_put p c a) x ↔ queued a x.
Proof. unfold queued. by setoid_rewrite a_queue_put. Qed.

Lemma a_cur_update a p f : a_cur (a_update p f a) = a_cur a.
Proof. done. Qed.

(** The PCBs change, keeping their pids, and queued processes stay READY. *)
Lemma WF_set_pcbs a m :
  WF a → (∀ p, is_Some (a_pcbs a !! p) → is_Some (m !! p)) →
  (∀ p c', m !! p = Some c' → ∃ c, a_pcbs a !! p = Some c ∧ pid c' = pid c) →
  (∀ p, queued a p → ∃ c', m !! p = Some c' ∧ state c' = PROCESS_READY) →
  WF (a_set_pcbs m a).
Proof.
  intros [Hi Hc Hq Hl Hp [Hps Hps']] Hdom Hpid Hst. split; simpl; eauto.
  - intros p [q Hx]. assert (queued a p) as Hqp by (exists q; by destruct q).
    split; [by apply Hq|by apply Hst].
  - intros p c' Hc'. destruct (Hpid p c' Hc') as (c & Hcp & ->). eauto.
  - split; [done|]. intros i p Hip. destruct (Hps' i p Hip) as (c & Hcp & <-).
    destruct (Hdom p ltac:(eauto)) as [c' Hc'].
    destruct (Hpid p c' Hc') as (c2 & Hc2 & E). exists c'. split; [done|]. congruence.
Qed.

Lemma WF_update a p f `{!KeepsPid f} :
  WF a → (queued a p → KeepsState f) → WF (a_update p f a).
Proof.
  intros HW Hst. apply WF_set_pcbs; [done|..].
  - intros x Hx. by apply (a_update_is_Some a p f).
  - intros x c' Hx. destruct (decide (p = x)) as [<-|Hne].
    + rewrite lookup_alter_eq in Hx. apply fmap_Some in Hx as (c & Hc & ->).
      exists c. split; [done|]. apply keeps_pid.
    + rewrite lookup_alter_ne in Hx by done. eauto.
  - intros x Hx. destruct (wf_queued _ HW x Hx) as (_ & c & Hc & Hs).
    destruct (decide (p = x)) as [<-|Hne].
    + exists (f c). rewrite lookup_alter_eq, Hc. split; [done|].
      rewrite <- Hs. by apply (Hst Hx).
    + exists c. by rewrite lookup_alter_ne.
Qed.

Lemma WF_preempt a d : WF a → WF (a_preempt d a).
Proof. intros HW. apply WF_update; [apply _|done|]. intros _. apply _. Qed.

Lemma queued_set_queue a q l x :
  queued (a_set_queue q l a) x → x ∈ l ∨ ∃ q', q' ≠ q ∧ x ∈ a_queue a q'.
Proof.
  intros [q' Hx]. destruct (decide (q = q')) as [<-|Hne].
  - left. destruct q as [|n]; [done|]. simpl in Hx.
    destruct (decide (n < length (a_ml a)))%nat as [Hn|Hn].
    + by rewrite list_lookup_insert_eq in Hx.
    + rewrite (lookup_ge_None_2 (<[n := l]> (a_ml a)) n) in Hx by (rewrite length_insert; lia).
      set_solver.
  - right. exists q'. split; [congruence|]. by rewrite a_queue_set_ne in Hx.
Qed.

Lemma WF_set_queue a q l :
  WF a →
  (∀ p, p ∈ l → p ≠ init_process ∧ ∃ c, a_pcbs a !! p = Some c ∧ state c = PROCESS_READY) →
  WF (a_set_queue q l a).
Proof.
  intros [Hi Hc Hq Hl Hp Hps] Hnew.
  assert (a_pcbs (a_set_queue q l a) = a_pcbs a) as Ep by apply a_set_queue_pcbs.
  assert (a_globals (a_set_queue q l a) = a_globals a) as Eg by apply a_set_queue_globals.
  split; unfold a_cur; rewrite ?Ep, ?Eg; try done.
  intros p [Hx|(q' & _ & Hx)]%queued_set_queue; [by apply Hnew|]. apply Hq. by exists q'.
Qed.

Lemma WF_set_globals a f :
  WF a → is_Some (a_pcbs a !! current_process (f (a_globals a))) →
  queue_level (f (a_globals a)) = queue_level (a_globals a) →
  processes (f (a_globals a)) = processes (a_globals a) → WF (a_set_globals f a).
Proof.
  intros [Hi Hc Hq Hl Hp Hps] H1 H2 H3. split; simpl; rewrite ?H2, ?H3; try done.
Qed.

Lemma elem_of_insert_by_burst b p l x : x ∈ insert_by_burst b p l ↔ x = p ∨ x ∈ l.
Proof.
  induction l as [|y l IH]; simpl; [set_solver|]. case_bool; set_solver.
Qed.

(** Enqueueing, whatever the order of the queue. *)
Lemma WF_enqueue_at a q l p :
  WF a → p ≠ init_process → is_Some (a_pcbs a !! p) →
  (∀ x, x ∈ l → x = p ∨ x ∈ a_queue a q) →
  WF (a_set_queue q l (a_update p (with_state PROCESS_READY) a)).
Proof.
  intros HW Hp [c Hc] Hl.
  assert (WF (a_update p (with_state PROCESS_READY) a)) as HW1.
  { apply WF_set_pcbs; [done|..].
    - intros x Hx. by apply (a_update_is_Some a p).
    - intros x c' Hx. destruct (decide (p = x)) as [<-|Hne].
      + rewrite lookup_alter_eq, Hc in Hx. simplify_eq/=. by exists c.
      + rewrite lookup_alter_ne in Hx by done. eauto.
    - intros x Hx. destruct (wf_queued _ HW x Hx) as (_ & cx & Hcx & Hs).
      destruct (decide (p = x)) as [<-|Hne].
      + exists (with_state PROCESS_READY c). by rewrite lookup_alter_eq, Hc.
      + exists cx. by rewrite lookup_alter_ne. }
  apply WF_set_queue; [done|]. intros x [->|Hx]%Hl.
  - split; [done|]. exists (with_state PROCESS_READY c). by rewrite a_update_lookup, Hc.
  - apply (wf_queued _ HW1). exists q. by rewrite a_queue_update.
Qed.

Lemma WF_enqueue_policy a alg p :
  WF a → p ≠ init_process → is_Some (a_pcbs a !! p) → WF (a_enqueue_policy alg p a).
Proof.
  intros HW Hp Hc.
  destruct alg; apply WF_enqueue_at; try done; intros x; try (set_solver).
  by rewrite elem_of_insert_by_burst.
Qed.

Lemma WF_requeue a alg : WF a → WF (a_requeue alg a).
Proof.
  intros HW. unfold a_requeue. case_decide; [done|]. case_bool; [|done].
  apply WF_enqueue_policy; [done..|]. apply HW.
Qed.

(** ** The frame of a selection *)
Lemma requeue_sim k a alg (m : M Kernel unit) :
  R k a → WF a →
  (∀ k1, R k1 a → a_cur a ≠ init_process → ¬ queued a (a_cur a) →
     sim k1 m tt (a_enqueue_policy alg (a_cur a) a)) →
  sim k (if_current_runnable m) tt (a_requeue alg a).
Proof.
  intros HR HW Hm. unfold if_current_runnable. apply (current_is_runnable_sim k a); [done|apply HW|].
  unfold a_requeue. case_decide as Hd.
  - rewrite bool_decide_eq_true_2 by done. by apply sim_ret.
  - rewrite bool_decide_eq_false_2 by done. simpl.
    destruct (a_is_running a (a_cur a)) eqn:Hrun; [|by apply sim_ret].
    apply Hm; [done..|]. intros Hq. apply (wf_queued _ HW) in Hq as (_ & c & Hc & Hs).
    unfold a_is_running in Hrun. rewrite Hc, Hs in Hrun. done.
Qed.

Lemma alter_is_Some (m : gmap ptr PCB) f p x : is_Some (m !! x) → is_Some (alter f p m !! x).
Proof.
  destruct (decide (p = x)) as [<-|H]; [rewrite lookup_alter_eq; by apply fmap_is_Some|].
  by rewrite lookup_alter_ne.
Qed.

Lemma a_switch_dom next a x : is_Some (a_pcbs a !! x) → is_Some (a_pcbs (a_switch next a) !! x).
Proof.
  intros Hx. unfold a_switch. case_decide; simpl; [by apply alter_is_Some|].
  destruct (a_is_running _ _); simpl; by repeat apply alter_is_Some.
Qed.

Lemma a_switch_cur next a : a_cur (a_switch next a) = next.
Proof. unfold a_switch. case_decide; [done|]. simpl. by destruct (a_is_running _ _). Qed.

(** What follows [preempt_disable] in every selection function. *)
Definition a_select_rest (alg : algorithm) (choose : AKernel → ptr * AKernel) (a : AKernel) : AKernel :=
  let '(next, a) := choose (a_requeue alg a) in a_preempt (-1) (a_switch next a).

(** What any choice must give for the selection to go on. *)
Definition choice_ok (r : ptr * AKernel) : Prop :=
  is_Some (a_pcbs r.2 !! r.1) ∧ is_Some (a_pcbs r.2 !! a_cur r.2).

Lemma select_rest_sim k a alg (m : M Kernel unit) (choose : M Kernel ptr) ch :
  R k a → WF a →
  (∀ k1, R k1 a → a_cur a ≠ init_process → ¬ queued a (a_cur a) →
     sim k1 m tt (a_enqueue_policy alg (a_cur a) a)) →
  (∀ k1, R k1 (a_requeue alg a) → WF (a_requeue alg a) →
     sim k1 choose (ch (a_requeue alg a)).1 (ch (a_requeue alg a)).2 ∧
     choice_ok (ch (a_requeue alg a))) →
  sim k (if_current_runnable m;;
         next ← choose; switch_to_process next;; preempt_enable) tt (a_select_rest alg ch a).
Proof.
  intros HR HW Hm Hch. eapply sim_bind; [by apply requeue_sim|].
  intros k2 HR2. destruct (Hch k2 HR2) as (Hsim & Hn & Hc); [by apply WF_requeue|].
  unfold a_select_rest. destruct (ch _) as [next a3]. simpl in *.
  eapply sim_bind; [exact Hsim|]. intros k3 HR3.
  eapply sim_bind; [by apply switch_to_process_sim|]. intros k4 HR4.
  apply preempt_enable_sim; [done|].
  rewrite a_switch_cur. by apply a_switch_dom.
Qed.

Lemma select_sim k a alg (m : M Kernel unit) (choose : M Kernel ptr) ch :
  R k a → WF a →
  (∀ k1 a1, R k1 a1 → WF a1 → a_globals a1 = a_globals a →
     a_cur a1 ≠ init_process → ¬ queued a1 (a_cur a1) →
     sim k1 m tt (a_enqueue_policy alg (a_cur a1) a1)) →
  (∀ k1 a1, R k1 a1 → WF a1 → sim k1 choose (ch a1).1 (ch a1).2 ∧ choice_ok (ch a1)) →
  sim k (preempt_disable;;
         if_current_runnable m;;
         next ← choose; switch_to_process next;; preempt_enable) tt
      (a_select alg ch a).
Proof.
  intros HR HW Hm Hch. eapply sim_bind; [apply preempt_disable_sim; [done|apply HW]|].
  intros k1 HR1. assert (WF (a_preempt 1 a)) as HW1 by by apply WF_preempt.
  apply (select_rest_sim k1 (a_preempt 1 a)); [done..|intros; by apply Hm|intros; by apply Hch].
Qed.

(** ** Choosing from the head of a queue *)
Lemma first_ready_spec m l o l' m' :
  NoDup l → (∀ p, p ∈ l → ∃ c, m !! p = Some c ∧ state c = PROCESS_READY) →
  first_ready m l = (o, l', m') →
  ∃ pre, l = pre ++ option_list o ++ l' ∧ (o = None → l' = []) ∧
    (∀ p, p ∈ pre ++ option_list o → m' !! p = apply_signals <$> m !! p) ∧
    (∀ p, p ∉ pre ++ option_list o → m' !! p = m !! p) ∧
    (∀ p c, p ∈ pre → m' !! p = Some c → state c ≠ PROCESS_READY) ∧
    (∀ p, o = Some p → ∃ c, m' !! p = Some c ∧ state c = PROCESS_READY).
Proof.
  revert m. induction l as [|p l IH]; intros m Hnd Hm; simpl.
  { intros [= <- <- <-]. exists []. repeat split; try done; set_solver. }
  apply NoDup_cons in Hnd as [Hpl Hnd].
  destruct (Hm p ltac:(set_solver)) as (c & Hc & Hs). rewrite Hc. case_bool.
  - intros [= <- <- <-]. exists []. repeat split; try done; simpl.
    + intros x ->%list_elem_of_singleton. by rewrite lookup_insert_eq, Hc.
    + intros x Hx. rewrite lookup_insert_ne by set_solver. done.
    + set_solver.
    + intros x [= <-]. eexists. by rewrite lookup_insert_eq.
  - intros Hfr. destruct (IH (<[p:=apply_signals c]> m)) as (pre & -> & Hn & H1 & H2 & H3 & H4); try done.
    { intros x Hx. destruct (Hm x ltac:(set_solver)) as (cx & Hcx & Hsx).
      exists cx. by rewrite lookup_insert_ne by set_solver. }
    exists (p :: pre). repeat split; try done.
    + simpl. intros x [->|Hx]%elem_of_cons.
      * rewrite H2 by set_solver. by rewrite lookup_insert_eq, Hc.
      * rewrite H1 by done. rewrite lookup_insert_ne by set_solver. done.
    + simpl. intros x [Hxp Hx]%not_elem_of_cons. rewrite H2 by done.
      by rewrite lookup_insert_ne by done.
    + intros x cx [->|Hx]%elem_of_cons Hcx; [|by eapply H3].
      rewrite H2 in Hcx by set_solver. rewrite lookup_insert_eq in Hcx. by simplify_eq.
Qed.

(** A choice changes nothing of a PCB but its state, its time slice and its
    pending signals. *)
Definition kept (c0 c : PCB) : Prop :=
  c = with_state (state c) (with_counter (counter c)
        (with_pending_signals (pending_signals c) c0)).

Lemma kept_refl c : kept c c.
Proof. by destruct c. Qed.

Lemma kept_trans c1 c2 c3 : kept c1 c2 → kept c2 c3 → kept c1 c3.
Proof. unfold kept. destruct c1, c2, c3; simpl. intros [=] [=]. by subst. Qed.

Lemma kept_signals c : kept c (apply_signals c).
Proof. unfold apply_signals. repeat case_bool; by destruct c. Qed.

Lemma kept_counter c v : kept c (with_counter v c).
Proof. by destruct c. Qed.

Lemma kept_recharge c : kept c (recharge c).
Proof. apply kept_counter. Qed.

Lemma kept_pid c0 c : kept c0 c → pid c = pid c0.
Proof. by intros ->. Qed.

(** What dequeueing a READY process leaves behind. *)
Record dequeue_post (a : AKernel) (q : queue_ref) (o : option ptr) (a' : AKernel) : Prop := {
  dq_WF : WF a';
  dq_globals : a_globals a' = a_globals a;
  dq_dom : ∀ p, is_Some (a_pcbs a !! p) → is_Some (a_pcbs a' !! p);
  dq_picked : ∀ p, o = Some p →
    p ≠ init_process ∧ ¬ queued a' p ∧ ∃ c, a_pcbs a' !! p = Some c ∧ state c = PROCESS_READY;
  dq_none : o = None → a_queue a' q = [];
  dq_frame : ∀ p c, a_pcbs a' !! p = Some c →
    ∃ c0, a_pcbs a !! p = Some c0 ∧ kept c0 c ∧ (p ∉ a_queue a q → c = c0) ∧ counter c = counter c0;
  dq_dropped : ∀ p c, a_pcbs a' !! p = Some c → state c = PROCESS_READY → p ∈ a_queue a q →
    o = Some p ∨ p ∈ a_queue a' q;
  dq_rest : ∀ q', q' ≠ q → a_queue a' q' = a_queue a q';
  dq_subset : ∀ p, (o = Some p ∨ p ∈ a_queue a' q) → p ∈ a_queue a q;
  dq_not_running : ∀ p c, a_pcbs a' !! p = Some c → p ∈ a_queue a q → state c ≠ PROCESS_RUNNING
}.

Lemma apply_signals_not_running c :
  state c = PROCESS_READY → state (apply_signals c) ≠ PROCESS_RUNNING.
Proof. intros H. unfold apply_signals. repeat case_bool; simpl; try done; by rewrite H. Qed.

Lemma a_dequeue_ready_post a q :
  WF a → queues_disjoint a → valid_queue q → length (a_ml a) = Z.to_nat ML_MAX_LEVELS →
  dequeue_post a q (a_dequeue_ready q a).1 (a_dequeue_ready q a).2.
Proof.
  intros HW [Hnd Hdis] Hq Hlen. unfold a_dequeue_ready.
  destruct (first_ready (a_pcbs a) (a_queue a q)) as [[o l'] m'] eqn:Efr.
  assert (∀ p, p ∈ a_queue a q → ∃ c, a_pcbs a !! p = Some c ∧ state c = PROCESS_READY) as Hrdy.
  { intros p Hp. destruct (wf_queued _ HW p); [by exists q|done]. }
  destruct (first_ready_spec _ _ _ _ _ (Hnd q) Hrdy Efr) as (pre & El & Hn & H1 & H2 & H3 & H4).
  simpl. assert (∀ x c, m' !! x = Some c → ∃ c0, a_pcbs a !! x = Some c0 ∧
      (c = c0 ∨ c = apply_signals c0)) as Hback.
  { intros x c Hx. destruct (decide (x ∈ pre ++ option_list o)) as [Hin|Hout].
    - rewrite H1 in Hx by done. apply fmap_Some in Hx as (c0 & ? & ->). eauto.
    - rewrite H2 in Hx by done. eauto. }
  assert (∀ x, is_Some (a_pcbs a !! x) → is_Some (m' !! x)) as Hdom.
  { intros x Hx. change m' with ((o, l', m').2). rewrite <- Efr. by apply first_ready_dom. }
  set (a1 := a_set_queue q l' (a_set_pcbs m' a)).
  assert (a_queue a1 q = l') as Eq1 by by apply a_queue_set.
  assert (∀ q', q' ≠ q → a_queue a1 q' = a_queue a q') as Eqo.
  { intros q' Hne. unfold a1. rewrite a_queue_set_ne by done. by destruct q'. }
  assert (NoDup (pre ++ option_list o ++ l')) as Hnd' by (rewrite <- El; apply Hnd).
  rewrite app_assoc in Hnd'. apply NoDup_app in Hnd' as (_ & Hnl & _).
  assert (∀ x, x ∈ l' → x ∈ a_queue a q) as Hsub by (rewrite El; set_solver).
  assert (∀ p, queued a1 p → queued a p ∧ p ∉ pre ++ option_list o) as Hq1.
  { intros p [q' Hp]. destruct (decide (q' = q)) as [->|Hne].
    - rewrite Eq1 in Hp. split; [exists q; auto|]. intros Hin. by apply (Hnl p).
    - rewrite Eqo in Hp by done. split; [by exists q'|]. intros Hin. apply Hne.
      eapply Hdis; [done|]. rewrite El, app_assoc. set_solver. }
  assert (WF a1) as HW1.
  { unfold a1. rewrite <- a_set_pcbs_set_queue. apply WF_set_pcbs.
    - apply WF_set_queue; [done|]. intros p Hp. apply (wf_queued _ HW). exists q. auto.
    - intros x. rewrite a_set_queue_pcbs. apply Hdom.
    - intros x c Hx. rewrite a_set_queue_pcbs.
      destruct (Hback x c Hx) as (c0 & Hc0 & [->| ->]); exists c0; split; try done. apply keeps_pid.
    - intros p [q' Hp]. destruct (Hq1 p) as [Hqp Hout].
      { exists q'. unfold a1. by destruct q, q'. }
      rewrite H2 by done. by apply (wf_queued _ HW). }
  fold a1. split; try done.
  - unfold a1. by rewrite a_set_queue_globals.
  - unfold a1. rewrite a_set_queue_pcbs. done.
  - intros p ->. simpl in *. split.
    + apply (wf_queued _ HW). exists q. rewrite El. set_solver.
    + unfold a1. rewrite a_set_queue_pcbs. split; [|by apply H4].
      intros Hqp. apply Hq1 in Hqp as [_ Hqp]. set_solver.
  - intros Ho. rewrite Eq1. by apply Hn.
  - intros p c. unfold a1. rewrite a_set_queue_pcbs. simpl. intros Hp.
    destruct (Hback p c Hp) as (c0 & Hc0 & Hcc). exists c0. split; [done|].
    split; [destruct Hcc as [->| ->]; [apply kept_refl|apply kept_signals]|]. split.
    + intros Hpq. rewrite H2 in Hp; [congruence|]. rewrite El in Hpq. set_solver.
    + destruct Hcc as [->| ->]; [done|]. unfold apply_signals. by repeat case_bool.
  - intros p c. unfold a1. rewrite a_set_queue_pcbs. fold a1. rewrite Eq1. simpl.
    intros Hp Hs Hin. rewrite El in Hin.
    apply elem_of_app in Hin as [Hin|[Hin|Hin]%elem_of_app]; [|left|by right].
    + by eapply H3 in Hs.
    + destruct o; simpl in Hin; set_solver.
  - intros p [->|Hp]; [rewrite El; simpl; set_solver|]. apply Hsub. by rewrite <- Eq1.
  - intros p c. unfold a1. rewrite a_set_queue_pcbs. simpl. intros Hp Hin.
    destruct (Hrdy p Hin) as (c0 & Hc0 & Hs0).
    destruct (Hback p c Hp) as (c1 & Hc1 & [->| ->]); simplify_eq; [by rewrite Hs0|].
    by apply apply_signals_not_running.
Qed.

Lemma recharged_or_init_sim k a quantum o :
  R k a → (∀ p, o = Some p → is_Some (a_pcbs a !! p)) →
  sim k (recharged_or_init quantum o) (or_init (Some quantum) (o, a)).1
      (or_init (Some quantum) (o, a)).2.
Proof.
  intros HR Hp. destruct o as [p|]; simpl; [|by apply sim_ret].
  eapply sim_store; [apply _|done|by apply Hp|]. intros. by apply sim_ret.
Qed.

Lemma queue_fuel_enough k a q :
  R k a → valid_queue q → (length (a_queue a q) < queue_fuel k)%nat.
Proof.
  intros HR Hq. destruct (R_queues _ _ HR q Hq) as (v & _ & Hl & _).
  apply lseg_length in Hl; [|apply (R_disjoint _ _ HR)]. unfold queue_fuel. lia.
Qed.

Lemma or_init_ok quantum a q o a' :
  dequeue_post a q o a' → choice_ok (or_init quantum (o, a')).
Proof.
  intros [HW Hg Hdom Hp _ _ _ _]. destruct o as [p|]; simpl.
  - destruct (Hp p eq_refl) as (_ & _ & c & Hc & _).
    destruct quantum; split; simpl; try apply alter_is_Some; [by eexists|apply HW|by eexists|apply HW].
  - split; apply HW.
Qed.

(** The value of a choice made from the head of a queue, whatever is then done
    with the process found. *)
Lemma choose_head_sim {B} k a q (f : option ptr → M Kernel B) r a' :
  R k a → WF a → valid_queue q →
  (∀ k1, R k1 (a_dequeue_ready q a).2 →
     dequeue_post a q (a_dequeue_ready q a).1 (a_dequeue_ready q a).2 →
     sim k1 (f (a_dequeue_ready q a).1) r a') →
  sim k (fuel ← gets queue_fuel; next ← dequeue_ready fuel q; f next) r a'.
Proof.
  intros HR HW Hq Hf. apply sim_gets. eapply sim_bind.
  { apply dequeue_ready_sim; [done..|by apply queue_fuel_enough|].
    intros p Hp. destruct (wf_queued _ HW p); [by exists q|done]. }
  intros k1 HR1. apply Hf; [done|]. apply a_dequeue_ready_post; try done; apply HR.
Qed.

Lemma dequeue_post_head k a q :
  R k a → WF a → valid_queue q →
  dequeue_post a q (a_dequeue_ready q a).1 (a_dequeue_ready q a).2.
Proof. intros HR HW Hq. apply a_dequeue_ready_post; try done; apply HR. Qed.

Lemma enqueue_current_sim k a :
  R k a → WF a → a_cur a ≠ init_process → ¬ queued a (a_cur a) →
  sim k (p ← get_current; enqueue_process_to READY_QUEUE (Some p)) tt
      (a_enqueue READY_QUEUE (a_cur a) a).
Proof.
  intros HR HW Hi Hq. eapply sim_current; [done|].
  apply enqueue_process_to_sim; try done. apply HW.
Qed.

(** Round robin: FIFO, quantum of 10 ticks. *)
Lemma round_robin_sim k a :
  R k a → WF a →
  sim k _schedule_round_robin tt (a_select ROUND_ROBIN (a_choose_head (Some 10)) a).
Proof.
  intros HR HW. apply select_sim; [done..|intros; by apply enqueue_current_sim|].
  intros k1 a1 HR1 HW1. pose proof (dequeue_post_head k1 a1 READY_QUEUE HR1 HW1 I) as Hpost.
  unfold a_choose_head. rewrite (surjective_pairing (a_dequeue_ready READY_QUEUE a1)).
  split; [|by eapply or_init_ok].
  apply (choose_head_sim k1 a1); [done..|]. intros k2 HR2 _. apply recharged_or_init_sim; [done|].
  intros p Hp. destruct (dq_picked _ _ _ _ Hpost p Hp) as (_ & _ & c & Hc & _). by eexists.
Qed.

(** FCFS and SJF: the head of the queue, no recharge. *)
Lemma queue_head_sim k a :
  R k a → WF a →
  sim k _schedule_queue_head tt
      (a_select (active_algorithm (a_globals a)) (a_choose_head None) a).
Proof.
  intros HR HW.
  apply select_sim; [done..| |].
  - intros k1 a1 HR1 HW1 Eg Hi Hq. eapply sim_current; [done|]. eapply sim_global; [done|].
    rewrite <- Eg. apply algorithm_enqueue_sim; try done. apply HW1.
  - intros k1 a1 HR1 HW1. pose proof (dequeue_post_head k1 a1 READY_QUEUE HR1 HW1 I) as Hpost.
    unfold a_choose_head. rewrite (surjective_pairing (a_dequeue_ready READY_QUEUE a1)).
    split; [|by eapply or_init_ok].
    apply (choose_head_sim k1 a1); [done..|]. intros k2 HR2 _.
    destruct (a_dequeue_ready READY_QUEUE a1) as [[p|] a2]; by apply sim_ret.
Qed.

(** ** What every selection algorithm promises of its choice *)

(** The queues an algorithm uses. *)
Definition home (alg : algorithm) (q : queue_ref) : Prop :=
  match alg with
  | MLQ | MLFQ => q ≠ READY_QUEUE
  | _ => q = READY_QUEUE
  end.

Definition at_home (a : AKernel) : Prop :=
  ∀ q p, p ∈ a_queue a q → home (active_algorithm (a_globals a)) q.

(** The globals are unchanged, the random number generator apart. *)
Definition g_same (g g' : Globals) : Prop :=
  ∃ s n, g' = with_timer_reads n (with_lottery_rng_state s g).

(** The range of a C long. *)
Definition in_long (x : Z) : Prop := - 2 ^ 63 ≤ x < 2 ^ 63.

Record choice_step (a : AKernel) (o : option ptr) (a' : AKernel) : Prop := {
  cp_WF : WF a';
  cp_globals : g_same (a_globals a) (a_globals a');
  cp_dom : ∀ p, is_Some (a_pcbs a !! p) → is_Some (a_pcbs a' !! p);
  cp_frame : ∀ p c, a_pcbs a' !! p = Some c →
    ∃ c0, a_pcbs a !! p = Some c0 ∧ kept c0 c ∧
      (¬ queued a p → state c = state c0) ∧ (queued a p → state c ≠ PROCESS_RUNNING);
  cp_picked : ∀ p, o = Some p →
    queued a p ∧ ¬ queued a' p ∧ ∃ c, a_pcbs a' !! p = Some c ∧ state c = PROCESS_READY;
  cp_ready : ∀ p c, queued a p → a_pcbs a' !! p = Some c → state c = PROCESS_READY →
    o = Some p ∨ queued a' p;
  cp_queued : ∀ q p, p ∈ a_queue a' q → p ∈ a_queue a q;
  cp_counter : ∀ p c c0, a_pcbs a !! p = Some c0 → a_pcbs a' !! p = Some c →
    in_long (counter c0) → in_long (counter c)
}.

Definition choice_post (a : AKernel) (o : option ptr) (a' : AKernel) : Prop :=
  choice_step a o a' ∧ (o = None → ∀ p, ¬ queued a' p).

Lemma g_same_refl g : g_same g g.
Proof. exists (lottery_rng_state g), (timer_reads g). by destruct g. Qed.

Lemma g_same_trans g1 g2 g3 : g_same g1 g2 → g_same g2 g3 → g_same g1 g3.
Proof. intros (s & n & ->) (s' & n' & ->). by exists s', n'. Qed.

Lemma g_same_cur a a' : g_same (a_globals a) (a_globals a') → a_cur a' = a_cur a.
Proof. unfold a_cur. by intros (s & n & ->). Qed.

Lemma g_same_alg g g' : g_same g g' → active_algorithm g' = active_algorithm g.
Proof. by intros (s & n & ->). Qed.

Lemma queued_iff a p : queued a p ↔ p ∈ a_ready a ++ mjoin (a_ml a).
Proof.
  rewrite elem_of_app, list_elem_of_join. split.
  - intros [[|n] Hx]; simpl in Hx; [by left|right].
    destruct (a_ml a !! n) as [l|] eqn:E; simpl in Hx; [|set_solver].
    exists l. split; [done|]. by eapply list_elem_of_lookup_2.
  - intros [Hx|(l & Hx & [n Hn]%list_elem_of_lookup_1)]; [by exists READY_QUEUE|].
    exists (ML_QUEUE n). simpl. by rewrite Hn.
Qed.

#[export] Instance queued_dec a p : Decision (queued a p).
Proof.
  refine (cast_if (decide (p ∈ a_ready a ++ mjoin (a_ml a)))); by rewrite queued_iff.
Defined.

Lemma choice_step_queued a o a' p : choice_step a o a' → queued a' p → queued a p.
Proof. intros H [q Hq]. exists q. by apply (cp_queued _ _ _ H). Qed.

Lemma choice_step_refl a : WF a → choice_step a None a.
Proof.
  intros HW. split; try done; [apply g_same_refl| |by right|by intros; simplify_eq].
  intros p c Hc. exists c. split; [done|]. split; [apply kept_refl|]. split; [done|].
  intros Hq. destruct (wf_queued _ HW p Hq) as (_ & c1 & Hc1 & Hs). simplify_eq. by rewrite Hs.
Qed.

(** A choice that fails and then one that goes on from there. *)
Lemma choice_step_trans a a1 o a2 :
  choice_step a None a1 → choice_step a1 o a2 → choice_step a o a2.
Proof.
  intros H1 H2. split.
  - apply H2.
  - eapply g_same_trans; [apply H1|apply H2].
  - intros p Hp. by apply (cp_dom _ _ _ H2), (cp_dom _ _ _ H1).
  - intros p c2 Hc2. destruct (cp_frame _ _ _ H2 p c2 Hc2) as (c1 & Hc1 & Hk2 & Hn2 & Hq2).
    destruct (cp_frame _ _ _ H1 p c1 Hc1) as (c0 & Hc0 & Hk1 & Hn1 & Hq1).
    exists c0. split; [done|]. split; [by eapply kept_trans|]. split.
    + intros Hq. rewrite Hn2, Hn1; [done|done|]. intros Hx. by apply Hq, (choice_step_queued _ _ _ _ H1).
    + intros Hq. destruct (decide (state c2 = PROCESS_RUNNING)) as [E|]; [|done]. exfalso.
      assert (¬ queued a1 p) as Hx by (intros Hx; by apply (Hq2 Hx)).
      rewrite (Hn2 Hx) in E. by apply Hq1.
  - intros p ->. destruct (cp_picked _ _ _ H2 p eq_refl) as (Hq & ?).
    split; [|done]. by apply (choice_step_queued _ _ _ _ H1).
  - intros p c2 Hq Hc2 Hs. destruct (cp_frame _ _ _ H2 p c2 Hc2) as (c1 & Hc1 & _ & Hn2 & _).
    destruct (decide (queued a1 p)) as [Hx|Hx]; [by eapply (cp_ready _ _ _ H2)|].
    rewrite (Hn2 Hx) in Hs. destruct (cp_ready _ _ _ H1 p c1) as [?|?]; try done.
  - intros q p Hx. by apply (cp_queued _ _ _ H1), (cp_queued _ _ _ H2).
  - intros p c c0 Hc0 Hc Hr. destruct (cp_frame _ _ _ H2 p c Hc) as (c1 & Hc1 & _).
    apply (cp_counter _ _ _ H2 p c c1); [done..|]. by apply (cp_counter _ _ _ H1 p c1 c0).
Qed.

Lemma choice_step_counter a p a' v :
  in_long v → choice_step a (Some p) a' → choice_step a (Some p) (a_update p (with_counter v) a').
Proof.
  intros Hv [HW Hg Hd Hf Hp Hr Hq Hct]. destruct (Hp p eq_refl) as (Hqa & Hqa' & c & Hc & Hs).
  rewrite (a_update_put _ _ _ _ Hc). split; try done.
  - rewrite <- (a_update_put _ _ _ _ Hc). apply WF_update; [apply _|done|]. intros _. apply _.
  - intros x Hx. simpl. destruct (decide (x = p)) as [->|Hne].
    + rewrite lookup_insert_eq. by eexists.
    + rewrite lookup_insert_ne by done. by apply Hd.
  - intros x cx. simpl. destruct (decide (x = p)) as [->|Hne].
    + rewrite lookup_insert_eq. intros [= <-]. destruct (Hf p c Hc) as (c0 & Hc0 & Hk & H1 & H2).
      exists c0. split; [done|]. split; [|done]. eapply kept_trans; [done|apply kept_counter].
    + rewrite lookup_insert_ne by done. apply Hf.
  - intros x [= <-]. split; [done|]. rewrite queued_put. split; [done|].
    exists (with_counter v c). simpl. by rewrite lookup_insert_eq.
  - intros x cx Hqx. rewrite queued_put. simpl. destruct (decide (x = p)) as [->|Hne]; [by left|].
    rewrite lookup_insert_ne by done. by apply Hr.
  - intros x cx c0 Hc0. simpl. destruct (decide (x = p)) as [->|Hne].
    + rewrite lookup_insert_eq. by intros [= <-].
    + rewrite lookup_insert_ne by done. by apply Hct.
Qed.

Lemma choice_post_counter a p a' v :
  in_long v → choice_post a (Some p) a' → choice_post a (Some p) (a_update p (with_counter v) a').
Proof. intros Hv [H _]. split; [by apply choice_step_counter|done]. Qed.

Lemma choice_post_ok a o r :
  WF a → r.1 = default init_process o → choice_post a o r.2 → choice_ok r.
Proof.
  destruct r as [next a']. simpl. intros HW -> [[HW' Hg Hd Hf Hp _ _] _]. split; simpl; [|apply HW'].
  destruct o as [p|]; [|apply HW']. destruct (Hp p eq_refl) as (_ & _ & c & Hc & _). by eexists.
Qed.

Lemma dequeue_step a q o a' : WF a → dequeue_post a q o a' → choice_step a o a'.
Proof.
  intros HW [HW' Hg Hd Hp Hn Hf Hdr Hr Hsub Hnr]. split; try done.
  - rewrite Hg. apply g_same_refl.
  - intros p c Hc. destruct (Hf p c Hc) as (c0 & Hc0 & Hk & H1 & H2).
    exists c0. split; [done|]. split; [done|]. split.
    + intros Hq. rewrite H1; [done|]. intros Hx. apply Hq. by exists q.
    + intros [q' Hq']. destruct (decide (q' = q)) as [->|Hne]; [by eapply Hnr|].
      destruct (decide (p ∈ a_queue a q)) as [Hin|Hout]; [by eapply Hnr|].
      rewrite H1 by done. destruct (wf_queued _ HW p) as (_ & c1 & Hc1 & Hs); [by exists q'|].
      simplify_eq. by rewrite Hs.
  - intros p ->. destruct (Hp p eq_refl) as (_ & H1 & H2). split; [|done].
    exists q. apply Hsub. by left.
  - intros p c [q' Hq'] Hc Hs. destruct (decide (q' = q)) as [->|Hne].
    + destruct (Hdr p c Hc Hs Hq'); [by left|]. right. by exists q.
    + right. exists q'. by rewrite Hr.
  - intros q' p Hx. destruct (decide (q' = q)) as [->|Hne]; [apply Hsub; by right|].
    by rewrite Hr in Hx.
  - intros p c c0 Hc0 Hc. destruct (Hf p c Hc) as (c1 & Hc1 & _ & _ & ->). by simplify_eq.
Qed.

(** A step on one queue: what remains of it is READY, the rest of the kernel
    keeps its states. *)
Lemma queue_step a q l' m' o :
  WF a → queues_disjoint a → valid_queue q → length (a_ml a) = Z.to_nat ML_MAX_LEVELS →
  (∀ p, is_Some (a_pcbs a !! p) → is_Some (m' !! p)) →
  (∀ p c, m' !! p = Some c → ∃ c0, a_pcbs a !! p = Some c0 ∧ kept c0 c ∧
     (p ∉ a_queue a q → state c = state c0) ∧ (p ∈ a_queue a q → state c ≠ PROCESS_RUNNING)) →
  (∀ p, p ∈ l' → p ∈ a_queue a q ∧ ∃ c, m' !! p = Some c ∧ state c = PROCESS_READY) →
  (∀ p c, p ∈ a_queue a q → m' !! p = Some c → state c = PROCESS_READY → o = Some p ∨ p ∈ l') →
  (∀ p, o = Some p → p ∈ a_queue a q ∧ p ∉ l' ∧ ∃ c, m' !! p = Some c ∧ state c = PROCESS_READY) →
  (∀ p c c0, a_pcbs a !! p = Some c0 → m' !! p = Some c → in_long (counter c0) → in_long (counter c)) →
  choice_step a o (a_set_queue q l' (a_set_pcbs m' a)).
Proof.
  intros HW [Hnd Hdis] Hq Hlen Hdom Hfr Hl' Hrdy Ho Hct.
  set (a1 := a_set_queue q l' (a_set_pcbs m' a)).
  assert (a_pcbs a1 = m') as Ep by (unfold a1; by rewrite a_set_queue_pcbs).
  assert (a_globals a1 = a_globals a) as Eg by (unfold a1; by rewrite a_set_queue_globals).
  assert (a_queue a1 q = l') as Eq by by apply a_queue_set.
  assert (∀ q', q' ≠ q → a_queue a1 q' = a_queue a q') as Eqo.
  { intros q' Hne. unfold a1. rewrite a_queue_set_ne by done. by destruct q'. }
  assert (∀ q' p, p ∈ a_queue a1 q' → p ∈ a_queue a q') as Hsub.
  { intros q' p Hp. destruct (decide (q' = q)) as [->|Hne]; [|by rewrite <- Eqo].
    apply Hl'. by rewrite <- Eq. }
  assert (∀ p q', q' ≠ q → p ∈ a_queue a q' →
            ∃ c, m' !! p = Some c ∧ state c = PROCESS_READY) as Hother.
  { intros p q' Hne Hp. destruct (wf_queued _ HW p) as (_ & c0 & Hc0 & Hs); [by exists q'|].
    destruct (Hdom p) as [c Hc]; [by eexists|]. exists c. split; [done|].
    destruct (Hfr p c Hc) as (c1 & Hc1 & _ & Hst & _). simplify_eq. rewrite Hst; [done|].
    intros Hin. apply Hne. by eapply Hdis. }
  split; rewrite ?Ep, ?Eg; try done.
  - unfold a1. rewrite <- a_set_pcbs_set_queue. apply WF_set_pcbs.
    + apply WF_set_queue; [done|]. intros p Hp. apply (wf_queued _ HW). exists q. by apply Hl'.
    + by rewrite a_set_queue_pcbs.
    + rewrite a_set_queue_pcbs. intros p c Hc. destruct (Hfr p c Hc) as (c0 & ? & ?%kept_pid & _). eauto.
    + intros p [q' Hp]. destruct (decide (q' = q)) as [->|Hne].
      * rewrite a_queue_set in Hp by done. by apply Hl'.
      * rewrite a_queue_set_ne in Hp by done. by eapply Hother.
  - apply g_same_refl.
  - intros p c Hc. destruct (Hfr p c Hc) as (c0 & Hc0 & Hk & H1 & H2).
    exists c0. split; [done|]. split; [done|]. split.
    + intros Hx. apply H1. intros Hin. apply Hx. by exists q.
    + intros [q' Hx]. destruct (decide (q' = q)) as [->|Hne]; [by apply H2|].
      destruct (Hother p q' Hne Hx) as (c1 & Hc1 & Hs). simplify_eq. by rewrite Hs.
  - intros p Hp. destruct (Ho p Hp) as (Hin & Hout & Hc). split; [by exists q|]. split; [|done].
    intros [q' Hx]. destruct (decide (q' = q)) as [->|Hne]; [by rewrite Eq in Hx|].
    apply Hne. eapply Hdis; [by apply Hsub|done].
  - intros p c [q' Hx] Hc Hs. destruct (decide (q' = q)) as [->|Hne].
    + destruct (Hrdy p c Hx Hc Hs); [by left|right]. exists q. by rewrite Eq.
    + right. exists q'. by rewrite Eqo.
Qed.

(** Dequeueing from one queue, when the others are empty, is a choice. *)
Lemma dequeue_choice a q o a' :
  WF a → dequeue_post a q o a' → (∀ q' p, p ∈ a_queue a q' → q' = q) → choice_post a o a'.
Proof.
  intros HW Hp Hall. split; [by eapply dequeue_step|]. intros -> p [q' Hx].
  assert (q' = q) as ->.
  { eapply Hall, (cp_queued _ _ _ (dequeue_step _ _ _ _ HW Hp)), Hx. }
  rewrite (dq_none _ _ _ _ Hp eq_refl) in Hx. set_solver.
Qed.

Lemma choose_head_post a quantum :
  (∀ v, quantum = Some v → in_long v) → WF a → queues_disjoint a → length (a_ml a) = Z.to_nat ML_MAX_LEVELS →
  (∀ q p, p ∈ a_queue a q → q = READY_QUEUE) →
  ∃ o, (a_choose_head quantum a).1 = default init_process o ∧
       choice_post a o (a_choose_head quantum a).2.
Proof.
  intros Hv HW Hd Hl Hh. unfold a_choose_head. exists (a_dequeue_ready READY_QUEUE a).1.
  pose proof (dequeue_choice a READY_QUEUE _ _ HW
    (a_dequeue_ready_post a READY_QUEUE HW Hd I Hl) Hh) as Hp.
  destruct (a_dequeue_ready READY_QUEUE a) as [[p|] a1]; simpl in *; [|done].
  split; [done|]. destruct quantum; [|done]. apply choice_post_counter; auto.
Qed.

(** *** Multilevel queues *)

(** The first level, from [q] on, in which a READY process is found. *)
Fixpoint a_scan_levels (n : nat) (q : nat) (a : AKernel) : option (ptr * nat) * AKernel :=
  match n with
  | O => (None, a)
  | S n =>
    match a_dequeue_ready (ML_QUEUE q) a with
    | (Some p, a) => (Some (p, q), a)
    | (None, a) => a_scan_levels n (S q) a
    end
  end.

Definition a_choose_level (policy : MultilevelPolicy) (a : AKernel) : ptr * AKernel :=
  match a_scan_levels (Z.to_nat (n_levels policy)) 0 a with
  | (None, a) => (init_process, a)
  | (Some (p, level), a) =>
    (p, a_update p (with_counter (nth level (quantum policy) 0)) a)
  end.

Lemma scan_levels_sim n q k a :
  R k a → WF a → (q + n ≤ Z.to_nat ML_MAX_LEVELS)%nat →
  let r := a_scan_levels n q a in
  sim k (scan_levels n (Z.of_nat q)) ((λ x, (x.1, Z.of_nat x.2)) <$> r.1) r.2 ∧
  WF r.2 ∧ a_globals r.2 = a_globals a ∧
  (∀ p l, r.1 = Some (p, l) → is_Some (a_pcbs r.2 !! p) ∧ (q ≤ l < q + n)%nat) ∧
  choice_step a (fst <$> r.1) r.2 ∧
  (r.1 = None → ∀ l, (q ≤ l < q + n)%nat → a_queue r.2 (ML_QUEUE l) = []).
Proof.
  revert q k a. induction n as [|n IH]; intros q k a HR HW Hq; simpl.
  { split; [by apply sim_ret|]. split; [done|]. split; [done|]. split; [by intros|].
    split; [by apply choice_step_refl|]. intros _ l Hl. lia. }
  assert (valid_queue (ML_QUEUE q)) as Hv by (simpl; lia).
  pose proof (dequeue_post_head k a (ML_QUEUE q) HR HW Hv) as Hpost.
  assert (0 ≤ Z.of_nat q < ML_MAX_LEVELS) as Hqz by (unfold ML_MAX_LEVELS in *; lia).
  destruct (a_dequeue_ready (ML_QUEUE q) a) as [[p|] a1] eqn:Ed; simpl in *.
  - split; [|split; [apply Hpost|split; [apply Hpost|split; [|split; [by eapply dequeue_step|done]]]]].
    + apply ml_queue_ref_sim; [done|]. rewrite Nat2Z.id.
      apply (choose_head_sim k a); [done..|]. rewrite Ed. intros k1 HR1 _. by apply sim_ret.
    + intros x l [= <- <-]. destruct (dq_picked _ _ _ _ Hpost p eq_refl) as (_ & _ & c & Hc & _).
      split; [by eexists|lia].
  - assert (∀ k1, R k1 a1 → _) as IH' by (intros k1 HR1; apply (IH (S q) k1 a1 HR1); [apply Hpost|lia]).
    split.
    + apply ml_queue_ref_sim; [done|]. rewrite Nat2Z.id.
      apply (choose_head_sim k a); [done..|]. rewrite Ed. intros k1 HR1 _. simpl.
      destruct (IH' k1 HR1) as (Hs & _). by replace (Z.of_nat q + 1) with (Z.of_nat (S q)) by lia.
    + assert (∃ k1, R k1 a1) as [k1 HR1].
      { destruct (choose_head_sim k a (ML_QUEUE q) mret None a1 HR HW Hv) as (k1 & _ & ?).
        - rewrite Ed. intros k1 HR1 _. by apply sim_ret.
        - by exists k1. }
      destruct (IH' k1 HR1) as (_ & HW2 & Hg2 & Hp2 & Hst & Hem). split; [done|]. split.
      { rewrite Hg2. apply Hpost. }
      split; [intros p l Hpl; destruct (Hp2 p l Hpl); split; [done|lia]|].
      split; [eapply choice_step_trans; [by eapply dequeue_step|done]|].
      intros Hnone l Hl. destruct (decide (l = q)) as [->|Hne]; [|apply Hem; [done|lia]].
      apply elem_of_nil_inv. intros x Hx. apply (cp_queued _ _ _ Hst (ML_QUEUE q)) in Hx.
      rewrite (dq_none _ _ _ _ Hpost eq_refl) in Hx. set_solver.
Qed.

Lemma multilevel_sim k a policy alg :
  R k a → WF a → active_algorithm (a_globals a) = alg →
  algorithm_ml_policy alg = Some policy →
  sim k _schedule_multilevel tt (a_select alg (a_choose_level policy) a).
Proof.
  intros HR HW Ha Hpol. assert (n_levels policy = 5 ∧ length (quantum policy) = 5%nat) as [Hn Hlq].
  { destruct alg; simplify_eq/=; done. }
  eapply sim_bind; [apply preempt_disable_sim; [done|apply HW]|]. intros k1 HR1.
  unfold active_policy. apply sim_assoc. eapply sim_global; [done|].
  change (a_globals (a_preempt 1 a)) with (a_globals a). rewrite Ha.
  eapply sim_require; [exact Hpol|].
  apply (select_rest_sim k1 (a_preempt 1 a)); [done|by apply WF_preempt|..].
  - intros k2 HR2 Hi Hq. eapply sim_current; [done|].
    assert (WF (a_preempt 1 a)) as HW2 by by apply WF_preempt.
    destruct alg; simplify_eq; apply (algorithm_enqueue_sim k2 _ MLQ); try done; apply HW2.
  - intros k2 HR2 HW2. set (a2 := a_requeue alg (a_preempt 1 a)) in *.
    destruct (scan_levels_sim (Z.to_nat (n_levels policy)) 0 k2 a2 HR2 HW2)
      as (Hs & HW3 & Hg3 & Hp3 & _); [rewrite Hn; done|].
    unfold a_choose_level. destruct (a_scan_levels _ _ _) as [[[p l]|] a3]; simpl in *.
    + destruct (Hp3 p l eq_refl) as [Hp Hl].
      split; [|split; simpl; apply alter_is_Some; [done|apply HW3]].
      eapply sim_bind; [exact Hs|]. intros k3 HR3. simpl.
      apply sim_require with (v := nth l (quantum policy) 0).
      { rewrite array_get_nat. rewrite Hn in Hl.
        destruct (nth_lookup_or_length (quantum policy) l 0); [done|lia]. }
      by apply (recharged_or_init_sim _ _ _ (Some p)); [done|intros x [= <-]].
    + split; [|split; apply HW3].
      eapply sim_bind; [exact Hs|]. intros k3 HR3. by apply sim_ret.
Qed.


Lemma choose_level_post k a policy :
  Forall in_long (quantum policy) → R k a → WF a → n_levels policy = ML_MAX_LEVELS → (a_ready a = []) →
  ∃ o, (a_choose_level policy a).1 = default init_process o ∧
       choice_post a o (a_choose_level policy a).2.
Proof.
  intros Hqu HR HW Hn Hh. unfold a_choose_level.
  destruct (scan_levels_sim (Z.to_nat (n_levels policy)) 0 k a HR HW) as (_ & _ & _ & _ & Hst & Hem);
    [rewrite Hn; done|].
  destruct (a_scan_levels _ _ _) as [[[p l]|] a1]; simpl in *.
  - exists (Some p). split; [done|]. apply choice_post_counter; [|by split].
    rewrite Forall_lookup in Hqu. destruct (nth_lookup_or_length (quantum policy) l 0) as [H|H];
      [by eapply Hqu|]. by rewrite nth_overflow.
  - exists None. split; [done|]. split; [done|]. intros _ p Hp.
    pose proof (choice_step_queued _ _ _ _ Hst Hp) as [q Hq].
    destruct Hp as [[|n] Hp]; [apply (cp_queued _ _ _ Hst READY_QUEUE) in Hp; simpl in Hp; rewrite Hh in Hp; set_solver|].
    destruct (decide (n < Z.to_nat (n_levels policy)))%nat as [Hl|Hl].
    + simpl in Hp. rewrite Hem in Hp by (done || lia). set_solver.
    + apply (cp_queued _ _ _ Hst (ML_QUEUE n)) in Hp. simpl in Hp.
      rewrite lookup_ge_None_2 in Hp; [set_solver|]. rewrite (R_alevels _ _ HR). rewrite Hn in Hl. lia.
Qed.

(** *** Signal sets *)
Lemma has_signal_testbit c s : 0 ≤ s → has_signal c s = Z.testbit (pending_signals c) s.
Proof.
  intros Hs. unfold has_signal. rewrite Z.shiftl_1_l.
  destruct (Z.testbit (pending_signals c) s) eqn:E.
  - apply negb_true_iff, Z.eqb_neq. intros H.
    assert (Z.testbit (Z.land (pending_signals c) (2 ^ s)) s = true) as Ht.
    { by rewrite Z.land_spec, E, Z.pow2_bits_true. }
    by rewrite H, Z.bits_0 in Ht.
  - apply negb_false_iff, Z.eqb_eq, Z.bits_inj'. intros n Hn.
    rewrite Z.land_spec, Z.bits_0. destruct (decide (n = s)) as [->|Hne]; [by rewrite E|].
    rewrite Z.pow2_bits_false by congruence. apply andb_false_r.
Qed.

Lemma has_signal_clear c s s' :
  0 ≤ s → 0 ≤ s' →
  has_signal (clear_signal s c) s' = if decide (s = s') then false else has_signal c s'.
Proof.
  intros Hs Hs'. rewrite !has_signal_testbit by done. simpl.
  rewrite Z.land_spec, Z.lnot_spec, Z.shiftl_1_l by done. case_decide as Hd.
  - subst. by rewrite Z.pow2_bits_true, andb_false_r.
  - rewrite Z.pow2_bits_false by congruence. by rewrite andb_true_r.
Qed.

(** A process that its signals leave READY has no more signals to fear. *)
Lemma apply_signals_stable c :
  state c = PROCESS_READY → state (apply_signals c) = PROCESS_READY →
  state (apply_signals (apply_signals c)) = PROCESS_READY.
Proof.
  unfold apply_signals at 1 3. intros Hc.
  destruct (pending_signals c =? 0) eqn:E0; [intros _; unfold apply_signals; by rewrite E0|].
  destruct (has_signal c SIGNAL_KILL) eqn:EK; [done|].
  destruct (has_signal c SIGNAL_STOP) eqn:ES; [done|]. intros _.
  destruct (has_signal c SIGNAL_RESUME) eqn:ER.
  - unfold apply_signals. rewrite !has_signal_clear by done. simpl. rewrite EK, ES.
    repeat case_bool; done.
  - unfold apply_signals. by rewrite E0, EK, ES, ER.
Qed.
