(* ===== verification/Aging.v ===== *)
(** * Priority with aging: the epoch scheme refines "largest counter first"

    _schedule_priority_aging walks the ready queue while it handles signals and
    unlinks the processes they stop, remembers the best candidate with its
    predecessor, and recharges every process when no candidate is left.  Here:
    its list specification, the refinement proof, the bound on the number of
    epochs of one selection, and the bound on the counters. *)
From stdpp Require Import base gmap list.
From Stdlib Require Import ZArith Lia.
From S2P Require Import Prelude Kernel Queue Scheduler SchedulerSpec.

#[local] Open Scope Z_scope.

(** ** Specification *)

(** The first process with the largest counter, if that counter is positive,
    between the processes before and after it. *)
Fixpoint best_split (cnt : ptr → Z) (l : list ptr) : option (list ptr * ptr * list ptr) :=
  match l with
  | [] => None
  | x :: l =>
    match best_split cnt l with
    | None => if 0 <? cnt x then Some ([], x, l) else None
    | Some (l1, p, l2) =>
      if cnt p <=? cnt x then Some ([], x, l) else Some (x :: l1, p, l2)
    end
  end.

Definition a_counter (a : AKernel) (p : ptr) : Z :=
  match a_pcbs a !! p with Some c => counter c | None => 0 end.

(** The signals of all the processes of a list are handled; the ones that
    remain READY stay. *)
Fixpoint settle (m : gmap ptr PCB) (l : list ptr) : list ptr * gmap ptr PCB :=
  match l with
  | [] => ([], m)
  | p :: l =>
    match m !! p with
    | None => ([], m)
    | Some c =>
      let c := apply_signals c in
      let '(l', m') := settle (<[p := c]> m) l in
      (if state c =? PROCESS_READY then p :: l' else l', m')
    end
  end.

Definition a_settle (a : AKernel) : AKernel :=
  let '(l, m) := settle (a_pcbs a) (a_ready a) in a_set_queue READY_QUEUE l (a_set_pcbs m a).

Definition a_new_epoch (a : AKernel) : AKernel := a_set_pcbs (recharge <$> a_pcbs a) a.

Fixpoint a_aging_select (fuel : nat) (a : AKernel) : option ptr * AKernel :=
  match fuel with
  | O => (None, a)
  | S fuel =>
    let a := a_settle a in
    match best_split (a_counter a) (a_ready a) with
    | Some (l1, p, l2) => (Some p, a_set_queue READY_QUEUE (l1 ++ l2) a)
    | None => match a_ready a with
              | [] => (None, a)
              | _ => a_aging_select fuel (a_new_epoch a)
              end
    end
  end.

(** What the walk remembers of the nodes it has kept. *)
Definition scan_of (cnt : ptr → Z) (l : list ptr) : aging_scan :=
  match best_split cnt l with
  | None => mk_aging_scan None None 0
  | Some (l1, p, _) => mk_aging_scan (Some p) (last l1) (cnt p)
  end.

(** ** The specification of [best_split] *)
Lemma best_split_Some cnt l l1 p l2 :
  best_split cnt l = Some (l1, p, l2) →
  l = l1 ++ p :: l2 ∧ 0 < cnt p ∧ (∀ x, x ∈ l → cnt x ≤ cnt p) ∧ (∀ x, x ∈ l1 → cnt x < cnt p).
Proof.
  revert l1 p l2. induction l as [|x l IH]; intros l1 p l2; simpl; [done|].
  destruct (best_split cnt l) as [[[k1 q] k2]|] eqn:E.
  - destruct (IH _ _ _ eq_refl) as (-> & Hq & Hall & Hlt). case_bool; intros [= <- <- <-].
    + repeat split; [lia| |set_solver]. intros y [->|Hy]%elem_of_cons; [lia|].
      specialize (Hall y Hy). lia.
    + repeat split; [lia|..].
      * intros y [->|Hy]%elem_of_cons; [lia|auto].
      * intros y [->|Hy]%elem_of_cons; [lia|auto].
  - case_bool; [|done]. intros [= <- <- <-]. repeat split; [lia| |set_solver].
    clear IH. intros y [->|Hy]%elem_of_cons; [lia|].
    assert (∀ l : list ptr, best_split cnt l = None → ∀ y, y ∈ l → cnt y ≤ 0) as Hn.
    { clear. intros l. induction l as [|z l IH]; simpl; [set_solver|].
      destruct (best_split cnt l) as [[[? ?] ?]|]; [by case_bool|]. case_bool; [done|].
      intros _ y [->|Hy]%elem_of_cons; [lia|]. by apply IH. }
    specialize (Hn l E y Hy). lia.
Qed.

Lemma best_split_None cnt l : best_split cnt l = None ↔ ∀ x, x ∈ l → cnt x ≤ 0.
Proof.
  induction l as [|x l IH]; simpl; [set_solver|].
  destruct (best_split cnt l) as [[[l1 p] l2]|] eqn:E.
  - apply best_split_Some in E as (-> & Hp & _). split.
    + by case_bool.
    + intros H. specialize (H p ltac:(set_solver)). lia.
  - case_bool; split; try done; [intros H; specialize (H x ltac:(set_solver)); lia|].
    intros _ y [->|Hy]%elem_of_cons; [lia|]. by apply IH.
Qed.

Lemma best_split_ext f g l : (∀ x, x ∈ l → f x = g x) → best_split f l = best_split g l.
Proof.
  induction l as [|x l IH]; intros H; simpl; [done|].
  rewrite IH by set_solver. rewrite (H x) by set_solver.
  destruct (best_split g l) as [[[l1 p] l2]|] eqn:E; [|done].
  apply best_split_Some in E as (-> & _). by rewrite (H p) by set_solver.
Qed.

Lemma best_split_snoc cnt l x :
  best_split cnt (l ++ [x]) =
  match best_split cnt l with
  | None => if 0 <? cnt x then Some (l, x, []) else None
  | Some (l1, p, l2) => if cnt p <? cnt x then Some (l, x, []) else Some (l1, p, l2 ++ [x])
  end.
Proof.
  induction l as [|y l IH]; simpl; [done|]. rewrite IH. clear IH.
  destruct (best_split cnt l) as [[[l1 p] l2]|] eqn:E.
  - apply best_split_Some in E as (-> & Hp & _). repeat case_bool; try done; lia.
  - repeat case_bool; try done; try lia.
Qed.

Lemma scan_of_snoc cnt l x :
  scan_of cnt (l ++ [x]) =
  if max_counter (scan_of cnt l) <? cnt x
  then mk_aging_scan (Some x) (last l) (cnt x) else scan_of cnt l.
Proof.
  unfold scan_of. rewrite best_split_snoc.
  destruct (best_split cnt l) as [[[l1 p] l2]|]; simpl; by case_bool.
Qed.

(** ** The walk refines [settle] *)
Lemma next_in_queue k a q l1 p l2 c :
  R k a → valid_queue q → a_queue a q = l1 ++ p :: l2 → heap k !! p = Some c →
  next_ready c = hd_error l2.
Proof.
  intros HR Hq El Hc. destruct (R_queues _ _ HR q Hq) as (v & _ & Hl & _).
  rewrite El in Hl. apply lseg_split in Hl as (_ & c' & Hc' & Hl2). simplify_eq.
  destruct l2 as [|y l2]; [done|]. by destruct Hl2 as [-> _].
Qed.

Lemma apply_signals_counter c : counter (apply_signals c) = counter c.
Proof. unfold apply_signals. by repeat case_bool. Qed.

Lemma a_counter_put a p c c' :
  a_pcbs a !! p = Some c → counter c' = counter c → ∀ x, a_counter (a_put p c' a) x = a_counter a x.
Proof.
  intros Hc E x. unfold a_counter. simpl. destruct (decide (x = p)) as [->|H].
  - by rewrite lookup_insert_eq, Hc.
  - by rewrite lookup_insert_ne.
Qed.

Lemma scan_of_ext f g l : (∀ x, f x = g x) → scan_of f l = scan_of g l.
Proof.
  intros H. unfold scan_of. rewrite (best_split_ext f g) by auto.
  destruct (best_split g l) as [[[l1 p] l2]|]; [|done]. by rewrite H.
Qed.

Lemma a_counter_set_queue a q l : a_counter (a_set_queue q l a) = a_counter a.
Proof. unfold a_counter. by rewrite a_set_queue_pcbs. Qed.

Lemma aging_walk_sim fuel k a K rest :
  R k a → a_ready a = K ++ rest → (length rest ≤ fuel)%nat →
  (∀ p, p ∈ rest → ∃ c, a_pcbs a !! p = Some c ∧ state c = PROCESS_READY) →
  sim k (aging_walk fuel (scan_of (a_counter a) K) (last K) (hd_error rest))
    (scan_of (a_counter a) (K ++ (settle (a_pcbs a) rest).1))
    (a_set_queue READY_QUEUE (K ++ (settle (a_pcbs a) rest).1)
       (a_set_pcbs (settle (a_pcbs a) rest).2 a)).
Proof.
  revert k a K rest. induction fuel as [|fuel IH]; intros k a K [|p rest] HR El Hf Hwf;
    try (simpl in Hf; lia).
  1, 2: rewrite app_nil_r in El; simpl; rewrite !app_nil_r; apply sim_ret;
    rewrite <- El; by destruct a.
  cbn [aging_walk hd_error]. simpl in Hf.
  destruct (Hwf p ltac:(set_solver)) as (c & Hc & Hs). cbn [settle]. rewrite Hc.
  set (c2 := apply_signals c).
  pose proof (queue_facts k a READY_QUEUE K p rest HR I El) as (HpK & Hpr & _ & _).
  eapply sim_load; [done|exact Hc|]. intros c' Hc' Ec.
  rewrite (next_in_queue k a READY_QUEUE K p rest c' HR I El Hc').
  eapply sim_bind; [apply (handle_process_signals_sim _ _ _ _ HR Hc); by rewrite Hs|].
  fold c2. intros k1 HR1. eapply sim_load; [done|apply a_put_lookup|]. intros c1 Hc1 E1.
  assert (state c1 = state c2 ∧ counter c1 = counter c) as [-> ->].
  { rewrite <- (apply_signals_counter c). fold c2. rewrite E1. done. }
  assert (∀ x, a_counter (a_put p c2 a) x = a_counter a x) as Hcnt
    by (apply (a_counter_put a p c c2 Hc); apply apply_signals_counter).
  assert (∀ x, x ∈ rest → ∃ c, a_pcbs (a_put p c2 a) !! x = Some c ∧ state c = PROCESS_READY) as Hwf1.
  { intros x Hx. destruct (Hwf x ltac:(set_solver)) as (cx & Hcx & Hsx).
    exists cx. simpl. by rewrite lookup_insert_ne by set_solver. }
  destruct (state c2 =? PROCESS_READY); cbn [negb].
  - assert ((if max_counter (scan_of (a_counter a) K) <? counter c
             then mk_aging_scan (Some p) (last K) (counter c) else scan_of (a_counter a) K)
            = scan_of (a_counter (a_put p c2 a)) (K ++ [p])) as ->.
    { rewrite (scan_of_ext _ _ _ Hcnt), scan_of_snoc.
      assert (a_counter a p = counter c) as -> by (unfold a_counter; by rewrite Hc). done. }
    rewrite <- (last_snoc p K).
    destruct (IH k1 (a_put p c2 a) (K ++ [p]) rest HR1) as (k2 & Hk2 & HR2);
      [by rewrite <- app_assoc|lia|done|].
    exists k2. revert Hk2 HR2. simpl. destruct (settle _ rest) as [l' m']. simpl.
    rewrite !(scan_of_ext _ _ _ Hcnt), <- !app_assoc. simpl. intros Hk2 HR2. split; [exact Hk2|exact HR2].
  - eapply sim_bind.
    { apply (remove_process_from_sim k1 (a_put p c2 a) READY_QUEUE K p rest HR1 I El). }
    intros k2 HR2. rewrite <- (scan_of_ext _ _ _ Hcnt).
    destruct (IH k2 _ K rest HR2 eq_refl) as (k3 & Hk3 & HR3); [lia|done|].
    exists k3. revert Hk3 HR3. simpl. destruct (settle _ rest) as [l' m']. simpl.
    rewrite <- (scan_of_ext _ _ _ Hcnt). done.
Qed.

(** ** The recharge of an epoch *)
Definition recharge_below (i : Z) (c : PCB) : PCB := if pid c <? i then recharge c else c.

Lemma recharge_below_step a i :
  WF a → 0 ≤ i →
  (recharge_below (i + 1) <$> a_pcbs a) =
  match array_get (processes (a_globals a)) i with
  | Some (Some p) => alter recharge p (recharge_below i <$> a_pcbs a)
  | _ => recharge_below i <$> a_pcbs a
  end.
Proof.
  intros HW Hi.
  assert (∀ x c, a_pcbs a !! x = Some c → pid c ≠ i → recharge_below (i + 1) c = recharge_below i c) as Hne.
  { intros x c Hc Hp. unfold recharge_below. repeat case_bool; try done; lia. }
  destruct (array_get (processes (a_globals a)) i) as [[p|]|] eqn:E; apply map_eq; intros x.
  - destruct (proj2 (wf_processes _ HW) i p E) as (c & Hc & Hp).
    destruct (decide (x = p)) as [->|Hx].
    + rewrite lookup_alter_eq, !lookup_fmap, Hc. simpl. unfold recharge_below.
      repeat case_bool; try done; lia.
    + rewrite lookup_alter_ne, !lookup_fmap by done.
      destruct (a_pcbs a !! x) as [cx|] eqn:Hcx; [|done]. simpl. f_equal. eapply Hne; [done|].
      intros Hpx. destruct (wf_pid _ HW x cx Hcx) as [_ Hg]. congruence.
  - rewrite !lookup_fmap. destruct (a_pcbs a !! x) as [cx|] eqn:Hcx; [|done]. simpl. f_equal.
    eapply Hne; [done|]. intros Hpx. destruct (wf_pid _ HW x cx Hcx) as [_ Hg]. congruence.
  - rewrite !lookup_fmap. destruct (a_pcbs a !! x) as [cx|] eqn:Hcx; [|done]. simpl. f_equal.
    eapply Hne; [done|]. intros Hpx. destruct (wf_pid _ HW x cx Hcx) as [_ Hg]. congruence.
Qed.

Lemma fmap_pcbs_id (f : PCB → PCB) (m : gmap ptr PCB) :
  (∀ p c, m !! p = Some c → f c = c) → f <$> m = m.
Proof.
  intros H. apply map_eq. intros x. rewrite lookup_fmap.
  destruct (m !! x) as [c|] eqn:E; [|done]. simpl. by rewrite (H x c E).
Qed.

Lemma new_epoch_sim k a : R k a → WF a → sim k new_epoch tt (a_new_epoch a).
Proof.
  intros HR HW. set (inv i := a_set_pcbs (recharge_below i <$> a_pcbs a) a).
  assert (inv 0 = a) as E0.
  { apply a_set_pcbs_id, fmap_pcbs_id. intros p c Hc. unfold recharge_below.
    destruct (wf_pid _ HW p c Hc). case_bool; [lia|done]. }
  assert (inv N_PROCESSES = a_new_epoch a) as <-.
  { unfold inv, a_new_epoch. f_equal. apply map_fmap_ext. intros p c Hc.
    destruct (wf_pid _ HW p c Hc). unfold recharge_below. case_bool; [done|lia]. }
  apply (sim_for_loop (Z.to_nat N_PROCESSES) k 0 _ inv); [|by rewrite E0].
  intros i k1 Hi HR1. eapply sim_global; [done|].
  assert (is_Some (array_get (processes (a_globals a)) i)) as [o Ho].
  { apply array_get_is_Some. rewrite (proj1 (wf_processes _ HW)). done. }
  eapply sim_require; [exact Ho|].
  assert (inv (i + 1) = match o with Some p => a_update p recharge (inv i) | None => inv i end) as ->.
  { unfold inv. rewrite recharge_below_step by (done || lia). rewrite Ho. by destruct o. }
  destruct o as [p|]; [|by apply sim_ret].
  apply sim_store_last; [apply _|done|].
  destruct (proj2 (wf_processes _ HW) i p Ho) as (c & Hc & _).
  simpl. rewrite lookup_fmap, Hc. by eexists.
Qed.

(** ** Settling the queue *)
Lemma settle_spec m l :
  NoDup l → (∀ p, p ∈ l → ∃ c, m !! p = Some c ∧ state c = PROCESS_READY) →
  (∀ p, p ∈ l → (settle m l).2 !! p = apply_signals <$> m !! p) ∧
  (∀ p, p ∉ l → (settle m l).2 !! p = m !! p) ∧
  (∀ p, p ∈ (settle m l).1 ↔
        p ∈ l ∧ ∃ c, (settle m l).2 !! p = Some c ∧ state c = PROCESS_READY) ∧
  (settle m l).1 `sublist_of` l.
Proof.
  revert m. induction l as [|p l IH]; intros m Hnd Hm; simpl; [set_solver|].
  apply NoDup_cons in Hnd as [Hpl Hnd]. destruct (Hm p ltac:(set_solver)) as (c & Hc & Hs).
  rewrite Hc. destruct (IH (<[p := apply_signals c]> m) Hnd) as (H1 & H2 & H3 & H4).
  { intros x Hx. destruct (Hm x ltac:(set_solver)) as (cx & Hcx & Hsx).
    exists cx. by rewrite lookup_insert_ne by set_solver. }
  destruct (settle _ l) as [l' m']. simpl in *.
  assert (m' !! p = Some (apply_signals c)) as Hp by (by rewrite H2, lookup_insert_eq).
  split; [|split; [|split]].
  - intros x [->|Hx]%elem_of_cons; [by rewrite Hp, Hc|].
    rewrite H1 by done. by rewrite lookup_insert_ne by set_solver.
  - intros x [Hxp Hx]%not_elem_of_cons. rewrite H2 by done. by rewrite lookup_insert_ne by done.
  - intros x. case_bool; rewrite ?elem_of_cons, H3.
    + split; [intros [->|[Hx ?]]; eauto|]. intros [[->|Hx] ?]; eauto.
    + split; [intros [Hx ?]; eauto|]. intros [[->|Hx] (cx & Hcx & Hsx)]; [congruence|eauto].
  - case_bool; by constructor.
Qed.

Lemma queue_settles a :
  WF a → ∀ p, p ∈ a_ready a → ∃ c, a_pcbs a !! p = Some c ∧ state c = PROCESS_READY.
Proof. intros HW p Hp. destruct (wf_queued _ HW p); [by exists READY_QUEUE|done]. Qed.

Lemma a_settle_step a :
  WF a → queues_disjoint a → length (a_ml a) = Z.to_nat ML_MAX_LEVELS →
  choice_step a None (a_settle a).
Proof.
  intros HW Hd Hlen. unfold a_settle.
  destruct (settle_spec (a_pcbs a) (a_ready a)) as (H1 & H2 & H3 & _);
    [apply (proj1 Hd READY_QUEUE)|by apply queue_settles|].
  destruct (settle _ _) as [l' m']. simpl in *. apply (queue_step a READY_QUEUE); try done.
  - intros p Hp. destruct (decide (p ∈ a_ready a)) as [Hin|Hout].
    + rewrite H1 by done. by apply fmap_is_Some.
    + by rewrite H2.
  - intros p c Hc. simpl. destruct (decide (p ∈ a_ready a)) as [Hin|Hout].
    + rewrite H1 in Hc by done. apply fmap_Some in Hc as (c0 & Hc0 & ->).
      exists c0. split; [done|]. split; [apply kept_signals|]. split; [done|]. intros _.
      destruct (queue_settles a HW p Hin) as (c1 & Hc1 & Hs). simplify_eq.
      by apply apply_signals_not_running.
    + rewrite H2 in Hc by done. exists c. split; [done|]. split; [apply kept_refl|done].
  - intros p Hp. by apply H3.
  - intros p c Hp Hc Hs. right. apply H3. eauto.
  - intros p c c0 Hc0 Hc. destruct (decide (p ∈ a_ready a)) as [Hin|Hout].
    + rewrite H1, Hc0 in Hc by done. simplify_eq/=. by rewrite apply_signals_counter.
    + rewrite H2 in Hc by done. by simplify_eq.
Qed.

Lemma recharge_step a :
  WF a → queues_disjoint a → length (a_ml a) = Z.to_nat ML_MAX_LEVELS →
  choice_step a None (a_new_epoch a).
Proof.
  intros HW Hd Hlen.
  assert (a_new_epoch a = a_set_queue READY_QUEUE (a_ready a) (a_set_pcbs (recharge <$> a_pcbs a) a)) as ->
    by by destruct a.
  apply queue_step; try done.
  - intros p Hp. rewrite lookup_fmap. by apply fmap_is_Some.
  - intros p c. rewrite lookup_fmap. intros (c0 & Hc0 & ->)%fmap_Some.
    exists c0. split; [done|]. split; [apply kept_recharge|]. split; [done|].
    intros Hin. destruct (queue_settles a HW p Hin) as (c1 & Hc1 & Hs). simplify_eq.
    simpl. by rewrite Hs.
  - intros p Hp. split; [done|]. destruct (queue_settles a HW p Hp) as (c & Hc & Hs).
    exists (recharge c). by rewrite lookup_fmap, Hc.
  - by right.
  - intros p c c0 Hc0. rewrite lookup_fmap, Hc0. intros [= <-] _. apply s64_range.
Qed.

(** Unlinking a queued process, its PCB unchanged, is the choice of that process. *)
Lemma unlink_step a l1 p l2 :
  WF a → queues_disjoint a → length (a_ml a) = Z.to_nat ML_MAX_LEVELS →
  a_ready a = l1 ++ p :: l2 →
  choice_step a (Some p) (a_set_queue READY_QUEUE (l1 ++ l2) a).
Proof.
  intros HW Hd Hlen El. rewrite <- (a_set_pcbs_id a (a_pcbs a)) at 2 by done.
  pose proof (queue_settles a HW) as Hr. pose proof (proj1 Hd READY_QUEUE) as Hnd. simpl in Hnd.
  rewrite El in Hr, Hnd. apply NoDup_app in Hnd as (_ & Hn1 & [Hn2 _]%NoDup_cons).
  apply queue_step; try done.
  - intros x c Hc. exists c. split; [done|]. split; [apply kept_refl|]. split; [done|].
    simpl. rewrite El. intros Hin. destruct (Hr x Hin) as (c1 & Hc1 & Hs). simplify_eq. by rewrite Hs.
  - intros x Hx. simpl. rewrite El. split; [set_solver|]. apply Hr. set_solver.
  - intros x c. simpl. rewrite El. intros Hx _ _.
    destruct (decide (x = p)) as [->|Hne]; [by left|right]. set_solver.
  - intros x [= <-]. simpl. rewrite El. split; [set_solver|]. split; [|apply Hr; set_solver].
    rewrite elem_of_app. intros [Hx|Hx]; [|done]. apply (Hn1 p Hx). set_solver.
  - by intros; simplify_eq.
Qed.

(** ** Selection *)

(** The ranges the fields have: a long each, and a priority that
    sched_set_param accepts. *)
Definition aging_ok (a : AKernel) : Prop :=
  ∀ p c, a_pcbs a !! p = Some c →
    1 ≤ priority c < 2 ^ 63 ∧ - 2 ^ 63 ≤ counter c < 2 ^ 63.

(** The passes after which a process of this counter is selectable. *)
Definition rounds (v : Z) : nat := if 0 <? v then 1 else Z.to_nat (2 - v).

Lemma recharge_counter c :
  1 ≤ priority c < 2 ^ 63 → - 2 ^ 63 ≤ counter c ≤ 0 →
  counter (recharge c) = counter c / 2 + priority c.
Proof.
  intros Hp Hc. unfold recharge. cbn [counter with_counter]. rewrite Z.shiftr_div_pow2 by done.
  change (2 ^ 1) with 2. pose proof (Z.div_mod (counter c) 2) as Hd.
  pose proof (Z.mod_pos_bound (counter c) 2). apply s64_id. lia.
Qed.

Lemma rounds_recharge c :
  1 ≤ priority c < 2 ^ 63 → - 2 ^ 63 ≤ counter c ≤ 0 →
  (S (rounds (counter (recharge c))) ≤ rounds (counter c))%nat.
Proof.
  intros Hp Hc. rewrite recharge_counter by done. pose proof (Z.div_mod (counter c) 2) as Hd.
  pose proof (Z.mod_pos_bound (counter c) 2). unfold rounds. repeat case_bool; lia.
Qed.

Lemma kept_aging a o a' : choice_step a o a' →
  (∀ p c c0, a_pcbs a' !! p = Some c → a_pcbs a !! p = Some c0 →
     1 ≤ priority c0 < 2 ^ 63 → - 2 ^ 63 ≤ counter c < 2 ^ 63) →
  aging_ok a → aging_ok a'.
Proof.
  intros H Hc Hok p c Hp. destruct (cp_frame _ _ _ H p c Hp) as (c0 & Hc0 & Hk & _).
  destruct (Hok p c0 Hc0). split; [|by eapply Hc]. rewrite Hk. done.
Qed.

Lemma a_settle_counter a x : WF a → queues_disjoint a → a_counter (a_settle a) x = a_counter a x.
Proof.
  intros HW Hd. unfold a_settle, a_counter.
  destruct (settle_spec (a_pcbs a) (a_ready a)) as (H1 & H2 & _);
    [apply (proj1 Hd READY_QUEUE)|by apply queue_settles|].
  destruct (settle _ _) as [l' m']. simpl in *.
  destruct (decide (x ∈ a_ready a)) as [Hin|Hout]; [|by rewrite H2].
  rewrite H1 by done. destruct (a_pcbs a !! x); [|done]. simpl. apply apply_signals_counter.
Qed.

Lemma a_settle_ready a p :
  WF a → queues_disjoint a →
  p ∈ a_ready (a_settle a) ↔
  p ∈ a_ready a ∧ ∃ c, a_pcbs a !! p = Some c ∧ state (apply_signals c) = PROCESS_READY.
Proof.
  intros HW Hd. unfold a_settle.
  destruct (settle_spec (a_pcbs a) (a_ready a)) as (H1 & H2 & H3 & _);
    [apply (proj1 Hd READY_QUEUE)|by apply queue_settles|].
  destruct (settle _ _) as [l' m']. simpl in *. rewrite H3. split.
  - intros [Hin (c & Hc & Hs)]. split; [done|]. rewrite H1 in Hc by done.
    apply fmap_Some in Hc as (c0 & Hc0 & ->). eauto.
  - intros [Hin (c & Hc & Hs)]. split; [done|]. rewrite H1 by done. rewrite Hc. eauto.
Qed.

Lemma a_settle_pcbs a p c :
  WF a → queues_disjoint a → p ∈ a_ready a → a_pcbs a !! p = Some c →
  a_pcbs (a_settle a) !! p = Some (apply_signals c).
Proof.
  intros HW Hd Hin Hc. unfold a_settle.
  destruct (settle_spec (a_pcbs a) (a_ready a)) as (H1 & _);
    [apply (proj1 Hd READY_QUEUE)|by apply queue_settles|].
  destruct (settle _ _) as [l' m']. simpl in *. by rewrite H1, Hc.
Qed.

(** The process that stays READY stays READY through the next epoch. *)
Lemma settle_epoch_ready a p :
  WF a → queues_disjoint a → WF (a_new_epoch (a_settle a)) →
  queues_disjoint (a_new_epoch (a_settle a)) →
  p ∈ a_ready (a_settle a) → p ∈ a_ready (a_settle (a_new_epoch (a_settle a))).
Proof.
  intros HW Hd HW2 Hd2 Hp. rewrite a_settle_ready by done. split; [done|].
  apply a_settle_ready in Hp as [Hin (c & Hc & Hs)]; [|done..].
  exists (recharge (apply_signals c)). split.
  - simpl. rewrite lookup_fmap. by rewrite (a_settle_pcbs a p c).
  - destruct (queue_settles a HW p Hin) as (c1 & Hc1 & Hs1). simplify_eq.
    rewrite <- (apply_signals_stable c) by done.
    unfold apply_signals at 1 3. change (pending_signals (recharge ?x)) with (pending_signals x).
    change (has_signal (recharge ?x)) with (has_signal x). by repeat case_bool.
Qed.

Lemma aging_pass_sim {B} k a (f : aging_scan → M Kernel B) r a' :
  R k a → WF a →
  (∀ k1, R k1 (a_settle a) →
     sim k1 (f (scan_of (a_counter a) (a_ready (a_settle a)))) r a') →
  sim k (walk_fuel ← gets queue_fuel;
         q ← get_queue READY_QUEUE;
         s ← aging_walk walk_fuel (mk_aging_scan None None 0) None (qhead q);
         f s) r a'.
Proof.
  intros HR HW Hf. apply sim_gets.
  apply (sim_get_queue k a READY_QUEUE); [done..|]. intros v _ [Hl _]. simpl in Hl.
  assert (qhead v = hd_error (a_ready a)) as ->.
  { destruct (a_ready a); [done|]. by destruct Hl. }
  eapply sim_bind.
  - apply (aging_walk_sim _ k a [] (a_ready a)); [done..| |by apply queue_settles].
    pose proof (queue_fuel_enough k a READY_QUEUE HR I) as H. simpl in H. lia.
  - simpl. revert Hf. unfold a_settle. by destruct (settle _ _) as [l m].
Qed.

Lemma scan_best cnt l :
  best (scan_of cnt l) = (λ x, x.1.2) <$> best_split cnt l ∧
  ∀ l1 p l2, best_split cnt l = Some (l1, p, l2) → best_previous (scan_of cnt l) = last l1.
Proof.
  unfold scan_of. destruct (best_split cnt l) as [[[l1 p] l2]|]; simpl; [|done].
  split; [done|]. by intros ??? [= <- <- <-].
Qed.

Lemma aging_select_sim fuel k a :
  R k a → WF a → aging_ok a → (1 ≤ fuel)%nat →
  (a_ready (a_settle a) = [] ∨
   ∃ p, p ∈ a_ready (a_settle a) ∧ (rounds (a_counter a p) ≤ fuel)%nat) →
  let r := a_aging_select fuel a in
  sim k (aging_select fuel) r.1 r.2 ∧ choice_step a r.1 r.2 ∧ (r.1 = None → a_ready r.2 = []).
Proof.
  revert k a. induction fuel as [|fuel IH]; intros k a HR HW Hok Hf1 Hf r; [lia|].
  unfold r. clear r. cbn [a_aging_select aging_select]. set (a1 := a_settle a) in *.
  pose proof (a_settle_step a HW (R_disjoint _ _ HR) (R_alevels _ _ HR)) as Hst. fold a1 in Hst.
  assert (∀ x, a_counter a1 x = a_counter a x) as Hcnt
    by (intros x; apply a_settle_counter; [done|apply HR]).
  pose proof (scan_best (a_counter a) (a_ready a1)) as [Eb Ep].
  rewrite (best_split_ext (a_counter a1) (a_counter a)) by auto.
  assert (∃ k1, R k1 a1) as [k1' HR1'].
  { destruct (aging_pass_sim k a (λ _, mret tt) tt a1 HR HW) as (k1 & _ & ?); [|by exists k1].
    intros k1 HR1. by apply sim_ret. }
  pose proof (R_disjoint _ _ HR1') as Hd1. pose proof (R_alevels _ _ HR1') as Hl1.
  pose proof (cp_WF _ _ _ Hst) as HW1.
  destruct (best_split (a_counter a) (a_ready a1)) as [[[l1 p] l2]|] eqn:Es; simpl in Eb.
  - pose proof Es as (El & _)%best_split_Some. split; [|split; [|done]].
    + apply (aging_pass_sim k a); [done..|]. intros k1 HR1. fold a1. rewrite Eb, (Ep _ _ _ eq_refl).
      eapply sim_bind; [by apply remove_process_from_sim|]. intros k2 HR2. by apply sim_ret.
    + eapply choice_step_trans; [exact Hst|]. by apply unlink_step.
  - destruct (a_ready a1) as [|x l] eqn:El.
    + split; [|split; [done|intros _; exact El]].
      apply (aging_pass_sim k a); [done..|]. intros k1 HR1. fold a1. rewrite El, Eb.
      apply (sim_get_queue k1 a1 READY_QUEUE); [done..|]. intros v _ [Hv _]. simpl in Hv.
      rewrite El in Hv. rewrite Hv. by apply sim_ret.
    + destruct Hf as [|(p & Hp & Hrp)]; [done|].
      pose proof (recharge_step a1 HW1 Hd1 Hl1) as Hre. set (a2 := a_new_epoch a1) in *.
      destruct (new_epoch_sim k1' a1 HR1' HW1) as (k2' & _ & HR2'). fold a2 in HR2'.
      assert (aging_ok a1) as Hok1.
      { apply (kept_aging _ _ _ Hst); [|done]. intros y c c0 Hc Hc0 _.
        specialize (Hcnt y). unfold a_counter in Hcnt. rewrite Hc, Hc0 in Hcnt.
        rewrite Hcnt. by apply (Hok y). }
      assert (aging_ok a2) as Hok2.
      { apply (kept_aging _ _ _ Hre); [|done]. intros y c c0 Hc Hc0 _. simpl in Hc.
        rewrite lookup_fmap, Hc0 in Hc. simplify_eq/=. apply s64_range. }
      assert (p ∈ a_ready a1) as Hp1 by (by rewrite El).
      rewrite <- El in Es. rewrite best_split_None in Es.
      destruct (queue_settles a1 HW1 p Hp1) as (c & Hc & Hs).
      assert (a_counter a p = counter c) as Ec by (rewrite <- Hcnt; unfold a_counter; by rewrite Hc).
      destruct (Hok1 p c Hc) as [Hprio Hctr].
      assert (S (rounds (counter (recharge c))) ≤ rounds (counter c))%nat as Hdec.
      { apply rounds_recharge; [done|]. rewrite <- Ec. split; [rewrite Ec; lia|by apply Es]. }
      assert (1 ≤ rounds (counter (recharge c)))%nat as Hpos
        by (unfold rounds; case_bool; lia).
      rewrite Ec in Hrp.
      assert (∀ k2, R k2 a2 → let r := a_aging_select fuel a2 in
        sim k2 (aging_select fuel) r.1 r.2 ∧ choice_step a2 r.1 r.2 ∧
        (r.1 = None → a_ready r.2 = [])) as IH'.
      { intros k2 HR2. apply (IH k2 a2 HR2); [apply Hre|done|lia|]. right. exists p. split.
        - apply settle_epoch_ready; first [done|by apply HR|by apply Hre|by apply HR2'].
        - assert (a_counter a2 p = counter (recharge c)) as Eq2; [|rewrite Eq2; lia].
          unfold a_counter. simpl. by rewrite lookup_fmap, Hc. }
      destruct (IH' k2' HR2') as (_ & Hch & Hnone). split; [|split; [|done]].
      * apply (aging_pass_sim k a); [done..|]. intros k1 HR1. fold a1. rewrite El, Eb.
        apply (sim_get_queue k1 a1 READY_QUEUE); [done..|]. intros v _ [Hv _]. simpl in Hv.
        rewrite El in Hv. destruct Hv as [-> _].
        eapply sim_bind; [by apply new_epoch_sim|]. intros k2 HR2. by apply IH'.
      * eapply choice_step_trans; [exact Hst|]. by eapply choice_step_trans.
Qed.

(** ** The whole algorithm *)
Definition a_aging_fuel (a : AKernel) : nat :=
  map_fold (λ _ c n, Z.to_nat (Z.abs (counter c)) + n)%nat 3%nat (a_pcbs a).

Lemma aging_fuel_eq k a : R k a → aging_fuel k = a_aging_fuel a.
Proof.
  intros HR. unfold aging_fuel, a_aging_fuel. rewrite (R_pcbs _ _ HR). unfold erase.
  by rewrite map_fold_fmap.
Qed.

Lemma aging_fuel_enough a :
  (3 ≤ a_aging_fuel a)%nat ∧
  ∀ p c, a_pcbs a !! p = Some c → (rounds (counter c) ≤ a_aging_fuel a)%nat.
Proof.
  assert ((3 ≤ a_aging_fuel a)%nat ∧ ∀ p c, a_pcbs a !! p = Some c →
            (Z.to_nat (Z.abs (counter c)) + 3 ≤ a_aging_fuel a)%nat) as [H1 H2].
  { unfold a_aging_fuel. apply (map_fold_weak_ind (M := gmap ptr) (λ r (m : gmap ptr PCB),
      (3 ≤ r)%nat ∧ ∀ p c, m !! p = Some c → (Z.to_nat (Z.abs (counter c)) + 3 ≤ r)%nat)).
    - split; [done|]. intros p c. by rewrite lookup_empty.
    - intros i x m r _ [IH1 IH2]. split; [lia|]. intros p c.
      destruct (decide (p = i)) as [->|Hne].
      + rewrite lookup_insert_eq. intros [= <-]. lia.
      + rewrite lookup_insert_ne by done. intros Hp%IH2. lia. }
  split; [done|]. intros p c Hp%H2. unfold rounds. case_bool; lia.
Qed.

Definition a_choose_aging (a : AKernel) : ptr * AKernel :=
  let '(o, a') := a_aging_select (a_aging_fuel a) a in (default init_process o, a').

Lemma choose_aging_sim k a :
  R k a → WF a → aging_ok a → (∀ q p, p ∈ a_queue a q → q = READY_QUEUE) →
  sim k (fuel ← gets aging_fuel; next ← aging_select fuel; mret (default init_process next))
      (a_choose_aging a).1 (a_choose_aging a).2 ∧
  ∃ o, (a_choose_aging a).1 = default init_process o ∧ choice_post a o (a_choose_aging a).2.
Proof.
  intros HR HW Hok Hh. destruct (aging_fuel_enough a) as [Hf3 Hf].
  destruct (aging_select_sim (a_aging_fuel a) k a HR HW Hok) as (Hs & Hst & Hn); [lia|..].
  { destruct (a_ready (a_settle a)) as [|p l] eqn:El; [by left|right]. exists p.
    split; [set_solver|]. assert (p ∈ a_ready (a_settle a)) as Hp by (rewrite El; set_solver).
    apply a_settle_ready in Hp as [Hp (c & Hc & _)]; [|done|apply HR].
    unfold a_counter. rewrite Hc. by eapply Hf. }
  unfold a_choose_aging. destruct (a_aging_select _ a) as [o a'] eqn:E. simpl in *. split.
  - apply sim_gets. rewrite (aging_fuel_eq _ _ HR). eapply sim_bind; [exact Hs|].
    intros k1 HR1. by apply sim_ret.
  - exists o. split; [done|]. split; [done|]. intros -> p [q Hq].
    pose proof (cp_queued _ _ _ Hst q p Hq) as Hx%Hh. subst. simpl in Hq.
    rewrite Hn in Hq by done. set_solver.
Qed.

Lemma at_home_requeue_aging a :
  (∀ q p, p ∈ a_queue a q → q = READY_QUEUE) →
  ∀ q p, p ∈ a_queue (a_requeue PRIORITY_AGING a) q → q = READY_QUEUE.
Proof.
  intros Hh q p. unfold a_requeue. case_decide; [by apply Hh|].
  destruct (a_is_running a (a_cur a)); [|by apply Hh]. destruct q as [|n]; [done|].
  change (a_queue _ (ML_QUEUE n)) with (a_queue a (ML_QUEUE n)). by apply Hh.
Qed.
