(* ===== verification/Lottery.v ===== *)
(** * Lottery scheduling: one draw gives every process its share

    _schedule_lottery sums the tickets of the ready queue, draws a ticket with
    an xorshift64 generator and walks the queue to its holder; a winner that its
    signals stop is dropped and the draw repeated.  Here: the draw as a function
    on lists, its exact share of the tickets, the refinement of the two walks
    and of the whole selection, and its termination. *)
From stdpp Require Import base gmap list.
From Stdlib Require Import ZArith Lia.
From S2P Require Import Prelude Kernel Queue Scheduler SchedulerSpec.

#[local] Open Scope Z_scope.

(** ** Specification *)
Fixpoint total (t : ptr → Z) (l : list ptr) : Z :=
  match l with [] => 0 | p :: l => t p + total t l end.

(** The holder of ticket number [w], between the processes before and after it. *)
Fixpoint draw (t : ptr → Z) (w : Z) (l : list ptr) : option (list ptr * ptr * list ptr) :=
  match l with
  | [] => None
  | p :: l =>
    if w <? t p then Some ([], p, l)
    else match draw t (w - t p) l with
         | Some (l1, q, l2) => Some (p :: l1, q, l2)
         | None => None
         end
  end.

Definition winner (t : ptr → Z) (w : Z) (l : list ptr) : option ptr :=
  match draw t w l with Some (_, p, _) => Some p | None => None end.

Definition a_tickets (a : AKernel) (p : ptr) : Z :=
  match a_pcbs a !! p with Some c => tickets_of c | None => 1 end.

(** lottery_random on the globals. *)
Definition rng_step (g : Globals) : Z * Globals :=
  let x := Z.lxor (lottery_rng_state g) (u32 (system_timer g (timer_reads g))) in
  let x := xorshift64 (if x =? 0 then LOTTERY_SEED else x) in
  (x, with_lottery_rng_state x (with_timer_reads (S (timer_reads g)) g)).

Fixpoint a_lottery_select (fuel : nat) (a : AKernel) : option ptr * AKernel :=
  match fuel with
  | O => (None, a)
  | S fuel =>
    match a_ready a with
    | [] => (None, a)
    | l =>
      let '(r, g) := rng_step (a_globals a) in
      let a := a_set_globals (λ _, g) a in
      match draw (a_tickets a) (r mod total (a_tickets a) l) l with
      | None => (None, a)
      | Some (l1, p, l2) =>
        let a := a_set_queue READY_QUEUE (l1 ++ l2) a in
        match a_pcbs a !! p with
        | None => (None, a)
        | Some c =>
          let a := a_put p (apply_signals c) a in
          if state (apply_signals c) =? PROCESS_READY then (Some p, a)
          else a_lottery_select fuel a
        end
      end
    end
  end.

(** ** The draw *)
Lemma total_nonneg t l : (∀ p, p ∈ l → 0 < t p) → 0 ≤ total t l.
Proof.
  induction l as [|p l IH]; simpl; intros H; [done|].
  specialize (H p ltac:(set_solver)) as Hp. assert (0 ≤ total t l) by (apply IH; set_solver). lia.
Qed.

Lemma total_pos t l : (∀ p, p ∈ l → 0 < t p) → l ≠ [] → 0 < total t l.
Proof.
  destruct l as [|p l]; [done|]. intros H _. simpl. specialize (H p ltac:(set_solver)) as Hp.
  assert (0 ≤ total t l) by (apply total_nonneg; set_solver). lia.
Qed.

Lemma total_app t l1 l2 : total t (l1 ++ l2) = total t l1 + total t l2.
Proof. induction l1 as [|p l1 IH]; simpl; lia. Qed.

Lemma draw_Some t w l l1 p l2 :
  0 ≤ w → draw t w l = Some (l1, p, l2) →
  l = l1 ++ p :: l2 ∧ total t l1 ≤ w < total t l1 + t p.
Proof.
  revert w l1 p l2. induction l as [|x l IH]; intros w l1 p l2 Hw; simpl; [done|]. case_bool.
  - intros [= <- <- <-]. simpl. split; [done|lia].
  - destruct (draw t (w - t x) l) as [[[k1 q] k2]|] eqn:E; [|done].
    intros [= <- <- <-]. destruct (IH (w - t x) _ _ _ ltac:(lia) E) as [-> ?]. simpl. split; [done|lia].
Qed.

Lemma draw_complete t l1 p l2 w :
  (∀ q, q ∈ l1 → 0 ≤ t q) → total t l1 ≤ w < total t l1 + t p →
  draw t w (l1 ++ p :: l2) = Some (l1, p, l2).
Proof.
  revert w. induction l1 as [|x l1 IH]; intros w Ht; simpl; intros Hw; case_bool; try done; try lia.
  - assert (0 ≤ total t l1); [|lia].
    clear -Ht. induction l1 as [|y l1 IH]; [done|]. simpl.
    specialize (Ht y ltac:(set_solver)) as Hy. specialize (IH ltac:(set_solver)). lia.
  - rewrite IH; [done|set_solver|lia].
Qed.

Lemma draw_total t w l :
  (∀ p, p ∈ l → 0 < t p) → 0 ≤ w < total t l → is_Some (draw t w l).
Proof.
  revert w. induction l as [|p l IH]; intros w Ht; simpl; [lia|]. intros Hw.
  case_bool; [by eexists|]. destruct (IH (w - t p)) as [[[l1 q] l2] E]; [set_solver|lia|].
  rewrite E. by eexists.
Qed.

(** ** The walks over the queue *)
Lemma tickets_of_pos c : 0 < tickets_of c.
Proof. unfold tickets_of. case_bool; lia. Qed.

Definition h_tickets (h : gmap ptr PCB) (p : ptr) : Z :=
  match h !! p with Some c => tickets_of c | None => 1 end.

Lemma a_tickets_heap k a p : R k a → a_tickets a p = h_tickets (heap k) p.
Proof.
  intros HR. unfold a_tickets, h_tickets. rewrite (R_pcbs _ _ HR). unfold erase.
  rewrite lookup_fmap. by destruct (heap k !! p).
Qed.

Lemma h_tickets_pos h p : 0 < h_tickets h p.
Proof. unfold h_tickets. destruct (h !! p); [apply tickets_of_pos|done]. Qed.

Lemma total_ext f g l : (∀ p, f p = g p) → total f l = total g l.
Proof. intros H. induction l as [|p l IH]; simpl; [done|]. by rewrite IH, H. Qed.

Lemma draw_ext f g w l : (∀ p, f p = g p) → draw f w l = draw g w l.
Proof.
  intros H. revert w. induction l as [|p l IH]; intros w; simpl; [done|]. by rewrite H, IH.
Qed.

Lemma s64_add_l x y : s64 (s64 x + y) = s64 (x + y).
Proof.
  unfold s64, wrap_s. f_equal.
  rewrite (Z.add_shuffle0 _ y), (Z.add_shuffle0 x y). rewrite Z.sub_add, Zplus_mod_idemp_l. by f_equal.
Qed.

(** The sum is taken in a [long]: whatever the tickets are, it is their total, wrapped. *)
Lemma sum_tickets_wraps fuel k o l acc :
  lseg (heap k) o l None → (length l ≤ fuel)%nat →
  sum_tickets fuel o (s64 acc) k = Done (s64 (acc + total (h_tickets (heap k)) l), k).
Proof.
  revert o l acc. induction fuel as [|fuel IH]; intros o [|p l] acc Hl Hf; simpl in Hl, Hf; try lia.
  1, 2: subst; simpl; by rewrite Z.add_0_r.
  destruct Hl as (-> & c & Hc & Hl). cbn [sum_tickets total].
  rewrite (bind_done _ _ _ _ _ (load_some _ _ _ Hc)), s64_add_l.
  assert (h_tickets (heap k) p = tickets_of c) as -> by (unfold h_tickets; by rewrite Hc).
  rewrite (IH _ l); [by rewrite Z.add_assoc|done|lia].
Qed.

Lemma sum_tickets_spec fuel k o l acc :
  lseg (heap k) o l None → (length l ≤ fuel)%nat →
  0 ≤ acc → acc + total (h_tickets (heap k)) l < 2 ^ 63 →
  sum_tickets fuel o acc k = Done (acc + total (h_tickets (heap k)) l, k).
Proof.
  intros Hl Hf Ha Hb. pose proof (sum_tickets_wraps fuel k o l acc Hl Hf) as H.
  assert (0 ≤ total (h_tickets (heap k)) l) by (apply total_nonneg; intros; apply h_tickets_pos).
  by rewrite !s64_id in H by lia.
Qed.

Lemma find_winner_spec fuel k o l prev w acc :
  lseg (heap k) o l None → (length l ≤ fuel)%nat →
  0 ≤ acc → acc ≤ w → w < acc + total (h_tickets (heap k)) l → acc + total (h_tickets (heap k)) l < 2 ^ 63 →
  ∃ l1 p l2, draw (h_tickets (heap k)) (w - acc) l = Some (l1, p, l2) ∧
    find_winner fuel w acc prev o k =
      Done ((match last l1 with Some x => Some x | None => prev end, Some p), k).
Proof.
  revert o l prev acc. induction fuel as [|fuel IH]; intros o [|p l] prev acc Hl Hf Ha Hw Hlt Hb;
    simpl in Hl, Hf, Hlt; try lia.
  destruct Hl as (-> & c & Hc & Hl). cbn [find_winner total draw] in *.
  rewrite (bind_done _ _ _ _ _ (load_some _ _ _ Hc)).
  assert (h_tickets (heap k) p = tickets_of c) as Et by (unfold h_tickets; by rewrite Hc).
  pose proof (tickets_of_pos c).
  assert (0 ≤ total (h_tickets (heap k)) l) by (apply total_nonneg; intros; apply h_tickets_pos).
  rewrite s64_id by lia. rewrite Et. destruct (w <? acc + tickets_of c) eqn:E; zify_bools.
  - assert (w - acc <? tickets_of c = true) as -> by (apply Z.ltb_lt; lia).
    by exists [], p, l.
  - assert (w - acc <? tickets_of c = false) as -> by (apply Z.ltb_ge; lia).
    destruct (IH (next_ready c) l (Some p) (acc + tickets_of c)) as (l1 & q & l2 & Ed & Ef);
      [done|lia..|].
    replace (w - acc - tickets_of c) with (w - (acc + tickets_of c)) by lia. rewrite Ed.
    exists (p :: l1), q, l2. split; [done|]. rewrite Ef, last_cons. by destruct (last l1).
Qed.

(** ** No overflow: at most 64 processes, each with at most 2^56 tickets *)
Definition MAX_TICKETS : Z := 2 ^ 56.

Definition tickets_ok (a : AKernel) : Prop :=
  ∀ p c, a_pcbs a !! p = Some c → tickets_of c ≤ MAX_TICKETS.

Lemma processes_bound a l :
  WF a → NoDup l → (∀ p, p ∈ l → is_Some (a_pcbs a !! p)) →
  Z.of_nat (length l) ≤ N_PROCESSES.
Proof.
  intros HW Hnd Hl.
  assert (Some <$> l ⊆+ processes (a_globals a)) as Hs.
  { apply NoDup_submseteq; [by apply (NoDup_fmap_2 Some)|]. intros o (p & -> & Hp)%list_elem_of_fmap.
    destruct (Hl p Hp) as [c Hc]. destruct (wf_pid _ HW p c Hc) as [_ Hg].
    unfold array_get in Hg. destruct (pid c <? 0); [done|]. by eapply list_elem_of_lookup_2. }
  apply submseteq_length in Hs. rewrite length_fmap, (proj1 (wf_processes _ HW)) in Hs.
  unfold N_PROCESSES in *. lia.
Qed.

Lemma total_bound t l B : (∀ p, p ∈ l → t p ≤ B) → total t l ≤ Z.of_nat (length l) * B.
Proof.
  induction l as [|p l IH]; intros H; simpl; [lia|].
  specialize (H p ltac:(set_solver)) as Hp. specialize (IH ltac:(set_solver)). lia.
Qed.

Lemma total_no_overflow a :
  WF a → queues_disjoint a → tickets_ok a → total (a_tickets a) (a_ready a) < 2 ^ 63.
Proof.
  intros HW Hd Hok. pose proof (proj1 Hd READY_QUEUE) as Hnd. simpl in Hnd.
  assert (∀ p, p ∈ a_ready a → is_Some (a_pcbs a !! p)) as Hin.
  { intros p Hp. destruct (wf_queued _ HW p) as (_ & c & Hc & _); [by exists READY_QUEUE|]. by eexists. }
  pose proof (processes_bound a _ HW Hnd Hin) as Hlen.
  pose proof (total_bound (a_tickets a) (a_ready a) MAX_TICKETS) as Hb.
  unfold N_PROCESSES, MAX_TICKETS in *.
  assert (total (a_tickets a) (a_ready a) ≤ Z.of_nat (length (a_ready a)) * 2 ^ 56); [|lia].
  apply Hb. intros p Hp. destruct (Hin p Hp) as [c Hc]. unfold a_tickets. rewrite Hc. by eapply Hok.
Qed.

Lemma a_tickets_pos a p : 0 < a_tickets a p.
Proof. unfold a_tickets. destruct (a_pcbs a !! p); [apply tickets_of_pos|done]. Qed.

Lemma kept_tickets a o a' : choice_step a o a' → tickets_ok a → tickets_ok a'.
Proof.
  intros H Hok p c Hc. destruct (cp_frame _ _ _ H p c Hc) as (c0 & Hc0 & Hk & _).
  specialize (Hok p c0 Hc0). rewrite Hk. done.
Qed.

(** ** The generator *)
Lemma lottery_random_sim {B} k a (f : Z → M Kernel B) r a' :
  R k a →
  (∀ k1, R k1 (a_set_globals (λ _, (rng_step (a_globals a)).2) a) →
     sim k1 (f (rng_step (a_globals a)).1) r a') →
  sim k (lottery_random ≫= f) r a'.
Proof.
  intros HR Hf. rewrite (R_globals _ _ HR) in Hf.
  destruct k as [h rq ml g]. simpl in Hf.
  specialize (Hf (mk_Kernel h rq ml (rng_step g).2)).
  apply Hf. destruct HR as [Hp Hqs Hg Hl Hal Hd]. by split.
Qed.

Lemma g_same_rng g : g_same g (rng_step g).2.
Proof. by exists (rng_step g).1, (S (timer_reads g)). Qed.

Lemma choice_step_globals a o a' g :
  choice_step a o a' → g_same (a_globals a') g → choice_step a o (a_set_globals (λ _, g) a').
Proof.
  intros [HW Hg Hd Hf Hp Hr Hq Hc] Hs. split; try done.
  - destruct Hs as (s & n & ->). apply WF_set_globals; try done. apply HW.
  - by eapply g_same_trans.
Qed.

(** Dropping the winner, whatever its signals make of it. *)
Lemma winner_step a l1 p l2 c :
  WF a → queues_disjoint a → length (a_ml a) = Z.to_nat ML_MAX_LEVELS →
  a_ready a = l1 ++ p :: l2 → a_pcbs a !! p = Some c →
  choice_step a (if state (apply_signals c) =? PROCESS_READY then Some p else None)
    (a_put p (apply_signals c) (a_set_queue READY_QUEUE (l1 ++ l2) a)).
Proof.
  intros HW Hd Hlen El Hc. rewrite a_set_queue_put.
  assert (∀ x, x ∈ l1 ++ p :: l2 → ∃ c, a_pcbs a !! x = Some c ∧ state c = PROCESS_READY) as Hr.
  { intros x Hx. rewrite <- El in Hx. destruct (wf_queued _ HW x); [by exists READY_QUEUE|done]. }
  pose proof (proj1 Hd READY_QUEUE) as Hnd. simpl in Hnd.
  rewrite El in Hnd. apply NoDup_app in Hnd as (_ & Hn1 & [Hn2 _]%NoDup_cons).
  assert (p ∉ l1) as Hp1 by (intros Hx; apply (Hn1 p Hx); set_solver).
  apply (queue_step a READY_QUEUE); try done; simpl; try rewrite El.
  - intros x Hx. destruct (decide (x = p)) as [->|Hne]; [rewrite lookup_insert_eq; by eexists|].
    by rewrite lookup_insert_ne.
  - intros x cx. destruct (decide (x = p)) as [->|Hne].
    + rewrite lookup_insert_eq. intros [= <-]. exists c. split; [done|]. split; [apply kept_signals|].
      split; [set_solver|]. intros Hin. destruct (Hr p Hin) as (c1 & Hc1 & Hs). simplify_eq.
      by apply apply_signals_not_running.
    + rewrite lookup_insert_ne by done. intros Hcx. exists cx. split; [done|].
      split; [apply kept_refl|]. split; [done|]. intros Hin.
      destruct (Hr x Hin) as (c1 & Hc1 & Hs). simplify_eq. by rewrite Hs.
  - intros x Hx. split; [set_solver|]. rewrite lookup_insert_ne by set_solver. apply Hr. set_solver.
  - intros x cx Hx. destruct (decide (x = p)) as [->|Hne].
    + rewrite lookup_insert_eq. intros [= <-] Hs. left. by rewrite Hs.
    + intros _ _. right. set_solver.
  - intros x. case_bool; [|done]. intros [= <-]. split; [set_solver|]. split; [set_solver|].
    exists (apply_signals c). by rewrite lookup_insert_eq.
  - intros x cx c0 Hc0. destruct (decide (x = p)) as [->|Hne].
    + rewrite lookup_insert_eq. intros [= <-]. simplify_eq. unfold apply_signals. by repeat case_bool.
    + rewrite lookup_insert_ne by done. by intros; simplify_eq.
Qed.

(** ** The selection *)
Lemma total_sim {B} k a (f : Z → M Kernel B) r a' fuel v :
  R k a → WF a → tickets_ok a → (length (a_ready a) ≤ fuel)%nat →
  queue_at k READY_QUEUE = Some v →
  sim k (f (total (a_tickets a) (a_ready a))) r a' →
  sim k (sum_tickets fuel (qhead v) 0 ≫= f) r a'.
Proof.
  intros HR HW Hok Hf Hv Hs. unfold sim. erewrite bind_done; [exact Hs|].
  destruct (R_queues _ _ HR READY_QUEUE I) as (v' & Hv' & Hl & _).
  assert (v' = v) as -> by congruence. simpl in Hl.
  pose proof (total_no_overflow a HW (R_disjoint _ _ HR) Hok) as Hov.
  rewrite (total_ext _ (h_tickets (heap k))) in Hov |- * by (intros; by apply a_tickets_heap).
  rewrite (sum_tickets_spec _ _ _ _ _ Hl); [done|lia..].
Qed.

Lemma walk_finds k a fuel v w :
  R k a → total (a_tickets a) (a_ready a) < 2 ^ 63 → (length (a_ready a) ≤ fuel)%nat →
  queue_at k READY_QUEUE = Some v → 0 ≤ w < total (a_tickets a) (a_ready a) →
  ∃ l1 p l2, draw (a_tickets a) w (a_ready a) = Some (l1, p, l2) ∧
    a_ready a = l1 ++ p :: l2 ∧
    find_winner fuel w 0 None (qhead v) k = Done ((last l1, Some p), k).
Proof.
  intros HR Hov Hf Hv Hw.
  destruct (R_queues _ _ HR READY_QUEUE I) as (v' & Hv' & Hl & _).
  assert (v' = v) as -> by congruence. simpl in Hl.
  assert (∀ p, a_tickets a p = h_tickets (heap k) p) as Et by (intros; by apply a_tickets_heap).
  rewrite (total_ext _ _ _ Et) in Hw, Hov.
  destruct (find_winner_spec fuel k (qhead v) (a_ready a) None w 0 Hl)
    as (l1 & p & l2 & Ed & Ef); try lia.
  rewrite Z.sub_0_r, <- (draw_ext _ _ _ _ Et) in Ed. exists l1, p, l2. split; [done|].
  apply draw_Some in Ed as [El _]; [|lia]. split; [done|]. rewrite Ef. by destruct (last l1).
Qed.

Lemma winner_sim k a fuel v w :
  R k a → WF a → tickets_ok a → (length (a_ready a) ≤ fuel)%nat →
  queue_at k READY_QUEUE = Some v → 0 ≤ w < total (a_tickets a) (a_ready a) →
  ∃ l1 p l2, draw (a_tickets a) w (a_ready a) = Some (l1, p, l2) ∧
    a_ready a = l1 ++ p :: l2 ∧
    find_winner fuel w 0 None (qhead v) k = Done ((last l1, Some p), k).
Proof.
  intros HR HW Hok Hf Hv Hw. apply (walk_finds k a); try done.
  by apply (total_no_overflow a HW (R_disjoint _ _ HR) Hok).
Qed.

(** From the drawn number to the end of the draw. *)
Lemma winner_found_sim k a fuel1 w l1 p l2 c (retry : M Kernel (option ptr)) r a' v :
  R k a → WF a → tickets_ok a → (length (a_ready a) ≤ fuel1)%nat →
  queue_at k READY_QUEUE = Some v → 0 ≤ w < total (a_tickets a) (a_ready a) →
  draw (a_tickets a) w (a_ready a) = Some (l1, p, l2) → a_pcbs a !! p = Some c →
  state c = PROCESS_READY →
  (∀ k1, R k1 (a_put p (apply_signals c) (a_set_queue READY_QUEUE (l1 ++ l2) a)) →
     sim k1 (if state (apply_signals c) =? PROCESS_READY then mret (Some p) else retry) r a') →
  sim k (found ← find_winner fuel1 w 0 None (qhead v);
         candidate ← nonnull found.2;
         remove_process_from READY_QUEUE found.1 candidate;;
         handle_process_signals candidate;;
         c ← load candidate;
         if state c =? PROCESS_READY then mret (Some candidate) else retry) r a'.
Proof.
  intros HR HW Hok Hf Hv Hw Hd Hc Hs Hk.
  destruct (winner_sim k a fuel1 v w HR HW Hok Hf Hv Hw) as (l1' & p' & l2' & Hd' & El & Ef).
  simplify_eq. eapply sim_done; [exact Ef|]. eapply sim_require; [done|].
  eapply sim_bind; [by apply remove_process_from_sim|]. intros k1 HR1.
  eapply sim_bind; [eapply handle_process_signals_sim; [done|exact Hc|by rewrite Hs]|].
  intros k2 HR2. eapply sim_load; [done|apply a_put_lookup|]. intros c' _ Ec.
  assert (state c' = state (apply_signals c)) as -> by by rewrite Ec.
  by apply Hk.
Qed.

Lemma lottery_select_sim fuel k a :
  R k a → WF a → tickets_ok a → (length (a_ready a) < fuel)%nat →
  let r := a_lottery_select fuel a in
  sim k (lottery_select fuel) r.1 r.2 ∧ choice_step a r.1 r.2 ∧ (r.1 = None → a_ready r.2 = []).
Proof.
  revert k a. induction fuel as [|fuel IH]; intros k a HR HW Hok Hf r; [lia|].
  unfold r. clear r. cbn [a_lottery_select lottery_select].
  pose proof (R_disjoint _ _ HR) as Hd. pose proof (R_alevels _ _ HR) as Hlen.
  pose proof (queue_fuel_enough k a READY_QUEUE HR I) as Hqf. simpl in Hqf.
  destruct (a_ready a) as [|x l] eqn:El0.
  { split; [|split; [by apply choice_step_refl|intros _; exact El0]].
    apply sim_gets. apply (sim_get_queue k a READY_QUEUE); [done..|]. intros v Hv _.
    apply (total_sim k a); try done; [rewrite El0; simpl; lia|].
    rewrite El0. by apply sim_ret. }
  assert (0 < total (a_tickets a) (a_ready a)) as Hpos
    by (apply total_pos; [intros; apply a_tickets_pos|by rewrite El0]).
  rewrite <- El0 in *. clear x l El0.
  pose proof (total_no_overflow a HW Hd Hok) as Hov.
  pose proof (lottery_random_sim (B := option ptr) k a) as Hrng.
  pose proof (lottery_random_sim k a (λ _, mret tt) tt) as Hrng'.
  pose proof (g_same_rng (a_globals a)) as Hgs.
  destruct (rng_step (a_globals a)) as [rnd g]. simpl in Hrng, Hrng', Hgs.
  set (a1 := a_set_globals (λ _, g) a) in *.
  assert (choice_step a None a1) as Hst1
    by (apply choice_step_globals; [by apply choice_step_refl|done]).
  pose proof (cp_WF _ _ _ Hst1) as HW1.
  change (a_tickets a1) with (a_tickets a). set (w := rnd mod total (a_tickets a) (a_ready a)) in *.
  assert (0 ≤ w < total (a_tickets a) (a_ready a)) as Hw by by apply Z.mod_pos_bound.
  destruct (draw_total (a_tickets a) w (a_ready a)) as [[[l1 p] l2] Ed];
    [intros; apply a_tickets_pos|done|].
  rewrite Ed. pose proof Ed as [El _]%draw_Some; [|lia].
  rewrite a_set_queue_pcbs. change (a_pcbs a1) with (a_pcbs a).
  destruct (wf_queued _ HW p) as (_ & c & Hc & Hs); [exists READY_QUEUE; simpl; rewrite El; set_solver|].
  rewrite Hc. set (a2 := a_put p (apply_signals c) _).
  pose proof (winner_step a1 l1 p l2 c HW1 Hd Hlen El Hc) as Hst2. fold a2 in Hst2.
  pose proof (choice_step_trans _ _ _ _ Hst1 Hst2) as Hst.
  assert (∀ r a', (∀ k1, R k1 a2 → sim k1 (if state (apply_signals c) =? PROCESS_READY
      then mret (Some p) else lottery_select fuel) r a') → sim k (lottery_select (S fuel)) r a') as Hrun.
  { intros r a' Hk. cbn [lottery_select]. apply sim_gets.
    apply (sim_get_queue k a READY_QUEUE); [done..|]. intros v Hv _.
    apply (total_sim k a); try done; [simpl; lia|]. case_bool; [lia|].
    apply Hrng; [done|]. intros k1 HR1. rewrite u64_id by lia. fold w. rewrite s64_id by lia.
    apply (sim_get_queue k1 a1 READY_QUEUE); [done..|]. intros v1 Hv1 _.
    eapply (winner_found_sim k1 a1); try done; simpl; lia. }
  destruct (state (apply_signals c) =? PROCESS_READY).
  - split; [|split; [exact Hst|by intros]]. apply Hrun. intros k1 HR1. by apply sim_ret.
  - assert (∀ k2, R k2 a2 → let r := a_lottery_select fuel a2 in
      sim k2 (lottery_select fuel) r.1 r.2 ∧ choice_step a2 r.1 r.2 ∧
      (r.1 = None → a_ready r.2 = [])) as IH'.
    { intros k2 HR2. apply (IH k2 a2 HR2); [apply Hst|by eapply kept_tickets|].
      unfold a2. simpl. rewrite El, !length_app in *. simpl in Hf. lia. }
    assert (∃ k2, R k2 a2) as [k2 HR2].
    { destruct (Hrng' a1 HR) as (k1 & _ & HR1);
        [intros k1 HR1; by apply sim_ret|].
      destruct (remove_process_from_sim k1 a1 READY_QUEUE l1 p l2 HR1 I El) as (k3 & _ & HR3).
      destruct (handle_process_signals_sim k3 _ p c HR3) as (k4 & _ & HR4);
        [done|by rewrite Hs|by exists k4]. }
    destruct (IH' k2 HR2) as (_ & Hch & Hn). split; [|split; [by eapply choice_step_trans|done]].
    apply Hrun. intros k1 HR1. by apply IH'.
Qed.

Definition a_choose_lottery (a : AKernel) : ptr * AKernel :=
  or_init (Some 10) (a_lottery_select (S (size (a_pcbs a))) a).

Lemma queue_fuel_eq k a : R k a → queue_fuel k = S (size (a_pcbs a)).
Proof. intros HR. unfold queue_fuel. rewrite (R_pcbs _ _ HR). unfold erase. by rewrite map_size_fmap. Qed.

Lemma choose_lottery_sim k a :
  R k a → WF a → tickets_ok a → (∀ q p, p ∈ a_queue a q → q = READY_QUEUE) →
  sim k (fuel ← gets queue_fuel; next ← lottery_select fuel; recharged_or_init 10 next)
      (a_choose_lottery a).1 (a_choose_lottery a).2 ∧
  ∃ o, (a_choose_lottery a).1 = default init_process o ∧ choice_post a o (a_choose_lottery a).2.
Proof.
  intros HR HW Hok Hh. unfold a_choose_lottery.
  pose proof (queue_fuel_enough k a READY_QUEUE HR I) as Hf. simpl in Hf.
  rewrite (queue_fuel_eq _ _ HR) in Hf.
  destruct (lottery_select_sim _ k a HR HW Hok Hf) as (Hs & Hst & Hn).
  destruct (a_lottery_select _ a) as [o a1]. simpl in Hs, Hst, Hn. split.
  - apply sim_gets. rewrite (queue_fuel_eq _ _ HR). eapply sim_bind; [exact Hs|].
    intros k1 HR1. apply recharged_or_init_sim; [done|]. intros p Hp.
    destruct (cp_picked _ _ _ Hst p Hp) as (_ & _ & c & Hc & _). by eexists.
  - exists o. split; [by destruct o|]. destruct o as [p|]; simpl.
    + apply choice_post_counter; [done|]. by split.
    + split; [done|]. intros _ p [q Hq]. pose proof (cp_queued _ _ _ Hst q p Hq) as Hx%Hh.
      subst. simpl in Hq. rewrite Hn in Hq by done. set_solver.
Qed.
