(* ===== verification/Dispatch.v ===== *)
(** * The dispatcher: one specification for the seven algorithms

    [a_schedule] is what _schedule does to the abstract kernel, whatever the
    active algorithm; [Inv] is the invariant of the scheduler between two kernel
    entries; here _schedule is proved to refine [a_schedule] and to preserve
    [Inv], and so are schedule, the timer tick and process exit. *)
From stdpp Require Import base gmap list.
From Stdlib Require Import ZArith Lia.
From S2P Require Import Prelude Kernel Queue Scheduler SchedulerSpec Aging Lottery.

#[local] Open Scope Z_scope.

Definition a_choose (alg : algorithm) : AKernel → ptr * AKernel :=
  match alg with
  | ROUND_ROBIN => a_choose_head (Some 10)
  | FCFS | SJF => a_choose_head None
  | LOTTERY => a_choose_lottery
  | PRIORITY_AGING => a_choose_aging
  | MLQ => a_choose_level ml_policy_mlq
  | MLFQ => a_choose_level ml_policy_mlfq
  end.

Definition a_alg (a : AKernel) : algorithm := active_algorithm (a_globals a).

Definition a_schedule (a : AKernel) : AKernel := a_select (a_alg a) (a_choose (a_alg a)) a.

(** ** The invariant *)
Record params_ok (c : PCB) : Prop := {
  ok_priority : 1 ≤ priority c < 2 ^ 63;
  ok_counter : - 2 ^ 63 ≤ counter c < 2 ^ 63;
  ok_tickets : tickets_of c ≤ MAX_TICKETS
}.

(** The process table is filled from slot 0 on. *)
Definition slots_ok (g : Globals) : Prop :=
  1 ≤ n_processes g ≤ N_PROCESSES ∧
  (∀ i, n_processes g ≤ i < N_PROCESSES → array_get (processes g) i = Some None) ∧
  ∀ i, 0 ≤ i < n_processes g → ∃ p, array_get (processes g) i = Some (Some p).

(** [depth] is the nesting of preempt_disable in the current process; every other
    process has left the CPU inside one selection. *)
Record Inv (depth : Z) (a : AKernel) : Prop := {
  inv_WF : WF a;
  inv_home : at_home a;
  inv_ready : ∀ p c, a_pcbs a !! p = Some c → p ≠ init_process →
    state c = PROCESS_READY → queued a p;
  inv_running : ∀ p c, a_pcbs a !! p = Some c → state c = PROCESS_RUNNING → p = a_cur a;
  inv_params : ∀ p c, a_pcbs a !! p = Some c → params_ok c;
  inv_preempt : ∀ p c, a_pcbs a !! p = Some c →
    preempt_disabled c = if decide (p = a_cur a) then depth else 1;
  inv_slots : slots_ok (a_globals a)
}.

(** ** Requeueing the outgoing process *)
Lemma a_queue_enqueue a q p q' x :
  valid_queue q → length (a_ml a) = Z.to_nat ML_MAX_LEVELS →
  x ∈ a_queue (a_enqueue q p a) q' ↔ x ∈ a_queue a q' ∨ (x = p ∧ q' = q).
Proof.
  intros Hq Hl. unfold a_enqueue. destruct (decide (q' = q)) as [->|Hne].
  - rewrite a_queue_set by done. set_solver.
  - rewrite a_queue_set_ne by done. rewrite a_queue_update. set_solver.
Qed.

(** The queue an algorithm inserts a process into. *)
Definition target_queue (alg : algorithm) (p : ptr) (a : AKernel) : queue_ref :=
  match alg with
  | MLQ | MLFQ => ML_QUEUE (Z.to_nat (a_level a p))
  | _ => READY_QUEUE
  end.

Lemma target_home alg p a : home alg (target_queue alg p a).
Proof. by destruct alg. Qed.

Lemma target_valid alg p a :
  WF a → is_Some (a_pcbs a !! p) → valid_queue (target_queue alg p a).
Proof.
  intros HW [c Hc]. destruct (WF_level a p c HW Hc) as (lv & _ & Hr & E).
  destruct alg; simpl; try done; rewrite E; by apply valid_ml_queue.
Qed.

Lemma a_queue_enqueue_policy alg a p q x :
  WF a → is_Some (a_pcbs a !! p) → length (a_ml a) = Z.to_nat ML_MAX_LEVELS →
  x ∈ a_queue (a_enqueue_policy alg p a) q ↔
  x ∈ a_queue a q ∨ (x = p ∧ q = target_queue alg p a).
Proof.
  intros HW Hp Hl. pose proof (target_valid alg p a HW Hp) as Hv.
  destruct alg; try (apply a_queue_enqueue; [exact Hv|done]).
  unfold a_enqueue_policy, a_enqueue_sorted, target_queue. destruct (decide (q = READY_QUEUE)) as [->|Hne].
  - simpl. rewrite elem_of_insert_by_burst. set_solver.
  - rewrite a_queue_set_ne by done. rewrite a_queue_update. set_solver.
Qed.

Lemma a_pcbs_enqueue_policy alg a p :
  a_pcbs (a_enqueue_policy alg p a) = alter (with_state PROCESS_READY) p (a_pcbs a).
Proof. destruct alg; simpl; unfold a_enqueue; rewrite ?a_set_queue_pcbs; done. Qed.

Lemma a_globals_enqueue_policy alg a p : a_globals (a_enqueue_policy alg p a) = a_globals a.
Proof. destruct alg; simpl; unfold a_enqueue; rewrite ?a_set_queue_globals; done. Qed.

Lemma a_globals_requeue alg a : a_globals (a_requeue alg a) = a_globals a.
Proof.
  unfold a_requeue. case_decide; [done|]. case_bool; [|done]. apply a_globals_enqueue_policy.
Qed.

Lemma Inv_preempt depth d a :
  0 ≤ depth + d < 2 ^ 31 → Inv depth a → Inv (depth + d) (a_preempt d a).
Proof.
  intros Hd [HW Hh Hr Hrun Hp Hpre Hsl].
  assert (∀ p c, a_pcbs (a_preempt d a) !! p = Some c → ∃ c0, a_pcbs a !! p = Some c0 ∧
            c = if decide (p = a_cur a) then bump_preempt d c0 else c0) as Hb.
  { intros p c. unfold a_preempt, a_update. simpl. case_decide as E.
    - subst. rewrite lookup_alter_eq. intros (c0 & ? & ->)%fmap_Some. eauto.
    - rewrite lookup_alter_ne by done. eauto. }
  split; [by apply WF_preempt|done|..].
  - intros p c (c0 & Hc0 & ->)%Hb Hi Hs. apply queued_update, (Hr p c0); try done. by case_decide.
  - intros p c (c0 & Hc0 & ->)%Hb Hs. apply (Hrun p c0); [done|]. by case_decide.
  - intros p c (c0 & Hc0 & ->)%Hb. specialize (Hp p c0 Hc0). by case_decide; destruct Hp.
  - intros p c (c0 & Hc0 & ->)%Hb. specialize (Hpre p c0 Hc0).
    change (a_cur (a_preempt d a)) with (a_cur a). case_decide; [|done].
    simpl. rewrite Hpre. apply s32_id. lia.
  - exact Hsl.
Qed.

(** The invariant with the outgoing process back among the others. *)
Lemma Inv_enqueue_policy depth a p :
  Inv depth a → length (a_ml a) = Z.to_nat ML_MAX_LEVELS →
  p ≠ init_process → is_Some (a_pcbs a !! p) → Inv depth (a_enqueue_policy (a_alg a) p a).
Proof.
  intros [HW Hh Hr Hrun Hp Hpre Hsl] Hl Hi Hsome.
  set (a1 := a_enqueue_policy (a_alg a) p a).
  assert (a_globals a1 = a_globals a) as Eg by apply a_globals_enqueue_policy.
  assert (a_cur a1 = a_cur a) as Ecur by (unfold a_cur; by rewrite Eg).
  assert (∀ q x, x ∈ a_queue a1 q ↔ x ∈ a_queue a q ∨ (x = p ∧ q = target_queue (a_alg a) p a)) as Hq
    by (intros; by apply a_queue_enqueue_policy).
  assert (∀ x c, a_pcbs a1 !! x = Some c → ∃ c0, a_pcbs a !! x = Some c0 ∧
            c = if decide (x = p) then with_state PROCESS_READY c0 else c0) as Hb.
  { intros x c. unfold a1. rewrite a_pcbs_enqueue_policy. case_decide as E.
    - subst. rewrite lookup_alter_eq. intros (c0 & ? & ->)%fmap_Some. eauto.
    - rewrite lookup_alter_ne by done. eauto. }
  split.
  - by apply WF_enqueue_policy.
  - intros q x. rewrite Hq, Eg. intros [Hx|[-> ->]]; [by eapply Hh|]. apply target_home.
  - intros x c (c0 & Hc0 & ->)%Hb Hne Hs. case_decide as E.
    + subst. eexists. apply Hq. by right.
    + destruct (Hr x c0 Hc0 Hne Hs) as [q Hx]. exists q. apply Hq. by left.
  - intros x c (c0 & Hc0 & ->)%Hb. rewrite Ecur. case_decide; [done|]. by apply Hrun.
  - intros x c (c0 & Hc0 & ->)%Hb. specialize (Hp x c0 Hc0). by case_decide; destruct Hp.
  - intros x c (c0 & Hc0 & ->)%Hb. specialize (Hpre x c0 Hc0). rewrite Ecur, <- Hpre. by destruct (decide (x = p)).
  - by rewrite Eg.
Qed.

Lemma Inv_requeue depth a :
  Inv depth a → length (a_ml a) = Z.to_nat ML_MAX_LEVELS →
  Inv depth (a_requeue (a_alg a) a) ∧
  (a_cur a ≠ init_process → a_is_running (a_requeue (a_alg a) a) (a_cur a) = false).
Proof.
  intros HI Hl. unfold a_requeue. case_decide as Hd; [done|].
  destruct (a_is_running a (a_cur a)) eqn:Er; [|done].
  split; [apply Inv_enqueue_policy; try done; apply HI|]. intros _.
  unfold a_is_running. rewrite a_pcbs_enqueue_policy, lookup_alter_eq.
  by destruct (a_pcbs a !! a_cur a).
Qed.

(** ** Choice and switch *)
Definition same_but_cpu (c0 c : PCB) : Prop :=
  c = with_cpu_ctx (cpu_ctx c) (with_state (state c) c0).

(** The state a process has after the switch to [next]. *)
Definition switched_state (next prev x : ptr) (s : Z) : Z :=
  if decide (x = next) then PROCESS_RUNNING
  else if decide (x = prev) then (if s =? PROCESS_RUNNING then PROCESS_READY else s) else s.

Lemma a_switch_lookup next a x c :
  a_pcbs (a_switch next a) !! x = Some c →
  ∃ c0, a_pcbs a !! x = Some c0 ∧ same_but_cpu c0 c ∧
        state c = switched_state next (a_cur a) x (state c0).
Proof.
  unfold a_switch, switched_state, same_but_cpu. case_decide as Hcur; change (a_cur (a_update _ _ a)) with (a_cur a) in Hcur.
  - unfold a_update. simpl. case_decide as E.
    + subst. rewrite lookup_alter_eq. intros (c0 & ? & ->)%fmap_Some. exists c0. by destruct c0.
    + rewrite lookup_alter_ne by done. intros H. exists c. split; [done|]. split; [by destruct c|].
      rewrite decide_False by congruence. done.
  - set (a1 := a_update next _ a). set (a2 := if a_is_running a1 _ then _ else a1).
    change (a_cur a1) with (a_cur a) in *.
    assert (∀ c, a_pcbs a2 !! x = Some c → ∃ c0, a_pcbs a !! x = Some c0 ∧ same_but_cpu c0 c ∧
        state c = switched_state next (a_cur a) x (state c0)) as H2.
    { intros c1. unfold a2, switched_state, same_but_cpu. case_decide as E.
      - subst. assert (a_pcbs (if a_is_running a1 (a_cur a)
            then a_update (a_cur a) (with_state PROCESS_READY) a1 else a1) !! next = a_pcbs a1 !! next) as ->.
        { destruct (a_is_running _ _); [|done]. by rewrite a_update_lookup_ne. }
        unfold a1. rewrite a_update_lookup. intros (c0 & ? & ->)%fmap_Some. exists c0. by destruct c0.
      - assert (a_pcbs a1 !! x = a_pcbs a !! x) as E1 by (by apply a_update_lookup_ne).
        case_decide as E2.
        + subst x. destruct (a_is_running a1 (a_cur a)) eqn:Er;
            unfold a_is_running in Er; rewrite E1 in Er; rewrite ?a_update_lookup, E1.
          * intros (c0 & Hc0 & ->)%fmap_Some. rewrite Hc0 in Er. exists c0. rewrite Er. by destruct c0.
          * intros Hc1. rewrite Hc1 in Er. exists c1. rewrite Er. by destruct c1.
        + assert (a_pcbs (if a_is_running a1 (a_cur a)
            then a_update (a_cur a) (with_state PROCESS_READY) a1 else a1) !! x = a_pcbs a !! x) as ->.
          { destruct (a_is_running _ _); [|done]. rewrite a_update_lookup_ne by congruence. done. }
          intros H. exists c1. split; [done|]. by destruct c1. }
    cbn [a_set_globals a_pcbs a_update a_set_pcbs].
    destruct (decide (x = a_cur a)) as [->|Hx].
    + rewrite lookup_alter_eq. intros (c1 & Hc1 & ->)%fmap_Some.
      destruct (H2 c1 Hc1) as (c0 & Hc0 & Hs & Hst). exists c0. split; [done|].
      split; [unfold same_but_cpu in *; by rewrite Hs|]. cbn [state with_cpu_ctx]. rewrite Hst.
      unfold switched_state. repeat case_decide; congruence.
    + rewrite lookup_alter_ne by done. intros Hc. destruct (H2 c Hc) as (c0 & Hc0 & Hs & Hst).
      exists c0. split; [done|]. split; [exact Hs|]. rewrite Hst. unfold switched_state. repeat case_decide; congruence.
Qed.

Lemma a_switch_globals next a :
  ∃ f, a_globals (a_switch next a) = f (a_globals a) ∧
    (∀ g, queue_level (f g) = queue_level g) ∧ (∀ g, processes (f g) = processes g) ∧
    (∀ g, active_algorithm (f g) = active_algorithm g) ∧ (∀ g, n_processes (f g) = n_processes g).
Proof.
  unfold a_switch. case_decide; [by exists id|]. destruct (a_is_running _ _);
    by eexists (λ g, with_cpu _ (with_ttbr0 _ (with_current_process next g))).
Qed.

Lemma a_switch_queue next a q : a_queue (a_switch next a) q = a_queue a q.
Proof.
  unfold a_switch. case_decide; [by destruct q|]. destruct (a_is_running _ _); by destruct q.
Qed.

Lemma g_same_slots g g' : slots_ok g → g_same g g' → slots_ok g'.
Proof. by intros H (s & n & ->). Qed.

Lemma Inv_switch a o a' :
  Inv 1 a → (a_cur a ≠ init_process → a_is_running a (a_cur a) = false) →
  choice_post a o a' → Inv 1 (a_switch (default init_process o) a').
Proof.
  intros [HW Hh Hr Hrun Hp Hpre Hsl] Hnr [Hst Hn].
  pose proof (cp_WF _ _ _ Hst) as HW'. pose proof (g_same_cur _ _ (cp_globals _ _ _ Hst)) as Ecur.
  set (next := default init_process o). set (a1 := a_switch next a').
  assert (¬ queued a' next) as Hnq.
  { unfold next. destruct o as [p|]; simpl; [by apply (cp_picked _ _ _ Hst)|by apply Hn]. }
  assert (is_Some (a_pcbs a' !! next)) as Hnext.
  { unfold next. destruct o as [p|]; simpl; [|apply HW'].
    destruct (cp_picked _ _ _ Hst p eq_refl) as (_ & _ & c & Hc & _). by eexists. }
  assert (a_cur a1 = next) as Ecur1 by apply a_switch_cur.
  assert (∀ x, queued a1 x ↔ queued a' x) as Hq1.
  { intros x. split; intros [q Hx]; exists q; revert Hx; unfold a1; by rewrite a_switch_queue. }
  assert (∀ x c, a_pcbs a1 !! x = Some c → ∃ c0 c1, a_pcbs a !! x = Some c0 ∧
     a_pcbs a' !! x = Some c1 ∧ kept c0 c1 ∧ same_but_cpu c1 c ∧
     (¬ queued a x → state c1 = state c0) ∧ (queued a x → state c1 ≠ PROCESS_RUNNING) ∧
     state c = switched_state next (a_cur a) x (state c1)) as Hb.
  { intros x c Hc. destruct (a_switch_lookup next a' x c Hc) as (c1 & Hc1 & Hs & Hss).
    destruct (cp_frame _ _ _ Hst x c1 Hc1) as (c0 & Hc0 & Hk & H1 & H2). rewrite Ecur in Hss.
    eauto 10. }
  assert (∀ x c0 c1, a_pcbs a !! x = Some c0 → a_pcbs a' !! x = Some c1 →
     (¬ queued a x → state c1 = state c0) → (queued a x → state c1 ≠ PROCESS_RUNNING) →
     state c1 = PROCESS_RUNNING → x = a_cur a ∧ x = init_process) as Hrun1.
  { intros x c0 c1 Hc0 Hc1 H1 H2 Hs. destruct (decide (queued a x)) as [Hx|Hx]; [by apply H2 in Hx|].
    rewrite H1 in Hs by done. specialize (Hrun x c0 Hc0 Hs) as ->. split; [done|].
    destruct (decide (a_cur a = init_process)) as [|Hi]; [done|]. specialize (Hnr Hi).
    unfold a_is_running in Hnr. rewrite Hc0 in Hnr. by apply Z.eqb_neq in Hnr. }
  destruct (a_switch_globals next a') as (f & Ef & Ef1 & Ef2 & Ef3 & Ef4). fold a1 in Ef.
  split.
  - split; rewrite ?Ef, ?Ef1, ?Ef2, ?Ecur1.
    + apply a_switch_dom, HW'.
    + by apply a_switch_dom.
    + intros p Hpq. pose proof (proj1 (Hq1 p) Hpq) as Hp'.
      destruct (wf_queued _ HW' p Hp') as (Hi & c1 & Hc1 & Hs). split; [done|].
      destruct (a_switch_dom next a' p) as [c Hc]; [by eexists|]. exists c. split; [done|].
      destruct (a_switch_lookup _ _ _ _ Hc) as (c2 & Hc2 & _ & ->). simplify_eq.
      unfold switched_state. rewrite decide_False by congruence. rewrite Hs. by case_decide.
    + apply HW'.
    + intros p c Hc. destruct (Hb p c Hc) as (c0 & c1 & _ & Hc1 & _ & Hs & _).
      unfold same_but_cpu in Hs. assert (pid c = pid c1) as -> by by rewrite Hs. by apply HW'.
    + split; [apply HW'|]. intros i p Hi. destruct (proj2 (wf_processes _ HW') i p Hi) as (c1 & Hc1 & <-).
      destruct (a_switch_dom next a' p) as [c Hc]; [by eexists|]. exists c. split; [done|].
      destruct (a_switch_lookup _ _ _ _ Hc) as (c2 & Hc2 & Hs & _). simplify_eq.
      unfold same_but_cpu in Hs. by rewrite Hs.
  - intros q x. rewrite Ef, Ef3. unfold a1. rewrite a_switch_queue. intros Hx.
    rewrite (g_same_alg _ _ (cp_globals _ _ _ Hst)). apply (Hh q x). by eapply (cp_queued _ _ _ Hst).
  - intros x c Hc Hi. destruct (Hb x c Hc) as (c0 & c1 & Hc0 & Hc1 & _ & _ & H1 & H2 & ->).
    unfold switched_state. case_decide as E; [done|]. intros Hs. apply Hq1.
    assert (state c1 = PROCESS_READY) as Hs1.
    { destruct (decide (x = a_cur a)) as [E2|E2]; [|done].
      destruct (state c1 =? PROCESS_RUNNING) eqn:E3; [|done]. apply Z.eqb_eq in E3.
      by destruct (Hrun1 x c0 c1 Hc0 Hc1 H1 H2 E3). }
    destruct (decide (queued a x)) as [Hx|Hx].
    + destruct (cp_ready _ _ _ Hst x c1 Hx Hc1 Hs1) as [->|?]; done.
    + rewrite H1 in Hs1 by done. by apply (Hr x c0) in Hs1.
  - intros x c Hc. destruct (Hb x c Hc) as (c0 & c1 & Hc0 & Hc1 & _ & _ & H1 & H2 & ->).
    unfold switched_state. case_decide as E; [congruence|]. rewrite Ecur1. intros Hs.
    destruct (state c1 =? PROCESS_RUNNING) eqn:E3.
    + apply Z.eqb_eq in E3. destruct (Hrun1 x c0 c1 Hc0 Hc1 H1 H2 E3) as [E4 _].
      by rewrite decide_True in Hs.
    + case_decide; by apply Z.eqb_neq in E3.
  - intros x c Hc. destruct (Hb x c Hc) as (c0 & c1 & Hc0 & Hc1 & Hk & Hs & _).
    destruct (Hp x c0 Hc0) as [P1 P2 P3]. unfold same_but_cpu in Hs. rewrite Hs.
    pose proof (cp_counter _ _ _ Hst x c1 c0 Hc0 Hc1 P2) as P2'.
    by split; [rewrite Hk|exact P2'|rewrite Hk].
  - intros x c Hc. destruct (Hb x c Hc) as (c0 & c1 & Hc0 & Hc1 & Hk & Hs & _).
    unfold same_but_cpu in Hs. rewrite Hs. simpl. rewrite Hk. simpl. rewrite (Hpre x c0 Hc0).
    by repeat case_decide.
  - unfold slots_ok. rewrite Ef, Ef2, Ef4. by apply (g_same_slots (a_globals a)), (cp_globals _ _ _ Hst).
Qed.

(** ** Every algorithm makes a choice *)
Lemma single_home a : at_home a → home (a_alg a) READY_QUEUE →
  ∀ q p, p ∈ a_queue a q → q = READY_QUEUE.
Proof.
  intros Hh Hr q p Hp. specialize (Hh q p Hp). fold (a_alg a) in Hh.
  destruct (a_alg a); simpl in *; done.
Qed.

Lemma multi_home a : at_home a → ¬ home (a_alg a) READY_QUEUE → a_ready a = [].
Proof.
  intros Hh Hr. apply elem_of_nil_inv. intros p Hp. apply Hr.
  specialize (Hh READY_QUEUE p Hp). by fold (a_alg a) in Hh.
Qed.

Lemma Inv_aging_ok d a : Inv d a → aging_ok a.
Proof. intros HI p c Hc. by destruct (inv_params _ _ HI p c Hc). Qed.

Lemma Inv_tickets_ok d a : Inv d a → tickets_ok a.
Proof. intros HI p c Hc. by destruct (inv_params _ _ HI p c Hc). Qed.

Lemma choose_post d k a :
  R k a → Inv d a → ∃ o, (a_choose (a_alg a) a).1 = default init_process o ∧
    choice_post a o (a_choose (a_alg a) a).2.
Proof.
  intros HR HI. pose proof (inv_WF _ _ HI) as HW. pose proof (inv_home _ _ HI) as Hh.
  pose proof (R_disjoint _ _ HR) as Hd. pose proof (R_alevels _ _ HR) as Hl.
  destruct (a_alg a) eqn:Ea.
  - apply choose_head_post; try done; [by intros v [= <-]|]. apply single_home; [done|by rewrite Ea].
  - apply choose_head_post; try done. apply single_home; [done|by rewrite Ea].
  - apply choose_head_post; try done. apply single_home; [done|by rewrite Ea].
  - apply (choose_lottery_sim k); try done; [by eapply Inv_tickets_ok|].
    apply single_home; [done|by rewrite Ea].
  - apply (choose_aging_sim k); try done; [by eapply Inv_aging_ok|].
    apply single_home; [done|by rewrite Ea].
  - apply (choose_level_post k); try done; [by repeat constructor|].
    apply multi_home; [done|rewrite Ea; by intros H].
  - apply (choose_level_post k); try done; [by repeat constructor|].
    apply multi_home; [done|rewrite Ea; by intros H].
Qed.

(** Priority aging and lottery: what the algorithm needs holds once the
    outgoing process is requeued. *)
Lemma aging_sim k a :
  R k a → Inv 0 a → a_alg a = PRIORITY_AGING → sim k _schedule_priority_aging tt (a_schedule a).
Proof.
  intros HR HI Ea. unfold a_schedule. rewrite Ea. unfold a_select.
  pose proof (Inv_preempt 0 1 a ltac:(done) HI) as HI1.
  eapply sim_bind; [apply preempt_disable_sim; [done|apply HI]|]. intros k1 HR1.
  destruct (Inv_requeue _ _ HI1 (R_alevels _ _ HR1)) as [HI2 _].
  change (a_alg (a_preempt 1 a)) with (a_alg a) in HI2. rewrite Ea in HI2.
  apply (select_rest_sim k1 (a_preempt 1 a)); [done|apply HI1|..].
  - intros k2 HR2 Hi Hq. apply enqueue_current_sim; try done. apply HI1.
  - intros k2 HR2 HW2.
    destruct (choose_aging_sim k2 _ HR2 HW2) as (Hs & o & E & Hp);
      [by eapply Inv_aging_ok|apply single_home; [apply HI2|]|].
    { unfold a_alg. rewrite a_globals_requeue. fold (a_alg (a_preempt 1 a)).
      change (a_alg (a_preempt 1 a)) with (a_alg a). by rewrite Ea. }
    split; [done|]. by eapply choice_post_ok.
Qed.

Lemma lottery_sim k a :
  R k a → Inv 0 a → a_alg a = LOTTERY → sim k _schedule_lottery tt (a_schedule a).
Proof.
  intros HR HI Ea. unfold a_schedule. rewrite Ea. unfold a_select.
  pose proof (Inv_preempt 0 1 a ltac:(done) HI) as HI1.
  eapply sim_bind; [apply preempt_disable_sim; [done|apply HI]|]. intros k1 HR1.
  destruct (Inv_requeue _ _ HI1 (R_alevels _ _ HR1)) as [HI2 _].
  change (a_alg (a_preempt 1 a)) with (a_alg a) in HI2. rewrite Ea in HI2.
  apply (select_rest_sim k1 (a_preempt 1 a)); [done|apply HI1|..].
  - intros k2 HR2 Hi Hq. apply enqueue_current_sim; try done. apply HI1.
  - intros k2 HR2 HW2.
    destruct (choose_lottery_sim k2 _ HR2 HW2) as (Hs & o & E & Hp);
      [by eapply Inv_tickets_ok|apply single_home; [apply HI2|]|].
    { unfold a_alg. rewrite a_globals_requeue. fold (a_alg (a_preempt 1 a)).
      change (a_alg (a_preempt 1 a)) with (a_alg a). by rewrite Ea. }
    split; [done|]. by eapply choice_post_ok.
Qed.

(** The dispatcher refines its specification, for every algorithm. *)
Lemma _schedule_sim k a : R k a → Inv 0 a → sim k _schedule tt (a_schedule a).
Proof.
  intros HR HI. pose proof (inv_WF _ _ HI) as HW. unfold _schedule.
  eapply sim_global; [done|]. fold (a_alg a). unfold a_schedule.
  destruct (a_alg a) eqn:Ea; simpl.
  - by apply round_robin_sim.
  - rewrite <- Ea. by apply queue_head_sim.
  - rewrite <- Ea. by apply queue_head_sim.
  - pose proof (lottery_sim k a HR HI Ea) as H. unfold a_schedule in H. by rewrite Ea in H.
  - pose proof (aging_sim k a HR HI Ea) as H. unfold a_schedule in H. by rewrite Ea in H.
  - by apply multilevel_sim.
  - by apply multilevel_sim.
Qed.

Lemma a_schedule_Inv k a : R k a → Inv 0 a → Inv 0 (a_schedule a).
Proof.
  intros HR HI. pose proof (Inv_preempt 0 1 a ltac:(done) HI) as HI1.
  destruct (preempt_disable_sim k a HR) as (k1 & _ & HR1); [apply HI|].
  destruct (Inv_requeue _ _ HI1 (R_alevels _ _ HR1)) as [HI2 Hnr].
  change (a_alg (a_preempt 1 a)) with (a_alg a) in *.
  assert (∃ k2, R k2 (a_requeue (a_alg a) (a_preempt 1 a))) as [k2 HR2].
  { destruct (requeue_sim k1 (a_preempt 1 a) (a_alg a)
      (p ← get_current; algorithm_enqueue (a_alg a) p)) as (k2 & _ & ?); [done|apply HI1| |by exists k2].
    intros k2 HR2 Hi Hq. eapply sim_current; [done|].
    apply algorithm_enqueue_sim; try done; apply HI1. }
  assert (a_alg (a_requeue (a_alg a) (a_preempt 1 a)) = a_alg a) as Ea
    by (unfold a_alg at 1; by rewrite a_globals_requeue).
  destruct (choose_post _ _ _ HR2 HI2) as (o & E & Hp). rewrite Ea in E, Hp.
  unfold a_schedule, a_select. destruct (a_choose _ _) as [next a2]. simpl in *. subst.
  apply (Inv_preempt 1 (-1)); [done|]. eapply Inv_switch; [exact HI2| |done].
  assert (a_cur (a_requeue (a_alg a) (a_preempt 1 a)) = a_cur (a_preempt 1 a)) as ->
    by (unfold a_cur; by rewrite a_globals_requeue).
  apply Hnr.
Qed.

(** The current process is RUNNING. *)
Definition running (a : AKernel) : Prop := a_is_running a (a_cur a) = true.

Lemma update_lookup_fwd a p f x c :
  a_pcbs a !! x = Some c →
  ∃ c', a_pcbs (a_update p f a) !! x = Some c' ∧ c' = if decide (x = p) then f c else c.
Proof.
  intros Hc. case_decide as E.
  - subst. rewrite a_update_lookup, Hc. by eexists.
  - rewrite a_update_lookup_ne by done. by eexists.
Qed.

Lemma update_lookup_inv a p f x c :
  a_pcbs (a_update p f a) !! x = Some c →
  ∃ c0, a_pcbs a !! x = Some c0 ∧ c = if decide (x = p) then f c0 else c0.
Proof.
  case_decide as E.
  - subst. rewrite a_update_lookup. intros (c0 & ? & ->)%fmap_Some. eauto.
  - rewrite a_update_lookup_ne by done. eauto.
Qed.

(** ** The shape of a selection *)

(** The kernel in which the choice is made, and its result. *)
Definition a_competition (a : AKernel) : AKernel := a_requeue (a_alg a) (a_preempt 1 a).
Definition a_choice (a : AKernel) : ptr * AKernel := a_choose (a_alg a) (a_competition a).

Lemma a_schedule_eq a : a_schedule a = a_preempt (-1) (a_switch (a_choice a).1 (a_choice a).2).
Proof. unfold a_schedule, a_select, a_choice, a_competition. by destruct (a_choose _ _). Qed.

Lemma a_schedule_cur a : a_cur (a_schedule a) = (a_choice a).1.
Proof. rewrite a_schedule_eq. apply a_switch_cur. Qed.

Lemma a_schedule_queue a q : a_queue (a_schedule a) q = a_queue (a_choice a).2 q.
Proof. rewrite a_schedule_eq. unfold a_preempt. rewrite a_queue_update. apply a_switch_queue. Qed.

Lemma competition_ok k a :
  R k a → Inv 0 a → Inv 1 (a_competition a) ∧ a_alg (a_competition a) = a_alg a ∧
    ∃ k', R k' (a_competition a).
Proof.
  intros HR HI. pose proof (Inv_preempt 0 1 a ltac:(done) HI) as HI1.
  destruct (preempt_disable_sim k a HR) as (k1 & _ & HR1); [apply HI|].
  destruct (Inv_requeue _ _ HI1 (R_alevels _ _ HR1)) as [HI2 _]. split; [done|].
  split; [unfold a_alg at 1, a_competition; by rewrite a_globals_requeue|].
  destruct (requeue_sim k1 (a_preempt 1 a) (a_alg a)
      (p ← get_current; algorithm_enqueue (a_alg a) p)) as (k2 & _ & ?); [done|apply HI1| |by exists k2].
  intros k2 HR2 Hi Hq. eapply sim_current; [done|].
  apply algorithm_enqueue_sim; try done; apply HI1.
Qed.

Lemma choice_ok_post k a :
  R k a → Inv 0 a → ∃ o, (a_choice a).1 = default init_process o ∧
    choice_post (a_competition a) o (a_choice a).2.
Proof.
  intros HR HI. destruct (competition_ok k a HR HI) as (HI1 & Ea & k1 & HR1).
  unfold a_choice. rewrite <- Ea. by eapply choose_post.
Qed.

(** The chosen process runs. *)
Lemma a_schedule_running k a : R k a → Inv 0 a → running (a_schedule a).
Proof.
  intros HR HI. destruct (choice_ok_post k a HR HI) as (o & E & [Hst Hn]).
  unfold running. rewrite a_schedule_cur. rewrite a_schedule_eq.
  assert (is_Some (a_pcbs (a_choice a).2 !! (a_choice a).1)) as Hc.
  { rewrite E. destruct o as [p|]; simpl; [|apply Hst].
    destruct (cp_picked _ _ _ Hst p eq_refl) as (_ & _ & c & Hc & _). by eexists. }
  apply (a_switch_dom (a_choice a).1), (a_update_is_Some _
    (a_cur (a_switch (a_choice a).1 (a_choice a).2)) (bump_preempt (-1))) in Hc as [c Hc].
  unfold a_is_running, a_preempt. rewrite Hc.
  apply update_lookup_inv in Hc as (c1 & Hc1 & ->).
  apply a_switch_lookup in Hc1 as (c0 & _ & _ & Hs).
  apply Z.eqb_eq. transitivity (state c1); [by case_decide|]. rewrite Hs.
  unfold switched_state. by rewrite decide_True.
Qed.
