(* ===== verification/Entries.v ===== *)
(** * Kernel entries: ticks, blocking, waking, exit

    What the entry points of libs/scheduler.c other than the dispatcher do to the
    abstract kernel, and the proofs that the code refines it and preserves the
    scheduler's invariant: schedule with its burst accounting, the per-tick
    bookkeeping of the multilevel queues (boost and demotion), the timer tick,
    waking a process, and exit. *)
From stdpp Require Import base gmap list.
From Stdlib Require Import ZArith Lia.
From S2P Require Import Prelude Kernel Queue Scheduler SchedulerSpec Aging Lottery Dispatch.

#[local] Open Scope Z_scope.

(** ** Updates that keep the invariant *)

(** The fields the invariant does not speak about may change freely. *)
Class Benign (f : PCB → PCB) : Prop := {
  benign_pid : ∀ c, pid (f c) = pid c;
  benign_state : ∀ c, state (f c) = state c;
  benign_preempt : ∀ c, preempt_disabled (f c) = preempt_disabled c;
  benign_params : ∀ c, params_ok c → params_ok (f c)
}.

#[export] Instance benign_keeps_pid f `{!Benign f} : KeepsPid f.
Proof. intros c. apply benign_pid. Qed.
#[export] Instance benign_keeps_state f `{!Benign f} : KeepsState f.
Proof. intros c. apply benign_state. Qed.

#[export] Instance benign_est v : Benign (with_est_burst v).
Proof. split; try done. by intros c []. Qed.
#[export] Instance benign_burst v : Benign (with_burst_ticks v).
Proof. split; try done. by intros c []. Qed.
#[export] Instance benign_zero_counter : Benign (with_counter 0).
Proof. split; try done. by intros c []. Qed.
#[export] Instance benign_pid_to_wait v : Benign (with_pid_to_wait v).
Proof. split; try done. by intros c []. Qed.
#[export] Instance benign_signals v : Benign (with_pending_signals v).
Proof. split; try done. by intros c []. Qed.
#[export] Instance benign_queue_priority v : Benign (with_queue_priority v).
Proof. split; try done. by intros c []. Qed.
#[export] Instance benign_messages v : Benign (with_messages_buffer v).
Proof. split; try done. by intros c []. Qed.

Lemma Inv_update d a p f `{!Benign f} : Inv d a → Inv d (a_update p f a).
Proof.
  intros [HW Hh Hr Hrun Hp Hpre Hsl]. split.
  - apply WF_update; [apply _|done|]. intros _. apply _.
  - intros q x. rewrite a_queue_update. apply Hh.
  - intros x c (c0 & Hc0 & ->)%update_lookup_inv Hi Hs. apply queued_update, (Hr x c0); try done.
    rewrite <- Hs. case_decide; [|done]. by rewrite benign_state.
  - intros x c (c0 & Hc0 & ->)%update_lookup_inv Hs. apply (Hrun x c0); [done|].
    rewrite <- Hs. case_decide; [|done]. by rewrite benign_state.
  - intros x c (c0 & Hc0 & ->)%update_lookup_inv. specialize (Hp x c0 Hc0).
    case_decide; [|done]. by apply benign_params.
  - intros x c (c0 & Hc0 & ->)%update_lookup_inv. rewrite a_cur_update, <- (Hpre x c0 Hc0).
    case_decide; [|done]. by apply benign_preempt.
  - exact Hsl.
Qed.

(** An update of a function of the current contents, as a plain store. *)
Lemma sim_store_at k a p c v (f : Z → PCB → PCB) `{!∀ x, NextNeutral (f x)} :
  R k a → a_pcbs a !! p = Some c → sim k (store p (f v)) tt (a_update p (f v) a).
Proof. intros HR Hc. apply sim_store_last; [apply _|done|by eexists]. Qed.

Lemma a_update_id a p f : (∀ c, a_pcbs a !! p = Some c → f c = c) → a_update p f a = a.
Proof.
  intros H. destruct (a_pcbs a !! p) as [c|] eqn:E.
  - rewrite (a_update_put _ _ _ _ E), (H c) by done. by apply a_put_id.
  - unfold a_update. apply a_set_pcbs_id, map_eq. intros i.
    destruct (decide (p = i)) as [<-|Hne]; [by rewrite lookup_alter_eq, E|by rewrite lookup_alter_ne].
Qed.

(** ** schedule: the burst estimate of a process that blocks *)

(** est_burst becomes the mean of the estimate and of the measured burst. *)
Definition account (c : PCB) : PCB :=
  with_burst_ticks 0 (with_est_burst (Z.quot (s64 (burst_ticks c + est_burst c)) 2) c).

Definition blocked (c : PCB) : bool :=
  negb (state c =? PROCESS_RUNNING) && negb (state c =? PROCESS_READY).

Definition a_account (a : AKernel) : AKernel :=
  if decide (a_cur a = init_process) then a
  else a_update (a_cur a) (λ c, if blocked c then account c else c) a.

Definition a_schedule_call (a : AKernel) : AKernel :=
  a_schedule (a_update (a_cur a) (with_counter 0) (a_account a)).

#[export] Instance benign_account : Benign (λ c, if blocked c then account c else c).
Proof. split; intros c; destruct (blocked c); try done. by intros []. Qed.

Lemma Inv_account d a : Inv d a → Inv d (a_account a).
Proof. intros HI. unfold a_account. case_decide; [done|]. by apply Inv_update; [apply _|]. Qed.

Lemma account_sim k a c :
  R k a → a_pcbs a !! a_cur a = Some c →
  sim k (if negb (bool_decide (a_cur a = init_process))
             && negb (state c =? PROCESS_RUNNING) && negb (state c =? PROCESS_READY)
         then store (a_cur a) (with_est_burst (Z.quot (s64 (burst_ticks c + est_burst c)) 2));;
              store (a_cur a) (with_burst_ticks 0)
         else mret tt) tt (a_account a).
Proof.
  intros HR Hc. unfold a_account. case_decide as Hd.
  { rewrite bool_decide_eq_true_2 by done. by apply sim_ret. }
  rewrite bool_decide_eq_false_2, <- andb_assoc by done. fold (blocked c). simpl.
  destruct (blocked c) eqn:Hb.
  - eapply sim_store; [apply _|done|by eexists|]. intros k1 HR1.
    eapply sim_ext; [|apply sim_store_last; [apply _|done|by apply a_update_is_Some]].
    rewrite a_update_update. apply a_update_ext. intros c1 Hc1. simplify_eq. by rewrite Hb.
  - rewrite a_update_id; [by apply sim_ret|]. intros c1 Hc1. simplify_eq. by rewrite Hb.
Qed.

Lemma schedule_sim k a :
  R k a → Inv 0 a → sim k schedule tt (a_schedule_call a) ∧ Inv 0 (a_schedule_call a) ∧
    ∃ k', R k' (a_schedule_call a).
Proof.
  intros HR HI. destruct (wf_current _ (inv_WF _ _ HI)) as [c Hc].
  pose proof (Inv_account _ _ HI) as HI1. set (a1 := a_account a) in *.
  assert (a_cur a1 = a_cur a) as Ecur by (unfold a1, a_account; by case_decide).
  assert (is_Some (a_pcbs a1 !! a_cur a)) as Hc1 by (rewrite <- Ecur; apply HI1).
  assert (Inv 0 (a_update (a_cur a) (with_counter 0) a1)) as HI2 by (by apply Inv_update; [apply _|]).
  assert (sim k schedule tt (a_schedule_call a)) as Hs.
  { unfold schedule, a_schedule_call. eapply sim_current; [done|].
    eapply sim_load; [done|exact Hc|]. intros c' Hc' ->.
    eapply sim_bind; [apply (account_sim k a _ HR Hc)|]. intros k1 HR1.
    eapply sim_store; [apply _|done|done|]. intros k2 HR2. by apply _schedule_sim. }
  split; [done|]. destruct Hs as (k' & _ & HR'). split; [|by exists k'].
  assert (∃ k2, R k2 (a_update (a_cur a) (with_counter 0) a1)) as [k2 HR2].
  { destruct (account_sim k a c HR Hc) as (k1 & _ & HR1).
    destruct (sim_store_last k1 a1 (a_cur a) (with_counter 0) HR1 Hc1) as (k2 & _ & ?). by exists k2. }
  by eapply a_schedule_Inv.
Qed.

(** ** The boost of the multilevel queues *)

(** Every queued process goes to level 0, the higher levels first, and every
    process has level 0. *)
Definition a_boosted_queues (ml : list (list ptr)) : list (list ptr) :=
  mjoin ml :: replicate (pred (length ml)) [].

Definition a_boost (a : AKernel) : AKernel :=
  mk_AKernel (a_pcbs a) (a_ready a) (a_boosted_queues (a_ml a))
    (with_ml_ticks_since_boost 0
       (with_queue_level (replicate (Z.to_nat N_PROCESSES) 0) (a_globals a))).

(** The kernel while the boost runs: other levels [lv] and other queues [ml]. *)
Definition boosting (ml : list (list ptr)) (lv : list Z) (a : AKernel) : AKernel :=
  mk_AKernel (a_pcbs a) (a_ready a) ml (with_queue_level lv (a_globals a)).

Definition levels_ok (lv : list Z) : Prop :=
  length lv = Z.to_nat N_PROCESSES ∧ Forall (λ l, 0 ≤ l < ML_MAX_LEVELS) lv.

Lemma levels_ok_insert lv i v :
  levels_ok lv → 0 ≤ v < ML_MAX_LEVELS → levels_ok (<[i := v]> lv).
Proof. intros [Hl Hf] Hv. split; [by rewrite length_insert|by apply Forall_insert]. Qed.

Lemma set_queue_level_sim k a i v :
  R k a → length (queue_level (a_globals a)) = Z.to_nat N_PROCESSES → 0 ≤ i < N_PROCESSES →
  sim k (set_queue_level i v) tt
    (a_set_globals (with_queue_level (<[Z.to_nat i := v]> (queue_level (a_globals a)))) a).
Proof.
  intros HR Hl Hi. unfold set_queue_level. eapply sim_global; [done|].
  eapply sim_require; [apply array_set_Some; rewrite Hl; done|]. by apply sim_set_global_last.
Qed.

Lemma WF_boosting a ml lv :
  WF a → levels_ok lv → (∀ p, p ∈ mjoin ml → queued a p) → WF (boosting ml lv a).
Proof.
  intros [Hi Hc Hq Hl Hp Hps] Hlv Hml. split; try done.
  intros p Hx. apply Hq. apply queued_iff in Hx. simpl in Hx.
  apply elem_of_app in Hx as [Hx|Hx]; [by exists READY_QUEUE|auto].
Qed.

Lemma a_enqueue_ready a p q :
  (∃ c, a_pcbs a !! p = Some c ∧ state c = PROCESS_READY) →
  a_enqueue q p a = a_set_queue q (a_queue a q ++ [p]) a.
Proof.
  intros (c & Hc & Hs). unfold a_enqueue. rewrite a_update_id; [done|].
  intros c1 Hc1. rewrite Hc in Hc1. injection Hc1 as <-. rewrite <- Hs. by destruct c.
Qed.

Lemma dequeued_not_queued k a q p l :
  R k a → valid_queue q → a_queue a q = p :: l → ¬ queued (a_set_queue q l a) p.
Proof.
  intros HR Hq El [q' Hx]. pose proof (R_disjoint _ _ HR) as [Hnd Hdis].
  destruct (decide (q = q')) as [<-|Hne].
  - rewrite a_queue_set in Hx by (done || apply HR). specialize (Hnd q). rewrite El in Hnd.
    by apply NoDup_cons in Hnd as [? _].
  - rewrite a_queue_set_ne in Hx by done. apply Hne. eapply Hdis; [|done]. rewrite El. set_solver.
Qed.

(** The processes the boost moves, as the invariant describes them. *)
Definition movable (a : AKernel) (l : list ptr) : Prop :=
  ∀ p, p ∈ l → ∃ c, a_pcbs a !! p = Some c ∧ state c = PROCESS_READY ∧
    p ≠ init_process ∧ 0 ≤ pid c < N_PROCESSES.

Lemma boost_move_sim k a ml lv q0 p c :
  R k (boosting (q0 :: ml) lv a) → levels_ok lv → a_pcbs a !! p = Some c →
  state c = PROCESS_READY → p ≠ init_process → 0 ≤ pid c < N_PROCESSES →
  ¬ queued (boosting (q0 :: ml) lv a) p →
  sim k (set_queue_level (pid c) 0;; enqueue_process_to (ML_QUEUE 0) (Some p)) tt
    (boosting ((q0 ++ [p]) :: ml) (<[Z.to_nat (pid c) := 0]> lv) a).
Proof.
  intros HR Hlv Hc Hs Hi Hpid Hnq. eapply sim_bind; [apply set_queue_level_sim; [done|apply Hlv|done]|].
  intros k1 HR1. eapply sim_ext; [|apply enqueue_process_to_sim; [exact HR1|unfold valid_queue, ML_MAX_LEVELS; lia|done|by eexists|]].
  - rewrite a_enqueue_ready by (by eexists). done.
  - intros Hq. apply Hnq. apply queued_iff in Hq. by apply queued_iff.
Qed.

Lemma boost_queue_sim fuel k a lv q l q0 mid rest :
  movable a l → (length l < fuel)%nat → (S (length mid) = q)%nat →
  (q < Z.to_nat ML_MAX_LEVELS)%nat → levels_ok lv →
  R k (boosting ((q0 :: mid) ++ l :: rest) lv a) →
  ∃ lv', levels_ok lv' ∧
    sim k (boost_queue fuel (ML_QUEUE q)) tt (boosting (((q0 ++ l) :: mid) ++ [] :: rest) lv' a).
Proof.
  revert k lv l q0. induction fuel as [|fuel IH]; intros k lv l q0 Hwf Hf Hq Hqv Hlv HR; [lia|].
  cbn [boost_queue].
  assert (a_queue (boosting ((q0 :: mid) ++ l :: rest) lv a) (ML_QUEUE q) = l) as Eq.
  { simpl. rewrite <- Hq. simpl. by rewrite list_lookup_middle. }
  assert (∀ x, a_set_queue (ML_QUEUE q) x (boosting ((q0 :: mid) ++ l :: rest) lv a)
     = boosting ((q0 :: mid) ++ x :: rest) lv a) as Eset.
  { intros x. unfold boosting, a_set_queue. simpl. f_equal. rewrite <- Hq. simpl.
    f_equal. rewrite insert_app_r_alt by done. by rewrite Nat.sub_diag. }
  pose proof (dequeue_process_from_sim k _ (ML_QUEUE q) HR Hqv) as Hdq. rewrite Eq, Eset in Hdq.
  destruct l as [|p l]; simpl in Hdq.
  - exists lv. split; [done|]. eapply sim_bind; [exact Hdq|]. intros k1 HR1.
    rewrite app_nil_r. by apply sim_ret.
  - destruct (Hwf p) as (c & Hc & Hs & Hi & Hpid); [set_solver|].
    pose proof (dequeued_not_queued k _ (ML_QUEUE q) _ _ HR Hqv Eq) as Hnq. rewrite Eset in Hnq.
    destruct Hdq as (k1 & Hk1 & HR1).
    pose proof (boost_move_sim k1 a _ lv q0 p c HR1 Hlv Hc Hs Hi Hpid Hnq) as Hmove.
    destruct Hmove as (k2 & Hk2 & HR2).
    destruct (IH k2 (<[Z.to_nat (pid c) := 0]> lv) l (q0 ++ [p])) as (lv' & Hlv' & k3 & Hk3 & HR3);
      [intros x Hx; apply Hwf; set_solver|simpl in Hf; lia|done|done|by apply levels_ok_insert|done|].
    exists lv'. split; [done|]. exists k3. rewrite <- app_assoc in HR3. split; [|done].
    erewrite bind_done by exact Hk1.
    destruct (R_heap_lookup k1 _ p c HR1 Hc) as (c' & Hc' & ->).
    erewrite bind_done by (by apply load_some).
    change (pid (erase_next c')) with (pid c') in Hk2.
    rewrite <- bind_assoc. erewrite bind_done by exact Hk2. exact Hk3.
Qed.

Lemma boost_level_sim k a lv q l q0 mid rest :
  movable a l → (S (length mid) = q)%nat → (q < Z.to_nat ML_MAX_LEVELS)%nat → levels_ok lv →
  R k (boosting ((q0 :: mid) ++ l :: rest) lv a) →
  ∃ lv', levels_ok lv' ∧
    sim k (queue ← ml_queue_ref (Z.of_nat q); fuel ← gets queue_fuel; boost_queue fuel queue) tt
      (boosting (((q0 ++ l) :: mid) ++ [] :: rest) lv' a).
Proof.
  intros Hwf Hq Hqv Hlv HR.
  destruct (boost_queue_sim (queue_fuel k) k a lv q l q0 mid rest) as (lv' & Hlv' & Hs); try done.
  { pose proof (queue_fuel_enough k _ (ML_QUEUE q) HR Hqv) as H. simpl in H.
    rewrite <- Hq in H. simpl in H. by rewrite list_lookup_middle in H. }
  exists lv'. split; [done|]. apply ml_queue_ref_sim; [unfold ML_MAX_LEVELS in *; lia|].
  rewrite Nat2Z.id. by apply sim_gets.
Qed.

Lemma zero_levels_step (lv : list Z) j :
  (j < length lv)%nat →
  <[j := 0]> (replicate j 0 ++ drop j lv) = replicate (S j) 0 ++ drop (S j) lv.
Proof.
  intros Hj. destruct (lookup_lt_is_Some_2 lv j Hj) as [x Hx].
  rewrite (drop_S lv x j Hx), insert_app_r_alt by (by rewrite length_replicate).
  rewrite length_replicate, Nat.sub_diag. simpl.
  rewrite (cons_middle 0), app_assoc. f_equal. by rewrite <- replicate_S_end.
Qed.

Lemma zero_levels_sim k a ml lv :
  R k (boosting ml lv a) → length lv = Z.to_nat N_PROCESSES →
  sim k (for_loop (Z.to_nat N_PROCESSES) 0 (λ i, set_queue_level i 0)) tt
    (boosting ml (replicate (Z.to_nat N_PROCESSES) 0) a).
Proof.
  intros HR Hl. set (inv i := boosting ml (replicate (Z.to_nat i) 0 ++ drop (Z.to_nat i) lv) a).
  assert (boosting ml (replicate (Z.to_nat N_PROCESSES) 0) a = inv (0 + Z.of_nat (Z.to_nat N_PROCESSES))) as ->.
  { unfold inv. rewrite drop_ge by (rewrite Hl; done). by rewrite app_nil_r. }
  apply sim_for_loop; [|done]. intros j k1 Hj HR1.
  assert (Z.to_nat j < length lv)%nat as Hjl by (rewrite Hl; unfold N_PROCESSES in *; lia).
  eapply sim_ext; [|apply set_queue_level_sim; [exact HR1| |unfold N_PROCESSES in *; lia]].
  - unfold inv, boosting, a_set_globals. cbn [a_pcbs a_ready a_ml a_globals queue_level with_queue_level].
    rewrite zero_levels_step by done. by replace (Z.to_nat (j + 1)) with (S (Z.to_nat j)) by lia.
  - simpl. rewrite length_app, length_replicate, length_drop. lia.
Qed.

Lemma queue_movable a l : WF a → (∀ p, p ∈ l → queued a p) → movable a l.
Proof.
  intros HW Hl p Hp. destruct (wf_queued _ HW p (Hl p Hp)) as (Hi & c & Hc & Hs).
  exists c. split; [done|]. split; [done|]. split; [done|]. by apply (wf_pid _ HW p).
Qed.

Lemma boost_sim k a policy :
  R k a → WF a → n_levels policy = ML_MAX_LEVELS → sim k (boost policy) tt (a_boost a).
Proof.
  intros HR HW Hn. pose proof (R_alevels _ _ HR) as Hl.
  assert (∀ n, movable a (a_queue a (ML_QUEUE n))) as Hmov
    by (intros n; apply queue_movable; [done|]; intros p Hp; by exists (ML_QUEUE n)).
  assert (a = boosting (a_ml a) (queue_level (a_globals a)) a) as Ea by (by destruct a as [? ? ? []]).
  rewrite Ea in HR. unfold a_boost.
  destruct (a_ml a) as [|l0 [|l1 [|l2 [|l3 [|l4 [|]]]]]] eqn:Eml; try discriminate Hl. clear Hl Ea.
  pose proof (Hmov 1%nat) as M1. pose proof (Hmov 2%nat) as M2. pose proof (Hmov 3%nat) as M3.
  pose proof (Hmov 4%nat) as M4. simpl in M1, M2, M3, M4. rewrite Eml in M1, M2, M3, M4. simpl in *.
  unfold boost. rewrite Hn. change (Z.to_nat (ML_MAX_LEVELS - 1)) with 4%nat. cbn [for_loop].
  destruct (boost_level_sim k a (queue_level (a_globals a)) 1 l1 l0 [] [l2; l3; l4] M1)
    as (lv1 & Hlv1 & S1); [done|vm_compute; lia|apply (wf_levels _ HW)|exact HR|].
  destruct S1 as (k1 & E1 & HR1).
  destruct (boost_level_sim k1 a lv1 2 l2 (l0 ++ l1) [[]] [l3; l4] M2) as (lv2 & Hlv2 & S2);
    [done|vm_compute; lia|done|exact HR1|]. destruct S2 as (k2 & E2 & HR2).
  destruct (boost_level_sim k2 a lv2 3 l3 ((l0 ++ l1) ++ l2) [[]; []] [l4] M3) as (lv3 & Hlv3 & S3);
    [done|vm_compute; lia|done|exact HR2|]. destruct S3 as (k3 & E3 & HR3).
  destruct (boost_level_sim k3 a lv3 4 l4 (((l0 ++ l1) ++ l2) ++ l3) [[]; []; []] [] M4) as (lv4 & Hlv4 & S4);
    [done|vm_compute; lia|done|exact HR3|]. destruct S4 as (k4 & E4 & HR4).
  do 4 (apply sim_assoc; eapply sim_run; [first [exact E1|exact E2|exact E3|exact E4]|]).
  eapply sim_run; [reflexivity|].
  eapply sim_bind; [eapply zero_levels_sim; [exact HR4|apply Hlv4]|]. intros k5 HR5.
  eapply sim_ext; [|by apply sim_set_global_last]. unfold boosting, a_boosted_queues, a_set_globals. simpl.
  by rewrite !app_nil_r, <- !app_assoc.
Qed.

(** ** The per-tick bookkeeping *)
Lemma Inv_globals d a f :
  Inv d a → current_process (f (a_globals a)) = a_cur a →
  processes (f (a_globals a)) = processes (a_globals a) →
  active_algorithm (f (a_globals a)) = a_alg a →
  levels_ok (queue_level (f (a_globals a))) →
  n_processes (f (a_globals a)) = n_processes (a_globals a) → Inv d (a_set_globals f a).
Proof.
  intros [[Hi Hc Hq Hl Hp Hps] Hh Hr Hrun Hpar Hpre Hsl] E1 E2 E3 E4 E5.
  assert (a_cur (a_set_globals f a) = a_cur a) as Ec by exact E1.
  split; rewrite ?Ec; try done.
  - split; rewrite ?Ec; simpl; rewrite ?E2; done.
  - intros q p Hx. simpl. rewrite E3. by apply (Hh q p).
  - unfold slots_ok. simpl. by rewrite E2, E5.
Qed.

Lemma queued_boost a p : queued (a_boost a) p ↔ queued a p.
Proof.
  rewrite !queued_iff. simpl. rewrite !elem_of_app. split; [intros [?|[?|Hx]]|intros [?|?]]; auto.
  apply list_elem_of_join in Hx as (l & Hp & Hl). apply elem_of_replicate in Hl as [-> _]. set_solver.
Qed.

Lemma Inv_boost d a : Inv d a → ¬ home (a_alg a) READY_QUEUE → Inv d (a_boost a).
Proof.
  intros HI Hm. pose proof (multi_home a (inv_home _ _ HI) Hm) as Hempty.
  destruct HI as [[Hi Hc Hq Hl Hp Hps] Hh Hr Hrun Hpar Hpre Hsl]. split; try done.
  - split; try done; [intros p Hx; apply Hq; by apply queued_boost|].
    split; [done|]. by apply Forall_replicate.
  - intros [|n] p Hx; [simpl in Hx; rewrite Hempty in Hx; set_solver|].
    simpl. fold (a_alg a). destruct (a_alg a); done.
  - intros p c Hpc Hi' Hs. apply queued_boost. by eapply Hr.
Qed.

Definition a_count_boost (policy : MultilevelPolicy) (a : AKernel) : AKernel :=
  if 0 <? boost_period policy then
    let t := s32 (ml_ticks_since_boost (a_globals a) + 1) in
    let a := a_set_globals (with_ml_ticks_since_boost t) a in
    if boost_period policy <=? t then a_boost a else a
  else a.

(** The level of a process, and the process at level [l]. *)
Definition a_set_level (i l : Z) (a : AKernel) : AKernel :=
  a_set_globals (with_queue_level (<[Z.to_nat i := l]> (queue_level (a_globals a)))) a.

Definition expired (c : PCB) : bool := (counter c <=? 0) && (preempt_disabled c =? 0).

Definition a_demote (policy : MultilevelPolicy) (a : AKernel) : AKernel :=
  if negb (demote_on_expiry policy) then a
  else if decide (a_cur a = init_process) then a else
  match a_pcbs a !! a_cur a with
  | None => a
  | Some c =>
    if negb (expired c) then a
    else if a_level a (a_cur a) <? n_levels policy - 1
         then a_set_level (pid c) (a_level a (a_cur a) + 1) a else a
  end.

Definition a_ml_tick (policy : MultilevelPolicy) (a : AKernel) : AKernel :=
  a_demote policy (a_count_boost policy a).

Definition a_on_tick (a : AKernel) : AKernel :=
  match algorithm_ml_policy (a_alg a) with
  | Some policy => a_ml_tick policy a
  | None => a
  end.

Lemma ml_policy_facts alg policy :
  algorithm_ml_policy alg = Some policy →
  n_levels policy = ML_MAX_LEVELS ∧ ¬ home alg READY_QUEUE.
Proof. destruct alg; simpl; try done; intros [= <-]; split; try done; by intros H. Qed.

Lemma count_boost_sim k d a policy :
  R k a → Inv d a → algorithm_ml_policy (a_alg a) = Some policy →
  sim k (if 0 <? boost_period policy then
           t ← get_global ml_ticks_since_boost;
           let t := s32 (t + 1) in
           set_global (with_ml_ticks_since_boost t);;
           if boost_period policy <=? t then boost policy else mret tt
         else mret tt) tt (a_count_boost policy a) ∧ Inv d (a_count_boost policy a) ∧
  a_alg (a_count_boost policy a) = a_alg a ∧ a_cur (a_count_boost policy a) = a_cur a ∧
  a_pcbs (a_count_boost policy a) = a_pcbs a.
Proof.
  intros HR HI Hpol. destruct (ml_policy_facts _ _ Hpol) as [Hn Hm]. unfold a_count_boost.
  assert (∀ t, Inv d (a_set_globals (with_ml_ticks_since_boost t) a)) as HI1.
  { intros t. apply Inv_globals; try done. apply (wf_levels _ (inv_WF _ _ HI)). }
  destruct (0 <? boost_period policy); [|split; [by apply sim_ret|done]].
  set (t := s32 _). split; [|destruct (boost_period policy <=? t); [|by split]].
  - eapply sim_global; [done|]. fold t. eapply sim_set_global; [done|]. intros k1 HR1.
    case_bool; [|by apply sim_ret]. apply boost_sim; try done. apply HI1.
  - split; [by apply Inv_boost|done].
Qed.

Lemma demote_sim k d a policy :
  R k a → Inv d a → n_levels policy = ML_MAX_LEVELS →
  sim k (current ← get_current;
         if negb (demote_on_expiry policy) then mret tt
         else if decide (current = init_process) then mret tt else
         c ← load current;
         if negb ((counter c <=? 0) && (preempt_disabled c =? 0)) then mret tt else
         level ← get_queue_level (pid c);
         if level <? n_levels policy - 1 then set_queue_level (pid c) (s32 (level + 1))
         else mret tt) tt (a_demote policy a) ∧ Inv d (a_demote policy a) ∧
  a_alg (a_demote policy a) = a_alg a ∧ a_cur (a_demote policy a) = a_cur a ∧
  a_pcbs (a_demote policy a) = a_pcbs a.
Proof.
  intros HR HI Hn. pose proof (inv_WF _ _ HI) as HW. destruct (wf_current _ HW) as [c Hc].
  destruct (WF_level a _ c HW Hc) as (lv & Hlv & Hr & El). destruct (wf_levels _ HW) as [Hl1 Hl2].
  destruct (wf_pid _ HW _ _ Hc) as [Hpid _].
  unfold a_demote. rewrite Hc, El.
  assert (0 ≤ lv + 1 < ML_MAX_LEVELS → Inv d (a_set_level (pid c) (lv + 1) a)) as Hset.
  { intros Hlv1. apply Inv_globals; try done. by apply levels_ok_insert. }
  split.
  - eapply sim_current; [done|]. fold (a_cur a). case_bool; [by apply sim_ret|].
    case_decide; [by apply sim_ret|]. eapply sim_load; [done|exact Hc|]. intros c' Hc' ->.
    change (expired (erase_next c')) with ((counter c' <=? 0) && (preempt_disabled c' =? 0)).
    case_bool; [by apply sim_ret|]. eapply get_queue_level_sim; [done|exact Hlv|].
    case_bool; [|by apply sim_ret]. rewrite s32_id by (unfold ML_MAX_LEVELS in *; lia).
    by apply set_queue_level_sim.
  - case_bool; [done|]. case_decide; [done|]. case_bool; [done|]. case_bool; [|done].
    split; [|done]. apply Hset. rewrite Hn in *. lia.
Qed.

Lemma on_tick_sim k d a :
  R k a → Inv d a →
  sim k (default (mret tt) (on_tick (descriptor (a_alg a)))) tt (a_on_tick a) ∧
  Inv d (a_on_tick a) ∧ a_alg (a_on_tick a) = a_alg a ∧ a_cur (a_on_tick a) = a_cur a ∧
  a_pcbs (a_on_tick a) = a_pcbs a.
Proof.
  intros HR HI. unfold a_on_tick. destruct (algorithm_ml_policy (a_alg a)) as [policy|] eqn:Hpol.
  - destruct (ml_policy_facts _ _ Hpol) as [Hn _].
    destruct (count_boost_sim k d a policy HR HI Hpol) as (S1 & HI1 & E1 & E2 & E3).
    destruct S1 as (k1 & Hk1 & HR1).
    destruct (demote_sim k1 d _ policy HR1 HI1 Hn) as (S2 & HI2 & E4 & E5 & E6).
    unfold a_ml_tick. split; [|split; [done|split; [congruence|split; congruence]]].
    assert (default (mret tt) (on_tick (descriptor (a_alg a))) = _multilevel_on_tick) as ->
      by (destruct (a_alg a); done).
    unfold _multilevel_on_tick, active_policy. apply sim_assoc. eapply sim_global; [done|].
    eapply sim_require; [exact Hpol|]. eapply sim_run; [exact Hk1|]. exact S2.
  - split; [|done]. destruct (a_alg a); try done; by apply sim_ret.
Qed.

(** ** The timer tick *)
Definition a_charge (a : AKernel) : AKernel :=
  a_update (a_cur a) (λ c, with_burst_ticks (s64 (burst_ticks c + 1))
                             (with_counter (s64 (counter c - 1)) c)) a.

Definition a_reschedule (a : AKernel) : AKernel :=
  a_set_globals (with_irq_enabled false) (a_schedule (a_set_globals (with_irq_enabled true) a)).

(** The current process keeps the CPU: time left, or a critical section. *)
Definition a_keeps_cpu (a : AKernel) : bool :=
  match a_pcbs a !! a_cur a with
  | Some c => (0 <? counter c) || (0 <? preempt_disabled c)
  | None => true
  end.

Definition a_tick (a : AKernel) : AKernel :=
  let a := a_on_tick (a_charge a) in
  if a_keeps_cpu a then a else
  let a := a_update (a_cur a) (with_counter 0) a in
  if is_preemptive (descriptor (a_alg a)) then a_reschedule a else a.

#[export] Instance benign_charge :
  Benign (λ c, with_burst_ticks (s64 (burst_ticks c + 1)) (with_counter (s64 (counter c - 1)) c)).
Proof. split; try done. intros c [H1 H2 H3]. split; try done. apply s64_range. Qed.

Lemma Inv_charge d a : Inv d a → Inv d (a_charge a).
Proof. intros HI. by apply Inv_update; [apply _|]. Qed.

Lemma Inv_irq d a b : Inv d a → Inv d (a_set_globals (with_irq_enabled b) a).
Proof. intros HI. apply Inv_globals; try done. apply (wf_levels _ (inv_WF _ _ HI)). Qed.

Lemma reschedule_sim k a :
  R k a → Inv 0 a → sim k (enable_irq;; _schedule;; disable_irq) tt (a_reschedule a) ∧
    Inv 0 (a_reschedule a).
Proof.
  intros HR HI. pose proof (Inv_irq _ _ true HI) as HI1. unfold a_reschedule.
  set (a1 := a_set_globals (with_irq_enabled true) a) in *.
  destruct (sim_set_global_last k a (with_irq_enabled true) HR) as (k1 & Hk1 & HR1).
  split.
  - eapply sim_run; [exact Hk1|]. eapply sim_bind; [by apply _schedule_sim|].
    intros k2 HR2. by apply sim_set_global_last.
  - apply Inv_irq. by eapply a_schedule_Inv.
Qed.

Lemma charge_sim {B} k a c (m : unit → M Kernel B) r a' :
  R k a → a_pcbs a !! a_cur a = Some c →
  (∀ k1, R k1 (a_charge a) → sim k1 (m tt) r a') →
  sim k (store (a_cur a) (with_counter (s64 (counter c - 1)));;
         store (a_cur a) (with_burst_ticks (s64 (burst_ticks c + 1))) ≫= m) r a'.
Proof.
  intros HR Hc Hm. eapply sim_store; [apply _|done|by eexists|]. intros k1 HR1.
  eapply sim_store; [apply _|done|by apply a_update_is_Some|]. intros k2 HR2. apply Hm.
  assert (a_charge a = a_update (a_cur a) (with_burst_ticks (s64 (burst_ticks c + 1)))
            (a_update (a_cur a) (with_counter (s64 (counter c - 1))) a)) as ->; [|done].
  rewrite a_update_update. apply a_update_ext. intros c1 Hc1. by simplify_eq.
Qed.

Lemma tick_sim k a d :
  R k a → Inv d a → 0 ≤ d →
  sim k handle_timer_tick tt (a_tick a) ∧ Inv d (a_tick a).
Proof.
  intros HR HI Hd. destruct (wf_current _ (inv_WF _ _ HI)) as [c Hc].
  pose proof (Inv_charge _ _ HI) as HI1. set (a1 := a_charge a) in *.
  assert (∃ k1, R k1 a1) as [k1' HR1'].
  { destruct (charge_sim k a c (λ _, mret tt) tt a1 HR Hc) as (k1 & _ & ?); [|by exists k1].
    intros k1 HR1. by apply sim_ret. }
  destruct (on_tick_sim k1' d a1 HR1' HI1) as (_ & HI2 & E2 & E3 & E4).
  unfold a_tick. fold a1. set (a2 := a_on_tick a1) in *.
  destruct (wf_current _ (inv_WF _ _ HI2)) as [c2 Hc2].
  assert (a_cur a1 = a_cur a) as Ecur1 by done. assert (a_alg a1 = a_alg a) as Ealg1 by done.
  unfold a_keeps_cpu. rewrite Hc2.
  set (a3 := a_update (a_cur a2) (with_counter 0) a2).
  assert (a_alg a3 = a_alg a) as -> by (rewrite <- Ealg1; exact E2).
  assert (Inv d a3) as HI3 by (by apply Inv_update; [apply _|]).
  pose proof (inv_preempt _ _ HI2 _ _ Hc2) as Hpre. rewrite decide_True in Hpre by done.
  set (result := if _ || _ then a2 else _).
  assert (∀ k2, R k2 a2 → sim k2 (
    current ← get_current;
    c ← load current;
    if (0 <? counter c) || (0 <? preempt_disabled c) then mret tt else
    store current (with_counter 0);;
    if negb (is_preemptive (descriptor (a_alg a))) then mret tt else
    enable_irq;; _schedule;; disable_irq) tt result ∧ Inv d result) as Hend.
  { intros k2 HR2. destruct (sim_store_last k2 a2 (a_cur a2) (with_counter 0) HR2) as (k3 & Hk3 & HR3);
      [apply HI2|]. fold a3 in HR3.
    assert ((0 <? counter c2) || (0 <? preempt_disabled c2) = false → d = 0) as Hd0.
    { intros H. zify_bools. lia. }
    unfold result. destruct ((0 <? counter c2) || (0 <? preempt_disabled c2)) eqn:Ek.
    - split; [|done]. eapply sim_current; [done|]. eapply sim_load; [done|exact Hc2|].
      intros c' _ ->. change ((0 <? counter c') || (0 <? preempt_disabled c') = true) in Ek.
      rewrite Ek. by apply sim_ret.
    - specialize (Hd0 eq_refl). clear Hpre. subst d. destruct (reschedule_sim k3 a3 HR3 HI3) as [Hs HI4].
      split; [|by destruct (is_preemptive _)].
      eapply sim_current; [done|]. eapply sim_load; [done|exact Hc2|].
      intros c' _ ->. change ((0 <? counter c') || (0 <? preempt_disabled c') = false) in Ek.
      rewrite Ek. eapply sim_run; [exact Hk3|].
      destruct (is_preemptive (descriptor (a_alg a))); simpl; [exact Hs|by apply sim_ret]. }
  split.
  - unfold handle_timer_tick. eapply sim_current; [done|].
    eapply sim_load; [done|exact Hc|]. intros c' Hc' ->.
    apply (charge_sim k a _ _ _ _ HR Hc). intros k1 HR1. eapply sim_global; [done|].
    eapply sim_bind; [apply (on_tick_sim k1 d a1 HR1 HI1)|]. intros k2 HR2. by apply Hend.
  - destruct (on_tick_sim k1' d a1 HR1' HI1) as ((k2 & _ & HR2) & _). by apply (Hend k2).
Qed.

(** ** Waking a process *)

(** [p->state = PROCESS_READY; enqueue_process(p);] *)
Definition a_wake (p : ptr) (a : AKernel) : AKernel :=
  a_enqueue_process p (a_update p (with_state PROCESS_READY) a).

Lemma insert_by_burst_ext f g p l : (∀ x, f x = g x) → insert_by_burst f p l = insert_by_burst g p l.
Proof. intros H. induction l as [|x l IH]; simpl; [done|]. by rewrite !H, IH. Qed.

Lemma a_update_ready_twice a p :
  a_update p (with_state PROCESS_READY) (a_update p (with_state PROCESS_READY) a) =
  a_update p (with_state PROCESS_READY) a.
Proof. by rewrite a_update_update. Qed.

Lemma a_enqueue_policy_ready alg p a :
  a_enqueue_policy alg p (a_update p (with_state PROCESS_READY) a) = a_enqueue_policy alg p a.
Proof.
  assert (a_level (a_update p (with_state PROCESS_READY) a) p = a_level a p) as El.
  { unfold a_level. rewrite a_update_lookup. by destruct (a_pcbs a !! p). }
  assert (∀ x, a_burst (a_update p (with_state PROCESS_READY) a) x = a_burst a x) as Eb.
  { intros x. unfold a_burst. destruct (decide (p = x)) as [<-|Hne].
    - rewrite a_update_lookup. by destruct (a_pcbs a !! p).
    - by rewrite a_update_lookup_ne. }
  unfold a_enqueue_policy, a_enqueue, a_enqueue_sorted.
  rewrite El, !a_queue_update, a_update_ready_twice, (insert_by_burst_ext _ _ _ _ Eb). by destruct alg.
Qed.

Lemma wake_spec p a :
  a_wake p a = if decide (p = init_process) then a_update p (with_state PROCESS_READY) a
               else a_enqueue_policy (a_alg a) p a.
Proof.
  unfold a_wake, a_enqueue_process. case_decide; [done|]. apply a_enqueue_policy_ready.
Qed.

Lemma Inv_wake d a p :
  Inv d a → length (a_ml a) = Z.to_nat ML_MAX_LEVELS → is_Some (a_pcbs a !! p) → Inv d (a_wake p a).
Proof.
  intros HI Hl Hp. rewrite wake_spec. case_decide as Hi; [|by apply Inv_enqueue_policy].
  subst. destruct HI as [HW Hh Hr Hrun Hpar Hpre Hsl]. split.
  - apply WF_update; [apply _|done|]. intros Hq. by apply (wf_queued _ HW) in Hq as [? _].
  - intros q x. rewrite a_queue_update. apply Hh.
  - intros x c (c0 & Hc0 & ->)%update_lookup_inv Hne. rewrite decide_False by done. intros Hs.
    apply queued_update. by eapply Hr.
  - intros x c (c0 & Hc0 & ->)%update_lookup_inv. case_decide; [done|]. by apply Hrun.
  - intros x c (c0 & Hc0 & ->)%update_lookup_inv. specialize (Hpar x c0 Hc0). by case_decide; destruct Hpar.
  - intros x c (c0 & Hc0 & ->)%update_lookup_inv. rewrite a_cur_update, <- (Hpre x c0 Hc0). by case_decide.
  - exact Hsl.
Qed.

Lemma wake_lookup p a x :
  a_pcbs (a_wake p a) !! x = if decide (x = p) then with_state PROCESS_READY <$> a_pcbs a !! x
                             else a_pcbs a !! x.
Proof.
  rewrite wake_spec. destruct (decide (p = init_process)).
  - case_decide as E; [subst x; apply a_update_lookup|by apply a_update_lookup_ne].
  - rewrite a_pcbs_enqueue_policy. case_decide as E; [subst x; apply lookup_alter_eq|by apply lookup_alter_ne].
Qed.

(** A process that has been woken is in a queue. *)
Lemma wake_queued d a p :
  Inv d (a_wake p a) → p ≠ init_process → is_Some (a_pcbs a !! p) → queued (a_wake p a) p.
Proof.
  intros HI Hi [c Hc]. apply (inv_ready _ _ HI p (with_state PROCESS_READY c)); [|done|done].
  by rewrite wake_lookup, decide_True, Hc.
Qed.

(** A state that makes a process neither RUNNING nor READY. *)
Definition suspended (s : Z) : Prop := s ≠ PROCESS_RUNNING ∧ s ≠ PROCESS_READY.

Lemma Inv_suspend d a p s :
  Inv d a → suspended s → ¬ queued a p → Inv d (a_update p (with_state s) a).
Proof.
  intros [HW Hh Hr Hrun Hpar Hpre Hsl] [Hs1 Hs2] Hq. split.
  - apply WF_update; [apply _|done|]. done.
  - intros q x. rewrite a_queue_update. apply Hh.
  - intros x c (c0 & Hc0 & ->)%update_lookup_inv Hne. case_decide; [done|]. intros Hs.
    apply queued_update. by eapply Hr.
  - intros x c (c0 & Hc0 & ->)%update_lookup_inv. case_decide; [done|]. by apply Hrun.
  - intros x c (c0 & Hc0 & ->)%update_lookup_inv. specialize (Hpar x c0 Hc0). by case_decide; destruct Hpar.
  - intros x c (c0 & Hc0 & ->)%update_lookup_inv. rewrite a_cur_update, <- (Hpre x c0 Hc0). by case_decide.
  - exact Hsl.
Qed.

Lemma not_ready_not_queued d a p c :
  Inv d a → a_pcbs a !! p = Some c → state c ≠ PROCESS_READY → ¬ queued a p.
Proof.
  intros HI Hc Hs Hq. destruct (wf_queued _ (inv_WF _ _ HI) p Hq) as (_ & c1 & Hc1 & Hs1). congruence.
Qed.

Lemma wake_sim k d a p c :
  R k a → Inv d a → a_pcbs a !! p = Some c → state c ≠ PROCESS_READY →
  sim k (store p (with_state PROCESS_READY);; enqueue_process (Some p)) tt (a_wake p a) ∧
  Inv d (a_wake p a).
Proof.
  intros HR HI Hc Hs. pose proof (not_ready_not_queued _ _ _ _ HI Hc Hs) as Hq.
  split; [|apply Inv_wake; [done|apply HR|by eexists]].
  eapply sim_store; [apply _|done|by eexists|]. intros k1 HR1.
  apply enqueue_process_sim; [done| |by apply a_update_is_Some; eexists|by rewrite queued_update].
  apply WF_update; [apply _|apply HI|]. done.
Qed.

(** ** Process exit *)

(** Waking every process that waits for [me], from slot [i] of the table on. *)
Definition a_wake_if_waiting (me : Z) (i : Z) (a : AKernel) : AKernel :=
  match array_get (processes (a_globals a)) i with
  | Some (Some p) =>
    match a_pcbs a !! p with
    | Some c =>
      if (state c =? PROCESS_WAITING_ANOTHER_PROCESS) && (pid_to_wait c =? me)
      then a_wake p (a_update p (with_pid_to_wait (-1)) a) else a
    | None => a
    end
  | _ => a
  end.

Fixpoint a_wake_waiting (n : nat) (me i : Z) (a : AKernel) : AKernel :=
  match n with
  | O => a
  | S n => a_wake_waiting n me (i + 1) (a_wake_if_waiting me i a)
  end.

Definition a_pid (a : AKernel) (p : ptr) : Z :=
  match a_pcbs a !! p with Some c => pid c | None => 0 end.

Definition a_exit_ready (a : AKernel) : AKernel :=
  let a := a_preempt 1 a in
  let a := a_update (a_cur a) (with_state PROCESS_ZOMBIE) a in
  let a := a_wake_waiting (Z.to_nat N_PROCESSES) (a_pid a (a_cur a)) 0 a in
  a_preempt (-1) a.

Lemma a_globals_enqueue_process p a : a_globals (a_enqueue_process p a) = a_globals a.
Proof. unfold a_enqueue_process. case_decide; [done|]. apply a_globals_enqueue_policy. Qed.

Lemma a_globals_wake_if me i a : a_globals (a_wake_if_waiting me i a) = a_globals a.
Proof.
  unfold a_wake_if_waiting. destruct (array_get _ _) as [[p|]|]; try done.
  destruct (a_pcbs a !! p); [|done]. case_bool; [|done].
  unfold a_wake. by rewrite a_globals_enqueue_process.
Qed.

Lemma a_pid_update a p f `{!KeepsPid f} x : a_pid (a_update p f a) x = a_pid a x.
Proof.
  unfold a_pid. destruct (decide (p = x)) as [<-|Hne].
  - rewrite a_update_lookup. destruct (a_pcbs a !! p); [|done]. apply keeps_pid.
  - by rewrite a_update_lookup_ne.
Qed.

Lemma a_pid_wake p a x : a_pid (a_wake p a) x = a_pid a x.
Proof.
  rewrite wake_spec. case_decide; [apply a_pid_update, _|].
  rewrite <- (a_pid_update a p (with_state PROCESS_READY) x). unfold a_pid.
  by rewrite a_pcbs_enqueue_policy.
Qed.

Lemma a_pid_wake_if me i a x : a_pid (a_wake_if_waiting me i a) x = a_pid a x.
Proof.
  unfold a_wake_if_waiting. destruct (array_get _ _) as [[p|]|]; try done.
  destruct (a_pcbs a !! p); [|done]. case_bool; [|done].
  rewrite a_pid_wake. apply a_pid_update, _.
Qed.

Lemma exit_body_sim k d a i :
  R k a → Inv d a → 0 ≤ i < N_PROCESSES →
  sim k (ps ← get_global processes;
         o ← require OutOfBounds (array_get ps i);
         match o with
         | None => mret tt
         | Some p =>
           c ← load p;
           current ← get_current;
           cc ← load current;
           if (state c =? PROCESS_WAITING_ANOTHER_PROCESS) && (pid_to_wait c =? pid cc) then
             store p (with_state PROCESS_READY);;
             store p (with_pid_to_wait (-1));;
             enqueue_process (Some p)
           else mret tt
         end) tt (a_wake_if_waiting (a_pid a (a_cur a)) i a) ∧
  Inv d (a_wake_if_waiting (a_pid a (a_cur a)) i a).
Proof.
  intros HR HI Hi. pose proof (inv_WF _ _ HI) as HW.
  destruct (array_get_is_Some (processes (a_globals a)) i) as [o Ho].
  { rewrite (proj1 (wf_processes _ HW)). unfold N_PROCESSES in *. lia. }
  destruct (wf_current _ HW) as [cc Hcc].
  unfold a_wake_if_waiting. rewrite Ho. unfold a_pid. rewrite Hcc.
  destruct o as [p|]; [|split; [|done]; eapply sim_global; [done|];
    eapply sim_require; [exact Ho|]; by apply sim_ret].
  destruct (proj2 (wf_processes _ HW) i p Ho) as (c & Hc & _). rewrite Hc.
  assert (sim k (c ← load p;
           current ← get_current;
           cc ← load current;
           if (state c =? PROCESS_WAITING_ANOTHER_PROCESS) && (pid_to_wait c =? pid cc) then
             store p (with_state PROCESS_READY);;
             store p (with_pid_to_wait (-1));;
             enqueue_process (Some p)
           else mret tt) tt (if (state c =? PROCESS_WAITING_ANOTHER_PROCESS) && (pid_to_wait c =? pid cc)
      then a_wake p (a_update p (with_pid_to_wait (-1)) a) else a) ∧
    Inv d (if (state c =? PROCESS_WAITING_ANOTHER_PROCESS) && (pid_to_wait c =? pid cc)
      then a_wake p (a_update p (with_pid_to_wait (-1)) a) else a)) as [Hs HI'].
  { destruct ((state c =? PROCESS_WAITING_ANOTHER_PROCESS) && (pid_to_wait c =? pid cc)) eqn:Eb.
    - pose proof Eb as [Es _]%andb_true_iff. apply Z.eqb_eq in Es.
      assert (¬ queued a p) as Hnq by (eapply not_ready_not_queued; [done|exact Hc|by rewrite Es]).
      set (a1 := a_update p (with_pid_to_wait (-1)) a).
      assert (Inv d a1) as HI1 by (by apply Inv_update; [apply _|]).
      assert (is_Some (a_pcbs a1 !! p)) as Hc1 by (apply a_update_is_Some; by eexists).
      split; [|apply Inv_wake; [done|apply HR|done]].
      eapply sim_load; [done|exact Hc|]. intros c' _ ->. eapply sim_current; [done|].
      eapply sim_load; [done|exact Hcc|]. intros cc' _ ->.
      change ((state c' =? PROCESS_WAITING_ANOTHER_PROCESS) && (pid_to_wait c' =? pid cc') = true) in Eb.
      rewrite Eb.
      eapply sim_store; [apply _|done|by eexists|]. intros k1 HR1.
      eapply sim_store; [apply _|done|by apply a_update_is_Some; eexists|]. intros k2 HR2.
      assert (a_update p (with_pid_to_wait (-1)) (a_update p (with_state PROCESS_READY) a) =
              a_update p (with_state PROCESS_READY) a1) as E by (unfold a1; by rewrite !a_update_update).
      rewrite E in HR2. apply enqueue_process_sim; [done| |by apply a_update_is_Some|by rewrite !queued_update].
      apply WF_update; [apply _|apply HI1|]. by intros ?%queued_update.
    - split; [|done]. eapply sim_load; [done|exact Hc|]. intros c' _ ->. eapply sim_current; [done|].
      eapply sim_load; [done|exact Hcc|]. intros cc' _ ->.
      change ((state c' =? PROCESS_WAITING_ANOTHER_PROCESS) && (pid_to_wait c' =? pid cc') = false) in Eb.
      rewrite Eb. by apply sim_ret. }
  split; [|done]. eapply sim_global; [done|]. eapply sim_require; [exact Ho|]. exact Hs.
Qed.

(** The loop over the process table, named so that the proofs can speak of it. *)
Definition wake_body (i : Z) : M Kernel unit :=
  ps ← get_global processes;
  o ← require OutOfBounds (array_get ps i);
  match o with
  | None => mret tt
  | Some p =>
    c ← load p;
    current ← get_current;
    cc ← load current;
    if (state c =? PROCESS_WAITING_ANOTHER_PROCESS) && (pid_to_wait c =? pid cc) then
      store p (with_state PROCESS_READY);;
      store p (with_pid_to_wait (-1));;
      enqueue_process (Some p)
    else mret tt
  end.

Lemma wake_waiting_sim n k d a i :
  R k a → Inv d a → 0 ≤ i → i + Z.of_nat n ≤ N_PROCESSES →
  sim k (for_loop n i wake_body) tt (a_wake_waiting n (a_pid a (a_cur a)) i a) ∧
  Inv d (a_wake_waiting n (a_pid a (a_cur a)) i a).
Proof.
  revert k a i. induction n as [|n IH]; intros k a i HR HI Hi Hn; [split; [by apply sim_ret|done]|].
  destruct (exit_body_sim k d a i HR HI) as [Hs HI1]; [lia|].
  set (a1 := a_wake_if_waiting (a_pid a (a_cur a)) i a) in *.
  assert (a_pid a (a_cur a) = a_pid a1 (a_cur a1)) as E.
  { unfold a1 at 1. rewrite a_pid_wake_if. f_equal. unfold a_cur, a1. by rewrite a_globals_wake_if. }
  cbn [a_wake_waiting for_loop]. fold a1. rewrite E. destruct Hs as (k1 & Hk1 & HR1).
  destruct (IH k1 a1 (i + 1) HR1 HI1) as [Hs2 HI2]; [lia..|].
  split; [|done]. eapply sim_run; [exact Hk1|]. exact Hs2.
Qed.

Lemma a_wake_waiting_globals n me i a : a_globals (a_wake_waiting n me i a) = a_globals a.
Proof.
  revert i a. induction n as [|n IH]; intros i a; [done|]. simpl. by rewrite IH, a_globals_wake_if.
Qed.

Lemma running_not_queued d a : Inv d a → running a → ¬ queued a (a_cur a).
Proof.
  intros HI Hr. unfold running, a_is_running in Hr.
  destruct (a_pcbs a !! a_cur a) as [c|] eqn:Hc; [|done].
  eapply not_ready_not_queued; [done|exact Hc|]. apply Z.eqb_eq in Hr. by rewrite Hr.
Qed.

Lemma exit_sim k a :
  R k a → Inv 0 a → running a →
  sim k exit_process tt (a_schedule_call (a_exit_ready a)) ∧
  Inv 0 (a_schedule_call (a_exit_ready a)) ∧ Inv 0 (a_exit_ready a).
Proof.
  intros HR HI Hrun. pose proof (running_not_queued _ _ HI Hrun) as Hq.
  destruct (preempt_disable_sim k a HR) as (k1 & Hk1 & HR1); [apply HI|].
  pose proof (Inv_preempt 0 1 a ltac:(done) HI) as HI1. unfold a_exit_ready.
  set (a1 := a_preempt 1 a) in *.
  assert (Inv 1 (a_update (a_cur a1) (with_state PROCESS_ZOMBIE) a1)) as HI2.
  { apply Inv_suspend; [done|by split|]. intros Hx. apply Hq. by apply queued_update in Hx. }
  set (a2 := a_update (a_cur a1) (with_state PROCESS_ZOMBIE) a1) in *.
  destruct (sim_store_last k1 a1 (a_cur a1) (with_state PROCESS_ZOMBIE) HR1) as (k2 & Hk2 & HR2);
    [apply HI1|]. fold a2 in HR2.
  destruct (wake_waiting_sim (Z.to_nat N_PROCESSES) k2 1 a2 0 HR2 HI2) as [(k3 & Hk3 & HR3) HI3];
    [done|done|].
  set (a3 := a_wake_waiting _ _ _ a2) in *.
  pose proof (Inv_preempt 1 (-1) a3 ltac:(done) HI3) as HI4.
  destruct (preempt_enable_sim k3 a3 HR3) as (k4 & Hk4 & HR4); [apply HI3|].
  destruct (schedule_sim k4 _ HR4 HI4) as (Hs & HI5 & _). split; [|done].
  unfold exit_process. eapply sim_run; [exact Hk1|]. eapply sim_current; [done|].
  eapply sim_run; [exact Hk2|]. eapply sim_run; [exact Hk3|]. eapply sim_run; [exact Hk4|]. exact Hs.
Qed.

(** ** Parameters *)

(** The value sched_set_param stores, when it accepts it. *)
Definition a_set_param (p : ptr) (param value : Z) (a : AKernel) : option AKernel :=
  if decide (p = init_process) then None
  else if param =? SCHED_PARAM_PRIORITY then
    if value <? 1 then None else Some (a_update p (with_priority value) a)
  else if param =? SCHED_PARAM_TICKETS then
    if value <? 1 then None else Some (a_update p (with_tickets value) a)
  else if param =? SCHED_PARAM_QUEUE_PRIORITY then
    if (value <? 0) || (ML_MAX_LEVELS <=? value) then None
    else Some (a_set_level (a_pid a p) value (a_update p (with_queue_priority value) a))
  else None.

Lemma Inv_params_update d a p f :
  (∀ c, pid (f c) = pid c ∧ state (f c) = state c ∧ preempt_disabled (f c) = preempt_disabled c ∧
        (params_ok c → params_ok (f c))) →
  Inv d a → Inv d (a_update p f a).
Proof. intros H HI. apply Inv_update; [|done]. split; intros c; apply H. Qed.

Lemma preempt_round d a : Inv d a → 0 ≤ d < 2 ^ 30 → a_preempt (-1) (a_preempt 1 a) = a.
Proof.
  intros HI Hd. unfold a_preempt. rewrite a_cur_update, a_update_update. apply a_update_id.
  intros c Hc. pose proof (inv_preempt _ _ HI _ _ Hc) as Hp. rewrite decide_True in Hp by done.
  assert (s32 (s32 (d + 1) + -1) = d) as E by (rewrite (s32_id (d + 1)) by lia; rewrite s32_id; lia).
  unfold bump_preempt. cbn [preempt_disabled with_preempt_disabled]. rewrite Hp, E, <- Hp. by destruct c.
Qed.

Lemma a_update_comm a p f q g :
  (∀ c, f (g c) = g (f c)) → a_update p f (a_update q g a) = a_update q g (a_update p f a).
Proof.
  intros H. unfold a_update, a_set_pcbs. simpl. f_equal.
  apply map_eq. intros i.
  destruct (decide (p = q)) as [<-|Hne]; destruct (decide (p = i)) as [<-|Hi];
    try destruct (decide (q = i)) as [<-|Hi'];
    rewrite ?lookup_alter_eq, ?lookup_alter_ne, ?lookup_alter_eq, ?lookup_alter_ne by done; try done.
  destruct (a_pcbs a !! p) as [c|]; [|done]. simpl. by rewrite H.
Qed.

Lemma set_level_section d a p i v :
  Inv d a → 0 ≤ d < 2 ^ 30 →
  a_preempt (-1) (a_set_level i v (a_update p (with_queue_priority v) (a_preempt 1 a))) =
  a_set_level i v (a_update p (with_queue_priority v) a).
Proof.
  intros HI Hd. set (f := with_queue_priority v).
  change (a_set_level i v (a_preempt (-1) (a_update p f (a_preempt 1 a))) =
          a_set_level i v (a_update p f a)). f_equal.
  transitivity (a_update p f (a_preempt (-1) (a_preempt 1 a))); [|by rewrite (preempt_round d)].
  symmetry. by apply a_update_comm.
Qed.

Lemma Inv_set_level d a p v :
  Inv d a → is_Some (a_pcbs a !! p) → 0 ≤ v < ML_MAX_LEVELS → Inv d (a_set_level (a_pid a p) v a).
Proof.
  intros HI Hp Hv. apply Inv_globals; try done. simpl.
  apply levels_ok_insert; [apply (wf_levels _ (inv_WF _ _ HI))|done].
Qed.

Lemma set_param_Inv d a p param value a' :
  Inv d a → is_Some (a_pcbs a !! p) → in_long value →
  (param = SCHED_PARAM_TICKETS → value ≤ MAX_TICKETS) →
  a_set_param p param value a = Some a' → Inv d a'.
Proof.
  intros HI Hp Hv Ht. unfold a_set_param, in_long in *. case_decide; [done|].
  destruct (param =? SCHED_PARAM_PRIORITY); [|destruct (param =? SCHED_PARAM_TICKETS) eqn:Et;
    [|destruct (param =? SCHED_PARAM_QUEUE_PRIORITY); [|done]]].
  - case_bool; [done|]. intros [= <-]. apply Inv_params_update; [|done].
    intros c. repeat (split; [done|]). intros []. split; simpl; [lia|done..].
  - case_bool; [done|]. intros [= <-]. apply Inv_params_update; [|done].
    specialize (Ht Et). intros c. repeat (split; [done|]). intros [].
    split; [done..|]. unfold tickets_of. simpl. case_bool; [done|lia].
  - case_bool; [done|]. intros [= <-]. rewrite <- (a_pid_update a p (with_queue_priority value) p).
    apply Inv_set_level; [by apply Inv_update; [apply _|]|by apply a_update_is_Some|lia].
Qed.

Lemma set_param_sim k d a p param value :
  R k a → Inv d a → 0 ≤ d < 2 ^ 30 → is_Some (a_pcbs a !! p) →
  sim k (sched_set_param (Some p) param value)
    (match a_set_param p param value a with Some _ => 0 | None => -1 end)
    (default a (a_set_param p param value a)).
Proof.
  intros HR HI Hd Hp. unfold sched_set_param, a_set_param.
  case_decide; [by apply sim_ret|]. case_bool.
  { case_bool; [by apply sim_ret|].
    eapply sim_store; [apply _|done|done|]. intros. by apply sim_ret. }
  case_bool.
  { case_bool; [by apply sim_ret|].
    eapply sim_store; [apply _|done|done|]. intros. by apply sim_ret. }
  case_bool; [|by apply sim_ret]. case_bool; [by apply sim_ret|].
  eapply sim_global; [done|]. fold (a_alg a). simpl.
  set (v := match algorithm_ml_policy (a_alg a) with Some _ => _ | None => value end).
  assert (v = value) as ->.
  { unfold v. destruct (algorithm_ml_policy (a_alg a)) as [po|] eqn:Epo; [|done].
    destruct (ml_policy_facts _ _ Epo) as [-> _]. case_bool; [lia|done]. }
  rewrite s32_id by (unfold ML_MAX_LEVELS in *; lia).
  destruct (preempt_disable_sim k a HR) as (k1 & Hk1 & HR1); [apply HI|].
  pose proof (Inv_preempt d 1 a ltac:(lia) HI) as HI1.
  eapply sim_run; [exact Hk1|].
  assert (is_Some (a_pcbs (a_preempt 1 a) !! p)) as Hp1 by by apply a_update_is_Some.
  eapply sim_store; [apply _|done|done|]. intros k2 HR2.
  set (a2 := a_update p _ _) in HR2.
  assert (Inv (d + 1) a2) as HI2 by (by apply Inv_update; [apply _|]).
  assert (is_Some (a_pcbs a2 !! p)) as [c2 Hc2] by by apply a_update_is_Some.
  eapply sim_load; [done|exact Hc2|]. intros c' _ ->. change (pid (erase_next c')) with (pid c').
  assert (a_pid a p = pid c') as Epid.
  { rewrite <- (a_pid_update a (a_cur a) (bump_preempt 1)).
    rewrite <- (a_pid_update _ p (with_queue_priority value)).
    change (a_pid a2 p = pid c'). unfold a_pid. by rewrite Hc2. }
  destruct (wf_pid _ (inv_WF _ _ HI2) _ _ Hc2) as [Hpid _]. change (pid (erase_next c')) with (pid c') in Hpid.
  eapply sim_bind; [apply set_queue_level_sim; [exact HR2|apply (wf_levels _ (inv_WF _ _ HI2))|done]|].
  intros k3 HR3. eapply sim_bind; [apply preempt_enable_sim; [exact HR3|apply (inv_WF _ _ HI2)]|].
  intros k4 HR4. apply sim_ret. rewrite Epid. by rewrite <- (set_level_section d a p (pid c') value HI Hd).
Qed.

(** ** Registration of a new process *)
Definition a_register (p : ptr) (c : PCB) (a : AKernel) : AKernel :=
  a_set_globals (λ g,
    with_n_processes (n_processes g + 1)
      (with_queue_level (<[Z.to_nat (pid c) := clamp_level (a_alg a) (queue_priority c)]> (queue_level g))
        (with_processes (<[Z.to_nat (pid c) := Some p]> (processes g)) g))) (a_put p c a).

(** A new process joins the table and, when it is READY, the ready queue. *)
Definition a_add (p : ptr) (c : PCB) (a : AKernel) : AKernel :=
  let a := a_register p c a in
  if state c =? PROCESS_READY then a_enqueue_process p a else a.

Lemma clamp_level_spec alg l : clamp_level alg l = Z.max 0 (Z.min l (ML_MAX_LEVELS - 1)).
Proof.
  unfold clamp_level, ML_MAX_LEVELS.
  destruct (l <? 0) eqn:E1; [|destruct (5 <=? l) eqn:E2]; zify_bools; destruct alg; simpl;
    repeat case_bool; lia.
Qed.

Lemma clamp_level_range alg l : 0 ≤ clamp_level alg l < ML_MAX_LEVELS.
Proof. rewrite clamp_level_spec. unfold ML_MAX_LEVELS. lia. Qed.

Lemma array_get_insert {A} (l : list A) i j (x : A) :
  0 ≤ i < Z.of_nat (length l) → 0 ≤ j →
  array_get (<[Z.to_nat i := x]> l) j = if decide (i = j) then Some x else array_get l j.
Proof.
  intros Hi Hj. unfold array_get. assert (j <? 0 = false) as -> by (apply Z.ltb_ge; lia).
  case_decide as E.
  - subst. apply list_lookup_insert_eq. lia.
  - apply list_lookup_insert_ne. lia.
Qed.

Lemma WF_register a p c :
  WF a → slots_ok (a_globals a) → a_pcbs a !! p = None →
  pid c = n_processes (a_globals a) → n_processes (a_globals a) < N_PROCESSES →
  WF (a_register p c a) ∧ slots_ok (a_globals (a_register p c a)).
Proof.
  intros [Hi Hc Hq [Hl1 Hl2] Hp [Hps1 Hps2]] (Hn & Hsl & Hfull) Hnew Hpid Hlt.
  assert (∀ x, is_Some (a_pcbs a !! x) → <[p := c]> (a_pcbs a) !! x = a_pcbs a !! x) as Hold.
  { intros x [cx Hx]. rewrite lookup_insert_ne; [done|]. congruence. }
  assert (0 ≤ pid c < Z.of_nat (length (processes (a_globals a)))) as Hr by (rewrite Hps1; unfold N_PROCESSES in *; lia).
  assert (∀ i, 0 ≤ i → array_get (<[Z.to_nat (pid c) := Some p]> (processes (a_globals a))) i =
    if decide (pid c = i) then Some (Some p) else array_get (processes (a_globals a)) i) as Hget
    by (intros; by apply array_get_insert).
  split; [split|].
  - change (is_Some (<[p := c]> (a_pcbs a) !! init_process)). by rewrite Hold.
  - change (is_Some (<[p := c]> (a_pcbs a) !! a_cur a)). by rewrite Hold.
  - intros x Hx. assert (queued a x) as Hx' by (destruct Hx as [q Hx]; exists q; by destruct q).
    destruct (Hq x Hx') as (Hi' & cx & Hcx & Hs). split; [done|]. exists cx. split; [|done].
    change (<[p := c]> (a_pcbs a) !! x = Some cx). by rewrite Hold.
  - simpl. apply levels_ok_insert; [by split|apply clamp_level_range].
  - intros x cx Hx. change (<[p := c]> (a_pcbs a) !! x = Some cx) in Hx. simpl.
    destruct (decide (x = p)) as [->|Hne].
    + rewrite lookup_insert_eq in Hx. simplify_eq. split; [lia|]. rewrite Hget by lia. by rewrite decide_True.
    + rewrite lookup_insert_ne in Hx by done. destruct (Hp x cx Hx) as [Hr' Hg]. split; [done|].
      rewrite Hget by lia. rewrite decide_False; [done|]. intros E. rewrite <- E, Hpid, Hsl in Hg by lia. done.
  - simpl. rewrite length_insert. split; [done|]. intros i x Hx.
    pose proof (array_get_Some _ _ _ Hx) as Hi'. rewrite Hget in Hx by lia.
    destruct (decide (pid c = i)) as [<-|Hne].
    + simplify_eq. exists c. split; [apply lookup_insert_eq|done].
    + destruct (Hps2 i x Hx) as (cx & Hcx & <-). exists cx. split; [|done].
      change (<[p := c]> (a_pcbs a) !! x = Some cx). rewrite Hold; [done|by eexists].
  - split; simpl; [lia|]. split; intros i Hi'; rewrite Hget by lia.
    + rewrite decide_False by lia. apply Hsl. lia.
    + case_decide; [by eexists|]. apply Hfull. lia.
Qed.

Lemma Inv_register d a p c :
  Inv d a → a_pcbs a !! p = None → pid c = n_processes (a_globals a) →
  n_processes (a_globals a) < N_PROCESSES → suspended (state c) → params_ok c →
  preempt_disabled c = 1 → Inv d (a_register p c a).
Proof.
  intros HI Hnew Hpid Hlt Hs Hpar Hpre.
  destruct (WF_register a p c (inv_WF _ _ HI) (inv_slots _ _ HI) Hnew Hpid Hlt) as [HW Hsl].
  assert (a_cur a ≠ p) as Hcur.
  { intros <-. destruct (wf_current _ (inv_WF _ _ HI)). congruence. }
  assert (∀ x cx, a_pcbs (a_register p c a) !! x = Some cx →
    (x = p ∧ cx = c) ∨ (x ≠ p ∧ a_pcbs a !! x = Some cx)) as Hb.
  { intros x cx Hx. change (<[p := c]> (a_pcbs a) !! x = Some cx) in Hx.
    destruct (decide (x = p)) as [->|Hne]; [rewrite lookup_insert_eq in Hx; left; split; congruence|].
    rewrite lookup_insert_ne in Hx by done. by right. }
  destruct Hs as [Hs1 Hs2]. split; try done.
  - intros q x Hx. apply (inv_home _ _ HI q x). by destruct q.
  - intros x cx [[-> ->]|[Hne Hx]]%Hb Hi Hs; [done|].
    destruct (inv_ready _ _ HI x cx Hx Hi Hs) as [q Hq]. exists q. by destruct q.
  - intros x cx [[-> ->]|[Hne Hx]]%Hb Hs; [done|]. by apply (inv_running _ _ HI x cx).
  - intros x cx [[-> ->]|[Hne Hx]]%Hb; [done|]. by apply (inv_params _ _ HI x).
  - intros x cx [[-> ->]|[Hne Hx]]%Hb; change (a_cur (a_register p c a)) with (a_cur a).
    + by rewrite decide_False by congruence.
    + by apply (inv_preempt _ _ HI x).
Qed.

(** The two stores of the code before the process is enqueued. *)
Definition a_register_start (p : ptr) (c : PCB) (a : AKernel) : AKernel :=
  a_set_globals (with_queue_level
      (<[Z.to_nat (pid c) := clamp_level (a_alg a) (queue_priority c)]> (queue_level (a_globals a))))
    (a_set_globals (with_processes (<[Z.to_nat (pid c) := Some p]> (processes (a_globals a))))
      (a_put p c a)).

Lemma a_register_split p c a :
  a_register p c a = a_set_globals (λ g, with_n_processes (n_processes g + 1) g) (a_register_start p c a).
Proof. by destruct a as [? ? ? []]. Qed.

Lemma a_enqueue_n_processes p v a :
  a_enqueue_process p (a_set_globals (with_n_processes v) a) =
  a_set_globals (with_n_processes v) (a_enqueue_process p a).
Proof.
  unfold a_enqueue_process. case_decide; [done|].
  change (active_algorithm (a_globals (a_set_globals (with_n_processes v) a))) with (a_alg a).
  fold (a_alg a). destruct (a_alg a); simpl; try done; unfold a_enqueue; by rewrite !a_queue_update.
Qed.

(** The process added is READY: what [a_add] does is to wake it. *)
Lemma a_add_wake p c a :
  state c = PROCESS_READY → p ≠ init_process →
  a_add p c a = a_wake p (a_register p (with_state PROCESS_ZOMBIE c) a).
Proof.
  intros Hs Hi. unfold a_add. rewrite Hs, Z.eqb_refl, wake_spec, decide_False by done.
  unfold a_enqueue_process. rewrite decide_False by done.
  rewrite <- a_enqueue_policy_ready.
  set (b := a_register p (with_state PROCESS_ZOMBIE c) a).
  assert (a_update p (with_state PROCESS_READY) b = a_register p c a) as Eb.
  { unfold b, a_register, a_put, a_update, a_set_pcbs, a_set_globals. simpl. f_equal.
    apply map_eq. intros x. destruct (decide (p = x)) as [<-|Hne].
    - rewrite lookup_alter_eq, !lookup_insert_eq. simpl. f_equal. rewrite <- Hs. by destruct c.
    - by rewrite lookup_alter_ne, !lookup_insert_ne. }
  rewrite <- (a_enqueue_policy_ready (a_alg b) p b), Eb. apply a_enqueue_policy_ready.
Qed.

Lemma a_add_Inv d a p c :
  length (a_ml a) = Z.to_nat ML_MAX_LEVELS → Inv d a → a_pcbs a !! p = None → pid c = n_processes (a_globals a) →
  n_processes (a_globals a) < N_PROCESSES → state c = PROCESS_READY → params_ok c →
  preempt_disabled c = 1 → Inv d (a_add p c a).
Proof.
  intros HR HI Hnew Hpid Hlt Hs Hpar Hpre.
  assert (p ≠ init_process) as Hi.
  { intros ->. destruct (wf_init _ (inv_WF _ _ HI)). congruence. }
  rewrite a_add_wake by done. apply Inv_wake.
  - apply Inv_register; try done. by destruct Hpar.
  - exact HR.
  - eexists. apply lookup_insert_eq.
Qed.

Lemma add_process_sim k d a p c :
  R k (a_put p c a) → Inv d a → a_pcbs a !! p = None → pid c = n_processes (a_globals a) →
  n_processes (a_globals a) < N_PROCESSES → state c = PROCESS_READY →
  sim k (add_process_to_scheduler p) 0 (a_add p c a).
Proof.
  intros HR HI Hnew Hpid Hlt Hs. pose proof (inv_WF _ _ HI) as HW.
  destruct (WF_register a p c HW (inv_slots _ _ HI) Hnew Hpid Hlt) as [HWr _].
  destruct (inv_slots _ _ HI) as [Hn _]. destruct (wf_levels _ HW) as [Hll _].
  destruct (wf_processes _ HW) as [Hpl _].
  unfold add_process_to_scheduler. eapply sim_global; [done|].
  eapply sim_load; [done|apply a_put_lookup|]. intros c' _ Ec.
  assert (pid c' = pid c ∧ queue_priority c' = queue_priority c ∧ state c' = state c) as (-> & -> & ->)
    by (by rewrite Ec).
  change (n_processes (a_globals (a_put p c a))) with (n_processes (a_globals a)).
  assert ((N_PROCESSES <=? n_processes (a_globals a)) || (N_PROCESSES <=? pid c) = false) as ->
    by (apply orb_false_iff; split; apply Z.leb_gt; lia).
  eapply sim_global; [done|]. eapply sim_require; [apply array_set_Some; simpl; rewrite Hpl; unfold N_PROCESSES in *; lia|].
  eapply sim_set_global; [done|]. intros k1 HR1. eapply sim_global; [done|].
  eapply sim_bind; [apply set_queue_level_sim; [exact HR1|done|lia]|]. intros k2 HR2.
  change (R k2 (a_register_start p c a)) in HR2. rewrite Hs, Z.eqb_refl.
  assert (WF (a_register_start p c a)) as HW2.
  { rewrite a_register_split in HWr. by destruct HWr as [? ? ? ? ? ?]. }
  assert (¬ queued a p) as Hnq.
  { intros Hq. destruct (wf_queued _ HW p Hq) as (_ & cx & Hcx & _). congruence. }
  eapply sim_bind.
  { apply enqueue_process_sim; [exact HR2|exact HW2|eexists; apply lookup_insert_eq|].
    intros [q Hq]. apply Hnq. exists q. by destruct q. }
  intros k3 HR3. eapply sim_global; [done|]. eapply sim_set_global; [done|]. intros k4 HR4.
  apply sim_ret. rewrite a_globals_enqueue_process in HR4.
  change (n_processes (a_globals (a_register_start p c a))) with (n_processes (a_globals a)) in HR4.
  rewrite s32_id in HR4 by (unfold N_PROCESSES in *; lia). unfold a_add. rewrite Hs, Z.eqb_refl.
  rewrite a_register_split. rewrite <- a_enqueue_n_processes in HR4. exact HR4.
Qed.

(** ** Blocking: the current process stops being runnable and gives up the CPU *)
Definition a_block (s : Z) (a : AKernel) : AKernel :=
  a_schedule_call (a_update (a_cur a) (with_state s) a).

Lemma block_sim k a s :
  R k a → Inv 0 a → running a → suspended s →
  sim k (p ← get_current; store p (with_state s);; schedule) tt (a_block s a) ∧ Inv 0 (a_block s a).
Proof.
  intros HR HI Hrun Hs.
  assert (Inv 0 (a_update (a_cur a) (with_state s) a)) as HI1.
  { apply Inv_suspend; [done|done|]. by eapply running_not_queued. }
  destruct (sim_store_last k a (a_cur a) (with_state s) HR) as (k1 & Hk1 & HR1); [apply HI|].
  destruct (schedule_sim k1 _ HR1 HI1) as (Hsched & HI2 & _). split; [|done].
  eapply sim_current; [done|]. eapply sim_run; [exact Hk1|]. exact Hsched.
Qed.
