(* ===== verification/Boot.v ===== *)
(** * Boot: the initial kernel and small running kernels

    The state the static initialisers of libs/scheduler.c give satisfies the
    scheduler's invariant, and so does every kernel obtained by registering new
    processes; [demo] is a kernel with three processes, the concrete instance
    the development's examples use. *)
From stdpp Require Import base gmap list.
From Stdlib Require Import ZArith Lia.
From S2P Require Import Prelude Kernel Queue Scheduler SchedulerSpec Aging Lottery Dispatch Entries.

#[local] Open Scope Z_scope.

Definition boot_akernel (alg : algorithm) (timer : nat → Z) : AKernel :=
  mk_AKernel {[ init_process := INIT_PROCESS ]} [] (replicate (Z.to_nat ML_MAX_LEVELS) [])
    (boot_globals alg timer).

Lemma boot_queue_nil alg timer q : a_queue (boot_akernel alg timer) q = [].
Proof. destruct q as [|n]; [done|]. simpl. by do 5 (destruct n as [|n]; [done|]). Qed.

Lemma boot_R alg timer : R (boot_kernel alg timer) (boot_akernel alg timer).
Proof.
  split; try done.
  - intros q Hq. exists QUEUE_INIT. rewrite boot_queue_nil. split; [|done].
    destruct q as [|n]; [done|]. simpl in Hq. unfold ML_MAX_LEVELS in Hq.
    do 5 (destruct n as [|n]; [done|]). lia.
  - split; intros q; rewrite boot_queue_nil; [constructor|]. intros. set_solver.
Qed.

Lemma boot_Inv alg timer : Inv 0 (boot_akernel alg timer).
Proof.
  assert (∀ p c, a_pcbs (boot_akernel alg timer) !! p = Some c → p = init_process ∧ c = INIT_PROCESS) as Hb.
  { intros p c. simpl. intros [<- <-]%lookup_singleton_Some. done. }
  assert (∀ p, ¬ queued (boot_akernel alg timer) p) as Hq.
  { intros p [q Hx]. rewrite boot_queue_nil in Hx. set_solver. }
  split.
  - split.
    + by eexists.
    + by eexists.
    + by intros p ?%Hq.
    + split; [done|]. by apply Forall_replicate.
    + by intros p c [-> ->]%Hb.
    + split; [done|]. intros i p Hi. unfold array_get in Hi. simpl in Hi. case_match; [done|].
      exists INIT_PROCESS. destruct (Z.to_nat i) as [|n] eqn:En; simpl in Hi.
      * simplify_eq. split; [done|]. simpl. lia.
      * exfalso. clear -Hi. by do 63 (destruct n as [|n]; [discriminate|]).
  - intros q p Hx. rewrite boot_queue_nil in Hx. set_solver.
  - intros p c [-> ->]%Hb. done.
  - by intros p c [-> ->]%Hb.
  - by intros p c [-> ->]%Hb.
  - by intros p c [-> ->]%Hb.
  - split; [done|]. split; [|intros i [Hi1 Hi2]; simpl in Hi2; assert (i = 0) as -> by lia; by eexists].
    intros i [Hi1 Hi2]. unfold array_get. simpl in *. unfold N_PROCESSES in Hi2.
    destruct (i <? 0) eqn:E; zify_bools; [lia|].
    destruct (Z.to_nat i) as [|n] eqn:En; [lia|]. simpl.
    assert (n < 63)%nat as Hn by lia. clear -Hn. by do 63 (destruct n as [|n]; [done|]); lia.
Qed.

(** ** A new PCB in the heap *)
Lemma R_new k a p c :
  R k a → a_pcbs a !! p = None → next_ready c = None →
  R (with_heap (<[p := c]> (heap k)) k) (a_put p c a).
Proof.
  intros [Hp Hqs Hg Hl Hal Hd] Hnew Hnx. split; try done.
  - assert (erase_next c = c) as E by (destruct c; simpl in *; by subst).
    simpl. by rewrite erase_insert, Hp, E.
  - intros q Hq. destruct (Hqs q Hq) as (v & Hv & Hlv & Htv). exists v. split; [by destruct q|].
    rewrite a_queue_put. split; [|done]. apply lseg_frame with (heap k); [|done].
    intros x Hx. simpl. apply next_insert_ne. intros ->.
    destruct (lseg_dom _ _ _ _ _ Hlv Hx) as [cx Hcx]. rewrite Hp in Hnew. unfold erase in Hnew.
    by rewrite lookup_fmap, Hcx in Hnew.
Qed.

(** A page is turned into a PCB and registered. *)
Definition spawn (p : ptr) (c : PCB) : M Kernel Z :=
  modify (λ k, with_heap (<[p := c]> (heap k)) k);; add_process_to_scheduler p.

Lemma spawn_sim k d a p c :
  R k a → Inv d a → a_pcbs a !! p = None → next_ready c = None →
  pid c = n_processes (a_globals a) → n_processes (a_globals a) < N_PROCESSES →
  state c = PROCESS_READY → params_ok c → preempt_disabled c = 1 →
  sim k (spawn p c) 0 (a_add p c a) ∧ Inv d (a_add p c a).
Proof.
  intros HR HI Hnew Hnx Hpid Hlt Hs Hpar Hpre. split; [|by apply a_add_Inv; [apply HR|..]].
  unfold spawn, sim. rewrite bind_modify. by apply (add_process_sim _ d); [apply R_new|..].
Qed.

(** ** Three processes *)

(** A READY process as copy_process leaves it: inherited parameters, ten ticks. *)
Definition fresh (pid est prio tick level : Z) : PCB :=
  mk_PCB zero_cpu_context PROCESS_READY 10 prio est 0 level tick 1 pid 0 no_files zero_mm
    zero_messages_buffer 0 0 None.

Definition run_spawn (p : ptr) (c : PCB) (k : Kernel) : Kernel :=
  match spawn p c k with Done (_, k') => k' | Fault _ => k end.

Definition demo (alg : algorithm) : Kernel :=
  run_spawn 300 (fresh 3 5 2 30 2) (run_spawn 200 (fresh 2 1 9 20 1)
    (run_spawn 100 (fresh 1 7 4 10 0) (boot_kernel alg (λ n, Z.of_nat n)))).

Definition a_demo (alg : algorithm) : AKernel :=
  a_add 300 (fresh 3 5 2 30 2) (a_add 200 (fresh 2 1 9 20 1)
    (a_add 100 (fresh 1 7 4 10 0) (boot_akernel alg (λ n, Z.of_nat n)))).

Lemma run_spawn_ok k d a p c :
  R k a → Inv d a → a_pcbs a !! p = None → next_ready c = None →
  pid c = n_processes (a_globals a) → n_processes (a_globals a) < N_PROCESSES →
  state c = PROCESS_READY → params_ok c → preempt_disabled c = 1 →
  R (run_spawn p c k) (a_add p c a) ∧ Inv d (a_add p c a).
Proof.
  intros HR HI Hnew Hnx Hpid Hlt Hs Hpar Hpre.
  destruct (spawn_sim k d a p c HR HI Hnew Hnx Hpid Hlt Hs Hpar Hpre) as [(k' & Hk' & HR') HI'].
  unfold run_spawn. by rewrite Hk'.
Qed.

Lemma demo_ok alg : R (demo alg) (a_demo alg) ∧ Inv 0 (a_demo alg).
Proof.
  assert (∀ i e p t l, 1 ≤ p < 2 ^ 63 → 1 ≤ t ≤ MAX_TICKETS → params_ok (fresh i e p t l)) as Hpar.
  { intros i e p t l Hp Ht. split; simpl; try done. unfold tickets_of. simpl. case_bool; lia. }
  destruct (run_spawn_ok _ 0 _ 100 (fresh 1 7 4 10 0)
    (boot_R alg (λ n, Z.of_nat n)) (boot_Inv alg (λ n, Z.of_nat n))) as [R1 I1];
    [by destruct alg; vm_compute..|by apply Hpar|done|].
  destruct (run_spawn_ok _ 0 _ 200 (fresh 2 1 9 20 1) R1 I1) as [R2 I2];
    [by destruct alg; vm_compute..|by apply Hpar|done|].
  apply (run_spawn_ok _ 0 _ 300 (fresh 3 5 2 30 2) R2 I2);
    [by destruct alg; vm_compute..|by apply Hpar|done].
Qed.

(** The same kernel once the dispatcher has given the CPU to one of them. *)
Definition demo_run (alg : algorithm) : Kernel :=
  match _schedule (demo alg) with Done (_, k) => k | Fault _ => demo alg end.
Definition a_demo_run (alg : algorithm) : AKernel := a_schedule (a_demo alg).

Lemma demo_run_ok alg :
  R (demo_run alg) (a_demo_run alg) ∧ Inv 0 (a_demo_run alg) ∧ running (a_demo_run alg).
Proof.
  destruct (demo_ok alg) as [HR HI]. destruct (_schedule_sim _ _ HR HI) as (k & Hk & HR').
  unfold demo_run, a_demo_run. rewrite Hk. split; [done|].
  split; [by eapply a_schedule_Inv|by eapply a_schedule_running].
Qed.
