(* ===== verification/Ipc.v ===== *)
(** * Interprocess communication: libs/ipc.c

    The message ring of a process, the two blocking operations and signals.  A
    blocking operation is modelled by one turn of its loop: the turn either
    returns or leaves the CPU through schedule, and the process takes the next
    turn when it is dispatched again. *)
From stdpp Require Import base gmap list.
From Stdlib Require Import ZArith Lia.
From S2P Require Import Prelude Kernel Mem CString Queue Scheduler SchedulerSpec Dispatch Entries Boot.

#[local] Open Scope Z_scope.

(** ** The ring, whose address [&owner->messages_buffer] is the owner's *)
Definition push_message (owner : ptr) (message : Message) : M Kernel Z :=
  c ← load owner;
  let b := messages_buffer c in
  let next_head := s32 (head b + 1) in
  let next_head := if MAX_MESSAGES_PER_PROCESS <? next_head then 0 else next_head in
  if next_head =? tail b then mret (-1) else
  slots ← require OutOfBounds (array_set (buffer b) (head b) message);
  store owner (with_messages_buffer (mk_MessagesCircularBuffer next_head (tail b) slots));;
  destination ← nonnull (destination_process message);
  d ← load destination;
  (if state d =? PROCESS_WAITING_TO_RECEIVE_MESSAGE then
     store destination (with_state PROCESS_READY);;
     enqueue_process (Some destination)
   else mret tt);;
  mret 0.

(** The second component is the message the pointer argument receives. *)
Definition pop_message (owner : ptr) (message : Message) : M Kernel (Z * Message) :=
  c ← load owner;
  let b := messages_buffer c in
  if head b =? tail b then mret (-1, message) else
  let next_tail := s32 (tail b + 1) in
  let next_tail := if MAX_MESSAGES_PER_PROCESS <? next_tail then 0 else next_tail in
  slot ← require OutOfBounds (array_get (buffer b) (tail b));
  text ← require OutOfBounds (strcpy_array (body message) (body slot));
  store owner (with_messages_buffer (mk_MessagesCircularBuffer (head b) next_tail (buffer b)));;
  mret (0, mk_Message (source_process slot) (destination_process slot) text).

(** ** Sending and receiving *)

(** The message send_message builds in its stack frame, [frame] being what the
    frame held before. *)
Definition make_message (destination : ptr) (frame text : list Z) : M Kernel Message :=
  current ← get_current;
  body ← require OutOfBounds (strcpy_array frame text);
  mret (mk_Message (Some current) (Some destination) body).

(** One turn of the [do ... while]: [Some r] when send_message returns [r]. *)
Definition send_turn (source destination : ptr) (message : Message) : M Kernel (option Z) :=
  push_ok ← push_message destination message;
  if push_ok =? -1 then
    store source (with_state PROCESS_WAITING_TO_SEND_MESSAGE);; schedule;; mret None
  else mret (Some 0).

Definition send_message (source destination : ptr) (frame text : list Z) : M Kernel (option Z) :=
  message ← make_message destination frame text;
  send_turn source destination message.

(** The body of the loops over the process table that wake, in receive_message
    the processes that wait to send, in the UART handler those that wait for input. *)
Definition wake_slot (waiting : Z) (i : Z) : M Kernel unit :=
  ps ← get_global processes;
  o ← require OutOfBounds (array_get ps i);
  p ← nonnull o;
  c ← load p;
  if state c =? waiting then
    store p (with_state PROCESS_READY);; enqueue_process (Some p)
  else mret tt.

(** One turn of receive_message: [Some text] when it returns, [text] being what
    the caller's array [out] then holds. *)
Definition receive_turn (destination : ptr) (frame : Message) (out : list Z) : M Kernel (option (list Z)) :=
  r ← pop_message destination frame;
  if r.1 =? 0 then
    text ← require OutOfBounds (strcpy_array out (body r.2));
    for_loop (Z.to_nat N_PROCESSES) 0 (wake_slot PROCESS_WAITING_TO_SEND_MESSAGE);;
    mret (Some text)
  else
    current ← get_current;
    store current (with_state PROCESS_WAITING_TO_RECEIVE_MESSAGE);;
    schedule;;
    mret None.

Definition send_signal (destination : ptr) (signal_flag : Z) : M Kernel Z :=
  c ← load destination;
  store destination (with_pending_signals (s32 (Z.lor (pending_signals c) (s32 (Z.shiftl 1 signal_flag)))));;
  mret 0.

(** ** The ring as a list of messages *)

(** The messages pushed and not yet popped, while neither index has wrapped. *)
Record ring (b : MessagesCircularBuffer) (l : list Message) : Prop := mk_ring {
  ring_length : length (buffer b) = Z.to_nat MAX_MESSAGES_PER_PROCESS;
  ring_bounds : 0 ≤ tail b ≤ head b ∧ head b ≤ MAX_MESSAGES_PER_PROCESS;
  ring_list : l = drop (Z.to_nat (tail b)) (take (Z.to_nat (head b)) (buffer b))
}.

Lemma ring_zero : ring zero_messages_buffer [].
Proof. by split. Qed.

Definition push_ring (b : MessagesCircularBuffer) (message : Message) : MessagesCircularBuffer :=
  mk_MessagesCircularBuffer (head b + 1) (tail b) (<[Z.to_nat (head b) := message]> (buffer b)).

Definition pop_ring (b : MessagesCircularBuffer) : MessagesCircularBuffer :=
  mk_MessagesCircularBuffer (head b) (tail b + 1) (buffer b).

Lemma ring_push b l message :
  ring b l → head b < MAX_MESSAGES_PER_PROCESS → ring (push_ring b message) (l ++ [message]).
Proof.
  intros [Hl Hb ->] Hh. unfold MAX_MESSAGES_PER_PROCESS in *. split; simpl.
  - by rewrite length_insert.
  - unfold MAX_MESSAGES_PER_PROCESS. lia.
  - replace (Z.to_nat (head b + 1)) with (S (Z.to_nat (head b))) by lia.
    rewrite (take_S_r _ _ message) by (apply list_lookup_insert_eq; lia).
    rewrite take_insert_ge by lia. rewrite drop_app_le; [done|]. rewrite length_take. lia.
Qed.

Lemma ring_pop b message l :
  ring b (message :: l) →
  array_get (buffer b) (tail b) = Some message ∧ ring (pop_ring b) l ∧ tail b < head b.
Proof.
  intros [Hl Hb El]. unfold MAX_MESSAGES_PER_PROCESS in *.
  assert (tail b < head b) as Hlt.
  { destruct (decide (tail b < head b)) as [|Hge]; [done|]. exfalso.
    rewrite drop_ge in El; [done|]. rewrite length_take. lia. }
  assert (buffer b !! Z.to_nat (tail b) = Some message) as Hm.
  { assert ((message :: l) !! 0%nat = Some message) as E by done.
    rewrite El, lookup_drop, lookup_take in E. rewrite Nat.add_0_r in E. by case_decide. }
  split; [|split; [|done]].
  - unfold array_get. case_bool; [lia|done].
  - split; simpl; [done|unfold MAX_MESSAGES_PER_PROCESS; lia|].
    replace (Z.to_nat (tail b + 1)) with (S (Z.to_nat (tail b))) by lia.
    assert (l = drop 1 (message :: l)) as -> by done. rewrite El, drop_drop. f_equal. lia.
Qed.

Lemma ring_empty b : ring b [] → head b = tail b.
Proof.
  intros [Hl Hb El]. unfold MAX_MESSAGES_PER_PROCESS in *. symmetry in El.
  assert (length (drop (Z.to_nat (tail b)) (take (Z.to_nat (head b)) (buffer b))) = 0%nat) as E by (by rewrite El).
  rewrite length_drop, length_take in E. lia.
Qed.

Lemma ring_count b l : ring b l → Z.of_nat (length l) = head b - tail b.
Proof.
  intros [Hl Hb ->]. unfold MAX_MESSAGES_PER_PROCESS in *. rewrite length_drop, length_take. lia.
Qed.

(** ** What the ring operations do to the abstract kernel *)

(** A receiver that waits is woken. *)
Definition a_deliver (destination : ptr) (a : AKernel) : AKernel :=
  match a_pcbs a !! destination with
  | Some d => if state d =? PROCESS_WAITING_TO_RECEIVE_MESSAGE then a_wake destination a else a
  | None => a
  end.

Definition a_set_ring (owner : ptr) (b : MessagesCircularBuffer) (a : AKernel) : AKernel :=
  a_update owner (with_messages_buffer b) a.

Lemma deliver_sim k d a destination :
  R k a → Inv d a → is_Some (a_pcbs a !! destination) →
  sim k (c ← load destination;
         (if state c =? PROCESS_WAITING_TO_RECEIVE_MESSAGE then
            store destination (with_state PROCESS_READY);;
            enqueue_process (Some destination)
          else mret tt);;
         mret 0) 0 (a_deliver destination a) ∧
  Inv d (a_deliver destination a).
Proof.
  intros HR HI [c Hc]. unfold a_deliver. rewrite Hc.
  destruct (state c =? PROCESS_WAITING_TO_RECEIVE_MESSAGE) eqn:E.
  - destruct (wake_sim k d a destination c HR HI Hc) as [Hs HI1]; [zify_bools; by rewrite E|].
    split; [|done]. eapply sim_load; [done|exact Hc|]. intros c' _ ->.
    change (state c' =? PROCESS_WAITING_TO_RECEIVE_MESSAGE = true) in E. rewrite E.
    eapply sim_bind; [exact Hs|]. intros k1 HR1. by apply sim_ret.
  - split; [|done]. eapply sim_load; [done|exact Hc|]. intros c' _ ->.
    change (state c' =? PROCESS_WAITING_TO_RECEIVE_MESSAGE = false) in E. rewrite E.
    eapply sim_bind; [by apply sim_ret|]. intros k1 HR1. by apply sim_ret.
Qed.

Lemma push_sim k d a owner c message destination :
  R k a → Inv d a → a_pcbs a !! owner = Some c → (∃ l, ring (messages_buffer c) l) →
  head (messages_buffer c) < MAX_MESSAGES_PER_PROCESS →
  destination_process message = Some destination → is_Some (a_pcbs a !! destination) →
  let a' := a_deliver destination (a_set_ring owner (push_ring (messages_buffer c) message) a) in
  sim k (push_message owner message) 0 a' ∧ Inv d a'.
Proof.
  intros HR HI Hc [l Hring] Hh Hd Hdst a'. set (b := messages_buffer c) in *.
  destruct Hring as [Hl Hb _]. unfold MAX_MESSAGES_PER_PROCESS in *.
  assert (Inv d (a_set_ring owner (push_ring b message) a)) as HI1 by (apply Inv_update; [apply _|done]).
  assert (is_Some (a_pcbs (a_set_ring owner (push_ring b message) a) !! destination)) as Hdst'
    by by apply a_update_is_Some.
  assert (∃ k1, store owner (with_messages_buffer (push_ring b message)) k = Done (tt, k1) ∧
    R k1 (a_set_ring owner (push_ring b message) a)) as (k1 & Hk1 & HR1).
  { apply sim_store_last; [apply _|done|by eexists]. }
  destruct (deliver_sim k1 d _ destination HR1 HI1 Hdst') as [Hs HI2]. split; [|done].
  unfold push_message. eapply sim_load; [done|exact Hc|]. intros c' _ ->. fold b. cbv zeta.
  change (messages_buffer c') with b. rewrite s32_id by lia.
  rewrite (proj2 (Z.ltb_ge MAX_MESSAGES_PER_PROCESS _)) by (unfold MAX_MESSAGES_PER_PROCESS; lia).
  rewrite (proj2 (Z.eqb_neq (head b + 1) _)) by lia.
  eapply sim_require; [apply array_set_Some; lia|].
  eapply sim_run; [exact Hk1|]. rewrite Hd. eapply sim_require; [done|]. exact Hs.
Qed.

Lemma pop_sim k a owner c frame message l text rest pad :
  R k a → a_pcbs a !! owner = Some c → ring (messages_buffer c) (message :: l) →
  body message = text ++ 0 :: rest → Forall (λ x, x ≠ 0) text →
  body frame = pad → (length text < length pad)%nat →
  sim k (pop_message owner frame)
    (0, mk_Message (source_process message) (destination_process message)
          (text ++ 0 :: drop (S (length text)) pad))
    (a_set_ring owner (pop_ring (messages_buffer c)) a).
Proof.
  intros HR Hc Hring Hbody Htext Hpad Hlen. destruct (ring_pop _ _ _ Hring) as (Hget & Hring' & Hlt).
  pose proof (ring_bounds _ _ Hring) as Hb. unfold MAX_MESSAGES_PER_PROCESS in *.
  unfold pop_message. eapply sim_load; [done|exact Hc|]. intros c' _ ->. cbv zeta.
  change (messages_buffer (erase_next c')) with (messages_buffer c') in *. set (b := messages_buffer c') in *.
  rewrite (proj2 (Z.eqb_neq _ _)) by lia. rewrite s32_id by lia.
  rewrite (proj2 (Z.ltb_ge MAX_MESSAGES_PER_PROCESS _)) by (unfold MAX_MESSAGES_PER_PROCESS; lia).
  eapply sim_require; [exact Hget|]. rewrite Hbody, Hpad.
  eapply sim_require; [by apply strcpy_array_string|].
  eapply sim_store; [apply _|done|by eexists|]. intros k1 HR1. by apply sim_ret.
Qed.

(** What a process's ring is after its own update and a delivery. *)
Lemma deliver_lookup a destination p :
  (λ c, messages_buffer c) <$> a_pcbs (a_deliver destination a) !! p = (λ c, messages_buffer c) <$> a_pcbs a !! p.
Proof.
  unfold a_deliver. destruct (a_pcbs a !! destination) as [d|] eqn:Ed; [|done].
  destruct (state d =? _); [|done]. rewrite wake_spec.
  assert (∀ a1 : AKernel, a_pcbs a1 = a_pcbs (a_update destination (with_state PROCESS_READY) a) →
    (λ c, messages_buffer c) <$> a_pcbs a1 !! p = (λ c, messages_buffer c) <$> a_pcbs a !! p) as H.
  { intros a1 ->. destruct (decide (destination = p)) as [<-|Hne].
    - rewrite a_update_lookup, Ed. done.
    - by rewrite a_update_lookup_ne. }
  case_decide; [by apply H|]. apply H. apply a_pcbs_enqueue_policy.
Qed.

Lemma ring_after_push a owner b destination c :
  a_pcbs a !! owner = Some c →
  ∃ c', a_pcbs (a_deliver destination (a_set_ring owner b a)) !! owner = Some c' ∧ messages_buffer c' = b.
Proof.
  intros Hc. pose proof (deliver_lookup (a_set_ring owner b a) destination owner) as H.
  unfold a_set_ring in H. rewrite a_update_lookup, Hc in H. simpl in H.
  apply fmap_Some in H as (c' & Hc' & E). by exists c'.
Qed.

(** ** Properties of the message ring *)

(** C36: pushing a message, by the position of the head. Below 4 the message is
    stored, its receiver is woken exactly when it waits for a message, and the
    scheduler's invariant is kept. At 4 with the tail at 0 the ring is full and -1
    is returned without effect. At 4 with any message already popped the ring has
    free room, but the code writes to buffer[4], past the end of the array: only
    four messages can ever be sent to a process. *)
Theorem push_message_spec k d a owner c message destination l :
  R k a → Inv d a → a_pcbs a !! owner = Some c → ring (messages_buffer c) l →
  destination_process message = Some destination → is_Some (a_pcbs a !! destination) →
  if decide (head (messages_buffer c) < MAX_MESSAGES_PER_PROCESS) then
    ∃ k' a' c', push_message owner message k = Done (0, k') ∧ R k' a' ∧ Inv d a' ∧
      a_pcbs a' !! owner = Some c' ∧ ring (messages_buffer c') (l ++ [message]) ∧
      ∀ cx, a_pcbs a !! destination = Some cx →
        if decide (state cx = PROCESS_WAITING_TO_RECEIVE_MESSAGE)
        then destination ≠ init_process → queued a' destination
        else a' = a_set_ring owner (push_ring (messages_buffer c) message) a
  else if decide (tail (messages_buffer c) = 0) then
    length l = 4%nat ∧ push_message owner message k = Done (-1, k)
  else (length l < 4)%nat ∧ push_message owner message k = Fault OutOfBounds.
Proof.
  intros HR HI Hc Hring Hd Hdst. pose proof (ring_bounds _ _ Hring) as Hb.
  pose proof (ring_length _ _ Hring) as Hl. pose proof (ring_count _ _ Hring) as Hcnt.
  case_decide as Hh.
  - destruct (push_sim k d a owner c message destination HR HI Hc) as ((k' & Hk & HR') & HI');
      [by exists l|done..|].
    destruct (ring_after_push a owner (push_ring (messages_buffer c) message) destination c Hc) as (c' & Hc' & Eb).
    set (a' := a_deliver _ _) in *. exists k', a', c'. repeat (split; [done|]).
    split; [rewrite Eb; by apply ring_push|]. intros cx Hx.
    destruct (update_lookup_fwd a owner (with_messages_buffer (push_ring (messages_buffer c) message))
      destination cx Hx) as (c1 & Hc1 & E1).
    assert (state c1 = state cx) as Hs1 by (rewrite E1; by case_decide). clear E1.
    unfold a', a_deliver, a_set_ring in HI' |- *. rewrite Hc1, Hs1 in HI' |- *. case_decide as Hs.
    + rewrite (proj2 (Z.eqb_eq _ _) Hs) in HI' |- *. intros Hi. eapply wake_queued; [exact HI'|done|by eexists].
    + by rewrite (proj2 (Z.eqb_neq _ _) Hs).
  - destruct (R_heap_lookup _ _ _ _ HR Hc) as (c0 & Hc0 & ->).
    change (messages_buffer (erase_next c0)) with (messages_buffer c0) in *. unfold MAX_MESSAGES_PER_PROCESS in *.
    unfold push_message. erewrite bind_done by (by apply load_some). cbv zeta.
    rewrite s32_id by lia. rewrite (proj2 (Z.ltb_lt MAX_MESSAGES_PER_PROCESS _)) by (unfold MAX_MESSAGES_PER_PROCESS; lia).
    case_decide as Ht.
    + split; [lia|]. by rewrite Ht.
    + split; [lia|]. rewrite (proj2 (Z.eqb_neq 0 _)) by lia.
      apply bind_require_none, array_set_None. rewrite Hl. lia.
Qed.

(** A process whose ring has already carried four messages, one of them read. *)
Definition text_message (destination : ptr) (text : list Z) : Message :=
  mk_Message (Some 100) (Some destination) (text ++ replicate (256 - length text) 0).

Definition worn_ring : MessagesCircularBuffer :=
  mk_MessagesCircularBuffer 4 1 (replicate 4 (text_message 200 [104; 105])).

Definition with_ring (p : ptr) (b : MessagesCircularBuffer) (k : Kernel) : Kernel :=
  with_heap (alter (with_messages_buffer b) p (heap k)) k.

Lemma demo_ring_ok alg p b :
  R (with_ring p b (demo alg)) (a_set_ring p b (a_demo alg)) ∧ Inv 0 (a_set_ring p b (a_demo alg)).
Proof.
  destruct (demo_ok alg) as [HR HI]. split; [|apply Inv_update; [apply _|done]].
  unfold with_ring. destruct (heap (demo alg) !! p) as [c|] eqn:Hc.
  - rewrite (alter_is_insert _ _ _ _ Hc). apply R_store; [apply _|done|done].
  - unfold a_set_ring. rewrite a_update_id.
    + assert (alter (with_messages_buffer b) p (heap (demo alg)) = heap (demo alg)) as ->; [|by destruct (demo alg)].
      apply map_eq. intros i. destruct (decide (p = i)) as [<-|Hne]; [by rewrite lookup_alter_eq, Hc|by rewrite lookup_alter_ne].
    + intros c Hc'. destruct (R_heap_lookup _ _ _ _ HR Hc') as (c' & ? & _). congruence.
Qed.

Lemma push_message_spec_witness :
  push_message 200 (text_message 200 [111; 107]) (with_ring 200 worn_ring (demo ROUND_ROBIN)) =
    Fault OutOfBounds ∧
  ∃ k', push_message 200 (text_message 200 [111; 107]) (demo ROUND_ROBIN) = Done (0, k').
Proof.
  destruct (demo_ring_ok ROUND_ROBIN 200 worn_ring) as [HR HI]. split.
  - assert (∃ c, a_pcbs (a_set_ring 200 worn_ring (a_demo ROUND_ROBIN)) !! 200 = Some c ∧
                 messages_buffer c = worn_ring) as (c & Hc & Eb).
    { assert ((λ c, messages_buffer c) <$> a_pcbs (a_set_ring 200 worn_ring (a_demo ROUND_ROBIN)) !! 200 =
              Some worn_ring) as H by by vm_compute.
      apply fmap_Some in H as (c & Hc & E). by exists c. }
    assert (ring (messages_buffer c) (replicate 3 (text_message 200 [104; 105]))) as Hring by (rewrite Eb; by split).
    pose proof (push_message_spec _ 0 _ 200 c (text_message 200 [111; 107]) 200 _ HR HI Hc Hring eq_refl
      (ex_intro _ c Hc)) as H. rewrite Eb in H. by apply H.
  - destruct (demo_ok ROUND_ROBIN) as [HR0 HI0].
    assert (∃ c, a_pcbs (a_demo ROUND_ROBIN) !! 200 = Some c ∧ messages_buffer c = zero_messages_buffer)
      as (c & Hc & Eb).
    { assert ((λ c, messages_buffer c) <$> a_pcbs (a_demo ROUND_ROBIN) !! 200 = Some zero_messages_buffer) as H
        by by vm_compute.
      apply fmap_Some in H as (c & Hc & E). by exists c. }
    assert (ring (messages_buffer c) []) as Hring by (rewrite Eb; apply ring_zero).
    pose proof (push_message_spec _ 0 _ 200 c (text_message 200 [111; 107]) 200 _ HR0 HI0 Hc Hring eq_refl
      (ex_intro _ c Hc)) as H. rewrite Eb in H. destruct H as (k' & _ & _ & Hk & _). by exists k'.
Defined.

(** *** Messages come out in the order they went in *)
Fixpoint push_all (owner : ptr) (ms : list Message) : M Kernel (list Z) :=
  match ms with
  | [] => mret []
  | m :: ms => r ← push_message owner m; rs ← push_all owner ms; mret (r :: rs)
  end.

Fixpoint pop_all (owner : ptr) (n : nat) (frame : Message) : M Kernel (list Message) :=
  match n with
  | O => mret []
  | S n => r ← pop_message owner frame; ms ← pop_all owner n frame; mret (r.2 :: ms)
  end.

(** A body that holds a terminated string. *)
Definition holds_text (message : Message) : Prop :=
  ∃ text rest, body message = text ++ 0 :: rest ∧ Forall (λ x, x ≠ 0) text ∧ (length text < 256)%nat.

(** Same sender, same receiver and the same string. *)
Definition same_message (m m' : Message) : Prop :=
  source_process m' = source_process m ∧ destination_process m' = destination_process m ∧
  ∃ text rest rest', Forall (λ x, x ≠ 0) text ∧ body m = text ++ 0 :: rest ∧ body m' = text ++ 0 :: rest'.

(** A message that can be pushed: its receiver exists. *)
Definition deliverable (a : AKernel) (m : Message) : Prop :=
  holds_text m ∧ ∃ p, destination_process m = Some p ∧ is_Some (a_pcbs a !! p).

Lemma deliver_is_Some destination a x :
  is_Some (a_pcbs (a_deliver destination a) !! x) ↔ is_Some (a_pcbs a !! x).
Proof.
  unfold a_deliver. destruct (a_pcbs a !! destination) as [d|]; [|done]. case_bool; [|done].
  rewrite wake_lookup. case_decide; [|done]. by rewrite fmap_is_Some.
Qed.

Lemma deliverable_push a owner b p m :
  deliverable a m → deliverable (a_deliver p (a_set_ring owner b a)) m.
Proof.
  intros [Ht (q & Hq & Hs)]. split; [done|]. exists q. split; [done|].
  apply deliver_is_Some. by apply a_update_is_Some.
Qed.

Lemma push_all_sim ms k d a owner c l :
  R k a → Inv d a → a_pcbs a !! owner = Some c → ring (messages_buffer c) l →
  head (messages_buffer c) + Z.of_nat (length ms) ≤ MAX_MESSAGES_PER_PROCESS →
  Forall (deliverable a) ms →
  ∃ k' a' c', push_all owner ms k = Done (replicate (length ms) 0, k') ∧ R k' a' ∧ Inv d a' ∧
    a_pcbs a' !! owner = Some c' ∧ ring (messages_buffer c') (l ++ ms).
Proof.
  revert k a c l. induction ms as [|m ms IH]; intros k a c l HR HI Hc Hring Hlen Hms.
  - exists k, a, c. rewrite app_nil_r. done.
  - inversion Hms as [|? ? [Ht (p & Hp & Hs)] Hms']; subst. simpl length in Hlen.
    destruct (push_sim k d a owner c m p HR HI Hc) as ((k1 & Hk1 & HR1) & HI1); [by eexists|lia|done..|].
    destruct (ring_after_push a owner (push_ring (messages_buffer c) m) p c Hc) as (c1 & Hc1 & E1).
    destruct (IH k1 _ c1 (l ++ [m]) HR1 HI1 Hc1) as (k' & a' & c' & Hk' & HR' & HI' & Hc' & Hr').
    + rewrite E1. apply ring_push; [done|lia].
    + rewrite E1. simpl. lia.
    + eapply Forall_impl; [exact Hms'|]. intros m' Hm'. by apply deliverable_push.
    + exists k', a', c'. rewrite <- app_assoc in Hr'. split; [|done]. simpl.
      erewrite bind_done by exact Hk1. by erewrite bind_done by exact Hk'.
Qed.

Lemma pop_all_sim l k d a owner c frame :
  R k a → Inv d a → a_pcbs a !! owner = Some c → ring (messages_buffer c) l →
  length (body frame) = 256%nat → Forall holds_text l →
  ∃ k' a' out, pop_all owner (length l) frame k = Done (out, k') ∧ R k' a' ∧ Inv d a' ∧
    Forall2 same_message l out.
Proof.
  revert k a c. induction l as [|m l IH]; intros k a c HR HI Hc Hring Hf Hl.
  - exists k, a, []. done.
  - inversion Hl as [|? ? (text & rest & Hb & Ht & Hlen) Hl']; subst.
    destruct (pop_sim k a owner c frame m l text rest (body frame) HR Hc Hring Hb Ht eq_refl) as (k1 & Hk1 & HR1);
      [lia|].
    destruct (update_lookup_fwd a owner (with_messages_buffer (pop_ring (messages_buffer c))) owner c Hc)
      as (c1 & Hc1 & E1). rewrite decide_True in E1 by done.
    destruct (IH k1 _ c1 HR1) as (k' & a' & out & Hk' & HR' & HI' & Hout); [by apply Inv_update; [apply _|]|done| |done..|].
    + rewrite E1. by apply (ring_pop _ m l).
    + eexists k', a', _. split; [|split; [exact HR'|split; [exact HI'|]]].
      * simpl. erewrite bind_done by exact Hk1. by erewrite bind_done by exact Hk'.
      * constructor; [|done]. split; [done|]. split; [done|]. by eexists text, rest, _.
Qed.

(** The ring delivers in order. From a ring that has never been used, up to
    four messages with terminated bodies pushed to a process are popped in the
    order they were pushed, each with its sender, its receiver and its string;
    the scheduler's invariant holds all along. *)
Theorem messages_in_order k d a owner c ms frame :
  R k a → Inv d a → a_pcbs a !! owner = Some c → messages_buffer c = zero_messages_buffer →
  (length ms ≤ 4)%nat → Forall (deliverable a) ms → length (body frame) = 256%nat →
  ∃ k1 k2 a2 out, push_all owner ms k = Done (replicate (length ms) 0, k1) ∧
    pop_all owner (length ms) frame k1 = Done (out, k2) ∧ Forall2 same_message ms out ∧
    R k2 a2 ∧ Inv d a2.
Proof.
  intros HR HI Hc Eb Hlen Hms Hf.
  destruct (push_all_sim ms k d a owner c [] HR HI Hc) as (k1 & a1 & c1 & Hk1 & HR1 & HI1 & Hc1 & Hr1).
  - rewrite Eb. apply ring_zero.
  - rewrite Eb. simpl. unfold MAX_MESSAGES_PER_PROCESS. lia.
  - done.
  - destruct (pop_all_sim ms k1 d a1 owner c1 frame HR1 HI1 Hc1 Hr1 Hf) as (k2 & a2 & out & Hk2 & HR2 & HI2 & Ho).
    + eapply Forall_impl; [exact Hms|]. by intros m [? _].
    + by exists k1, k2, a2, out.
Qed.

Lemma text_message_deliverable a p text :
  Forall (λ x, x ≠ 0) text → (length text < 256)%nat → is_Some (a_pcbs a !! p) →
  deliverable a (text_message p text).
Proof.
  intros Ht Hl Hs. split; [|by exists p]. exists text, (replicate (255 - length text) 0).
  split; [|done]. simpl. by replace (256 - length text)%nat with (S (255 - length text)) by lia.
Qed.

Lemma messages_in_order_witness :
  ∃ k1 k2 out, push_all 200 [text_message 200 [104; 105]; text_message 200 [111; 107]] (demo MLFQ) =
      Done ([0; 0], k1) ∧ pop_all 200 2 zero_message k1 = Done (out, k2) ∧
    Forall2 same_message [text_message 200 [104; 105]; text_message 200 [111; 107]] out.
Proof.
  destruct (demo_ok MLFQ) as [HR HI].
  assert (∃ c, a_pcbs (a_demo MLFQ) !! 200 = Some c ∧ messages_buffer c = zero_messages_buffer) as (c & Hc & Eb).
  { assert ((λ c, messages_buffer c) <$> a_pcbs (a_demo MLFQ) !! 200 = Some zero_messages_buffer) as H
      by by vm_compute.
    apply fmap_Some in H as (c & Hc & E). by exists c. }
  destruct (messages_in_order (demo MLFQ) 0 (a_demo MLFQ) 200 c
    [text_message 200 [104; 105]; text_message 200 [111; 107]] zero_message HR HI Hc Eb) as (k1 & k2 & _ & out & H1 & H2 & H3 & _).
  - simpl. lia.
  - assert (∀ text, Forall (λ x, x ≠ 0) text → (length text < 256)%nat →
      deliverable (a_demo MLFQ) (text_message 200 text)) as H.
    { intros text H1 H2. apply text_message_deliverable; [done..|by exists c]. }
    constructor; [|constructor; [|done]]; apply H; (by repeat constructor) || (simpl; lia).
  - by vm_compute.
  - exists k1, k2, out. split; [exact H1|]. split; [exact H2|exact H3].
Defined.

(** ** Waking every process in a waiting state *)
Definition a_wake_slot (waiting i : Z) (a : AKernel) : AKernel :=
  match array_get (processes (a_globals a)) i with
  | Some (Some p) =>
    match a_pcbs a !! p with
    | Some c => if state c =? waiting then a_wake p a else a
    | None => a
    end
  | _ => a
  end.

Fixpoint a_wake_slots (n : nat) (waiting i : Z) (a : AKernel) : AKernel :=
  match n with
  | O => a
  | S n => a_wake_slots n waiting (i + 1) (a_wake_slot waiting i a)
  end.

Lemma a_globals_wake p a : a_globals (a_wake p a) = a_globals a.
Proof. unfold a_wake. by rewrite a_globals_enqueue_process. Qed.

Lemma a_globals_wake_slot waiting i a : a_globals (a_wake_slot waiting i a) = a_globals a.
Proof.
  unfold a_wake_slot. destruct (array_get _ _) as [[p|]|]; try done.
  destruct (a_pcbs a !! p); [|done]. case_bool; [|done]. apply a_globals_wake.
Qed.

Lemma a_globals_wake_slots n waiting i a : a_globals (a_wake_slots n waiting i a) = a_globals a.
Proof. revert i a. induction n as [|n IH]; intros i a; [done|]. simpl. by rewrite IH, a_globals_wake_slot. Qed.

Lemma wake_slot_sim k d a waiting i p :
  R k a → Inv d a → waiting ≠ PROCESS_READY →
  array_get (processes (a_globals a)) i = Some (Some p) →
  sim k (wake_slot waiting i) tt (a_wake_slot waiting i a) ∧ Inv d (a_wake_slot waiting i a).
Proof.
  intros HR HI Hw Hp. destruct (proj2 (wf_processes _ (inv_WF _ _ HI)) i p Hp) as (c & Hc & _).
  unfold a_wake_slot. rewrite Hp, Hc.
  assert (∀ B (f : option ptr → M Kernel B) r a', sim k (f (Some p)) r a' →
    sim k (ps ← get_global processes; o ← require OutOfBounds (array_get ps i); f o) r a') as Hstart.
  { intros B f r a' Hs. eapply sim_global; [done|]. eapply sim_require; [exact Hp|]. exact Hs. }
  destruct (state c =? waiting) eqn:E.
  - destruct (wake_sim k d a p c HR HI Hc) as [Hs HI1]; [zify_bools; by rewrite E|]. split; [|done].
    apply Hstart. eapply sim_require; [done|]. eapply sim_load; [done|exact Hc|]. intros c' _ ->.
    change (state c' =? waiting = true) in E. rewrite E. exact Hs.
  - split; [|done]. apply Hstart. eapply sim_require; [done|].
    eapply sim_load; [done|exact Hc|]. intros c' _ ->.
    change (state c' =? waiting = false) in E. rewrite E. by apply sim_ret.
Qed.

Lemma wake_slots_sim n k d a waiting i :
  R k a → Inv d a → waiting ≠ PROCESS_READY → 0 ≤ i → i + Z.of_nat n ≤ n_processes (a_globals a) →
  sim k (for_loop n i (wake_slot waiting)) tt (a_wake_slots n waiting i a) ∧
  Inv d (a_wake_slots n waiting i a).
Proof.
  revert k a i. induction n as [|n IH]; intros k a i HR HI Hw Hi Hn; [split; [by apply sim_ret|done]|].
  destruct (inv_slots _ _ HI) as (_ & _ & Hfull). destruct (Hfull i) as [p Hp]; [lia|].
  destruct (wake_slot_sim k d a waiting i p HR HI Hw Hp) as [(k1 & Hk1 & HR1) HI1].
  destruct (IH k1 (a_wake_slot waiting i a) (i + 1) HR1 HI1 Hw) as [Hs HI2]; [lia|rewrite a_globals_wake_slot; lia|].
  cbn [for_loop a_wake_slots]. split; [|done]. eapply sim_run; [exact Hk1|]. exact Hs.
Qed.

(** What the loop does to one process: it becomes READY when it was waiting. *)
Definition awake (waiting : Z) (c : PCB) : PCB :=
  if state c =? waiting then with_state PROCESS_READY c else c.

Lemma wake_slot_lookup d waiting i a x c :
  Inv d a → a_pcbs a !! x = Some c →
  a_pcbs (a_wake_slot waiting i a) !! x = Some (if decide (pid c = i) then awake waiting c else c).
Proof.
  intros HI Hx. destruct (wf_pid _ (inv_WF _ _ HI) x c Hx) as [_ Ex]. unfold a_wake_slot, awake.
  case_decide as E.
  - rewrite <- E, Ex, Hx. case_bool; [|done]. by rewrite wake_lookup, decide_True, Hx.
  - destruct (array_get _ i) as [[p|]|] eqn:Ep; [|done..].
    destruct (proj2 (wf_processes _ (inv_WF _ _ HI)) i p Ep) as (cp & Hcp & Epid). rewrite Hcp.
    assert (x ≠ p) as Hne by (intros ->; congruence).
    case_bool; [|done]. by rewrite wake_lookup, decide_False.
Qed.

Lemma wake_slots_lookup n k d waiting i a x c :
  R k a → Inv d a → waiting ≠ PROCESS_READY → 0 ≤ i → i + Z.of_nat n ≤ n_processes (a_globals a) →
  a_pcbs a !! x = Some c →
  a_pcbs (a_wake_slots n waiting i a) !! x =
    Some (if decide (i ≤ pid c < i + Z.of_nat n) then awake waiting c else c).
Proof.
  revert k i a c. induction n as [|n IH]; intros k i a c HR HI Hw Hi Hn Hx.
  { rewrite decide_False by lia. done. }
  destruct (inv_slots _ _ HI) as (_ & _ & Hfull). destruct (Hfull i) as [p Hp]; [lia|].
  destruct (wake_slot_sim k d a waiting i p HR HI Hw Hp) as [(k1 & _ & HR1) HI1].
  pose proof (wake_slot_lookup d waiting i a x c HI Hx) as Hx1. cbn [a_wake_slots].
  rewrite (IH k1 (i + 1) (a_wake_slot waiting i a) (if decide (pid c = i) then awake waiting c else c) HR1 HI1 Hw);
    [|lia|rewrite a_globals_wake_slot; lia|done].
  assert (pid (awake waiting c) = pid c) as Ep by (unfold awake; by case_bool).
  assert (awake waiting (awake waiting c) = awake waiting c) as Ea.
  { unfold awake. destruct (state c =? waiting) eqn:E; [|by rewrite E].
    change (state (with_state PROCESS_READY c)) with PROCESS_READY.
    rewrite (proj2 (Z.eqb_neq PROCESS_READY waiting)); [done|]. by intros <-. }
  f_equal. destruct (decide (pid c = i)) as [E|E].
  - rewrite Ep, !Ea. rewrite (decide_False (P := i + 1 ≤ _ < _)) by lia. by rewrite decide_True by lia.
  - destruct (decide (i ≤ pid c < i + Z.of_nat (S n))); [rewrite decide_True by lia|rewrite decide_False by lia]; done.
Qed.

Lemma for_loop_app {S} n m i (body : Z → M S unit) s :
  for_loop (n + m) i body s = (for_loop n i body;; for_loop m (i + Z.of_nat n) body) s.
Proof.
  revert i s. induction n as [|n IH]; intros i s; [by rewrite Z.add_0_r|].
  cbn [for_loop Nat.add]. rewrite bind_assoc. unfold mbind, M_bind at 1 2. destruct (body i s) as [[u s1]|]; [|done].
  rewrite IH. replace (i + 1 + Z.of_nat n) with (i + Z.of_nat (Datatypes.S n)) by lia. done.
Qed.

(** The wake loop over the whole table, when some slot of it is still free. *)
Lemma wake_table_null k d a waiting :
  R k a → Inv d a → waiting ≠ PROCESS_READY → n_processes (a_globals a) < N_PROCESSES →
  for_loop (Z.to_nat N_PROCESSES) 0 (wake_slot waiting) k = Fault NullPointer.
Proof.
  intros HR HI Hw Hn. destruct (inv_slots _ _ HI) as ([Hn1 _] & Hfree & _).
  set (n := n_processes (a_globals a)) in *.
  destruct (wake_slots_sim (Z.to_nat n) k d a waiting 0 HR HI Hw) as [(k1 & Hk1 & HR1) HI1]; [lia..|].
  replace (Z.to_nat N_PROCESSES) with (Z.to_nat n + S (Z.to_nat (N_PROCESSES - n - 1)))%nat by lia.
  rewrite for_loop_app. erewrite bind_done by exact Hk1. cbn [for_loop]. apply bind_fault.
  replace (0 + Z.of_nat (Z.to_nat n)) with n by lia.
  unfold wake_slot, get_global. mrun. unfold compose. rewrite <- (R_globals _ _ HR1), a_globals_wake_slots.
  rewrite (Hfree n) by lia. done.
Qed.

(** One turn of receive_message when a message is waiting. With all 64 slots
    of the process table in use, it stores the string of the oldest message in the
    caller's array, drops the message, and makes READY and queues exactly the
    processes blocked in send_message. With a free slot in the table, the loop that
    wakes the senders follows the NULL pointer in it. *)
Theorem receive_turn_spec k d a owner c message l text rest frame out :
  R k a → Inv d a → a_pcbs a !! owner = Some c → ring (messages_buffer c) (message :: l) →
  body message = text ++ 0 :: rest → Forall (λ x, x ≠ 0) text →
  (length text < length (body frame))%nat → (length text < length out)%nat →
  if decide (n_processes (a_globals a) < N_PROCESSES)
  then receive_turn owner frame out k = Fault NullPointer
  else ∃ k' a',
    receive_turn owner frame out k = Done (Some (text ++ 0 :: drop (S (length text)) out), k') ∧
    R k' a' ∧ Inv d a' ∧
    ∀ x cx, a_pcbs (a_set_ring owner (pop_ring (messages_buffer c)) a) !! x = Some cx →
      a_pcbs a' !! x = Some (awake PROCESS_WAITING_TO_SEND_MESSAGE cx) ∧
      (state cx = PROCESS_WAITING_TO_SEND_MESSAGE → x ≠ init_process → queued a' x).
Proof.
  intros HR HI Hc Hring Hbody Htext Hfr Hout.
  destruct (pop_sim k a owner c frame message l text rest (body frame) HR Hc Hring Hbody Htext eq_refl Hfr)
    as (k1 & Hk1 & HR1).
  set (a1 := a_set_ring owner _ a) in *.
  assert (Inv d a1) as HI1 by (apply Inv_update; [apply _|done]).
  unfold receive_turn. erewrite bind_done by exact Hk1. cbn [fst snd body]. rewrite Z.eqb_refl.
  erewrite bind_require_some by (by apply strcpy_array_string).
  case_decide as Hn.
  - apply bind_fault. by apply (wake_table_null k1 d a1).
  - destruct (inv_slots _ _ HI1) as (Hn1 & _). change (n_processes (a_globals a1)) with (n_processes (a_globals a)) in Hn1.
    destruct (wake_slots_sim (Z.to_nat N_PROCESSES) k1 d a1 PROCESS_WAITING_TO_SEND_MESSAGE 0 HR1 HI1)
      as [(k2 & Hk2 & HR2) HI2]; [done|done|change (n_processes (a_globals a1)) with (n_processes (a_globals a)); lia|].
    eexists k2, _. split; [|split; [exact HR2|split; [exact HI2|]]].
    { by erewrite bind_done by exact Hk2. }
    intros x cx Hx. pose proof (wf_pid _ (inv_WF _ _ HI1) x cx Hx) as [Hpid _].
    assert (a_pcbs (a_wake_slots (Z.to_nat N_PROCESSES) PROCESS_WAITING_TO_SEND_MESSAGE 0 a1) !! x =
      Some (awake PROCESS_WAITING_TO_SEND_MESSAGE cx)) as Hx'.
    { rewrite (wake_slots_lookup _ k1 d _ _ a1 x cx HR1 HI1); [|done|done| |done].
      - rewrite decide_True; [done|]. lia.
      - change (n_processes (a_globals a1)) with (n_processes (a_globals a)). lia. }
    split; [exact Hx'|]. intros Hs Hi. apply (inv_ready _ _ HI2 x _ Hx' Hi). unfold awake. by rewrite Hs, Z.eqb_refl.
Qed.

Lemma receive_turn_spec_witness :
  receive_turn 200 zero_message (replicate 64 0)
    (with_ring 200 (mk_MessagesCircularBuffer 1 0
       (text_message 200 [104; 105] :: replicate 3 zero_message)) (demo FCFS)) = Fault NullPointer.
Proof.
  set (b := mk_MessagesCircularBuffer 1 0 (text_message 200 [104; 105] :: replicate 3 zero_message)).
  destruct (demo_ring_ok FCFS 200 b) as [HR HI].
  assert (∃ c, a_pcbs (a_set_ring 200 b (a_demo FCFS)) !! 200 = Some c ∧ messages_buffer c = b) as (c & Hc & Eb).
  { assert ((λ c, messages_buffer c) <$> a_pcbs (a_set_ring 200 b (a_demo FCFS)) !! 200 = Some b) as H
      by by vm_compute.
    apply fmap_Some in H as (c & Hc & E). by exists c. }
  assert (ring (messages_buffer c) [text_message 200 [104; 105]]) as Hring by (rewrite Eb; by split).
  pose proof (receive_turn_spec _ 0 _ 200 c (text_message 200 [104; 105]) [] [104; 105] (replicate 253 0)
    zero_message (replicate 64 0) HR HI Hc Hring eq_refl) as H.
  apply H; [by repeat constructor|apply Nat.ltb_lt; by vm_compute|apply Nat.ltb_lt; by vm_compute].
Defined.
