(* ===== verification/Machine.v ===== *)
(** * The machine: the kernel's state and the devices and memory around it

    The scheduler's state ([Kernel]), the UART driver's variables and the part of
    the PL011 device the driver uses, the page allocator's table, the memory
    behind the kernel's linear map and the counter of page faults.  Operations of the scheduler are lifted with
    [on_kernel]. *)
From stdpp Require Import base gmap list.
From Stdlib Require Import ZArith Lia.
From S2P Require Import Prelude Mem Kernel.

#[local] Open Scope Z_scope.

(** The registers of the UART: the receive FIFO (one data register value per
    character), the interrupt status the next read returns, the mask, the last
    value written to the clear register, and the bytes transmitted so far. *)
Record UartDevice : Type := mk_UartDevice {
  rx_fifo : list Z;
  uart_mis : Z;
  uart_imsc : Z;
  uart_icr : Z;
  transmitted : list Z
}.

(** The variables of drivers/uart/uart.c. *)
Record Uart : Type := mk_Uart {
  uart_owner : option ptr;
  uart_buffer : list Z;
  uart_head : Z;
  uart_tail : Z;
  device : UartDevice
}.

Record Machine : Type := mk_Machine {
  kernel : Kernel;
  uart : Uart;
  memory_pages : gmap Z Z;
  ram : gmap Z Z;
  abort_index : Z
}.

Definition with_kernel (k : Kernel) (s : Machine) : Machine :=
  mk_Machine k (uart s) (memory_pages s) (ram s) (abort_index s).
Definition with_uart (u : Uart) (s : Machine) : Machine :=
  mk_Machine (kernel s) u (memory_pages s) (ram s) (abort_index s).
Definition with_memory_pages (p : gmap Z Z) (s : Machine) : Machine :=
  mk_Machine (kernel s) (uart s) p (ram s) (abort_index s).
Definition with_ram (m : gmap Z Z) (s : Machine) : Machine :=
  mk_Machine (kernel s) (uart s) (memory_pages s) m (abort_index s).
Definition with_abort_index (i : Z) (s : Machine) : Machine :=
  mk_Machine (kernel s) (uart s) (memory_pages s) (ram s) i.

Definition with_uart_owner (o : option ptr) (u : Uart) : Uart :=
  mk_Uart o (uart_buffer u) (uart_head u) (uart_tail u) (device u).
Definition with_uart_buffer (b : list Z) (u : Uart) : Uart :=
  mk_Uart (uart_owner u) b (uart_head u) (uart_tail u) (device u).
Definition with_uart_head (i : Z) (u : Uart) : Uart :=
  mk_Uart (uart_owner u) (uart_buffer u) i (uart_tail u) (device u).
Definition with_uart_tail (i : Z) (u : Uart) : Uart :=
  mk_Uart (uart_owner u) (uart_buffer u) (uart_head u) i (device u).
Definition with_device (d : UartDevice) (u : Uart) : Uart :=
  mk_Uart (uart_owner u) (uart_buffer u) (uart_head u) (uart_tail u) d.

Definition with_rx_fifo (l : list Z) (d : UartDevice) : UartDevice :=
  mk_UartDevice l (uart_mis d) (uart_imsc d) (uart_icr d) (transmitted d).
Definition with_imsc (v : Z) (d : UartDevice) : UartDevice :=
  mk_UartDevice (rx_fifo d) (uart_mis d) v (uart_icr d) (transmitted d).
Definition with_icr (v : Z) (d : UartDevice) : UartDevice :=
  mk_UartDevice (rx_fifo d) (uart_mis d) (uart_imsc d) v (transmitted d).
Definition with_transmitted (l : list Z) (d : UartDevice) : UartDevice :=
  mk_UartDevice (rx_fifo d) (uart_mis d) (uart_imsc d) (uart_icr d) l.

(** An operation of the scheduler, on the machine. *)
Definition on_kernel {A} (m : M Kernel A) : M Machine A := λ s,
  match m (kernel s) with
  | Done (a, k) => Done (a, with_kernel k s)
  | Fault e => Fault e
  end.

Definition get_uart {A} (f : Uart → A) : M Machine A := gets (f ∘ uart).
Definition set_uart (f : Uart → Uart) : M Machine unit := modify (λ s, with_uart (f (uart s)) s).
Definition set_device (f : UartDevice → UartDevice) : M Machine unit :=
  set_uart (λ u, with_device (f (device u)) u).

Lemma on_kernel_done {A} (m : M Kernel A) s a k :
  m (kernel s) = Done (a, k) → on_kernel m s = Done (a, with_kernel k s).
Proof. intros H. unfold on_kernel. by rewrite H. Qed.

Lemma on_kernel_fault {A} (m : M Kernel A) s e : m (kernel s) = Fault e → on_kernel m s = Fault e.
Proof. intros H. unfold on_kernel. by rewrite H. Qed.

Lemma with_kernel_same s : with_kernel (kernel s) s = s.
Proof. by destruct s. Qed.
