(* ===== verification/Uart.v ===== *)
(** * Console input: the UART interrupt handler and the input system call

    The receive path of drivers/uart/uart.c (handle_uart_irq), its transmit
    helpers, and syscall_input of libs/syscalls.c.  The transmit-ready polling of
    uart_putc is not modelled: a byte is transmitted at once. *)
From stdpp Require Import base gmap list strings.
From Stdlib Require Import ZArith Lia.
From S2P Require Import Prelude Mem CString Kernel Queue Scheduler SchedulerSpec Dispatch Entries Boot Ipc Machine.

#[local] Open Scope Z_scope.

Definition UART_BUFFER_SIZE : Z := 64.

(** ** Transmission *)
Definition uart_putc (c : Z) : M Machine unit :=
  set_device (λ d, with_transmitted (transmitted d ++ [u8 c]) d).

Fixpoint uart_puts (str : list Z) : M Machine unit :=
  match str with
  | [] => mret tt
  | c :: str => uart_putc c;; uart_puts str
  end.

Definition hex_digits : list Z := [48; 49; 50; 51; 52; 53; 54; 55; 56; 57; 65; 66; 67; 68; 69; 70].

(** [for (i = 60; i >= 0; i -= 4)] *)
Fixpoint hex_loop (n : nat) (num i : Z) : M Machine unit :=
  match n with
  | O => mret tt
  | S n =>
    let nibble := Z.land (Z.shiftr num i) 15 in
    d ← require OutOfBounds (array_get hex_digits nibble);
    uart_putc d;; hex_loop n num (i - 4)
  end.
Definition uart_hex (num : Z) : M Machine unit := uart_puts [48; 120];; hex_loop 16 num 60.

(** A string literal. *)
Definition text (s : string) : list Z := Z.of_nat ∘ Ascii.nat_of_ascii <$> String.list_ascii_of_string s.

(** The string in an array; there is none when the array has no NUL. *)
Fixpoint array_string (l : list Z) : option (list Z) :=
  match l with
  | [] => None
  | c :: l => if c =? 0 then Some [] else cons c <$> array_string l
  end.

(** [for (i = 0; i < MAX_MESSAGES_PER_PROCESS; i++)] of print_circular_buffer *)
Fixpoint print_slots (n : nat) (i : Z) (slots : list Message) : M Machine unit :=
  match n with
  | O => mret tt
  | S n =>
    uart_hex i;; uart_puts [9];;
    slot ← require OutOfBounds (array_get slots i);
    body ← require OutOfBounds (array_string (body slot));
    uart_puts body;; uart_puts [10];;
    print_slots n (i + 1) slots
  end.

(** print_circular_buffer of libs/ipc.c, for the ring of [owner]. *)
Definition print_circular_buffer (owner : ptr) : M Machine unit :=
  c ← on_kernel (load owner);
  let b := messages_buffer c in
  uart_puts (text "[BUFFER] Head: ");; uart_hex (u64 (head b));;
  uart_puts (text " | Tail: ");; uart_hex (u64 (tail b));;
  uart_puts [10];;
  print_slots (Z.to_nat MAX_MESSAGES_PER_PROCESS) 0 (buffer b).

(** ** Reception *)

(** The next character; with an empty FIFO the code goes on polling. *)
Definition uart_getc : M Machine Z :=
  l ← get_uart (rx_fifo ∘ device);
  match l with
  | [] => fail_with OutOfFuel
  | dr :: l => set_device (with_rx_fifo l);; mret (u8 dr)
  end.

Definition crlf : list Z := [13; 10].
(** "UART RX error " and ": timeout\r\n" *)
Definition rx_error_text : list Z := [85; 65; 82; 84; 32; 82; 88; 32; 101; 114; 114; 111; 114; 32].
Definition timeout_text : list Z := [58; 32; 116; 105; 109; 101; 111; 117; 116; 13; 10].

(** A character enters the ring buffer, unless it is full. *)
Definition uart_store (c : Z) : M Machine unit :=
  h ← get_uart uart_head;
  t ← get_uart uart_tail;
  let next_head := Z.rem (h + 1) UART_BUFFER_SIZE in
  if negb (next_head =? t) then
    b ← get_uart uart_buffer;
    b' ← require OutOfBounds (array_set b h c);
    set_uart (with_uart_buffer b');;
    set_uart (with_uart_head next_head)
  else mret tt.

(** The body of the receive loop, for the value [dr] of the data register. *)
Definition uart_receive (dr : Z) : M Machine unit :=
  let err := Z.land (Z.shiftr dr 8) 15 in
  if negb (err =? 0) then
    uart_puts rx_error_text;; uart_hex err;; uart_puts crlf
  else
    uart_store (Z.land dr 255);;
    n ← on_kernel (get_global n_processes);
    on_kernel (for_loop (Z.to_nat n) 0 (wake_slot PROCESS_WAITING_UART_INPUT)).

(** [while (uart_rx_fifo_not_empty()) { dr = mmio_read(UART0_DR); body(dr); }] *)
Fixpoint rx_loop (fuel : nat) (body : Z → M Machine unit) : M Machine unit :=
  match fuel with
  | O => fail_with OutOfFuel
  | S fuel =>
    l ← get_uart (rx_fifo ∘ device);
    match l with
    | [] => mret tt
    | dr :: l => set_device (with_rx_fifo l);; body dr;; rx_loop fuel body
    end
  end.

Definition rx_all (body : Z → M Machine unit) : M Machine unit :=
  l ← get_uart (rx_fifo ∘ device); rx_loop (S (length l)) body.

Definition uart_echo (dr : Z) : M Machine unit := uart_putc (Z.land dr 255);; uart_puts [10].

Definition handle_uart_irq : M Machine unit :=
  mis ← get_uart (uart_mis ∘ device);
  (if Z.testbit mis 4 then rx_all uart_receive;; set_device (with_icr 16) else mret tt);;
  (if Z.testbit mis 5 then
     imsc ← get_uart (uart_imsc ∘ device);
     set_device (with_imsc (Z.land imsc (Z.lnot 32)));; set_device (with_icr 32)
   else mret tt);;
  (if Z.testbit mis 6 then
     uart_puts timeout_text;; rx_all uart_echo;; set_device (with_icr 64)
   else mret tt).

(** ** syscall_input *)

(** What a turn of syscall_input ends with: it returns the length of the line, or
    the process has left the CPU, with [current_len] characters typed so far. *)
Inductive input_result : Type :=
| InputLine (len : Z) (buffer : list Z)
| InputBlocked (current_len : Z) (buffer : list Z).

(** [buffer[i] = v] in the caller's array. *)
Definition put_char (buffer : list Z) (i v : Z) : M Machine (list Z) :=
  require OutOfBounds (array_set buffer i v).

(** The inner [while (uart_tail != uart_head)]: [inl] when a line is complete,
    [inr] when the ring is empty. *)
Fixpoint input_drain (fuel : nat) (buffer : list Z) (current_len max_len : Z)
    : M Machine (Z * list Z + Z * list Z) :=
  match fuel with
  | O => fail_with OutOfFuel
  | S fuel =>
    t ← get_uart uart_tail;
    h ← get_uart uart_head;
    if t =? h then mret (inr (current_len, buffer)) else
    b ← get_uart uart_buffer;
    c ← require OutOfBounds (array_get b t);
    set_uart (with_uart_tail (Z.rem (t + 1) UART_BUFFER_SIZE));;
    uart_putc c;;
    if (c =? 13) || (c =? 10) then
      set_uart (with_uart_owner None);;
      buffer ← put_char buffer current_len 0;
      mret (inl (current_len, buffer))
    else if c =? 127 then
      if 0 <? current_len then
        uart_puts [8; 32; 8];;
        buffer ← put_char buffer (current_len - 1) 0;
        input_drain fuel buffer (current_len - 1) max_len
      else input_drain fuel buffer current_len max_len
    else if current_len <? max_len then
      buffer ← put_char buffer current_len c;
      buffer ← put_char buffer (current_len + 1) 0;
      input_drain fuel buffer (current_len + 1) max_len
    else input_drain fuel buffer current_len max_len
  end.

(** One turn of [while (1)]: characters are consumed until the line ends or the
    process has to wait for more. *)
Definition input_turn (buffer : list Z) (current_len max_len : Z) : M Machine input_result :=
  r ← input_drain (Z.to_nat UART_BUFFER_SIZE) buffer current_len max_len;
  match r with
  | inl (len, buffer) => mret (InputLine len buffer)
  | inr (current_len, buffer) =>
    p ← on_kernel get_current;
    on_kernel (store p (with_state PROCESS_WAITING_UART_INPUT));;
    on_kernel schedule;;
    mret (InputBlocked current_len buffer)
  end.

(** The start of the call: [None] when another process owns the UART and the
    process has given up the CPU before it tries again. *)
Definition syscall_input (buffer : list Z) (len : Z) : M Machine (option input_result) :=
  o ← get_uart uart_owner;
  p ← on_kernel get_current;
  if negb (bool_decide (o = None)) && negb (bool_decide (o = Some p)) then
    on_kernel schedule;; mret None
  else
    set_uart (with_uart_owner (Some p));;
    let max_len := if 0 <? len then len - 1 else 0 in
    r ← input_turn buffer 0 max_len;
    mret (Some r).

(** ** The ring buffer as a list of characters *)
Record uart_ring (u : Uart) (q : list Z) : Prop := mk_uart_ring {
  ur_length : length (uart_buffer u) = Z.to_nat UART_BUFFER_SIZE;
  ur_tail : 0 ≤ uart_tail u < UART_BUFFER_SIZE;
  ur_space : Z.of_nat (length q) < UART_BUFFER_SIZE;
  ur_head : uart_head u = (uart_tail u + Z.of_nat (length q)) mod UART_BUFFER_SIZE;
  ur_chars : ∀ i c, q !! i = Some c →
    array_get (uart_buffer u) ((uart_tail u + Z.of_nat i) mod UART_BUFFER_SIZE) = Some c
}.

Lemma ring_index_inj t i j :
  0 ≤ i < UART_BUFFER_SIZE → 0 ≤ j < UART_BUFFER_SIZE →
  (t + i) mod UART_BUFFER_SIZE = (t + j) mod UART_BUFFER_SIZE → i = j.
Proof.
  unfold UART_BUFFER_SIZE. intros Hi Hj E.
  pose proof (Z.div_mod (t + i) 64). pose proof (Z.div_mod (t + j) 64). lia.
Qed.

Lemma next_index i : 0 ≤ i < UART_BUFFER_SIZE → Z.rem (i + 1) UART_BUFFER_SIZE = (i + 1) mod UART_BUFFER_SIZE.
Proof. unfold UART_BUFFER_SIZE. intros Hi. apply Z.rem_mod_nonneg; lia. Qed.

Lemma mod_succ t n : ((t + n) mod UART_BUFFER_SIZE + 1) mod UART_BUFFER_SIZE = (t + (n + 1)) mod UART_BUFFER_SIZE.
Proof. rewrite Z.add_mod_idemp_l by done. f_equal. lia. Qed.

Lemma mod_index t n : 0 ≤ (t + n) mod UART_BUFFER_SIZE < UART_BUFFER_SIZE.
Proof. by apply Z.mod_pos_bound. Qed.

(** What a ring that may be full does with one more character. *)
Definition offer (q : list Z) (c : Z) : list Z :=
  if Z.of_nat (length q) <? UART_BUFFER_SIZE - 1 then q ++ [c] else q.

Lemma uart_store_spec s q c :
  uart_ring (uart s) q →
  ∃ u, uart_store c s = Done (tt, with_uart u s) ∧ uart_ring u (offer q c) ∧
    device u = device (uart s) ∧ uart_owner u = uart_owner (uart s).
Proof.
  intros [Hl Ht Hs Hh Hc]. unfold uart_store, get_uart, set_uart. mrun. unfold compose. simpl.
  rewrite Hh, next_index, mod_succ by apply mod_index. unfold offer.
  case_bool.
  - assert (Z.of_nat (length q) + 1 ≠ UART_BUFFER_SIZE) as Hne.
    { intros E. apply Heqb. rewrite E. unfold UART_BUFFER_SIZE in *.
      replace (uart_tail (uart s) + 64) with (uart_tail (uart s) + 1 * 64) by lia.
      rewrite Z.mod_add by lia. apply Z.mod_small. lia. }
    rewrite (proj2 (Z.ltb_lt (Z.of_nat (length q)) _)) by lia.
    mrun. simpl. rewrite array_set_Some by (rewrite Hl; pose proof (mod_index (uart_tail (uart s)) (Z.of_nat (length q)));
      unfold UART_BUFFER_SIZE in *; lia).
    simpl. mrun. eexists. split; [by destruct s|]. split; [|done]. split; simpl.
    + by rewrite length_insert.
    + done.
    + rewrite length_app. simpl. lia.
    + rewrite length_app. simpl. f_equal. lia.
    + intros i c' Hi. pose proof (lookup_lt_Some _ _ _ Hi) as Hlen. rewrite length_app in Hlen. simpl in Hlen.
      rewrite array_get_insert; [|rewrite Hl; pose proof (mod_index (uart_tail (uart s)) (Z.of_nat (length q)));
        unfold UART_BUFFER_SIZE in *; lia|apply mod_index].
      case_decide as E.
      * apply ring_index_inj in E; [|lia..]. assert (i = length q) as -> by lia.
        rewrite lookup_app_r in Hi by lia. by rewrite Nat.sub_diag in Hi.
      * apply Hc. rewrite lookup_app_l in Hi; [done|]. destruct (decide (i = length q)) as [->|]; [done|lia].
  - mrun. exists (uart s). split; [by destruct s|].
    split; [|done]. assert (Z.of_nat (length q) + 1 = UART_BUFFER_SIZE) as E.
    { destruct (decide (Z.of_nat (length q) + 1 < UART_BUFFER_SIZE)) as [Hlt|]; [|lia]. exfalso.
      assert ((uart_tail (uart s) + (Z.of_nat (length q) + 1)) mod UART_BUFFER_SIZE =
              (uart_tail (uart s) + 0) mod UART_BUFFER_SIZE) as E0
        by (rewrite Heqb, Z.add_0_r, Z.mod_small; done).
      apply ring_index_inj in E0; [lia|lia|done]. }
    rewrite (proj2 (Z.ltb_ge (Z.of_nat (length q)) _)) by lia. done.
Qed.

(** ** Transmission changes nothing but the transmitted bytes *)
Definition with_output (l : list Z) (s : Machine) : Machine :=
  with_uart (with_device (with_transmitted l (device (uart s))) (uart s)) s.

Lemma uart_putc_done c s : uart_putc c s = Done (tt, with_output (transmitted (device (uart s)) ++ [u8 c]) s).
Proof. done. Qed.

Lemma uart_puts_run str : ∀ s, uart_puts str s = Done (tt, with_output (transmitted (device (uart s)) ++ map u8 str) s).
Proof.
  induction str as [|c str IH]; intros s; cbn [uart_puts map].
  - rewrite app_nil_r. unfold mret, M_ret. do 2 f_equal. by destruct s as [? [? ? ? ? []] ? ? ?].
  - rewrite (bind_done _ _ _ _ _ (uart_putc_done c s)), IH. do 2 f_equal. unfold with_output. cbn. by rewrite <- app_assoc.
Qed.

Lemma uart_puts_done str s : ∃ l, uart_puts str s = Done (tt, with_output l s).
Proof. eexists. apply uart_puts_run. Qed.

Lemma uart_ring_output u q l : uart_ring u q → uart_ring (with_device l u) q.
Proof. by intros []. Qed.

(** ** The interrupt handler *)

(** A data register value without error bits. *)
Definition error_free (dr : Z) : Prop := Z.land (Z.shiftr dr 8) 15 = 0.

Lemma awake_twice waiting c : waiting ≠ PROCESS_READY → awake waiting (awake waiting c) = awake waiting c.
Proof.
  intros Hw. unfold awake. destruct (state c =? waiting) eqn:E; [|by rewrite E].
  change (state (with_state PROCESS_READY c)) with PROCESS_READY.
  rewrite (proj2 (Z.eqb_neq PROCESS_READY waiting)); [done|]. by intros <-.
Qed.

Lemma uart_receive_spec d s a q dr :
  R (kernel s) a → Inv d a → uart_ring (uart s) q → error_free dr →
  ∃ s' a', uart_receive dr s = Done (tt, s') ∧ R (kernel s') a' ∧ Inv d a' ∧
    uart_ring (uart s') (offer q (Z.land dr 255)) ∧ device (uart s') = device (uart s) ∧
    uart_owner (uart s') = uart_owner (uart s) ∧
    ∀ x c, a_pcbs a !! x = Some c → a_pcbs a' !! x = Some (awake PROCESS_WAITING_UART_INPUT c).
Proof.
  intros HR HI Hq Hdr. destruct (uart_store_spec s q (Z.land dr 255) Hq) as (u & Hu & Hr & Hdev & Hown).
  destruct (inv_slots _ _ HI) as ([Hn1 Hn2] & _).
  destruct (wake_slots_sim (Z.to_nat (n_processes (a_globals a))) (kernel s) d a
    PROCESS_WAITING_UART_INPUT 0 HR HI) as [(k' & Hk' & HR') HI']; [done|done|lia|].
  exists (with_kernel k' (with_uart u s)). eexists. split; [|split; [exact HR'|split; [exact HI'|]]].
  - unfold uart_receive. rewrite Hdr. cbn [Z.eqb negb]. erewrite bind_done by exact Hu.
    erewrite bind_done by (by apply on_kernel_done). apply on_kernel_done. simpl. unfold compose.
    rewrite <- (R_globals _ _ HR). exact Hk'.
  - split; [done|]. split; [done|]. split; [done|]. intros x c Hx.
    rewrite (wake_slots_lookup _ (kernel s) d _ _ a x c HR HI); [|done|done|lia|done].
    destruct (wf_pid _ (inv_WF _ _ HI) x c Hx) as [Hp1 Hp2]. rewrite decide_True; [done|].
    destruct (decide (pid c < n_processes (a_globals a))) as [|Hge]; [lia|].
    destruct (inv_slots _ _ HI) as (_ & Hfree & _). rewrite Hfree in Hp2 by lia. done.
Qed.

Lemma rx_loop_spec l fuel d s a q :
  R (kernel s) a → Inv d a → uart_ring (uart s) q → rx_fifo (device (uart s)) = l →
  Forall error_free l → (length l < fuel)%nat →
  ∃ s' a', rx_loop fuel uart_receive s = Done (tt, s') ∧ R (kernel s') a' ∧ Inv d a' ∧
    uart_ring (uart s') (foldl offer q (map (λ dr, Z.land dr 255) l)) ∧
    device (uart s') = with_rx_fifo [] (device (uart s)) ∧
    uart_owner (uart s') = uart_owner (uart s) ∧
    ∀ x c, a_pcbs a !! x = Some c →
      a_pcbs a' !! x = Some (if decide (l = []) then c else awake PROCESS_WAITING_UART_INPUT c).
Proof.
  revert fuel s a q. induction l as [|dr l IH]; intros [|fuel] s a q HR HI Hq Hl He Hf; simpl in Hf; try lia.
  - exists s, a. simpl rx_loop. unfold get_uart. mrun. unfold compose. rewrite Hl.
    repeat (split; [done|]). split; [by destruct (device (uart s)); simplify_eq/=|done].
  - inversion He as [|? ? Hdr He']; subst. simpl rx_loop. unfold get_uart, set_device, set_uart. mrun. unfold compose.
    rewrite Hl. mrun. set (s1 := with_uart _ s).
    destruct (uart_receive_spec d s1 a q dr HR HI) as (s2 & a2 & H2 & HR2 & HI2 & Hq2 & Hd2 & Ho2 & Hx2);
      [by apply uart_ring_output|done|].
    destruct (IH fuel s2 a2 _ HR2 HI2 Hq2) as (s3 & a3 & H3 & HR3 & HI3 & Hq3 & Hd3 & Ho3 & Hx3);
      [by rewrite Hd2|done|lia|].
    exists s3, a3. erewrite bind_done by exact H2. split; [done|]. split; [done|]. split; [done|].
    split; [exact Hq3|]. split; [by rewrite Hd3, Hd2|]. split; [by rewrite Ho3, Ho2|].
    intros x c Hx. rewrite (Hx3 _ _ (Hx2 _ _ Hx)). rewrite (decide_False (P := dr :: l = [])) by done.
    case_decide; [done|]. by rewrite awake_twice.
Qed.

Lemma offer_fold q cs :
  Z.of_nat (length q) < UART_BUFFER_SIZE → foldl offer q cs = take 63 (q ++ cs).
Proof.
  unfold UART_BUFFER_SIZE. revert q. induction cs as [|c cs IH]; intros q Hq; simpl.
  - rewrite app_nil_r, take_ge; [done|lia].
  - unfold offer at 2, UART_BUFFER_SIZE. case_bool.
    + rewrite IH by (rewrite length_app; simpl; lia). by rewrite <- app_assoc.
    + rewrite IH by done. rewrite !take_app_le by lia. done.
Qed.

(** The receive interrupt. Error-free characters waiting in the device enter
    the ring buffer in order, as far as its 63 places go (the rest is dropped), the
    device's FIFO is left empty and the interrupt is cleared; if a character came,
    every process blocked in syscall_input becomes READY and no other process is
    touched; the scheduler's invariant is kept. *)
Theorem uart_receive_interrupt d s a q :
  R (kernel s) a → Inv d a → uart_ring (uart s) q → uart_mis (device (uart s)) = 16 →
  Forall error_free (rx_fifo (device (uart s))) →
  let l := rx_fifo (device (uart s)) in
  ∃ s' a', handle_uart_irq s = Done (tt, s') ∧ R (kernel s') a' ∧ Inv d a' ∧
    uart_ring (uart s') (take 63 (q ++ map (λ dr, Z.land dr 255) l)) ∧
    rx_fifo (device (uart s')) = [] ∧ uart_icr (device (uart s')) = 16 ∧
    uart_owner (uart s') = uart_owner (uart s) ∧
    ∀ x c, a_pcbs a !! x = Some c →
      a_pcbs a' !! x = Some (if decide (l = []) then c else awake PROCESS_WAITING_UART_INPUT c).
Proof.
  intros HR HI Hq Hm He l.
  destruct (rx_loop_spec l (S (length l)) d s a q HR HI Hq eq_refl He) as (s' & a' & H & HR' & HI' & Hq' & Hd & Ho & Hx);
    [lia|].
  exists (with_uart (with_device (with_icr 16 (device (uart s'))) (uart s')) s'), a'.
  split; [|split; [exact HR'|split; [exact HI'|split; [|split; [by simpl; rewrite Hd|split; [done|split; [done|done]]]]]]].
  - unfold handle_uart_irq, get_uart. mrun. unfold compose. rewrite Hm.
    change (Z.testbit 16 4) with true. change (Z.testbit 16 5) with false. change (Z.testbit 16 6) with false.
    unfold rx_all, get_uart. mrun. unfold compose. fold l. erewrite bind_done by exact H.
    unfold set_device, set_uart. by mrun.
  - apply uart_ring_output. rewrite <- offer_fold; [done|]. by apply (ur_space _ _ Hq).
Qed.

Definition uart_with (fifo : list Z) (mis : Z) (chars : list Z) : Uart :=
  mk_Uart None (chars ++ replicate (64 - length chars) 0) (Z.of_nat (length chars)) 0 (mk_UartDevice fifo mis 0 0 []).

Definition demo_machine (alg : algorithm) (u : Uart) : Machine := mk_Machine (demo alg) u ∅ ∅ (-1).

Lemma uart_receive_interrupt_witness :
  ∃ s', handle_uart_irq (demo_machine SJF (uart_with [104; 105] 16 [111])) = Done (tt, s') ∧
        uart_ring (uart s') [111; 104; 105].
Proof.
  destruct (demo_ok SJF) as [HR HI].
  destruct (uart_receive_interrupt 0 (demo_machine SJF (uart_with [104; 105] 16 [111])) (a_demo SJF) [111] HR HI)
    as (s' & a' & H & _ & _ & Hq & _).
  - split; try done. intros [|[|i]] c Hi; [|done..]. by injection Hi as <-.
  - done.
  - by repeat constructor.
  - exists s'. split; [exact H|exact Hq].
Defined.

(** What the timeout branch transmits for a character: the character and a newline. *)
Definition echo_of (dr : Z) : list Z := [Z.land dr 255; 10].

Lemma uart_echo_run dr s : uart_echo dr s = Done (tt, with_output (transmitted (device (uart s)) ++ echo_of dr) s).
Proof.
  assert (u8 (Z.land dr 255) = Z.land dr 255) as E.
  { change 255 with (Z.ones 8). rewrite Z.land_ones by lia. by apply Z.mod_mod. }
  unfold uart_echo, echo_of. rewrite (bind_done _ _ _ _ _ (uart_putc_done _ s)), E. cbn [uart_puts].
  rewrite (bind_done _ _ _ _ _ (uart_putc_done _ _)). change (u8 10) with 10. unfold mret, M_ret. do 2 f_equal.
  destruct s as [? [? ? ? ? []]]. unfold with_output. cbn. by rewrite <- app_assoc.
Qed.

(** The state after the timeout branch has read the characters [l]. *)
Definition echoed (l : list Z) (s : Machine) : Machine :=
  with_uart (with_device (with_rx_fifo [] (with_transmitted (transmitted (device (uart s)) ++ concat (map echo_of l)) (device (uart s)))) (uart s)) s.

Lemma echo_loop l : ∀ fuel s, rx_fifo (device (uart s)) = l → (length l < fuel)%nat →
  rx_loop fuel uart_echo s = Done (tt, echoed l s).
Proof.
  induction l as [|dr l IH]; intros [|fuel] s Hl Hf; simpl in Hf; try lia; cbn [rx_loop]; unfold get_uart, set_device, set_uart; mrun;
    unfold compose; rewrite Hl.
  - unfold echoed, mret, M_ret. do 2 f_equal. destruct s as [? [? ? ? ? []]]. cbn in Hl |- *. by rewrite app_nil_r, Hl.
  - mrun. rewrite (bind_done _ _ _ _ _ (uart_echo_run dr _)), IH by (reflexivity || lia).
    unfold echoed. do 2 f_equal. destruct s as [? [? ? ? ? []]]. unfold with_output. cbn. by rewrite <- app_assoc.
Qed.

(** C37: the receive-timeout interrupt loses characters. When only the timeout bit
    is set, which is how the device signals characters that do not fill its FIFO
    to the trigger level, the handler reads them all and transmits a message and
    then each of them, in order and followed by a newline; it clears the interrupt
    and changes nothing else: the ring buffer does not get the characters, and the
    processes that wait for input are left as they were. *)
Theorem uart_timeout_loses s :
  uart_mis (device (uart s)) = 64 →
  ∃ s', handle_uart_irq s = Done (tt, s') ∧ rx_fifo (device (uart s')) = [] ∧
    transmitted (device (uart s')) = transmitted (device (uart s)) ++ timeout_text ++ concat (map echo_of (rx_fifo (device (uart s)))) ∧
    uart_icr (device (uart s')) = 64 ∧
    kernel s' = kernel s ∧ uart_buffer (uart s') = uart_buffer (uart s) ∧
    uart_head (uart s') = uart_head (uart s) ∧ uart_tail (uart s') = uart_tail (uart s) ∧
    uart_owner (uart s') = uart_owner (uart s).
Proof.
  intros Hm. pose proof (uart_puts_run timeout_text s) as Hout. change (map u8 timeout_text) with timeout_text in Hout.
  set (s1 := with_output _ s) in Hout.
  pose proof (echo_loop _ (S (length (rx_fifo (device (uart s1))))) s1 eq_refl (Nat.lt_succ_diag_r _)) as H.
  eexists (with_uart (with_device (with_icr 64 _) _) _). split.
  - unfold handle_uart_irq, get_uart. mrun. unfold compose. rewrite Hm.
    change (Z.testbit 64 4) with false. change (Z.testbit 64 5) with false. change (Z.testbit 64 6) with true.
    cbv iota. mrun. rewrite (bind_done _ _ _ _ _ Hout). unfold rx_all, get_uart. mrun. unfold compose.
    rewrite (bind_done _ _ _ _ _ H). unfold set_device, set_uart. by mrun.
  - split; [done|]. split; [|done]. cbn. by rewrite <- app_assoc.
Qed.

Lemma uart_timeout_loses_witness :
  ∃ s', handle_uart_irq (demo_machine SJF (uart_with [104; 105] 64 [])) = Done (tt, s') ∧
        rx_fifo (device (uart s')) = [] ∧ uart_head (uart s') = 0 ∧
        transmitted (device (uart s')) = timeout_text ++ [104; 10; 105; 10].
Proof.
  destruct (uart_timeout_loses (demo_machine SJF (uart_with [104; 105] 64 []))) as (s' & H & Hf & Ht & _ & _ & _ & Hh & _);
    [done|]. exists s'. split; [exact H|]. split; [exact Hf|]. split; [exact Hh|exact Ht].
Defined.

(** ** Line editing *)
Definition ends_input (c : Z) : bool := (c =? 13) || (c =? 10).

(** The line after the characters [cs] are typed: a DEL removes the last character,
    characters beyond [max] are ignored. *)
Definition type_char (max : Z) (line : list Z) (c : Z) : list Z :=
  if c =? 127 then removelast line
  else if Z.of_nat (length line) <? max then line ++ [c] else line.
Definition edit (max : Z) (line cs : list Z) : list Z := foldl (type_char max) line cs.

(** The caller's array holds the line, and is long enough for [max] characters
    and a NUL. *)
Definition holds_line (max : Z) (buffer line : list Z) : Prop :=
  take (length line) buffer = line ∧ Z.of_nat (length line) ≤ max < Z.of_nat (length buffer).

Lemma take_insert_last {A} (l : list A) (n : nat) (x : A) :
  (n < length l)%nat → take (S n) (<[n := x]> l) = take n l ++ [x].
Proof.
  intros Hn. rewrite (take_S_r _ _ x) by (by apply list_lookup_insert_eq).
  by rewrite take_insert_ge by lia.
Qed.

Lemma holds_type max buffer line c :
  holds_line max buffer line → Z.of_nat (length line) < max →
  holds_line max (<[S (length line) := 0]> (<[length line := c]> buffer)) (line ++ [c]).
Proof.
  intros [Ht Hl] Hm. split; rewrite length_app; simpl.
  - rewrite Nat.add_1_r, take_insert_ge by lia. rewrite take_insert_last by lia. by rewrite Ht.
  - rewrite !length_insert. lia.
Qed.

Lemma length_removelast (line : list Z) : line ≠ [] → (length line = S (length (removelast line)))%nat.
Proof.
  intros Hne. destruct (app_removelast_last 0 Hne) as [].
  rewrite (app_removelast_last 0 Hne) at 1. rewrite length_app. simpl. lia.
Qed.

Lemma holds_delete max buffer line :
  holds_line max buffer line → line ≠ [] →
  holds_line max (<[length (removelast line) := 0]> buffer) (removelast line).
Proof.
  intros [Ht Hl] Hne. pose proof (length_removelast line Hne) as E. split.
  - rewrite take_insert_ge by lia.
    transitivity (take (length (removelast line)) (take (length line) buffer)).
    + rewrite take_take. f_equal. lia.
    + rewrite Ht. rewrite (app_removelast_last 0 Hne) at 2. apply take_app_length.
  - rewrite length_insert. lia.
Qed.

Lemma uart_ring_empty u : uart_ring u [] → uart_tail u = uart_head u.
Proof. intros [Hl Ht Hs Hh Hc]. rewrite Hh. simpl. rewrite Z.add_0_r. symmetry. by apply Z.mod_small. Qed.

Lemma uart_ring_take u c q :
  uart_ring u (c :: q) →
  array_get (uart_buffer u) (uart_tail u) = Some c ∧ uart_tail u ≠ uart_head u ∧
  uart_ring (with_uart_tail (Z.rem (uart_tail u + 1) UART_BUFFER_SIZE) u) q.
Proof.
  intros [Hl Ht Hs Hh Hc]. simpl length in *. split; [|split].
  - specialize (Hc 0%nat c eq_refl). rewrite Z.add_0_r, Z.mod_small in Hc by done. done.
  - rewrite Hh. intros E. rewrite <- (Z.mod_small (uart_tail u) UART_BUFFER_SIZE) in E at 1 by done.
    rewrite <- (Z.add_0_r (uart_tail u)) in E at 1. apply ring_index_inj in E; [lia|done|lia].
  - rewrite next_index by done. split; simpl; [done|apply mod_index|lia| |].
    + rewrite Hh, Z.add_mod_idemp_l by done. f_equal. lia.
    + intros i c' Hi. rewrite Z.add_mod_idemp_l by done. specialize (Hc (S i) c' Hi).
      rewrite <- Hc. f_equal. f_equal. lia.
Qed.

(** The machine after one character has been taken from the ring and echoed. *)
Lemma input_step s c q :
  uart_ring (uart s) (c :: q) →
  ∃ s', uart_ring (uart s') q ∧ kernel s' = kernel s ∧ uart_owner (uart s') = uart_owner (uart s) ∧
    ∀ fuel buffer n max,
    input_drain (S fuel) buffer n max s =
    (if (c =? 13) || (c =? 10) then
       set_uart (with_uart_owner None);;
       buffer ← put_char buffer n 0;
       mret (inl (n, buffer))
     else if c =? 127 then
       if 0 <? n then
         uart_puts [8; 32; 8];;
         buffer ← put_char buffer (n - 1) 0;
         input_drain fuel buffer (n - 1) max
       else input_drain fuel buffer n max
     else if n <? max then
       buffer ← put_char buffer n c;
       buffer ← put_char buffer (n + 1) 0;
       input_drain fuel buffer (n + 1) max
     else input_drain fuel buffer n max) s'.
Proof.
  intros Hq. destruct (uart_ring_take _ _ _ Hq) as (Hc & Hne & Hq').
  set (s1 := with_uart (with_uart_tail (Z.rem (uart_tail (uart s) + 1) UART_BUFFER_SIZE) (uart s)) s).
  exists (with_output (transmitted (device (uart s)) ++ [u8 c]) s1).
  split; [by apply uart_ring_output|]. split; [done|]. split; [done|]. intros fuel buffer n max.
  cbn [input_drain]. unfold get_uart, set_uart. mrun. unfold compose. rewrite (proj2 (Z.eqb_neq _ _) Hne).
  mrun. rewrite Hc. erewrite bind_require_some by done. mrun. by erewrite bind_done by apply uart_putc_done.
Qed.

Lemma put_char_done buffer i v s :
  0 ≤ i < Z.of_nat (length buffer) → put_char buffer i v s = Done (<[Z.to_nat i := v]> buffer, s).
Proof. intros Hi. unfold put_char. by rewrite array_set_Some by done. Qed.

Lemma input_drain_spec cs fuel s buffer line max rest :
  uart_ring (uart s) (cs ++ rest) → Forall (λ c, ends_input c = false) cs → (length cs < fuel)%nat →
  holds_line max buffer line →
  (rest = [] ∨ ∃ nl r, rest = nl :: r ∧ ends_input nl = true) →
  let line' := edit max line cs in
  ∃ s' buffer',
    input_drain fuel buffer (Z.of_nat (length line)) max s =
      Done ((if rest then inr else inl) (Z.of_nat (length line'), buffer'), s') ∧
    kernel s' = kernel s ∧ uart_ring (uart s') (tl rest) ∧ holds_line max buffer' line' ∧
    length buffer' = length buffer ∧
    (if rest then uart_owner (uart s') = uart_owner (uart s)
     else uart_owner (uart s') = None ∧ array_get buffer' (Z.of_nat (length line')) = Some 0).
Proof.
  revert fuel s buffer line. induction cs as [|c cs IH]; intros [|fuel] s buffer line Hq Hcs Hf Hh Hr; simpl in Hf; try lia.
  - simpl in *. destruct Hr as [->|(nl & r & -> & Hnl)].
    + exists s, buffer. split; [|done]. unfold get_uart. mrun. unfold compose.
      rewrite (uart_ring_empty _ Hq), Z.eqb_refl. done.
    + destruct (input_step s nl r Hq) as (s1 & Hq1 & Hk1 & Ho1 & Hstep). cbn [input_drain] in Hstep.
      rewrite Hstep. unfold ends_input in Hnl. rewrite Hnl. unfold set_uart. mrun.
      destruct Hh as [Ht Hl]. erewrite bind_done by (apply put_char_done; lia).
      eexists _, _. split; [done|]. split; [done|]. split; [|split; [|split; [|split; [done|]]]].
      * by destruct Hq1.
      * split; [|rewrite length_insert; lia]. by rewrite Nat2Z.id, take_insert_ge by lia.
      * by rewrite length_insert.
      * rewrite Nat2Z.id, array_get_nat. apply list_lookup_insert_eq. lia.
  - inversion Hcs as [|? ? Hc Hcs']; subst. destruct (input_step s c (cs ++ rest) Hq) as (s1 & Hq1 & Hk1 & Ho1 & Hstep).
    rewrite Hstep. unfold ends_input in Hc. rewrite Hc.
    change (edit max line (c :: cs)) with (edit max (type_char max line c) cs). unfold type_char.
    destruct (c =? 127) eqn:Ed.
    + destruct (decide (line = [])) as [->|Hne].
      * destruct (IH fuel s1 buffer [] Hq1 Hcs') as (s' & b' & H & Hk & Hrest); [lia|done|done|].
        exists s', b'. rewrite Hk1, Ho1 in *. done.
      * pose proof (length_removelast line Hne) as El. rewrite (proj2 (Z.ltb_lt 0 _)) by lia.
        destruct (uart_puts_done [8; 32; 8] s1) as [out Hout]. erewrite bind_done by exact Hout.
        destruct Hh as [Ht Hl]. erewrite bind_done by (apply put_char_done; lia).
        replace (Z.of_nat (length line) - 1) with (Z.of_nat (length (removelast line))) by lia. rewrite Nat2Z.id.
        destruct (IH fuel (with_output out s1) (<[length (removelast line) := 0]> buffer) (removelast line))
          as (s' & b' & H & Hk & Hq' & Hh' & Hlb & Hrest);
          [by apply uart_ring_output|done|lia|by apply holds_delete|done|].
        exists s', b'. rewrite length_insert in Hlb. simpl in Hk, Hrest. rewrite Hk1, Ho1 in *. done.
    + case_bool.
      * destruct Hh as [Ht Hl]. erewrite bind_done by (apply put_char_done; lia). rewrite Nat2Z.id.
        erewrite bind_done by (apply put_char_done; rewrite length_insert; lia).
        replace (Z.of_nat (length line) + 1) with (Z.of_nat (length (line ++ [c]))) by (rewrite length_app; simpl; lia).
        destruct (IH fuel s1 (<[S (length line) := 0]> (<[length line := c]> buffer)) (line ++ [c]) Hq1 Hcs')
          as (s' & b' & Hd & Hk & Hq' & Hh' & Hlb & Hrest); [lia|by apply holds_type|done|].
        exists s', b'. rewrite !length_insert in Hlb. rewrite Hk1, Ho1 in *.
        replace (Z.to_nat (Z.of_nat (length (line ++ [c])))) with (S (length line))
          by (rewrite length_app; simpl; lia). done.
      * destruct (IH fuel s1 buffer line Hq1 Hcs') as (s' & b' & Hd & Hk & Hrest); [lia|done|done|].
        exists s', b'. rewrite Hk1, Ho1 in *. done.
Qed.

(** Syscall_input edits a line correctly and within its buffer. From a turn
    that starts with the characters [line] already in the caller's array, the
    characters in the ring up to the first CR or LF are applied in order (DEL
    erases the last one, characters beyond the limit are ignored, every write is
    inside the array). If the line is complete, the call returns its length, the
    array holds it with a NUL, the UART is released and the rest of the ring is
    left for the next call. Otherwise the process blocks in the state
    PROCESS_WAITING_UART_INPUT, another one is scheduled, and the array keeps the
    characters typed so far. *)
Theorem input_turn_spec s a buffer line max cs rest :
  R (kernel s) a → Inv 0 a → running a →
  uart_ring (uart s) (cs ++ rest) → Forall (λ c, ends_input c = false) cs →
  (rest = [] ∨ ∃ nl r, rest = nl :: r ∧ ends_input nl = true) → holds_line max buffer line →
  let line' := edit max line cs in
  ∃ s' buffer',
    uart_ring (uart s') (tl rest) ∧ holds_line max buffer' line' ∧ length buffer' = length buffer ∧
    if rest then
      input_turn buffer (Z.of_nat (length line)) max s = Done (InputBlocked (Z.of_nat (length line')) buffer', s') ∧
      R (kernel s') (a_block PROCESS_WAITING_UART_INPUT a) ∧ Inv 0 (a_block PROCESS_WAITING_UART_INPUT a)
    else
      input_turn buffer (Z.of_nat (length line)) max s = Done (InputLine (Z.of_nat (length line')) buffer', s') ∧
      take (S (length line')) buffer' = line' ++ [0] ∧ uart_owner (uart s') = None ∧ kernel s' = kernel s.
Proof.
  intros HR HI Hrun Hq Hcs Hr Hh line'.
  destruct (input_drain_spec cs (Z.to_nat UART_BUFFER_SIZE) s buffer line max rest Hq Hcs)
    as (s1 & b1 & H1 & Hk1 & Hq1 & Hh1 & Hl1 & Ho1); [|done|done|].
  { pose proof (ur_space _ _ Hq) as Hs. rewrite length_app in Hs. lia. }
  destruct rest as [|nl r].
  - destruct (block_sim (kernel s) a PROCESS_WAITING_UART_INPUT HR HI Hrun ltac:(done)) as [(k' & Hk' & HR') HI'].
    exists (with_kernel k' s1), b1. split; [done|]. split; [done|]. split; [done|]. split; [|done].
    unfold input_turn. erewrite bind_done by exact H1.
    apply bind_inv in Hk' as (p & k0 & Hp & Hk'). apply bind_inv in Hk' as (u & k2 & Hst & Hsc).
    rewrite <- Hk1 in Hp. pose proof Hp as [= _ Ek0]. subst k0.
    erewrite bind_done by (apply on_kernel_done; exact Hp).
    erewrite bind_done by (apply on_kernel_done; exact Hst).
    by erewrite bind_done by (apply on_kernel_done; exact Hsc).
  - destruct Ho1 as [Ho Hz]. exists s1, b1. split; [done|]. split; [done|]. split; [done|]. split; [|split; [|done]].
    + unfold input_turn. by erewrite bind_done by exact H1.
    + rewrite (take_S_r _ _ 0) by (by rewrite <- array_get_nat). f_equal. apply Hh1.
Qed.

Lemma input_turn_spec_witness :
  ∃ s' buffer', input_turn (replicate 8 0) 0 7 (mk_Machine (demo_run MLQ) (uart_with [] 0 [108; 115; 120; 127; 13]) ∅ ∅ (-1)) =
    Done (InputLine 2 buffer', s') ∧ take 3 buffer' = [108; 115; 0].
Proof.
  destruct (demo_run_ok MLQ) as (HR & HI & Hrun).
  set (s := mk_Machine (demo_run MLQ) (uart_with [] 0 [108; 115; 120; 127; 13]) ∅ ∅ (-1)).
  destruct (input_turn_spec s (a_demo_run MLQ) (replicate 8 0) [] 7 [108; 115; 120; 127] [13] HR HI Hrun)
    as (s' & b' & _ & _ & _ & H & Ht & _).
  - split; try done. intros i c Hi. by do 5 (destruct i as [|i]; [by injection Hi as <-|]).
  - by repeat constructor.
  - right. by exists 13, [].
  - done.
  - exists s', b'. split; [exact H|exact Ht].
Defined.
