(* ===== verification/Irq.v ===== *)
(** * The interrupt controller and the system timer: drivers/irq, drivers/timer

    Interrupts come from two devices: compare register 1 of the system timer and
    the UART.  The model adds the registers of both drivers to the machine; the
    pending registers are what handle_irq reads of the controller, so its
    arguments.  The vectors and register saving of entry.S are not modelled. *)
From stdpp Require Import base gmap list strings relations.
From Stdlib Require Import ZArith Lia.
From S2P Require Import Prelude Mem CString Kernel Queue Scheduler SchedulerSpec Dispatch Entries Boot Ipc Machine Uart.

#[local] Open Scope Z_scope.

Definition SYSTEM_TIMER_IRQ_1 : Z := Z.shiftl 1 1.
Definition UART0_IRQ_BIT : Z := Z.shiftl 1 25.
Definition TIMER_CS_M1 : Z := Z.shiftl 1 1.
Definition TIMER_PERIOD : Z := 10000.

(** The machine with the variable of timer.c and the registers both drivers write:
    compare register 1, the last acknowledgement and the enable registers. *)
Record Irq : Type := mk_Irq {
  machine : Machine;
  curVal : Z;
  timer_c1 : Z;
  timer_cs : Z;
  irqs_1 : Z;
  irqs_2 : Z
}.

Definition with_machine (m : Machine) (s : Irq) : Irq := mk_Irq m (curVal s) (timer_c1 s) (timer_cs s) (irqs_1 s) (irqs_2 s).
Definition with_curVal (v : Z) (s : Irq) : Irq := mk_Irq (machine s) v (timer_c1 s) (timer_cs s) (irqs_1 s) (irqs_2 s).
Definition with_timer_c1 (v : Z) (s : Irq) : Irq := mk_Irq (machine s) (curVal s) v (timer_cs s) (irqs_1 s) (irqs_2 s).
Definition with_timer_cs (v : Z) (s : Irq) : Irq := mk_Irq (machine s) (curVal s) (timer_c1 s) v (irqs_1 s) (irqs_2 s).
Definition with_irqs_1 (v : Z) (s : Irq) : Irq := mk_Irq (machine s) (curVal s) (timer_c1 s) (timer_cs s) v (irqs_2 s).
Definition with_irqs_2 (v : Z) (s : Irq) : Irq := mk_Irq (machine s) (curVal s) (timer_c1 s) (timer_cs s) (irqs_1 s) v.

(** An operation of the kernel and the UART driver. *)
Definition on_machine {A} (m : M Machine A) : M Irq A := λ s,
  match m (machine s) with
  | Done (a, k) => Done (a, with_machine k s)
  | Fault e => Fault e
  end.

(** ** drivers/timer/timer.c *)

(** [curVal += TIMER_PERIOD; mmio_write(TIMER_C1, curVal);] *)
Definition next_tick : M Irq unit :=
  v ← gets curVal;
  modify (with_curVal (u32 (v + TIMER_PERIOD)));;
  v ← gets curVal;
  modify (with_timer_c1 v).

(** [clo] is the counter's value. *)
Definition timer_init (clo : Z) : M Irq unit := modify (with_curVal (u32 clo));; next_tick.

Definition handle_timer_irq : M Irq unit :=
  modify (with_timer_cs TIMER_CS_M1);;
  next_tick;;
  on_machine (on_kernel handle_timer_tick).

(** ** drivers/irq/controller.c *)
Definition entry_error_messages : list (list Z) := text <$> [
  "SYNC_INVALID_EL1t"; "IRQ_INVALID_EL1t"; "FIQ_INVALID_EL1t"; "ERROR_INVALID_EL1T";
  "SYNC_INVALID_EL1h"; "IRQ_INVALID_EL1h"; "FIQ_INVALID_EL1h"; "ERROR_INVALID_EL1h";
  "SYNC_INVALID_EL0_64"; "IRQ_INVALID_EL0_64"; "FIQ_INVALID_EL0_64"; "ERROR_INVALID_EL0_64";
  "SYNC_INVALID_EL0_32"; "IRQ_INVALID_EL0_32"; "FIQ_INVALID_EL0_32"; "ERROR_INVALID_EL0_32"]%string.

(** Reading an enable register gives what is enabled. *)
Definition enable_interrupt_controller : M Irq unit :=
  v1 ← gets irqs_1; modify (with_irqs_1 (Z.lor v1 SYSTEM_TIMER_IRQ_1));;
  v2 ← gets irqs_2; modify (with_irqs_2 (Z.lor v2 UART0_IRQ_BIT)).

Definition show_invalid_entry_message (type esr address : Z) : M Machine unit :=
  uart_puts (text "[KERNEL PANIC] ");;
  message ← require OutOfBounds (array_get entry_error_messages type);
  uart_puts message;;
  uart_puts (text ", ESR: ");; uart_hex esr;;
  uart_puts (text ", address: ");; uart_hex address;;
  uart_puts (text ", process: ");;
  p ← on_kernel get_current;
  c ← on_kernel (load p);
  uart_hex (u64 (pid c));;
  uart_puts crlf.

(** One source is served for each interrupt, the timer first. *)
Definition handle_irq (p1 p2 : Z) : M Irq unit :=
  if negb (Z.land p1 SYSTEM_TIMER_IRQ_1 =? 0) then handle_timer_irq
  else if negb (Z.land p2 UART0_IRQ_BIT =? 0) then on_machine handle_uart_irq
  else on_machine (
    uart_puts (text "Unknown pending irq: ");;
    uart_hex (Z.lor (u64 (Z.shiftl p1 32)) p2);;
    uart_puts crlf).

(** The codes entry.S gives to faults of a process, 16 and 17, have no message. *)
Lemma panic_without_message type esr address s :
  16 ≤ type → show_invalid_entry_message type esr address s = Fault OutOfBounds.
Proof.
  intros Ht. unfold show_invalid_entry_message. destruct (uart_puts_done (text "[KERNEL PANIC] ") s) as [l Hl].
  rewrite (bind_done _ _ _ _ _ Hl). by rewrite array_get_None.
Qed.

(** ** What only transmits *)
Definition outputs (m : M Machine unit) : Prop := ∀ s, ∃ l, m s = Done (tt, with_output l s).

Lemma outputs_puts str : outputs (uart_puts str).
Proof. intros s. apply uart_puts_done. Qed.

Lemma outputs_putc c : outputs (uart_putc c).
Proof. intros s. eexists. apply uart_putc_done. Qed.

Lemma outputs_bind m m' : outputs m → outputs m' → outputs (m;; m').
Proof.
  intros H H' s. destruct (H s) as [l E]. destruct (H' (with_output l s)) as [l' E']. exists l'.
  by rewrite (bind_done _ _ _ _ _ E).
Qed.

Lemma outputs_hex num : outputs (uart_hex num).
Proof.
  apply outputs_bind; [apply outputs_puts|]. generalize 60. generalize 16%nat. intros n.
  induction n as [|n IH]; intros i; [apply (outputs_puts [])|]. cbn [hex_loop].
  change 15 with (Z.ones 4). rewrite Z.land_ones by lia.
  pose proof (Z.mod_pos_bound (Z.shiftr num i) (2 ^ 4)) as Hb.
  destruct (array_get_is_Some hex_digits (Z.shiftr num i mod 2 ^ 4)) as [c ->];
    [change (Z.of_nat (length hex_digits)) with 16; lia|].
  intros s. cbn [require]. mrun. by apply (outputs_bind _ _ (outputs_putc c) (IH (i - 4))).
Qed.

(** The dump of a ring whose messages are strings only transmits. *)
Lemma outputs_slots slots n : ∀ i,
  0 ≤ i → i + Z.of_nat n ≤ Z.of_nat (length slots) → Forall (λ m, is_Some (array_string (body m))) slots → outputs (print_slots n i slots).
Proof.
  induction n as [|n IH]; intros i Hi Hn Hs; [apply (outputs_puts [])|]. cbn [print_slots].
  destruct (array_get_is_Some slots i) as [m Em]; [lia|]. rewrite Em.
  assert (m ∈ slots) as Hm by (unfold array_get in Em; destruct (i <? 0); [done|]; by eapply list_elem_of_lookup_2).
  destruct (proj1 (Forall_forall _ _) Hs m Hm) as [t Et]. cbn [require].
  apply outputs_bind; [apply outputs_hex|]. apply outputs_bind; [apply outputs_puts|]. intros s. mrun. rewrite Et. cbn [require]. mrun.
  apply outputs_bind; [apply outputs_puts|]. apply outputs_bind; [apply outputs_puts|]. apply IH; [lia|lia|done].
Qed.

Lemma print_circular_buffer_run owner c s :
  heap (kernel s) !! owner = Some c → length (buffer (messages_buffer c)) = Z.to_nat MAX_MESSAGES_PER_PROCESS →
  Forall (λ m, is_Some (array_string (body m))) (buffer (messages_buffer c)) →
  ∃ l, print_circular_buffer owner s = Done (tt, with_output l s).
Proof.
  intros Hc Hl Hs. unfold print_circular_buffer.
  erewrite bind_done by (apply on_kernel_done; by apply load_some). rewrite with_kernel_same.
  cbv zeta. match goal with |- ∃ l, ?m s = _ => cut (outputs m); [by intros Ho; apply Ho|] end.
  do 5 (apply outputs_bind; [apply outputs_puts || apply outputs_hex|]). apply outputs_slots; [lia|lia|done].
Qed.

(** ** Every interrupt returns *)
Section returns.
(** The nesting of preempt_disable in the current process. *)
Context (d : Z) (Hd : 0 ≤ d).

Definition sound (s : Machine) : Prop := ∃ a q, R (kernel s) a ∧ Inv d a ∧ uart_ring (uart s) q.

(** From a sound state [m] returns in one; [quiet] if the receive FIFO is kept too. *)
Definition safe (m : M Machine unit) : Prop := ∀ s, sound s → ∃ s', m s = Done (tt, s') ∧ sound s'.
Definition quiet (m : M Machine unit) : Prop := ∀ s, sound s →
  ∃ s', m s = Done (tt, s') ∧ sound s' ∧ rx_fifo (device (uart s')) = rx_fifo (device (uart s)).

Lemma quiet_safe m : quiet m → safe m.
Proof. intros H s (s' & E & Hs & _)%H. by exists s'. Qed.

Lemma safe_ret : safe (mret tt).
Proof. intros s Hs. by exists s. Qed.

Lemma safe_bind m m' : safe m → safe m' → safe (m;; m').
Proof. intros H H' s (s1 & E1 & H1)%H. rewrite (bind_done _ _ _ _ _ E1). by apply H'. Qed.

Lemma safe_get {A} (f : Uart → A) (m : A → M Machine unit) : (∀ v, safe (m v)) → safe (get_uart f ≫= m).
Proof. intros H s Hs. unfold get_uart. mrun. by apply H. Qed.

Lemma sound_device f s : sound s → sound (with_uart (with_device (f (device (uart s))) (uart s)) s).
Proof. intros (a & q & HR & HI & Hq). exists a, q. split; [exact HR|]. split; [exact HI|]. by apply uart_ring_output. Qed.

Lemma safe_device f : safe (set_device f).
Proof. intros s Hs. eexists. split; [done|]. by apply sound_device. Qed.

Lemma quiet_outputs m : outputs m → quiet m.
Proof. intros H s Hs. destruct (H s) as [l E]. exists (with_output l s). split; [exact E|]. split; [|done]. by apply sound_device. Qed.

Lemma quiet_receive dr : quiet (uart_receive dr).
Proof.
  destruct (decide (error_free dr)) as [He|He].
  - intros s (a & q & HR & HI & Hq).
    destruct (uart_receive_spec d s a q dr HR HI Hq He) as (s' & a' & E & HR' & HI' & Hq' & Hdev & _).
    exists s'. split; [exact E|]. split; [by exists a', (offer q (Z.land dr 255))|]. by rewrite Hdev.
  - unfold uart_receive. rewrite (proj2 (Z.eqb_neq _ 0)) by exact He.
    cbn [negb]. apply quiet_outputs. apply outputs_bind; [apply outputs_puts|]. apply outputs_bind; [apply outputs_hex|apply outputs_puts].
Qed.

Lemma quiet_echo dr : quiet (uart_echo dr).
Proof. apply quiet_outputs, outputs_bind; [apply outputs_putc|apply outputs_puts]. Qed.

Lemma safe_rx_all body : (∀ dr, quiet (body dr)) → safe (rx_all body).
Proof.
  intros Hb. assert (∀ fuel s, sound s → (length (rx_fifo (device (uart s))) < fuel)%nat →
    ∃ s', rx_loop fuel body s = Done (tt, s') ∧ sound s') as Hloop.
  { induction fuel as [|fuel IH]; intros s Hs Hf; [lia|]. cbn [rx_loop]. unfold get_uart. mrun. unfold compose.
    destruct (rx_fifo (device (uart s))) as [|dr l] eqn:El; [by exists s|]. cbn [length] in Hf.
    unfold set_device, set_uart. mrun. set (s1 := with_uart _ s).
    assert (sound s1) as Hs1 by (by apply (sound_device (with_rx_fifo l))).
    destruct (Hb dr s1 Hs1) as (s2 & E2 & Hs2 & F2). rewrite (bind_done _ _ _ _ _ E2).
    apply IH; [exact Hs2|]. rewrite F2. simpl. lia. }
  intros s Hs. unfold rx_all, get_uart. mrun. apply Hloop; [exact Hs|]. unfold compose. lia.
Qed.

Lemma safe_uart_irq : safe handle_uart_irq.
Proof.
  apply safe_get. intros mis. repeat apply safe_bind.
  - destruct (Z.testbit mis 4); [|apply safe_ret].
    apply safe_bind; [apply safe_rx_all, quiet_receive|apply safe_device].
  - destruct (Z.testbit mis 5); [|apply safe_ret].
    apply safe_get. intros imsc. apply safe_bind; apply safe_device.
  - destruct (Z.testbit mis 6); [|apply safe_ret].
    apply safe_bind; [apply quiet_safe, quiet_outputs, outputs_puts|]. apply safe_bind; [apply safe_rx_all, quiet_echo|apply safe_device].
Qed.

Lemma safe_tick : safe (on_kernel handle_timer_tick).
Proof.
  intros s (a & q & HR & HI & Hq). destruct (tick_sim _ _ _ HR HI Hd) as [(k & E & HR') HI'].
  exists (with_kernel k s). split; [by apply on_kernel_done|]. by exists (a_tick a), q.
Qed.
End returns.

(** ** The timer's grid *)
Definition steady (m : Machine) : Prop := ∃ d, 0 ≤ d ∧ sound d m.
Definition timer_pending (p1 : Z) : bool := negb (Z.land p1 SYSTEM_TIMER_IRQ_1 =? 0).
Definition uart_pending (p2 : Z) : bool := negb (Z.land p2 UART0_IRQ_BIT =? 0).

Lemma on_machine_safe d m s : safe d m → sound d (machine s) →
  ∃ k, m (machine s) = Done (tt, k) ∧ on_machine m s = Done (tt, with_machine k s) ∧ sound d k.
Proof. intros H (k & E & Hk)%H. exists k. split; [exact E|]. split; [unfold on_machine; by rewrite E|exact Hk]. Qed.

(** What one interrupt does, whatever is pending. *)
Definition served (p1 p2 : Z) (s s' : Irq) : Prop :=
  if timer_pending p1 then
    on_kernel handle_timer_tick (machine s) = Done (tt, machine s') ∧
    timer_cs s' = TIMER_CS_M1 ∧ curVal s' = u32 (curVal s + TIMER_PERIOD) ∧ timer_c1 s' = curVal s'
  else timer_cs s' = timer_cs s ∧ curVal s' = curVal s ∧ timer_c1 s' = timer_c1 s ∧
    if uart_pending p2 then handle_uart_irq (machine s) = Done (tt, machine s')
    else kernel (machine s') = kernel (machine s) ∧
      ∃ out, uart (machine s') = with_device (with_transmitted out (device (uart (machine s)))) (uart (machine s)).

Lemma outputs_unknown p1 p2 : outputs (
  uart_puts (text "Unknown pending irq: ");; uart_hex (Z.lor (u64 (Z.shiftl p1 32)) p2);; uart_puts crlf).
Proof. apply outputs_bind; [apply outputs_puts|]. apply outputs_bind; [apply outputs_hex|apply outputs_puts]. Qed.

Lemma handle_irq_served p1 p2 s : steady (machine s) →
  ∃ s', handle_irq p1 p2 s = Done (tt, s') ∧ steady (machine s') ∧ served p1 p2 s s'.
Proof.
  intros (d & Hd & Hs). unfold handle_irq, served. fold (timer_pending p1) (uart_pending p2).
  destruct (timer_pending p1).
  - unfold handle_timer_irq, next_tick. mrun. set (s1 := with_timer_c1 _ _).
    destruct (on_machine_safe d _ s1 (safe_tick d Hd) Hs) as (k & E & E' & Hk).
    exists (with_machine k s1). split; [exact E'|]. split; [by exists d|]. by split; [exact E|].
  - destruct (uart_pending p2).
    + destruct (on_machine_safe d _ s (safe_uart_irq d) Hs) as (k & E & E' & Hk).
      exists (with_machine k s). split; [exact E'|]. split; [by exists d|]. repeat (split; [done|]). exact E.
    + destruct (outputs_unknown p1 p2 (machine s)) as [l E].
      exists (with_machine (with_output l (machine s)) s). split; [unfold on_machine; by rewrite E|].
      split; [exists d; split; [exact Hd|by apply sound_device]|]. repeat (split; [done|]). by exists l.
Qed.

(** Time passes: an interrupt is served, or the rest of the system runs and keeps
    the invariants.  The number counts the timer's interrupts. *)
Inductive irq_step : nat * Irq → nat * Irq → Prop :=
| step_irq n s s' p1 p2 : handle_irq p1 p2 s = Done (tt, s') → irq_step (n, s) ((if timer_pending p1 then S n else n), s')
| step_rest n s m : steady m → irq_step (n, s) (n, with_machine m s).

Lemma u32_add_l x y : u32 (u32 x + y) = u32 (x + y).
Proof. unfold u32, wrap_u. by rewrite Z.add_mod_idemp_l. Qed.

Definition on_grid (clo : Z) (n : nat) (s : Irq) : Prop :=
  steady (machine s) ∧ timer_c1 s = u32 (clo + (Z.of_nat n + 1) * TIMER_PERIOD) ∧ curVal s = timer_c1 s.

Lemma on_grid_init clo s : steady (machine s) → ∃ s', timer_init clo s = Done (tt, s') ∧ on_grid clo 0 s'.
Proof.
  intros Hs. unfold timer_init, next_tick. mrun. eexists. split; [done|]. split; [exact Hs|]. split; [|done].
  exact (u32_add_l clo TIMER_PERIOD).
Qed.

Lemma on_grid_step clo n s n' s' : irq_step (n, s) (n', s') → on_grid clo n s → on_grid clo n' s'.
Proof.
  intros Hstep (Hs & Hc & Hv). inversion Hstep as [? ? ? p1 p2 E|? ? m Hm]; subst; [|by split].
  destruct (handle_irq_served p1 p2 s Hs) as (s2 & E2 & Hs2 & Hx). rewrite E in E2. injection E2 as <-.
  unfold served in Hx. destruct (timer_pending p1).
  - destruct Hx as (_ & _ & Hcur & Hc1). split; [exact Hs2|]. split; [|by rewrite Hc1].
    rewrite Hc1, Hcur, Hv, Hc, u32_add_l. f_equal. lia.
  - destruct Hx as (_ & Hcur & Hc1 & _). split; [exact Hs2|]. by rewrite Hc1, Hcur.
Qed.

Lemma on_grid_steps clo x y : rtc irq_step x y → on_grid clo x.1 x.2 → on_grid clo y.1 y.2.
Proof. induction 1 as [|x y z Hxy _ IH]; [done|]. intros H. apply IH. destruct x, y. by eapply on_grid_step. Qed.

(** C8: the timer keeps its grid and no interrupt is fatal.  Whatever sequence of
    interrupts and other activity that keeps the scheduler's and the ring buffer's
    invariants follows timer_init, after n timer interrupts the compare register
    is the counter's value at the start plus n + 1 periods modulo 2^32, however
    late the handler ran; and the next interrupt, whatever it is, is handled
    without a fault and keeps the invariants: the timer's is acknowledged, moves
    the register by one period and is one tick of the scheduler (the UART's is
    left pending), the UART's runs its handler, an unknown one only prints. *)
Theorem timer_grid clo n s0 s :
  steady (machine s0) →
  ∃ s1, timer_init clo s0 = Done (tt, s1) ∧
    (rtc irq_step (0%nat, s1) (n, s) →
      timer_c1 s = u32 (clo + (Z.of_nat n + 1) * TIMER_PERIOD) ∧
      ∀ p1 p2, ∃ s', handle_irq p1 p2 s = Done (tt, s') ∧ steady (machine s') ∧ served p1 p2 s s').
Proof.
  intros H0. destruct (on_grid_init clo s0 H0) as (s1 & E & Hg). exists s1. split; [exact E|].
  intros Hrtc. destruct (on_grid_steps clo _ _ Hrtc Hg) as (Hs & Hc & _). split; [exact Hc|].
  intros p1 p2. by apply handle_irq_served.
Qed.

Definition demo_irq : Irq := mk_Irq (demo_machine SJF (uart_with [104; 0x141] 16 [])) 0 0 0 0 0.

Lemma demo_steady : steady (machine demo_irq).
Proof.
  destruct (demo_ok SJF) as [HR HI]. exists 0. split; [done|]. exists (a_demo SJF), [].
  split; [exact HR|]. split; [exact HI|]. by split.
Qed.

(** Both interrupts are pending: the timer's is served, then the UART's. *)
Lemma timer_grid_witness : ∃ s1 s2 s3,
  timer_init 4294960000 demo_irq = Done (tt, s1) ∧ handle_irq 2 33554432 s1 = Done (tt, s2) ∧
  handle_irq 0 33554432 s2 = Done (tt, s3) ∧ timer_c1 s3 = 12704.
Proof.
  destruct (timer_grid 4294960000 0 demo_irq demo_irq demo_steady) as (s1 & E1 & _).
  assert (∀ n s, rtc irq_step (0%nat, s1) (n, s) → timer_c1 s = u32 (4294960000 + (Z.of_nat n + 1) * TIMER_PERIOD) ∧
    ∀ p1 p2, ∃ s', handle_irq p1 p2 s = Done (tt, s') ∧ steady (machine s') ∧ served p1 p2 s s') as H.
  { intros n s. destruct (timer_grid 4294960000 n demo_irq s demo_steady) as (s1' & E1' & H'). rewrite E1 in E1'.
    injection E1' as <-. exact H'. }
  destruct (H 0%nat s1 (rtc_refl _ _)) as (_ & H1). destruct (H1 2 33554432) as (s2 & E2 & _).
  assert (rtc irq_step (0%nat, s1) (1%nat, s2)) as Hr1 by exact (rtc_once _ _ (step_irq 0 s1 s2 2 33554432 E2)).
  destruct (H 1%nat s2 Hr1) as (_ & H2). destruct (H2 0 33554432) as (s3 & E3 & _).
  exists s1, s2, s3. split; [exact E1|]. split; [exact E2|]. split; [exact E3|].
  apply (H 1%nat s3). eapply rtc_r; [exact Hr1|]. exact (step_irq 1 s2 s3 0 33554432 E3).
Defined.
