(* ===== verification/Mm.v ===== *)
(** * Memory management: libs/mm.c

    The page allocator and the four-level translation tables of a process, over
    the bytes of [ram], which are addressed as the code addresses them, through
    the kernel's linear map (physical address + VA_START). *)
From stdpp Require Import base gmap list.
From Stdlib Require Import ZArith Lia.
From S2P Require Import Prelude Mem Kernel Machine.

#[local] Open Scope Z_scope.

(** ** Constants of libs/mm.h and arch/mmu.h *)
Definition PAGE_SHIFT : Z := 12.
Definition TABLE_SHIFT : Z := 9.
Definition PAGE_SIZE : Z := 4096.
Definition PAGE_MASK : Z := 0xfffffffffffff000.
Definition SECTION_SHIFT : Z := PAGE_SHIFT + TABLE_SHIFT.
Definition SECTION_SIZE : Z := 2097152.
Definition PGD_SHIFT : Z := PAGE_SHIFT + 3 * TABLE_SHIFT.
Definition PUD_SHIFT : Z := PAGE_SHIFT + 2 * TABLE_SHIFT.
Definition PMD_SHIFT : Z := PAGE_SHIFT + TABLE_SHIFT.
Definition LOW_MEMORY : Z := 2 * SECTION_SIZE.
Definition HIGH_MEMORY : Z := 0x3F000000.
Definition PTRS_PER_TABLE : Z := 512.
Definition N_PAGES : Z := (HIGH_MEMORY - LOW_MEMORY) / PAGE_SIZE.

Definition MM_TYPE_PAGE_TABLE : Z := 3.
Definition MMU_PTE_FLAGS : Z := 1095.

(** ** Access to the allocator's table and to memory *)
Definition get_ram : M Machine mem := gets ram.
Definition set_ram (f : mem → mem) : M Machine unit := modify (λ s, with_ram (f (ram s)) s).

Definition read_entry (table i : Z) : M Machine Z := gets (λ s, load64 (table + 8 * i) (ram s)).
Definition write_entry (table i v : Z) : M Machine unit := set_ram (store64 (table + 8 * i) v).

(** [memory_pages[i]], an [unsigned short] that is zero until written. *)
Definition page_used (pages : gmap Z Z) (i : Z) : Z := default 0 (pages !! i).
Definition set_page (i v : Z) : M Machine unit :=
  if (i <? 0) || (N_PAGES <=? i) then fail_with OutOfBounds
  else modify (λ s, with_memory_pages (<[i := v]> (memory_pages s)) s).

(** ** The page allocator *)
Fixpoint find_free_page (n : nat) (i : Z) : M Machine Z :=
  match n with
  | O => mret 0
  | S n =>
    pages ← gets memory_pages;
    if page_used pages i =? 0 then
      set_page i 1;;
      let page_physical_address := LOW_MEMORY + i * PAGE_SIZE in
      set_ram (memzero (u64 (page_physical_address + VA_START)) PAGE_SIZE);;
      mret page_physical_address
    else find_free_page n (i + 1)
  end.

Definition get_free_page : M Machine Z := find_free_page (Z.to_nat N_PAGES) 0.

Definition free_page (page_kernel_address : Z) : M Machine Z :=
  if negb (page_kernel_address mod PAGE_SIZE =? 0) then mret (-1) else
  set_ram (memzero page_kernel_address PAGE_SIZE);;
  set_page (u64 (page_kernel_address - VA_START - LOW_MEMORY) / PAGE_SIZE) 0;;
  mret 0.

Definition allocate_kernel_page : M Machine Z :=
  page ← get_free_page;
  if page =? 0 then mret 0 else mret (u64 (page + VA_START)).

(** ** Translation tables *)

(** The address of the next table, and whether it has been created. *)
Definition map_table (table index_shift virtual_address : Z) : M Machine (Z * bool) :=
  let table_index := Z.land (Z.shiftr virtual_address index_shift) (PTRS_PER_TABLE - 1) in
  e ← read_entry table table_index;
  if e =? 0 then
    next_level_table ← get_free_page;
    set_ram (memzero (u64 (next_level_table + VA_START)) PAGE_SIZE);;
    write_entry table table_index (Z.lor next_level_table MM_TYPE_PAGE_TABLE);;
    mret (next_level_table, true)
  else
    e ← read_entry table table_index;
    mret (Z.land e PAGE_MASK, false).

Definition map_table_entry (pte virtual_address page_physical_address : Z) : M Machine unit :=
  let table_index := Z.land (Z.shiftr virtual_address PAGE_SHIFT) (PTRS_PER_TABLE - 1) in
  write_entry pte table_index (Z.lor page_physical_address MMU_PTE_FLAGS).

(** *** The memory part of a PCB *)
Definition with_pgd (v : Z) (m : mm_struct) : mm_struct :=
  mk_mm_struct v (n_user_pages m) (user_pages m) (n_kernel_pages m) (kernel_pages m).

Definition load_mm (process : ptr) : M Machine mm_struct :=
  c ← on_kernel (load process); mret (mm c).
Definition store_mm (process : ptr) (m : mm_struct) : M Machine unit :=
  on_kernel (store process (with_mm m)).

(** [process->mm.kernel_pages[process->mm.n_kernel_pages++] = page] *)
Definition track_kernel_page (process : ptr) (page : Z) : M Machine unit :=
  m ← load_mm process;
  l ← require OutOfBounds (array_set (kernel_pages m) (n_kernel_pages m) page);
  store_mm process (mk_mm_struct (pgd m) (n_user_pages m) (user_pages m) (s32 (n_kernel_pages m + 1)) l).

(** [process->mm.user_pages[process->mm.n_user_pages++] = p] *)
Definition track_user_page (process : ptr) (p : user_page) : M Machine unit :=
  m ← load_mm process;
  l ← require OutOfBounds (array_set (user_pages m) (n_user_pages m) p);
  store_mm process (mk_mm_struct (pgd m) (s32 (n_user_pages m + 1)) l (n_kernel_pages m) (kernel_pages m)).

(** A table of the next level, tracked in the PCB when it is new. *)
Definition next_table (process : ptr) (table_physical index_shift virtual_address : Z) : M Machine Z :=
  r ← map_table (u64 (table_physical + VA_START)) index_shift virtual_address;
  (if (r.2 : bool) then track_kernel_page process r.1 else mret tt);;
  mret r.1.

Definition map_page (process : ptr) (virtual_address page_physical_address : Z) : M Machine unit :=
  m ← load_mm process;
  (if pgd m =? 0 then
     page ← get_free_page;
     m ← load_mm process;
     store_mm process (with_pgd page m);;
     set_ram (memzero (u64 (page + VA_START)) PAGE_SIZE);;
     track_kernel_page process page
   else mret tt);;
  m ← load_mm process;
  pud ← next_table process (pgd m) PGD_SHIFT virtual_address;
  pmd ← next_table process pud PUD_SHIFT virtual_address;
  pte ← next_table process pmd PMD_SHIFT virtual_address;
  map_table_entry (u64 (pte + VA_START)) virtual_address page_physical_address;;
  track_user_page process (mk_user_page page_physical_address virtual_address).

Definition allocate_user_page (process : ptr) (virtual_address : Z) : M Machine Z :=
  page ← get_free_page;
  if page =? 0 then mret 0 else
  map_page process virtual_address page;;
  mret (u64 (page + VA_START)).

(** The entries of a sector, from [pmd_index] on. *)
Fixpoint sector_loop (n : nat) (pmd pmd_index descriptor : Z) : M Machine unit :=
  match n with
  | O => mret tt
  | S n =>
    write_entry pmd pmd_index descriptor;;
    sector_loop n pmd (pmd_index + 1) (u64 (descriptor + SECTION_SIZE))
  end.

Definition map_sector (process : ptr)
    (start_virtual_address end_virtual_address page_physical_address flags : Z) : M Machine Z :=
  let first_index := Z.land (Z.shiftr start_virtual_address SECTION_SHIFT) (PTRS_PER_TABLE - 1) in
  let last_index := Z.land (Z.shiftr end_virtual_address SECTION_SHIFT) (PTRS_PER_TABLE - 1) in
  let descriptor := Z.shiftr page_physical_address SECTION_SHIFT in
  let descriptor := u64 (Z.shiftl descriptor SECTION_SHIFT) in
  let descriptor := Z.lor descriptor flags in
  m ← load_mm process;
  pud_phys ← read_entry (u64 (pgd m + VA_START))
               (Z.land (Z.shiftr start_virtual_address PGD_SHIFT) (PTRS_PER_TABLE - 1));
  if Z.land pud_phys 1 =? 0 then mret (-1) else
  pmd_phys ← read_entry (u64 (Z.land pud_phys PAGE_MASK + VA_START))
               (Z.land (Z.shiftr start_virtual_address PUD_SHIFT) (PTRS_PER_TABLE - 1));
  if Z.land pmd_phys 1 =? 0 then mret (-1) else
  sector_loop (Z.to_nat (last_index - first_index + 1))
    (u64 (Z.land pmd_phys PAGE_MASK + VA_START)) first_index descriptor;;
  mret 0.

(** ** Page faults and copies of address spaces *)
Definition do_mem_abort (address esr : Z) : M Machine Z :=
  let dfs := Z.land esr 63 in
  if dfs / 60 =? 4 then
    page ← get_free_page;
    if page =? 0 then mret (-1) else
    current ← on_kernel get_current;
    map_page current (Z.land address PAGE_MASK) page;;
    i ← gets abort_index;
    let i := s32 (i + 1) in
    modify (with_abort_index i);;
    if 2 <? i then mret (-1) else mret 0
  else mret (-1).

(** The copies of the pages from index [i] on. *)
Fixpoint copy_pages (fuel : nat) (source destination : ptr) (i : Z) : M Machine Z :=
  match fuel with
  | O => fail_with OutOfFuel
  | S fuel =>
    m ← load_mm source;
    if i <? n_user_pages m then
      p ← require OutOfBounds (array_get (user_pages m) i);
      kernel_virtual_address ← allocate_user_page destination (virtual_address p);
      if kernel_virtual_address =? 0 then mret (-1) else
      set_ram (memzero kernel_virtual_address PAGE_SIZE);;
      m ← load_mm source;
      p ← require OutOfBounds (array_get (user_pages m) i);
      set_ram (memcpy kernel_virtual_address (u64 (physical_address p + VA_START)) PAGE_SIZE);;
      copy_pages fuel source destination (i + 1)
    else mret 0
  end.

Definition copy_virtual_memory (destination_process : ptr) : M Machine Z :=
  source_process ← on_kernel get_current;
  copy_pages (S (Z.to_nat MAX_PROCESS_PAGES)) source_process destination_process 0.
