(* ===== verification/MmSpec.v ===== *)
(** * Memory management: the allocator and the translation tables

    Proofs on Mm.v: the allocator hands out the lowest free page, cleared; the
    table tree of a process is the abstract map from virtual pages to physical
    pages that the processor's table walk computes. *)
From stdpp Require Import base gmap list.
From Stdlib Require Import ZArith Lia.
From S2P Require Import Prelude Mem Kernel Machine Mm.

#[local] Open Scope Z_scope.

(** ** Pages *)

(** The physical address of the page of index [j], and its kernel address. *)
Definition page_addr (j : Z) : Z := LOW_MEMORY + j * PAGE_SIZE.
Definition kva (j : Z) : Z := page_addr j + VA_START.
Definition page_index (j : Z) : Prop := 0 ≤ j < N_PAGES.

Lemma N_PAGES_value : N_PAGES = 257024.
Proof. reflexivity. Qed.

#[local] Opaque memzero.

Ltac mm_consts := unfold kva, page_addr, page_index, LOW_MEMORY, SECTION_SIZE, PAGE_SIZE, VA_START in *;
  rewrite ?N_PAGES_value in *.

Lemma kva_u64 j : page_index j → u64 (page_addr j + VA_START) = kva j.
Proof. intros Hj. unfold kva. apply u64_id. mm_consts. lia. Qed.

Lemma kva_aligned j : kva j mod PAGE_SIZE = 0.
Proof.
  assert (kva j = (1024 + j + 4503530907893760) * PAGE_SIZE) as -> by (mm_consts; lia). by apply Z.mod_mul.
Qed.

(** The bytes of different pages are different. *)
Lemma page_apart j j' : j ≠ j' → kva j + PAGE_SIZE ≤ kva j' ∨ kva j' + PAGE_SIZE ≤ kva j.
Proof. mm_consts. lia. Qed.

(** A page address with flags in its low bits. *)
Lemma lor_flags q f : 0 ≤ f < 4096 → Z.lor (4096 * q) f = 4096 * q + f.
Proof.
  intros Hf. symmetry. rewrite Z.add_nocarry_lxor.
  - symmetry. apply Z.bits_inj'. intros n Hn. rewrite Z.lor_spec, Z.lxor_spec.
    destruct (Z.testbit (4096 * q) n) eqn:E1, (Z.testbit f n) eqn:E2; try done.
    exfalso. revert E1 E2. change 4096 with (2 ^ 12). rewrite Z.mul_comm, Z.mul_pow2_bits by lia.
    destruct (decide (n < 12)); [by rewrite Z.testbit_neg_r by lia|].
    intros _. rewrite Z.bits_above_log2; [done|lia|].
    destruct (decide (f = 0)) as [->|]; [simpl; lia|]. apply Z.log2_lt_pow2; [lia|].
    assert (2 ^ 12 ≤ 2 ^ n) by (apply Z.pow_le_mono_r; lia). lia.
  - apply Z.bits_inj'. intros n Hn. rewrite Z.land_spec, Z.bits_0.
    change 4096 with (2 ^ 12). rewrite Z.mul_comm, Z.mul_pow2_bits by lia.
    destruct (decide (n < 12)); [by rewrite Z.testbit_neg_r by lia|].
    rewrite andb_comm, Z.bits_above_log2; [done|lia|].
    destruct (decide (f = 0)) as [->|]; [simpl; lia|]. apply Z.log2_lt_pow2; [lia|].
    assert (2 ^ 12 ≤ 2 ^ n) by (apply Z.pow_le_mono_r; lia). lia.
Qed.

Lemma land_mask w q f :
  0 ≤ f < 4096 → 0 ≤ q < 2 ^ w → 0 ≤ w →
  Z.land (4096 * q + f) (Z.shiftl (Z.ones w) 12) = 4096 * q.
Proof.
  intros Hf Hq Hw. apply Z.bits_inj'. intros n Hn. rewrite Z.land_spec, Z.shiftl_spec by done.
  destruct (decide (n < 12)) as [H|H].
  - rewrite (Z.testbit_neg_r _ (n - 12)), andb_false_r by lia.
    change 4096 with (2 ^ 12). rewrite Z.mul_comm, Z.mul_pow2_bits by lia. by rewrite Z.testbit_neg_r by lia.
  - assert (Z.testbit (4096 * q + f) n = Z.testbit q (n - 12)) as ->.
    { replace n with (n - 12 + 12) at 1 by lia. rewrite <- Z.shiftr_spec by lia. f_equal.
      rewrite Z.shiftr_div_pow2 by lia. change (2 ^ 12) with 4096.
      symmetry. apply (Z.div_unique _ _ _ f); lia. }
    change 4096 with (2 ^ 12). rewrite (Z.mul_comm (2 ^ 12)), Z.mul_pow2_bits by lia.
    rewrite Z.testbit_ones_nonneg by lia.
    destruct (n - 12 <? w) eqn:E; [by rewrite andb_true_r|]. zify_bools. rewrite andb_false_r. symmetry.
    destruct (decide (q = 0)) as [->|]; [by rewrite Z.testbit_0_l|].
    apply Z.bits_above_log2; [lia|].
    apply Z.log2_lt_pow2; [lia|]. assert (2 ^ w ≤ 2 ^ (n - 12)) by (apply Z.pow_le_mono_r; lia). lia.
Qed.

Lemma page_addr_mul j : page_addr j = 4096 * (1024 + j).
Proof. mm_consts. lia. Qed.

(** The address field of a descriptor, as the processor reads it. *)
Definition ADDRESS_MASK : Z := 0x0000fffffffff000.

Lemma descriptor_facts j f :
  page_index j → 0 ≤ f < 4096 → Z.land f 3 = 3 →
  let e := Z.lor (page_addr j) f in
  e ≠ 0 ∧ 0 ≤ e < 2 ^ 64 ∧ Z.land e PAGE_MASK = page_addr j ∧ Z.land e ADDRESS_MASK = page_addr j ∧
  Z.land e 3 = 3.
Proof.
  intros Hj Hf H3 e. unfold e. unfold page_index in Hj. rewrite N_PAGES_value in Hj.
  rewrite page_addr_mul, lor_flags by done. split; [lia|]. split; [lia|].
  change PAGE_MASK with (Z.shiftl (Z.ones 52) 12). change ADDRESS_MASK with (Z.shiftl (Z.ones 36) 12).
  rewrite !land_mask by lia. split; [done|]. split; [done|].
  change 3 with (Z.ones 2) in H3 |- * at 1. rewrite Z.land_ones in * by lia.
  change (2 ^ 2) with 4 in *. rewrite Z.add_comm, Z.mul_comm.
  replace (f + (1024 + j) * 4096) with (f + ((1024 + j) * 1024) * 4) by lia. by rewrite Z.mod_add by lia.
Qed.

(** ** The allocator as a list of free pages *)
Definition free_list (pages : gmap Z Z) : list Z :=
  filter (λ i, page_used pages i = 0) (seqZ 0 N_PAGES).

(** The machine after page [j] has been handed out. *)
Definition take_page (j : Z) (s : Machine) : Machine :=
  with_ram (memzero (kva j) PAGE_SIZE (ram s)) (with_memory_pages (<[j := 1]> (memory_pages s)) s).

Lemma elem_of_free_list pages i : i ∈ free_list pages ↔ page_index i ∧ page_used pages i = 0.
Proof. unfold free_list, page_index. rewrite list_elem_of_filter, elem_of_seqZ. lia. Qed.

Lemma free_list_filter pages : free_list pages = filter (λ i, page_used pages i = 0) (seqZ 0 257024).
Proof. reflexivity. Qed.

Lemma first_free pages m n :
  0 < n → filter (λ i, page_used pages i = 0) (seqZ m n) =
    if decide (page_used pages m = 0) then m :: filter (λ i, page_used pages i = 0) (seqZ (m + 1) (n - 1))
    else filter (λ i, page_used pages i = 0) (seqZ (m + 1) (n - 1)).
Proof.
  intros Hn. rewrite seqZ_cons by done. replace (Z.succ m) with (m + 1) by lia. replace (Z.pred n) with (n - 1) by lia.
  by rewrite filter_cons.
Qed.

Lemma NoDup_free_list pages : NoDup (free_list pages).
Proof. apply NoDup_filter, NoDup_seqZ. Qed.

Lemma page_used_insert pages j v i :
  page_used (<[j := v]> pages) i = if decide (i = j) then v else page_used pages i.
Proof.
  unfold page_used. case_decide as E; [subst; by rewrite lookup_insert_eq|by rewrite lookup_insert_ne].
Qed.

Lemma page_used_lookup pages i : page_used pages i = default 0 (pages !! i).
Proof. reflexivity. Qed.

Lemma page_used_empty i : page_used ∅ i = 0.
Proof. unfold page_used. by rewrite lookup_empty. Qed.

Lemma free_list_take pages j l : free_list pages = j :: l → free_list (<[j := 1]> pages) = l.
Proof.
  intros E. pose proof (NoDup_free_list pages) as Hnd. rewrite E in Hnd. inversion Hnd as [|? ? Hj Hl]; subst.
  assert (free_list (<[j := 1]> pages) = filter (λ i, i ≠ j) (free_list pages)) as ->.
  { unfold free_list. rewrite list_filter_filter. apply filter_ext_in. intros i _.
    rewrite page_used_insert. case_decide; naive_solver. }
  rewrite E, filter_cons, decide_False by naive_solver. apply filter_all. intros x Hx ->. done.
Qed.

Lemma find_free_page_run n i s :
  0 ≤ i → i + Z.of_nat n = N_PAGES →
  find_free_page n i s =
  match filter (λ i, page_used (memory_pages s) i = 0) (seqZ i (Z.of_nat n)) with
  | [] => Done (0, s)
  | j :: _ => Done (page_addr j, take_page j s)
  end.
Proof.
  revert i. induction n as [|n IH]; intros i Hi Hn.
  { replace (seqZ i (Z.of_nat 0)) with (@nil Z) by done. done. }
  cbn [find_free_page]. mrun. rewrite seqZ_cons by lia. rewrite filter_cons.
  destruct (page_used (memory_pages s) i =? 0) eqn:E; zify_bools.
  - rewrite decide_True by done. unfold set_page. rewrite (proj2 (Z.ltb_ge i 0)) by lia.
    rewrite (proj2 (Z.leb_gt N_PAGES i)) by lia. simpl orb. cbv iota. mrun. unfold set_ram. mrun.
    fold (page_addr i). rewrite kva_u64 by (unfold page_index; lia). done.
  - rewrite decide_False by done. rewrite IH by lia.
    by replace (Z.pred (Z.of_nat (S n))) with (Z.of_nat n) by lia.
Qed.

Lemma get_free_page_run s :
  get_free_page s =
  match free_list (memory_pages s) with
  | [] => Done (0, s)
  | j :: _ => Done (page_addr j, take_page j s)
  end.
Proof.
  pose proof (find_free_page_run (Z.to_nat N_PAGES) 0 s) as H.
  rewrite Z2Nat.id in H by (rewrite N_PAGES_value; lia). apply H; lia.
Qed.

Lemma take_page_byte j s a :
  byte_at (ram (take_page j s)) a = if decide (kva j ≤ a < kva j + PAGE_SIZE) then 0 else byte_at (ram s) a.
Proof. apply memzero_spec. done. Qed.

Lemma free_list_head pages j l : free_list pages = j :: l → page_index j ∧ page_used pages j = 0.
Proof. intros E. apply elem_of_free_list. rewrite E. by left. Qed.

(** Giving a page back. *)
Lemma free_page_ok s j :
  page_index j → ∃ s', free_page (kva j) s = Done (0, s') ∧ kernel s' = kernel s ∧
    (∀ i, i ∈ free_list (memory_pages s') ↔ i = j ∨ i ∈ free_list (memory_pages s)) ∧
    ∀ a, byte_at (ram s') a = if decide (kva j ≤ a < kva j + PAGE_SIZE) then 0 else byte_at (ram s) a.
Proof.
  intros Hj. unfold free_page. rewrite kva_aligned. cbn [Z.eqb negb]. unfold set_ram, set_page. mrun.
  assert (u64 (kva j - VA_START - LOW_MEMORY) / PAGE_SIZE = j) as ->.
  { rewrite u64_id by (mm_consts; lia). replace (kva j - VA_START - LOW_MEMORY) with (j * PAGE_SIZE) by (mm_consts; lia).
    by apply Z.div_mul. }
  unfold page_index in Hj. rewrite (proj2 (Z.ltb_ge j 0)) by lia. rewrite (proj2 (Z.leb_gt N_PAGES j)) by lia.
  simpl orb. cbv iota. mrun. eexists. split; [done|]. split; [done|]. split.
  - intros i. rewrite !elem_of_free_list. simpl. rewrite page_used_insert. unfold page_index. case_decide; naive_solver.
  - intros a. apply memzero_spec. done.
Qed.

(** A kernel page. *)
Lemma allocate_run s j l :
  free_list (memory_pages s) = j :: l → allocate_kernel_page s = Done (kva j, take_page j s).
Proof.
  intros E. unfold allocate_kernel_page. rewrite (bind_done _ _ _ (page_addr j) (take_page j s)) by (by rewrite get_free_page_run, E).
  destruct (free_list_head _ _ _ E) as [Hj _]. rewrite (proj2 (Z.eqb_neq (page_addr j) 0)) by (unfold page_index in Hj; mm_consts; lia).
  by rewrite kva_u64.
Qed.

(** C25: the page allocator is a list of free pages. get_free_page returns the
    address of the lowest free page, which is then used and all zero, and 0 when
    there is none; the other pages keep their state and their bytes. free_page
    refuses an address that is not page-aligned and otherwise clears the page and
    makes it, and no other one, free again. *)
Theorem page_allocator_spec s :
  match free_list (memory_pages s) with
  | [] => get_free_page s = Done (0, s)
  | j :: l => ∃ s', get_free_page s = Done (page_addr j, s') ∧ page_index j ∧
      free_list (memory_pages s') = l ∧ j ∉ l ∧ kernel s' = kernel s ∧
      ∀ a, byte_at (ram s') a = if decide (kva j ≤ a < kva j + PAGE_SIZE) then 0 else byte_at (ram s) a
  end ∧
  (∀ addr, addr mod PAGE_SIZE ≠ 0 → free_page addr s = Done (-1, s)) ∧
  ∀ j, page_index j → ∃ s', free_page (kva j) s = Done (0, s') ∧ kernel s' = kernel s ∧
    (∀ i, i ∈ free_list (memory_pages s') ↔ i = j ∨ i ∈ free_list (memory_pages s)) ∧
    ∀ a, byte_at (ram s') a = if decide (kva j ≤ a < kva j + PAGE_SIZE) then 0 else byte_at (ram s) a.
Proof.
  split; [|split].
  - pose proof (get_free_page_run s) as H. pose proof (NoDup_free_list (memory_pages s)) as Hnd.
    destruct (free_list (memory_pages s)) as [|j l] eqn:E; [done|].
    exists (take_page j s). split; [done|]. split; [by apply (free_list_head _ _ _ E)|].
    split; [by apply free_list_take|]. split; [by inversion Hnd|]. split; [done|]. apply take_page_byte.
  - intros addr Ha. unfold free_page. by rewrite (proj2 (Z.eqb_neq _ _) Ha).
  - apply free_page_ok.
Qed.

(** ** The table tree of an address space *)

(** [tables] maps the path of a table (the indexes that lead to it from the root)
    to the index of its page, [leaves] the path of a virtual page to the index of
    the physical page it is mapped to. *)
Record Tables : Type := mk_Tables {
  tables : gmap (list Z) Z;
  leaves : gmap (list Z) Z
}.

Definition table_index (virtual_address shift : Z) : Z :=
  Z.land (Z.shiftr virtual_address shift) (PTRS_PER_TABLE - 1).

Definition path3 (va : Z) : list Z :=
  [table_index va PGD_SHIFT; table_index va PUD_SHIFT; table_index va PMD_SHIFT].
Definition path4 (va : Z) : list Z := path3 va ++ [table_index va PAGE_SHIFT].

Definition entry_of (s : Machine) (j i : Z) : Z := load64 (kva j + 8 * i) (ram s).

(** The descriptor of a slot: the page its path leads to, with flags. *)
Definition descriptor_of (flags : Z) (o : option Z) : Z :=
  match o with Some j => Z.lor (page_addr j) flags | None => 0 end.

Record PT (s : Machine) (T : Tables) : Prop := mk_PT {
  pt_page : ∀ l j, tables T !! l = Some j →
    page_index j ∧ page_used (memory_pages s) j ≠ 0 ∧ (length l ≤ 3)%nat;
  pt_inj : ∀ l l' j, tables T !! l = Some j → tables T !! l' = Some j → l = l';
  pt_prefix : ∀ l i j, tables T !! (l ++ [i]) = Some j → is_Some (tables T !! l);
  pt_entry : ∀ l j i, tables T !! l = Some j → (length l < 3)%nat → 0 ≤ i < PTRS_PER_TABLE →
    entry_of s j i = descriptor_of MM_TYPE_PAGE_TABLE (tables T !! (l ++ [i]));
  pt_leaf : ∀ l j i, tables T !! l = Some j → length l = 3%nat → 0 ≤ i < PTRS_PER_TABLE →
    entry_of s j i = descriptor_of MMU_PTE_FLAGS (leaves T !! (l ++ [i]));
  pt_leaf_page : ∀ l j, leaves T !! l = Some j → page_index j;
  pt_leaf_prefix : ∀ l i j, leaves T !! (l ++ [i]) = Some j → is_Some (tables T !! l)
}.

Lemma table_index_range va shift : 0 ≤ table_index va shift < PTRS_PER_TABLE.
Proof.
  unfold table_index, PTRS_PER_TABLE. change (512 - 1) with (Z.ones 9). rewrite Z.land_ones by lia.
  by apply Z.mod_pos_bound.
Qed.

(** *** Entries are words of their page *)
Definition same_page (s s' : Machine) (j : Z) : Prop :=
  ∀ off, 0 ≤ off < PAGE_SIZE → byte_at (ram s') (kva j + off) = byte_at (ram s) (kva j + off).

#[export] Instance same_page_refl j : Reflexive (λ s s', same_page s s' j).
Proof. by intros s off. Qed.

Lemma same_page_trans s1 s2 s3 j : same_page s1 s2 j → same_page s2 s3 j → same_page s1 s3 j.
Proof. intros H1 H2 off Ho. by rewrite H2, H1. Qed.

Lemma entry_same s s' j i : same_page s s' j → 0 ≤ i < PTRS_PER_TABLE → entry_of s' j i = entry_of s j i.
Proof.
  unfold PTRS_PER_TABLE. intros H Hi. apply load_le_ext. intros x Hx.
  replace x with (kva j + (x - kva j)) by lia. apply H. unfold PAGE_SIZE. lia.
Qed.

Lemma take_page_same j j' s : j ≠ j' → same_page s (take_page j s) j'.
Proof.
  intros Hne off Ho. rewrite take_page_byte. pose proof (page_apart j j' Hne). rewrite decide_False; [done|].
  unfold PAGE_SIZE in *. lia.
Qed.

Lemma take_page_entry j s i : 0 ≤ i < PTRS_PER_TABLE → entry_of (take_page j s) j i = 0.
Proof.
  unfold PTRS_PER_TABLE. intros Hi. apply load_le_zero. intros x Hx. change (Z.of_nat 8) with 8 in Hx.
  by rewrite take_page_byte, decide_True by (unfold PAGE_SIZE; lia).
Qed.

(** The machine after an entry of table [j] has been written. *)
Definition put_entry (j i v : Z) (s : Machine) : Machine :=
  with_ram (store64 (kva j + 8 * i) v (ram s)) s.

Lemma put_entry_entry j i v s j' i' :
  0 ≤ i < PTRS_PER_TABLE → 0 ≤ i' < PTRS_PER_TABLE → 0 ≤ v < 2 ^ 64 →
  entry_of (put_entry j i v s) j' i' = if decide (j' = j ∧ i' = i) then v else entry_of s j' i'.
Proof.
  unfold PTRS_PER_TABLE. intros Hi Hi' Hv. unfold entry_of, put_entry. cbn [ram with_ram]. case_decide as E.
  - destruct E as [-> ->]. rewrite load_store_le. by apply Z.mod_small.
  - apply load_store_disjoint. change (Z.of_nat 8) with 8.
    destruct (decide (j' = j)) as [->|Hne].
    + assert (i' ≠ i) by tauto. lia.
    + pose proof (page_apart j j' ltac:(done)). unfold PAGE_SIZE in *. lia.
Qed.

Lemma put_entry_frame j i v s :
  kernel (put_entry j i v s) = kernel s ∧ uart (put_entry j i v s) = uart s ∧
  abort_index (put_entry j i v s) = abort_index s ∧ memory_pages (put_entry j i v s) = memory_pages s.
Proof. done. Qed.

Lemma write_entry_run j i v s : write_entry (kva j) i v s = Done (tt, put_entry j i v s).
Proof. reflexivity. Qed.

Lemma put_entry_same j i v s j' : 0 ≤ i < PTRS_PER_TABLE → j ≠ j' → same_page s (put_entry j i v s) j'.
Proof.
  unfold PTRS_PER_TABLE. intros Hi Hne off Ho. cbn [ram with_ram put_entry]. rewrite byte_at_store_le. change (Z.of_nat 8) with 8.
  pose proof (page_apart j j' Hne). rewrite decide_False; [done|]. unfold PAGE_SIZE in *. lia.
Qed.

(** The memory below the pages: the kernel's image is there. *)
Definition same_below (s s' : Machine) : Prop := ∀ a, a < kva 0 → byte_at (ram s') a = byte_at (ram s) a.

Lemma same_below_trans s1 s2 s3 : same_below s1 s2 → same_below s2 s3 → same_below s1 s3.
Proof. intros H1 H2 a Ha. by rewrite H2, H1. Qed.

Lemma kva_below j a : page_index j → a < kva 0 → a < kva j.
Proof. mm_consts. lia. Qed.

Lemma take_page_below j s : page_index j → same_below s (take_page j s).
Proof. intros Hj a Ha. pose proof (kva_below j a Hj Ha). by rewrite take_page_byte, decide_False by lia. Qed.

Lemma put_entry_below j i v s : page_index j → 0 ≤ i → same_below s (put_entry j i v s).
Proof.
  intros Hj Hi a Ha. pose proof (kva_below j a Hj Ha). cbn [ram with_ram put_entry]. by rewrite byte_at_store_le, decide_False by lia.
Qed.

(** From here on these are used through their lemmas. *)
#[local] Opaque memzero store_le load_le free_list N_PAGES page_used byte_at put_byte.

(** *** A new page, cleared twice, as the code does *)
Definition clean_page (f : Z) (s : Machine) : Machine :=
  with_ram (memzero (kva f) PAGE_SIZE (ram (take_page f s))) (take_page f s).

Lemma clean_page_byte f s a : byte_at (ram (clean_page f s)) a = byte_at (ram (take_page f s)) a.
Proof.
  unfold clean_page. cbn [ram with_ram]. rewrite memzero_spec by done. change (zeroed PAGE_SIZE) with PAGE_SIZE.
  rewrite take_page_byte. by case_decide.
Qed.

Lemma clean_page_same f j s : f ≠ j → same_page s (clean_page f s) j.
Proof. intros Hne off Ho. rewrite clean_page_byte. by apply take_page_same. Qed.

Lemma clean_page_below f s : page_index f → same_below s (clean_page f s).
Proof. intros Hf a Ha. rewrite clean_page_byte. by apply take_page_below. Qed.

Lemma clean_page_entry f j s i :
  0 ≤ i < PTRS_PER_TABLE → entry_of (clean_page f s) j i = if decide (j = f) then 0 else entry_of s j i.
Proof.
  intros Hi. assert (entry_of (clean_page f s) j i = entry_of (take_page f s) j i) as ->.
  { apply load_le_ext. intros x _. apply clean_page_byte. }
  case_decide as E; [subst; by apply take_page_entry|]. apply entry_same; [|done]. apply take_page_same. congruence.
Qed.

Lemma take_page_frame f s :
  kernel (take_page f s) = kernel s ∧ uart (take_page f s) = uart s ∧
  abort_index (take_page f s) = abort_index s ∧ memory_pages (take_page f s) = <[f := 1]> (memory_pages s).
Proof. repeat split; reflexivity. Qed.

Lemma clean_page_frame f s :
  kernel (clean_page f s) = kernel s ∧ uart (clean_page f s) = uart s ∧
  abort_index (clean_page f s) = abort_index s ∧ memory_pages (clean_page f s) = <[f := 1]> (memory_pages s).
Proof. repeat split; reflexivity. Qed.

Lemma clean_page_ram f s :
  with_ram (memzero (kva f) PAGE_SIZE (ram (take_page f s))) (take_page f s) = clean_page f s.
Proof. reflexivity. Qed.

(** What a step on the tables leaves alone: the kernel, the devices, and the bytes
    of the pages in use that are not the table [j]. *)
Record quiet_step (j : option Z) (s s' : Machine) : Prop := mk_quiet_step {
  qs_kernel : kernel s' = kernel s;
  qs_uart : uart s' = uart s;
  qs_abort : abort_index s' = abort_index s;
  qs_used : ∀ i, page_used (memory_pages s) i ≠ 0 → page_used (memory_pages s') i = page_used (memory_pages s) i;
  qs_pages : ∀ i, page_used (memory_pages s) i ≠ 0 → Some i ≠ j → same_page s s' i;
  qs_below : same_below s s'
}.

Lemma clean_page_quiet f s :
  page_index f → page_used (memory_pages s) f = 0 → quiet_step None s (clean_page f s).
Proof.
  intros Hp Hf. split; try done.
  - intros i Hi. simpl. rewrite page_used_insert. case_decide; [congruence|done].
  - intros i Hi _. apply clean_page_same. congruence.
  - by apply clean_page_below.
Qed.

Definition new_table (j i f : Z) (s : Machine) : Machine :=
  put_entry j i (Z.lor (page_addr f) MM_TYPE_PAGE_TABLE) (clean_page f s).

Definition add_table (l : list Z) (f : Z) (T : Tables) : Tables :=
  mk_Tables (<[l := f]> (tables T)) (leaves T).
Definition add_leaf (l : list Z) (f : Z) (T : Tables) : Tables :=
  mk_Tables (tables T) (<[l := f]> (leaves T)).

Lemma table_descriptor f : page_index f → 0 ≤ Z.lor (page_addr f) MM_TYPE_PAGE_TABLE < 2 ^ 64.
Proof. intros Hf. by apply (descriptor_facts f MM_TYPE_PAGE_TABLE). Qed.

Lemma leaf_descriptor f : page_index f → 0 ≤ Z.lor (page_addr f) MMU_PTE_FLAGS < 2 ^ 64.
Proof. intros Hf. by apply (descriptor_facts f MMU_PTE_FLAGS). Qed.

Lemma app_one_inj (l l' : list Z) i i' : l ++ [i] = l' ++ [i'] → l = l' ∧ i = i'.
Proof. intros E. by apply app_inj_tail. Qed.

Lemma app_one_length (l : list Z) i : length (l ++ [i]) = S (length l).
Proof. rewrite length_app. simpl. lia. Qed.

Section new_table.
Context (s : Machine) (T : Tables) (l : list Z) (j i f : Z).
Context (HPT : PT s T) (Hj : tables T !! l = Some j) (Hlen : (length l < 3)%nat).
Context (Hi : 0 ≤ i < PTRS_PER_TABLE) (Hnone : tables T !! (l ++ [i]) = None).
Context (Hf : page_index f) (Hfree : page_used (memory_pages s) f = 0).

Lemma table_not_free l0 j0 : tables T !! l0 = Some j0 → j0 ≠ f.
Proof. intros H ->. by destruct (pt_page _ _ HPT _ _ H) as (_ & Hu & _). Qed.

Lemma new_table_entry j0 i0 :
  0 ≤ i0 < PTRS_PER_TABLE →
  entry_of (new_table j i f s) j0 i0 =
    if decide (j0 = j ∧ i0 = i) then Z.lor (page_addr f) MM_TYPE_PAGE_TABLE
    else if decide (j0 = f) then 0 else entry_of s j0 i0.
Proof.
  intros Hi0. unfold new_table. rewrite put_entry_entry by (done || by apply table_descriptor).
  case_decide; [done|]. by apply clean_page_entry.
Qed.

Lemma add_table_lookup l0 :
  tables (add_table (l ++ [i]) f T) !! l0 = if decide (l0 = l ++ [i]) then Some f else tables T !! l0.
Proof. simpl. case_decide as E; [subst; apply lookup_insert_eq|by apply lookup_insert_ne]. Qed.

Lemma new_table_PT : PT (new_table j i f s) (add_table (l ++ [i]) f T).
Proof.
  split.
  - intros l0 j0. rewrite add_table_lookup. case_decide as E.
    + intros [= <-]. subst l0. rewrite app_one_length. simpl. rewrite page_used_insert, decide_True by done.
      split; [done|]. split; [done|lia].
    + intros H. destruct (pt_page _ _ HPT _ _ H) as (H1 & H2 & H3). simpl. rewrite page_used_insert.
      rewrite decide_False by (by eapply table_not_free). done.
  - intros l0 l1 j0. rewrite !add_table_lookup. repeat case_decide; subst; try done.
    + intros [= <-] Hx. by apply table_not_free in Hx.
    + intros Hx [= <-]. by apply table_not_free in Hx.
    + by apply (pt_inj _ _ HPT).
  - intros l0 i0 j0. rewrite !add_table_lookup. case_decide as E.
    + apply app_one_inj in E as [-> ->]. intros _. case_decide; by eexists.
    + intros H%(pt_prefix _ _ HPT). case_decide; [by eexists|done].
  - intros l0 j0 i0. rewrite add_table_lookup. intros H0 Hl0 Hi0. rewrite new_table_entry by done.
    rewrite add_table_lookup. case_decide as E0.
    + subst l0. injection H0 as <-. rewrite decide_False by (intros [E _]; by eapply table_not_free).
      rewrite (decide_True (P := f = f)) by done. rewrite decide_False.
      * destruct (tables T !! ((l ++ [i]) ++ [i0])) eqn:E; [|done].
        apply (pt_prefix _ _ HPT) in E as [? E]. congruence.
      * intros E. apply (f_equal length) in E. rewrite !app_one_length in E. lia.
    + destruct (decide (j0 = j ∧ i0 = i)) as [[-> ->]|Hne].
      * rewrite (pt_inj _ _ HPT l0 l j) by done. by rewrite decide_True.
      * rewrite (decide_False (P := j0 = f)) by (by eapply table_not_free).
        rewrite decide_False by (intros [-> ->]%app_one_inj; apply Hne; split; congruence).
        by apply (pt_entry _ _ HPT).
  - intros l0 j0 i0. rewrite add_table_lookup. intros H0 Hl0 Hi0. rewrite new_table_entry by done.
    case_decide as E0.
    + subst l0. injection H0 as <-. rewrite decide_False by (intros [E _]; by eapply table_not_free).
      rewrite (decide_True (P := f = f)) by done. simpl.
      destruct (leaves T !! ((l ++ [i]) ++ [i0])) eqn:E; [|done].
      apply (pt_leaf_prefix _ _ HPT) in E as [? E]. congruence.
    + rewrite decide_False; [|intros [-> ->]; rewrite (pt_inj _ _ HPT l0 l j) in Hl0 by done; lia].
      rewrite (decide_False (P := j0 = f)) by (by eapply table_not_free). by apply (pt_leaf _ _ HPT).
  - apply (pt_leaf_page _ _ HPT).
  - intros l0 i0 j0 H%(pt_leaf_prefix _ _ HPT). rewrite add_table_lookup. case_decide; [by eexists|done].
Qed.

Lemma new_table_quiet : quiet_step (Some j) s (new_table j i f s).
Proof.
  destruct (clean_page_quiet f s Hf Hfree) as [H1 H2 H3 H4 H5 H6].
  destruct (put_entry_frame j i (Z.lor (page_addr f) MM_TYPE_PAGE_TABLE) (clean_page f s)) as (E1 & E2 & E3 & E4).
  unfold new_table. split; rewrite ?E1, ?E2, ?E3, ?E4; try assumption.
  - intros i0 Hu Hne. eapply same_page_trans; [by apply H5|]. apply put_entry_same; [done|congruence].
  - eapply same_below_trans; [exact H6|]. apply put_entry_below; [|apply Hi]. by destruct (pt_page _ _ HPT _ _ Hj).
Qed.

Lemma new_table_free fl : free_list (memory_pages s) = f :: fl → free_list (memory_pages (new_table j i f s)) = fl.
Proof. apply free_list_take. Qed.
End new_table.

(** ** map_table *)
Lemma map_table_old s T l j va shift j' :
  PT s T → tables T !! l = Some j → (length l < 3)%nat →
  tables T !! (l ++ [table_index va shift]) = Some j' →
  map_table (kva j) shift va s = Done ((page_addr j', false), s).
Proof.
  intros HPT Hj Hl Hj'. destruct (pt_page _ _ HPT _ _ Hj') as (Hp & _ & _).
  pose proof (pt_entry _ _ HPT l j _ Hj Hl (table_index_range va shift)) as He. rewrite Hj' in He.
  destruct (descriptor_facts j' MM_TYPE_PAGE_TABLE Hp) as (H1 & _ & H2 & _); [done|done|].
  unfold map_table. fold (table_index va shift). unfold read_entry. mrun.
  fold (entry_of s j (table_index va shift)). rewrite He. cbn [descriptor_of].
  rewrite (proj2 (Z.eqb_neq _ _) H1). mrun.
  fold (entry_of s j (table_index va shift)). rewrite He. cbn [descriptor_of]. by rewrite H2.
Qed.

Lemma map_table_new s T l j va shift f fl :
  PT s T → tables T !! l = Some j → (length l < 3)%nat →
  tables T !! (l ++ [table_index va shift]) = None → free_list (memory_pages s) = f :: fl →
  map_table (kva j) shift va s = Done ((page_addr f, true), new_table j (table_index va shift) f s).
Proof.
  intros HPT Hj Hl Hj' Hfl. destruct (free_list_head _ _ _ Hfl) as [Hp _].
  pose proof (pt_entry _ _ HPT l j _ Hj Hl (table_index_range va shift)) as He. rewrite Hj' in He.
  unfold map_table. fold (table_index va shift). unfold read_entry. mrun.
  fold (entry_of s j (table_index va shift)). rewrite He. cbn [descriptor_of].
  change (0 =? 0) with true. cbv iota. rewrite (bind_done _ _ _ (page_addr f) (take_page f s)).
  - unfold set_ram, write_entry, set_ram. mrun. by rewrite kva_u64.
  - by rewrite get_free_page_run, Hfl.
Qed.

Lemma new_table_pages j i f s : memory_pages (new_table j i f s) = <[f := 1]> (memory_pages s).
Proof. done. Qed.

#[local] Opaque new_table clean_page put_entry take_page.

(** ** The memory part of a PCB *)
Definition set_mm (p : ptr) (m : mm_struct) (k : Kernel) : Kernel :=
  with_heap (alter (with_mm m) p (heap k)) k.
Definition put_mm (p : ptr) (m : mm_struct) (s : Machine) : Machine :=
  with_kernel (set_mm p m (kernel s)) s.

Definition mm_of (p : ptr) (s : Machine) : option mm_struct := mm <$> heap (kernel s) !! p.

Lemma load_mm_run p m s : mm_of p s = Some m → load_mm p s = Done (m, s).
Proof.
  intros (c & Hc & ->)%fmap_Some. unfold load_mm.
  erewrite bind_done by (apply on_kernel_done, load_some; exact Hc). by rewrite with_kernel_same.
Qed.

Lemma store_mm_run p m m' s : mm_of p s = Some m → store_mm p m' s = Done (tt, put_mm p m' s).
Proof.
  intros (c & Hc & ->)%fmap_Some. unfold store_mm, put_mm, set_mm.
  rewrite (on_kernel_done _ s tt (with_heap (<[p := with_mm m' c]> (heap (kernel s))) (kernel s))).
  - do 4 f_equal. symmetry. apply map_eq. intros i. destruct (decide (p = i)) as [<-|Hne].
    + by rewrite lookup_alter_eq, lookup_insert_eq, Hc.
    + by rewrite lookup_alter_ne, lookup_insert_ne.
  - by apply store_some.
Qed.

Lemma mm_of_put p m m' s : mm_of p s = Some m → mm_of p (put_mm p m' s) = Some m'.
Proof.
  intros (c & Hc & ->)%fmap_Some. unfold mm_of, put_mm, set_mm. cbn [kernel with_kernel heap with_heap].
  by rewrite lookup_alter_eq, Hc.
Qed.

Lemma set_mm_set p m m' k : set_mm p m' (set_mm p m k) = set_mm p m' k.
Proof.
  unfold set_mm. cbn [heap with_heap]. unfold with_heap. simpl. f_equal.
  apply map_eq. intros i. destruct (decide (p = i)) as [<-|Hne].
  - rewrite !lookup_alter_eq. by destruct (heap k !! p).
  - by rewrite !lookup_alter_ne.
Qed.

Lemma set_mm_id p k : ∃ m, set_mm p m k = k.
Proof.
  exists (default zero_mm (mm <$> heap k !! p)). destruct k as [h ? ? ?]. unfold set_mm, with_heap. simpl. f_equal.
  apply map_eq. intros i. destruct (decide (p = i)) as [<-|Hne]; [|by rewrite lookup_alter_ne].
  rewrite lookup_alter_eq. destruct (h !! p) as [[]|] eqn:E; simpl; by rewrite ?E.
Qed.

Lemma PT_ext s s' T : ram s' = ram s → memory_pages s' = memory_pages s → PT s T → PT s' T.
Proof.
  intros Er Em [H1 H2 H3 H4 H5 H6 H7].
  assert (∀ j i, entry_of s' j i = entry_of s j i) as Ee by (intros; unfold entry_of; by rewrite Er).
  split; try done.
  - intros l j. rewrite Em. apply H1.
  - intros l j i. rewrite Ee. apply H4.
  - intros l j i. rewrite Ee. apply H5.
Qed.

(** Room for [n] more kernel pages in the PCB. *)
Definition mm_room (n : Z) (m : mm_struct) : Prop :=
  0 ≤ n_kernel_pages m ∧ n_kernel_pages m + n ≤ MAX_PROCESS_PAGES ∧
  length (kernel_pages m) = Z.to_nat MAX_PROCESS_PAGES.

(** The user side of the memory part is the same. *)
Definition same_user (m m' : mm_struct) : Prop :=
  (pgd m ≠ 0 → pgd m' = pgd m) ∧ n_user_pages m' = n_user_pages m ∧ user_pages m' = user_pages m.

(** The memory part with one more kernel page. *)
Definition tracked (page : Z) (m : mm_struct) : mm_struct :=
  mk_mm_struct (pgd m) (n_user_pages m) (user_pages m) (s32 (n_kernel_pages m + 1))
    (<[Z.to_nat (n_kernel_pages m) := page]> (kernel_pages m)).

Lemma tracked_room page n m : mm_room n m → 1 ≤ n → mm_room (n - 1) (tracked page m).
Proof.
  intros (H1 & H2 & H3) Hn. unfold mm_room, MAX_PROCESS_PAGES in *. cbn [tracked n_kernel_pages kernel_pages].
  rewrite s32_id, length_insert by lia. repeat split; (done || lia).
Qed.

Lemma tracked_user page m : same_user m (tracked page m).
Proof. by repeat split. Qed.

Lemma track_kernel_run p page m n s :
  mm_of p s = Some m → mm_room n m → 1 ≤ n →
  track_kernel_page p page s = Done (tt, put_mm p (tracked page m) s).
Proof.
  intros Hm (H1 & H2 & H3) Hn. unfold MAX_PROCESS_PAGES in *. unfold track_kernel_page.
  erewrite bind_done by (by apply load_mm_run).
  rewrite array_set_Some by lia.
  rewrite bind_require_some with (a := <[Z.to_nat (n_kernel_pages m) := page]> (kernel_pages m)) by done.
  by apply (store_mm_run p m).
Qed.

Lemma same_user_trans m1 m2 m3 : same_user m1 m2 → same_user m2 m3 → same_user m1 m3.
Proof. intros (H1&?&?) (H2&?&?). split; [|split; congruence]. intros Hp. rewrite <- H1 by done. apply H2. by rewrite H1. Qed.

Lemma mm_room_weaken n n' m : n' ≤ n → mm_room n m → mm_room n' m.
Proof. intros Hn (?&?&?). repeat split; (done || lia). Qed.

(** ** Growing an address space by at most [n] tables *)
Record grows (n : Z) (p : ptr) (s : Machine) (T : Tables) (s' : Machine) (T' : Tables) : Prop := mk_grows {
  g_PT : PT s' T';
  g_tables : tables T ⊆ tables T';
  g_new : ∀ l i, tables T' !! l = Some i → tables T !! l = Some i ∨ page_used (memory_pages s) i = 0;
  g_free : ∃ used, free_list (memory_pages s) = used ++ free_list (memory_pages s') ∧ Z.of_nat (length used) ≤ n;
  g_used : ∀ i, page_used (memory_pages s) i ≠ 0 → page_used (memory_pages s') i = page_used (memory_pages s) i;
  g_pages : ∀ i, page_used (memory_pages s) i ≠ 0 → (∀ l, tables T !! l ≠ Some i) → same_page s s' i;
  g_kernel : ∃ m', kernel s' = set_mm p m' (kernel s);
  g_below : same_below s s';
  g_uart : uart s' = uart s;
  g_abort : abort_index s' = abort_index s
}.

(** In the PCB it takes [n] places for kernel pages and nothing else. *)
Definition mm_grows (n : Z) (p : ptr) (s s' : Machine) : Prop :=
  ∀ m N, mm_of p s = Some m → mm_room N m → n ≤ N →
    ∃ m', mm_of p s' = Some m' ∧ same_user m m' ∧ mm_room (N - n) m'.

Lemma mm_grows_trans n1 n2 p s1 s2 s3 :
  0 ≤ n1 → 0 ≤ n2 → mm_grows n1 p s1 s2 → mm_grows n2 p s2 s3 → mm_grows (n1 + n2) p s1 s3.
Proof.
  intros Hn1 Hn2 A B m N Hm HN Hle.
  destruct (A m N Hm HN) as (m1 & Hm1 & Hs1 & HN1); [lia|].
  destruct (B m1 (N - n1) Hm1 HN1) as (m2 & Hm2 & Hs2 & HN2); [lia|].
  exists m2. split; [exact Hm2|]. split; [by eapply same_user_trans|]. by replace (N - (n1 + n2)) with (N - n1 - n2) by lia.
Qed.

Lemma g_nonneg n p s T s' T' : grows n p s T s' T' → 0 ≤ n.
Proof. intros A. destruct (g_free _ _ _ _ _ _ A) as (u & _ & Hu). lia. Qed.

Lemma grows_trans n1 n2 p s1 T1 s2 T2 s3 T3 :
  grows n1 p s1 T1 s2 T2 → grows n2 p s2 T2 s3 T3 → grows (n1 + n2) p s1 T1 s3 T3.
Proof.
  intros A B. split.
  - apply B.
  - etrans; [apply A|apply B].
  - intros l i H. destruct (g_new _ _ _ _ _ _ B l i H) as [H'|H']; [by apply (g_new _ _ _ _ _ _ A)|right].
    destruct (decide (page_used (memory_pages s1) i = 0)) as [|Hu]; [done|].
    rewrite <- (g_used _ _ _ _ _ _ A) by done. done.
  - destruct (g_free _ _ _ _ _ _ A) as (u1 & E1 & L1). destruct (g_free _ _ _ _ _ _ B) as (u2 & E2 & L2).
    exists (u1 ++ u2). rewrite E1, E2, app_assoc, length_app. split; [done|lia].
  - intros i Hu. rewrite (g_used _ _ _ _ _ _ B); [by apply A|]. by rewrite (g_used _ _ _ _ _ _ A).
  - intros i Hu Hi. eapply same_page_trans; [by apply A|]. apply (g_pages _ _ _ _ _ _ B).
    + by rewrite (g_used _ _ _ _ _ _ A).
    + intros l H. destruct (g_new _ _ _ _ _ _ A l i H); [by eapply Hi|done].
  - destruct (g_kernel _ _ _ _ _ _ A) as [m1 E1]. destruct (g_kernel _ _ _ _ _ _ B) as [m2 E2].
    exists m2. by rewrite E2, E1, set_mm_set.
  - eapply same_below_trans; [apply A|apply B].
  - by rewrite (g_uart _ _ _ _ _ _ B), (g_uart _ _ _ _ _ _ A).
  - by rewrite (g_abort _ _ _ _ _ _ B), (g_abort _ _ _ _ _ _ A).
Qed.

Lemma grows_refl n p s T : 0 ≤ n → PT s T → grows n p s T s T.
Proof.
  intros Hn HPT. split; try done.
  - by left.
  - by exists [].
  - destruct (set_mm_id p (kernel s)) as [m E]. by exists m.
Qed.

Lemma mm_grows_refl n p s : 0 ≤ n → mm_grows n p s s.
Proof.
  intros Hn m N Hm HN _. exists m. split; [done|]. split; [done|]. by eapply mm_room_weaken; [|exact HN]; lia.
Qed.

(** A step that changes neither the tables nor the memory. *)
Lemma put_mm_ram p m s : ram (put_mm p m s) = ram s ∧ memory_pages (put_mm p m s) = memory_pages s ∧
  uart (put_mm p m s) = uart s ∧ abort_index (put_mm p m s) = abort_index s.
Proof. done. Qed.

(** ** One level of the walk that map_page makes *)

(** The tables after the table of path [l] has been made to exist, as page [f]. *)
Definition ensure (l : list Z) (f : Z) (T : Tables) : Tables :=
  match tables T !! l with Some _ => T | None => add_table l f T end.

(** How many tables that takes. *)
Definition absent (T : Tables) (l : list Z) : Z :=
  match tables T !! l with Some _ => 0 | None => 1 end.

Lemma absent_bound T l : 0 ≤ absent T l ≤ 1.
Proof. unfold absent. destruct (tables T !! l); lia. Qed.

Lemma ensure_lookup l f T : tables T !! l = None ∨ tables T !! l = Some f → tables (ensure l f T) !! l = Some f.
Proof. intros H. unfold ensure. destruct (tables T !! l) eqn:E; [|apply lookup_insert_eq]. by destruct H; simplify_eq. Qed.

Lemma ensure_other l l' f T : l ≠ l' → tables (ensure l f T) !! l' = tables T !! l'.
Proof. intros Hne. unfold ensure. destruct (tables T !! l); [done|]. by apply lookup_insert_ne. Qed.

Lemma ensure_leaves l f T : leaves (ensure l f T) = leaves T.
Proof. unfold ensure. by destruct (tables T !! l). Qed.

Lemma next_table_run p m s T l j va shift :
  let l' := l ++ [table_index va shift] in
  PT s T → tables T !! l = Some j → (length l < 3)%nat → mm_of p s = Some m → mm_room (absent T l') m →
  absent T l' ≤ Z.of_nat (length (free_list (memory_pages s))) →
  ∃ s' j', next_table p (page_addr j) shift va s = Done (page_addr j', s') ∧
    grows (absent T l') p s T s' (ensure l' j' T) ∧ mm_grows (absent T l') p s s' ∧ (tables T !! l' = None ∨ tables T !! l' = Some j').
Proof.
  intros l' HPT Hj Hl Hm Hroom Hfree. unfold l' in *. clear l'. set (i := table_index va shift) in *.
  destruct (pt_page _ _ HPT _ _ Hj) as (Hpj & Huj & _).
  unfold next_table. rewrite (kva_u64 j Hpj). unfold absent, ensure in *.
  destruct (tables T !! (l ++ [i])) as [j'|] eqn:Hj'.
  - exists s, j'. erewrite bind_done by (by eapply (map_table_old s T l)).
    split; [done|]. split; [by apply grows_refl|]. split; [by apply mm_grows_refl|]. by right.
  - destruct (free_list (memory_pages s)) as [|f fl] eqn:Hfl; [simpl in Hfree; lia|].
    destruct (free_list_head _ _ _ Hfl) as [Hpf Huf].
    erewrite bind_done by (by eapply (map_table_new s T l)). cbn [fst snd].
    set (s1 := new_table j i f s). fold i in s1.
    assert (quiet_step (Some j) s s1) as [Q1 Q2 Q3 Q4 Q5 Q6]
      by exact (new_table_quiet s T l j i f HPT Hj (table_index_range va shift) Hpf Huf).
    assert (mm_of p s1 = Some m) as Hm1 by (unfold mm_of; by rewrite Q1).
    pose proof (track_kernel_run p (page_addr f) m 1 s1 Hm1 Hroom ltac:(lia)) as Htr.
    set (m' := tracked (page_addr f) m) in *.
    pose proof (put_mm_ram p m' s1) as (E1 & E2 & E3 & E4).
    exists (put_mm p m' s1), f.
    split; [erewrite bind_done by exact Htr; reflexivity|]. clear Htr.
    split; [|split; [|left; reflexivity]]; cycle 1.
    { intros m0 N Hm0 HN HN1. exists m'. split; [exact (mm_of_put p m m' s1 Hm1)|].
      rewrite Hm in Hm0. injection Hm0 as <-. split; [apply tracked_user|by apply tracked_room]. }
    split.
    + eapply PT_ext; [exact E1|exact E2|].
      exact (new_table_PT s T l j i f HPT Hj Hl (table_index_range va shift) Hj' Hpf Huf).
    + by apply insert_subseteq.
    + intros l0 i0. rewrite (add_table_lookup T l i f). case_decide; [intros [= <-]; by right|by left].
    + exists [f]. split; [|simpl; lia]. rewrite E2, Hfl. cbn [app]. f_equal. symmetry.
      exact (new_table_free s j i f fl Hfl).
    + intros i0. rewrite E2. apply Q4.
    + intros i0 Hu Hn off. rewrite E1. apply Q5; [done|]. intros [= ->]. by eapply Hn.
    + exists m'. unfold put_mm. cbn [kernel with_kernel]. rewrite Q1. reflexivity.
    + intros a Ha. rewrite E1. by apply Q6.
    + rewrite E3. exact Q2.
    + rewrite E4. exact Q3.
Qed.
