(* ===== verification/MmMap.v ===== *)
(** * Memory management: mapping pages

    Proofs on map_page and on the translation the processor then computes, which
    copy_virtual_memory builds on. *)
From stdpp Require Import base gmap list.
From Stdlib Require Import ZArith Lia.
From S2P Require Import Prelude Mem Kernel Machine Mm MmSpec.

#[local] Open Scope Z_scope.
#[local] Opaque memzero memcpy store_le load_le free_list N_PAGES page_used byte_at put_byte
  new_table clean_page put_entry take_page.

(** ** The root table *)
Definition no_tables : Tables := mk_Tables ∅ ∅.

Lemma no_tables_PT s : PT s no_tables.
Proof. split; intros; done. Qed.

Lemma with_ram_put_mm r p m s : with_ram r (put_mm p m s) = put_mm p m (with_ram r s).
Proof. reflexivity. Qed.

Lemma put_mm_put p m m' s : put_mm p m' (put_mm p m s) = put_mm p m' s.
Proof. unfold put_mm. cbn [kernel with_kernel]. rewrite set_mm_set. reflexivity. Qed.

(** The part of map_page that gives a process its root table. *)
Definition ensure_root (process : ptr) : M Machine unit :=
  m ← load_mm process;
  if pgd m =? 0 then
    page ← get_free_page;
    m ← load_mm process;
    store_mm process (with_pgd page m);;
    set_ram (memzero (u64 (page + VA_START)) PAGE_SIZE);;
    track_kernel_page process page
  else mret tt.

(** The address space of process [p]: its tables and, through [pgd], its root. *)
Record space (p : ptr) (s : Machine) (T : Tables) (m : mm_struct) : Prop := mk_space {
  sp_mm : mm_of p s = Some m;
  sp_PT : PT s T;
  sp_root : match tables T !! [] with
            | Some root => pgd m = page_addr root
            | None => pgd m = 0 ∧ T = no_tables
            end
}.

Lemma page_addr_nonzero j : page_index j → page_addr j ≠ 0.
Proof. mm_consts. lia. Qed.

Definition root_machine (p : ptr) (f : Z) (m : mm_struct) (s : Machine) : Machine :=
  put_mm p (tracked (page_addr f) (with_pgd (page_addr f) m)) (clean_page f s).

Lemma ensure_root_new p m s f fl n :
  mm_of p s = Some m → pgd m = 0 → mm_room n m → 1 ≤ n → free_list (memory_pages s) = f :: fl →
  ensure_root p s = Done (tt, root_machine p f m s).
Proof.
  intros Hm Hz Hroom Hn Hfl. destruct (free_list_head _ _ _ Hfl) as [Hpf _].
  unfold ensure_root. erewrite bind_done by (by apply load_mm_run). rewrite Hz. change (0 =? 0) with true. cbv iota.
  rewrite (bind_done _ _ _ (page_addr f) (take_page f s)) by (by rewrite get_free_page_run, Hfl).
  assert (mm_of p (take_page f s) = Some m) as Hm1.
  { unfold mm_of. by rewrite (proj1 (take_page_frame f s)). }
  erewrite bind_done by (by apply load_mm_run).
  erewrite bind_done by (by apply (store_mm_run p m)).
  unfold set_ram. mrun. rewrite kva_u64 by done.
  rewrite (proj1 (put_mm_ram p (with_pgd (page_addr f) m) (take_page f s))).
  rewrite with_ram_put_mm, clean_page_ram.
  assert (mm_of p (clean_page f s) = Some m) as Hm2.
  { unfold mm_of. by rewrite (proj1 (clean_page_frame f s)). }
  rewrite (track_kernel_run p (page_addr f) (with_pgd (page_addr f) m) n);
    [by rewrite put_mm_put|exact (mm_of_put p m _ _ Hm2)|exact Hroom|exact Hn].
Qed.

Lemma root_PT p f m s :
  page_index f → page_used (memory_pages s) f = 0 →
  PT (root_machine p f m s) (mk_Tables {[ [] := f ]} ∅).
Proof.
  intros Hpf Huf. unfold root_machine.
  destruct (put_mm_ram p (tracked (page_addr f) (with_pgd (page_addr f) m)) (clean_page f s)) as (E1 & E2 & _).
  apply (PT_ext (clean_page f s) _ _ E1 E2). clear E1 E2.
  assert (∀ l j, ({[ [] := f ]} : gmap (list Z) Z) !! l = Some j → l = [] ∧ j = f) as Hone
    by (by intros l j [<- <-]%lookup_singleton_Some).
  split; cbn [tables leaves].
  - intros l j [-> ->]%Hone. rewrite (proj2 (proj2 (proj2 (clean_page_frame f s)))), page_used_insert, decide_True by done. split; [done|]. split; [done|simpl; lia].
  - intros l l' j [-> ->]%Hone [-> _]%Hone. done.
  - intros l i j [E _]%Hone. by destruct l.
  - intros l j i [-> ->]%Hone _ Hi. rewrite clean_page_entry, decide_True by done.
    rewrite lookup_singleton_ne by done. done.
  - intros l j i [-> ->]%Hone Hl. discriminate Hl.
  - done.
  - done.
Qed.

Lemma root_grows p f fl m s :
  mm_of p s = Some m → pgd m = 0 → free_list (memory_pages s) = f :: fl →
  grows 1 p s no_tables (root_machine p f m s) (mk_Tables {[ [] := f ]} ∅) ∧
  mm_grows 1 p s (root_machine p f m s).
Proof.
  intros Hm Hz Hfl. destruct (free_list_head _ _ _ Hfl) as [Hpf Huf].
  destruct (clean_page_frame f s) as (C1 & C2 & C3 & C4).
  set (m' := tracked (page_addr f) (with_pgd (page_addr f) m)).
  destruct (put_mm_ram p m' (clean_page f s)) as (E1 & E2 & E3 & E4). fold m' in E1, E2, E3, E4.
  assert (root_machine p f m s = put_mm p m' (clean_page f s)) as -> by reflexivity.
  split; [split|].
  - exact (root_PT p f m s Hpf Huf).
  - apply map_empty_subseteq.
  - intros l i. cbn [tables]. intros [<- <-]%lookup_singleton_Some. right. exact Huf.
  - exists [f]. split; [|simpl; lia]. rewrite E2, C4, (free_list_take _ _ _ Hfl), Hfl. reflexivity.
  - intros i Hu. rewrite E2, C4, page_used_insert. case_decide; [congruence|reflexivity].
  - intros i Hu _ off Ho. rewrite E1. apply clean_page_same; [congruence|exact Ho].
  - exists m'. unfold put_mm. cbn [kernel with_kernel]. rewrite C1. reflexivity.
  - intros a Ha. rewrite E1. by apply clean_page_below.
  - rewrite E3. exact C2.
  - rewrite E4. exact C3.
  - intros m0 N Hm0 HN HN1. rewrite Hm in Hm0. injection Hm0 as <-. exists m'. split; [|split].
    + apply (mm_of_put p m). unfold mm_of. rewrite C1. exact Hm.
    + split; [lia|]. split; reflexivity.
    + apply (tracked_room (page_addr f) N (with_pgd (page_addr f) m)); [exact HN|exact HN1].
Qed.

Lemma ensure_root_run p s T m :
  space p s T m → mm_room (absent T []) m → absent T [] ≤ Z.of_nat (length (free_list (memory_pages s))) →
  ∃ s' root m', ensure_root p s = Done (tt, s') ∧
    grows (absent T []) p s T s' (ensure [] root T) ∧ mm_grows (absent T []) p s s' ∧ mm_of p s' = Some m' ∧ pgd m' = page_addr root ∧
    tables (ensure [] root T) !! [] = Some root.
Proof.
  intros [Hm HPT Hroot] Hroom Hfree. unfold absent, ensure in *.
  destruct (tables T !! []) as [root|] eqn:Er.
  - exists s, root, m. split; [|split; [by apply grows_refl|split; [by apply mm_grows_refl|
      split; [exact Hm|split; [exact Hroot|exact Er]]]]].
    unfold ensure_root. erewrite bind_done by (by apply load_mm_run). rewrite (proj2 (Z.eqb_neq _ _)); [reflexivity|].
    rewrite Hroot. apply page_addr_nonzero. by destruct (pt_page _ _ HPT _ _ Er).
  - destruct Hroot as [Hz ->]. destruct (free_list (memory_pages s)) as [|f fl] eqn:Hfl; [simpl in Hfree; lia|].
    exists (root_machine p f m s), f, (tracked (page_addr f) (with_pgd (page_addr f) m)).
    split; [by apply (ensure_root_new p m s f fl 1)|]. destruct (root_grows p f fl m s Hm Hz Hfl) as [G1 G2].
    split; [exact G1|]. split; [exact G2|]. split; [|split; [reflexivity|apply lookup_insert_eq]].
    apply (mm_of_put p m). unfold mm_of. rewrite (proj1 (clean_page_frame f s)). exact Hm.
Qed.

(** ** The last level: the entry of the page itself *)
Lemma leaf_PT s T l j i f :
  PT s T → tables T !! l = Some j → length l = 3%nat → 0 ≤ i < PTRS_PER_TABLE → page_index f →
  PT (put_entry j i (Z.lor (page_addr f) MMU_PTE_FLAGS) s) (add_leaf (l ++ [i]) f T).
Proof.
  intros HPT Hj Hl Hi Hf. pose proof (leaf_descriptor f Hf) as Hd.
  destruct (put_entry_frame j i (Z.lor (page_addr f) MMU_PTE_FLAGS) s) as (_ & _ & _ & Em).
  split; cbn [tables leaves add_leaf].
  - intros l0 j0. rewrite Em. apply (pt_page _ _ HPT).
  - apply (pt_inj _ _ HPT).
  - apply (pt_prefix _ _ HPT).
  - intros l0 j0 i0 H0 Hl0 Hi0. rewrite put_entry_entry by assumption.
    rewrite decide_False; [by apply (pt_entry _ _ HPT)|].
    intros [-> _]. rewrite (pt_inj _ _ HPT l0 l j H0 Hj) in Hl0. lia.
  - intros l0 j0 i0 H0 Hl0 Hi0. rewrite put_entry_entry by assumption. case_decide as E.
    + destruct E as [-> ->]. rewrite (pt_inj _ _ HPT l0 l j H0 Hj), lookup_insert_eq. reflexivity.
    + rewrite lookup_insert_ne; [by apply (pt_leaf _ _ HPT)|]. intros [<- <-]%app_one_inj. apply E. split; congruence.
  - intros l0 j0. destruct (decide (l ++ [i] = l0)) as [<-|Hne].
    + rewrite lookup_insert_eq. intros [= <-]. exact Hf.
    + rewrite lookup_insert_ne by done. apply (pt_leaf_page _ _ HPT).
  - intros l0 i0 j0. destruct (decide (l ++ [i] = l0 ++ [i0])) as [[<- <-]%app_one_inj|Hne].
    + intros _. by eexists.
    + rewrite lookup_insert_ne by done. apply (pt_leaf_prefix _ _ HPT).
Qed.

Definition user_tracked (u : user_page) (m : mm_struct) : mm_struct :=
  mk_mm_struct (pgd m) (s32 (n_user_pages m + 1)) (<[Z.to_nat (n_user_pages m) := u]> (user_pages m))
    (n_kernel_pages m) (kernel_pages m).

(** Room for one more user page. *)
Definition user_room (m : mm_struct) : Prop :=
  0 ≤ n_user_pages m < MAX_PROCESS_PAGES ∧ length (user_pages m) = Z.to_nat MAX_PROCESS_PAGES.

Lemma track_user_run p u m s :
  mm_of p s = Some m → user_room m → track_user_page p u s = Done (tt, put_mm p (user_tracked u m) s).
Proof.
  intros Hm [H1 H2]. unfold track_user_page. erewrite bind_done by (by apply load_mm_run).
  unfold MAX_PROCESS_PAGES in *. rewrite array_set_Some by lia.
  rewrite bind_require_some with (a := <[Z.to_nat (n_user_pages m) := u]> (user_pages m)) by done.
  exact (store_mm_run p m _ s Hm).
Qed.

(** ** map_page *)

(** The paths of the four tables of a virtual address. *)
Definition table_paths (va : Z) : list (list Z) :=
  [[]; [table_index va PGD_SHIFT]; [table_index va PGD_SHIFT; table_index va PUD_SHIFT]; path3 va].

(** How many of them are missing. *)
Definition missing (T : Tables) (va : Z) : Z := foldr (λ l n, absent T l + n) 0 (table_paths va).

Lemma absent_ensure T l l' f : l ≠ l' → absent (ensure l f T) l' = absent T l'.
Proof. intros H. unfold absent. by rewrite ensure_other. Qed.

Lemma grows_length n p s T s' T' :
  grows n p s T s' T' →
  Z.of_nat (length (free_list (memory_pages s))) ≤ n + Z.of_nat (length (free_list (memory_pages s'))).
Proof. intros G. destruct (g_free _ _ _ _ _ _ G) as (u & -> & Hu). rewrite length_app. lia. Qed.

(** The tables that map_page walks through, all in place. *)
Definition ensured (va root j1 j2 j3 : Z) (T : Tables) : Tables :=
  ensure (path3 va) j3
    (ensure [table_index va PGD_SHIFT; table_index va PUD_SHIFT] j2
      (ensure [table_index va PGD_SHIFT] j1 (ensure [] root T))).

Definition find_pte {B} (p : ptr) (va : Z) (f : Z → M Machine B) : M Machine B :=
  ensure_root p;;
  m ← load_mm p;
  pud ← next_table p (pgd m) PGD_SHIFT va;
  pmd ← next_table p pud PUD_SHIFT va;
  pte ← next_table p pmd PMD_SHIFT va;
  f pte.

Lemma map_page_find_pte p va page s :
  map_page p va page s =
  find_pte p va (λ pte, map_table_entry (u64 (pte + VA_START)) va page;;
                        track_user_page p (mk_user_page page va)) s.
Proof. unfold find_pte, ensure_root. rewrite bind_assoc. reflexivity. Qed.

(** A budget of [n] tables: room for them in the PCB and pages to make them of. *)
Definition budget (n : Z) (m : mm_struct) (s : Machine) : Prop :=
  mm_room n m ∧ n ≤ Z.of_nat (length (free_list (memory_pages s))).

(** One level, spending from the budget. *)
Lemma level_run n p m s T l j va shift :
  let l' := l ++ [table_index va shift] in
  PT s T → tables T !! l = Some j → (length l < 3)%nat → mm_of p s = Some m → pgd m ≠ 0 →
  budget n m s → absent T l' ≤ n →
  ∃ s' j' m', let T' := ensure l' j' T in
    next_table p (page_addr j) shift va s = Done (page_addr j', s') ∧
    grows (absent T l') p s T s' T' ∧ mm_grows (absent T l') p s s' ∧ tables T' !! l' = Some j' ∧
    mm_of p s' = Some m' ∧ pgd m' = pgd m ∧ budget (n - absent T l') m' s'.
Proof.
  intros l' HPT Hj Hl Hm Hp [Hroom Hfree] Hn. pose proof (absent_bound T l') as Hb. unfold l' in *.
  destruct (next_table_run p m s T l j va shift HPT Hj Hl Hm) as (s' & j' & E & G & M & D);
    [by eapply mm_room_weaken; [|exact Hroom]|lia|].
  destruct (M m n Hm Hroom Hn) as (m' & Hm' & [U _] & R'). pose proof (grows_length _ _ _ _ _ _ G) as L.
  exists s', j', m'. cbv zeta. split; [exact E|]. split; [exact G|]. split; [exact M|].
  split; [by apply ensure_lookup|]. split; [exact Hm'|]. split; [by apply U|]. split; [exact R'|lia].
Qed.

Lemma find_pte_run {B} p s T m va (f : Z → M Machine B) :
  space p s T m → budget (missing T va) m s →
  ∃ s' root j1 j2 j3 m', let T' := ensured va root j1 j2 j3 T in
    find_pte p va f s = f (page_addr j3) s' ∧
    grows (missing T va) p s T s' T' ∧ mm_grows (missing T va) p s s' ∧
    mm_of p s' = Some m' ∧ pgd m' = page_addr root ∧
    tables T' !! [] = Some root ∧ tables T' !! path3 va = Some j3.
Proof.
  intros Hsp [Hroom Hfree]. unfold missing, table_paths in *. cbn [foldr] in *. unfold path3 in *.
  set (i0 := table_index va PGD_SHIFT) in *. set (i1 := table_index va PUD_SHIFT) in *.
  set (i2 := table_index va PMD_SHIFT) in *.
  pose proof (absent_bound T []) as B0. pose proof (absent_bound T [i0]) as B1.
  pose proof (absent_bound T [i0; i1]) as B2. pose proof (absent_bound T [i0; i1; i2]) as B3.
  destruct (ensure_root_run p s T m Hsp) as (s0 & root & m0 & E0 & G0 & M0 & Hm0 & Hp0 & Hr0);
    [by eapply mm_room_weaken; [|exact Hroom]; lia|lia|].
  assert (pgd m0 ≠ 0) as Hnz.
  { rewrite Hp0. apply page_addr_nonzero. by destruct (pt_page _ _ (g_PT _ _ _ _ _ _ G0) _ _ Hr0). }
  destruct (M0 m _ (sp_mm _ _ _ _ Hsp) Hroom) as (m0' & Hm0' & _ & R0); [lia|].
  rewrite Hm0 in Hm0'. injection Hm0' as <-. pose proof (grows_length _ _ _ _ _ _ G0) as L0.
  assert (budget (absent T [i0] + (absent T [i0; i1] + (absent T [i0; i1; i2] + 0))) m0 s0) as Q0
    by (split; [by eapply mm_room_weaken; [|exact R0]; lia|lia]).
  set (T0 := ensure [] root T) in *.
  assert (absent T0 [i0] = absent T [i0]) as A0 by (by apply absent_ensure).
  destruct (level_run _ p m0 s0 T0 [] root va PGD_SHIFT (g_PT _ _ _ _ _ _ G0) Hr0 ltac:(simpl; lia) Hm0 Hnz
    Q0) as (s1 & j1 & m1 & E1 & G1 & M1 & H1 & Hm1 & Hp1 & Q1); [cbn [app]; fold i0; lia|].
  cbn [app] in G1, M1, H1, Q1. fold i0 in G1, M1, H1, Q1. rewrite A0 in G1, M1, Q1. set (T1 := ensure [i0] j1 T0) in *.
  assert (absent T1 [i0; i1] = absent T [i0; i1]) as A1 by (unfold T1, T0; by rewrite !absent_ensure).
  destruct (level_run _ p m1 s1 T1 [i0] j1 va PUD_SHIFT (g_PT _ _ _ _ _ _ G1) H1 ltac:(simpl; lia) Hm1
    ltac:(congruence) Q1) as (s2 & j2 & m2 & E2 & G2 & M2 & H2 & Hm2 & Hp2 & Q2); [cbn [app]; fold i1; lia|].
  cbn [app] in G2, M2, H2, Q2. fold i1 in G2, M2, H2, Q2. rewrite A1 in G2, M2, Q2. set (T2 := ensure [i0; i1] j2 T1) in *.
  assert (absent T2 [i0; i1; i2] = absent T [i0; i1; i2]) as A2 by (unfold T2, T1, T0; by rewrite !absent_ensure).
  destruct (level_run _ p m2 s2 T2 [i0; i1] j2 va PMD_SHIFT (g_PT _ _ _ _ _ _ G2) H2 ltac:(simpl; lia) Hm2
    ltac:(congruence) Q2) as (s3 & j3 & m3 & E3 & G3 & M3 & H3 & Hm3 & Hp3 & Q3); [cbn [app]; fold i2; lia|].
  cbn [app] in G3, M3, H3. fold i2 in G3, M3, H3. rewrite A2 in G3, M3.
  exists s3, root, j1, j2, j3, m3. unfold ensured, path3. fold i0 i1 i2 T0 T1 T2. cbv zeta.
  split; [|split; [|split; [|split; [exact Hm3|split; [congruence|split; [|exact H3]]]]]].
  - unfold find_pte. erewrite bind_done by exact E0. erewrite bind_done by (apply load_mm_run; exact Hm0).
    rewrite Hp0. erewrite bind_done by exact E1. erewrite bind_done by exact E2. by erewrite bind_done by exact E3.
  - rewrite Z.add_0_r. exact (grows_trans _ _ _ _ _ _ _ _ _ G0 (grows_trans _ _ _ _ _ _ _ _ _ G1 (grows_trans _ _ _ _ _ _ _ _ _ G2 G3))).
  - rewrite Z.add_0_r. apply (mm_grows_trans _ _ _ _ s0); [lia|lia|exact M0|].
    apply (mm_grows_trans _ _ _ _ s1); [lia|lia|exact M1|]. apply (mm_grows_trans _ _ _ _ s2); [lia|lia|exact M2|exact M3].
  - unfold T2, T1. rewrite !ensure_other by done. exact Hr0.
Qed.

Lemma leaf_grows p s T l j i f m m' :
  PT s T → tables T !! l = Some j → length l = 3%nat → 0 ≤ i < PTRS_PER_TABLE → page_index f →
  mm_of p s = Some m →
  grows 0 p s T (put_mm p m' (put_entry j i (Z.lor (page_addr f) MMU_PTE_FLAGS) s)) (add_leaf (l ++ [i]) f T).
Proof.
  intros HPT Hj Hl Hi Hf Hm.
  destruct (put_entry_frame j i (Z.lor (page_addr f) MMU_PTE_FLAGS) s) as (C1 & C2 & C3 & C4).
  set (s1 := put_entry j i (Z.lor (page_addr f) MMU_PTE_FLAGS) s) in *.
  destruct (put_mm_ram p m' s1) as (E1 & E2 & E3 & E4). split.
  - apply (PT_ext s1 _ _ E1 E2). by apply leaf_PT.
  - reflexivity.
  - intros l0 i0 H0. left. exact H0.
  - exists []. rewrite E2, C4. split; [reflexivity|simpl; lia].
  - intros i0 _. rewrite E2, C4. reflexivity.
  - intros i0 _ Hne off Ho. rewrite E1. apply put_entry_same; [exact Hi| |exact Ho]. intros ->. by eapply Hne.
  - exists m'. unfold put_mm. cbn [kernel with_kernel]. rewrite C1. reflexivity.
  - intros a Ha. rewrite E1. apply put_entry_below; [by destruct (pt_page _ _ HPT _ _ Hj)|apply Hi|exact Ha].
  - rewrite E3. exact C2.
  - rewrite E4. exact C3.
Qed.

(** What map_page does to an address space. *)
Lemma map_page_run p s T m va f :
  space p s T m → budget (missing T va) m s → user_room m → page_index f →
  ∃ s' T' m', map_page p va (page_addr f) s = Done (tt, s') ∧
    grows (missing T va) p s T s' T' ∧ space p s' T' m' ∧
    leaves T' = <[path4 va := f]> (leaves T) ∧ Forall (λ l, is_Some (tables T' !! l)) (table_paths va) ∧
    n_user_pages m' = n_user_pages m + 1 ∧
    user_pages m' = <[Z.to_nat (n_user_pages m) := mk_user_page (page_addr f) va]> (user_pages m) ∧
    (∀ n, mm_room n m → missing T va ≤ n → mm_room (n - missing T va) m').
Proof.
  intros Hsp Hbud Huser Hf.
  destruct (find_pte_run p s T m va (λ pte, map_table_entry (u64 (pte + VA_START)) va (page_addr f);;
     track_user_page p (mk_user_page (page_addr f) va)) Hsp Hbud)
    as (s1 & root & j1 & j2 & j3 & m1 & E & G & M & Hm1 & Hp1 & Hr & Hj3). fold (table_paths va) in *.
  set (T1 := ensured va root j1 j2 j3 T) in *.
  destruct (M m _ (sp_mm _ _ _ _ Hsp) (proj1 Hbud)) as (m1' & Hm1' & (_ & U2 & U3) & _); [lia|].
  rewrite Hm1 in Hm1'. injection Hm1' as <-.
  assert (user_room m1) as Huser1 by (unfold user_room; by rewrite U2, U3).
  destruct (pt_page _ _ (g_PT _ _ _ _ _ _ G) _ _ Hj3) as (Hpj & _ & _).
  set (i := table_index va PAGE_SHIFT). set (m2 := user_tracked (mk_user_page (page_addr f) va) m1).
  set (s2 := put_entry j3 i (Z.lor (page_addr f) MMU_PTE_FLAGS) s1).
  assert (mm_of p s2 = Some m1) as Hm2.
  { unfold mm_of, s2. rewrite (proj1 (put_entry_frame j3 i (Z.lor (page_addr f) MMU_PTE_FLAGS) s1)). exact Hm1. }
  pose proof (leaf_grows p s1 T1 (path3 va) j3 i f m1 m2 (g_PT _ _ _ _ _ _ G) Hj3 eq_refl (table_index_range va PAGE_SHIFT) Hf Hm1) as G2.
  fold s2 in G2. pose proof (grows_trans _ _ _ _ _ _ _ _ _ G G2) as G3. rewrite Z.add_0_r in G3.
  exists (put_mm p m2 s2), (add_leaf (path3 va ++ [i]) f T1), m2. split; [|split; [exact G3|split; [|split; [|split; [|split; [|split]]]]]].
  - rewrite map_page_find_pte, E. unfold map_table_entry. fold (table_index va PAGE_SHIFT). fold i.
    rewrite kva_u64 by exact Hpj. erewrite bind_done by apply write_entry_run.
    fold s2. exact (track_user_run p _ m1 s2 Hm2 Huser1).
  - split; [exact (mm_of_put p m1 m2 s2 Hm2)|exact (g_PT _ _ _ _ _ _ G3)|].
    cbn [tables add_leaf]. rewrite Hr. exact Hp1.
  - cbn [leaves add_leaf]. unfold T1, ensured. by rewrite !ensure_leaves.
  - cbn [tables add_leaf].
    assert (∀ l l' x, tables (ensure l' x T1) !! l = tables T1 !! l → True) as _ by done.
    pose proof (pt_prefix _ _ (g_PT _ _ _ _ _ _ G)) as Hpre.
    destruct (Hpre [table_index va PGD_SHIFT; table_index va PUD_SHIFT] (table_index va PMD_SHIFT) j3 Hj3) as [x2 H2].
    destruct (Hpre [table_index va PGD_SHIFT] (table_index va PUD_SHIFT) x2 H2) as [x1 H1].
    repeat constructor; eexists; eassumption.
  - destruct Huser1 as [Hu _]. unfold MAX_PROCESS_PAGES in Hu. cbn [m2 user_tracked n_user_pages].
    rewrite s32_id by lia. by rewrite U2.
  - cbn [m2 user_tracked user_pages]. by rewrite U2, U3.
  - intros n Hn Hle. destruct (M m n (sp_mm _ _ _ _ Hsp) Hn Hle) as (mx & Hmx & _ & Hr').
    rewrite Hm1 in Hmx. injection Hmx as <-. exact Hr'.
Qed.

(** ** The processor's walk *)
Definition descriptor_at (m : mem) (table va shift : Z) : Z :=
  load64 (table + VA_START + 8 * table_index va shift) m.

(** The address field of a valid descriptor (bits 0 and 1 set). *)
Definition descriptor_target (e : Z) : option Z :=
  if Z.land e 3 =? 3 then Some (Z.land e ADDRESS_MASK) else None.

(** Translation of a user virtual address, from the root in TTBR0. *)
Definition translate (m : mem) (root va : Z) : option Z :=
  pud ← descriptor_target (descriptor_at m root va PGD_SHIFT);
  pmd ← descriptor_target (descriptor_at m pud va PUD_SHIFT);
  pte ← descriptor_target (descriptor_at m pmd va PMD_SHIFT);
  page ← descriptor_target (descriptor_at m pte va PAGE_SHIFT);
  Some (page + Z.land va (PAGE_SIZE - 1)).

Lemma descriptor_target_of f o :
  0 ≤ f < 4096 → Z.land f 3 = 3 → (∀ j, o = Some j → page_index j) →
  descriptor_target (descriptor_of f o) = page_addr <$> o.
Proof.
  intros Hf H3 Ho. destruct o as [j|]; [|done]. cbn [descriptor_of].
  destruct (descriptor_facts j f (Ho j eq_refl) Hf H3) as (_ & _ & _ & E1 & E2).
  unfold descriptor_target. rewrite E2, E1. done.
Qed.

Lemma walk_table s T l j va shift :
  PT s T → tables T !! l = Some j → (length l < 3)%nat →
  descriptor_target (descriptor_at (ram s) (page_addr j) va shift) =
    page_addr <$> tables T !! (l ++ [table_index va shift]).
Proof.
  intros HPT Hj Hl. pose proof (pt_entry _ _ HPT l j _ Hj Hl (table_index_range va shift)) as He.
  unfold entry_of, kva in He. unfold descriptor_at. rewrite He.
  apply descriptor_target_of; [done|done|]. intros x Hx. by destruct (pt_page _ _ HPT _ _ Hx).
Qed.

(** The walk computes the abstract map. *)
Lemma translate_space s T root va :
  PT s T → tables T !! [] = Some root →
  translate (ram s) (page_addr root) va =
    (λ j, page_addr j + Z.land va (PAGE_SIZE - 1)) <$> leaves T !! path4 va.
Proof.
  intros HPT Hr. unfold translate.
  assert (∀ l i, tables T !! l = None → tables T !! (l ++ [i]) = None) as Hup.
  { intros l i Hn. destruct (tables T !! (l ++ [i])) eqn:E; [|done]. apply (pt_prefix _ _ HPT) in E as [? ?]. congruence. }
  assert (tables T !! path3 va = None → leaves T !! path4 va = None) as Hleaf.
  { intros Hn. unfold path4. destruct (leaves T !! _) eqn:E; [|done]. apply (pt_leaf_prefix _ _ HPT) in E as [? ?]. congruence. }
  rewrite (walk_table s T [] root) by (done || (simpl; lia)). cbn [app].
  destruct (tables T !! [table_index va PGD_SHIFT]) as [j1|] eqn:E1; cycle 1.
  { rewrite Hleaf; [done|]. apply (Hup [_; _]), (Hup [_]), E1. }
  simpl fmap. cbn [mbind option_bind]. rewrite (walk_table s T [_] j1) by (done || (simpl; lia)). cbn [app].
  destruct (tables T !! [table_index va PGD_SHIFT; table_index va PUD_SHIFT]) as [j2|] eqn:E2; cycle 1.
  { rewrite Hleaf; [done|]. apply (Hup [_; _]), E2. }
  simpl fmap. cbn [mbind option_bind]. rewrite (walk_table s T [_; _] j2) by (done || (simpl; lia)). cbn [app].
  fold (path3 va). destruct (tables T !! path3 va) as [j3|] eqn:E3; [|rewrite Hleaf; done].
  simpl fmap. cbn [mbind option_bind].
  pose proof (pt_leaf _ _ HPT (path3 va) j3 _ E3 eq_refl (table_index_range va PAGE_SHIFT)) as He.
  unfold entry_of, kva in He. unfold descriptor_at. rewrite He. fold (path4 va).
  rewrite descriptor_target_of; [|done|done|intros x Hx; by apply (pt_leaf_page _ _ HPT (path4 va))].
  by destruct (leaves T !! path4 va).
Qed.
