(* ===== verification/MmProps.v ===== *)
(** * Memory management: what map_page and copy_virtual_memory achieve

    The properties of the address spaces that libs/mm.c builds, stated with the
    translation the processor performs on the tables in memory. *)
From stdpp Require Import base gmap list.
From Stdlib Require Import ZArith Lia.
From S2P Require Import Prelude Mem Kernel Machine Mm MmSpec MmMap.

#[local] Open Scope Z_scope.
#[local] Opaque memzero memcpy store_le load_le free_list N_PAGES page_used byte_at put_byte
  new_table clean_page put_entry take_page map_page.

(** ** Virtual pages *)

(** The virtual page number: bits 12 to 47. *)
Definition vpn (va : Z) : Z := (va / PAGE_SIZE) mod 2 ^ 36.

(** What the processor sees through the root of a process. *)
Definition user_map (r : mem) (m : mm_struct) (va : Z) : option Z :=
  if pgd m =? 0 then None else translate r (pgd m) va.

Lemma table_index_div va k :
  0 ≤ k → table_index va (PAGE_SHIFT + k * TABLE_SHIFT) = (va / PAGE_SIZE / 512 ^ k) mod 512.
Proof.
  intros Hk. unfold table_index, PTRS_PER_TABLE, PAGE_SHIFT, TABLE_SHIFT, PAGE_SIZE. change (512 - 1) with (Z.ones 9).
  rewrite Z.land_ones, Z.shiftr_div_pow2, Z.div_div by lia. do 2 f_equal.
  rewrite Z.pow_add_r, (Z.mul_comm k 9), Z.pow_mul_r by lia. done.
Qed.

Lemma vpn_digits va :
  vpn va = table_index va PAGE_SHIFT + 512 * (table_index va PMD_SHIFT + 512 * (table_index va PUD_SHIFT +
    512 * table_index va PGD_SHIFT)).
Proof.
  change PAGE_SHIFT with (PAGE_SHIFT + 0 * TABLE_SHIFT) at 1.
  change PMD_SHIFT with (PAGE_SHIFT + 1 * TABLE_SHIFT). change PUD_SHIFT with (PAGE_SHIFT + 2 * TABLE_SHIFT).
  change PGD_SHIFT with (PAGE_SHIFT + 3 * TABLE_SHIFT). rewrite !table_index_div by lia.
  unfold vpn. set (q := va / PAGE_SIZE).
  change (512 ^ 0) with 1. change (512 ^ 1) with 512. rewrite Z.div_1_r.
  replace (q / 512 ^ 2) with (q / 512 / 512) by (rewrite Z.div_div by lia; done).
  replace (q / 512 ^ 3) with (q / 512 / 512 / 512) by (rewrite !Z.div_div by lia; done).
  change (2 ^ 36) with (512 * (512 * (512 * 512))). rewrite Z.rem_mul_r by lia. do 2 f_equal.
  rewrite Z.rem_mul_r by lia. do 2 f_equal. by rewrite Z.rem_mul_r by lia.
Qed.

Lemma path4_vpn va va' : path4 va = path4 va' ↔ vpn va = vpn va'.
Proof.
  rewrite !vpn_digits. unfold path4, path3. cbn [app]. split; [congruence|]. intros H.
  pose proof (table_index_range va PAGE_SHIFT). pose proof (table_index_range va' PAGE_SHIFT).
  pose proof (table_index_range va PMD_SHIFT). pose proof (table_index_range va' PMD_SHIFT).
  pose proof (table_index_range va PUD_SHIFT). pose proof (table_index_range va' PUD_SHIFT).
  unfold PTRS_PER_TABLE in *.
  assert (table_index va PGD_SHIFT = table_index va' PGD_SHIFT ∧ table_index va PUD_SHIFT = table_index va' PUD_SHIFT ∧
    table_index va PMD_SHIFT = table_index va' PMD_SHIFT ∧ table_index va PAGE_SHIFT = table_index va' PAGE_SHIFT)
    as (-> & -> & -> & ->) by lia. reflexivity.
Qed.

Lemma user_map_space p s T m va :
  space p s T m →
  user_map (ram s) m va = (λ j, page_addr j + Z.land va (PAGE_SIZE - 1)) <$> leaves T !! path4 va.
Proof.
  intros [_ HPT Hr]. unfold user_map. destruct (tables T !! []) as [root|] eqn:E.
  - rewrite Hr. destruct (pt_page _ _ HPT _ _ E) as (Hj & _).
    rewrite (proj2 (Z.eqb_neq _ _) (page_addr_nonzero _ Hj)). by apply translate_space.
  - destruct Hr as [-> ->]. cbn [leaves no_tables]. rewrite lookup_empty. reflexivity.
Qed.

Lemma set_mm_own p s m s' m1 m' :
  mm_of p s = Some m → kernel s' = set_mm p m1 (kernel s) → mm_of p s' = Some m' → kernel s' = set_mm p m' (kernel s).
Proof.
  intros H0 Hk H1. rewrite Hk. unfold mm_of in H0, H1. rewrite Hk in H1. unfold set_mm in H1. cbn [heap with_heap] in H1.
  rewrite lookup_alter_eq in H1. destruct (heap (kernel s) !! p) as [c|]; [|discriminate H0].
  cbn [fmap option_fmap option_map mm with_mm] in H1. by injection H1 as ->.
Qed.

(** C21: map_page. When the PCB has room for the tables the virtual address
    lacks and there are free pages for them, map_page succeeds; afterwards the
    processor's walk of the process's tables translates every address of that
    virtual page to the given physical page and every other address as before,
    and every page that was in use and is not one of the process's tables keeps
    its bytes. *)
Theorem map_page_spec p s T m va f :
  space p s T m → budget (missing T va) m s → user_room m → page_index f →
  ∃ s' T' m', map_page p va (page_addr f) s = Done (tt, s') ∧ space p s' T' m' ∧
    (∀ va', user_map (ram s') m' va' =
       if decide (vpn va' = vpn va) then Some (page_addr f + Z.land va' (PAGE_SIZE - 1))
       else user_map (ram s) m va') ∧
    (∀ j, page_used (memory_pages s) j ≠ 0 → (∀ l, tables T !! l ≠ Some j) → same_page s s' j) ∧
    kernel s' = set_mm p m' (kernel s) ∧ n_user_pages m' = n_user_pages m + 1.
Proof.
  intros Hsp Hb Hu Hf.
  destruct (map_page_run p s T m va f Hsp Hb Hu Hf) as (s' & T' & m' & E & G & Hsp' & Hl & _ & Hn & _).
  exists s', T', m'. split; [exact E|]. split; [exact Hsp'|]. split; [|split; [|split; [|exact Hn]]].
  - intros va'. rewrite (user_map_space _ _ _ _ _ Hsp'), (user_map_space _ _ _ _ _ Hsp), Hl.
    case_decide as D; apply (path4_vpn va' va) in D || rewrite <- path4_vpn in D.
    + rewrite D, lookup_insert_eq. reflexivity.
    + rewrite lookup_insert_ne by (intros Hp; by apply D). reflexivity.
  - apply (g_pages _ _ _ _ _ _ G).
  - destruct (g_kernel _ _ _ _ _ _ G) as [m1 Hk].
    exact (set_mm_own p s m s' m1 m' (sp_mm _ _ _ _ Hsp) Hk (sp_mm _ _ _ _ Hsp')).
Qed.

(** ** Machines to try the theorems on *)
Definition machine_with (k : Kernel) (pages r : gmap Z Z) : Machine :=
  mk_Machine k (mk_Uart None (replicate 64 0) 0 0 (mk_UartDevice [] 0 0 0 [])) pages r 0.

Lemma free_list_at_least l pages :
  NoDup l → (∀ i, i ∈ l → page_index i ∧ page_used pages i = 0) → (length l ≤ length (free_list pages))%nat.
Proof.
  intros Hnd H. apply submseteq_length, NoDup_submseteq; [exact Hnd|]. intros i Hi. by apply elem_of_free_list, H.
Qed.

Lemma fresh_space p k pages r c :
  heap k !! p = Some c → mm c = zero_mm → space p (machine_with k pages r) no_tables zero_mm.
Proof.
  intros Hc Hm. split; [|apply no_tables_PT|done]. unfold mm_of, machine_with. cbn [kernel]. by rewrite Hc, <- Hm.
Qed.

Lemma map_page_spec_witness :
  ∃ s' T' m', map_page init_process 0x7005000 (page_addr 9) (machine_with (boot_kernel MLQ (λ _, 0)) ∅ ∅) = Done (tt, s') ∧
    space init_process s' T' m' ∧ user_map (ram s') m' 0x7005123 = Some (page_addr 9 + 0x123) ∧
    user_map (ram s') m' 0x7006123 = None.
Proof.
  destruct (map_page_spec init_process (machine_with (boot_kernel MLQ (λ _, 0)) ∅ ∅) no_tables zero_mm 0x7005000 9)
    as (s' & T' & m' & E & Hsp & Hmap & _).
  - apply (fresh_space init_process (boot_kernel MLQ (λ _, 0)) ∅ ∅ INIT_PROCESS); reflexivity.
  - split; [split; [|split]; vm_compute; done|].
    pose proof (free_list_at_least [0; 1; 2; 3] ∅) as H. simpl length in H.
    assert (missing no_tables 0x7005000 = 4) as -> by reflexivity. cbn [memory_pages machine_with].
    apply (Nat2Z.inj_le 4), H; [by repeat constructor; set_solver|].
    intros i Hi. rewrite !elem_of_cons, elem_of_nil in Hi. unfold page_index. rewrite N_PAGES_value, page_used_empty. lia.
  - vm_compute. done.
  - unfold page_index. rewrite N_PAGES_value. lia.
  - exists s', T', m'. split; [exact E|]. split; [exact Hsp|]. rewrite !Hmap. split; reflexivity.
Defined.
