(* ===== verification/MmCopy.v ===== *)
(** * Memory management: copying an address space for fork

    allocate_user_page and copy_virtual_memory of libs/mm.c. *)
From stdpp Require Import base countable fin_sets gmap list.
From Stdlib Require Import ZArith Lia.
From S2P Require Import Prelude Mem Kernel Machine Mm MmSpec MmMap MmProps.

#[local] Open Scope Z_scope.
#[local] Opaque memzero memcpy store_le load_le free_list N_PAGES page_used byte_at put_byte
  new_table clean_page put_entry take_page map_page.

(** ** Tables still needed *)
Definition paths_of (vas : list Z) : gset (list Z) := list_to_set (concat (table_paths <$> vas)).
Definition needed (T : Tables) (vas : list Z) : Z := Z.of_nat (size (paths_of vas ∖ dom (tables T))).

Lemma size_one_more (l : list Z) (X : gset (list Z)) : l ∉ X → size ({[l]} ∪ X) = S (size X).
Proof. intros H. rewrite size_union by set_solver. by rewrite size_singleton. Qed.

Lemma NoDup_table_paths va : NoDup (table_paths va).
Proof. unfold table_paths, path3. repeat constructor; set_solver. Qed.

Lemma missing_size T va : missing T va = Z.of_nat (size ((list_to_set (table_paths va) : gset (list Z)) ∖ dom (tables T))).
Proof.
  unfold missing. pose proof (NoDup_table_paths va) as Hnd. induction Hnd as [|l ls Hl Hnd IH].
  { cbn [foldr list_to_set]. replace (∅ ∖ dom (tables T)) with (∅ : gset (list Z)) by set_solver. done. }
  cbn [foldr list_to_set]. rewrite IH. unfold absent. destruct (tables T !! l) as [j|] eqn:E.
  - assert (l ∈ dom (tables T)) by (by apply elem_of_dom_2 in E). rewrite Z.add_0_l. do 2 f_equal. set_solver.
  - assert (l ∉ dom (tables T)) by (by apply not_elem_of_dom).
    replace (({[l]} ∪ list_to_set ls) ∖ dom (tables T)) with ({[l]} ∪ ((list_to_set ls : gset (list Z)) ∖ dom (tables T)))
      by set_solver.
    rewrite size_one_more by set_solver. lia.
Qed.

Lemma needed_step T T' va vas :
  tables T ⊆ tables T' → Forall (λ l, is_Some (tables T' !! l)) (table_paths va) →
  missing T va + needed T' vas ≤ needed T (va :: vas).
Proof.
  intros Hsub Hin. rewrite missing_size. unfold needed, paths_of. cbn [fmap list_fmap concat].
  rewrite list_to_set_app_L.
  pose proof (subseteq_dom _ _ Hsub) as Hd. rewrite Forall_forall in Hin.
  assert ((list_to_set (table_paths va) : gset (list Z)) ⊆ dom (tables T')) as Hd'.
  { intros l Hl%elem_of_list_to_set. by apply elem_of_dom, Hin. }
  rewrite <- Nat2Z.inj_add, <- size_union by set_solver. apply inj_le, subseteq_size. set_solver.
Qed.

(** ** Changing pages that are not tables *)
Lemma PT_same s s' T :
  PT s T → (∀ l j, tables T !! l = Some j → same_page s s' j) →
  (∀ j, page_used (memory_pages s) j ≠ 0 → page_used (memory_pages s') j ≠ 0) → PT s' T.
Proof.
  intros [H1 H2 H3 H4 H5 H6 H7] Hs Hu. split; try done.
  - intros l j Hl. destruct (H1 l j Hl) as (? & ? & ?). auto.
  - intros l j i Hl Hn Hi. rewrite (entry_same s) by eauto. by apply H4.
  - intros l j i Hl Hn Hi. rewrite (entry_same s) by eauto. by apply H5.
Qed.

Lemma space_same p s s' T m :
  space p s T m → kernel s' = kernel s → (∀ l j, tables T !! l = Some j → same_page s s' j) →
  (∀ j, page_used (memory_pages s) j ≠ 0 → page_used (memory_pages s') j ≠ 0) → space p s' T m.
Proof.
  intros [H1 H2 H3] Hk Hs Hu. split; [|by apply (PT_same s)|done]. unfold mm_of. by rewrite Hk.
Qed.

(** ** One page of the copy *)

(** The page [u] of the parent has been copied into the space [T'], in a page
    that was free in [s]. *)
Definition copy_of (s : Machine) (u : user_page) (s' : Machine) (T' : Tables) : Prop :=
  ∃ f, leaves T' !! path4 (virtual_address u) = Some f ∧ page_used (memory_pages s) f = 0 ∧
    page_used (memory_pages s') f ≠ 0 ∧ (∀ l, tables T' !! l ≠ Some f) ∧
    ∀ off, 0 ≤ off < PAGE_SIZE →
      byte_at (ram s') (kva f + off) = byte_at (ram s) (physical_address u + VA_START + off).

(** What copying the pages [us] into the space [T] achieves. *)
Record copied (p : ptr) (s : Machine) (T : Tables) (us : list user_page) (s' : Machine) (T' : Tables) : Prop := mk_copied {
  cp_tables : tables T ⊆ tables T';
  cp_new : ∀ l i, tables T' !! l = Some i → tables T !! l = Some i ∨ page_used (memory_pages s) i = 0;
  cp_leaves : ∀ l, l ∉ ((λ u, path4 (virtual_address u)) <$> us) → leaves T' !! l = leaves T !! l;
  cp_used : ∀ i, page_used (memory_pages s) i ≠ 0 → page_used (memory_pages s') i ≠ 0;
  cp_pages : ∀ i, page_used (memory_pages s) i ≠ 0 → (∀ l, tables T !! l ≠ Some i) → same_page s s' i;
  cp_copy : ∀ u, u ∈ us → copy_of s u s' T';
  cp_kernel : ∃ m', kernel s' = set_mm p m' (kernel s)
}.

(** A page the parent can be copied from: in use, and not a table of the child. *)
Definition source_page (s : Machine) (T : Tables) (u : user_page) : Prop :=
  ∃ g, physical_address u = page_addr g ∧ page_index g ∧ page_used (memory_pages s) g ≠ 0 ∧
    ∀ l, tables T !! l ≠ Some g.

Lemma source_page_copied p s T us s' T' u :
  copied p s T us s' T' → source_page s T u → source_page s' T' u.
Proof.
  intros C (g & E & Hg & Hu & Ht). exists g. split; [done|]. split; [done|]. split; [by apply (cp_used _ _ _ _ _ _ C)|].
  intros l Hl. destruct (cp_new _ _ _ _ _ _ C l g Hl) as [H|H]; [by apply (Ht l)|done].
Qed.

Lemma copied_trans p s1 T1 us1 s2 T2 us2 s3 T3 :
  copied p s1 T1 us1 s2 T2 → copied p s2 T2 us2 s3 T3 →
  (∀ u, u ∈ us2 → source_page s1 T1 u) →
  (∀ u, u ∈ us1 → path4 (virtual_address u) ∉ ((λ u, path4 (virtual_address u)) <$> us2)) →
  copied p s1 T1 (us1 ++ us2) s3 T3.
Proof.
  intros A B Hsrc Hdis. split.
  - etrans; [apply A|apply B].
  - intros l i Hl. destruct (cp_new _ _ _ _ _ _ B l i Hl) as [H|H].
    + by apply (cp_new _ _ _ _ _ _ A).
    + right. destruct (decide (page_used (memory_pages s1) i = 0)) as [|Hn]; [done|].
      by apply (cp_used _ _ _ _ _ _ A) in Hn.
  - intros l. rewrite fmap_app, not_elem_of_app. intros [H1 H2].
    rewrite (cp_leaves _ _ _ _ _ _ B) by done. by apply (cp_leaves _ _ _ _ _ _ A).
  - intros i Hi. by apply (cp_used _ _ _ _ _ _ B), (cp_used _ _ _ _ _ _ A).
  - intros i Hi Ht. eapply same_page_trans; [by apply (cp_pages _ _ _ _ _ _ A)|].
    apply (cp_pages _ _ _ _ _ _ B); [by apply (cp_used _ _ _ _ _ _ A)|].
    intros l Hl. destruct (cp_new _ _ _ _ _ _ A l i Hl) as [H|H]; [by apply (Ht l)|done].
  - intros u [Hu|Hu]%elem_of_app.
    + destruct (cp_copy _ _ _ _ _ _ A u Hu) as (f & F1 & F2 & F3 & F4 & F5). exists f.
      split; [by rewrite (cp_leaves _ _ _ _ _ _ B) by auto|]. split; [done|]. split; [by apply (cp_used _ _ _ _ _ _ B)|].
      split.
      * intros l Hl. destruct (cp_new _ _ _ _ _ _ B l f Hl) as [H|H]; [by apply (F4 l)|done].
      * intros off Ho. rewrite <- F5 by done. by apply (cp_pages _ _ _ _ _ _ B).
    + destruct (cp_copy _ _ _ _ _ _ B u Hu) as (f & F1 & F2 & F3 & F4 & F5). exists f. split; [done|].
      split; [|split; [done|split; [done|]]].
      * destruct (decide (page_used (memory_pages s1) f = 0)) as [|Hn]; [done|]. by apply (cp_used _ _ _ _ _ _ A) in Hn.
      * destruct (Hsrc u Hu) as (g & Eg & Hg & Hgu & Hgt). intros off Ho. rewrite F5, Eg by done.
        by apply (cp_pages _ _ _ _ _ _ A).
  - destruct (cp_kernel _ _ _ _ _ _ A) as [m1 H1]. destruct (cp_kernel _ _ _ _ _ _ B) as [m2 H2].
    exists m2. by rewrite H2, H1, set_mm_set.
Qed.

Lemma copied_nil p s T : copied p s T [] s T.
Proof.
  split; try done.
  - by left.
  - set_solver.
  - destruct (set_mm_id p (kernel s)) as [m Hm]. by exists m.
Qed.

(** Page [f] with the bytes of page [g]. *)
Definition fill_page (f g : Z) (s : Machine) : Machine :=
  with_ram (memcpy (kva f) (kva g) PAGE_SIZE (memzero (kva f) PAGE_SIZE (ram s))) s.

Lemma fill_page_frame f g s :
  kernel (fill_page f g s) = kernel s ∧ memory_pages (fill_page f g s) = memory_pages s.
Proof. done. Qed.

Lemma fill_page_byte f g s x :
  f ≠ g → byte_at (ram (fill_page f g s)) x =
    if decide (kva f ≤ x < kva f + PAGE_SIZE) then byte_at (ram s) (kva g + (x - kva f)) else byte_at (ram s) x.
Proof.
  intros Hne. unfold fill_page. cbn [ram with_ram]. pose proof (page_apart f g Hne) as Ha.
  change PAGE_SIZE with 4096 in *. rewrite memcpy_spec by lia. change (Z.max 1 4096) with 4096.
  case_decide as E; rewrite memzero_spec by lia; change (zeroed 4096) with 4096;
    rewrite decide_False by lia; reflexivity.
Qed.

Lemma fill_page_same f g s j : f ≠ g → j ≠ f → same_page s (fill_page f g s) j.
Proof.
  intros Hne Hj off Ho. rewrite fill_page_byte by done. pose proof (page_apart j f Hj). rewrite decide_False by lia. done.
Qed.

Lemma fill_page_copy f g s off :
  f ≠ g → 0 ≤ off < PAGE_SIZE →
  byte_at (ram (fill_page f g s)) (kva f + off) = byte_at (ram s) (kva g + off).
Proof. intros Hne Ho. rewrite fill_page_byte, decide_True by (done || lia). f_equal. lia. Qed.

#[local] Opaque fill_page.

Lemma take_page_space p s T m f fl :
  space p s T m → free_list (memory_pages s) = f :: fl →
  space p (take_page f s) T m ∧ free_list (memory_pages (take_page f s)) = fl.
Proof.
  intros Hsp Hfl. destruct (free_list_head _ _ _ Hfl) as [Hf Hu]. destruct (take_page_frame f s) as (E1 & _ & _ & E4).
  split; [|rewrite E4; by apply free_list_take].
  apply (space_same p s); [exact Hsp|exact E1| |].
  - intros l j Hl. apply take_page_same. intros <-. by destruct (pt_page _ _ (sp_PT _ _ _ _ Hsp) _ _ Hl) as (_ & Hn & _).
  - intros j Hj. rewrite E4, page_used_insert. by case_decide.
Qed.

(** allocate_user_page maps the first free page. *)
Lemma allocate_user_page_run p s T m va f fl :
  space p s T m → free_list (memory_pages s) = f :: fl → mm_room (missing T va) m →
  missing T va ≤ Z.of_nat (length fl) → user_room m →
  ∃ s' T' m', allocate_user_page p va s = Done (kva f, s') ∧
    grows (missing T va) p (take_page f s) T s' T' ∧ space p s' T' m' ∧
    leaves T' = <[path4 va := f]> (leaves T) ∧ Forall (λ l, is_Some (tables T' !! l)) (table_paths va) ∧
    n_user_pages m' = n_user_pages m + 1 ∧ length (user_pages m') = length (user_pages m) ∧
    (∀ n, mm_room n m → missing T va ≤ n → mm_room (n - missing T va) m').
Proof.
  intros Hsp Hfl Hroom Hfree Hu. destruct (free_list_head _ _ _ Hfl) as [Hf _].
  destruct (take_page_space p s T m f fl Hsp Hfl) as [Hsp0 Hfl0].
  destruct (map_page_run p (take_page f s) T m va f Hsp0) as (s' & T' & m' & E & G & Hsp' & Hl & Ht & Hn & Hus & Hr);
    [split; [exact Hroom|by rewrite Hfl0]|exact Hu|exact Hf|].
  exists s', T', m'. split; [|split; [exact G|split; [exact Hsp'|split; [exact Hl|split; [exact Ht|split; [exact Hn|split; [|exact Hr]]]]]]].
  - unfold allocate_user_page.
    rewrite (bind_done _ _ _ (page_addr f) (take_page f s)) by (by rewrite get_free_page_run, Hfl).
    rewrite (proj2 (Z.eqb_neq _ _) (page_addr_nonzero _ Hf)). erewrite bind_done by exact E. by rewrite kva_u64.
  - rewrite Hus. apply length_insert.
Qed.

(** The copy of one page. *)
Lemma copy_one p s T m u f fl :
  space p s T m → free_list (memory_pages s) = f :: fl → mm_room (missing T (virtual_address u)) m →
  missing T (virtual_address u) ≤ Z.of_nat (length fl) → user_room m → source_page s T u →
  ∃ g s1 s2 T' m', physical_address u = page_addr g ∧ page_index g ∧
    allocate_user_page p (virtual_address u) s = Done (kva f, s1) ∧ s2 = fill_page f g s1 ∧
    (∃ m1, kernel s1 = set_mm p m1 (kernel s)) ∧
    copied p s T [u] s2 T' ∧ space p s2 T' m' ∧ Forall (λ l, is_Some (tables T' !! l)) (table_paths (virtual_address u)) ∧
    n_user_pages m' = n_user_pages m + 1 ∧ length (user_pages m') = length (user_pages m) ∧
    (∀ n, mm_room n m → missing T (virtual_address u) ≤ n → mm_room (n - missing T (virtual_address u)) m') ∧
    Z.of_nat (length fl) ≤ missing T (virtual_address u) + Z.of_nat (length (free_list (memory_pages s2))).
Proof.
  intros Hsp Hfl Hroom Hfree Hu (g & Eg & Hg & Hgu & Hgt). destruct (free_list_head _ _ _ Hfl) as [Hf Hfu].
  destruct (allocate_user_page_run p s T m _ f fl Hsp Hfl Hroom Hfree Hu)
    as (s1 & T' & m' & E & G & Hsp1 & Hl & Ht & Hn & Hus & Hr).
  assert (f ≠ g) as Hne by (intros ->; done).
  destruct (take_page_frame f s) as (K1 & _ & _ & K4). destruct (fill_page_frame f g s1) as (L1 & L4).
  assert (∀ i, page_used (memory_pages s) i ≠ 0 → page_used (memory_pages (take_page f s)) i ≠ 0) as Hup.
  { intros i Hi. rewrite K4, page_used_insert. by case_decide. }
  assert (page_used (memory_pages (take_page f s)) f ≠ 0) as Hff by (by rewrite K4, page_used_insert, decide_True).
  assert (∀ l i, tables T' !! l = Some i → tables T !! l = Some i ∨ page_used (memory_pages s) i = 0) as Hnew.
  { intros l i Hi. destruct (g_new _ _ _ _ _ _ G l i Hi) as [H|H]; [by left|]. right.
    destruct (decide (page_used (memory_pages s) i = 0)) as [|Hd]; [done|]. by apply Hup in Hd. }
  assert (∀ l, tables T' !! l ≠ Some f) as Hfn.
  { intros l Hi. destruct (g_new _ _ _ _ _ _ G l f Hi) as [H|H]; [|done].
    by destruct (pt_page _ _ (sp_PT _ _ _ _ Hsp) _ _ H) as (_ & H' & _). }
  exists g, s1, (fill_page f g s1), T', m'.
  split; [exact Eg|]. split; [exact Hg|]. split; [exact E|]. split; [reflexivity|].
  split; [destruct (g_kernel _ _ _ _ _ _ G) as [m1 Hk]; exists m1; by rewrite Hk, K1|].
  split; [|split; [|split; [exact Ht|split; [exact Hn|split; [exact Hus|split; [exact Hr|]]]]]].
  - split.
    + apply G.
    + exact Hnew.
    + intros l Hnl. rewrite Hl. apply lookup_insert_ne. intros <-. apply Hnl. by left.
    + intros i Hi. rewrite L4. rewrite (g_used _ _ _ _ _ _ G) by (by apply Hup). by apply Hup.
    + intros i Hi Hti. eapply same_page_trans; [apply (take_page_same f)|eapply same_page_trans].
      * congruence.
      * apply (g_pages _ _ _ _ _ _ G); [by apply Hup|exact Hti].
      * apply fill_page_same; congruence.
    + intros u' ->%list_elem_of_singleton. exists f. split; [rewrite Hl; apply lookup_insert_eq|].
      split; [exact Hfu|]. split; [rewrite L4, (g_used _ _ _ _ _ _ G) by exact Hff; exact Hff|]. split; [exact Hfn|].
      intros off Ho. rewrite fill_page_copy by done. rewrite Eg. fold (kva g).
      rewrite (g_pages _ _ _ _ _ _ G g) by (by auto). by apply take_page_same.
    + destruct (g_kernel _ _ _ _ _ _ G) as [m1 Hk]. exists m1. by rewrite L1, Hk, K1.
  - apply (space_same p s1); [exact Hsp1|exact L1| |by rewrite L4].
    intros l j Hj. apply fill_page_same; [done|]. intros ->. by apply (Hfn l).
  - rewrite L4. pose proof (grows_length _ _ _ _ _ _ G) as H. rewrite K4, (free_list_take _ _ _ Hfl) in H. exact H.
Qed.

(** ** The whole copy *)
Lemma mm_of_other p c m s s' : p ≠ c → kernel s' = set_mm c m (kernel s) → mm_of p s' = mm_of p s.
Proof. intros Hne Hk. unfold mm_of. rewrite Hk. unfold set_mm. cbn [heap with_heap]. by rewrite lookup_alter_ne. Qed.

Definition page_path (u : user_page) : list Z := path4 (virtual_address u).

(** What the copy of the pages [us] from state [s] and space [T] needs. *)
Record copy_ready (s : Machine) (T : Tables) (m : mm_struct) (us : list user_page) : Prop := mk_copy_ready {
  cr_users : 0 ≤ n_user_pages m ∧ n_user_pages m + Z.of_nat (length us) ≤ MAX_PROCESS_PAGES ∧
    length (user_pages m) = Z.to_nat MAX_PROCESS_PAGES;
  cr_room : mm_room (needed T (virtual_address <$> us)) m;
  cr_free : needed T (virtual_address <$> us) + Z.of_nat (length us) ≤ Z.of_nat (length (free_list (memory_pages s)));
  cr_source : ∀ u, u ∈ us → source_page s T u;
  cr_distinct : NoDup (page_path <$> us)
}.

Lemma needed_nonneg T vas : 0 ≤ needed T vas.
Proof. unfold needed. lia. Qed.

Lemma copy_step p s T m u us :
  space p s T m → copy_ready s T m (u :: us) →
  ∃ f g s1 s2 T' m', physical_address u = page_addr g ∧ page_index g ∧ page_index f ∧
    allocate_user_page p (virtual_address u) s = Done (kva f, s1) ∧ s2 = fill_page f g s1 ∧
    (∃ m1, kernel s1 = set_mm p m1 (kernel s)) ∧
    copied p s T [u] s2 T' ∧ space p s2 T' m' ∧ n_user_pages m' = n_user_pages m + 1 ∧ copy_ready s2 T' m' us.
Proof.
  intros Hsp [(Hu1 & Hu2 & Hu3) Hroom Hfree Hsrc Hnd]. cbn [length fmap list_fmap] in *. rewrite Nat2Z.inj_succ in *.
  pose proof (needed_nonneg T (virtual_address u :: (virtual_address <$> us))) as Hpos.
  destruct (free_list (memory_pages s)) as [|f fl] eqn:Hfl; [simpl in Hfree; lia|]. cbn [length] in Hfree.
  assert (missing T (virtual_address u) ≤ needed T (virtual_address u :: (virtual_address <$> us))) as Hmiss.
  { rewrite missing_size. unfold needed, paths_of. cbn [fmap list_fmap concat]. rewrite list_to_set_app_L.
    apply inj_le, subseteq_size. set_solver. }
  unfold MAX_PROCESS_PAGES in *.
  destruct (copy_one p s T m u f fl Hsp Hfl) as (g & s1 & s2 & T' & m' & Eg & Hg & E & Es & Hk & Hc & Hsp' & Ht & Hn & Hl & Hr & Hlen);
    [by eapply mm_room_weaken|lia|split; unfold MAX_PROCESS_PAGES; lia|apply Hsrc; by left|].
  pose proof (needed_step T T' (virtual_address u) (virtual_address <$> us) (cp_tables _ _ _ _ _ _ Hc) Ht) as Hneed.
  exists f, g, s1, s2, T', m'. split; [exact Eg|]. split; [exact Hg|]. split; [exact (proj1 (free_list_head _ _ _ Hfl))|].
  split; [exact E|]. split; [exact Es|]. split; [exact Hk|].
  split; [exact Hc|]. split; [exact Hsp'|]. split; [exact Hn|].
  inversion Hnd as [|? ? Hnu Hnd']. split.
  - rewrite Hn, Hl. unfold MAX_PROCESS_PAGES. lia.
  - eapply mm_room_weaken; [|exact (Hr _ Hroom Hmiss)]. lia.
  - lia.
  - intros u' Hu'. apply (source_page_copied _ _ _ _ _ _ _ Hc), Hsrc. by right.
  - exact Hnd'.
Qed.

Lemma copy_pages_run p c mp :
  p ≠ c → length (user_pages mp) = Z.to_nat MAX_PROCESS_PAGES → n_user_pages mp ≤ MAX_PROCESS_PAGES →
  ∀ us fuel i s T m,
    mm_of p s = Some mp → 0 ≤ i → n_user_pages mp = i + Z.of_nat (length us) →
    us = drop (Z.to_nat i) (take (Z.to_nat (n_user_pages mp)) (user_pages mp)) →
    (length us < fuel)%nat → space c s T m → copy_ready s T m us →
    ∃ s' T' m', copy_pages fuel p c i s = Done (0, s') ∧ copied c s T us s' T' ∧ space c s' T' m' ∧
      n_user_pages m' = n_user_pages m + Z.of_nat (length us).
Proof.
  intros Hne Hlen Hmax. induction us as [|u us IH]; intros fuel i s T m Hmp Hi Hn Hus Hfuel Hsp Hr;
    (destruct fuel as [|fuel]; [simpl in Hfuel; lia|]); cbn [copy_pages];
    erewrite bind_done by (apply load_mm_run; exact Hmp); rewrite Hn.
  - exists s, T, m. simpl. rewrite (proj2 (Z.ltb_ge _ _)) by lia. split; [reflexivity|].
    split; [apply copied_nil|]. split; [exact Hsp|lia].
  - cbn [length] in *. rewrite (proj2 (Z.ltb_lt _ _)) by lia.
    assert (user_pages mp !! Z.to_nat i = Some u) as Hu.
    { assert (drop (Z.to_nat i) (take (Z.to_nat (n_user_pages mp)) (user_pages mp)) !! 0%nat = Some u) as H by (by rewrite <- Hus).
      rewrite lookup_drop, Nat.add_0_r in H. by apply lookup_take_Some in H as [H _]. }
    assert (array_get (user_pages mp) i = Some u) as Hget by (rewrite <- (Z2Nat.id i) by lia; by rewrite array_get_nat).
    rewrite bind_require_some with (a := u) by exact Hget.
    destruct (copy_step c s T m u us Hsp Hr) as (f & g & s1 & s2 & T1 & m1 & Eg & Hg & Hf & E & Es & [mk Hk] & Hc & Hsp1 & Hn1 & Hr1).
    erewrite bind_done by exact E. rewrite (proj2 (Z.eqb_neq _ _)) by (unfold kva, page_addr; mm_consts; lia).
    unfold set_ram. rewrite bind_modify.
    assert (mm_of p (with_ram (memzero (kva f) PAGE_SIZE (ram s1)) s1) = Some mp) as Hmp1.
    { rewrite <- Hmp. apply (mm_of_other p c mk); [done|exact Hk]. }
    erewrite bind_done by (apply load_mm_run; exact Hmp1).
    rewrite bind_require_some with (a := u) by exact Hget. rewrite bind_modify.
    rewrite Eg, kva_u64 by exact Hg. cbn [ram with_ram]. 
    change (with_ram (memcpy (kva f) (kva g) PAGE_SIZE (memzero (kva f) PAGE_SIZE (ram s1)))
      (with_ram (memzero (kva f) PAGE_SIZE (ram s1)) s1)) with (fill_page f g s1). rewrite <- Es.
    destruct (IH fuel (i + 1) s2 T1 m1) as (s' & T' & m' & E' & Hc' & Hsp' & Hn').
    + rewrite <- Hmp. apply (mm_of_other p c mk); [done|]. rewrite Es, (proj1 (fill_page_frame f g s1)). exact Hk.
    + lia.
    + lia.
    + replace (Z.to_nat (i + 1)) with (Z.to_nat i + 1)%nat by lia.
      by rewrite <- drop_drop, <- Hus.
    + lia.
    + exact Hsp1.
    + exact Hr1.
    + exists s', T', m'. split; [exact E'|]. split; [|split; [exact Hsp'|lia]].
      apply (copied_trans c s T [u] s2 T1 us s' T' Hc Hc').
      * intros u' Hu'. apply (cr_source _ _ _ _ Hr). by right.
      * intros u' ->%list_elem_of_singleton. pose proof (cr_distinct _ _ _ _ Hr) as Hnd. by inversion Hnd.
Qed.

Lemma page_offset va : 0 ≤ Z.land va (PAGE_SIZE - 1) < PAGE_SIZE.
Proof.
  unfold PAGE_SIZE. change (4096 - 1) with (Z.ones 12). rewrite Z.land_ones by lia. by apply Z.mod_pos_bound.
Qed.

Lemma copy_virtual_memory_run c s mp T m :
  let us := take (Z.to_nat (n_user_pages mp)) (user_pages mp) in
  cur (kernel s) ≠ c → mm_of (cur (kernel s)) s = Some mp → length (user_pages mp) = Z.to_nat MAX_PROCESS_PAGES →
  0 ≤ n_user_pages mp ≤ MAX_PROCESS_PAGES → space c s T m → copy_ready s T m us →
  ∃ s' T' m', copy_virtual_memory c s = Done (0, s') ∧ copied c s T us s' T' ∧ space c s' T' m' ∧
    kernel s' = set_mm c m' (kernel s) ∧ n_user_pages m' = n_user_pages m + n_user_pages mp.
Proof.
  intros us Hne Hmp Hlen Hn Hsp Hr.
  assert (Z.of_nat (length us) = n_user_pages mp) as Hus.
  { unfold us, MAX_PROCESS_PAGES in *. rewrite length_take. lia. }
  destruct (copy_pages_run (cur (kernel s)) c mp Hne Hlen (proj2 Hn) us (S (Z.to_nat MAX_PROCESS_PAGES)) 0 s T m Hmp)
    as (s' & T' & m' & E & Hc & Hsp' & Hn'); [lia|lia|done|unfold MAX_PROCESS_PAGES in *; lia|exact Hsp|exact Hr|].
  exists s', T', m'. split; [|split; [exact Hc|split; [exact Hsp'|split; [|lia]]]].
  - unfold copy_virtual_memory. unfold on_kernel, get_current, gets. rewrite <- E. rewrite <- (with_kernel_same s) at 3.
    reflexivity.
  - destruct (cp_kernel _ _ _ _ _ _ Hc) as [m1 Hk].
    exact (set_mm_own c s m s' m1 m' (sp_mm _ _ _ _ Hsp) Hk (sp_mm _ _ _ _ Hsp')).
Qed.

(** The child's translation of an address of a copied page: a page that was free
    before, with the bytes the parent's page had. *)
Definition copied_address (s s' : Machine) (m' : mm_struct) (u : user_page) (va : Z) : Prop :=
  ∃ f, page_used (memory_pages s) f = 0 ∧
    user_map (ram s') m' va = Some (page_addr f + Z.land va (PAGE_SIZE - 1)) ∧
    byte_at (ram s') (page_addr f + Z.land va (PAGE_SIZE - 1) + VA_START) =
    byte_at (ram s) (physical_address u + Z.land va (PAGE_SIZE - 1) + VA_START).

Lemma copied_map c s T us s' T' m' u va :
  copied c s T us s' T' → space c s' T' m' → u ∈ us → vpn va = vpn (virtual_address u) →
  copied_address s s' m' u va.
Proof.
  intros Hc Hsp' Hu Hva. destruct (cp_copy _ _ _ _ _ _ Hc u Hu) as (f & F1 & F2 & _ & _ & F5). exists f.
  split; [exact F2|]. split.
  - rewrite (user_map_space _ _ _ _ _ Hsp'), (proj2 (path4_vpn _ _) Hva), F1. reflexivity.
  - specialize (F5 _ (page_offset va)). unfold kva in F5.
    replace (page_addr f + Z.land va (PAGE_SIZE - 1) + VA_START) with (page_addr f + VA_START + Z.land va (PAGE_SIZE - 1)) by lia.
    rewrite F5. f_equal. lia.
Qed.

(** C22: copy_virtual_memory (fork's copy of the address space). When the child
    has room for the parent's pages and the tables they need and the free pages
    suffice, the call returns 0 and then, for every page of the parent, the
    processor's walk of the child's tables leads to a page that was free before
    and holds the same bytes; every other virtual address of the child is mapped
    as before; and no page that was in use, the parent's memory and tables among
    them, has changed. *)
Theorem copy_virtual_memory_spec c s mp T m :
  let us := take (Z.to_nat (n_user_pages mp)) (user_pages mp) in
  cur (kernel s) ≠ c → mm_of (cur (kernel s)) s = Some mp → length (user_pages mp) = Z.to_nat MAX_PROCESS_PAGES →
  0 ≤ n_user_pages mp ≤ MAX_PROCESS_PAGES → space c s T m → copy_ready s T m us →
  ∃ s' m', copy_virtual_memory c s = Done (0, s') ∧ kernel s' = set_mm c m' (kernel s) ∧
    n_user_pages m' = n_user_pages m + n_user_pages mp ∧
    (∀ u va, u ∈ us → vpn va = vpn (virtual_address u) → copied_address s s' m' u va) ∧
    (∀ va, (∀ u, u ∈ us → vpn va ≠ vpn (virtual_address u)) → user_map (ram s') m' va = user_map (ram s) m va) ∧
    (∀ j, page_used (memory_pages s) j ≠ 0 → (∀ l, tables T !! l ≠ Some j) → same_page s s' j).
Proof.
  intros us Hne Hmp Hlen Hn Hsp Hr.
  destruct (copy_virtual_memory_run c s mp T m Hne Hmp Hlen Hn Hsp Hr) as (s' & T' & m' & E & Hc & Hsp' & Hk & Hn').
  exists s', m'. split; [exact E|]. split; [exact Hk|]. split; [exact Hn'|]. split; [|split].
  - intros u va. exact (copied_map c s T us s' T' m' u va Hc Hsp').
  - intros va Hva. rewrite (user_map_space _ _ _ _ _ Hsp'), (user_map_space _ _ _ _ _ Hsp).
    rewrite (cp_leaves _ _ _ _ _ _ Hc); [reflexivity|].
    intros (u & Hp & Hu)%list_elem_of_fmap. apply (Hva u Hu). by apply path4_vpn.
  - exact (cp_pages _ _ _ _ _ _ Hc).
Qed.

(** A parent with two pages, whose bytes are zero but one. *)
Definition two_pages : mm_struct :=
  mk_mm_struct 0 2 (mk_user_page (page_addr 0) 0 :: mk_user_page (page_addr 1) 4096 ::
    replicate 14 (mk_user_page 0 0)) 0 (replicate 16 0).
Definition fork_kernel : Kernel :=
  with_heap {[ init_process := with_mm two_pages INIT_PROCESS; 2 := zero_PCB ]} (boot_kernel MLFQ (λ _, 0)).
Definition fork_machine : Machine := machine_with fork_kernel (<[0 := 1]> (<[1 := 1]> ∅)) {[ kva 1 + 5 := 77 ]}.

Lemma copy_virtual_memory_spec_witness :
  ∃ s' m' f, copy_virtual_memory 2 fork_machine = Done (0, s') ∧ n_user_pages m' = 2 ∧
    user_map (ram s') m' 4101 = Some (page_addr f + 5) ∧ byte_at (ram s') (page_addr f + 5 + VA_START) = 77 ∧
    user_map (ram s') m' 8192 = None.
Proof.
  destruct (copy_virtual_memory_spec 2 fork_machine two_pages no_tables zero_mm) as (s' & m' & E & _ & Hn & Hmap & Hother & _).
  - vm_compute. discriminate.
  - reflexivity.
  - reflexivity.
  - vm_compute. split; discriminate.
  - apply (fresh_space 2 fork_kernel _ _ zero_PCB); reflexivity.
  - assert (needed no_tables (virtual_address <$> take 2 (user_pages two_pages)) = 4) as Hneed by reflexivity.
    split.
    + vm_compute. repeat split; discriminate.
    + cbn [n_user_pages two_pages]. change (Z.to_nat 2) with 2%nat. rewrite Hneed. vm_compute. repeat split; discriminate.
    + cbn [n_user_pages two_pages]. change (Z.to_nat 2) with 2%nat. rewrite Hneed. change (4 + Z.of_nat (length (take 2 (user_pages two_pages)))) with 6.
      apply (Nat2Z.inj_le 6), (free_list_at_least [2; 3; 4; 5; 6; 7]); [repeat constructor; set_solver|].
      intros i Hi. cbn [memory_pages fork_machine machine_with]. unfold page_index. rewrite N_PAGES_value.
      rewrite !elem_of_cons, elem_of_nil in Hi. rewrite !page_used_insert, page_used_empty, !decide_False by lia. lia.
    + intros u Hu. change (take (Z.to_nat (n_user_pages two_pages)) (user_pages two_pages)) with
        [mk_user_page (page_addr 0) 0; mk_user_page (page_addr 1) 4096] in Hu.
      apply elem_of_cons in Hu as [->| ->%list_elem_of_singleton]; [exists 0|exists 1];
        (split; [reflexivity|]; split; [unfold page_index; rewrite N_PAGES_value; lia|]; split; [|done];
         cbn [memory_pages fork_machine machine_with]; rewrite !page_used_insert; by vm_compute).
    + vm_compute. repeat constructor; set_solver.
  - destruct (Hmap (mk_user_page (page_addr 1) 4096) 4101) as (f & _ & F2 & F3); [right; left|reflexivity|].
    exists s', m', f. split; [exact E|]. split; [exact Hn|]. split; [exact F2|]. split; [|].
    + change (Z.land 4101 (PAGE_SIZE - 1)) with 5 in F3. rewrite F3. reflexivity.
    + rewrite Hother; [reflexivity|]. intros u Hu. change (take (Z.to_nat (n_user_pages two_pages)) (user_pages two_pages)) with
        [mk_user_page (page_addr 0) 0; mk_user_page (page_addr 1) 4096] in Hu.
      apply elem_of_cons in Hu as [->| ->%list_elem_of_singleton]; vm_compute; discriminate.
Defined.
