(* ===== verification/Fork.v ===== *)
(** * Process creation: libs/fork.c

    copy_process, move_to_user_mode, copy_code and task_pt_regs.  A PCB and the
    trap frame at the end of its page are created in a page the allocator has
    cleared: the PCB is an object of the heap at that page's address, the trap
    frame is bytes of [ram]. *)
From stdpp Require Import base gmap list.
From Stdlib Require Import ZArith Lia.
From S2P Require Import Prelude Mem Kernel Scheduler Machine Mm.

#[local] Open Scope Z_scope.

(** ** struct pt_regs: 31 registers, sp, pc and pstate *)
Definition THREAD_SIZE : Z := 4096.
Definition PT_REGS_SIZE : Z := 272.
Definition PT_REGS_SP : Z := 8 * 31.
Definition PT_REGS_PC : Z := 8 * 32.
Definition PT_REGS_PSTATE : Z := 8 * 33.
Definition PSR_MODE_EL0t : Z := 0.

Definition task_pt_regs (process : ptr) : Z := u64 (process + THREAD_SIZE - PT_REGS_SIZE).

(** The assignment of a [struct pt_regs], word by word. *)
Fixpoint copy_words (n : nat) (d s : Z) (m : mem) : mem :=
  match n with
  | O => m
  | S n => copy_words n (d + 8) (s + 8) (store64 d (load64 s m) m)
  end.
Definition copy_pt_regs (d s : Z) (m : mem) : mem := copy_words 34 d s m.

(** ** Fields of the saved context *)
Definition with_x19 (v : Z) (c : cpu_context) : cpu_context :=
  mk_cpu_context v (x20 c) (x21 c) (x22 c) (x23 c) (x24 c) (x25 c) (x26 c) (x27 c) (x28 c) (fp c) (sp c) (pc c).
Definition with_x20 (v : Z) (c : cpu_context) : cpu_context :=
  mk_cpu_context (x19 c) v (x21 c) (x22 c) (x23 c) (x24 c) (x25 c) (x26 c) (x27 c) (x28 c) (fp c) (sp c) (pc c).
Definition with_sp (v : Z) (c : cpu_context) : cpu_context :=
  mk_cpu_context (x19 c) (x20 c) (x21 c) (x22 c) (x23 c) (x24 c) (x25 c) (x26 c) (x27 c) (x28 c) (fp c) v (pc c).
Definition with_pc (v : Z) (c : cpu_context) : cpu_context :=
  mk_cpu_context (x19 c) (x20 c) (x21 c) (x22 c) (x23 c) (x24 c) (x25 c) (x26 c) (x27 c) (x28 c) (fp c) (sp c) v.

Definition update_context (p : ptr) (f : cpu_context → cpu_context) : M Kernel unit :=
  store p (λ c, with_cpu_ctx (f (cpu_ctx c)) c).

(** [(struct PCB * )page]: the cleared page at [p] becomes a PCB. *)
Definition as_PCB (p : ptr) : M Kernel unit := modify (λ k, with_heap (<[p := zero_PCB]> (heap k)) k).

(** [process->files[i] = v] *)
Definition set_file (p : ptr) (i : Z) (v : option ptr) : M Kernel unit :=
  c ← load p;
  l ← require OutOfBounds (array_set (files c) i v);
  store p (with_files l).

(** ** copy_process *)

(** The registers the child starts from, and the parent's memory. *)
Definition copy_state (clone_flags function argument : Z) (new_process : ptr) : M Machine unit :=
  let child_registers := task_pt_regs new_process in
  if negb (Z.land clone_flags PF_KTHREAD =? 0) then
    on_kernel (update_context new_process (with_x19 function));;
    on_kernel (update_context new_process (with_x20 argument))
  else
    current ← on_kernel get_current;
    set_ram (copy_pt_regs child_registers (task_pt_regs current));;
    set_ram (store64 child_registers 0);;
    copy_virtual_memory new_process;;
    mret tt.

(** The fields of the child's PCB. *)
Definition init_PCB (ret_from_fork clone_flags : Z) (new_process : ptr) : M Kernel Z :=
  n ← get_global n_processes;
  let process_id := n in
  current ← get_current;
  store new_process (with_flags clone_flags);;
  c ← load current; store new_process (with_priority (priority c));;
  store new_process (with_state PROCESS_READY);;
  store new_process (with_counter 10);;
  c ← load current; store new_process (with_est_burst (est_burst c));;
  store new_process (with_burst_ticks 0);;
  c ← load current; store new_process (with_queue_priority (queue_priority c));;
  c ← load current; store new_process (with_tickets (tickets c));;
  store new_process (with_preempt_disabled 1);;
  store new_process (with_pid process_id);;
  update_context new_process (with_pc ret_from_fork);;
  update_context new_process (with_sp (task_pt_regs new_process));;
  mret process_id.

(** [ret_from_fork] is the address of that routine of entry.S. *)
Definition copy_process (ret_from_fork clone_flags function argument : Z) : M Machine Z :=
  on_kernel preempt_disable;;
  new_process ← allocate_kernel_page;
  n ← on_kernel (get_global n_processes);
  if (new_process =? 0) || (N_PROCESSES <=? n) then mret (-1) else
  on_kernel (as_PCB new_process);;
  set_ram (memzero (task_pt_regs new_process) PT_REGS_SIZE);;
  on_kernel (update_context new_process (λ _, zero_cpu_context));;
  on_kernel (for_loop (Z.to_nat MAX_FILES_PER_PROCESS) 0 (λ i, set_file new_process i None));;
  copy_state clone_flags function argument new_process;;
  process_id ← on_kernel (init_PCB ret_from_fork clone_flags new_process);
  r ← on_kernel (add_process_to_scheduler new_process);
  if r <? 0 then mret (-1) else
  on_kernel preempt_enable;;
  mret process_id.

(** ** User mode *)

(** The pages of the code from index [i] on. *)
Fixpoint copy_code_loop (n : nat) (process : ptr) (buffer size i copied_bytes : Z) : M Machine unit :=
  match n with
  | O => mret tt
  | S n =>
    let virtual_address := i * PAGE_SIZE in
    kernel_virtual_address ← allocate_user_page process virtual_address;
    if copied_bytes <? size then
      let bytes_to_copy :=
        if PAGE_SIZE <? u64 (size - copied_bytes) then PAGE_SIZE else s32 (u64 (size - copied_bytes)) in
      set_ram (memcpy kernel_virtual_address (u64 (buffer + copied_bytes)) bytes_to_copy);;
      copy_code_loop n process buffer size (i + 1) (u64 (copied_bytes + bytes_to_copy))
    else copy_code_loop n process buffer size (i + 1) copied_bytes
  end.

Definition copy_code (process : ptr) (buffer size : Z) : M Machine unit :=
  copy_code_loop 16 process buffer size 0 0.

Definition move_to_user_mode (start size pc : Z) : M Machine Z :=
  current ← on_kernel get_current;
  let regs := task_pt_regs current in
  set_ram (memzero regs PT_REGS_SIZE);;
  set_ram (store64 (regs + PT_REGS_PSTATE) PSR_MODE_EL0t);;
  set_ram (store64 (regs + PT_REGS_PC) pc);;
  set_ram (store64 (regs + PT_REGS_SP) (16 * PAGE_SIZE));;
  current ← on_kernel get_current;
  copy_code current start size;;
  current ← on_kernel get_current;
  c ← on_kernel (load current);
  on_kernel (set_pgd (pgd (mm c)));;
  mret 0.
