(* ===== verification/ForkSpec.v ===== *)
(** * Process creation: what copy_process achieves

    The composition of the three components copy_process uses: the page
    allocator and the translation tables of libs/mm.c, and the scheduler, which
    it enters through add_process_to_scheduler. *)
From stdpp Require Import base countable fin_sets gmap list.
From Stdlib Require Import ZArith Lia.
From S2P Require Import Prelude Mem Kernel Queue Scheduler SchedulerSpec Dispatch Entries Boot Machine.
From S2P Require Import Mm MmSpec MmMap MmProps MmCopy Fork.

#[local] Open Scope Z_scope.
#[local] Opaque memzero memcpy store_le load_le free_list N_PAGES page_used byte_at put_byte
  new_table clean_page put_entry take_page map_page copy_words.

(** ** A PCB in the heap, being filled in *)
Definition put_pcb (p : ptr) (c : PCB) (k : Kernel) : Kernel := with_heap (<[p := c]> (heap k)) k.

Lemma put_pcb_put p c c' k : put_pcb p c' (put_pcb p c k) = put_pcb p c' k.
Proof. unfold put_pcb. destruct k. unfold with_heap. simpl. by rewrite insert_insert_eq. Qed.

Lemma store_put p f c k : store p f (put_pcb p c k) = Done (tt, put_pcb p (f c) k).
Proof.
  rewrite (store_some _ p c) by apply lookup_insert_eq. f_equal. f_equal. apply put_pcb_put.
Qed.

Lemma load_put p c k : load p (put_pcb p c k) = Done (c, put_pcb p c k).
Proof. apply load_some, lookup_insert_eq. Qed.

Lemma load_put_other p q c cq k :
  p ≠ q → heap k !! q = Some cq → load q (put_pcb p c k) = Done (cq, put_pcb p c k).
Proof. intros Hne Hq. apply load_some. unfold put_pcb. simpl. by rewrite lookup_insert_ne. Qed.

Lemma set_mm_put_pcb p m c k : set_mm p m (put_pcb p c k) = put_pcb p (with_mm m c) k.
Proof.
  unfold set_mm, put_pcb. destruct k as [h ? ? ?]. unfold with_heap. simpl. f_equal. apply map_eq. intros i.
  destruct (decide (p = i)) as [<-|Hne].
  - by rewrite lookup_alter_eq, !lookup_insert_eq.
  - by rewrite lookup_alter_ne, !lookup_insert_ne.
Qed.

Lemma clear_files_run p k n : ∀ i c,
  0 ≤ i → i + Z.of_nat n ≤ MAX_FILES_PER_PROCESS → files c = no_files →
  for_loop n i (λ i, set_file p i None) (put_pcb p c k) = Done (tt, put_pcb p c k).
Proof.
  induction n as [|n IH]; intros i c Hi Hn Hf; [done|]. cbn [for_loop].
  assert (array_set no_files i None = Some no_files) as Hset.
  { unfold MAX_FILES_PER_PROCESS in *. rewrite array_set_Some by (unfold no_files, MAX_FILES_PER_PROCESS; simpl; lia).
    f_equal. apply list_insert_id. unfold no_files, MAX_FILES_PER_PROCESS. apply lookup_replicate_2. lia. }
  assert (with_files no_files c = c) as Hc by (rewrite <- Hf; by destruct c).
  assert (set_file p i None (put_pcb p c k) = Done (tt, put_pcb p c k)) as E.
  { unfold set_file. erewrite bind_done by apply load_put.
    rewrite Hf. rewrite bind_require_some with (a := no_files) by exact Hset. by rewrite store_put, Hc. }
  erewrite bind_done by exact E. apply IH; (lia || done).
Qed.

(** ** The child's PCB *)
Definition child_PCB (ret_from_fork clone_flags n : Z) (p : ptr) (parent : PCB) (ctx : cpu_context) (m : mm_struct) : PCB :=
  mk_PCB (with_sp (task_pt_regs p) (with_pc ret_from_fork ctx)) PROCESS_READY 10 (priority parent) (est_burst parent) 0
    (queue_priority parent) (tickets parent) 1 n clone_flags no_files m zero_messages_buffer 0 0 None.

Lemma init_PCB_run ret fl p ctx m cc k :
  heap k !! cur k = Some cc → cur k ≠ p →
  init_PCB ret fl p (put_pcb p (with_mm m (with_cpu_ctx ctx zero_PCB)) k) =
  Done (n_processes (globals k), put_pcb p (child_PCB ret fl (n_processes (globals k)) p cc ctx m) k).
Proof.
  intros Hc Hne. unfold init_PCB, get_global, get_current. rewrite !bind_gets. unfold compose. cbv zeta.
  change (cur (put_pcb p ?c k)) with (cur k).
  repeat first [erewrite bind_done by apply store_put
               |erewrite bind_done by (apply load_put_other; [by apply not_eq_sym|exact Hc])
               |unfold update_context].
  reflexivity.
Qed.

(** ** The trap frame *)
#[local] Transparent copy_words.

Lemma copy_words_spec n d s m a :
  d + 8 * Z.of_nat n ≤ s ∨ s + 8 * Z.of_nat n ≤ d →
  byte_at (copy_words n d s m) a =
  if decide (d ≤ a < d + 8 * Z.of_nat n) then byte_at m (s + (a - d)) else byte_at m a.
Proof.
  revert d s m. induction n as [|n IH]; intros d s m Hd; [rewrite decide_False by lia; done|].
  cbn [copy_words]. rewrite IH by lia.
  assert (∀ x, d ≤ x < d + 8 → byte_at (store64 d (load64 s m) m) x = byte_at m (s + (x - d))) as Hin.
  { intros x Hx. rewrite byte_at_store_le, decide_True by (change (Z.of_nat 8) with 8; lia). rewrite load_le_byte by (change (Z.of_nat 8) with 8; lia). done. }
  assert (∀ x, ¬ (d ≤ x < d + 8) → byte_at (store64 d (load64 s m) m) x = byte_at m x) as Hout.
  { intros x Hx. by rewrite byte_at_store_le, decide_False by (change (Z.of_nat 8) with 8; lia). }
  repeat case_decide; try lia; [rewrite Hout by lia; f_equal; lia|rewrite Hin by lia; done|rewrite Hout by lia; done].
Qed.

#[local] Opaque copy_words.

Definition trap_word (m : mem) (p : ptr) (i : Z) : Z := load64 (task_pt_regs p + 8 * i) m.

(** The trap frame of a PCB in page [f] lies in that page. *)
Lemma task_pt_regs_page f : page_index f → task_pt_regs (kva f) = kva f + 3824.
Proof.
  intros Hf. unfold task_pt_regs, THREAD_SIZE, PT_REGS_SIZE. rewrite u64_id; [lia|]. mm_consts. lia.
Qed.

(** The child's frame after the parent's has been assigned to it and x0 cleared. *)
Definition forked_frame (f : Z) (parent : ptr) (m : mem) : mem :=
  store64 (task_pt_regs (kva f)) 0 (copy_pt_regs (task_pt_regs (kva f)) (task_pt_regs parent) m).

Definition frame_apart (f : Z) (parent : ptr) : Prop :=
  kva f + PAGE_SIZE ≤ task_pt_regs parent ∨ task_pt_regs parent + PT_REGS_SIZE ≤ kva f.

Lemma forked_frame_byte f parent m a :
  page_index f → frame_apart f parent →
  byte_at (forked_frame f parent m) a =
    if decide (0 ≤ a - (kva f + 3824) < 8) then 0
    else if decide (0 ≤ a - (kva f + 3824) < PT_REGS_SIZE) then byte_at m (task_pt_regs parent + (a - (kva f + 3824)))
    else byte_at m a.
Proof.
  unfold frame_apart, PAGE_SIZE, PT_REGS_SIZE. intros Hf Hd. unfold forked_frame, copy_pt_regs.
  rewrite task_pt_regs_page by exact Hf. rewrite byte_at_store_le. change (Z.of_nat 8) with 8.
  rewrite copy_words_spec by (change (8 * Z.of_nat 34) with 272; lia). change (8 * Z.of_nat 34) with 272.
  repeat case_decide; try lia; rewrite ?Z.div_0_l by lia; reflexivity.
Qed.

Lemma forked_frame_word f parent m i :
  page_index f → frame_apart f parent → 0 ≤ i < 34 →
  trap_word (forked_frame f parent m) (kva f) i = if i =? 0 then 0 else trap_word m parent i.
Proof.
  intros Hf Hd Hi. unfold trap_word. rewrite task_pt_regs_page by exact Hf.
  destruct (i =? 0) eqn:E; zify_bools.
  - subst. unfold forked_frame. rewrite task_pt_regs_page by exact Hf. rewrite Z.add_0_r. by rewrite load_store_le.
  - apply load_le_move. intros x Hx. change (Z.of_nat 8) with 8 in Hx. rewrite forked_frame_byte by done.
    rewrite decide_False, decide_True by (unfold PT_REGS_SIZE; lia). f_equal. lia.
Qed.

Lemma forked_frame_outside f parent m a :
  page_index f → frame_apart f parent → a < kva f ∨ kva f + PAGE_SIZE ≤ a →
  byte_at (forked_frame f parent m) a = byte_at m a.
Proof.
  intros Hf Hd Ha. rewrite forked_frame_byte by done. unfold PAGE_SIZE, PT_REGS_SIZE in *. by rewrite !decide_False by lia.
Qed.

Lemma set_frame_run {B} f parent (g : M Machine B) s :
  (set_ram (copy_pt_regs (task_pt_regs (kva f)) (task_pt_regs parent));;
   set_ram (store64 (task_pt_regs (kva f)) 0);; g) s = g (with_ram (forked_frame f parent (ram s)) s).
Proof. reflexivity. Qed.

#[local] Opaque forked_frame.

(** ** What a fork needs *)
Record fork_ready (s : Machine) (mp : mm_struct) : Prop := mk_fork_ready {
  fr_length : length (user_pages mp) = Z.to_nat MAX_PROCESS_PAGES;
  fr_users : 0 ≤ n_user_pages mp ≤ MAX_PROCESS_PAGES;
  fr_tables : needed no_tables (virtual_address <$> take (Z.to_nat (n_user_pages mp)) (user_pages mp)) ≤ MAX_PROCESS_PAGES;
  fr_free : needed no_tables (virtual_address <$> take (Z.to_nat (n_user_pages mp)) (user_pages mp)) + n_user_pages mp + 1 ≤
    Z.of_nat (length (free_list (memory_pages s)));
  fr_source : ∀ u, u ∈ take (Z.to_nat (n_user_pages mp)) (user_pages mp) → source_page s no_tables u;
  fr_distinct : NoDup (page_path <$> take (Z.to_nat (n_user_pages mp)) (user_pages mp))
}.

Lemma fork_copy_ready s f fl s1 mp :
  fork_ready s mp → free_list (memory_pages s) = f :: fl → memory_pages s1 = <[f := 1]> (memory_pages s) →
  copy_ready s1 no_tables zero_mm (take (Z.to_nat (n_user_pages mp)) (user_pages mp)).
Proof.
  intros [H1 H2 H3 H4 H5 H6] Hfl Hm. unfold MAX_PROCESS_PAGES in *.
  assert (Z.of_nat (length (take (Z.to_nat (n_user_pages mp)) (user_pages mp))) = n_user_pages mp) as Hl
    by (rewrite length_take; lia).
  rewrite Hfl in H4. cbn [length] in H4.
  split.
  - rewrite Hl. cbn [n_user_pages user_pages zero_mm]. rewrite length_replicate. unfold MAX_PROCESS_PAGES. lia.
  - unfold mm_room. cbn [n_kernel_pages kernel_pages zero_mm]. rewrite length_replicate. unfold MAX_PROCESS_PAGES. lia.
  - rewrite Hm, Hl, (free_list_take _ _ _ Hfl). lia.
  - intros u Hu. destruct (H5 u Hu) as (g & G1 & G2 & G3 & G4). exists g. split; [done|]. split; [done|]. split; [|done].
    rewrite Hm, page_used_insert. by case_decide.
  - exact H6.
Qed.

(** The child's state, for a fork of a user process. *)
Lemma copy_state_user_run f fl s0 s k1 cc :
  let p := kva f in
  let parent := cur k1 in
  free_list (memory_pages s0) = f :: fl → fork_ready s0 (mm cc) → memory_pages s = <[f := 1]> (memory_pages s0) →
  (∀ j, j ≠ f → same_page s0 s j) →
  kernel s = put_pcb p zero_PCB k1 → heap k1 !! parent = Some cc → parent ≠ p → frame_apart f parent →
  ∃ s' m', copy_state 0 0 0 p s = Done (tt, s') ∧ kernel s' = put_pcb p (with_mm m' zero_PCB) k1 ∧
    (∀ i, 0 ≤ i < 34 → trap_word (ram s') p i = if i =? 0 then 0 else trap_word (ram s) parent i) ∧
    (∀ u va, u ∈ take (Z.to_nat (n_user_pages (mm cc))) (user_pages (mm cc)) →
       vpn va = vpn (virtual_address u) → copied_address s0 s' m' u va) ∧
    (∀ j, page_used (memory_pages s0) j ≠ 0 → same_page s0 s' j).
Proof.
  intros p parent Hfl Hrdy Hm Hsame Hk Hcc Hne Hd. destruct (free_list_head _ _ _ Hfl) as [Hf Hfu].
  set (s1 := with_ram (forked_frame f parent (ram s)) s).
  assert (cur (kernel s1) = parent) as Hcur by (unfold s1; cbn [kernel with_ram]; rewrite Hk; reflexivity).
  assert (mm_of parent s1 = Some (mm cc)) as Hmp.
  { unfold mm_of, s1. cbn [kernel with_ram]. rewrite Hk. unfold put_pcb. cbn [heap with_heap].
    rewrite lookup_insert_ne by (by apply not_eq_sym). by rewrite Hcc. }
  assert (space p s1 no_tables zero_mm) as Hsp.
  { split; [|apply no_tables_PT|by split]. unfold mm_of, s1. cbn [kernel with_ram]. rewrite Hk. unfold put_pcb.
    cbn [heap with_heap]. by rewrite lookup_insert_eq. }
  pose proof (fork_copy_ready s0 f fl s1 (mm cc) Hrdy Hfl Hm) as Hready.
  destruct (copy_virtual_memory_run p s1 (mm cc) no_tables zero_mm) as (s' & T' & m' & E & Hc & Hsp' & Hk' & _);
    [by rewrite Hcur|by rewrite Hcur|apply Hrdy|apply Hrdy|exact Hsp|exact Hready|].
  assert (∀ j, j ≠ f → same_page s0 s1 j) as Hs1.
  { intros j Hj off Ho. unfold s1. cbn [ram with_ram]. rewrite forked_frame_outside; [by apply Hsame|done|done|].
    pose proof (page_apart j f Hj). lia. }
  assert (∀ j, page_used (memory_pages s0) j ≠ 0 → page_used (memory_pages s1) j ≠ 0) as Hup.
  { intros j Hj. unfold s1. cbn [memory_pages with_ram]. rewrite Hm, page_used_insert. by case_decide. }
  exists s', m'. split; [|split; [|split; [|split]]].
  - unfold copy_state. change (negb (Z.land 0 PF_KTHREAD =? 0)) with false. cbv iota zeta.
    assert (on_kernel get_current s = Done (parent, s)) as Ec.
    { assert (cur (kernel s) = parent) as Hcs by (rewrite Hk; reflexivity).
      unfold on_kernel, get_current, gets. rewrite with_kernel_same, Hcs. reflexivity. }
    erewrite bind_done by exact Ec. unfold p at 1 2. rewrite set_frame_run. by rewrite (bind_done _ _ _ 0 s' E).
  - rewrite Hk'. unfold s1. cbn [kernel with_ram]. rewrite Hk. apply set_mm_put_pcb.
  - intros i Hi. rewrite <- forked_frame_word with (f := f) by done.
    apply load_le_ext. intros x Hx. rewrite task_pt_regs_page in Hx by exact Hf. change (Z.of_nat 8) with 8 in Hx.
    replace x with (kva f + (x - kva f)) by lia.
    rewrite (cp_pages _ _ _ _ _ _ Hc f); [reflexivity| |done|unfold PAGE_SIZE; lia].
    unfold s1. cbn [memory_pages with_ram]. by rewrite Hm, page_used_insert, decide_True.
  - intros u va Hu Hva. destruct (copied_map p s1 no_tables _ s' T' m' u va Hc Hsp' Hu Hva) as (g & G1 & G2 & G3).
    exists g. split; [|split; [exact G2|]].
    + destruct (decide (page_used (memory_pages s0) g = 0)) as [Hz|Hn]; [exact Hz|]. destruct (Hup g Hn G1).
    + rewrite G3. destruct (fr_source _ _ Hrdy u Hu) as (q & Q1 & Q2 & Q3 & _). rewrite Q1.
      replace (page_addr q + Z.land va (PAGE_SIZE - 1) + VA_START) with (kva q + Z.land va (PAGE_SIZE - 1)) by (unfold kva; lia).
      apply Hs1; [intros ->; exact (Q3 Hfu)|apply page_offset].
  - intros j Hj. eapply same_page_trans; [apply (Hs1 j); intros ->; exact (Hj Hfu)|].
    apply (cp_pages _ _ _ _ _ _ Hc); [exact (Hup j Hj)|intros l; cbn [tables no_tables]; rewrite lookup_empty; discriminate].
Qed.

(** ** The common parts of copy_process *)

(** What follows the child's state. *)
Definition finish_process (ret_from_fork clone_flags : Z) (p : ptr) : M Machine Z :=
  process_id ← on_kernel (init_PCB ret_from_fork clone_flags p);
  r ← on_kernel (add_process_to_scheduler p);
  if r <? 0 then mret (-1) else
  on_kernel preempt_enable;;
  mret process_id.

(** The scheduler's state after the child has been registered. *)
Definition a_fork (p : ptr) (c : PCB) (a : AKernel) : AKernel := a_preempt (-1) (a_add p c (a_preempt 1 a)).

Lemma child_PCB_parent ret fl n p c1 c2 ctx m :
  priority c1 = priority c2 → est_burst c1 = est_burst c2 → queue_priority c1 = queue_priority c2 →
  tickets c1 = tickets c2 → child_PCB ret fl n p c1 ctx m = child_PCB ret fl n p c2 ctx m.
Proof. intros E1 E2 E3 E4. unfold child_PCB. by rewrite E1, E2, E3, E4. Qed.

Lemma a_fork_Inv d a p c :
  length (a_ml a) = Z.to_nat ML_MAX_LEVELS → Inv d a → 0 ≤ d < 2 ^ 30 → a_pcbs a !! p = None →
  pid c = n_processes (a_globals a) → n_processes (a_globals a) < N_PROCESSES →
  state c = PROCESS_READY → params_ok c → preempt_disabled c = 1 →
  Inv d (a_fork p c a) ∧ Inv (d + 1) (a_add p c (a_preempt 1 a)).
Proof.
  intros Hl HI Hd Hnew Hpid Hlt Hs Hpar Hpre.
  assert (Inv (d + 1) (a_add p c (a_preempt 1 a))) as H.
  { apply a_add_Inv; try done; [by apply Inv_preempt; [lia|]|].
    unfold a_preempt, a_update. simpl. by apply lookup_alter_None. }
  split; [|done]. unfold a_fork. replace d with (d + 1 + -1) by lia. apply Inv_preempt; [lia|done].
Qed.

Lemma a_fork_pcbs d a p c :
  Inv d a → 0 ≤ d < 2 ^ 30 → a_pcbs a !! p = None → p ≠ init_process → state c = PROCESS_READY →
  a_pcbs (a_fork p c a) = <[p := c]> (a_pcbs a) ∧ a_globals (a_fork p c a) = a_globals (a_register p c a).
Proof.
  intros HI Hd Hnew Hi Hs.
  assert (a_globals (a_fork p c a) = a_globals (a_register p c a)) as Eg.
  { unfold a_fork, a_add. rewrite Hs, Z.eqb_refl. unfold a_preempt at 1. unfold a_update at 1. cbn [a_globals a_set_pcbs].
    rewrite a_globals_enqueue_process. reflexivity. }
  split; [|exact Eg]. apply map_eq. intros x. pose proof (f_equal a_pcbs (preempt_round d a HI Hd)) as Hround.
  assert (a_cur (a_add p c (a_preempt 1 a)) = a_cur a) as Ec.
  { unfold a_cur, a_add. rewrite Hs, Z.eqb_refl, a_globals_enqueue_process. reflexivity. }
  unfold a_fork. unfold a_preempt at 1. rewrite Ec. unfold a_update at 1. cbn [a_pcbs a_set_pcbs].
  rewrite a_add_wake by done. apply (f_equal (λ m : gmap ptr PCB, m !! x)) in Hround. unfold a_preempt, a_update in Hround.
  cbn [a_pcbs a_set_pcbs a_globals] in Hround. unfold a_cur in *. cbn [a_globals a_set_pcbs] in Hround.
  destruct (decide (x = p)) as [->|Hx].
  - rewrite lookup_insert_eq. destruct (wf_current _ (inv_WF _ _ HI)) as [cc Hcc].
    rewrite lookup_alter_ne by (intros E; unfold a_cur in Hcc; rewrite E, Hnew in Hcc; discriminate Hcc). rewrite wake_lookup, decide_True by done.
    cbn [a_pcbs a_register a_set_globals a_put a_set_pcbs]. rewrite lookup_insert_eq. simpl. f_equal.
    destruct c; simpl in *; by subst.
  - rewrite lookup_insert_ne by done. rewrite <- Hround. unfold a_cur.
    destruct (decide (current_process (a_globals a) = x)) as [<-|Hc]; rewrite ?lookup_alter_eq, ?lookup_alter_ne by done;
      rewrite wake_lookup, decide_False by done; cbn [a_pcbs a_register a_set_globals a_put a_set_pcbs];
      rewrite lookup_insert_ne by done; unfold a_preempt, a_update; cbn [a_pcbs a_set_pcbs];
      unfold a_cur; rewrite ?lookup_alter_eq, ?lookup_alter_ne by done; reflexivity.
Qed.

Lemma with_kernel_twice k k' s : with_kernel k (with_kernel k' s) = with_kernel k s.
Proof. reflexivity. Qed.

Lemma finish_run d s k1 a p ctx m cp ret fl :
  let n := n_processes (a_globals a) in
  let c := child_PCB ret fl n p cp ctx m in
  kernel s = put_pcb p (with_mm m (with_cpu_ctx ctx zero_PCB)) k1 → R k1 (a_preempt 1 a) → Inv d a → 0 ≤ d < 2 ^ 30 →
  a_pcbs a !! p = None → n < N_PROCESSES → a_pcbs a !! a_cur a = Some cp →
  ∃ k', finish_process ret fl p s = Done (n, with_kernel k' s) ∧ R k' (a_fork p c a) ∧ Inv d (a_fork p c a).
Proof.
  intros n c Hk HR HI Hd Hnew Hlt Hcp.
  assert (a_pcbs (a_preempt 1 a) !! a_cur a = Some (bump_preempt 1 cp)) as Hcur
    by (unfold a_preempt, a_update; cbn [a_pcbs a_set_pcbs]; by rewrite lookup_alter_eq, Hcp).
  assert (a_pcbs (a_preempt 1 a) !! p = None) as Hnew1 by (by apply lookup_alter_None).
  destruct (R_heap_lookup _ _ _ _ HR Hcur) as (cc & Hcc & Ecc).
  assert (cur k1 = a_cur a) as Ek1 by (unfold cur; by rewrite <- (R_globals _ _ HR)).
  assert (n_processes (globals k1) = n) as En by (by rewrite <- (R_globals _ _ HR)).
  assert (child_PCB ret fl n p cc ctx m = c) as Ec.
  { unfold c. apply child_PCB_parent; [apply (f_equal priority) in Ecc|apply (f_equal est_burst) in Ecc|
      apply (f_equal queue_priority) in Ecc|apply (f_equal tickets) in Ecc]; symmetry; exact Ecc. }
  destruct (a_fork_Inv d a p c (R_alevels _ _ HR) HI Hd Hnew eq_refl Hlt eq_refl) as [HIf HI1]; [|done|].
  { destruct (inv_params _ _ HI _ _ Hcp) as [P1 P2 P3]. split; [exact P1|done|exact P3]. }
  pose proof (init_PCB_run ret fl p ctx m cc k1) as Einit. rewrite Ek1, En, Ec in Einit.
  specialize (Einit Hcc ltac:(intros E; rewrite E, Hnew in Hcp; discriminate Hcp)).
  destruct (add_process_sim (put_pcb p c k1) (d + 1) (a_preempt 1 a) p c) as (k2 & E2 & R2);
    [by apply R_new|by apply Inv_preempt; [lia|]|done..|].
  destruct (preempt_enable_sim k2 _ R2) as (k3 & E3 & R3); [apply (wf_current _ (inv_WF _ _ HI1))|].
  exists k3. split; [|split; [exact R3|exact HIf]].
  unfold finish_process.
  erewrite bind_done by (apply on_kernel_done; rewrite Hk; exact Einit).
  erewrite bind_done by (apply on_kernel_done; exact E2). change (0 <? 0) with false. cbv iota.
  erewrite bind_done by (apply on_kernel_done; exact E3). rewrite !with_kernel_twice. reflexivity.
Qed.

(** The same bytes outside page [f]. *)
Definition same_outside (f : Z) (s s' : Machine) : Prop :=
  ∀ a, a < kva f ∨ kva f + PAGE_SIZE ≤ a → byte_at (ram s') a = byte_at (ram s) a.

Lemma same_outside_page f s s' j : same_outside f s s' → j ≠ f → same_page s s' j.
Proof. intros H Hj off Ho. apply H. pose proof (page_apart j f Hj). lia. Qed.

(** The new PCB's page, once allocated. *)
Definition blank_PCB (f : Z) (k : Kernel) (s : Machine) : Machine :=
  with_ram (memzero (kva f + 3824) PT_REGS_SIZE (ram s)) (with_kernel (put_pcb (kva f) zero_PCB k) s).

Lemma blank_PCB_run {B} f s (g : M Machine B) :
  page_index f →
  (on_kernel (as_PCB (kva f));;
   set_ram (memzero (task_pt_regs (kva f)) PT_REGS_SIZE);;
   on_kernel (update_context (kva f) (λ _, zero_cpu_context));;
   on_kernel (for_loop (Z.to_nat MAX_FILES_PER_PROCESS) 0 (λ i, set_file (kva f) i None));; g) s =
  g (blank_PCB f (kernel s) s).
Proof.
  intros Hf. erewrite bind_done by (apply on_kernel_done; reflexivity). fold (put_pcb (kva f) zero_PCB (kernel s)).
  unfold set_ram. rewrite bind_modify, task_pt_regs_page by exact Hf. fold (blank_PCB f (kernel s) s).
  assert (kernel (blank_PCB f (kernel s) s) = put_pcb (kva f) zero_PCB (kernel s)) as E by reflexivity.
  change (with_ram (memzero (kva f + 3824) PT_REGS_SIZE (ram (with_kernel (put_pcb (kva f) zero_PCB (kernel s)) s)))
    (with_kernel (put_pcb (kva f) zero_PCB (kernel s)) s)) with (blank_PCB f (kernel s) s).
  assert (on_kernel (update_context (kva f) (λ _, zero_cpu_context)) (blank_PCB f (kernel s) s) =
    Done (tt, blank_PCB f (kernel s) s)) as E1.
  { unfold on_kernel. rewrite E. unfold update_context. rewrite store_put.
    change (with_cpu_ctx zero_cpu_context zero_PCB) with zero_PCB. by rewrite <- E, with_kernel_same. }
  erewrite bind_done by exact E1.
  assert (on_kernel (for_loop (Z.to_nat MAX_FILES_PER_PROCESS) 0 (λ i, set_file (kva f) i None)) (blank_PCB f (kernel s) s) =
    Done (tt, blank_PCB f (kernel s) s)) as E2.
  { unfold on_kernel. rewrite E, clear_files_run by (done || unfold MAX_FILES_PER_PROCESS; lia). by rewrite <- E, with_kernel_same. }
  by erewrite bind_done by exact E2.
Qed.

Lemma blank_PCB_frame f k s :
  kernel (blank_PCB f k s) = put_pcb (kva f) zero_PCB k ∧ memory_pages (blank_PCB f k s) = memory_pages s ∧
  same_outside f s (blank_PCB f k s).
Proof.
  split; [reflexivity|]. split; [reflexivity|]. intros x Hx. unfold blank_PCB. cbn [ram with_ram]. unfold PAGE_SIZE in *.
  rewrite memzero_spec by (unfold PT_REGS_SIZE; lia).
  rewrite decide_False by (unfold PT_REGS_SIZE; change (zeroed 272) with 272; lia). reflexivity.
Qed.

#[local] Opaque blank_PCB.

(** What precedes the child's state. *)
Lemma start_run d s a f fl ret flags fn arg :
  R (kernel s) a → Inv d a → free_list (memory_pages s) = f :: fl → n_processes (a_globals a) < N_PROCESSES →
  ∃ s1 k1, R k1 (a_preempt 1 a) ∧
    copy_process ret flags fn arg s = (copy_state flags fn arg (kva f);; finish_process ret flags (kva f)) s1 ∧
    kernel s1 = put_pcb (kva f) zero_PCB k1 ∧ memory_pages s1 = <[f := 1]> (memory_pages s) ∧ same_outside f s s1 ∧ uart s1 = uart s.
Proof.
  intros HR HI Hfl Hlt. destruct (free_list_head _ _ _ Hfl) as [Hf _].
  destruct (preempt_disable_sim _ _ HR (wf_current _ (inv_WF _ _ HI))) as (k1 & E1 & R1).
  destruct (take_page_frame f (with_kernel k1 s)) as (K1 & _ & _ & K4).
  destruct (blank_PCB_frame f k1 (take_page f (with_kernel k1 s))) as (B1 & B2 & B3).
  exists (blank_PCB f k1 (take_page f (with_kernel k1 s))), k1. split; [exact R1|].
  split; [|split; [exact B1|split; [rewrite B2, K4; reflexivity|split; [|reflexivity]]]].
  - unfold copy_process. erewrite bind_done by (apply on_kernel_done; exact E1).
    assert (allocate_kernel_page (with_kernel k1 s) = Done (kva f, take_page f (with_kernel k1 s))) as Ea.
    { unfold allocate_kernel_page. rewrite (bind_done _ _ _ (page_addr f) (take_page f (with_kernel k1 s)))
        by (by rewrite get_free_page_run; cbn [memory_pages with_kernel]; rewrite Hfl).
      rewrite (proj2 (Z.eqb_neq _ _) (page_addr_nonzero _ Hf)), kva_u64 by exact Hf. reflexivity. }
    erewrite bind_done by exact Ea.
    assert (on_kernel (get_global n_processes) (take_page f (with_kernel k1 s)) =
      Done (n_processes (globals k1), take_page f (with_kernel k1 s))) as En.
    { erewrite on_kernel_done by reflexivity. rewrite with_kernel_same, K1. reflexivity. }
    erewrite bind_done by exact En. rewrite <- (R_globals _ _ R1).
    change (n_processes (a_globals (a_preempt 1 a))) with (n_processes (a_globals a)).
    rewrite (proj2 (Z.eqb_neq _ _)) by (unfold kva, page_addr; mm_consts; lia).
    rewrite (proj2 (Z.leb_gt _ _)) by exact Hlt. cbn [orb]. rewrite blank_PCB_run by exact Hf. rewrite K1. reflexivity.
  - intros x Hx. rewrite B3 by exact Hx. rewrite take_page_byte, decide_False by (unfold PAGE_SIZE in *; lia). reflexivity.
Qed.

(** ** The properties *)

(** C20: fork. From a state that satisfies the scheduler's invariant, with room in
    the process table and in the page allocator, copy_process(0, 0, 0) returns
    the next pid. The child's PCB sits in the first free page, READY, in the
    table at its pid and in the ready structure, with the parent's parameters,
    ten ticks, no open file, preemption disabled once, and resumes in
    ret_from_fork on a trap frame that is the parent's except for x0 = 0. Its
    tables translate every page of the parent to a private page with the same
    bytes; nothing of the pages in use has changed; the parent's and every other
    PCB are as before, and the scheduler's invariant holds. *)
Theorem fork_spec ret d s a f fl cp :
  R (kernel s) a → Inv d a → 0 ≤ d < 2 ^ 30 → free_list (memory_pages s) = f :: fl →
  n_processes (a_globals a) < N_PROCESSES → a_pcbs a !! a_cur a = Some cp → a_pcbs a !! kva f = None →
  fork_ready s (mm cp) → frame_apart f (a_cur a) →
  let n := n_processes (a_globals a) in
  ∃ s' a' m', copy_process ret 0 0 0 s = Done (n, s') ∧ R (kernel s') a' ∧ Inv d a' ∧
    a_pcbs a' = <[kva f := child_PCB ret 0 n (kva f) cp zero_cpu_context m']> (a_pcbs a) ∧
    array_get (processes (a_globals a')) n = Some (Some (kva f)) ∧ queued a' (kva f) ∧
    (∀ i, 0 ≤ i < 34 → trap_word (ram s') (kva f) i = if i =? 0 then 0 else trap_word (ram s) (a_cur a) i) ∧
    (∀ u va, u ∈ take (Z.to_nat (n_user_pages (mm cp))) (user_pages (mm cp)) →
       vpn va = vpn (virtual_address u) → copied_address s s' m' u va) ∧
    (∀ j, page_used (memory_pages s) j ≠ 0 → same_page s s' j).
Proof.
  intros HR HI Hd Hfl Hlt Hcp Hnew Hrdy Hfr n. destruct (free_list_head _ _ _ Hfl) as [Hf _].
  destruct (start_run d s a f fl ret 0 0 0 HR HI Hfl Hlt) as (s1 & k1 & R1 & E1 & Hk1 & Hm1 & Hs1 & Hu1).
  assert (a_pcbs (a_preempt 1 a) !! a_cur a = Some (bump_preempt 1 cp)) as Hcur
    by (unfold a_preempt, a_update; cbn [a_pcbs a_set_pcbs]; by rewrite lookup_alter_eq, Hcp).
  destruct (R_heap_lookup _ _ _ _ R1 Hcur) as (cc & Hcc & Ecc).
  assert (mm cc = mm cp) as Emm by (apply (f_equal mm) in Ecc; symmetry; exact Ecc).
  assert (cur k1 = a_cur a) as Ek1 by (unfold cur; by rewrite <- (R_globals _ _ R1)).
  rewrite <- Ek1 in Hcc, Hfr.
  destruct (copy_state_user_run f fl s s1 k1 cc Hfl) as (s2 & m' & E2 & Hk2 & Htrap & Hcopy & Hused);
    [by rewrite Emm|exact Hm1|intros j; exact (same_outside_page f s s1 j Hs1)|exact Hk1|exact Hcc|rewrite Ek1; intros E; rewrite E, Hnew in Hcp; discriminate Hcp|exact Hfr|].
  destruct (finish_run d s2 k1 a (kva f) zero_cpu_context m' cp ret 0 Hk2 R1 HI Hd Hnew Hlt Hcp) as (k3 & E3 & R3 & HI3).
  assert (kva f ≠ init_process) as Hi by (unfold init_process; mm_consts; lia).
  destruct (a_fork_pcbs d a (kva f) (child_PCB ret 0 n (kva f) cp zero_cpu_context m') HI Hd Hnew Hi eq_refl) as [Ep Eg].
  exists (with_kernel k3 s2), (a_fork (kva f) (child_PCB ret 0 n (kva f) cp zero_cpu_context m') a), m'.
  split; [|split; [exact R3|split; [exact HI3|split; [exact Ep|split; [|split; [|split; [|split]]]]]]].
  - rewrite E1. erewrite bind_done by exact E2. exact E3.
  - rewrite Eg. destruct (wf_processes _ (inv_WF _ _ HI)) as [Hpl _]. destruct (inv_slots _ _ HI) as [Hn _].
    cbn [a_register a_set_globals a_globals processes with_processes with_queue_level with_n_processes pid child_PCB].
    assert (0 ≤ n < N_PROCESSES) as Hr by (unfold n; lia).
    rewrite array_get_insert; [by rewrite decide_True| |exact (proj1 Hr)].
    change (0 ≤ n < Z.of_nat (length (processes (a_globals a)))). rewrite Hpl. unfold N_PROCESSES in *. lia.
  - apply (inv_ready _ _ HI3 (kva f) (child_PCB ret 0 n (kva f) cp zero_cpu_context m')); [|exact Hi|reflexivity].
    unfold n in Ep. rewrite Ep. apply lookup_insert_eq.
  - intros i Hi'. cbn [ram with_kernel]. rewrite (Htrap i Hi'), Ek1. case_bool; [done|].
    apply load_le_ext. intros x Hx. change (Z.of_nat 8) with 8 in Hx. apply Hs1. unfold frame_apart, PT_REGS_SIZE in Hfr.
    rewrite Ek1 in Hfr. lia.
  - rewrite Emm in Hcopy. exact Hcopy.
  - exact Hused.
Qed.

(** Creation fails. When there is no free page or the process table is full
    copy_process returns -1; the caller's preemption count stays one higher, so the
    timer never preempts it again, and the page taken in the second case is lost. *)
Theorem fork_failure ret flags fn arg d s a :
  R (kernel s) a → Inv d a → 0 ≤ d < 2 ^ 30 →
  free_list (memory_pages s) = [] ∨ N_PROCESSES ≤ n_processes (a_globals a) →
  ∃ s', copy_process ret flags fn arg s = Done (-1, s') ∧ R (kernel s') (a_preempt 1 a) ∧ Inv (d + 1) (a_preempt 1 a) ∧
    free_list (memory_pages s') = List.tl (free_list (memory_pages s)).
Proof.
  intros HR HI Hd Hfail.
  destruct (preempt_disable_sim _ _ HR (wf_current _ (inv_WF _ _ HI))) as (k1 & E1 & R1).
  assert (Inv (d + 1) (a_preempt 1 a)) as HI1 by (apply Inv_preempt; [lia|exact HI]).
  unfold copy_process. erewrite bind_done by (apply on_kernel_done; exact E1).
  unfold allocate_kernel_page. rewrite bind_assoc.
  destruct (free_list (memory_pages s)) as [|f fl] eqn:Hfl.
  - exists (with_kernel k1 s). split; [|split; [exact R1|split; [exact HI1|exact Hfl]]].
    rewrite (bind_done _ _ _ 0 (with_kernel k1 s)) by (rewrite get_free_page_run; cbn [memory_pages with_kernel]; by rewrite Hfl).
    change (0 =? 0) with true. cbv iota. rewrite (bind_done (mret 0) _ _ 0 (with_kernel k1 s)) by done.
    by erewrite bind_done by (apply on_kernel_done; reflexivity).
  - destruct Hfail as [Hfail|Hfull]; [discriminate Hfail|].
    destruct (take_page_frame f (with_kernel k1 s)) as (K1 & _ & _ & K4).
    destruct (free_list_head _ _ _ Hfl) as [Hf _].
    exists (take_page f (with_kernel k1 s)). rewrite K1, K4. split; [|split; [exact R1|split; [exact HI1|by apply free_list_take]]].
    rewrite (bind_done _ _ _ (page_addr f) (take_page f (with_kernel k1 s)))
      by (by rewrite get_free_page_run; cbn [memory_pages with_kernel]; rewrite Hfl).
    rewrite (proj2 (Z.eqb_neq _ _) (page_addr_nonzero _ Hf)).
    rewrite (bind_done (mret _) _ _ (u64 (page_addr f + VA_START)) (take_page f (with_kernel k1 s))) by reflexivity.
    assert (on_kernel (get_global n_processes) (take_page f (with_kernel k1 s)) =
      Done (n_processes (globals k1), take_page f (with_kernel k1 s))) as En.
    { erewrite on_kernel_done by reflexivity. rewrite with_kernel_same, K1. reflexivity. }
    erewrite bind_done by exact En. rewrite <- (R_globals _ _ R1).
    change (n_processes (a_globals (a_preempt 1 a))) with (n_processes (a_globals a)).
    rewrite (proj2 (Z.leb_le _ _)) by exact Hfull. rewrite orb_true_r. reflexivity.
Qed.

(** Kernel threads. copy_process(PF_KTHREAD, f, x) creates a READY, queued
    process with no memory of its own that resumes in ret_from_fork with f in x19
    and x in x20, and touches no page in use. *)
Theorem kernel_thread_spec ret fn arg d s a f fl cp :
  R (kernel s) a → Inv d a → 0 ≤ d < 2 ^ 30 → free_list (memory_pages s) = f :: fl →
  n_processes (a_globals a) < N_PROCESSES → a_pcbs a !! a_cur a = Some cp → a_pcbs a !! kva f = None →
  let n := n_processes (a_globals a) in
  ∃ s' a', copy_process ret PF_KTHREAD fn arg s = Done (n, s') ∧ R (kernel s') a' ∧ Inv d a' ∧
    a_pcbs a' = <[kva f := child_PCB ret PF_KTHREAD n (kva f) cp
                   (with_x20 arg (with_x19 fn zero_cpu_context)) zero_mm]> (a_pcbs a) ∧
    queued a' (kva f) ∧ free_list (memory_pages s') = fl ∧ uart s' = uart s ∧
    (∀ j, page_used (memory_pages s) j ≠ 0 → same_page s s' j).
Proof.
  intros HR HI Hd Hfl Hlt Hcp Hnew n. destruct (free_list_head _ _ _ Hfl) as [Hf Hfu].
  destruct (start_run d s a f fl ret PF_KTHREAD fn arg HR HI Hfl Hlt) as (s1 & k1 & R1 & E1 & Hk1 & Hm1 & Hs1 & Hu1).
  set (ctx := with_x20 arg (with_x19 fn zero_cpu_context)).
  assert (copy_state PF_KTHREAD fn arg (kva f) s1 =
    Done (tt, with_kernel (put_pcb (kva f) (with_mm zero_mm (with_cpu_ctx ctx zero_PCB)) k1) s1)) as E2.
  { unfold copy_state. change (negb (Z.land PF_KTHREAD PF_KTHREAD =? 0)) with true. cbv iota zeta. unfold update_context.
    erewrite bind_done by (apply on_kernel_done; rewrite Hk1; apply store_put).
    erewrite on_kernel_done by apply store_put. reflexivity. }
  destruct (finish_run d (with_kernel (put_pcb (kva f) (with_mm zero_mm (with_cpu_ctx ctx zero_PCB)) k1) s1)
    k1 a (kva f) ctx zero_mm cp ret PF_KTHREAD eq_refl R1 HI Hd Hnew Hlt Hcp) as (k3 & E3 & R3 & HI3).
  assert (kva f ≠ init_process) as Hi by (unfold init_process; mm_consts; lia).
  destruct (a_fork_pcbs d a (kva f) (child_PCB ret PF_KTHREAD n (kva f) cp ctx zero_mm) HI Hd Hnew Hi eq_refl) as [Ep _].
  eexists _, (a_fork (kva f) (child_PCB ret PF_KTHREAD n (kva f) cp ctx zero_mm) a).
  split; [rewrite E1; erewrite bind_done by exact E2; exact E3|].
  split; [exact R3|]. split; [exact HI3|]. split; [exact Ep|]. split; [|split; [|split]].
  - apply (inv_ready _ _ HI3 (kva f) (child_PCB ret PF_KTHREAD n (kva f) cp ctx zero_mm)); [|exact Hi|reflexivity].
    unfold n in Ep. rewrite Ep. apply lookup_insert_eq.
  - cbn [memory_pages with_kernel]. rewrite Hm1. by apply free_list_take.
  - exact Hu1.
  - intros j Hj. intros off Ho. cbn [ram with_kernel].
    apply (same_outside_page f s s1 j Hs1); [intros ->; exact (Hj Hfu)|exact Ho].
Qed.

(** ** Witnesses: process 100 of the demonstration kernel forks *)
#[export] Instance neutral_mm v : NextNeutral (with_mm v).
Proof. by split. Qed.

Lemma R_set_mm k a p m : R k a → is_Some (heap k !! p) → R (set_mm p m k) (a_update p (with_mm m) a).
Proof.
  intros HR [c Hc]. replace (set_mm p m k) with (with_heap (<[p := with_mm m c]> (heap k)) k); [by apply R_store|].
  unfold set_mm. f_equal. apply map_eq. intros i. destruct (decide (p = i)) as [<-|Hne].
  - by rewrite lookup_insert_eq, lookup_alter_eq, Hc.
  - by rewrite lookup_insert_ne, lookup_alter_ne.
Qed.

(** Pages 0 and 1 are the parent's; the other pages are free. *)
Definition two_used : gmap Z Z := <[0 := 1]> (<[1 := 1]> ∅).

Lemma two_used_page i : page_used two_used i = if decide (i = 0 ∨ i = 1) then 1 else 0.
Proof.
  unfold two_used. rewrite !page_used_insert, page_used_empty. repeat case_decide; (done || lia).
Qed.

Lemma two_used_free : ∃ fl, free_list two_used = 2 :: fl.
Proof.
  rewrite free_list_filter. eexists. rewrite first_free, decide_False by (try rewrite two_used_page; done).
  rewrite first_free, decide_False by (try rewrite two_used_page; done).
  by rewrite first_free, decide_True by (try rewrite two_used_page; done).
Qed.

Definition forking (m : mm_struct) : Machine :=
  machine_with (set_mm 100 m (demo_run FCFS)) two_used {[ kva 1 + 5 := 77 ]}.
Definition a_forking (m : mm_struct) : AKernel := a_update 100 (with_mm m) (a_demo_run FCFS).

Lemma forking_ok m : R (kernel (forking m)) (a_forking m) ∧ Inv 0 (a_forking m).
Proof.
  destruct (demo_run_ok FCFS) as (HR & HI & _). split.
  - apply R_set_mm; [exact HR|]. vm_compute. by eexists.
  - apply Inv_params_update; [|exact HI]. intros c. do 3 (split; [reflexivity|]). intros [? ? ?]. by split.
Qed.

Lemma two_pages_ready : fork_ready (forking two_pages) two_pages.
Proof.
  assert (take (Z.to_nat (n_user_pages two_pages)) (user_pages two_pages) =
    [mk_user_page (page_addr 0) 0; mk_user_page (page_addr 1) 4096]) as E by reflexivity.
  split; [reflexivity|vm_compute; split; discriminate|rewrite E; vm_compute; discriminate| | |rewrite E].
  - rewrite E. change (needed no_tables (virtual_address <$> [mk_user_page (page_addr 0) 0; mk_user_page (page_addr 1) 4096])) with 4.
    change (4 + n_user_pages two_pages + 1) with 7.
    apply (Nat2Z.inj_le 7), (free_list_at_least [2; 3; 4; 5; 6; 7; 8]); [repeat constructor; set_solver|].
    intros i Hi. cbn [memory_pages forking machine_with]. unfold page_index. rewrite N_PAGES_value, two_used_page.
    rewrite !elem_of_cons, elem_of_nil in Hi. rewrite decide_False by lia. lia.
  - intros u. rewrite E. intros [->| ->%list_elem_of_singleton]%elem_of_cons; [exists 0|exists 1];
      (split; [reflexivity|]; split; [unfold page_index; rewrite N_PAGES_value; lia|]; split; [|done];
       cbn [memory_pages forking machine_with]; rewrite two_used_page; done).
  - vm_compute. repeat constructor; set_solver.
Qed.

Lemma fork_spec_witness :
  ∃ s' a' m', copy_process 0x80000 0 0 0 (forking two_pages) = Done (4, s') ∧ R (kernel s') a' ∧ Inv 0 a' ∧
    queued a' (kva 2) ∧ trap_word (ram s') (kva 2) 0 = 0 ∧
    copied_address (forking two_pages) s' m' (mk_user_page (page_addr 1) 4096) 4101.
Proof.
  destruct two_used_free as [fl Hfl]. destruct (forking_ok two_pages) as [HR HI].
  assert (∃ cp, a_pcbs (a_forking two_pages) !! 100 = Some (with_mm two_pages cp)) as [cp Hcp].
  { unfold a_forking, a_update. cbn [a_pcbs a_set_pcbs]. rewrite lookup_alter_eq.
    assert (is_Some (a_pcbs (a_demo_run FCFS) !! 100)) as [c Hc] by (vm_compute; by eexists). exists c. by rewrite Hc. }
  destruct (fork_spec 0x80000 0 (forking two_pages) (a_forking two_pages) 2 fl (with_mm two_pages cp) HR HI)
    as (s' & a' & m' & E & HR' & HI' & _ & _ & Hq & Htrap & Hcopy & _).
  - lia.
  - exact Hfl.
  - by vm_compute.
  - exact Hcp.
  - by vm_compute.
  - exact two_pages_ready.
  - right. vm_compute. discriminate.
  - exists s', a', m'. split; [exact E|]. split; [exact HR'|]. split; [exact HI'|]. split; [exact Hq|].
    split; [rewrite Htrap by lia; reflexivity|]. apply Hcopy; [right; left|reflexivity].
Defined.

Lemma kernel_thread_spec_witness :
  ∃ s' a', copy_process 0x80000 PF_KTHREAD 4096 7 (forking zero_mm) = Done (4, s') ∧ R (kernel s') a' ∧ queued a' (kva 2) ∧
    x19 ∘ cpu_ctx <$> a_pcbs a' !! kva 2 = Some 4096.
Proof.
  destruct two_used_free as [fl Hfl]. destruct (forking_ok zero_mm) as [HR HI].
  assert (is_Some (a_pcbs (a_forking zero_mm) !! 100)) as [cp Hcp] by (vm_compute; by eexists).
  destruct (kernel_thread_spec 0x80000 4096 7 0 (forking zero_mm) (a_forking zero_mm) 2 fl cp HR HI)
    as (s' & a' & E & HR' & _ & Hp & Hq & _).
  - lia.
  - exact Hfl.
  - by vm_compute.
  - exact Hcp.
  - by vm_compute.
  - exists s', a'. split; [exact E|]. split; [exact HR'|]. split; [exact Hq|]. rewrite Hp, lookup_insert_eq. reflexivity.
Defined.

(** An allocator with no free page. *)
Definition all_used : gmap Z Z := gset_to_gmap 1 (list_to_set (seqZ 0 257024)).

Lemma all_used_free : free_list all_used = [].
Proof.
  apply elem_of_nil_inv. intros i [Hi Hu]%elem_of_free_list.
  unfold page_index in Hi. rewrite N_PAGES_value in Hi. rewrite page_used_lookup in Hu.
  assert (all_used !! i = Some 1) as Hl.
  { unfold all_used. apply lookup_gset_to_gmap_Some. split; [|done]. apply elem_of_list_to_set, elem_of_seqZ. lia. }
  rewrite Hl in Hu. discriminate Hu.
Qed.

#[local] Opaque all_used.

Lemma fork_failure_witness :
  ∃ s', copy_process 0x80000 0 0 0 (machine_with (demo_run FCFS) all_used ∅) = Done (-1, s') ∧
    R (kernel s') (a_preempt 1 (a_demo_run FCFS)).
Proof.
  destruct (demo_run_ok FCFS) as (HR & HI & _).
  destruct (fork_failure 0x80000 0 0 0 0 (machine_with (demo_run FCFS) all_used ∅) (a_demo_run FCFS) HR HI)
    as (s' & E & HR' & _); [lia|left; exact all_used_free|].
  exact (ex_intro _ s' (conj E HR')).
Defined.
