(* ===== verification/UserMode.v ===== *)
(** * Loading the first user program: move_to_user_mode of libs/fork.c

    Proofs on copy_code and move_to_user_mode (Fork.v): what the processor then sees
    at the virtual addresses of the program, and the registers it starts with. *)
From stdpp Require Import base gmap list.
From Stdlib Require Import ZArith Lia.
From S2P Require Import Prelude Mem Kernel Scheduler Machine Mm MmSpec MmMap MmProps MmCopy Fork ForkSpec.

#[local] Open Scope Z_scope.
#[local] Opaque memzero memcpy store_le load_le free_list N_PAGES page_used byte_at put_byte
  new_table clean_page put_entry take_page map_page.

(** ** The pages of the program *)
Definition page_va (k : Z) : Z := k * PAGE_SIZE.

Lemma vpn_page k : 0 ≤ k < 2 ^ 36 → vpn (page_va k) = k.
Proof. intros Hk. unfold vpn, page_va, PAGE_SIZE. rewrite Z.div_mul by lia. by apply Z.mod_small. Qed.

Lemma page_va_inj k k' : 0 ≤ k < 2 ^ 36 → 0 ≤ k' < 2 ^ 36 → path4 (page_va k) = path4 (page_va k') → k = k'.
Proof. intros Hk Hk' E%path4_vpn. by rewrite !vpn_page in E. Qed.

(** The tables of the pages from [i] on. *)
Definition code_pages (i : Z) (n : nat) : list Z := page_va <$> seqZ i (Z.of_nat n).

Lemma code_pages_cons i n : code_pages i (S n) = page_va i :: code_pages (i + 1) n.
Proof. unfold code_pages. rewrite seqZ_cons by lia. cbn [fmap list_fmap]. do 2 f_equal. f_equal; lia. Qed.

Section load.
Context (p : ptr) (start size : Z) (s0 : Machine).
Context (Hstart : 0 ≤ start) (Hsize : 0 ≤ size) (Hcode : start + size ≤ kva 0).

(** The byte of the program at offset [x], 0 past its end. *)
Definition code_byte (x : Z) : Z := if decide (x < size) then byte_at (ram s0) (start + x) else 0.

(** Pages 0 to [n - 1] have been loaded, in pages that were free, and nothing that
    was in use has changed. *)
Record loaded (n : Z) (s : Machine) (T : Tables) : Prop := mk_loaded {
  ld_page : ∀ k, 0 ≤ k < n → ∃ f, leaves T !! path4 (page_va k) = Some f ∧
    page_used (memory_pages s0) f = 0 ∧ page_used (memory_pages s) f ≠ 0 ∧ (∀ l, tables T !! l ≠ Some f) ∧
    ∀ off, 0 ≤ off < PAGE_SIZE → byte_at (ram s) (kva f + off) = code_byte (page_va k + off);
  ld_rest : ∀ l, (∀ k, 0 ≤ k < n → l ≠ path4 (page_va k)) → leaves T !! l = None;
  ld_tables : ∀ l j, tables T !! l = Some j → page_used (memory_pages s0) j = 0;
  ld_used : ∀ j, page_used (memory_pages s0) j ≠ 0 → page_used (memory_pages s) j ≠ 0;
  ld_same : ∀ j, page_used (memory_pages s0) j ≠ 0 → same_page s0 s j;
  ld_below : same_below s0 s;
  ld_kernel : ∃ m, kernel s = set_mm p m (kernel s0)
}.

Lemma loaded_nothing : loaded 0 s0 no_tables.
Proof.
  split; try done.
  - lia.
  - destruct (set_mm_id p (kernel s0)) as [m Hm]. by exists m.
Qed.

(** What is copied to page [k]. *)
Definition chunk (k : Z) : Z := Z.min PAGE_SIZE (size - page_va k).

(** A page [f] of zeroes after its part of the program has been copied to it. *)
Definition put_code (k f : Z) (s : Machine) : Machine :=
  if page_va k <? size then with_ram (memcpy (kva f) (start + page_va k) (chunk k) (ram s)) s else s.

Lemma put_code_frame k f s : kernel (put_code k f s) = kernel s ∧ memory_pages (put_code k f s) = memory_pages s.
Proof. unfold put_code. by destruct (_ <? _). Qed.

Lemma put_code_byte k f s a : 0 ≤ k → page_index f →
  byte_at (ram (put_code k f s)) a =
    if decide (kva f ≤ a < kva f + chunk k) then byte_at (ram s) (start + page_va k + (a - kva f)) else byte_at (ram s) a.
Proof.
  intros Hk Hf. unfold put_code, chunk, page_va, PAGE_SIZE in *. case_bool; [|by rewrite decide_False by lia].
  cbn [ram with_ram]. assert (kva 0 ≤ kva f) by (mm_consts; lia). rewrite memcpy_spec by lia. by replace (Z.max 1 _) with (Z.min 4096 (size - k * 4096)) by lia.
Qed.

Lemma put_code_same k f s j : 0 ≤ k → page_index f → j ≠ f → same_page s (put_code k f s) j.
Proof.
  intros Hk Hf Hj off Ho. rewrite put_code_byte by done. pose proof (page_apart j f Hj). unfold chunk.
  by rewrite decide_False by lia.
Qed.

Lemma put_code_below k f s : 0 ≤ k → page_index f → same_below s (put_code k f s).
Proof. intros Hk Hf a Ha. pose proof (kva_below f a Hf Ha). by rewrite put_code_byte, decide_False by (done || lia). Qed.

Lemma put_code_code k f s off : 0 ≤ k → page_index f → 0 ≤ off < PAGE_SIZE → same_below s0 s →
  (∀ off, 0 ≤ off < PAGE_SIZE → byte_at (ram s) (kva f + off) = 0) →
  byte_at (ram (put_code k f s)) (kva f + off) = code_byte (page_va k + off).
Proof.
  intros Hk Hf Ho Hb Hz. rewrite put_code_byte by done. unfold code_byte, chunk, page_va, PAGE_SIZE in *.
  repeat case_decide; try lia; [|by apply Hz].
  rewrite Hb by lia. f_equal. lia.
Qed.

Lemma put_code_yes k f s : page_va k < size →
  put_code k f s = with_ram (memcpy (kva f) (start + page_va k) (chunk k) (ram s)) s.
Proof. intros H. unfold put_code. by rewrite (proj2 (Z.ltb_lt _ _) H). Qed.

Lemma put_code_no k f s : size ≤ page_va k → put_code k f s = s.
Proof. intros H. unfold put_code. by rewrite (proj2 (Z.ltb_ge _ _) H). Qed.

#[local] Opaque put_code.

(** *** One page *)
Lemma load_page k s T m f fl :
  0 ≤ k < 2 ^ 36 → space p s T m → loaded k s T → free_list (memory_pages s) = f :: fl →
  mm_room (missing T (page_va k)) m → missing T (page_va k) ≤ Z.of_nat (length fl) → user_room m →
  ∃ s1 T' m', allocate_user_page p (page_va k) s = Done (kva f, s1) ∧ page_index f ∧
    loaded (k + 1) (put_code k f s1) T' ∧ space p (put_code k f s1) T' m' ∧
    tables T ⊆ tables T' ∧ Forall (λ l, is_Some (tables T' !! l)) (table_paths (page_va k)) ∧
    n_user_pages m' = n_user_pages m + 1 ∧ length (user_pages m') = length (user_pages m) ∧
    (∀ n, mm_room n m → missing T (page_va k) ≤ n → mm_room (n - missing T (page_va k)) m') ∧
    Z.of_nat (length fl) ≤ missing T (page_va k) + Z.of_nat (length (free_list (memory_pages (put_code k f s1)))).
Proof.
  intros Hk Hsp L Hfl Hroom Hfree Hu. destruct (free_list_head _ _ _ Hfl) as [Hf Hfu].
  destruct (allocate_user_page_run p s T m _ f fl Hsp Hfl Hroom Hfree Hu)
    as (s1 & T' & m' & E & G & Hsp1 & Hl & Ht & Hn & Hus & Hr).
  destruct (take_page_frame f s) as (K1 & _ & _ & K4). destruct (put_code_frame k f s1) as (L1 & L4).
  assert (∀ i, page_used (memory_pages s) i ≠ 0 → page_used (memory_pages (take_page f s)) i ≠ 0) as Hup.
  { intros i Hi. rewrite K4, page_used_insert. by case_decide. }
  assert (page_used (memory_pages (take_page f s)) f ≠ 0) as Hff by (by rewrite K4, page_used_insert, decide_True).
  assert (∀ l i, tables T' !! l = Some i → tables T !! l = Some i ∨ page_used (memory_pages s) i = 0) as Hnew.
  { intros l i Hi. destruct (g_new _ _ _ _ _ _ G l i Hi) as [H|H]; [by left|]. right.
    destruct (decide (page_used (memory_pages s) i = 0)) as [|Hd]; [done|]. by apply Hup in Hd. }
  assert (∀ i, page_used (memory_pages s0) i ≠ 0 → page_used (memory_pages s) i ≠ 0) as Hu0 by apply L.
  assert (∀ i, page_used (memory_pages s) i = 0 → page_used (memory_pages s0) i = 0) as Hu0'.
  { intros i Hi. destruct (decide (page_used (memory_pages s0) i = 0)) as [|Hd]; [done|]. by apply Hu0 in Hd. }
  assert (∀ l j, tables T !! l = Some j → page_used (memory_pages s) j ≠ 0) as Htu
    by (intros l j Hj; by destruct (pt_page _ _ (sp_PT _ _ _ _ Hsp) _ _ Hj) as (_ & ? & _)).
  assert (∀ l, tables T' !! l ≠ Some f) as Hfn.
  { intros l Hi. destruct (g_new _ _ _ _ _ _ G l f Hi) as [H|H]; [by apply Htu in H|done]. }
  (* A page in use that is no table keeps its bytes, and is not the new one. *)
  assert (∀ j, page_used (memory_pages s) j ≠ 0 → (∀ l, tables T !! l ≠ Some j) → same_page s (put_code k f s1) j) as Hsame.
  { intros i Hi Hti. eapply same_page_trans; [apply (take_page_same f)|eapply same_page_trans].
    - congruence.
    - apply (g_pages _ _ _ _ _ _ G); [by apply Hup|exact Hti].
    - apply put_code_same; [lia|done|congruence]. }
  assert (same_below s0 s1) as Hbelow.
  { eapply same_below_trans; [apply L|]. eapply same_below_trans; [by apply take_page_below|apply G]. }
  exists s1, T', m'. split; [exact E|]. split; [exact Hf|].
  split; [|split; [|split; [apply G|split; [exact Ht|split; [exact Hn|split; [exact Hus|split; [exact Hr|]]]]]]].
  - split.
    + intros j Hj. destruct (decide (j = k)) as [->|Hne].
      * exists f. split; [rewrite Hl; apply lookup_insert_eq|]. split; [by apply Hu0'|].
        split; [rewrite L4, (g_used _ _ _ _ _ _ G) by exact Hff; exact Hff|]. split; [exact Hfn|].
        intros off Ho. apply put_code_code; [lia|done|done|exact Hbelow|].
        intros o Hoo. rewrite (g_pages _ _ _ _ _ _ G f Hff) by (done || intros l H; by apply Htu in H).
        by rewrite take_page_byte, decide_True by lia.
      * destruct (ld_page _ _ _ L j ltac:(lia)) as (fj & F1 & F2 & F3 & F4 & F5). exists fj.
        split; [rewrite Hl, lookup_insert_ne; [exact F1|intros Hp; apply Hne; symmetry; apply page_va_inj; [lia|lia|exact Hp]]|].
        split; [exact F2|]. split; [rewrite L4, (g_used _ _ _ _ _ _ G) by (by apply Hup); by apply Hup|]. split.
        -- intros l Hi. destruct (Hnew l fj Hi) as [H|H]; [by apply (F4 l)|done].
        -- intros off Ho. rewrite <- F5 by done. by apply Hsame.
    + intros l Hnl. rewrite Hl, lookup_insert_ne by (intros <-; by apply (Hnl k); [lia|]).
      apply (ld_rest _ _ _ L). intros j Hj. apply Hnl. lia.
    + intros l j Hj. destruct (Hnew l j Hj) as [H|H]; [by apply (ld_tables _ _ _ L l)|by apply Hu0'].
    + intros j Hj%Hu0. rewrite L4, (g_used _ _ _ _ _ _ G) by (by apply Hup). by apply Hup.
    + intros j Hj. eapply same_page_trans; [by apply (ld_same _ _ _ L)|]. apply Hsame; [by apply Hu0|].
      intros l Hi. by apply Hj, (ld_tables _ _ _ L l).
    + eapply same_below_trans; [exact Hbelow|]. apply put_code_below; [lia|done].
    + destruct (g_kernel _ _ _ _ _ _ G) as [m1 Hm1]. destruct (ld_kernel _ _ _ L) as [m2 Hm2].
      exists m1. by rewrite L1, Hm1, K1, Hm2, set_mm_set.
  - apply (space_same p s1); [exact Hsp1|exact L1| |by rewrite L4].
    intros l j Hj. apply put_code_same; [lia|done|]. intros ->. by apply (Hfn l).
  - rewrite L4. pose proof (grows_length _ _ _ _ _ _ G) as H. rewrite K4, (free_list_take _ _ _ Hfl) in H. exact H.
Qed.

(** *** copy_code *)

(** What loading [n] pages from page [i] on needs. *)
Record load_ready (i : Z) (n : nat) (s : Machine) (T : Tables) (m : mm_struct) : Prop := mk_load_ready {
  lr_users : 0 ≤ n_user_pages m ∧ n_user_pages m + Z.of_nat n ≤ MAX_PROCESS_PAGES ∧
    length (user_pages m) = Z.to_nat MAX_PROCESS_PAGES;
  lr_room : mm_room (needed T (code_pages i n)) m;
  lr_free : needed T (code_pages i n) + Z.of_nat n ≤ Z.of_nat (length (free_list (memory_pages s)))
}.

Lemma load_step i n s T m :
  0 ≤ i < 2 ^ 36 → space p s T m → loaded i s T → load_ready i (S n) s T m →
  ∃ f s1 T' m', allocate_user_page p (page_va i) s = Done (kva f, s1) ∧ page_index f ∧
    loaded (i + 1) (put_code i f s1) T' ∧ space p (put_code i f s1) T' m' ∧ load_ready (i + 1) n (put_code i f s1) T' m'.
Proof.
  intros Hi Hsp L [(Hu1 & Hu2 & Hu3) Hroom Hfree]. rewrite code_pages_cons in *. rewrite Nat2Z.inj_succ in *.
  pose proof (needed_nonneg T (page_va i :: code_pages (i + 1) n)) as Hpos.
  destruct (free_list (memory_pages s)) as [|f fl] eqn:Hfl; [simpl in Hfree; lia|]. cbn [length] in Hfree.
  assert (missing T (page_va i) ≤ needed T (page_va i :: code_pages (i + 1) n)) as Hmiss.
  { rewrite missing_size. unfold needed, paths_of. cbn [fmap list_fmap concat]. rewrite list_to_set_app_L.
    apply inj_le, subseteq_size. set_solver. }
  unfold MAX_PROCESS_PAGES in *.
  destruct (load_page i s T m f fl Hi Hsp L Hfl) as (s1 & T' & m' & E & Hf & L' & Hsp' & Hsub & Ht & Hn & Hl & Hr & Hlen);
    [by eapply mm_room_weaken|lia|split; unfold MAX_PROCESS_PAGES; lia|].
  pose proof (needed_step T T' (page_va i) (code_pages (i + 1) n) Hsub Ht) as Hneed.
  exists f, s1, T', m'. split; [exact E|]. split; [exact Hf|]. split; [exact L'|]. split; [exact Hsp'|]. split.
  - rewrite Hn, Hl. unfold MAX_PROCESS_PAGES. lia.
  - eapply mm_room_weaken; [|exact (Hr _ Hroom Hmiss)]. lia.
  - lia.
Qed.

Lemma copy_code_loop_run n : ∀ i s T m, size < 2 ^ 64 →
  0 ≤ i → i + Z.of_nat n < 2 ^ 36 → space p s T m → loaded i s T → load_ready i n s T m →
  ∃ s' T' m', copy_code_loop n p start size i (Z.min (page_va i) size) s = Done (tt, s') ∧
    space p s' T' m' ∧ loaded (i + Z.of_nat n) s' T'.
Proof.
  induction n as [|n IH]; intros i s T m Hs64 Hi Hin Hsp L Hr.
  { exists s, T, m. rewrite Z.add_0_r. by split; [|split]. }
  destruct (load_step i n s T m ltac:(lia) Hsp L Hr) as (f & s1 & T1 & m1 & E & Hf & L1 & Hsp1 & Hr1).
  destruct (IH (i + 1) (put_code i f s1) T1 m1 Hs64 ltac:(lia) ltac:(lia) Hsp1 L1 Hr1) as (s' & T' & m' & E' & Hsp' & L').
  exists s', T', m'. split; [|split; [exact Hsp'|by replace (i + Z.of_nat (S n)) with (i + 1 + Z.of_nat n) by lia]].
  cbn [copy_code_loop]. fold (page_va i). erewrite bind_done by exact E. rewrite <- E'. clear IH E E' L L1 L' Hr Hr1.
  assert (page_va (i + 1) = page_va i + PAGE_SIZE) as Hnext by (unfold page_va; lia).
  destruct (decide (page_va i < size)) as [Hlt|Hge].
  - rewrite (proj2 (Z.ltb_lt _ _)) by lia. rewrite (Z.min_l (page_va i)) by lia.
    assert (0 ≤ page_va i ∧ kva 0 < 2 ^ 64) as [Hp Hk0] by (unfold page_va; mm_consts; lia).
    assert (1 ≤ chunk i ≤ PAGE_SIZE ∧ page_va i + chunk i = Z.min (page_va (i + 1)) size) as [Hc Hnext']
      by (unfold chunk, PAGE_SIZE in *; lia).
    rewrite (u64_id (size - page_va i)) by lia.
    assert ((if PAGE_SIZE <? size - page_va i then PAGE_SIZE else s32 (size - page_va i)) = chunk i) as ->.
    { unfold chunk, PAGE_SIZE in *. case_bool; [lia|]. rewrite s32_id; lia. }
    rewrite (u64_id (page_va i + chunk i)), Hnext' by lia. rewrite u64_id by lia. by rewrite (put_code_yes i f s1 Hlt).
  - rewrite (proj2 (Z.ltb_ge _ _)) by lia. rewrite (put_code_no i f s1) by lia. unfold PAGE_SIZE in *.
    by rewrite !Z.min_r by lia.
Qed.

(** copy_code fills the first 16 pages. *)
Lemma copy_code_run m : size < 2 ^ 64 → space p s0 no_tables m → load_ready 0 16 s0 no_tables m →
  ∃ s' T' m', copy_code p start size s0 = Done (tt, s') ∧ space p s' T' m' ∧ loaded 16 s' T'.
Proof.
  intros Hs Hsp Hr.
  destruct (copy_code_loop_run 16 0 s0 no_tables m Hs ltac:(lia) ltac:(lia) Hsp loaded_nothing Hr) as (s' & T' & m' & E & H).
  exists s', T', m'. split; [|exact H]. unfold copy_code. rewrite <- E. by rewrite Z.min_l by (unfold page_va; lia).
Qed.

(** ** What the program sees *)

(** The byte that a load from the virtual address gives. *)
Definition user_byte (s : Machine) (m : mm_struct) (va : Z) : option Z :=
  (λ a, byte_at (ram s) (a + VA_START)) <$> user_map (ram s) m va.

Lemma loaded_byte s T m va : space p s T m → loaded 16 s T → 0 ≤ va < 16 * PAGE_SIZE → user_byte s m va = Some (code_byte va).
Proof.
  intros Hsp L Hva. unfold user_byte. rewrite (user_map_space _ _ _ _ _ Hsp).
  assert (Z.land va (PAGE_SIZE - 1) = va mod PAGE_SIZE) as Hmod.
  { unfold PAGE_SIZE. change (4096 - 1) with (Z.ones 12). by rewrite Z.land_ones by lia. }
  assert (0 ≤ va / PAGE_SIZE < 16) as Hk by (unfold PAGE_SIZE in *; split; [apply Z.div_pos|apply Z.div_lt_upper_bound]; lia).
  destruct (ld_page _ _ _ L _ Hk) as (f & F1 & _ & _ & _ & F5).
  assert (path4 va = path4 (page_va (va / PAGE_SIZE))) as ->.
  { apply path4_vpn. rewrite vpn_page by lia. unfold vpn. apply Z.mod_small. lia. }
  rewrite F1. cbn [fmap option_fmap option_map]. f_equal. rewrite Hmod.
  replace (page_addr f + va mod PAGE_SIZE + VA_START) with (kva f + va mod PAGE_SIZE) by (unfold kva; lia).
  rewrite F5 by (apply Z.mod_pos_bound; done). f_equal. unfold page_va. rewrite Z.mul_comm. symmetry. by apply Z.div_mod.
Qed.

Lemma loaded_unmapped s T m va : space p s T m → loaded 16 s T → 16 ≤ vpn va → user_byte s m va = None.
Proof.
  intros Hsp L Hva. unfold user_byte. rewrite (user_map_space _ _ _ _ _ Hsp), (ld_rest _ _ _ L); [done|].
  intros k Hk E%path4_vpn. rewrite vpn_page in E by lia. lia.
Qed.
End load.

(** ** The registers *)
Definition user_frame (p : ptr) (pc : Z) (m : mem) : mem :=
  let regs := task_pt_regs p in
  store64 (regs + PT_REGS_SP) (16 * PAGE_SIZE) (store64 (regs + PT_REGS_PC) pc
    (store64 (regs + PT_REGS_PSTATE) PSR_MODE_EL0t (memzero regs PT_REGS_SIZE m))).

Lemma user_frame_outside p pc m a : a < task_pt_regs p ∨ task_pt_regs p + PT_REGS_SIZE ≤ a →
  byte_at (user_frame p pc m) a = byte_at m a.
Proof.
  intros Ha. unfold user_frame, PT_REGS_SP, PT_REGS_PC, PT_REGS_PSTATE, PT_REGS_SIZE in *.
  rewrite !byte_at_store_le, memzero_spec by lia. change (Z.of_nat 8) with 8. change (zeroed 272) with 272.
  by rewrite !decide_False by lia.
Qed.

(** Register 31 is sp, 32 is pc and 33 is pstate. *)
Lemma user_frame_word p pc m i : 0 ≤ i < 34 → 0 ≤ pc < 2 ^ 64 →
  trap_word (user_frame p pc m) p i = if i =? 31 then 16 * PAGE_SIZE else if i =? 32 then pc else 0.
Proof.
  intros Hi Hpc. unfold trap_word, user_frame, PT_REGS_SP, PT_REGS_PC, PT_REGS_PSTATE, PT_REGS_SIZE, PSR_MODE_EL0t.
  set (regs := task_pt_regs p).
  destruct (i =? 31) eqn:E1; zify_bools.
  { rewrite E1, load_store_le. apply Z.mod_small. unfold PAGE_SIZE. lia. }
  rewrite load_store_disjoint by lia. destruct (i =? 32) eqn:E2; zify_bools.
  { rewrite E2, load_store_le. by apply Z.mod_small. }
  rewrite load_store_disjoint by lia. destruct (decide (i = 33)) as [->|H3]; [by rewrite load_store_le|].
  rewrite load_store_disjoint by lia. apply load_le_zero. intros x Hx. change (Z.of_nat 8) with 8 in Hx.
  rewrite memzero_spec by lia. change (zeroed 272) with 272. by rewrite decide_True by lia.
Qed.

Lemma user_frame_run {B} p pc (g : M Machine B) s :
  (let regs := task_pt_regs p in
   set_ram (memzero regs PT_REGS_SIZE);;
   set_ram (store64 (regs + PT_REGS_PSTATE) PSR_MODE_EL0t);;
   set_ram (store64 (regs + PT_REGS_PC) pc);;
   set_ram (store64 (regs + PT_REGS_SP) (16 * PAGE_SIZE));; g) s = g (with_ram (user_frame p pc (ram s)) s).
Proof. cbv zeta. unfold set_ram. rewrite !bind_modify. reflexivity. Qed.

Lemma get_current_run s : on_kernel get_current s = Done (cur (kernel s), s).
Proof. destruct s as [[? ? ? []] ? ? ? ?]. reflexivity. Qed.

#[local] Opaque user_frame task_pt_regs.

(** ** move_to_user_mode *)
Lemma user_frame_same f pc s j : page_index f → j ≠ f → same_page s (with_ram (user_frame (kva f) pc (ram s)) s) j.
Proof.
  intros Hf Hj off Ho. cbn [ram with_ram]. pose proof (page_apart j f Hj).
  apply user_frame_outside. rewrite task_pt_regs_page by done. unfold PT_REGS_SIZE, PAGE_SIZE in *. lia.
Qed.

Lemma user_frame_below f pc s : page_index f → same_below s (with_ram (user_frame (kva f) pc (ram s)) s).
Proof.
  intros Hf a Ha. cbn [ram with_ram]. pose proof (kva_below f a Hf Ha).
  apply user_frame_outside. rewrite task_pt_regs_page by done. lia.
Qed.

Lemma load_ready_new s : 20 ≤ Z.of_nat (length (free_list (memory_pages s))) → load_ready 0 16 s no_tables zero_mm.
Proof.
  intros Hfree. assert (needed no_tables (code_pages 0 16) = 4) as Hn by (vm_compute; reflexivity).
  split; rewrite ?Hn; [by vm_compute| |lia]. by vm_compute.
Qed.

(** The first program is loaded.  When a process without memory of its own
    calls move_to_user_mode(start, size, pc), the code lies in the kernel's image
    and 20 pages are free, the call returns 0 and TTBR0 holds the root of tables
    through which the processor reads, at every virtual address below 16 pages,
    the byte of the code at that offset, or 0 past its end (what is longer is cut
    without an error); no other address is mapped.  The process leaves the kernel
    with pc in the program counter, the end of the 16 pages in sp, and 0 in every
    other register and in pstate; no page in use but its own, and nothing below
    the pages, has changed. *)
Theorem move_to_user_mode_spec start size pc s f :
  0 ≤ start → 0 ≤ size < 2 ^ 64 → start + size ≤ kva 0 → 0 ≤ pc < 2 ^ 64 →
  page_index f → page_used (memory_pages s) f ≠ 0 → cur (kernel s) = kva f → mm_of (kva f) s = Some zero_mm →
  20 ≤ Z.of_nat (length (free_list (memory_pages s))) →
  ∃ s' m', move_to_user_mode start size pc s = Done (0, s') ∧
    mm_of (kva f) s' = Some m' ∧ ttbr0 (globals (kernel s')) = pgd m' ∧
    (∀ va, 0 ≤ va < 16 * PAGE_SIZE → user_byte s' m' va = Some (code_byte start size s va)) ∧
    (∀ va, 16 ≤ vpn va → user_byte s' m' va = None) ∧
    (∀ i, 0 ≤ i < 34 → trap_word (ram s') (kva f) i = if i =? 31 then 16 * PAGE_SIZE else if i =? 32 then pc else 0) ∧
    (∀ j, page_used (memory_pages s) j ≠ 0 → j ≠ f → same_page s s' j) ∧ same_below s s'.
Proof.
  intros Hstart Hsize Hcode Hpc Hf Hfu Hcur Hmm Hfree.
  set (s1 := with_ram (user_frame (kva f) pc (ram s)) s).
  assert (space (kva f) s1 no_tables zero_mm) as Hsp by (split; [exact Hmm|apply no_tables_PT|done]).
  destruct (copy_code_run (kva f) start size s1 Hstart (proj1 Hsize) Hcode zero_mm (proj2 Hsize) Hsp (load_ready_new s1 Hfree))
    as (s2 & T & m & E & Hsp2 & L).
  destruct (ld_kernel _ _ _ _ _ _ _ L) as [mk Hk].
  pose proof (set_mm_own (kva f) s1 zero_mm s2 mk m Hmm Hk (sp_mm _ _ _ _ Hsp2)) as Hk2.
  pose proof (sp_mm _ _ _ _ Hsp2) as Hm2. destruct (proj1 (fmap_Some _ _ _) Hm2) as (c & Hc & Hcm).
  assert (cur (kernel s2) = kva f) as Hcur2 by (by rewrite Hk2).
  exists (with_kernel (with_globals (with_ttbr0 (pgd m) (globals (kernel s2))) (kernel s2)) s2), m.
  split; [|split; [exact Hm2|split; [reflexivity|]]].
  - unfold move_to_user_mode.
    rewrite (bind_done _ _ _ _ _ (get_current_run s)), Hcur, user_frame_run. fold s1.
    rewrite (bind_done _ _ _ _ _ (get_current_run s1)). change (cur (kernel s1)) with (cur (kernel s)). rewrite Hcur.
    rewrite (bind_done _ _ _ _ _ E), (bind_done _ _ _ _ _ (get_current_run s2)), Hcur2.
    rewrite (bind_done _ _ s2 c s2) by (erewrite on_kernel_done by (by apply load_some); by rewrite with_kernel_same).
    erewrite bind_done by (by apply on_kernel_done). by rewrite <- Hcm.
  - assert (∀ va, 0 ≤ va → code_byte start size s1 va = code_byte start size s va) as Hsame.
    { intros va Hva. unfold code_byte. case_decide; [|done]. apply user_frame_below; [exact Hf|lia]. }
    split; [|split; [|split; [|split]]].
    + intros va Hva. rewrite <- Hsame by lia. by apply (loaded_byte (kva f) start size s1 s2 T m va).
    + intros va. by apply (loaded_unmapped (kva f) start size s1 s2 T m va).
    + intros i Hi. rewrite <- (user_frame_word (kva f) pc (ram s) i Hi Hpc).
      apply load_le_ext. intros x Hx. change (Z.of_nat 8) with 8 in Hx. rewrite task_pt_regs_page in Hx by exact Hf.
      replace x with (kva f + (x - kva f)) by lia. apply (ld_same _ _ _ _ _ _ _ L f Hfu). unfold PAGE_SIZE. lia.
    + intros j Hj Hne. eapply same_page_trans; [by apply user_frame_same|]. by apply (ld_same _ _ _ _ _ _ _ L).
    + eapply same_below_trans; [by apply user_frame_below|apply (ld_below _ _ _ _ _ _ _ L)].
Qed.

(** A kernel thread in page 0; the code is three bytes at 0x80000. *)
Definition first_kernel : Kernel :=
  with_heap {[ kva 0 := zero_PCB ]}
    (with_globals (with_current_process (kva 0) (boot_globals MLFQ (λ _, 0))) (boot_kernel MLFQ (λ _, 0))).
Definition first_code : Z := VA_START + 0x80000.
Definition first_machine : Machine :=
  machine_with first_kernel {[ 0 := 1 ]} (<[first_code := 7]> (<[first_code + 1 := 8]> {[ first_code + 2 := 9 ]})).

Lemma first_pages : 20 ≤ Z.of_nat (length (free_list (memory_pages first_machine))).
Proof.
  apply (Nat2Z.inj_le 20), (free_list_at_least (seqZ 1 20)); [apply NoDup_seqZ|].
  intros i Hi%elem_of_seqZ. cbn [memory_pages first_machine machine_with]. unfold page_index. rewrite N_PAGES_value.
  rewrite <- insert_empty, page_used_insert, page_used_empty, decide_False by lia. lia.
Qed.

Lemma first_bytes :
  code_byte first_code 3 first_machine 2 = 9 ∧ code_byte first_code 3 first_machine 3 = 0 ∧
  code_byte first_code 3 first_machine 65535 = 0 ∧ 16 ≤ vpn 65536.
Proof. vm_compute. repeat split. discriminate. Qed.

Lemma move_to_user_mode_spec_witness :
  ∃ s' m', move_to_user_mode first_code 3 1 first_machine = Done (0, s') ∧ ttbr0 (globals (kernel s')) = pgd m' ∧
    user_byte s' m' 2 = Some 9 ∧ user_byte s' m' 3 = Some 0 ∧ user_byte s' m' 65535 = Some 0 ∧ user_byte s' m' 65536 = None ∧
    trap_word (ram s') (kva 0) 32 = 1.
Proof.
  destruct (move_to_user_mode_spec first_code 3 1 first_machine 0) as (s' & m' & E & _ & Ht & Hin & Hout & Hw & _).
  - by vm_compute.
  - by vm_compute.
  - by vm_compute.
  - by vm_compute.
  - unfold page_index. rewrite N_PAGES_value. lia.
  - by vm_compute.
  - by vm_compute.
  - by vm_compute.
  - exact first_pages.
  - destruct first_bytes as (C2 & C3 & C4 & C5).
    exists s', m'. split; [exact E|]. split; [exact Ht|]. unfold PAGE_SIZE in Hin.
    rewrite (Hin 2), (Hin 3), (Hin 65535), C2, C3, C4 by (split; done). clear E Ht Hin.
    split; [reflexivity|]. split; [reflexivity|]. split; [reflexivity|].
    split; [exact (Hout 65536 C5)|]. clear Hout. rewrite (Hw 32) by lia. reflexivity.
Defined.
