(* ===== verification/Exceptions.v ===== *)
(** * Entering and leaving the kernel: drivers/irq/entry.S and vector.S

    The macros kernel_entry and kernel_exit, instruction by instruction, the vectors,
    and the two handlers whose code is here: el0_sync's choice and el0_da.  [xregs] is
    the list of the registers x0 to x30; the stack pointer of the kernel is [ksp],
    that of the user [usp]. *)
From stdpp Require Import base gmap list.
From Stdlib Require Import ZArith Lia.
From S2P Require Import Prelude Mem Kernel Scheduler Machine Uart Irq Mm MmSpec Fork ForkSpec UserMode.

#[local] Open Scope Z_scope.
#[local] Opaque memzero memcpy store_le load_le byte_at put_byte.

Record Regs : Type := mk_Regs {
  xregs : list Z;
  ksp : Z;
  usp : Z;
  elr : Z;
  spsr : Z
}.

Definition with_x (l : list Z) (r : Regs) : Regs := mk_Regs l (ksp r) (usp r) (elr r) (spsr r).
Definition with_ksp (v : Z) (r : Regs) : Regs := mk_Regs (xregs r) v (usp r) (elr r) (spsr r).
Definition with_usp (v : Z) (r : Regs) : Regs := mk_Regs (xregs r) (ksp r) v (elr r) (spsr r).
Definition with_elr (v : Z) (r : Regs) : Regs := mk_Regs (xregs r) (ksp r) (usp r) v (spsr r).
Definition with_spsr (v : Z) (r : Regs) : Regs := mk_Regs (xregs r) (ksp r) (usp r) (elr r) v.

Definition reg (i : nat) (r : Regs) : Z := nth i (xregs r) 0.
Definition set_reg (i : nat) (v : Z) (r : Regs) : Regs := with_x (<[i := v]> (xregs r)) r.

Definition S_FRAME_SIZE : Z := 272.

(** [stp xi, xj, [sp, #offset]] and [ldp] *)
Definition stp (i j : nat) (offset : Z) (r : Regs) (m : mem) : mem :=
  store64 (ksp r + offset + 8) (reg j r) (store64 (ksp r + offset) (reg i r) m).
Definition ldp (i j : nat) (offset : Z) (m : mem) (r : Regs) : Regs :=
  set_reg j (load64 (ksp r + offset + 8) m) (set_reg i (load64 (ksp r + offset) m) r).

(** The 15 instructions for x0 to x29. *)
Definition stp_all (r : Regs) (m : mem) : mem :=
  foldl (λ m k, stp (2 * k) (2 * k + 1) (16 * Z.of_nat k) r m) m (seq 0 15).
Definition ldp_all (m : mem) (r : Regs) : Regs :=
  foldl (λ r k, ldp (2 * k) (2 * k + 1) (16 * Z.of_nat k) m r) r (seq 0 15).

Definition kernel_entry (el : Z) (r : Regs) (m : mem) : Regs * mem :=
  let r := with_ksp (u64 (ksp r - S_FRAME_SIZE)) r in
  let m := stp_all r m in
  let r := set_reg 21 (if el =? 0 then usp r else u64 (ksp r + S_FRAME_SIZE)) r in
  let r := set_reg 22 (elr r) r in
  let r := set_reg 23 (spsr r) r in
  let m := stp 30 21 (16 * 15) r m in
  let m := stp 22 23 (16 * 16) r m in
  (r, m).

(** Up to [eret], which goes on at [elr]. *)
Definition kernel_exit (el : Z) (m : mem) (r : Regs) : Regs :=
  let r := ldp 22 23 (16 * 16) m r in
  let r := ldp 30 21 (16 * 15) m r in
  let r := if el =? 0 then with_usp (reg 21 r) r else r in
  let r := with_elr (reg 22 r) r in
  let r := with_spsr (reg 23 r) r in
  let r := ldp_all m r in
  with_ksp (u64 (ksp r + S_FRAME_SIZE)) r.

(** ** The vectors *)

(** [Invalid el type] shows the message of that number and hangs. *)
Inductive handler : Type :=
| Invalid (el type : Z)
| el1_irq
| el0_sync
| el0_irq.

Definition vectors : list handler := [
  Invalid 1 0; Invalid 1 1; Invalid 1 2; Invalid 1 3;
  Invalid 1 4; el1_irq; Invalid 1 6; Invalid 1 7;
  el0_sync; el0_irq; Invalid 0 10; Invalid 0 11;
  Invalid 0 12; Invalid 0 13; Invalid 0 14; Invalid 0 15].

(** ** Synchronous exceptions of a process *)
Definition ESR_ELx_EC_SHIFT : Z := 26.
Definition ESR_ELx_EC_SVC64 : Z := 0x15.
Definition ESR_ELx_EC_DABT_LOW : Z := 0x24.
Definition DATA_ABORT_ERROR : Z := 15.
Definition SYNC_ERROR : Z := 16.

Inductive sync : Type :=
| Svc
| DataAbort
| Unexpected (type : Z).

Definition el0_sync_target (esr : Z) : sync :=
  let x24 := Z.shiftr esr ESR_ELx_EC_SHIFT in
  if x24 =? ESR_ELx_EC_SVC64 then Svc
  else if x24 =? ESR_ELx_EC_DABT_LOW then DataAbort
  else Unexpected SYNC_ERROR.

(** After the message, err_hang: [Hangs] is for ever. *)
Inductive resume : Type :=
| Exits
| Hangs.

Definition handle_invalid_entry (type esr elr : Z) : M Machine resume :=
  show_invalid_entry_message type esr elr;;
  mret Hangs.

Definition el0_da (far esr elr : Z) : M Machine resume :=
  on_kernel enable_irq;;
  r ← do_mem_abort far esr;
  if r =? 0 then on_kernel disable_irq;; mret Exits
  else handle_invalid_entry DATA_ABORT_ERROR esr elr.

(** ** ret_from_fork

    The registers are those of the switch to the new process; [call] runs the kernel
    function at the address in x19 with the argument in x0. *)
Definition ret_from_fork (call : Z → Z → M Machine unit) (r : Regs) : M Machine Regs :=
  on_kernel schedule_tail;;
  (if reg 19 r =? 0 then mret tt else call (reg 19 r) (reg 20 r));;
  on_kernel disable_irq;;
  m ← get_ram;
  mret (kernel_exit 0 m r).

(** ** The frame *)

(** A word of the frame at [p]: 0 to 30 are the registers, 31 the stack pointer, 32
    the program counter and 33 the processor's state, as in struct pt_regs. *)
Definition frame_word (m : mem) (p i : Z) : Z := load64 (p + 8 * i) m.

Record regs_ok (r : Regs) : Prop := mk_regs_ok {
  ro_length : length (xregs r) = 31%nat;
  ro_x : ∀ i, 0 ≤ reg i r < 2 ^ 64;
  ro_usp : 0 ≤ usp r < 2 ^ 64;
  ro_elr : 0 ≤ elr r < 2 ^ 64;
  ro_spsr : 0 ≤ spsr r < 2 ^ 64
}.

Lemma reg_set i j v r : (i < length (xregs r))%nat → reg j (set_reg i v r) = if decide (i = j) then v else reg j r.
Proof.
  intros Hi. unfold reg, set_reg. cbn [xregs with_x]. rewrite !nth_lookup. case_decide as E.
  - subst. by rewrite list_lookup_insert_eq.
  - by rewrite list_lookup_insert_ne.
Qed.

Lemma frame_word_store p i v m j : 0 ≤ v < 2 ^ 64 →
  frame_word (store64 (p + 8 * i) v m) p j = if decide (j = i) then v else frame_word m p j.
Proof.
  intros Hv. unfold frame_word. case_decide as E.
  - subst. rewrite load_store_le. by apply Z.mod_small.
  - apply load_store_disjoint. change (Z.of_nat 8) with 8. lia.
Qed.

(** *** Pairs of registers *)
Lemma stp_word i j k r m n : regs_ok r →
  frame_word (stp i j (16 * k) r m) (ksp r) n =
    if decide (n = 2 * k + 1) then reg j r else if decide (n = 2 * k) then reg i r else frame_word m (ksp r) n.
Proof.
  intros Hr. unfold stp. replace (ksp r + 16 * k + 8) with (ksp r + 8 * (2 * k + 1)) by lia.
  replace (ksp r + 16 * k) with (ksp r + 8 * (2 * k)) by lia.
  rewrite !frame_word_store by apply Hr. reflexivity.
Qed.

Lemma stp_outside i j k r m a : a < ksp r + 16 * k ∨ ksp r + 16 * k + 16 ≤ a →
  byte_at (stp i j (16 * k) r m) a = byte_at m a.
Proof. intros Ha. unfold stp. rewrite !byte_at_store_le. change (Z.of_nat 8) with 8. by rewrite !decide_False by lia. Qed.

Lemma stp_all_word r m n : regs_ok r → 0 ≤ n →
  frame_word (stp_all r m) (ksp r) n = if decide (n < 30) then reg (Z.to_nat n) r else frame_word m (ksp r) n.
Proof.
  intros Hr Hn. cut (∀ t, frame_word (foldl (λ m k, stp (2 * k) (2 * k + 1) (16 * Z.of_nat k) r m) m (seq 0 t)) (ksp r) n =
    if decide (n < 2 * Z.of_nat t) then reg (Z.to_nat n) r else frame_word m (ksp r) n); [intros H; exact (H 15%nat)|].
  induction t as [|t IH]; [by rewrite decide_False by (simpl; lia)|].
  rewrite seq_S, foldl_snoc, stp_word, IH by done. cbn [Nat.add].
  repeat case_decide; try lia; try done; f_equal; lia.
Qed.

Lemma stp_all_outside r m a : a < ksp r ∨ ksp r + 240 ≤ a → byte_at (stp_all r m) a = byte_at m a.
Proof.
  intros Ha. cut (∀ t, (t ≤ 15)%nat → byte_at (foldl (λ m k, stp (2 * k) (2 * k + 1) (16 * Z.of_nat k) r m) m (seq 0 t)) a = byte_at m a);
    [intros H; by apply H|].
  induction t as [|t IH]; intros Ht; [done|]. rewrite seq_S, foldl_snoc, stp_outside by lia. apply IH. lia.
Qed.

(** A load of a pair: the registers it does not name, and all the others, are kept. *)
Record loads (m : mem) (r r' : Regs) (f : nat → option Z) : Prop := mk_loads {
  ls_length : length (xregs r') = length (xregs r);
  ls_reg : ∀ n, reg n r' = match f n with Some i => frame_word m (ksp r) i | None => reg n r end;
  ls_ksp : ksp r' = ksp r;
  ls_usp : usp r' = usp r;
  ls_elr : elr r' = elr r;
  ls_spsr : spsr r' = spsr r
}.

Lemma ldp_loads i j k m r : length (xregs r) = 31%nat → (i < 31)%nat → (j < 31)%nat →
  loads m r (ldp i j (16 * k) m r) (λ n, if decide (j = n) then Some (2 * k + 1) else if decide (i = n) then Some (2 * k) else None).
Proof.
  intros Hl Hi Hj. split; try done.
  - unfold ldp, set_reg. cbn [xregs with_x]. by rewrite !length_insert.
  - intros n. unfold ldp. rewrite reg_set by (unfold set_reg; cbn [xregs with_x]; rewrite length_insert; lia).
    rewrite reg_set by lia. unfold frame_word.
    replace (ksp r + 16 * k + 8) with (ksp r + 8 * (2 * k + 1)) by lia. replace (ksp r + 16 * k) with (ksp r + 8 * (2 * k)) by lia.
    repeat case_decide; done.
Qed.

Lemma ldp_all_loads m r : length (xregs r) = 31%nat →
  loads m r (ldp_all m r) (λ n, if decide (n < 30)%nat then Some (Z.of_nat n) else None).
Proof.
  intros Hl. cut (∀ t, (t ≤ 15)%nat → loads m r (foldl (λ r k, ldp (2 * k) (2 * k + 1) (16 * Z.of_nat k) m r) r (seq 0 t))
    (λ n, if decide (n < 2 * t)%nat then Some (Z.of_nat n) else None)); [intros H; by apply (H 15%nat)|].
  induction t as [|t IH]; intros Ht; [split; done|]. rewrite seq_S, foldl_snoc. cbn [Nat.add].
  destruct (IH ltac:(lia)) as [H1 H2 H3 H4 H5 H6]. set (r1 := foldl _ r (seq 0 t)) in *.
  destruct (ldp_loads (2 * t) (2 * t + 1) (Z.of_nat t) m r1 ltac:(congruence) ltac:(lia) ltac:(lia)) as [L1 L2 L3 L4 L5 L6].
  split; try congruence. intros n. rewrite L2, H2, H3.
  repeat case_decide; try lia; try done; f_equal; lia.
Qed.

#[local] Opaque stp_all ldp_all stp ldp.

Lemma reg_with_ksp n v r : reg n (with_ksp v r) = reg n r.
Proof. reflexivity. Qed.

(** *** kernel_exit loads the frame *)
Lemma kernel_exit_frame el m r : length (xregs r) = 31%nat → 0 ≤ ksp r → ksp r + S_FRAME_SIZE < 2 ^ 64 →
  let r' := kernel_exit el m r in
  (∀ n, (n < 31)%nat → reg n r' = frame_word m (ksp r) (Z.of_nat n)) ∧ ksp r' = ksp r + S_FRAME_SIZE ∧
  usp r' = (if el =? 0 then frame_word m (ksp r) 31 else usp r) ∧
  elr r' = frame_word m (ksp r) 32 ∧ spsr r' = frame_word m (ksp r) 33.
Proof.
  intros Hl Hk1 Hk2. unfold kernel_exit. cbv zeta.
  destruct (ldp_loads 22 23 16 m r Hl ltac:(lia) ltac:(lia)) as [A1 A2 A3 A4 A5 A6]. set (r1 := ldp 22 23 _ m r) in *. clearbody r1.
  destruct (ldp_loads 30 21 15 m r1 ltac:(congruence) ltac:(lia) ltac:(lia)) as [B1 B2 B3 B4 B5 B6].
  set (r2 := ldp 30 21 _ m r1) in *. clearbody r2.
  set (r3 := if el =? 0 then with_usp (reg 21 r2) r2 else r2).
  assert (xregs r3 = xregs r2 ∧ ksp r3 = ksp r2 ∧ usp r3 = if el =? 0 then reg 21 r2 else usp r2) as (C1 & C2 & C3)
    by (unfold r3; by destruct (el =? 0)).
  clearbody r3. assert (∀ n, reg n r3 = reg n r2) as Er3 by (intros n; unfold reg; by rewrite C1).
  set (r4 := with_spsr (reg 23 (with_elr (reg 22 r3) r3)) (with_elr (reg 22 r3) r3)).
  assert (xregs r4 = xregs r3 ∧ ksp r4 = ksp r3 ∧ usp r4 = usp r3 ∧ elr r4 = reg 22 r3 ∧ spsr r4 = reg 23 r3) as (E1 & E2 & E3 & E4 & E5) by done.
  clearbody r4. assert (∀ n, reg n r4 = reg n r2) as Er4 by (intros n; unfold reg; by rewrite E1, C1).
  destruct (ldp_all_loads m r4) as [D1 D2 D3 D4 D5 D6]; [congruence|]. set (r5 := ldp_all m r4) in *. clearbody r5.
  assert (ksp r5 = ksp r) as Hk by congruence.
  split; [|split; [|split; [|split]]].
  - intros n Hn. rewrite reg_with_ksp, D2, E2, C2, B3, A3. case_decide; [done|].
    rewrite Er4, B2. replace n with 30%nat by lia. rewrite A3. reflexivity.
  - cbn [ksp with_ksp]. rewrite Hk. by rewrite u64_id by (unfold S_FRAME_SIZE in *; lia).
  - cbn [usp with_ksp]. rewrite D4, E3, C3, B2, A3, B4, A4. reflexivity.
  - cbn [elr with_ksp]. rewrite D5, E4, Er3, B2, A2. reflexivity.
  - cbn [spsr with_ksp]. rewrite D6, E5, Er3, B2, A2. reflexivity.
Qed.

(** *** kernel_entry stores it *)
Definition frame_of (el : Z) (r : Regs) (n : Z) : Z :=
  if n <? 31 then reg (Z.to_nat n) r
  else if n =? 31 then (if el =? 0 then usp r else ksp r)
  else if n =? 32 then elr r else spsr r.

Lemma regs_ok_set i v r : regs_ok r → (i < 31)%nat → 0 ≤ v < 2 ^ 64 → regs_ok (set_reg i v r).
Proof.
  intros [H1 H2 H3 H4 H5] Hi Hv. split; try assumption.
  - unfold set_reg. cbn [xregs with_x]. by rewrite length_insert.
  - intros n. rewrite reg_set by lia. case_decide; [exact Hv|apply H2].
Qed.

Lemma kernel_entry_frame el r m : regs_ok r → S_FRAME_SIZE ≤ ksp r < 2 ^ 64 →
  ksp (kernel_entry el r m).1 = ksp r - S_FRAME_SIZE ∧
  (∀ n, 0 ≤ n < 34 → frame_word (kernel_entry el r m).2 (ksp r - S_FRAME_SIZE) n = frame_of el r n) ∧
  ∀ a, a < ksp r - S_FRAME_SIZE ∨ ksp r ≤ a → byte_at (kernel_entry el r m).2 a = byte_at m a.
Proof.
  intros Hr Hk. unfold kernel_entry, S_FRAME_SIZE in *. rewrite u64_id by lia. set (b := ksp r - 272) in *.
  set (r1 := with_ksp b r). assert (regs_ok r1) as H1 by (destruct Hr; by split).
  assert (ksp r1 = b) as K1 by done. cbn [fst snd]. set (m1 := stp_all r1 m).
  set (v := if el =? 0 then usp r1 else u64 (ksp r1 + 272)).
  assert (v = (if el =? 0 then usp r else ksp r) ∧ 0 ≤ v < 2 ^ 64) as [Hv Hv'].
  { unfold v. rewrite K1. unfold b. rewrite u64_id by lia. change (usp r1) with (usp r). pose proof (ro_usp _ Hr).
    case_bool; split; (reflexivity || lia). }
  clearbody v. set (r2 := set_reg 21 v r1). assert (regs_ok r2) as H2 by (apply regs_ok_set; [done|lia|done]).
  set (r3 := set_reg 22 (elr r2) r2). assert (regs_ok r3) as H3 by (apply regs_ok_set; [done|lia|apply H2]).
  set (r4 := set_reg 23 (spsr r3) r3). assert (regs_ok r4) as H4 by (apply regs_ok_set; [done|lia|apply H3]).
  assert (∀ n, reg n r4 = if decide (23 = n)%nat then spsr r else if decide (22 = n)%nat then elr r else
    if decide (21 = n)%nat then v else reg n r) as Er.
  { intros n. unfold r4, r3, r2. rewrite !reg_set by (unfold set_reg; cbn [xregs with_x]; rewrite ?length_insert, (ro_length _ H1); lia).
    repeat case_decide; reflexivity. }
  assert (ksp r4 = b) as K4 by done. clearbody r4. rewrite K4.
  split; [reflexivity|]. split.
  - intros n Hn. rewrite <- K4, !stp_word by exact H4. rewrite !Er. unfold frame_of, m1. rewrite K4, <- K1, stp_all_word by (done || lia).
    change (reg (Z.to_nat n) r1) with (reg (Z.to_nat n) r).
    destruct (decide (n < 30)); [rewrite !decide_False by lia; by rewrite (proj2 (Z.ltb_lt _ _)) by lia|].
    repeat case_decide; try lia; repeat case_bool; try lia; (done || by subst).
  - intros a Ha. rewrite !stp_outside by lia. unfold m1. apply stp_all_outside. lia.
Qed.

#[local] Opaque kernel_entry kernel_exit.

(** ** The stack of a process *)
Lemma task_pt_regs_frame p : 0 ≤ p → p + THREAD_SIZE < 2 ^ 64 → task_pt_regs p = p + THREAD_SIZE - S_FRAME_SIZE.
Proof. unfold task_pt_regs, THREAD_SIZE, PT_REGS_SIZE, S_FRAME_SIZE. intros H1 H2. apply u64_id. lia. Qed.

(** C12: exceptions keep the registers.  From the top of a process's kernel stack,
    kernel_entry stores the registers as the struct pt_regs that task_pt_regs
    finds, register by register, and changes no byte outside it; kernel_exit from
    there, whatever the other registers hold by then, gives back every register,
    the stack pointers, the program counter and the processor's state, with x0 the
    word the handler left for it (the result of a system call). *)
Theorem exception_round_trip el p r m m2 r2 :
  regs_ok r → 0 ≤ p → p + THREAD_SIZE < 2 ^ 64 → ksp r = p + THREAD_SIZE →
  length (xregs r2) = 31%nat → ksp r2 = task_pt_regs p →
  let r1 := (kernel_entry el r m).1 in let m1 := (kernel_entry el r m).2 in let r' := kernel_exit el m2 r2 in
  ksp r1 = task_pt_regs p ∧ (∀ n, 0 ≤ n < 34 → trap_word m1 p n = frame_of el r n) ∧
  (∀ a, a < task_pt_regs p ∨ p + THREAD_SIZE ≤ a → byte_at m1 a = byte_at m a) ∧
  ((∀ n, 0 < n < 34 → trap_word m2 p n = trap_word m1 p n) →
    reg 0 r' = trap_word m2 p 0 ∧ (∀ n, (0 < n < 31)%nat → reg n r' = reg n r) ∧ ksp r' = ksp r ∧
    elr r' = elr r ∧ spsr r' = spsr r ∧ usp r' = if el =? 0 then usp r else usp r2).
Proof.
  intros Hr Hp Hp2 Hk Hl2 Hk2. cbv zeta. pose proof (task_pt_regs_frame p Hp Hp2) as Ht. rewrite <- Hk in *.
  destruct (kernel_entry_frame el r m Hr) as (E1 & E2 & E3); [unfold S_FRAME_SIZE, THREAD_SIZE in *; lia|].
  rewrite <- Ht in E1, E2, E3. split; [exact E1|]. split; [exact E2|]. split; [exact E3|]. intros Hm2.
  destruct (kernel_exit_frame el m2 r2 Hl2) as (X1 & X2 & X3 & X4 & X5); [rewrite Hk2; unfold S_FRAME_SIZE, THREAD_SIZE in *; lia..|].
  rewrite Hk2 in *. unfold trap_word in Hm2. fold (frame_word m2 (task_pt_regs p)) in *.
  assert (∀ n, 0 < n < 34 → frame_word m2 (task_pt_regs p) n = frame_of el r n) as Hw.
  { intros n Hn. rewrite <- (E2 n) by lia. exact (Hm2 n Hn). }
  split; [exact (X1 0%nat ltac:(lia))|]. split; [|split; [rewrite X2; lia|split; [|split]]].
  - intros n Hn. rewrite X1, Hw by lia. unfold frame_of. rewrite (proj2 (Z.ltb_lt _ _)), Nat2Z.id by lia. reflexivity.
  - rewrite X4, Hw by lia. reflexivity.
  - rewrite X5, Hw by lia. reflexivity.
  - rewrite X3. case_bool; [rewrite Hw by lia|]; unfold frame_of; [|reflexivity]. cbn. by rewrite (proj2 (Z.eqb_eq el 0)) by lia.
Qed.

(** A process in page 0 calls the kernel, which answers 5. *)
Definition calling : Regs := mk_Regs (Z.of_nat <$> seq 100 31) (kva 0 + THREAD_SIZE) 0x10000 0x1234 0.

Lemma calling_ok : regs_ok calling.
Proof.
  split; try (split; [discriminate|reflexivity]); [reflexivity|]. intros i. unfold reg. rewrite nth_lookup. cbn [xregs calling].
  rewrite list_lookup_fmap. destruct (seq 100 31 !! i) as [k|] eqn:E; cbn; [|lia]. apply lookup_seq in E. lia.
Qed.

Lemma exception_round_trip_witness :
  let m1 := (kernel_entry 0 calling ∅).2 in
  let r' := kernel_exit 0 (store64 (task_pt_regs (kva 0)) 5 m1) (with_ksp (task_pt_regs (kva 0)) calling) in
  trap_word m1 (kva 0) 8 = 108 ∧ reg 0 r' = 5 ∧ reg 19 r' = 119 ∧ elr r' = 0x1234 ∧ usp r' = 0x10000.
Proof.
  destruct (exception_round_trip 0 (kva 0) calling ∅ (store64 (task_pt_regs (kva 0)) 5 (kernel_entry 0 calling ∅).2)
    (with_ksp (task_pt_regs (kva 0)) calling) calling_ok) as (_ & H1 & _ & H2).
  - vm_compute. discriminate.
  - vm_compute. reflexivity.
  - reflexivity.
  - reflexivity.
  - reflexivity.
  - destruct H2 as (H3 & H4 & _ & H5 & _ & H6).
    + intros n Hn. apply load_store_disjoint. change (Z.of_nat 8) with 8. lia.
    + cbv zeta. rewrite H1, H3, (H4 19%nat), H5, H6 by lia. clear. split; [reflexivity|]. split; [|split; [reflexivity|split; reflexivity]].
      unfold trap_word. rewrite Z.add_0_r, load_store_le. reflexivity.
Defined.

(** ret_to_user after move_to_user_mode: the program starts with nothing in its
    registers. *)
Lemma user_entry p pc m r : 0 ≤ p → p + THREAD_SIZE < 2 ^ 64 → length (xregs r) = 31%nat → ksp r = task_pt_regs p →
  (∀ i, 0 ≤ i < 34 → trap_word m p i = if i =? 31 then 16 * PAGE_SIZE else if i =? 32 then pc else 0) →
  let r' := kernel_exit 0 m r in
  (∀ n, (n < 31)%nat → reg n r' = 0) ∧ usp r' = 16 * PAGE_SIZE ∧ elr r' = pc ∧ spsr r' = PSR_MODE_EL0t ∧ ksp r' = p + THREAD_SIZE.
Proof.
  intros Hp Hp2 Hl Hk Hw. cbv zeta. pose proof (task_pt_regs_frame p Hp Hp2) as Ht.
  destruct (kernel_exit_frame 0 m r Hl) as (X1 & X2 & X3 & X4 & X5); [rewrite Hk; unfold S_FRAME_SIZE, THREAD_SIZE in *; lia..|].
  rewrite Hk in *. unfold trap_word in Hw. fold (frame_word m (task_pt_regs p)) in *.
  split; [|split; [|split; [|split]]].
  - intros n Hn. rewrite X1 by lia. etrans; [apply Hw; lia|]. rewrite !(proj2 (Z.eqb_neq _ _)) by lia. reflexivity.
  - rewrite X3. exact (Hw 31 ltac:(lia)).
  - rewrite X4. exact (Hw 32 ltac:(lia)).
  - rewrite X5. exact (Hw 33 ltac:(lia)).
  - rewrite X2. lia.
Qed.

(** ** Data aborts *)

Lemma outputs_step {A} m (k : M Machine A) s : outputs m → ∃ l, (m;; k) s = k (with_output l s).
Proof. intros H. destruct (H s) as [l E]. exists l. by rewrite (bind_done _ _ _ _ _ E). Qed.

Ltac step_output :=
  match goal with |- context [(?m ≫= (λ _, ?k)) ?s] =>
    let l := fresh "l" in let E := fresh "E" in
    destruct (outputs_step m k s) as [l E]; [apply outputs_puts || apply outputs_hex|]; rewrite E; clear E
  end.

(** The message of a known number is printed whole. *)
Lemma show_invalid_run type esr e s c :
  0 ≤ type < 16 → heap (kernel s) !! cur (kernel s) = Some c →
  ∃ l, show_invalid_entry_message type esr e s = Done (tt, with_output l s).
Proof.
  intros Ht Hc. destruct (array_get_is_Some entry_error_messages type) as [message Em]; [cbn; lia|].
  unfold show_invalid_entry_message. step_output. rewrite Em, bind_require_some with (a := message) by reflexivity.
  do 6 step_output. rewrite (bind_done _ _ _ _ _ (get_current_run _)).
  erewrite bind_done by (apply on_kernel_done, load_some; exact Hc). rewrite with_kernel_same.
  step_output. edestruct outputs_puts as [o E]. exists o. rewrite E. reflexivity.
Qed.

(** do_mem_abort refuses every fault, so a process that touches an address without a
    page stops the whole machine. *)
Theorem data_abort_hangs far esr e s c :
  heap (kernel s) !! cur (kernel s) = Some c →
  ∃ l, el0_da far esr e s = Done (Hangs, with_output l (with_kernel (with_globals (with_irq_enabled true (globals (kernel s))) (kernel s)) s)).
Proof.
  intros Hc. unfold el0_da. set (s1 := with_kernel _ s). rewrite (bind_done _ _ s tt s1) by (by apply on_kernel_done).
  assert (do_mem_abort far esr s1 = Done (-1, s1)) as E.
  { unfold do_mem_abort. assert (0 ≤ Z.land esr 63 < 64) as H.
    { change 63 with (Z.ones 6). rewrite Z.land_ones by lia. by apply Z.mod_pos_bound. }
    assert (Z.land esr 63 / 60 < 4) by (apply Z.div_lt_upper_bound; lia).
    rewrite (proj2 (Z.eqb_neq (Z.land esr 63 / 60) 4)) by lia. reflexivity. }
  rewrite (bind_done _ _ _ _ _ E). change (-1 =? 0) with false. cbv iota. unfold handle_invalid_entry.
  destruct (show_invalid_run DATA_ABORT_ERROR esr e s1 c) as [l El]; [by unfold DATA_ABORT_ERROR|exact Hc|].
  exists l. by rewrite (bind_done _ _ _ _ _ El).
Qed.
