(* ===== verification/FatFormat.v ===== *)
(** * FAT32: on-disk formats and names (libs/fat32/fat.c)

    Constants, the packed structures as offsets in a sector, path components,
    timestamps, and the short and long file names.  Characters are bytes
    ([char] is unsigned on AArch64); a C string is the list of its characters,
    the terminator being what is read past the end. *)
From stdpp Require Import base list.
From Stdlib Require Import ZArith Lia.
From S2P Require Import Prelude.

#[local] Open Scope Z_scope.

(** ** Constants *)
Definition FAT_ERR_NONE : Z := 0.
Definition FAT_ERR_NOFAT : Z := -1.
Definition FAT_ERR_BROKEN : Z := -2.
Definition FAT_ERR_IO : Z := -3.
Definition FAT_ERR_PARAM : Z := -4.
Definition FAT_ERR_PATH : Z := -5.
Definition FAT_ERR_EOF : Z := -6.
Definition FAT_ERR_DENIED : Z := -7.
Definition FAT_ERR_FULL : Z := -8.

Definition FAT_ATTR_RO : Z := 1.
Definition FAT_ATTR_SYS : Z := 4.
Definition FAT_ATTR_LABEL : Z := 8.
Definition FAT_ATTR_DIR : Z := 16.
Definition FAT_ATTR_ARCHIVE : Z := 32.
Definition FAT_ATTR_LFN : Z := 15.

Definition FAT_WRITE : Z := 1.
Definition FAT_READ : Z := 2.
Definition FAT_APPEND : Z := 4.
Definition FAT_TRUNC : Z := 8.
Definition FAT_CREATE : Z := 16.
Definition FAT_ACCESSED : Z := 32.
Definition FAT_MODIFIED : Z := 64.
Definition FAT_FILE_DIRTY : Z := 128.

Definition FSINFO_HEAD_SIG : Z := 0x41615252.
Definition FSINFO_STRUCT_SIG : Z := 0x61417272.
Definition FSINFO_TAIL_SIG : Z := 0xaa550000.
Definition EXT_FLAG_MIRROR : Z := 128.
Definition EXT_FLAG_ACT : Z := 15.
Definition EXT_FLAG_SECOND : Z := 1.
Definition LFN_HEAD_MSK : Z := 64.
Definition LFN_SEQ_MSK : Z := 31.
Definition SFN_FREE : Z := 229.
Definition SFN_LAST : Z := 0.
Definition SFN_PAD : Z := 32.

Definition FAT_BUF_DIRTY : Z := 1.
Definition FAT_INFO_DIRTY : Z := 2.
Definition CLUST_FREE : Z := 1.
Definition CLUST_USED : Z := 2.
Definition CLUST_LAST : Z := 4.
Definition CLUST_BAD : Z := 8.

Definition LIMIT (a b : Z) : Z := if a <? b then a else b.

(** ** Bytes of a buffer *)
Definition get8 (b : list Z) (i : Z) : Z := default 0 (b !! Z.to_nat i).
Definition put8 (i v : Z) (b : list Z) : list Z := <[Z.to_nat i := u8 v]> b.
Definition get16 (b : list Z) (i : Z) : Z := get8 b i + 256 * get8 b (i + 1).
Definition put16 (i v : Z) (b : list Z) : list Z := put8 (i + 1) (v / 256) (put8 i v b).
Definition get32 (b : list Z) (i : Z) : Z := get16 b i + 65536 * get16 b (i + 2).
Definition put32 (i v : Z) (b : list Z) : list Z := put16 (i + 2) (v / 65536) (put16 i v b).

(** [n] bytes from offset [i], and the bytes [l] written at offset [i]. *)
Fixpoint get_bytes (n : nat) (b : list Z) (i : Z) : list Z :=
  match n with O => [] | S n => get8 b i :: get_bytes n b (i + 1) end.
Fixpoint put_bytes (i : Z) (l : list Z) (b : list Z) : list Z :=
  match l with [] => b | v :: l => put_bytes (i + 1) l (put8 i v b) end.

(** *** Offsets of the fields of a directory entry (Sfn, Lfn) *)
Definition SFN_SIZE : Z := 32.
Definition SFN_ATTR : Z := 11.
Definition SFN_RESERVED : Z := 12.
Definition SFN_TENTH : Z := 13.
Definition SFN_CRE_TIME : Z := 14.
Definition SFN_CRE_DATE : Z := 16.
Definition SFN_ACC_DATE : Z := 18.
Definition SFN_CLUST_HI : Z := 20.
Definition SFN_MOD_TIME : Z := 22.
Definition SFN_MOD_DATE : Z := 24.
Definition SFN_CLUST_LO : Z := 26.
Definition SFN_FILE_SIZE : Z := 28.
Definition LFN_SEQ : Z := 0.
Definition LFN_TYPE : Z := 12.
Definition LFN_CRC : Z := 13.
Definition LFN_CLUST : Z := 26.

(** *** of the FsInfo sector *)
Definition INFO_HEAD_SIG : Z := 0.
Definition INFO_STRUCT_SIG : Z := 484.
Definition INFO_FREE_CNT : Z := 488.
Definition INFO_NEXT_FREE : Z := 492.
Definition INFO_TAIL_SIG : Z := 508.

(** *** and of the boot sector (Bpb, Mbr) *)
Definition BPB_BYTES_PER_SECT : Z := 11.
Definition BPB_SECT_PER_CLUST : Z := 13.
Definition BPB_RES_SECT_CNT : Z := 14.
Definition BPB_FAT_CNT : Z := 16.
Definition BPB_ROOT_ENT_CNT : Z := 17.
Definition BPB_SECT_CNT_16 : Z := 19.
Definition BPB_SECT_PER_FAT_16 : Z := 22.
Definition BPB_SECT_CNT_32 : Z := 32.
Definition BPB_SECT_PER_FAT_32 : Z := 36.
Definition BPB_EXT_FLAGS : Z := 40.
Definition BPB_ROOT_CLUSTER : Z := 44.
Definition BPB_INFO_SECT : Z := 48.
Definition BPB_FS_TYPE : Z := 82.
Definition MBR_PART (partition : Z) : Z := 446 + 16 * partition.
Definition MBR_SIG : Z := 510.

(** ** Paths *)
Definition char_at (s : list Z) (i : Z) : Z := default 0 (s !! Z.to_nat i).

Definition to_upper (c : Z) : Z := if (97 <=? c) && (c <=? 122) then Z.land c (Z.lnot 32) else c.

Fixpoint subpath_loop (fuel : nat) (path : list Z) (i : Z) : Z :=
  match fuel with
  | O => i
  | S fuel =>
    if negb (char_at path i =? 0) && negb (char_at path i =? 47) then subpath_loop fuel path (i + 1) else i
  end.
Definition subpath_len (path : list Z) : Z := subpath_loop (S (length path)) path 0.

(** [while ( *path == '/') path++;] *)
Fixpoint skip_slashes (path : list Z) : list Z :=
  match path with
  | 47 :: path' => skip_slashes path'
  | _ => path
  end.

Definition last_subpath_len (path : list Z) : Z :=
  let len := subpath_len path in
  if len =? 0 then 0 else
  let path := skip_slashes (drop (Z.to_nat len) path) in
  if char_at path 0 =? 0 then len else 0.

(** ** Checksum of a short name *)
Fixpoint crc_loop (n : nat) (i : Z) (name : list Z) (sum : Z) : Z :=
  match n with
  | O => sum
  | S n => crc_loop n (i + 1) name (u8 (Z.shiftl (Z.land sum 1) 7 + Z.shiftr sum 1 + get8 name i))
  end.
Definition get_crc (name : list Z) : Z := crc_loop 11 0 name 0.

(** ** Timestamps *)
Record Timestamp : Type := mk_Timestamp {
  hour : Z; min : Z; sec : Z; day : Z; month : Z; year : Z
}.

Definition fat_get_timestamp : Timestamp := mk_Timestamp 0 0 0 1 1 1980.

Definition decode_timestamp (date time : Z) : Timestamp :=
  mk_Timestamp (Z.land (Z.shiftr time 11) 31) (Z.land (Z.shiftr time 5) 63) (2 * Z.land time 31)
    (Z.land date 31) (Z.land (Z.shiftr date 5) 15) (Z.land (Z.shiftr date 9) 63 + 1980).

Definition encode_date (ts : Timestamp) : Z :=
  u16 (Z.lor (Z.lor (Z.shiftl (Z.land (year ts - 1980) 63) 9) (Z.shiftl (Z.land (month ts) 15) 5)) (Z.land (day ts) 31)).
Definition encode_time (ts : Timestamp) : Z :=
  u16 (Z.lor (Z.lor (Z.land (sec ts / 2) 31) (Z.shiftl (Z.land (min ts) 63) 5)) (Z.shiftl (Z.land (hour ts) 31) 11)).

(** The date and the time of the current timestamp. *)
Definition encode_timestamp : Z * Z := (encode_date fat_get_timestamp, encode_time fat_get_timestamp).

(** ** Directory entries, at offset [i] of a buffer *)
Definition sfn_is_last (b : list Z) (i : Z) : bool := get8 b i =? SFN_LAST.
Definition sfn_is_free (b : list Z) (i : Z) : bool := (get8 b i =? SFN_LAST) || (get8 b i =? SFN_FREE).
Definition sfn_is_lfn (b : list Z) (i : Z) : bool := get8 b (i + SFN_ATTR) =? FAT_ATTR_LFN.
Definition sfn_cluster (b : list Z) (i : Z) : Z :=
  u32 (Z.lor (Z.shiftl (get16 b (i + SFN_CLUST_HI)) 16) (get16 b (i + SFN_CLUST_LO))).

(** ** Short names *)

(** The allowed special characters of an SFN. *)
Definition sfn_special : list Z :=
  [33; 35; 36; 37; 38; 39; 40; 41; 45; 64; 94; 95; 96; 123; 125; 126; 32].

Definition sfn_char (c : Z) : Z :=
  let c := to_upper c in
  if (65 <=? c) && (c <=? 90) then c
  else if existsb (Z.eqb c) sfn_special then c else 95.

Fixpoint sfn_base_loop (n : nat) (sfn_name name : list Z) (len i : Z) : list Z * Z :=
  match n with
  | O => (sfn_name, i)
  | S n =>
    if (i <? LIMIT len 8) && negb (char_at name i =? 46)
    then sfn_base_loop n (put8 i (sfn_char (char_at name i)) sfn_name) name len (i + 1)
    else (sfn_name, i)
  end.

(** Padding from index [j] to [limit]. *)
Fixpoint sfn_pad_loop (n : nat) (sfn_name : list Z) (j limit : Z) : list Z :=
  match n with
  | O => sfn_name
  | S n => if j <? limit then sfn_pad_loop n (put8 j SFN_PAD sfn_name) (j + 1) limit else sfn_name
  end.

(** [while (i < len && name[i++] != '.');] *)
Fixpoint sfn_skip_loop (fuel : nat) (name : list Z) (len i : Z) : Z :=
  match fuel with
  | O => i
  | S fuel =>
    if i <? len then if char_at name i =? 46 then i + 1 else sfn_skip_loop fuel name len (i + 1) else i
  end.

Fixpoint sfn_ext_loop (n : nat) (sfn_name name : list Z) (len j i : Z) : list Z * Z :=
  match n with
  | O => (sfn_name, j)
  | S n =>
    if (j <? 3) && (i <? len)
    then sfn_ext_loop n (put8 (8 + j) (sfn_char (char_at name i)) sfn_name) name len (j + 1) (i + 1)
    else (sfn_name, j)
  end.

(** [sfn_name] is the array of 11 bytes that is filled. *)
Definition put_sfn_name (sfn_name name : list Z) (len : Z) : list Z :=
  let '(sfn_name, i) := sfn_base_loop 9 sfn_name name len 0 in
  let sfn_name := sfn_pad_loop 9 sfn_name i 8 in
  let i := sfn_skip_loop (S (Z.to_nat len)) name len i in
  let '(sfn_name, j) := sfn_ext_loop 4 sfn_name name len 0 i in
  sfn_pad_loop 4 sfn_name (8 + j) 11.

(** Copies characters up to the padding to the end of [out]. *)
Fixpoint sfn_copy_loop (n : nat) (sfn_name : list Z) (i limit : Z) (out : list Z) : list Z :=
  match n with
  | O => out
  | S n =>
    if (i <? limit) && negb (get8 sfn_name i =? SFN_PAD)
    then sfn_copy_loop n sfn_name (i + 1) limit (out ++ [get8 sfn_name i]) else out
  end.

(** The characters written to the start of the global buffer; their number is [g_len]. *)
Definition parse_sfn_name (sfn_name : list Z) : list Z :=
  let out := sfn_copy_loop 9 sfn_name 0 8 [] in
  let out := if negb (get8 sfn_name 8 =? SFN_PAD) then out ++ [46] else out in
  sfn_copy_loop 4 sfn_name 8 11 out.

(** ** Long names: the thirteen characters of an entry *)
Definition g_lfn_indices : list Z := [1; 3; 5; 7; 9; 14; 16; 18; 20; 22; 24; 28; 30].
Definition lfn_index (i : Z) : Z := default 0 (g_lfn_indices !! Z.to_nat i).

(** Stores a 16-bit character of the entry at offset [o] of [b]. *)
Definition put_lfn_char (o i lo hi : Z) (b : list Z) : list Z :=
  put8 (o + lfn_index i + 1) hi (put8 (o + lfn_index i) lo b).

Fixpoint lfn_chars_loop (n : nat) (o i : Z) (name : list Z) (b : list Z) : list Z :=
  match n with
  | O => b
  | S n => lfn_chars_loop n o (i + 1) name (put_lfn_char o i (char_at name i) 0 b)
  end.

Fixpoint lfn_fill_loop (n : nat) (o i : Z) (b : list Z) : list Z :=
  match n with
  | O => b
  | S n => if i <? 13 then lfn_fill_loop n o (i + 1) (put_lfn_char o i 255 255 b) else b
  end.

Definition put_lfn_name_frag (o : Z) (name : list Z) (len : Z) (b : list Z) : list Z :=
  let b := lfn_chars_loop (Z.to_nat len) o 0 name b in
  let i := Z.max 0 len in
  if i <? 13 then lfn_fill_loop 13 o (i + 1) (put_lfn_char o i 0 0 b) else b.
