(* ===== verification/FatVolume.v ===== *)
(** * FAT32: the volume (libs/fat32/fat.c)

    The structure [Fat], its one-sector buffer, the file allocation table and the
    cluster chains.  The disk is what the volume's operations [DiskOps] act on;
    it is a parameter [D] of the model, as the operations are.  Every function
    returns an error code early as the code does: [E] is a state and error
    monad, [inl err] being [return err]. *)
From stdpp Require Import base list.
From Stdlib Require Import ZArith Lia.
From S2P Require Import Prelude FatFormat.

#[local] Open Scope Z_scope.

(** ** Data *)

(** [read buf sect] answers whether it succeeded and the contents of the buffer;
    [write buf sect] whether it succeeded.  A driver that faults is a fault here. *)
Record DiskOps (D : Type) : Type := mk_DiskOps {
  disk_read : list Z → Z → D → outcome (bool * list Z * D);
  disk_write : list Z → Z → D → outcome (bool * D)
}.
Arguments disk_read {D}. Arguments disk_write {D}.

Record Fat (D : Type) : Type := mk_Fat {
  ops : DiskOps D;
  clust_msk : Z;
  clust_cnt : Z;
  info_sect : Z;
  fat_sect : Z * Z;
  data_sect : Z;
  root_clust : Z;
  last_used : Z;
  free_cnt : Z;
  sect : Z;
  buf : list Z;
  flags : Z;
  clust_shift : Z;
  name_len : Z;
  name : list Z
}.
Arguments mk_Fat {D}. Arguments ops {D}. Arguments clust_msk {D}. Arguments clust_cnt {D}. Arguments info_sect {D}.
Arguments fat_sect {D}. Arguments data_sect {D}. Arguments root_clust {D}. Arguments last_used {D}.
Arguments free_cnt {D}. Arguments sect {D}. Arguments buf {D}. Arguments flags {D}. Arguments clust_shift {D}.
Arguments name_len {D}. Arguments name {D}.

(** A volume with the disk behind it and the library's global buffer. *)
Record Vol (D : Type) : Type := mk_Vol {
  fat : Fat D;
  disk : D;
  g_buf : list Z;
  g_len : Z;
  g_crc : Z
}.
Arguments mk_Vol {D}. Arguments fat {D}. Arguments disk {D}. Arguments g_buf {D}. Arguments g_len {D}. Arguments g_crc {D}.

Section fields.
Context {D : Type}.

Definition with_last_used (v : Z) (f : Fat D) : Fat D :=
  mk_Fat (ops f) (clust_msk f) (clust_cnt f) (info_sect f) (fat_sect f) (data_sect f) (root_clust f) v (free_cnt f) (sect f) (buf f) (flags f) (clust_shift f) (name_len f) (name f).
Definition with_free_cnt (v : Z) (f : Fat D) : Fat D :=
  mk_Fat (ops f) (clust_msk f) (clust_cnt f) (info_sect f) (fat_sect f) (data_sect f) (root_clust f) (last_used f) v (sect f) (buf f) (flags f) (clust_shift f) (name_len f) (name f).
Definition with_sect (v : Z) (f : Fat D) : Fat D :=
  mk_Fat (ops f) (clust_msk f) (clust_cnt f) (info_sect f) (fat_sect f) (data_sect f) (root_clust f) (last_used f) (free_cnt f) v (buf f) (flags f) (clust_shift f) (name_len f) (name f).
Definition with_buf (v : list Z) (f : Fat D) : Fat D :=
  mk_Fat (ops f) (clust_msk f) (clust_cnt f) (info_sect f) (fat_sect f) (data_sect f) (root_clust f) (last_used f) (free_cnt f) (sect f) v (flags f) (clust_shift f) (name_len f) (name f).
Definition with_flags (v : Z) (f : Fat D) : Fat D :=
  mk_Fat (ops f) (clust_msk f) (clust_cnt f) (info_sect f) (fat_sect f) (data_sect f) (root_clust f) (last_used f) (free_cnt f) (sect f) (buf f) v (clust_shift f) (name_len f) (name f).

Definition with_fat (f : Fat D) (v : Vol D) : Vol D := mk_Vol f (disk v) (g_buf v) (g_len v) (g_crc v).
Definition with_disk (d : D) (v : Vol D) : Vol D := mk_Vol (fat v) d (g_buf v) (g_len v) (g_crc v).
Definition with_g_buf (b : list Z) (v : Vol D) : Vol D := mk_Vol (fat v) (disk v) b (g_len v) (g_crc v).
Definition with_g_len (n : Z) (v : Vol D) : Vol D := mk_Vol (fat v) (disk v) (g_buf v) n (g_crc v).
Definition with_g_crc (c : Z) (v : Vol D) : Vol D := mk_Vol (fat v) (disk v) (g_buf v) (g_len v) c.
End fields.

(** ** The monad *)
Definition E (S A : Type) : Type := S → outcome ((Z + A) * S).

#[export] Instance E_ret S : MRet (E S) := λ A a s, Done (inr a, s).
#[export] Instance E_bind S : MBind (E S) := λ A B f m s,
  match m s with
  | Done (inr a, s') => f a s'
  | Done (inl err, s') => Done (inl err, s')
  | Fault e => Fault e
  end.

Definition throw {S A} (err : Z) : E S A := λ s, Done (inl err, s).
Definition stop {S A} (e : fault) : E S A := λ _, Fault e.

(** The error code a call returns, as a value. *)
Definition catch {S A} (m : E S A) : E S (Z + A) := λ s,
  match m s with Done (r, s') => Done (inr r, s') | Fault e => Fault e end.

(** Code on a part of a larger state. *)
Definition zoom {S T A} (get : S → T) (put : T → S → S) (m : E T A) : E S A := λ s,
  match m (get s) with Done (r, t) => Done (r, put t s) | Fault e => Fault e end.

Abbreviation FS D := (E (Vol D)) (only parsing).

Definition vol {D A} (f : Fat D → A) : FS D A := λ v, Done (inr (f (fat v)), v).
Definition upd {D} (f : Fat D → Fat D) : FS D unit := λ v, Done (inr tt, with_fat (f (fat v)) v).
Definition upd_buf {D} (f : list Z → list Z) : FS D unit := upd (λ t, with_buf (f (buf t)) t).
Definition set_flag {D} (m : Z) : FS D unit := upd (λ t, with_flags (Z.lor (flags t) m) t).
Definition clear_flag {D} (m : Z) : FS D unit := upd (λ t, with_flags (Z.land (flags t) (Z.lnot m)) t).

Definition has (flags m : Z) : bool := negb (Z.land flags m =? 0).

Section volume.
Context {D : Type}.

(** [fat->ops.write(b, sect)] and [fat->ops.read(b, sect)] *)
Definition ops_write (b : list Z) (s : Z) : FS D bool := λ v,
  match disk_write (ops (fat v)) b s (disk v) with
  | Done (ok, d) => Done (inr ok, with_disk d v)
  | Fault e => Fault e
  end.
Definition ops_read (b : list Z) (s : Z) : FS D (bool * list Z) := λ v,
  match disk_read (ops (fat v)) b s (disk v) with
  | Done (ok, b', d) => Done (inr (ok, b'), with_disk d v)
  | Fault e => Fault e
  end.

(** ** Sectors and clusters *)
Definition sect_to_clust (f : Fat D) (s : Z) : Z := u32 (Z.shiftr (u32 (s - data_sect f)) (clust_shift f) + 2).
Definition clust_to_sect (f : Fat D) (c : Z) : Z := u32 (Z.shiftl (u32 (c - 2)) (clust_shift f) + data_sect f).

(** ** The sector buffer *)
Definition sync_buf : FS D unit :=
  f ← vol id;
  if has (flags f) FAT_BUF_DIRTY then
    ok ← ops_write (buf f) (sect f);
    if (ok : bool) then clear_flag FAT_BUF_DIRTY else throw FAT_ERR_IO
  else mret tt.

Definition update_buf (s : Z) : FS D unit :=
  cur ← vol sect;
  if negb (cur =? s) then
    sync_buf;;
    b ← vol buf;
    r ← ops_read b s;
    upd (with_buf r.2);;
    if (r.1 : bool) then upd (with_sect s) else throw FAT_ERR_IO
  else mret tt.

Definition sync_fs : FS D unit :=
  sync_buf;;
  fl ← vol flags;
  if has fl FAT_INFO_DIRTY then
    s ← vol info_sect;
    update_buf s;;
    set_flag FAT_BUF_DIRTY;;
    f ← vol id;
    upd_buf (put32 INFO_NEXT_FREE (last_used f));;
    upd_buf (put32 INFO_FREE_CNT (free_cnt f));;
    sync_buf;;
    clear_flag FAT_INFO_DIRTY
  else mret tt.

(** ** The file allocation table *)
Definition get_fat (clust : Z) : FS D (Z * Z) :=
  f ← vol id;
  let s := u32 ((fat_sect f).1 + clust / 128) in
  let idx := clust mod 128 in
  update_buf s;;
  f ← vol id;
  let val := Z.land (get32 (buf f) (4 * idx)) 0x0fffffff in
  if val =? 0 then mret (val, CLUST_FREE)
  else if val =? 0x0ffffff7 then mret (val, CLUST_BAD)
  else if 0x0ffffff8 <=? val then mret (val, Z.lor CLUST_USED CLUST_LAST)
  else if (2 <=? val) && (val <? clust_cnt f) then mret (val, CLUST_USED)
  else throw FAT_ERR_BROKEN.

Definition put_fat2 (fat_sect clust val : Z) : FS D unit :=
  let s := u32 (fat_sect + clust / 128) in
  let idx := clust mod 128 in
  update_buf s;;
  upd_buf (λ b, put32 (4 * idx) (Z.lor (Z.land (get32 b (4 * idx)) 0xf0000000) (Z.land val 0x0fffffff)) b);;
  set_flag FAT_BUF_DIRTY.

Definition put_fat (clust val : Z) : FS D unit :=
  f ← vol id;
  (if negb ((fat_sect f).2 =? 0) then put_fat2 (fat_sect f).2 clust val else mret tt);;
  f ← vol id;
  put_fat2 (fat_sect f).1 clust val.

(** ** Cluster chains *)

(** One turn frees a cluster, so as many turns as there are clusters are enough. *)
Fixpoint remove_loop (fuel : nat) (clust : Z) : FS D unit :=
  match fuel with
  | O => stop OutOfFuel
  | S fuel =>
    r ← get_fat clust;
    let '(next, fl) := r : Z * Z in
    if has fl (Z.lor CLUST_BAD CLUST_FREE) then throw FAT_ERR_BROKEN else
    put_fat clust 0;;
    upd (λ t, with_free_cnt (u32 (free_cnt t + 1)) t);;
    if has fl CLUST_LAST then mret tt else remove_loop fuel next
  end.

Definition chain_fuel : FS D nat := c ← vol clust_cnt; mret (S (S (Z.to_nat c))).

Definition remove_chain (clust : Z) : FS D unit :=
  set_flag FAT_INFO_DIRTY;;
  fuel ← chain_fuel;
  remove_loop fuel clust;;
  sync_fs.

Definition next_clust (clust cnt : Z) : Z := if cnt <=? u32 (clust + 1) then 2 else u32 (clust + 1).

(** The search for a free cluster. [fl] is the variable [flags], which the error
    path of the search returns, and which has no value until a read succeeds. *)
Fixpoint scan_loop (fuel : nat) (fl : option Z) (clust : Z) : FS D Z :=
  match fuel with
  | O => stop OutOfFuel
  | S fuel =>
    f ← vol id;
    let clust := next_clust clust (clust_cnt f) in
    if clust =? last_used f then throw FAT_ERR_FULL else
    r ← catch (get_fat clust);
    match r with
    | inl _ => match fl with Some e => throw e | None => stop Uninitialised end
    | inr (_, fl) => if has fl CLUST_FREE then mret clust else scan_loop fuel (Some fl) clust
    end
  end.

(** A free cluster: the next one when it is free, or the first from [last_used]. *)
Definition find_free (prev : Z) : FS D Z :=
  fuel ← chain_fuel;
  f ← vol id;
  if negb (prev =? 0) then
    let clust := next_clust prev (clust_cnt f) in
    r ← get_fat clust;
    let '(_, fl) := r : Z * Z in
    if has fl CLUST_FREE then mret clust else
    last ← vol last_used; scan_loop fuel (Some fl) last
  else scan_loop fuel None (last_used f).

Definition stretch_chain (clust : Z) : FS D Z :=
  let prev := clust in
  set_flag FAT_INFO_DIRTY;;
  clust ← find_free prev;
  put_fat clust 0x0fffffff;;
  (if negb (prev =? 0) then put_fat prev clust else mret tt);;
  upd (with_last_used clust);;
  upd (λ t, with_free_cnt (u32 (free_cnt t - 1)) t);;
  sync_fs;;
  mret clust.

Definition create_chain : FS D Z := stretch_chain 0.

Fixpoint clear_loop (n : nat) (s : Z) : FS D unit :=
  match n with
  | O => mret tt
  | S n =>
    set_flag FAT_BUF_DIRTY;;
    upd (with_sect s);;
    sync_buf;;
    clear_loop n (u32 (s + 1))
  end.

Definition clust_clear (clust : Z) : FS D unit :=
  sync_buf;;
  f ← vol id;
  let s := clust_to_sect f clust in
  upd_buf (λ _, replicate 512 0);;
  clear_loop (Z.to_nat (Z.shiftl 1 (clust_shift f))) s.
End volume.
