(* ===== verification/FatDir.v ===== *)
(** * FAT32: directories (libs/fat32/fat.c)

    The directory cursor [Dir], the search of a name, the creation and removal
    of entries.  Functions that take a [Dir*] act on a pair of the cursor and
    the volume it points to. *)
From stdpp Require Import base list.
From Stdlib Require Import ZArith Lia.
From S2P Require Import Prelude FatFormat FatVolume.

#[local] Open Scope Z_scope.

(** ** Data *)
Record Dir : Type := mk_Dir {
  d_fat : option Z;
  d_sclust : Z;
  d_clust : Z;
  d_sect : Z;
  d_idx : Z
}.

Record Loc : Type := mk_Loc { l_sect : Z; l_idx : Z }.

Definition with_d_fat (p : option Z) (d : Dir) : Dir := mk_Dir p (d_sclust d) (d_clust d) (d_sect d) (d_idx d).
Definition with_d_sclust (c : Z) (d : Dir) : Dir := mk_Dir (d_fat d) c (d_clust d) (d_sect d) (d_idx d).
Definition with_place (c s i : Z) (d : Dir) : Dir := mk_Dir (d_fat d) (d_sclust d) c s i.

Abbreviation DS D := (E (Dir * Vol D)) (only parsing).

Definition on_vol {D A} (m : FS D A) : DS D A := zoom snd (λ v s, (s.1, v)) m.
Definition get_dir {D} : DS D Dir := λ s, Done (inr s.1, s).
Definition upd_dir {D} (f : Dir → Dir) : DS D unit := λ s, Done (inr tt, (f s.1, s.2)).

Section dir.
Context {D : Type}.

(** ** The cursor *)
Definition dir_at_clust (clust : Z) : DS D unit :=
  f ← on_vol (vol id);
  upd_dir (with_place clust (clust_to_sect f clust) 0).

Definition dir_enter (clust : Z) : DS D unit :=
  f ← on_vol (vol id);
  let clust := if clust =? 0 then root_clust f else clust in
  upd_dir (with_d_sclust clust);;
  dir_at_clust clust.

Definition dir_next : DS D unit :=
  d ← get_dir;
  let idx := u16 (d_idx d + SFN_SIZE) in
  upd_dir (with_place (d_clust d) (d_sect d) idx);;
  if idx <? 512 then mret tt else
  let s := u32 (d_sect d + 1) in
  upd_dir (with_place (d_clust d) s 0);;
  f ← on_vol (vol id);
  if negb (Z.land s (clust_msk f) =? 0) then mret tt else
  r ← on_vol (get_fat (d_clust d));
  let '(next, fl) := r : Z * Z in
  if has fl (Z.lor CLUST_BAD CLUST_FREE) then throw FAT_ERR_BROKEN else
  if has fl CLUST_LAST then throw FAT_ERR_EOF else
  dir_at_clust next.

Fixpoint dir_advance (cnt : nat) : DS D unit :=
  match cnt with
  | O => mret tt
  | S cnt => dir_next;; dir_advance cnt
  end.

Definition dir_next_stretch : DS D unit :=
  r ← catch dir_next;
  match r with
  | inr _ => mret tt
  | inl err =>
    if negb (err =? FAT_ERR_EOF) then throw err else
    d ← get_dir;
    next ← on_vol (stretch_chain (d_clust d));
    dir_at_clust next;;
    on_vol (clust_clear next)
  end.

(** [dir_ptr]: the buffer and the offset of the entry in it. *)
Definition dir_ptr : DS D (list Z * Z) :=
  b ← on_vol (vol buf);
  d ← get_dir;
  if 512 <? d_idx d + SFN_SIZE then stop OutOfBounds else mret (b, d_idx d).

Definition load_entry : DS D (list Z * Z) :=
  d ← get_dir;
  on_vol (update_buf (d_sect d));;
  dir_ptr.

(** ** Long names *)
Definition set_name_char (i c : Z) : DS D unit := on_vol (λ v, Done (inr tt, with_g_buf (put8 i c (g_buf v)) v)).
Definition set_g_len (n : Z) : DS D unit := on_vol (λ v, Done (inr tt, with_g_len n v)).
Definition set_g_crc (c : Z) : DS D unit := on_vol (λ v, Done (inr tt, with_g_crc c v)).
Definition get_vol : DS D (Vol D) := λ s, Done (inr s.2, s).

(** The characters of the entry at [o] of [b], from the [i]-th on. *)
Fixpoint lfn_read_loop (n : nat) (b : list Z) (o i cnt : Z) : DS D unit :=
  match n with
  | O => mret tt
  | S n =>
    let c := get8 b (o + lfn_index i) in
    if c =? 255 then throw FAT_ERR_BROKEN
    else if c =? 0 then mret tt
    else
      set_name_char (13 * cnt + i) c;;
      v ← get_vol;
      set_g_len (u16 (g_len v + 1));;
      lfn_read_loop n b o (i + 1) cnt
  end.

(** The entries left to read, [cnt] of them. *)
Fixpoint lfn_entries_loop (cnt : nat) (e : list Z * Z) : DS D unit :=
  match cnt with
  | O => mret tt
  | S cnt =>
    let '(b, o) := e in
    v ← get_vol;
    if negb (get8 b (o + SFN_ATTR) =? FAT_ATTR_LFN) || negb (get8 b (o + LFN_CRC) =? g_crc v)
    then throw FAT_ERR_BROKEN else
    lfn_read_loop 13 b o 0 (Z.of_nat cnt);;
    dir_next;;
    e ← load_entry;
    lfn_entries_loop cnt e
  end.

Definition parse_lfn_name : DS D unit :=
  e ← load_entry;
  let '(b, o) := e : list Z * Z in
  set_g_crc (get8 b (o + LFN_CRC));;
  set_g_len 0;;
  let seq := get8 b (o + LFN_SEQ) in
  if Z.land seq LFN_HEAD_MSK =? 0 then throw FAT_ERR_BROKEN else
  let cnt := Z.land seq LFN_SEQ_MSK in
  if 20 <? cnt then throw FAT_ERR_BROKEN else
  lfn_entries_loop (Z.to_nat cnt) (b, o);;
  v ← get_vol;
  if g_len v <=? 255 then mret tt else throw FAT_ERR_BROKEN.

(** ** Searching *)

(** [memcmp(a + i, b + j, n) == 0] *)
Fixpoint same_bytes (n : nat) (a : list Z) (i : Z) (b : list Z) (j : Z) : bool :=
  match n with
  | O => true
  | S n => (get8 a i =? get8 b j) && same_bytes n a (i + 1) b (j + 1)
  end.

(** The number of entries the clusters of a volume can hold. *)
Definition dir_fuel : DS D nat :=
  f ← on_vol (vol id);
  mret (S (Z.to_nat (16 * Z.shiftl 1 (clust_shift f) * clust_cnt f))).

(** The start of the entry found is kept in [loc]. *)
Fixpoint search_loop (fuel : nat) (sfn_name name : list Z) (len : Z) (loc : option Loc) : DS D (option Loc) :=
  match fuel with
  | O => stop OutOfFuel
  | S fuel =>
    e ← load_entry;
    let '(b, o) := e : list Z * Z in
    if sfn_is_last b o then throw FAT_ERR_EOF else
    if sfn_is_free b o then dir_next;; search_loop fuel sfn_name name len loc else
    d ← get_dir;
    let loc := Some (mk_Loc (d_sect d) (d_idx d)) in
    if sfn_is_lfn b o then
      parse_lfn_name;;
      e ← dir_ptr;
      let '(b, o) := e : list Z * Z in
      v ← get_vol;
      if sfn_is_free b o || sfn_is_lfn b o || negb (g_crc v =? get_crc (get_bytes 11 b o)) then throw FAT_ERR_BROKEN else
      if (g_len v =? len) && same_bytes (Z.to_nat len) (g_buf v) 0 name 0 then mret loc
      else dir_next;; search_loop fuel sfn_name name len loc
    else
      if same_bytes 11 sfn_name 0 b o then mret loc
      else dir_next;; search_loop fuel sfn_name name len loc
  end.

Definition dir_search (name : list Z) (len : Z) : DS D (option Loc) :=
  let sfn_name := put_sfn_name (replicate 11 0) name len in
  d ← get_dir;
  dir_at_clust (d_sclust d);;
  fuel ← dir_fuel;
  search_loop fuel sfn_name name len None.

Definition dir_at_root : DS D bool :=
  d ← get_dir;
  f ← on_vol (vol id);
  mret ((d_clust d =? root_clust f) && (d_sect d =? clust_to_sect f (root_clust f)) && (d_idx d =? 0)).

(** What follow_path leaves in its arguments: the error code, the rest of the
    path, and the place of the first entry of the name, if one was looked for. *)
Record Found : Type := mk_Found { fd_err : Z; fd_path : list Z; fd_loc : option Loc }.

(** The components of a path on a volume. *)
Fixpoint follow_loop (fuel : nat) (str : list Z) (dir_clust : Z) (dir_enterable : bool) (loc : option Loc) : DS D Found :=
  match fuel with
  | O => stop OutOfFuel
  | S fuel =>
    let str := skip_slashes str in
    let len := subpath_len str in
    if len =? 0 then mret (mk_Found FAT_ERR_NONE str loc) else
    if negb dir_enterable then mret (mk_Found FAT_ERR_PATH str loc) else
    dir_enter dir_clust;;
    r ← catch (dir_search str len);
    match r with
    | inl err => mret (mk_Found err str loc)
    | inr loc =>
      let str := drop (Z.to_nat len) str in
      e ← dir_ptr;
      let '(b, o) := e : list Z * Z in
      follow_loop fuel str (sfn_cluster b o) (negb (Z.land (get8 b (o + SFN_ATTR)) FAT_ATTR_DIR =? 0)) loc
    end
  end.

(** follow_path from the volume's root, for the path after the volume's name. *)
Definition follow_volume (str : list Z) : DS D Found :=
  f ← on_vol (vol id);
  dir_enter (root_clust f);;
  d ← get_dir;
  follow_loop (S (length str)) str (d_clust d) true None.

(** ** Removing entries *)
Fixpoint remove_entries_loop (fuel : nat) (s idx : Z) : DS D unit :=
  match fuel with
  | O => stop OutOfFuel
  | S fuel =>
    e ← load_entry;
    on_vol (upd_buf (put8 e.2 SFN_FREE));;
    on_vol (set_flag FAT_BUF_DIRTY);;
    d ← get_dir;
    if (d_sect d =? s) && (d_idx d =? idx) then mret tt else
    dir_next;;
    remove_entries_loop fuel s idx
  end.

Definition remove_entries (loc : Loc) : DS D unit :=
  d ← get_dir;
  f ← on_vol (vol id);
  upd_dir (with_place (sect_to_clust f (l_sect loc)) (l_sect loc) (l_idx loc));;
  fuel ← dir_fuel;
  remove_entries_loop fuel (d_sect d) (d_idx d).

(** ** Adding an entry *)

(** The search for [lfns + 1] consecutive free entries: where they start, and
    whether the end of the directory has been met. *)
Fixpoint free_entries_loop (fuel : nat) (lfns cnt : Z) (eod : bool) (loc : Loc) : DS D (Loc * bool) :=
  match fuel with
  | O => stop OutOfFuel
  | S fuel =>
    if cnt <? lfns + 1 then
      e ← load_entry;
      let '(b, o) := e : list Z * Z in
      d ← get_dir;
      let is_free := eod || sfn_is_free b o in
      let loc := if is_free && (cnt =? 0) then mk_Loc (d_sect d) (d_idx d) else loc in
      let cnt := if is_free then cnt + 1 else 0 in
      let eod := eod || sfn_is_last b o in
      dir_next_stretch;;
      free_entries_loop fuel lfns cnt eod loc
    else mret (loc, eod)
  end.

(** The long-name entries, from the last fragment to the first. *)
Fixpoint lfn_write_loop (i : nat) (name : list Z) (len crc mask : Z) : DS D unit :=
  match i with
  | O => mret tt
  | S i' =>
    e ← load_entry;
    let o := e.2 in
    on_vol (set_flag FAT_BUF_DIRTY);;
    let pos := 13 * (Z.of_nat i - 1) in
    on_vol (upd_buf (put_lfn_name_frag o (drop (Z.to_nat pos) name) (LIMIT (len - pos) 13)));;
    on_vol (upd_buf (put8 (o + SFN_ATTR) FAT_ATTR_LFN));;
    on_vol (upd_buf (put8 (o + LFN_SEQ) (Z.lor mask (Z.of_nat i))));;
    on_vol (upd_buf (put8 (o + LFN_CRC) crc));;
    on_vol (upd_buf (put8 (o + LFN_TYPE) 0));;
    on_vol (upd_buf (put16 (o + LFN_CLUST) 0));;
    dir_next;;
    lfn_write_loop i' name len crc 0
  end.

(** The fields of a new entry at offset [o]. *)
Definition put_sfn (o : Z) (sfn_name : list Z) (clust attr date time : Z) (b : list Z) : list Z :=
  let b := put_bytes o (take 11 sfn_name) b in
  let b := put16 (o + SFN_CLUST_HI) (Z.shiftr clust 16) b in
  let b := put16 (o + SFN_CLUST_LO) (Z.land clust 65535) b in
  let b := put8 (o + SFN_ATTR) attr b in
  let b := put8 (o + SFN_RESERVED) 0 b in
  let b := put8 (o + SFN_TENTH) 0 b in
  let b := put16 (o + SFN_CRE_TIME) time b in
  let b := put16 (o + SFN_MOD_TIME) time b in
  let b := put16 (o + SFN_CRE_DATE) date b in
  let b := put16 (o + SFN_MOD_DATE) date b in
  let b := put16 (o + SFN_ACC_DATE) date b in
  put32 (o + SFN_FILE_SIZE) 0 b.

Definition dir_add (name : list Z) (len attr clust : Z) : DS D unit :=
  if (len <=? 0) || (255 <? len) then throw FAT_ERR_PARAM else
  let lfns := (len + 12) / 13 in
  d ← get_dir;
  dir_enter (d_sclust d);;
  fuel ← dir_fuel;
  r ← free_entries_loop (fuel + 32) lfns 0 false (mk_Loc 0 0);
  let '(loc, eod) := r : Loc * bool in
  (if eod : bool then
     e ← load_entry;
     on_vol (upd_buf (put8 e.2 0));;
     on_vol (set_flag FAT_BUF_DIRTY)
   else mret tt);;
  f ← on_vol (vol id);
  upd_dir (with_place (sect_to_clust f (l_sect loc)) (l_sect loc) (l_idx loc));;
  let sfn_name := put_sfn_name (replicate 11 0) name len in
  let crc := get_crc sfn_name in
  lfn_write_loop (Z.to_nat lfns) name len crc LFN_HEAD_MSK;;
  let '(date, time) := encode_timestamp in
  e ← load_entry;
  on_vol (set_flag FAT_BUF_DIRTY);;
  on_vol (upd_buf (put_sfn e.2 sfn_name clust attr date time)).
End dir.
