(* ===== verification/FatFile.v ===== *)
(** * FAT32: mounting, files and directories (libs/fat32/fat.c)

    The interface of the library: probing and mounting, open files, and the
    functions on paths.  [FatSys] is the head of the list of mounted volumes
    (g_fat_list), the structures themselves by address, each with its [next]
    field, the disk and the global buffer. *)
From stdpp Require Import base gmap list.
From Stdlib Require Import ZArith Lia.
From S2P Require Import Prelude FatFormat FatVolume FatDir.

#[local] Open Scope Z_scope.

(** ** Data *)
Record DirInfo : Type := mk_DirInfo {
  created : Timestamp;
  modified : Timestamp;
  i_size : Z;
  i_attr : Z;
  i_name : list Z;
  i_name_len : Z
}.

Record File : Type := mk_File {
  f_fat : option Z;
  f_dir_sect : Z;
  f_sclust : Z;
  f_clust : Z;
  f_sect : Z;
  f_size : Z;
  f_offset : Z;
  f_dir_idx : Z;
  f_attr : Z;
  f_flags : Z;
  f_buf : list Z
}.

Definition with_f_clust (v : Z) (f : File) : File :=
  mk_File (f_fat f) (f_dir_sect f) (f_sclust f) v (f_sect f) (f_size f) (f_offset f) (f_dir_idx f) (f_attr f) (f_flags f) (f_buf f).
Definition with_f_sect (v : Z) (f : File) : File :=
  mk_File (f_fat f) (f_dir_sect f) (f_sclust f) (f_clust f) v (f_size f) (f_offset f) (f_dir_idx f) (f_attr f) (f_flags f) (f_buf f).
Definition with_f_size (v : Z) (f : File) : File :=
  mk_File (f_fat f) (f_dir_sect f) (f_sclust f) (f_clust f) (f_sect f) v (f_offset f) (f_dir_idx f) (f_attr f) (f_flags f) (f_buf f).
Definition with_f_offset (v : Z) (f : File) : File :=
  mk_File (f_fat f) (f_dir_sect f) (f_sclust f) (f_clust f) (f_sect f) (f_size f) v (f_dir_idx f) (f_attr f) (f_flags f) (f_buf f).
Definition with_f_flags (v : Z) (f : File) : File :=
  mk_File (f_fat f) (f_dir_sect f) (f_sclust f) (f_clust f) (f_sect f) (f_size f) (f_offset f) (f_dir_idx f) (f_attr f) v (f_buf f).
Definition with_f_buf (v : list Z) (f : File) : File :=
  mk_File (f_fat f) (f_dir_sect f) (f_sclust f) (f_clust f) (f_sect f) (f_size f) (f_offset f) (f_dir_idx f) (f_attr f) (f_flags f) v.

Record FatSys (D : Type) : Type := mk_FatSys {
  g_fat_list : option Z;
  fats : gmap Z (option Z * Fat D);
  s_disk : D;
  s_buf : list Z;
  s_len : Z;
  s_crc : Z
}.
Arguments mk_FatSys {D}. Arguments g_fat_list {D}. Arguments fats {D}. Arguments s_disk {D}.
Arguments s_buf {D}. Arguments s_len {D}. Arguments s_crc {D}.

Abbreviation SYS D := (E (FatSys D)) (only parsing).
Abbreviation FILE D := (E (File * Vol D)) (only parsing).

Definition file_vol {D A} (m : FS D A) : FILE D A := zoom snd (λ v s, (s.1, v)) m.
Definition get_file {D} : FILE D File := λ s, Done (inr s.1, s).
Definition upd_file {D} (f : File → File) : FILE D unit := λ s, Done (inr tt, (f s.1, s.2)).

Section files.
Context {D : Type}.

(** ** Seeking: the cluster chain is followed, and extended past its end *)
Definition FAT_SEEK_START : Z := 0.
Definition FAT_SEEK_CURR : Z := 1.
Definition FAT_SEEK_END : Z := 2.

Fixpoint seek_loop (n : nat) : FILE D unit :=
  match n with
  | O => mret tt
  | S n =>
    f ← get_file;
    r ← file_vol (get_fat (f_clust f));
    let '(next, fl) := r : Z * Z in
    if has fl (Z.lor CLUST_BAD CLUST_FREE) then throw FAT_ERR_BROKEN else
    next ← (if has fl CLUST_LAST then file_vol (stretch_chain (f_clust f)) else mret next);
    upd_file (with_f_clust next);;
    seek_loop n
  end.

Definition fat_file_seek (offset seek : Z) : FILE D unit :=
  f ← get_file;
  let ssect := f_sect f in
  match f_fat f with
  | None => throw FAT_ERR_PARAM
  | Some _ =>
    let off64 := (if seek =? FAT_SEEK_START then 0 else if seek =? FAT_SEEK_CURR then f_offset f
                  else if seek =? FAT_SEEK_END then f_size f else 0) + offset in
    if (off64 <? 0) || (0xffffffff <? off64) then throw FAT_ERR_EOF else
    let off := off64 in
    v ← file_vol (vol id);
    let clust_size := u32 (Z.shiftl 512 (clust_shift v)) in
    let dst_clust := off / clust_size in
    let src_clust := f_offset f / clust_size in
    src_clust ← (if dst_clust <? src_clust then
      upd_file (with_f_clust (f_sclust f));;
      upd_file (with_f_sect (clust_to_sect v (f_sclust f)));;
      upd_file (with_f_offset 0);;
      mret 0
    else mret src_clust);
    seek_loop (Z.to_nat (dst_clust - src_clust));;
    f ← get_file;
    v ← file_vol (vol id);
    upd_file (with_f_sect (u32 (clust_to_sect v (f_clust f) + Z.land (off / 512) (clust_msk v))));;
    upd_file (with_f_offset off);;
    f ← get_file;
    if negb (f_sect f =? ssect) then
      (if has (f_flags f) FAT_FILE_DIRTY then
         ok ← file_vol (ops_write (f_buf f) ssect);
         if (ok : bool) then upd_file (λ f, with_f_flags (Z.land (f_flags f) (Z.lnot FAT_FILE_DIRTY)) f) else throw FAT_ERR_IO
       else mret tt);;
      r ← file_vol (ops_read (f_buf f) (f_sect f));
      upd_file (with_f_buf r.2);;
      if (r.1 : bool) then mret tt else throw FAT_ERR_IO
    else mret tt
  end.

(** ** Reading: the error code and the bytes stored in the caller's buffer *)
Fixpoint read_loop (fuel : nat) (len : Z) (out : list Z) : FILE D (Z * list Z) :=
  match fuel with
  | O => stop OutOfFuel
  | S fuel =>
    f ← get_file;
    if negb (len =? 0) && (f_offset f <? f_size f) then
      let idx := f_offset f mod 512 in
      let cnt := s32 (LIMIT (u32 len) (LIMIT (512 - idx) (u32 (f_size f - f_offset f)))) in
      let out := out ++ get_bytes (Z.to_nat cnt) (f_buf f) idx in
      let len := s32 (len - cnt) in
      r ← catch (fat_file_seek cnt FAT_SEEK_CURR);
      match r with
      | inl err => mret (err, out)
      | inr _ => read_loop fuel len out
      end
    else mret (FAT_ERR_NONE, out)
  end.

Definition fat_file_read (len : Z) : FILE D (Z * list Z) :=
  f ← get_file;
  match f_fat f with
  | None => mret (FAT_ERR_PARAM, [])
  | Some _ =>
    if Z.land (f_flags f) FAT_READ =? 0 then mret (FAT_ERR_DENIED, []) else
    upd_file (λ f, with_f_flags (Z.lor (f_flags f) FAT_ACCESSED) f);;
    f ← get_file;
    read_loop (S (Z.to_nat (f_size f))) len []
  end.

(** ** Writing: the error code and the number of bytes written *)
Fixpoint write_loop (fuel : nat) (src : list Z) (len bytes : Z) : FILE D Z :=
  match fuel with
  | O => stop OutOfFuel
  | S fuel =>
    if len =? 0 then mret bytes else
    f ← get_file;
    let idx := f_offset f mod 512 in
    let cnt := LIMIT len (512 - idx) in
    upd_file (λ f, with_f_buf (put_bytes idx (get_bytes (Z.to_nat (Z.max 1 cnt)) src 0) (f_buf f)) f);;
    upd_file (λ f, with_f_flags (Z.lor (f_flags f) FAT_FILE_DIRTY) f);;
    let bytes := s32 (bytes + cnt) in
    r ← catch (fat_file_seek cnt FAT_SEEK_CURR);
    match r with
    | inl _ => mret bytes
    | inr _ => write_loop fuel (drop (Z.to_nat cnt) src) (s32 (len - cnt)) bytes
    end
  end.

Definition fat_file_write (src : list Z) (len : Z) : FILE D (Z * Z) :=
  f ← get_file;
  match f_fat f with
  | None => mret (FAT_ERR_PARAM, 0)
  | Some _ =>
    if Z.land (f_flags f) FAT_WRITE =? 0 then mret (FAT_ERR_DENIED, 0) else
    upd_file (λ f, with_f_flags (Z.lor (f_flags f) (Z.lor FAT_MODIFIED FAT_ACCESSED)) f);;
    bytes ← write_loop (S (S (Z.to_nat len))) src len 0;
    upd_file (λ f, if f_size f <? f_offset f then with_f_size (f_offset f) f else f);;
    mret (FAT_ERR_NONE, bytes)
  end.

(** ** Synchronising and closing *)
Definition fat_file_sync : FILE D unit :=
  f ← get_file;
  match f_fat f with
  | None => throw FAT_ERR_PARAM
  | Some _ =>
    ok ← file_vol (ops_write (f_buf f) (f_sect f));
    if negb (ok : bool) then throw FAT_ERR_IO else
    (if has (f_flags f) (Z.lor FAT_ACCESSED FAT_MODIFIED) then
       file_vol (update_buf (f_dir_sect f));;
       let o := f_dir_idx f in
       file_vol (set_flag FAT_BUF_DIRTY);;
       let '(date, time) := encode_timestamp in
       (if has (f_flags f) FAT_ACCESSED then file_vol (upd_buf (put16 (o + SFN_ACC_DATE) date)) else mret tt);;
       (if has (f_flags f) FAT_MODIFIED then
          file_vol (upd_buf (λ b, put8 (o + SFN_ATTR) (Z.lor (get8 b (o + SFN_ATTR)) FAT_ATTR_ARCHIVE) b));;
          file_vol (upd_buf (put32 (o + SFN_FILE_SIZE) (f_size f)));;
          file_vol (upd_buf (put16 (o + SFN_MOD_DATE) date));;
          file_vol (upd_buf (put16 (o + SFN_MOD_TIME) time))
        else mret tt)
     else mret tt);;
    file_vol sync_fs;;
    upd_file (λ f, with_f_flags (Z.land (f_flags f) (Z.lnot (Z.lor FAT_ACCESSED FAT_MODIFIED))) f)
  end.

Definition fat_file_close : FILE D unit :=
  f ← get_file;
  match f_fat f with
  | None => throw FAT_ERR_PARAM
  | Some _ => fat_file_sync
  end.

(** ** Reading directories *)
Fixpoint dir_read_loop (fuel : nat) : DS D DirInfo :=
  match fuel with
  | O => stop OutOfFuel
  | S fuel =>
    e ← load_entry;
    let '(b, o) := e : list Z * Z in
    if sfn_is_last b o then throw FAT_ERR_EOF else
    if sfn_is_free b o then dir_next;; dir_read_loop fuel else
    e ← (if sfn_is_lfn b o then
           parse_lfn_name;;
           e ← load_entry;
           let '(b, o) := e : list Z * Z in
           v ← get_vol;
           if sfn_is_free b o || negb (g_crc v =? get_crc (get_bytes 11 b o)) then throw FAT_ERR_BROKEN else mret (b, o)
         else
           let out := parse_sfn_name (get_bytes 11 b o) in
           on_vol (λ v, Done (inr tt, with_g_buf (put_bytes 0 out (g_buf v)) v));;
           set_g_len (Z.of_nat (length out));;
           mret (b, o));
    let '(b, o) := e : list Z * Z in
    v ← get_vol;
    mret (mk_DirInfo (decode_timestamp (get16 b (o + SFN_CRE_DATE)) (get16 b (o + SFN_CRE_TIME)))
            (decode_timestamp (get16 b (o + SFN_MOD_DATE)) (get16 b (o + SFN_MOD_TIME)))
            (get32 b (o + SFN_FILE_SIZE)) (get8 b (o + SFN_ATTR))
            (get_bytes (Z.to_nat (Z.max 1 (g_len v))) (g_buf v) 0) (u8 (g_len v)))
  end.

Definition fat_dir_read : DS D DirInfo :=
  d ← get_dir;
  match d_fat d with
  | None => throw FAT_ERR_PARAM
  | Some _ => fuel ← dir_fuel; dir_read_loop fuel
  end.

Definition fat_dir_next : DS D unit :=
  d ← get_dir;
  match d_fat d with None => throw FAT_ERR_PARAM | Some _ => dir_next end.

Definition fat_dir_rewind : DS D unit :=
  d ← get_dir;
  match d_fat d with None => throw FAT_ERR_PARAM | Some _ => dir_at_clust (d_sclust d) end.

(** ** Probing a disk *)
Definition check_fat (b : list Z) : bool :=
  if negb (get8 b 0 =? 0xeb) && negb (get8 b 0 =? 0xe9) then false else
  if negb (get8 b BPB_FAT_CNT =? 2) then false else
  if negb (get16 b BPB_ROOT_ENT_CNT =? 0) || negb (get16 b BPB_SECT_CNT_16 =? 0) || negb (get16 b BPB_SECT_PER_FAT_16 =? 0)
  then false else
  if negb (get16 b BPB_INFO_SECT =? 1) then false else
  if negb (same_bytes 8 b BPB_FS_TYPE [70; 65; 84; 51; 50; 32; 32; 32] 0) then false else
  if negb (get16 b BPB_BYTES_PER_SECT =? 512) then false else
  if (Z.land (get16 b BPB_EXT_FLAGS) EXT_FLAG_MIRROR =? 0) && (1 <? Z.land (get16 b BPB_EXT_FLAGS) EXT_FLAG_ACT) then false else
  let sect_cnt := u32 (get32 b BPB_SECT_CNT_32 - u32 (get16 b BPB_RES_SECT_CNT + get8 b BPB_FAT_CNT * get32 b BPB_SECT_PER_FAT_32)) in
  65525 <=? sect_cnt / get8 b BPB_SECT_PER_CLUST.

Definition get_part_lba (b : list Z) (partition : Z) : option Z :=
  if negb (get16 b MBR_SIG =? 0xaa55) then None else
  if negb (get8 b (MBR_PART partition + 4) =? 0x0c) then None else
  Some (get32 b (MBR_PART partition + 8)).

(** [ops->read(g_buf, sect)] *)
Definition sys_read (o : DiskOps D) (s : Z) : SYS D unit := λ t,
  match disk_read o (s_buf t) s (s_disk t) with
  | Done (ok, b, d) =>
    Done (if (ok : bool) then inr tt else inl FAT_ERR_IO, mk_FatSys (g_fat_list t) (fats t) d b (s_len t) (s_crc t))
  | Fault e => Fault e
  end.
Definition sys_buf : SYS D (list Z) := λ t, Done (inr (s_buf t), t).

Definition probe (o : DiskOps D) (partition : Z) : SYS D Z :=
  sys_read o 0;;
  b ← sys_buf;
  if check_fat b then if partition =? 0 then mret 0 else throw FAT_ERR_NOFAT else
  match get_part_lba b partition with
  | None => throw FAT_ERR_NOFAT
  | Some lba =>
    sys_read o lba;;
    b ← sys_buf;
    if check_fat b then mret lba else throw FAT_ERR_NOFAT
  end.

Definition fat_probe (o : DiskOps D) (partition : Z) : SYS D unit := probe o partition;; mret tt.

(** [__builtin_ctz] of a byte. *)
Fixpoint ctz (n : nat) (x i : Z) : Z :=
  match n with O => i | S n => if Z.testbit x i then i else ctz n x (i + 1) end.

(** The structure of a volume from its boot sector; [t] is its memory before. *)
Definition mount_fields (b : list Z) (lba : Z) (t : Fat D) : Fat D :=
  let mirror := negb (Z.land (get16 b BPB_EXT_FLAGS) EXT_FLAG_MIRROR =? 0) in
  let use_first := Z.land (get16 b BPB_EXT_FLAGS) EXT_FLAG_SECOND =? 0 in
  let fat_0 := u32 (lba + get16 b BPB_RES_SECT_CNT) in
  let fat_1 := u32 (lba + get16 b BPB_RES_SECT_CNT + get32 b BPB_SECT_PER_FAT_32) in
  mk_Fat (ops t) (u32 (get8 b BPB_SECT_PER_CLUST - 1)) (u32 (get32 b BPB_SECT_PER_FAT_32 * 128)) (u32 (lba + get16 b BPB_INFO_SECT))
    (if use_first then fat_0 else fat_1, if mirror then if use_first then fat_1 else fat_0 else 0)
    (u32 (lba + get16 b BPB_RES_SECT_CNT + get8 b BPB_FAT_CNT * get32 b BPB_SECT_PER_FAT_32))
    (get32 b BPB_ROOT_CLUSTER) (last_used t) (free_cnt t) (sect t) (buf t) (flags t)
    (ctz 8 (get8 b BPB_SECT_PER_CLUST) 0) (name_len t) (name t).

Definition info_ok (b : list Z) : bool :=
  (get32 b INFO_TAIL_SIG =? FSINFO_TAIL_SIG) && (get32 b INFO_HEAD_SIG =? FSINFO_HEAD_SIG) &&
  (get32 b INFO_STRUCT_SIG =? FSINFO_STRUCT_SIG) && negb (get32 b INFO_NEXT_FREE =? 0xffffffff) &&
  negb (get32 b INFO_FREE_CNT =? 0xffffffff).

Definition upd_sys (f : FatSys D → FatSys D) : SYS D unit := λ s, Done (inr tt, f s).
Definition set_head (o : option Z) : SYS D unit :=
  upd_sys (λ s, mk_FatSys o (fats s) (s_disk s) (s_buf s) (s_len s) (s_crc s)).
Definition get_head : SYS D (option Z) := λ s, Done (inr (g_fat_list s), s).

(** [*p], of which [fst] is the field [next]. *)
Definition get_volume (p : Z) : SYS D (option Z * Fat D) := λ s,
  match fats s !! p with Some t => Done (inr t, s) | None => Fault DanglingPointer end.
Definition set_volume (p : Z) (t : option Z * Fat D) : SYS D unit :=
  upd_sys (λ s, mk_FatSys (g_fat_list s) (<[p := t]> (fats s)) (s_disk s) (s_buf s) (s_len s) (s_crc s)).

(** Names are shorter than 33 characters, so [name] has no terminator of its own. *)
Definition fat_mount (o : DiskOps D) (partition : Z) (p : Z) (nm : list Z) : SYS D unit :=
  lba ← probe o partition;
  b ← sys_buf;
  t ← get_volume p;
  set_volume p (t.1, mount_fields b lba t.2);;
  t ← get_volume p;
  sys_read o (info_sect t.2);;
  b ← sys_buf;
  if negb (info_ok b) then throw FAT_ERR_NOFAT else
  t ← get_volume p;
  set_volume p (t.1, with_free_cnt (get32 b INFO_FREE_CNT) (with_last_used (get32 b INFO_NEXT_FREE) t.2));;
  let len := Z.of_nat (length nm) in
  if 32 <? len then throw FAT_ERR_PARAM else
  t ← get_volume p;
  let t := t.2 in
  head ← get_head;
  set_volume p (head, mk_Fat o (clust_msk t) (clust_cnt t) (info_sect t) (fat_sect t) (data_sect t) (root_clust t)
    (last_used t) (free_cnt t) 0 (buf t) (flags t) (clust_shift t) len (put_bytes 0 nm (name t)));;
  set_head (Some p).

(** ** Volumes *)
Definition vol_of (t : Fat D) (s : FatSys D) : Vol D := mk_Vol t (s_disk s) (s_buf s) (s_len s) (s_crc s).

(** Code on the volume at [p], and on a local structure [X]. *)
Definition in_volume {X A} (p : Z) (m : E (X * Vol D) A) : E (X * FatSys D) A := λ xs,
  let '(x, s) := xs in
  match fats s !! p with
  | None => Fault DanglingPointer
  | Some (next, t) =>
    match m (x, vol_of t s) with
    | Done (r, (x, v)) =>
      Done (r, (x, mk_FatSys (g_fat_list s) (<[p := (next, fat v)]> (fats s)) (disk v) (g_buf v) (g_len v) (g_crc v)))
    | Fault e => Fault e
    end
  end.

Definition on_volume {A} (p : Z) (m : FS D A) : SYS D A := λ s,
  match in_volume p (zoom snd (λ v x, (x.1, v)) m) (tt, s) with
  | Done (r, (_, s)) => Done (r, s)
  | Fault e => Fault e
  end.

Fixpoint find_loop (fuel : nat) (it : option Z) (nm : list Z) (len : Z) : SYS D (option Z) :=
  match fuel, it with
  | O, _ => stop OutOfFuel
  | _, None => mret None
  | S fuel, Some p =>
    t ← get_volume p;
    if (len =? name_len t.2) && same_bytes (Z.to_nat len) nm 0 (name t.2) 0 then mret (Some p)
    else find_loop fuel t.1 nm len
  end.

Definition list_fuel : SYS D nat := λ s, Done (inr (S (size (fats s))), s).

Definition find_fat_volume (nm : list Z) (len : Z) : SYS D (option Z) :=
  head ← get_head;
  fuel ← list_fuel;
  find_loop fuel head nm len.

(** [it] is the field that holds the pointer: the head of the list ([None]) or the
    field [next] of a volume. *)
Fixpoint umount_loop (fuel : nat) (it cur : option Z) (p : Z) : SYS D unit :=
  match fuel with
  | O => stop OutOfFuel
  | S fuel =>
    match cur with
    | None => throw FAT_ERR_PARAM
    | Some q =>
      t ← get_volume q;
      if q =? p then
        match it with
        | None => set_head t.1
        | Some r => u ← get_volume r; set_volume r (t.1, u.2)
        end
      else umount_loop fuel (Some q) t.1 p
    end
  end.

Definition fat_umount (p : Z) : SYS D unit :=
  head ← get_head;
  fuel ← list_fuel;
  umount_loop fuel None head p;;
  on_volume p sync_fs.

Definition fat_sync (p : Z) : SYS D unit := on_volume p sync_fs.

(** ** Paths *)
Abbreviation DIR D := (E (Dir * FatSys D)) (only parsing).

Definition on_sys {X A} (m : SYS D A) : E (X * FatSys D) A := zoom snd (λ s x, (x.1, s)) m.
Definition get_local {X} : E (X * FatSys D) X := λ s, Done (inr s.1, s).
Definition upd_local {X} (f : X → X) : E (X * FatSys D) unit := λ s, Done (inr tt, (f s.1, s.2)).

(** Code on a local [Y], in a function whose argument is [X]. *)
Definition with_local {X Y A} (y : Y) (m : E (Y * FatSys D) A) : E (X * FatSys D) (Z + A * Y) := λ xs,
  match m (y, xs.2) with
  | Done (inl err, (_, s)) => Done (inr (inl err), (xs.1, s))
  | Done (inr a, (y, s)) => Done (inr (inr (a, y)), (xs.1, s))
  | Fault e => Fault e
  end.

Definition follow_path (path : list Z) : DIR D Found :=
  if negb (char_at path 0 =? 47) then mret (mk_Found FAT_ERR_PATH path None) else
  let str := drop 1 path in
  let len := subpath_len str in
  if len =? 0 then mret (mk_Found FAT_ERR_PATH path None) else
  p ← on_sys (find_fat_volume str len);
  upd_local (with_d_fat p);;
  match p with
  | None => mret (mk_Found FAT_ERR_PATH path None)
  | Some p => in_volume p (follow_volume (drop (Z.to_nat len) str))
  end.

(** The volume of a cursor that follow_path has set. *)
Definition dir_volume {A} (m : DS D A) : DIR D A :=
  d ← get_local;
  match d_fat d with Some p => in_volume p m | None => stop NullPointer end.

Definition new_dir : Dir := mk_Dir None 0 0 0 0.

Definition on_local_dir {A} (m : DIR D A) : SYS D A := λ s,
  match m (new_dir, s) with Done (r, (_, s)) => Done (r, s) | Fault e => Fault e end.

Definition fat_stat (path : list Z) : SYS D DirInfo := on_local_dir (
  r ← follow_path path;
  if negb (fd_err r =? 0) then throw (fd_err r) else
  if negb (subpath_len (fd_path r) =? 0) then throw FAT_ERR_PATH else
  match fd_loc r with
  | None => stop Uninitialised
  | Some loc =>
    dir_volume (
      f ← on_vol (vol id);
      upd_dir (with_place (sect_to_clust f (l_sect loc)) (l_sect loc) (l_idx loc));;
      fat_dir_read)
  end).

(** ** Unlinking *)
Fixpoint empty_loop (fuel : nat) : DS D unit :=
  match fuel with
  | O => stop OutOfFuel
  | S fuel =>
    e ← load_entry;
    let '(b, o) := e : list Z * Z in
    if sfn_is_last b o then mret tt else
    if negb (sfn_is_free b o) then throw FAT_ERR_DENIED else
    dir_next;;
    empty_loop fuel
  end.

(** The directory whose first cluster is [clust] holds no entry but dot and dot-dot;
    the cursor it is read with is a copy. *)
Definition check_empty (clust : Z) : DS D unit := λ s,
  match (dir_enter clust;; dir_advance 2;; fuel ← dir_fuel; empty_loop fuel) s with
  | Done (r, (_, v)) => Done (r, (s.1, v))
  | Fault e => Fault e
  end.

Definition unlink_volume (loc : option Loc) : DS D unit :=
  root ← dir_at_root;
  if (root : bool) then throw FAT_ERR_DENIED else
  e ← dir_ptr;
  let '(b, o) := e : list Z * Z in
  let clust := sfn_cluster b o in
  let attr := get8 b (o + SFN_ATTR) in
  if has attr (Z.lor FAT_ATTR_RO (Z.lor FAT_ATTR_SYS FAT_ATTR_LABEL)) then throw FAT_ERR_DENIED else
  (if has attr FAT_ATTR_DIR then check_empty clust else mret tt);;
  on_vol (remove_chain clust);;
  match loc with
  | None => stop Uninitialised
  | Some loc => remove_entries loc;; on_vol sync_fs
  end.

Definition fat_unlink (path : list Z) : SYS D unit := on_local_dir (
  r ← follow_path path;
  if negb (fd_err r =? 0) then throw (fd_err r) else dir_volume (unlink_volume (fd_loc r))).

(** ** Opening *)

(** The file for the entry the cursor points to; [f] is its memory before. *)
Definition file_of (fl : Z) (p : option Z) (d : Dir) (b : list Z) (o : Z) (f : File) : File :=
  let sclust := sfn_cluster b o in
  let size := get32 b (o + SFN_FILE_SIZE) in
  let trunc := negb (size =? 0) && has fl FAT_TRUNC in
  mk_File p (d_sect d) sclust sclust 0xffffffff (if trunc then 0 else size) 0 (d_idx d) (get8 b (o + SFN_ATTR))
    (if trunc then Z.lor fl FAT_MODIFIED else fl) (f_buf f).

(** The entry of the path, created when it is missing and FAT_CREATE asks for it. *)
Definition open_entry (path : list Z) (fl : Z) : DIR D (list Z * Z) :=
  r ← follow_path path;
  if negb (fd_err r =? 0) && negb (fd_err r =? FAT_ERR_EOF) then throw (fd_err r) else
  (if fd_err r =? FAT_ERR_EOF then
     if Z.land fl FAT_CREATE =? 0 then throw FAT_ERR_DENIED else
     let len := last_subpath_len (fd_path r) in
     if len =? 0 then throw FAT_ERR_PATH else
     dir_volume (
       clust ← on_vol create_chain;
       dir_add (fd_path r) len FAT_ATTR_ARCHIVE clust)
   else mret tt);;
  dir_volume dir_ptr.

Definition fat_file_open (path : list Z) (fl : Z) : E (File * FatSys D) unit :=
  r ← with_local new_dir (open_entry path fl);
  match r with
  | inl err => throw err
  | inr ((b, o), d) =>
    upd_local (file_of fl (d_fat d) d b o);;
    match d_fat d with
    | None => throw FAT_ERR_PARAM
    | Some p => in_volume p (fat_file_seek 0 (if has fl FAT_APPEND then FAT_SEEK_END else FAT_SEEK_START))
    end
  end.

(** ** Creating and opening directories *)

(** The entries dot and dot-dot at the start of a cleared buffer. *)
Definition put_dots (clust parent date time : Z) (b : list Z) : list Z :=
  let b := put_bytes 0 (replicate 11 32) b in
  let b := put8 0 46 b in
  let b := put8 SFN_ATTR FAT_ATTR_DIR b in
  let b := put16 SFN_CLUST_HI (Z.shiftr clust 16) b in
  let b := put16 SFN_CLUST_LO (Z.land clust 65535) b in
  let b := put16 SFN_CRE_DATE date b in
  let b := put16 SFN_CRE_TIME time b in
  let b := put16 SFN_MOD_DATE date b in
  let b := put16 SFN_MOD_TIME time b in
  let b := put16 SFN_ACC_DATE date b in
  let b := put_bytes SFN_SIZE (get_bytes 32 b 0) b in
  let b := put8 (SFN_SIZE + 1) 46 b in
  let b := put16 (SFN_SIZE + SFN_CLUST_HI) (Z.shiftr parent 16) b in
  put16 (SFN_SIZE + SFN_CLUST_LO) (Z.land parent 65535) b.

Definition create_in (path : list Z) (len : Z) : DS D unit :=
  clust ← on_vol create_chain;
  on_vol (clust_clear clust);;
  let '(date, time) := encode_timestamp in
  f ← on_vol (vol id);
  on_vol (update_buf (clust_to_sect f clust));;
  on_vol (set_flag FAT_BUF_DIRTY);;
  d ← get_dir;
  f ← on_vol (vol id);
  let parent := if d_sclust d =? root_clust f then 0 else d_sclust d in
  on_vol (upd_buf (put_dots clust parent date time));;
  dir_add path len FAT_ATTR_DIR clust;;
  dir_enter clust;;
  on_vol sync_fs.

Definition fat_dir_create (path : list Z) : DIR D unit :=
  r ← follow_path path;
  if negb (fd_err r =? FAT_ERR_EOF) then (if fd_err r =? 0 then mret tt else throw (fd_err r)) else
  let len := last_subpath_len (fd_path r) in
  if len =? 0 then throw FAT_ERR_PATH else
  dir_volume (create_in (fd_path r) len).

Definition fat_dir_open (path : list Z) : DIR D unit :=
  r ← follow_path path;
  if negb (fd_err r =? 0) then throw (fd_err r) else
  dir_volume (
    root ← dir_at_root;
    if (root : bool) then mret tt else
    e ← load_entry;
    let '(b, o) := e : list Z * Z in
    if Z.land (get8 b (o + SFN_ATTR)) FAT_ATTR_DIR =? 0 then throw FAT_ERR_PATH else
    dir_enter (sfn_cluster b o)).
End files.

(** ** Error names *)
Definition fat_error_names : list (list Z) :=
  [[70; 65; 84; 95; 69; 82; 82; 95; 78; 79; 78; 69]; [70; 65; 84; 95; 69; 82; 82; 95; 78; 79; 70; 65; 84];
   [70; 65; 84; 95; 69; 82; 82; 95; 66; 82; 79; 75; 69; 78]; [70; 65; 84; 95; 69; 82; 82; 95; 73; 79];
   [70; 65; 84; 95; 69; 82; 82; 95; 80; 65; 82; 65; 77]; [70; 65; 84; 95; 69; 82; 82; 95; 80; 65; 84; 72];
   [70; 65; 84; 95; 69; 82; 82; 95; 69; 79; 70]; [70; 65; 84; 95; 69; 82; 82; 95; 68; 69; 78; 73; 69; 68];
   [70; 65; 84; 95; 69; 82; 82; 95; 70; 85; 76; 76]].

Definition fat_get_error (err : Z) : list Z :=
  let err := s32 (- err) in
  if (err <? 0) || (9 <=? err) then [78; 85; 76; 76] else default [] (fat_error_names !! Z.to_nat err).
