(* ===== verification/FatFormatProps.v ===== *)
(** * FAT32: properties of the formats

    Timestamps and short names. *)
From stdpp Require Import base list.
From Stdlib Require Import ZArith Lia.
From S2P Require Import Prelude FatFormat FatVolume FatDir.

#[local] Open Scope Z_scope.

#[local] Ltac Zify.zify_post_hook ::= Z.div_mod_to_equations.

(** ** Bit fields *)
Lemma lor_field a b k : 0 ≤ k → 0 ≤ b < 2 ^ k → Z.lor (Z.shiftl a k) b = a * 2 ^ k + b.
Proof.
  intros Hk Hb. rewrite <- Z.shiftl_mul_pow2 by done. symmetry. rewrite Z.add_nocarry_lxor.
  - symmetry. apply Z.bits_inj'. intros n Hn. rewrite Z.lor_spec, Z.lxor_spec.
    destruct (Z.testbit (Z.shiftl a k) n) eqn:E1, (Z.testbit b n) eqn:E2; try done.
    exfalso. rewrite Z.shiftl_spec in E1 by done. destruct (decide (n < k)).
    + rewrite Z.testbit_neg_r in E1 by lia. done.
    + rewrite <- (Z.mod_small b (2 ^ k)), Z.mod_pow2_bits_high in E2 by lia. done.
  - apply Z.bits_inj'. intros n Hn. rewrite Z.land_spec, Z.bits_0, Z.shiftl_spec by done.
    destruct (decide (n < k)); [by rewrite (Z.testbit_neg_r a) by lia|].
    rewrite <- (Z.mod_small b (2 ^ k)), Z.mod_pow2_bits_high by lia. apply andb_false_r.
Qed.

Lemma land_field a k : 0 ≤ k → Z.land a (2 ^ k - 1) = a mod 2 ^ k.
Proof. intros Hk. rewrite <- Z.land_ones by done. f_equal. rewrite Z.ones_equiv. lia. Qed.

(** ** Timestamps *)
Lemma encode_date_value y m d :
  0 ≤ y < 64 → 0 ≤ m < 16 → 0 ≤ d < 32 →
  encode_date (mk_Timestamp 0 0 0 d m (y + 1980)) = y * 512 + m * 32 + d.
Proof.
  intros Hy Hm Hd. unfold encode_date. cbn [year month day].
  replace (y + 1980 - 1980) with y by lia.
  change 63 with (2 ^ 6 - 1). change 15 with (2 ^ 4 - 1). change 31 with (2 ^ 5 - 1).
  rewrite !land_field, !Z.mod_small by lia.
  replace (Z.shiftl m 5) with (m * 32) by (rewrite Z.shiftl_mul_pow2; lia).
  rewrite lor_field by lia.
  replace (y * 2 ^ 9 + m * 32) with (Z.shiftl (y * 16 + m) 5) by (rewrite Z.shiftl_mul_pow2 by lia; lia).
  rewrite lor_field by lia. rewrite u16_id; lia.
Qed.

Lemma encode_time_value h m s ts :
  0 ≤ h < 32 → 0 ≤ m < 64 → 0 ≤ s < 32 → hour ts = h → min ts = m → sec ts = 2 * s →
  encode_time ts = h * 2048 + m * 32 + s.
Proof.
  intros Hh Hm Hs Eh Em Es. unfold encode_time. rewrite Eh, Em, Es.
  replace (2 * s / 2) with s by (rewrite Z.mul_comm, Z.div_mul; lia).
  change 63 with (2 ^ 6 - 1). change 31 with (2 ^ 5 - 1).
  rewrite !land_field, !Z.mod_small by lia.
  rewrite (Z.lor_comm s), lor_field by lia.
  rewrite Z.lor_comm, lor_field by lia. rewrite u16_id; lia.
Qed.

Lemma decode_fields date time :
  decode_timestamp date time =
  mk_Timestamp ((time / 2048) mod 32) ((time / 32) mod 64) (2 * (time mod 32)) (date mod 32) ((date / 32) mod 16)
    ((date / 512) mod 64 + 1980).
Proof.
  unfold decode_timestamp. rewrite !Z.shiftr_div_pow2 by lia.
  change 31 with (2 ^ 5 - 1). change 63 with (2 ^ 6 - 1). change 15 with (2 ^ 4 - 1). rewrite !land_field by lia. reflexivity.
Qed.

(** A timestamp the format can hold: two-second steps, years 1980 to 2043. *)
Record representable (ts : Timestamp) : Prop := mk_representable {
  rp_hour : 0 ≤ hour ts < 32;
  rp_min : 0 ≤ min ts < 64;
  rp_sec : 0 ≤ sec ts < 64 ∧ sec ts mod 2 = 0;
  rp_day : 0 ≤ day ts < 32;
  rp_month : 0 ≤ month ts < 16;
  rp_year : 1980 ≤ year ts < 2044
}.

(** Timestamps. Encoding then decoding gives the timestamp back, for every
    timestamp with an even second and a year from 1980 to 2043; and every 16-bit
    date and time decode to such a timestamp, from which encoding recovers the
    time and the low 15 bits of the date. *)
Theorem timestamp_round_trip :
  (∀ ts, representable ts → decode_timestamp (encode_date ts) (encode_time ts) = ts) ∧
  (∀ date time, 0 ≤ date < 2 ^ 16 → 0 ≤ time < 2 ^ 16 →
     representable (decode_timestamp date time) ∧
     encode_time (decode_timestamp date time) = time ∧
     encode_date (decode_timestamp date time) = date mod 2 ^ 15).
Proof.
  split.
  - intros [h m s d mo y] [Hh Hm [Hs Hs2] Hd Hmo Hy]. cbn in *.
    assert (encode_date (mk_Timestamp h m s d mo y) = (y - 1980) * 512 + mo * 32 + d) as ->.
    { rewrite <- encode_date_value by lia. unfold encode_date. cbn. by replace (y - 1980 + 1980) with y by lia. }
    rewrite (encode_time_value h m (s / 2)) by (cbn; lia).
    rewrite decode_fields. f_equal; lia.
  - intros date time Hd Ht. rewrite decode_fields. split; [split; cbn; lia|]. split.
    + rewrite (encode_time_value ((time / 2048) mod 32) ((time / 32) mod 64) (time mod 32)) by (cbn; lia). lia.
    + unfold encode_date. cbn [year month day].
      pose proof (encode_date_value ((date / 512) mod 64) ((date / 32) mod 16) (date mod 32)) as H.
      unfold encode_date in H. cbn [year month day] in H. rewrite H by lia. change (2 ^ 15) with 32768. lia.
Qed.

(** ** Short names *)

(** The characters before and after the first dot. *)
Fixpoint dot_split (name : list Z) : list Z * list Z :=
  match name with
  | [] => ([], [])
  | c :: l => if c =? 46 then ([], l) else (c :: (dot_split l).1, (dot_split l).2)
  end.

Definition pad (n : nat) (l : list Z) : list Z := l ++ replicate (n - length l) SFN_PAD.

(** The short name of a long one: eight characters, three of extension. *)
Definition short_name (name : list Z) : list Z :=
  pad 8 (sfn_char <$> take 8 (dot_split name).1) ++ pad 3 (sfn_char <$> take 3 (dot_split name).2).

(** What a short name is made of. *)
Definition sfn_legal (c : Z) : Prop := 65 ≤ c ≤ 90 ∨ c ∈ sfn_special.

Lemma sfn_char_legal c : sfn_legal (sfn_char c).
Proof.
  unfold sfn_char. destruct ((65 <=? to_upper c) && (to_upper c <=? 90)) eqn:E1; [left; zify_bools; lia|].
  destruct (existsb (Z.eqb (to_upper c)) sfn_special) eqn:E2.
  - right. apply existsb_exists in E2 as (x & Hx & <-%Z.eqb_eq). by apply list_elem_of_In.
  - right. unfold sfn_special. rewrite !elem_of_cons. tauto.
Qed.

Lemma sfn_legal_byte c : sfn_legal c → 0 ≤ c < 256.
Proof. unfold sfn_legal, sfn_special. rewrite !elem_of_cons, elem_of_nil. lia. Qed.

Lemma put8_app i v (pre : list Z) x rest :
  Z.of_nat (length pre) = i → 0 ≤ v < 256 → put8 i v (pre ++ x :: rest) = (pre ++ [v]) ++ rest.
Proof.
  intros <- Hv. unfold put8. rewrite Nat2Z.id, u8_id by done. rewrite insert_app_r_alt by lia.
  rewrite Nat.sub_diag. simpl. by rewrite <- app_assoc.
Qed.

Lemma char_at_app (pre l : list Z) i : Z.of_nat (length pre) = i → char_at (pre ++ l) i = default 0 (head l).
Proof.
  intros <-. unfold char_at. rewrite Nat2Z.id, lookup_app_r, Nat.sub_diag by lia. by destruct l.
Qed.

Lemma dot_split_cons c l : c ≠ 46 → (dot_split (c :: l)).1 = c :: (dot_split l).1.
Proof. intros H. simpl. destruct (c =? 46) eqn:E; zify_bools; done. Qed.

(** The first loop copies up to eight characters before a dot. *)
Lemma sfn_base_loop_run n : ∀ pre rest pn todo i,
  length pre = Z.to_nat i → length pn = Z.to_nat i → 0 ≤ i ≤ 8 → (8 - Z.to_nat i < n)%nat → (8 ≤ length (pre ++ rest))%nat →
  let m := take (8 - Z.to_nat i) (dot_split todo).1 in
  sfn_base_loop n (pre ++ rest) (pn ++ todo) (Z.of_nat (length (pn ++ todo))) i =
  (pre ++ (sfn_char <$> m) ++ drop (length m) rest, i + Z.of_nat (length m)).
Proof.
  induction n as [|n IH]; intros pre rest pn todo i Hp Hpn Hi Hn Hlen m; [lia|].
  cbn [sfn_base_loop]. rewrite char_at_app by lia. unfold LIMIT. rewrite length_app in Hlen.
  destruct todo as [|c todo].
  - unfold m. rewrite length_app. cbn [length dot_split fst]. rewrite take_nil. cbn [length fmap list_fmap app].
    rewrite drop_0, Z.add_0_r. destruct (Z.of_nat _ <? 8) eqn:E; zify_bools.
    + rewrite (proj2 (Z.ltb_ge _ _)) by lia. done.
    + rewrite (proj2 (Z.ltb_ge i 8)) by lia. done.
  - assert (Z.of_nat (length (pn ++ c :: todo)) = i + 1 + Z.of_nat (length todo)) as El by (rewrite length_app; simpl; lia).
    cbn [head from_option id]. destruct (decide (c = 46)) as [->|Hc].
    + unfold m. simpl. rewrite take_nil. rewrite andb_false_r. simpl. by rewrite drop_0, Z.add_0_r.
    + rewrite (proj2 (Z.eqb_neq c 46)), andb_true_r by done.
      destruct (decide (i = 8)) as [->|Hi8].
      * unfold m. rewrite (proj2 (Z.ltb_ge _ _)) by (destruct (_ <? 8) eqn:?; zify_bools; lia).
        change (8 - Z.to_nat 8)%nat with 0%nat. simpl. by rewrite drop_0.
      * rewrite (proj2 (Z.ltb_lt _ _)) by (destruct (_ <? 8) eqn:?; zify_bools; lia).
        destruct rest as [|x rest]; [simpl in Hlen; lia|].
        rewrite put8_app; [|lia|apply sfn_legal_byte, sfn_char_legal].
        assert (pn ++ c :: todo = (pn ++ [c]) ++ todo) as -> by (by rewrite <- app_assoc).
        rewrite IH; [|rewrite ?length_app; simpl in *; lia..].
        unfold m. rewrite dot_split_cons by done. replace (8 - Z.to_nat i)%nat with (S (8 - Z.to_nat (i + 1))) by lia.
        cbn [take]. simpl. f_equal; [|lia]. by rewrite <- app_assoc.
Qed.

Lemma sfn_pad_loop_run n : ∀ pre rest post i limit,
  Z.of_nat (length pre) = i → Z.of_nat (length rest) = limit - i → (length rest < n)%nat →
  sfn_pad_loop n (pre ++ rest ++ post) i limit = pre ++ replicate (length rest) SFN_PAD ++ post.
Proof.
  induction n as [|n IH]; intros pre rest post i limit Hp Hl Hn; [lia|]. cbn [sfn_pad_loop].
  destruct rest as [|x rest]; cbn [length] in *.
  - rewrite (proj2 (Z.ltb_ge _ _)) by lia. done.
  - rewrite (proj2 (Z.ltb_lt _ _)) by lia. cbn [app]. rewrite put8_app by (done || (unfold SFN_PAD; lia)).
    rewrite (IH (pre ++ [SFN_PAD]) rest post) by (rewrite ?length_app; simpl; lia). simpl. by rewrite <- app_assoc.
Qed.

(** The second loop leaves the index after the dot, or at the end. *)
Lemma sfn_skip_loop_run fuel : ∀ pn todo i,
  Z.of_nat (length pn) = i → (length todo < fuel)%nat →
  ∃ pn', pn ++ todo = pn' ++ (dot_split todo).2 ∧
    sfn_skip_loop fuel (pn ++ todo) (Z.of_nat (length (pn ++ todo))) i = Z.of_nat (length pn').
Proof.
  induction fuel as [|fuel IH]; intros pn todo i Hp Hf; [lia|]. cbn [sfn_skip_loop]. rewrite char_at_app by done.
  rewrite length_app. destruct todo as [|c todo]; cbn [length dot_split] in *.
  - exists pn. split; [done|]. rewrite (proj2 (Z.ltb_ge _ _)) by lia. lia.
  - rewrite (proj2 (Z.ltb_lt _ _)) by lia. cbn [head from_option id]. destruct (c =? 46) eqn:E; cbn [fst snd].
    + exists (pn ++ [c]). rewrite <- app_assoc. split; [done|]. rewrite length_app. simpl. lia.
    + destruct (IH (pn ++ [c]) todo (i + 1)) as (pn' & E1 & E2); [rewrite length_app; simpl; lia|lia|].
      rewrite <- app_assoc in E1, E2. cbn [app] in E1, E2. exists pn'. split; [exact E1|]. rewrite <- E2.
      f_equal. rewrite !length_app. simpl. lia.
Qed.

(** The third loop copies up to three characters of extension. *)
Lemma sfn_ext_loop_run n : ∀ pre rest pn todo j i,
  Z.of_nat (length pre) = 8 + j → Z.of_nat (length pn) = i → 0 ≤ j ≤ 3 → (3 - Z.to_nat j < n)%nat →
  (11 ≤ length (pre ++ rest))%nat →
  let m := take (3 - Z.to_nat j) todo in
  sfn_ext_loop n (pre ++ rest) (pn ++ todo) (Z.of_nat (length (pn ++ todo))) j i =
  (pre ++ (sfn_char <$> m) ++ drop (length m) rest, j + Z.of_nat (length m)).
Proof.
  induction n as [|n IH]; intros pre rest pn todo j i Hp Hpn Hj Hn Hlen m; [lia|].
  cbn [sfn_ext_loop]. rewrite char_at_app by lia. rewrite length_app in Hlen.
  destruct todo as [|c todo].
  - unfold m. rewrite take_nil. rewrite (proj2 (Z.ltb_ge i _)) by (rewrite length_app; simpl; lia).
    rewrite andb_false_r. simpl. by rewrite drop_0, Z.add_0_r.
  - rewrite (proj2 (Z.ltb_lt i _)) by (rewrite length_app; simpl; lia). rewrite andb_true_r.
    cbn [head from_option id]. destruct (decide (j = 3)) as [->|H3].
    + unfold m. simpl. by rewrite drop_0.
    + rewrite (proj2 (Z.ltb_lt _ _)) by lia. destruct rest as [|x rest]; [simpl in Hlen; lia|].
      rewrite put8_app; [|lia|apply sfn_legal_byte, sfn_char_legal].
      assert (pn ++ c :: todo = (pn ++ [c]) ++ todo) as -> by (by rewrite <- app_assoc).
      rewrite IH; [|rewrite ?length_app; simpl in *; lia..].
      unfold m. replace (3 - Z.to_nat j)%nat with (S (3 - Z.to_nat (j + 1))) by lia.
      cbn [take]. simpl. f_equal; [|lia]. by rewrite <- app_assoc.
Qed.

Lemma dot_split_base k name :
  let m := take k (dot_split name).1 in
  ∃ rest, name = m ++ rest ∧ (dot_split rest).2 = (dot_split name).2.
Proof.
  revert k. induction name as [|c name IH]; intros k m; [exists []; unfold m; simpl; by rewrite take_nil|].
  destruct (decide (c = 46)) as [->|Hc]; [exists (46 :: name); unfold m; simpl; by rewrite take_nil|].
  unfold m. rewrite dot_split_cons by done. destruct k as [|k]; [by exists (c :: name)|].
  destruct (IH k) as (rest & E & E2). exists rest. cbn [take app]. rewrite E at 1. split; [done|].
  rewrite E2. simpl. by rewrite (proj2 (Z.eqb_neq c 46)).
Qed.

Lemma put_sfn_name_run junk name :
  length junk = 11%nat → put_sfn_name junk name (Z.of_nat (length name)) = short_name name.
Proof.
  intros Hj. unfold put_sfn_name, short_name.
  pose proof (sfn_base_loop_run 9 [] junk [] name 0 eq_refl eq_refl ltac:(lia) ltac:(simpl; lia) ltac:(simpl; lia)) as Hb.
  change (8 - Z.to_nat 0)%nat with 8%nat in Hb. cbn [app] in Hb. rewrite Hb. clear Hb.
  set (m := take 8 (dot_split name).1). assert (length m ≤ 8)%nat as Hm by (unfold m; rewrite length_take; lia).
  destruct (dot_split_base 8 name) as (rest & En & Er). fold m in En.
  destruct (sfn_skip_loop_run (S (Z.to_nat (Z.of_nat (length name)))) m rest (Z.of_nat (length m)) eq_refl) as (pn & Epn & Es).
  { rewrite En, length_app. lia. }
  rewrite <- En in Es, Epn. rewrite Z.add_0_l, Es, Er in *.
  rewrite <- (take_drop (8 - length m) (drop (length m) junk)).
  rewrite (sfn_pad_loop_run 9); [|rewrite ?length_fmap, ?length_take, ?length_drop; lia..].
  set (ext := (dot_split name).2) in *. clearbody ext m. rewrite app_assoc, Epn.
  pose proof (sfn_ext_loop_run 4 (((sfn_char <$> m) ++ replicate (length (take (8 - length m) (drop (length m) junk))) SFN_PAD))
    (drop (8 - length m) (drop (length m) junk)) pn ext 0 (Z.of_nat (length pn))) as He.
  change (3 - Z.to_nat 0)%nat with 3%nat in He. rewrite He; clear He;
    [|rewrite ?length_app, ?length_fmap, ?length_replicate, ?length_take, ?length_drop; lia..].
  set (e := take 3 ext). assert (length e ≤ 3)%nat as He by (unfold e; rewrite length_take; lia).
  rewrite app_assoc. rewrite <- (app_nil_r (drop (length e) _)).
  rewrite (sfn_pad_loop_run 4);
    [|rewrite ?length_app, ?length_fmap, ?length_replicate, ?length_take, ?length_drop; lia..].
  rewrite app_nil_r. unfold pad. rewrite !length_fmap, <- !app_assoc.
  rewrite length_take, !length_drop, Hj. replace (_ `min` _)%nat with (8 - length m)%nat by lia.
  by replace (11 - length m - (8 - length m) - length e)%nat with (3 - length e)%nat by lia.
Qed.

Lemma short_name_length name : length (short_name name) = 11%nat.
Proof.
  unfold short_name, pad. rewrite !length_app, !length_replicate, !length_fmap, !length_take. lia.
Qed.

Lemma short_name_legal name : Forall sfn_legal (short_name name).
Proof.
  assert (∀ n l, Forall sfn_legal (pad n (sfn_char <$> l))) as H.
  { intros n l. apply Forall_app. split; [apply Forall_fmap, Forall_true; intros c; apply sfn_char_legal|].
    apply Forall_replicate. right. unfold SFN_PAD, sfn_special. rewrite !elem_of_cons. tauto. }
  apply Forall_app; split; apply H.
Qed.

Lemma to_upper_lower c : 97 ≤ c ≤ 122 → to_upper c = c - 32.
Proof.
  intros Hc. apply Z.eqb_eq.
  assert (forallb (λ k, to_upper (97 + Z.of_nat k) =? 97 + Z.of_nat k - 32) (seq 0 26) = true) as H by reflexivity.
  rewrite forallb_forall in H. specialize (H (Z.to_nat (c - 97))). rewrite in_seq in H.
  replace (97 + Z.of_nat (Z.to_nat (c - 97))) with c in H by lia. apply H. lia.
Qed.

Lemma to_upper_cases c : to_upper c = c ∨ 97 ≤ c ≤ 122 ∧ to_upper c = c - 32.
Proof.
  destruct (decide (97 ≤ c ≤ 122)) as [H|H]; [right; auto using to_upper_lower|left].
  unfold to_upper. destruct ((97 <=? c) && (c <=? 122)) eqn:E; [|done]. exfalso. zify_bools. tauto.
Qed.

Lemma to_upper_idem c : to_upper (to_upper c) = to_upper c.
Proof.
  destruct (to_upper_cases c) as [E|[Hc E]]; [by rewrite !E|]. destruct (to_upper_cases (to_upper c)) as [?|[? _]]; [done|lia].
Qed.

Lemma sfn_char_upper c : sfn_char (to_upper c) = sfn_char c.
Proof. unfold sfn_char. by rewrite to_upper_idem. Qed.

Lemma to_upper_dot c : (to_upper c =? 46) = (c =? 46).
Proof. destruct (to_upper_cases c) as [->|[Hc ->]]; [done|]. rewrite !(proj2 (Z.eqb_neq _ 46)) by lia. done. Qed.

Lemma dot_split_upper name :
  dot_split (to_upper <$> name) = (to_upper <$> (dot_split name).1, to_upper <$> (dot_split name).2).
Proof.
  induction name as [|c name IH]; [done|]. rewrite fmap_cons. cbn [dot_split]. rewrite to_upper_dot, IH.
  by destruct (c =? 46).
Qed.

Lemma short_name_upper name : short_name (to_upper <$> name) = short_name name.
Proof.
  unfold short_name. rewrite dot_split_upper. cbn [fst snd]. rewrite <- !fmap_take, <- !list_fmap_compose.
  do 2 f_equal; apply list_fmap_ext; intros ? c _; apply sfn_char_upper.
Qed.

(** C26: [put_sfn_name] fills the eleven bytes of an entry with the short
    name of a long one, whatever the entry held: the first eight characters
    before the first dot and the first three after it, each mapped to an upper
    case letter or to a special character, padded with spaces; two names that
    differ only in case have the same short name, and the name is always
    made of eleven characters that a short name may hold. *)
Theorem short_name_spec junk name :
  length junk = 11%nat →
  put_sfn_name junk name (Z.of_nat (length name)) = short_name name ∧
  length (short_name name) = 11%nat ∧
  Forall sfn_legal (short_name name) ∧
  put_sfn_name junk (to_upper <$> name) (Z.of_nat (length name)) = short_name name.
Proof.
  intros Hj. rewrite put_sfn_name_run by done. split; [done|]. split; [apply short_name_length|].
  split; [apply short_name_legal|].
  rewrite <- (short_name_upper name), <- put_sfn_name_run with (junk := junk) by done. by rewrite length_fmap.
Qed.

(** [readme.txt], in the place of an entry that held a name of eleven [A]s. *)
Lemma short_name_spec_witness :
  length (replicate 11 65) = 11%nat ∧
  short_name [114; 101; 97; 100; 109; 101; 46; 116; 120; 116] = [82; 69; 65; 68; 77; 69; 32; 32; 84; 88; 84] ∧
  put_sfn_name (replicate 11 65) [114; 101; 97; 100; 109; 101; 46; 116; 120; 116] 10 =
    [82; 69; 65; 68; 77; 69; 32; 32; 84; 88; 84].
Proof.
  split; [reflexivity|]. split; [reflexivity|].
  exact (proj1 (short_name_spec (replicate 11 65) [114; 101; 97; 100; 109; 101; 46; 116; 120; 116] eq_refl)).
Defined.
