(* ===== verification/FatBytes.v ===== *)
(** * FAT32: bytes, sectors and flags

    The lemmas on sector buffers the volume proofs share: fields of 8, 16 and 32
    bits, sectors of 512 bytes, and the bits of a flags byte. *)
From stdpp Require Import base list.
From Stdlib Require Import ZArith Lia.
From S2P Require Import Prelude FatFormat FatVolume.

#[local] Open Scope Z_scope.

#[local] Ltac Zify.zify_post_hook ::= Z.div_mod_to_equations.

(** ** Sectors *)
Definition bytes (b : list Z) : Prop := Forall (λ x, 0 ≤ x < 256) b.
Definition is_sector (b : list Z) : Prop := length b = 512%nat ∧ bytes b.

#[export] Instance bytes_dec b : Decision (bytes b).
Proof. unfold bytes. apply _. Defined.
#[export] Instance is_sector_dec b : Decision (is_sector b).
Proof. unfold is_sector. apply _. Defined.

Lemma get8_range b i : bytes b → 0 ≤ get8 b i < 256.
Proof.
  intros Hb. unfold get8. destruct (b !! Z.to_nat i) as [x|] eqn:E; [|simpl; lia].
  exact (proj1 (Forall_lookup _ _) Hb _ _ E).
Qed.

Lemma put8_length i v b : length (put8 i v b) = length b.
Proof. apply length_insert. Qed.

Lemma put8_bytes i v b : bytes b → bytes (put8 i v b).
Proof. intros Hb. apply Forall_insert; [done|]. apply u8_range. Qed.

Lemma put8_sector i v b : is_sector b → is_sector (put8 i v b).
Proof. intros [Hl Hb]. split; [by rewrite put8_length|by apply put8_bytes]. Qed.

Lemma get8_put8 i v b : 0 ≤ i < Z.of_nat (length b) → get8 (put8 i v b) i = u8 v.
Proof. intros Hi. unfold get8, put8. by rewrite list_lookup_insert_eq by lia. Qed.

Lemma get8_put8_ne i j v b : 0 ≤ i → 0 ≤ j → i ≠ j → get8 (put8 i v b) j = get8 b j.
Proof. intros Hi Hj Hij. unfold get8, put8. by rewrite list_lookup_insert_ne by lia. Qed.

Lemma put16_sector i v b : is_sector b → is_sector (put16 i v b).
Proof. intros Hb. by do 2 apply put8_sector. Qed.

Lemma put32_sector i v b : is_sector b → is_sector (put32 i v b).
Proof. intros Hb. by do 2 apply put16_sector. Qed.

#[export] Hint Resolve put8_sector put16_sector put32_sector : core.

Lemma get16_put16 i v b : 0 ≤ i → i + 2 ≤ Z.of_nat (length b) → get16 (put16 i v b) i = u16 v.
Proof.
  intros Hi Hl. unfold get16, put16. rewrite get8_put8_ne, get8_put8, get8_put8 by (rewrite ?put8_length; lia).
  unfold u16, u8, wrap_u. change (2 ^ 16) with 65536. change (2 ^ 8) with 256. lia.
Qed.

Lemma get16_put16_ne i j v b : 0 ≤ i → 0 ≤ j → i + 2 ≤ j ∨ j + 2 ≤ i → get16 (put16 i v b) j = get16 b j.
Proof. intros Hi Hj Hij. unfold get16, put16. by rewrite !get8_put8_ne by lia. Qed.

Lemma put16_length i v b : length (put16 i v b) = length b.
Proof. unfold put16. by rewrite !put8_length. Qed.

Lemma get32_put32 i v b : 0 ≤ i → i + 4 ≤ Z.of_nat (length b) → get32 (put32 i v b) i = u32 v.
Proof.
  intros Hi Hl. unfold get32, put32. rewrite get16_put16_ne, get16_put16, get16_put16 by (rewrite ?put16_length; lia).
  unfold u16, u32, wrap_u. change (2 ^ 16) with 65536. change (2 ^ 32) with 4294967296. lia.
Qed.

Lemma get32_put32_ne i j v b : 0 ≤ i → 0 ≤ j → i + 4 ≤ j ∨ j + 4 ≤ i → get32 (put32 i v b) j = get32 b j.
Proof. intros Hi Hj Hij. unfold get32, put32. by rewrite !get16_put16_ne by lia. Qed.

Lemma put32_length i v b : length (put32 i v b) = length b.
Proof. unfold put32. by rewrite !put16_length. Qed.

Lemma get32_range b i : bytes b → 0 ≤ get32 b i < 2 ^ 32.
Proof.
  intros Hb. unfold get32, get16. change (2 ^ 32) with 4294967296.
  pose proof (get8_range b i Hb). pose proof (get8_range b (i + 1) Hb).
  pose proof (get8_range b (i + 2) Hb). pose proof (get8_range b (i + 2 + 1) Hb). lia.
Qed.

(** ** Bits *)
Lemma has_bit f k : 0 ≤ k → has f (2 ^ k) = Z.testbit f k.
Proof.
  intros Hk. unfold has. destruct (Z.testbit f k) eqn:E.
  - apply negb_true_iff, Z.eqb_neq. intros H.
    assert (Z.testbit (Z.land f (2 ^ k)) k = true) as H2 by (rewrite Z.land_spec, E, Z.pow2_bits_true by done; done).
    rewrite H, Z.bits_0 in H2. done.
  - apply negb_false_iff, Z.eqb_eq, Z.bits_inj'. intros n Hn. rewrite Z.land_spec, Z.bits_0.
    rewrite Z.pow2_bits_eqb by done. destruct (Z.eqb_spec k n) as [<-|]; [by rewrite E|apply andb_false_r].
Qed.

Lemma has_set f j k : 0 ≤ j → 0 ≤ k → has (Z.lor f (2 ^ j)) (2 ^ k) = has f (2 ^ k) || (j =? k).
Proof. intros Hj Hk. by rewrite !has_bit, Z.lor_spec, Z.pow2_bits_eqb by done. Qed.

Lemma has_clear f j k : 0 ≤ j → 0 ≤ k → has (Z.land f (Z.lnot (2 ^ j))) (2 ^ k) = has f (2 ^ k) && negb (j =? k).
Proof. intros Hj Hk. by rewrite !has_bit, Z.land_spec, Z.lnot_spec, Z.pow2_bits_eqb by done. Qed.

Definition dirty (f : Z) : bool := has f FAT_BUF_DIRTY.
Definition info_dirty (f : Z) : bool := has f FAT_INFO_DIRTY.

Lemma dirty_set f : dirty (Z.lor f FAT_BUF_DIRTY) = true.
Proof. exact (eq_trans (has_set f 0 0 ltac:(done) ltac:(done)) (orb_true_r _)). Qed.
Lemma dirty_clear f : dirty (Z.land f (Z.lnot FAT_BUF_DIRTY)) = false.
Proof. exact (eq_trans (has_clear f 0 0 ltac:(done) ltac:(done)) (andb_false_r _)). Qed.
Lemma dirty_set_info f : dirty (Z.lor f FAT_INFO_DIRTY) = dirty f.
Proof. exact (eq_trans (has_set f 1 0 ltac:(done) ltac:(done)) (orb_false_r _)). Qed.
Lemma dirty_clear_info f : dirty (Z.land f (Z.lnot FAT_INFO_DIRTY)) = dirty f.
Proof. exact (eq_trans (has_clear f 1 0 ltac:(done) ltac:(done)) (andb_true_r _)). Qed.
Lemma info_dirty_set f : info_dirty (Z.lor f FAT_INFO_DIRTY) = true.
Proof. exact (eq_trans (has_set f 1 1 ltac:(done) ltac:(done)) (orb_true_r _)). Qed.
Lemma info_dirty_clear f : info_dirty (Z.land f (Z.lnot FAT_INFO_DIRTY)) = false.
Proof. exact (eq_trans (has_clear f 1 1 ltac:(done) ltac:(done)) (andb_false_r _)). Qed.
Lemma info_dirty_set_buf f : info_dirty (Z.lor f FAT_BUF_DIRTY) = info_dirty f.
Proof. exact (eq_trans (has_set f 0 1 ltac:(done) ltac:(done)) (orb_false_r _)). Qed.
Lemma info_dirty_clear_buf f : info_dirty (Z.land f (Z.lnot FAT_BUF_DIRTY)) = info_dirty f.
Proof. exact (eq_trans (has_clear f 0 1 ltac:(done) ltac:(done)) (andb_true_r _)). Qed.

#[export] Hint Rewrite dirty_set dirty_clear dirty_set_info dirty_clear_info info_dirty_set info_dirty_clear
  info_dirty_set_buf info_dirty_clear_buf : fat_flags.

(** ** The 28 bits of a table entry *)
Definition keep_nibble (old val : Z) : Z := Z.lor (Z.land old 0xf0000000) (Z.land val 0x0fffffff).

Lemma land_low28 v : Z.land v 0x0fffffff = v mod 2 ^ 28.
Proof. change 0x0fffffff with (Z.ones 28). by rewrite Z.land_ones. Qed.

Lemma keep_nibble_range old val : 0 ≤ old < 2 ^ 32 → 0 ≤ keep_nibble old val < 2 ^ 32.
Proof.
  intros Ho. unfold keep_nibble.
  assert (Z.land (Z.lor (Z.land old 0xf0000000) (Z.land val 0x0fffffff)) (Z.ones 32) =
    Z.lor (Z.land old 0xf0000000) (Z.land val 0x0fffffff)) as <-.
  { rewrite Z.land_lor_distr_l, <- !Z.land_assoc. done. }
  rewrite Z.land_ones by lia. apply Z.mod_pos_bound. lia.
Qed.

Lemma keep_nibble_low old val : Z.land (keep_nibble old val) 0x0fffffff = Z.land val 0x0fffffff.
Proof.
  unfold keep_nibble. rewrite Z.land_lor_distr_l, <- !Z.land_assoc.
  change (Z.land 0xf0000000 0x0fffffff) with 0. change (Z.land 0x0fffffff 0x0fffffff) with 0x0fffffff.
  by rewrite Z.land_0_r, Z.lor_0_l.
Qed.

Lemma keep_nibble_high old val : Z.land (keep_nibble old val) 0xf0000000 = Z.land old 0xf0000000.
Proof.
  unfold keep_nibble. rewrite Z.land_lor_distr_l, <- !Z.land_assoc.
  change (Z.land 0x0fffffff 0xf0000000) with 0. change (Z.land 0xf0000000 0xf0000000) with 0xf0000000.
  by rewrite Z.land_0_r, Z.lor_0_r.
Qed.
