(* ===== verification/FatVolumeSpec.v ===== *)
(** * FAT32: the volume as an image of the disk

    A reliable block device ([BlockDevice]), the image of the disk that a volume
    and its one-sector buffer stand for, and the proof that the operations on the
    buffer and on the allocation table act on the image: which sector is buffered
    and what is still to be written never shows. *)
From stdpp Require Import base list.
From Stdlib Require Import ZArith Lia.
From S2P Require Import Prelude FatFormat FatVolume FatBytes.

#[local] Open Scope Z_scope.

(** ** Total correctness of the error monad *)

(** [m] returns from [s], a value or an error code, and [Q] holds of the result. *)
Definition wp {S A} (m : E S A) (s : S) (Q : Z + A → S → Prop) : Prop :=
  ∃ r s', m s = Done (r, s') ∧ Q r s'.

Lemma wp_ret {S A} (a : A) (s : S) (Q : Z + A → S → Prop) : Q (inr a) s → wp (mret a) s Q.
Proof. intros H. by exists (inr a), s. Qed.

Lemma wp_throw {S A} e (s : S) (Q : Z + A → S → Prop) : Q (inl e) s → wp (throw e) s Q.
Proof. intros H. by exists (inl e), s. Qed.

Lemma wp_done {S A} (m : E S A) (s : S) (Q : Z + A → S → Prop) r s' : m s = Done (r, s') → Q r s' → wp m s Q.
Proof. intros Em H. by exists r, s'. Qed.

Lemma wp_bind {S A B} (m : E S A) (f : A → E S B) (s : S) Q :
  wp m s (λ r s', match r with inl e => Q (inl e) s' | inr a => wp (f a) s' Q end) → wp (m ≫= f) s Q.
Proof.
  intros (r & s' & Em & H). unfold wp, mbind, E_bind. rewrite Em.
  destruct r as [e|a]; [by exists (inl e), s'|exact H].
Qed.

Lemma wp_mono {S A} (m : E S A) (s : S) (P Q : Z + A → S → Prop) :
  wp m s P → (∀ r s', P r s' → Q r s') → wp m s Q.
Proof. intros (r & s' & Em & H) HPQ. exists r, s'. eauto. Qed.

Lemma wp_catch {S A} (m : E S A) (s : S) Q :
  wp m s (λ r s', Q (inr r) s') → wp (catch m) s Q.
Proof. intros (r & s' & Em & H). exists (inr r), s'. unfold catch. by rewrite Em. Qed.

(** [m] returns a value from [s], and [Q] holds of it. *)
Definition succeeds {S A} (m : E S A) (s : S) (Q : A → S → Prop) : Prop :=
  wp m s (λ r s', ∃ a, r = inr a ∧ Q a s').

Lemma wp_seq {S A B} (m : E S A) (f : A → E S B) (s : S) (P : A → S → Prop) Q :
  succeeds m s P → (∀ a s', P a s' → wp (f a) s' Q) → wp (m ≫= f) s Q.
Proof. intros Hm Hf. apply wp_bind. refine (wp_mono _ _ _ _ Hm _). intros r s' (a & -> & H). by apply Hf. Qed.

Lemma su_seq {S A B} (m : E S A) (f : A → E S B) (s : S) (P : A → S → Prop) (Q : B → S → Prop) :
  succeeds m s P → (∀ a s', P a s' → succeeds (f a) s' Q) → succeeds (m ≫= f) s Q.
Proof. apply wp_seq. Qed.

Lemma su_mono {S A} (m : E S A) (s : S) (P Q : A → S → Prop) :
  succeeds m s P → (∀ a s', P a s' → Q a s') → succeeds m s Q.
Proof. intros H HPQ. refine (wp_mono _ _ _ _ H _). intros r s' (a & -> & Ha). eauto. Qed.

Lemma su_done {S A} (m : E S A) (s : S) (Q : A → S → Prop) a s' : m s = Done (inr a, s') → Q a s' → succeeds m s Q.
Proof. intros Em H. exists (inr a), s'. eauto. Qed.

Lemma su_ret {S A} (a : A) (s : S) (Q : A → S → Prop) : Q a s → succeeds (mret a) s Q.
Proof. by apply su_done. Qed.

Lemma su_vol {D A} (f : Fat D → A) (v : Vol D) Q : Q (f (fat v)) v → succeeds (vol f) v Q.
Proof. by apply su_done. Qed.

Lemma su_upd {D} (f : Fat D → Fat D) (v : Vol D) Q : Q tt (with_fat (f (fat v)) v) → succeeds (upd f) v Q.
Proof. by apply su_done. Qed.

Lemma wp_assoc {S A B C} (m : E S A) (f : A → E S B) (g : B → E S C) (s : S) Q :
  wp ((m ≫= f) ≫= g) s Q → wp (m ≫= (λ a, f a ≫= g)) s Q.
Proof. unfold wp, mbind, E_bind. by destruct (m s) as [[[e|a] s']|]. Qed.

Lemma wp_read {D A B} (f : Fat D → A) (k : A → FS D B) v Q : wp (k (f (fat v))) v Q → wp (vol f ≫= k) v Q.
Proof. done. Qed.

Lemma wp_set {D B} (f : Fat D → Fat D) (k : unit → FS D B) v Q :
  wp (k tt) (with_fat (f (fat v)) v) Q → wp (upd f ≫= k) v Q.
Proof. done. Qed.

(** Steps over the reads and updates of fields at the head of a computation. *)
Ltac wp_prim :=
  unfold succeeds;
  repeat match goal with
  | |- wp (vol ?f ≫= ?k) ?v ?Q => apply (wp_read f k v Q); cbv beta
  | |- wp (upd ?f ≫= ?k) ?v ?Q => apply (wp_set f k v Q); cbv beta
  end; unfold id.

(** ** Block devices *)

(** The states in which the device answers, the contents of sector [s], and
    operations that succeed on the sectors of the device and read what was last
    written. *)
Class BlockDevice {D} (o : DiskOps D) := {
  capacity : Z;
  device_ok : D → Prop;
  sector : D → Z → list Z;
  sector_wf : ∀ d s, is_sector (sector d s);
  read_law : ∀ b d s, device_ok d → length b = 512%nat → 0 ≤ s < capacity →
    ∃ d', disk_read o b s d = Done (true, sector d s, d') ∧ device_ok d' ∧ ∀ t, sector d' t = sector d t;
  write_law : ∀ b d s, device_ok d → 0 ≤ s < capacity → is_sector b →
    ∃ d', disk_write o b s d = Done (true, d') ∧ device_ok d' ∧ sector d' s = b ∧ ∀ t, t ≠ s → sector d' t = sector d t
}.

(** A disk image, and one with a sector replaced. *)
Definition image : Type := Z → list Z.
Definition set_sector (s : Z) (b : list Z) (w : image) : image := λ t, if t =? s then b else w t.

Section spec.
Context {D : Type} (o : DiskOps D) `{!BlockDevice o}.

(** ** The image of a volume *)
Definition view (v : Vol D) : image := λ s, if s =? sect (fat v) then buf (fat v) else sector (disk v) s.

(** The buffer holds a sector, and it is the one of the disk unless it is dirty or
    nothing has been read into it yet ([sect] is 0 after mounting). *)
Record coherent (v : Vol D) : Prop := mk_coherent {
  co_ops : ops (fat v) = o;
  co_ok : device_ok (disk v);
  co_buf : is_sector (buf (fat v));
  co_clean : dirty (flags (fat v)) = false → sect (fat v) ≠ 0 → buf (fat v) = sector (disk v) (sect (fat v));
  co_dirty : dirty (flags (fat v)) = true → 0 < sect (fat v) < capacity
}.

(** The abstract volume: the layout, the counters of the FsInfo sector and whether
    they are to be written, and the image. *)
Record Layout : Type := mk_Layout {
  l_msk : Z; l_cnt : Z; l_info : Z; l_fat : Z * Z; l_data : Z; l_root : Z; l_shift : Z
}.
Record AVol : Type := mk_AVol { a_layout : Layout; a_last : Z; a_free : Z; a_info : bool; a_img : image }.

Definition layout (f : Fat D) : Layout :=
  mk_Layout (clust_msk f) (clust_cnt f) (info_sect f) (fat_sect f) (data_sect f) (root_clust f) (clust_shift f).
Definition with_img (w : image) (a : AVol) : AVol := mk_AVol (a_layout a) (a_last a) (a_free a) (a_info a) w.

Record represents (v : Vol D) (a : AVol) : Prop := mk_represents {
  re_co : coherent v;
  re_layout : layout (fat v) = a_layout a;
  re_last : last_used (fat v) = a_last a;
  re_free : free_cnt (fat v) = a_free a;
  re_info : info_dirty (flags (fat v)) = a_info a;
  re_view : ∀ t, 0 < t → view v t = a_img a t
}.

Lemma represents_ext v a w : (∀ t, 0 < t → a_img a t = w t) → represents v a → represents v (with_img w a).
Proof. intros Hw [? ? ? ? ? Hv]. split; try done. intros t Ht. cbn. by rewrite Hv, Hw. Qed.

Lemma view_sect v : view v (sect (fat v)) = buf (fat v).
Proof. unfold view. by rewrite Z.eqb_refl. Qed.

Lemma view_sector v s : coherent v → is_sector (view v s).
Proof. intros [_ _ Hb _ _]. unfold view. case_bool; [done|]. apply sector_wf. Qed.

Lemma image_sector v a t : represents v a → 0 < t → is_sector (a_img a t).
Proof. intros Hr Ht. rewrite <- (re_view v a Hr) by done. apply view_sector, Hr. Qed.

(** The disk of a volume with a clean buffer is the image. *)
Lemma clean_view v t : coherent v → dirty (flags (fat v)) = false → 0 < t → sector (disk v) t = view v t.
Proof.
  intros Hv Hd Ht. unfold view. case_bool; [|done]. subst. symmetry. apply co_clean; [done|done|lia].
Qed.

(** ** The buffer *)
Lemma sync_buf_ok v a :
  represents v a →
  succeeds sync_buf v (λ _ v', represents v' a ∧ dirty (flags (fat v')) = false ∧
    sect (fat v') = sect (fat v) ∧ buf (fat v') = buf (fat v)).
Proof.
  intros Hr. pose proof Hr as [Hv Hl Hla Hf Hi Hw]. unfold sync_buf. wp_prim. fold (dirty (flags (fat v))).
  destruct (dirty (flags (fat v))) eqn:Ed; [|by apply su_ret].
  destruct (co_dirty v Hv Ed) as [Hs1 Hs2].
  pose proof (write_law (buf (fat v)) (disk v) (sect (fat v))) as Hwr.
  destruct (Hwr (co_ok v Hv) ltac:(lia) (co_buf v Hv)) as (d' & Ew & Hok & E1 & E2).
  eapply wp_seq; [apply (su_done _ _ (λ ok v', ok = true ∧ v' = with_disk d' v) true (with_disk d' v)); [|done]|].
  { unfold ops_write. by rewrite (co_ops v Hv), Ew. }
  intros _ _ [-> ->]. apply su_upd. split; [|cbn; by autorewrite with fat_flags].
  split; cbn; try done; autorewrite with fat_flags; try done.
  - split; cbn; autorewrite with fat_flags; try done; apply Hv.
  - intros t Ht. rewrite <- Hw by done. unfold view. cbn. case_bool; [done|]. by apply E2.
Qed.

Lemma update_buf_ok v a s :
  represents v a → 0 < s < capacity →
  succeeds (update_buf s) v (λ _ v', represents v' a ∧ sect (fat v') = s ∧ buf (fat v') = a_img a s).
Proof.
  intros Hr Hs. unfold update_buf. wp_prim.
  destruct (Z.eqb_spec (sect (fat v)) s) as [E|Hne]; cbn [negb].
  { apply su_ret. split; [done|]. split; [done|]. rewrite <- (re_view v a Hr) by lia. by rewrite <- E, view_sect. }
  eapply wp_seq; [by apply sync_buf_ok|]. intros _ v1 ([Hco Hl Hla Hf Hi Hw] & Hc & Es & Eb). wp_prim.
  pose proof (read_law (buf (fat v1)) (disk v1) s) as Hrd.
  destruct (Hrd (co_ok v1 Hco) ltac:(apply (co_buf v1 Hco)) ltac:(lia)) as (d' & Er & Hok & Ed).
  eapply wp_seq; [apply (su_done _ _ (λ p v', p = (true, sector (disk v1) s) ∧ v' = with_disk d' v1) (true, sector (disk v1) s)
    (with_disk d' v1)); [|done]|].
  { unfold ops_read. by rewrite (co_ops v1 Hco), Er. }
  intros _ _ [-> ->]. cbn [fst snd]. wp_prim. apply su_upd.
  split; [|split; [done|]; cbn; rewrite clean_view by (done || lia); apply Hw; lia].
  split; cbn; try done.
  - split; cbn; [apply Hco|done|apply sector_wf|by intros _ _; rewrite Ed|]. by rewrite Hc.
  - intros t Ht. rewrite <- Hw by done. unfold view at 1. cbn. rewrite Ed, !clean_view by (done || lia).
    case_bool; [by subst|done].
Qed.

(** The buffer changed in place and marked dirty. *)
Lemma edit_ok v a s b f' :
  represents v a → sect (fat v) = s → 0 < s < capacity → is_sector b →
  f' = with_flags (Z.lor (flags (fat v)) FAT_BUF_DIRTY) (with_buf b (fat v)) →
  represents (with_fat f' v) (with_img (set_sector s b (a_img a)) a).
Proof.
  intros [Hco Hl Hla Hf Hi Hw] Es Hs Hb ->. split; cbn; autorewrite with fat_flags; try done.
  - split; cbn; autorewrite with fat_flags; try done; [apply Hco|apply Hco|by rewrite Es].
  - intros t Ht. unfold view, set_sector. cbn. rewrite Es. case_bool; [done|].
    rewrite <- Hw by done. unfold view. by rewrite Es, (proj2 (Z.eqb_neq _ _)) by done.
Qed.

(** ** The layout of a volume *)

(** Sectors in each copy of the table. *)
Definition table_len (g : Layout) : Z := (l_cnt g + 127) / 128.

(** The copies of the table and the FsInfo sector are on the device, apart from
    each other, and no cluster number looks like a mark. *)
Record well_laid (g : Layout) : Prop := mk_well_laid {
  wl_cnt : 2 < l_cnt g ≤ 0x0ffffff0;
  wl_cap : capacity ≤ 2 ^ 32;
  wl_first : 0 < (l_fat g).1 ∧ (l_fat g).1 + table_len g ≤ capacity;
  wl_second : (l_fat g).2 ≠ 0 → 0 < (l_fat g).2 ∧ (l_fat g).2 + table_len g ≤ capacity ∧
    ((l_fat g).2 + table_len g ≤ (l_fat g).1 ∨ (l_fat g).1 + table_len g ≤ (l_fat g).2);
  wl_info : 0 < l_info g < capacity;
  wl_info_first : ¬ ((l_fat g).1 ≤ l_info g < (l_fat g).1 + table_len g);
  wl_info_second : (l_fat g).2 ≠ 0 → ¬ ((l_fat g).2 ≤ l_info g < (l_fat g).2 + table_len g)
}.

(** ** The table in an image *)

(** The entry of cluster [c] in the copy that starts at [base]. *)
Definition entry (base : Z) (w : image) (c : Z) : Z := Z.land (get32 (w (base + c / 128)) (4 * (c mod 128))) 0x0fffffff.

Definition put_entry (base c val : Z) (w : image) : image :=
  let b := w (base + c / 128) in
  set_sector (base + c / 128) (put32 (4 * (c mod 128)) (keep_nibble (get32 b (4 * (c mod 128))) val) b) w.

Definition put_table (g : Layout) (c val : Z) (w : image) : image :=
  put_entry (l_fat g).1 c val (if (l_fat g).2 =? 0 then w else put_entry (l_fat g).2 c val w).

(** The flags of an entry's value; [None] for a value no entry may have. *)
Definition classify (cnt val : Z) : option Z :=
  if val =? 0 then Some CLUST_FREE
  else if val =? 0x0ffffff7 then Some CLUST_BAD
  else if 0x0ffffff8 <=? val then Some (Z.lor CLUST_USED CLUST_LAST)
  else if (2 <=? val) && (val <? cnt) then Some CLUST_USED
  else None.

Definition read_entry (g : Layout) (w : image) (c : Z) : Z + Z * Z :=
  let val := entry (l_fat g).1 w c in
  match classify (l_cnt g) val with Some fl => inr (val, fl) | None => inl FAT_ERR_BROKEN end.

Lemma table_sector g base c :
  0 ≤ c < l_cnt g → 0 < base → base + table_len g ≤ capacity → capacity ≤ 2 ^ 32 →
  u32 (base + c / 128) = base + c / 128 ∧ base ≤ base + c / 128 < base + table_len g.
Proof.
  intros Hc Hb Hl Hcap. assert (0 ≤ c / 128 < table_len g) by (unfold table_len; Z.to_euclidean_division_equations; lia).
  split; [apply u32_id; lia|lia].
Qed.

Lemma get_fat_ok v a c :
  represents v a → well_laid (a_layout a) → 0 ≤ c < l_cnt (a_layout a) →
  wp (get_fat c) v (λ r v', represents v' a ∧ r = read_entry (a_layout a) (a_img a) c).
Proof.
  intros Hr Hg Hc. pose proof (wl_first _ Hg) as [Hp Hq].
  destruct (table_sector _ _ c Hc Hp Hq (wl_cap _ Hg)) as [Eu Hs]. pose proof (re_layout v a Hr) as El.
  assert (clust_cnt (fat v) = l_cnt (a_layout a)) as Ecnt by (by rewrite <- El).
  assert (fat_sect (fat v) = l_fat (a_layout a)) as Efat by (by rewrite <- El).
  unfold get_fat. wp_prim. rewrite Efat, Eu.
  eapply wp_seq; [apply (update_buf_ok v a); [done|lia]|]. intros _ v1 (Hr1 & Es & Eb). wp_prim.
  assert (clust_cnt (fat v1) = l_cnt (a_layout a)) as -> by (by rewrite <- (re_layout v1 a Hr1)).
  rewrite Eb. unfold read_entry, entry, classify. repeat case_bool; (eapply wp_done; [reflexivity|done]).
Qed.

Lemma put_fat2_ok v a base c val :
  represents v a → capacity ≤ 2 ^ 32 → 0 < base → base + table_len (a_layout a) ≤ capacity → 0 ≤ c < l_cnt (a_layout a) →
  succeeds (put_fat2 base c val) v (λ _ v', represents v' (with_img (put_entry base c val (a_img a)) a)).
Proof.
  intros Hr Hcap Hp Hq Hc. destruct (table_sector _ _ c Hc Hp Hq Hcap) as [Eu Hs].
  unfold put_fat2. rewrite Eu.
  eapply wp_seq; [apply (update_buf_ok v a); [done|lia]|]. intros _ v1 (Hr1 & Es & Eb).
  unfold upd_buf, set_flag. wp_prim. apply su_upd. unfold with_fat at 1; cbn [fat].
  apply (edit_ok v1 a (base + c / 128)); [done|done|lia|apply put32_sector, image_sector with v; [done|lia]|].
  cbn. by rewrite Eb.
Qed.

Lemma put_fat_ok v a c val :
  represents v a → well_laid (a_layout a) → 0 ≤ c < l_cnt (a_layout a) →
  succeeds (put_fat c val) v (λ _ v', represents v' (with_img (put_table (a_layout a) c val (a_img a)) a)).
Proof.
  intros Hr Hg Hc. pose proof (wl_first _ Hg) as [Hp Hq].
  assert (fat_sect (fat v) = l_fat (a_layout a)) as Ef by (by rewrite <- (re_layout v a Hr)).
  unfold put_fat, put_table. wp_prim. rewrite Ef.
  destruct (Z.eqb_spec (l_fat (a_layout a)).2 0) as [E0|E0]; cbn [negb].
  - eapply wp_seq; [by apply (su_ret tt v (λ _ v', v' = v))|]. intros _ _ ->. wp_prim. rewrite Ef.
    by apply put_fat2_ok; [|apply Hg|..].
  - pose proof (wl_second _ Hg E0) as (Hp2 & Hq2 & _).
    eapply wp_seq; [by apply (put_fat2_ok v a); [|apply Hg|..]|]. intros u v1 Hr1. wp_prim.
    pose proof (f_equal l_fat (re_layout v1 _ Hr1)) as Ef1. cbn in Ef1. rewrite Ef1.
    refine (su_mono _ _ _ _ (put_fat2_ok v1 _ _ c val Hr1 (wl_cap _ Hg) Hp Hq Hc) _). done.
Qed.

(** ** Reading the table back *)
Lemma set_sector_eq s b w : set_sector s b w s = b.
Proof. unfold set_sector. by rewrite Z.eqb_refl. Qed.

Lemma set_sector_ne s b w t : t ≠ s → set_sector s b w t = w t.
Proof. intros H. unfold set_sector. by rewrite (proj2 (Z.eqb_neq t s)). Qed.

Lemma entry_put base c val w :
  is_sector (w (base + c / 128)) → entry base (put_entry base c val w) c = Z.land val 0x0fffffff.
Proof.
  intros [Hl Hb]. unfold entry, put_entry. rewrite set_sector_eq.
  pose proof (Z.mod_pos_bound c 128 ltac:(lia)).
  rewrite get32_put32 by (rewrite ?Hl; lia). rewrite u32_id by (apply keep_nibble_range, get32_range, Hb).
  apply keep_nibble_low.
Qed.

Lemma entry_put_ne base c d val w :
  0 ≤ c → 0 ≤ d → c ≠ d → entry base (put_entry base c val w) d = entry base w d.
Proof.
  intros Hc Hd Hcd. unfold entry, put_entry. destruct (decide (d / 128 = c / 128)) as [E|E].
  - rewrite E, set_sector_eq, get32_put32_ne; [done|..]; Z.to_euclidean_division_equations; lia.
  - by rewrite set_sector_ne by lia.
Qed.

Lemma entry_put_apart base base' c d val w :
  base' + d / 128 ≠ base + c / 128 → entry base' (put_entry base c val w) d = entry base' w d.
Proof. intros H. unfold entry, put_entry. by rewrite set_sector_ne. Qed.

Definition sectors (w : image) : Prop := ∀ t, 0 < t → is_sector (w t).

Lemma put_entry_sectors base c val w : 0 < base + c / 128 → sectors w → sectors (put_entry base c val w).
Proof. intros Hb Hw t Ht. unfold put_entry, set_sector. case_bool; auto. Qed.

Lemma put_table_sectors g c val w : well_laid g → 0 ≤ c < l_cnt g → sectors w → sectors (put_table g c val w).
Proof.
  intros Hg Hc Hw. pose proof (wl_first g Hg) as [Hp Hq].
  pose proof (table_sector g _ c Hc Hp Hq (wl_cap g Hg)) as [_ H1].
  apply put_entry_sectors; [lia|]. destruct (Z.eqb_spec (l_fat g).2 0) as [|E]; [done|].
  pose proof (wl_second g Hg E) as (Hp2 & Hq2 & _).
  pose proof (table_sector g _ c Hc Hp2 Hq2 (wl_cap g Hg)) as [_ H2]. apply put_entry_sectors; [lia|done].
Qed.

(** A write to the table is read back from either copy, and nowhere else. *)
Lemma table_put g c d val w :
  well_laid g → sectors w → 0 ≤ c < l_cnt g → 0 ≤ d < l_cnt g →
  entry (l_fat g).1 (put_table g c val w) d = (if d =? c then Z.land val 0x0fffffff else entry (l_fat g).1 w d).
Proof.
  intros Hg Hw Hc Hd. pose proof (wl_first g Hg) as [Hp Hq].
  pose proof (table_sector g _ c Hc Hp Hq (wl_cap g Hg)) as [_ Hs].
  pose proof (table_sector g _ d Hd Hp Hq (wl_cap g Hg)) as [_ Hsd]. unfold put_table.
  destruct (Z.eqb_spec d c) as [->|Hdc].
  - apply entry_put. case_bool; [apply Hw; lia|]. pose proof (wl_second g Hg Heqb) as (Hp2 & Hq2 & _).
    pose proof (table_sector g _ c Hc Hp2 Hq2 (wl_cap g Hg)) as [_ Hs2]. apply put_entry_sectors; [lia|done|lia].
  - rewrite entry_put_ne by lia. case_bool; [done|]. pose proof (wl_second g Hg Heqb) as (Hp2 & Hq2 & Hap).
    pose proof (table_sector g _ c Hc Hp2 Hq2 (wl_cap g Hg)) as [_ Hs2]. apply entry_put_apart. lia.
Qed.

Lemma mirror_put g c d val w :
  well_laid g → sectors w → (l_fat g).2 ≠ 0 → 0 ≤ c < l_cnt g → 0 ≤ d < l_cnt g →
  entry (l_fat g).2 (put_table g c val w) d = (if d =? c then Z.land val 0x0fffffff else entry (l_fat g).2 w d).
Proof.
  intros Hg Hw H2 Hc Hd. pose proof (wl_first g Hg) as [Hp Hq]. pose proof (wl_second g Hg H2) as (Hp2 & Hq2 & Hap).
  pose proof (table_sector g _ c Hc Hp Hq (wl_cap g Hg)) as [_ Hs].
  pose proof (table_sector g _ c Hc Hp2 Hq2 (wl_cap g Hg)) as [_ Hs2].
  pose proof (table_sector g _ d Hd Hp2 Hq2 (wl_cap g Hg)) as [_ Hsd].
  unfold put_table. rewrite (proj2 (Z.eqb_neq _ 0) H2), entry_put_apart by lia.
  destruct (Z.eqb_spec d c) as [->|Hdc]; [apply entry_put, Hw; lia|apply entry_put_ne; lia].
Qed.

(** The sectors of the two copies of the table. *)
Definition in_table (g : Layout) (t : Z) : Prop :=
  (l_fat g).1 ≤ t < (l_fat g).1 + table_len g ∨ (l_fat g).2 ≠ 0 ∧ (l_fat g).2 ≤ t < (l_fat g).2 + table_len g.

Lemma put_table_outside g c val w t :
  well_laid g → 0 ≤ c < l_cnt g → ¬ in_table g t → put_table g c val w t = w t.
Proof.
  intros Hg Hc Ht. pose proof (wl_first g Hg) as [Hp Hq].
  pose proof (table_sector g _ c Hc Hp Hq (wl_cap g Hg)) as [_ Hs]. unfold in_table in Ht. unfold put_table, put_entry at 1.
  rewrite set_sector_ne by lia. destruct (Z.eqb_spec (l_fat g).2 0) as [|E]; [done|].
  pose proof (wl_second g Hg E) as (Hp2 & Hq2 & _).
  pose proof (table_sector g _ c Hc Hp2 Hq2 (wl_cap g Hg)) as [_ Hs2]. unfold put_entry. rewrite set_sector_ne by lia. done.
Qed.

(** ** The FsInfo sector *)
Definition info_sector (a : AVol) : list Z :=
  put32 INFO_FREE_CNT (a_free a) (put32 INFO_NEXT_FREE (a_last a) (a_img a (l_info (a_layout a)))).

(** What sync_fs makes of a volume: the counters written, nothing left to write. *)
Definition synced (a : AVol) : AVol :=
  mk_AVol (a_layout a) (a_last a) (a_free a) false
    (if a_info a then set_sector (l_info (a_layout a)) (info_sector a) (a_img a) else a_img a).

Lemma sync_fs_ok v a :
  represents v a → 0 < l_info (a_layout a) < capacity →
  succeeds sync_fs v (λ _ v', represents v' (synced a) ∧ ∀ t, 0 < t → sector (disk v') t = a_img (synced a) t).
Proof.
  intros Hr Hi. unfold sync_fs, synced.
  eapply wp_seq; [by apply sync_buf_ok|]. intros _ v1 (H1 & Hc & _). wp_prim.
  fold (info_dirty (flags (fat v1))). rewrite (re_info v1 a H1). destruct (a_info a) eqn:Ei.
  2: { apply su_ret. split; [destruct H1 as [? ? ? ? Hia ?]; split; [..|by rewrite Hia|]; done|]. intros t Ht. rewrite clean_view; [by apply H1|apply H1|done|done]. }
  wp_prim. assert (info_sect (fat v1) = l_info (a_layout a)) as -> by (by rewrite <- (re_layout v1 a H1)).
  eapply wp_seq; [by apply (update_buf_ok v1 a)|]. intros _ v2 (H2 & Es & Eb).
  unfold upd_buf, set_flag, clear_flag. wp_prim. unfold with_fat; cbn [fat disk g_buf g_len g_crc].
  eapply wp_seq.
  { apply sync_buf_ok, (edit_ok v2 a (l_info (a_layout a)) (info_sector a)); try done.
    - apply put32_sector, put32_sector, image_sector with v2; [done|lia].
    - unfold info_sector. rewrite <- Eb, <- (re_free v2 a H2), <- (re_last v2 a H2). done. }
  intros _ v3 ([Hco Hl Hla Hf Hin Hw] & Hc3 & _). apply su_upd. split.
  - split; cbn; autorewrite with fat_flags; try done.
    + split; cbn; autorewrite with fat_flags; [apply Hco..|by rewrite Hc3].
  - cbn. intros t Ht. rewrite clean_view by done. by apply Hw.
Qed.
End spec.

(** ** A device in memory, and a small volume on it *)
Definition zero_sector : list Z := replicate 512 0.
Definition ram_sector (d : list (Z * list Z)) (s : Z) : list Z :=
  match list_find (λ p, p.1 = s) d with
  | Some (_, (_, b)) => if decide (is_sector b) then b else zero_sector
  | None => zero_sector
  end.

Definition ram_disk : DiskOps (list (Z * list Z)) :=
  mk_DiskOps _ (λ _ s d, Done (true, ram_sector d s, d)) (λ b s d, Done (true, (s, b) :: d)).

Lemma zero_sector_wf : is_sector zero_sector.
Proof. split; [apply length_replicate|]. apply Forall_replicate. lia. Qed.

Lemma ram_sector_wf d s : is_sector (ram_sector d s).
Proof. unfold ram_sector. destruct (list_find _ _) as [[i [t b]]|]; [|apply zero_sector_wf]. case_decide; [done|apply zero_sector_wf]. Qed.

Lemma ram_sector_cons s c l :
  is_sector c → ram_sector ((s, c) :: l) s = c ∧ ∀ t, t ≠ s → ram_sector ((s, c) :: l) t = ram_sector l t.
Proof.
  intros Hc. unfold ram_sector. cbn. split.
  - rewrite decide_True by done. cbn. by rewrite decide_True.
  - intros t Ht. rewrite decide_False by (cbn; congruence). by destruct (list_find _ l) as [[i [u c']]|].
Qed.

#[export] Instance ram_device : BlockDevice ram_disk.
Proof.
  refine {| capacity := 2000; device_ok := λ _, True; sector := ram_sector |}.
  - intros d s. apply ram_sector_wf.
  - intros b d s _ _ _. by exists d.
  - intros b d s _ _ Hb. exists ((s, b) :: d). split; [done|]. split; [done|]. by apply ram_sector_cons.
Defined.

(** Sectors 1 (FsInfo), 2 and 4 (the two copies of a table of 12 entries), and the
    data from 8, in clusters of four sectors. *)
Definition small_fat (last free : Z) : Fat (list (Z * list Z)) :=
  mk_Fat ram_disk 3 12 1 (2, 4) 8 2 last free 0 zero_sector 0 2 3 (replicate 32 0).

(** The volume with a table of the entries [l]. *)
Definition table_sectors (l : list Z) : list (Z * list Z) :=
  let b := foldr (λ p b, put32 (4 * Z.of_nat p.1) p.2 b) zero_sector (zip (seq 0 (length l)) l) in
  [(2, b); (4, b)].

(** The volume just mounted from the disk [d], and what it represents. *)
Definition disk_volume (last free : Z) (d : list (Z * list Z)) : Vol (list (Z * list Z)) :=
  mk_Vol (small_fat last free) d zero_sector 0 0.
Definition disk_avol (last free : Z) (d : list (Z * list Z)) : AVol :=
  mk_AVol (layout (small_fat last free)) last free false (ram_sector d).

Lemma disk_volume_represents last free d : represents ram_disk (disk_volume last free d) (disk_avol last free d).
Proof.
  split; [|done..|].
  - split; [done|exact I|apply zero_sector_wf|done|done].
  - intros t Ht. unfold view. cbn -[ram_sector]. by rewrite (proj2 (Z.eqb_neq t 0)) by lia.
Qed.

Definition small_volume (last free : Z) (l : list Z) : Vol (list (Z * list Z)) := disk_volume last free (table_sectors l).
Definition small_avol (last free : Z) (l : list Z) : AVol := disk_avol last free (table_sectors l).

Lemma small_volume_represents last free l : represents ram_disk (small_volume last free l) (small_avol last free l).
Proof. apply disk_volume_represents. Qed.

Lemma disk_well_laid last free d : well_laid ram_disk (a_layout (disk_avol last free d)).
Proof.
  assert (table_len (a_layout (disk_avol last free d)) = 1) as E by reflexivity.
  split; rewrite ?E; cbn; lia.
Qed.

Lemma small_well_laid last free l : well_laid ram_disk (a_layout (small_avol last free l)).
Proof. apply disk_well_laid. Qed.
