(* ===== verification/FatChain.v ===== *)
(** * FAT32: cluster chains

    Freeing a chain and taking a cluster, on the table of the volume's image:
    termination, what becomes of every entry, and the errors. *)
From stdpp Require Import base list sets gmap.
From Stdlib Require Import ZArith Lia.
From S2P Require Import Prelude FatFormat FatVolume FatBytes FatVolumeSpec.

#[local] Open Scope Z_scope.

Section chain.
Context {D : Type} (o : DiskOps D) `{!BlockDevice o}.

Abbreviation table a := (entry (l_fat (a_layout a)).1 (a_img a)) (only parsing).

(** A volume whose image has the sectors of a disk. *)
Lemma represents_sectors v a : represents o v a → sectors (a_img a).
Proof. intros Hr t Ht. by apply (image_sector o v a). Qed.

Lemma classify_cases cnt val fl :
  classify cnt val = Some fl →
  fl = CLUST_FREE ∧ val = 0 ∨ fl = CLUST_BAD ∧ val = 0x0ffffff7 ∨
  fl = Z.lor CLUST_USED CLUST_LAST ∧ 0x0ffffff8 ≤ val ∨ fl = CLUST_USED ∧ 2 ≤ val < cnt.
Proof. unfold classify. repeat case_bool; intros [= <-]; try (subst; tauto). Qed.

Lemma free_iff cnt val fl : classify cnt val = Some fl → has fl CLUST_FREE = (val =? 0).
Proof. intros [[-> ->]|[[-> ->]|[[-> H]|[-> H]]]]%classify_cases; [done|done|symmetry; apply Z.eqb_neq; lia..]. Qed.

(** ** Freeing: the number of entries in use goes down *)
Definition in_use (w : image) (base cnt : Z) : list Z :=
  filter (λ d, entry base w d ≠ 0) (seqZ 0 cnt).

Lemma in_use_length w base cnt : (length (in_use w base cnt) ≤ Z.to_nat cnt)%nat.
Proof. unfold in_use. rewrite length_filter, length_seqZ. done. Qed.

Lemma filter_drop_one {A} `{EqDecision A} (P Q : A → Prop) `{!∀ x, Decision (P x), !∀ x, Decision (Q x)} (l : list A) x :
  NoDup l → x ∈ l → P x → ¬ Q x → (∀ y, y ∈ l → y ≠ x → (P y ↔ Q y)) → length (filter P l) = S (length (filter Q l)).
Proof.
  induction l as [|y l IH]; intros Hnd Hx HP HQ Heq; [by apply elem_of_nil in Hx|].
  apply NoDup_cons in Hnd as [Hy Hnd]. rewrite !filter_cons. destruct (decide (y = x)) as [->|Hyx].
  - rewrite decide_True, decide_False by done. simpl. do 2 f_equal. apply filter_ext_in. intros z Hz. apply Heq; set_solver.
  - apply elem_of_cons in Hx as [?|Hx]; [done|].
    assert (length (filter P l) = S (length (filter Q l))) as E by (apply IH; set_solver).
    specialize (Heq y ltac:(set_solver) Hyx). destruct (decide (P y)), (decide (Q y)); simpl; tauto || lia.
Qed.

Lemma put_zero_in_use g w c :
  well_laid o g → sectors w → 0 ≤ c < l_cnt g → entry (l_fat g).1 w c ≠ 0 →
  length (in_use w (l_fat g).1 (l_cnt g)) = S (length (in_use (put_table g c 0 w) (l_fat g).1 (l_cnt g))).
Proof.
  intros Hg Hw Hc Hne. unfold in_use. apply (filter_drop_one _ _ _ c).
  - apply NoDup_seqZ.
  - apply elem_of_seqZ. lia.
  - done.
  - rewrite (table_put o) by done. rewrite Z.eqb_refl, Z.land_0_l. tauto.
  - intros d Hd Hdc. apply elem_of_seqZ in Hd. rewrite (table_put o) by (done || lia).
    by rewrite (proj2 (Z.eqb_neq d c)) by done.
Qed.

Definition set_free (n : Z) (a : AVol) : AVol := mk_AVol (a_layout a) (a_last a) n (a_info a) (a_img a).
Definition set_last (n : Z) (a : AVol) : AVol := mk_AVol (a_layout a) n (a_free a) (a_info a) (a_img a).
Definition set_info (a : AVol) : AVol := mk_AVol (a_layout a) (a_last a) (a_free a) true (a_img a).

Lemma set_free_ok v a n : represents o v a → represents o (with_fat (with_free_cnt n (fat v)) v) (set_free n a).
Proof. intros [[? ? ? ? ?] ? ? ? ? ?]. split; [split|..]; done. Qed.
Lemma set_last_ok v a n : represents o v a → represents o (with_fat (with_last_used n (fat v)) v) (set_last n a).
Proof. intros [[? ? ? ? ?] ? ? ? ? ?]. split; [split|..]; done. Qed.
Lemma set_info_ok v a :
  represents o v a → represents o (with_fat (with_flags (Z.lor (flags (fat v)) FAT_INFO_DIRTY) (fat v)) v) (set_info a).
Proof.
  intros [[? ? ? Hc Hd] ? ? ? ? ?]. split; cbn; autorewrite with fat_flags; try done.
  split; cbn; autorewrite with fat_flags; try done.
Qed.

(** The image after one turn of the loop. *)
Definition freed_one (c : Z) (a : AVol) : AVol :=
  set_free (u32 (a_free a + 1)) (with_img (put_table (a_layout a) c 0 (a_img a)) a).

(** One turn of the loop on a cluster in use. *)
Lemma remove_turn fuel v a c val fl Q :
  represents o v a → well_laid o (a_layout a) → 0 ≤ c < l_cnt (a_layout a) →
  read_entry (a_layout a) (a_img a) c = inr (val, fl) → has fl (Z.lor CLUST_BAD CLUST_FREE) = false →
  (∀ v', represents o v' (freed_one c a) →
    wp (if has fl CLUST_LAST then mret tt else remove_loop fuel val) v' Q) →
  wp (remove_loop (S fuel) c) v Q.
Proof.
  intros Hr Hg Hc Er Hfl HQ. cbn [remove_loop].
  apply wp_bind. refine (wp_mono _ _ _ _ (get_fat_ok o v a c Hr Hg Hc) _). intros r v1 [H1 ->]. rewrite Er. cbv beta iota.
  rewrite Hfl. eapply wp_seq; [by apply (put_fat_ok o v1 a)|]. intros u v2 H2. cbv beta in H2. wp_prim.
  rewrite (re_free o _ _ H2). by apply HQ, set_free_ok.
Qed.

(** Whatever the table holds, cyclic chains included, the loop comes to an end. *)
Lemma remove_loop_returns fuel : ∀ v a c,
  represents o v a → well_laid o (a_layout a) → 0 ≤ c < l_cnt (a_layout a) →
  (length (in_use (a_img a) (l_fat (a_layout a)).1 (l_cnt (a_layout a))) < fuel)%nat →
  wp (remove_loop fuel c) v (λ r v', (r = inr tt ∨ r = inl FAT_ERR_BROKEN) ∧
    ∃ a', represents o v' a' ∧ a_layout a' = a_layout a ∧ a_info a' = a_info a ∧
      ∀ d, 0 ≤ d < l_cnt (a_layout a) → table a' d = 0 ∨ table a' d = table a d).
Proof.
  induction fuel as [|fuel IH]; intros v a c Hr Hg Hc Hf; [lia|].
  destruct (read_entry (a_layout a) (a_img a) c) as [e|[val fl]] eqn:Er.
  - cbn [remove_loop]. apply wp_bind. refine (wp_mono _ _ _ _ (get_fat_ok o v a c Hr Hg Hc) _). intros r v1 [H1 ->].
    rewrite Er. unfold read_entry in Er. destruct (classify _ _); [done|]. injection Er as <-. split; [by right|]. exists a. auto.
  - pose proof Er as Er2. unfold read_entry in Er2. destruct (classify _ _) as [fl'|] eqn:Ecl; [|done].
    injection Er2 as <- ->. destruct (has fl (Z.lor CLUST_BAD CLUST_FREE)) eqn:Hfl.
    + cbn [remove_loop]. apply wp_bind. refine (wp_mono _ _ _ _ (get_fat_ok o v a c Hr Hg Hc) _). intros r v1 [H1 ->].
      rewrite Er. cbv beta iota. rewrite Hfl. apply wp_throw. split; [by right|]. exists a. auto.
    + apply (remove_turn fuel v a c _ fl _ Hr Hg Hc Er Hfl). intros v' Hr'.
      assert (table a c ≠ 0) as Hne by (apply classify_cases in Ecl as [[-> ?]|[[-> ?]|[[-> ?]|[-> ?]]]]; [done|lia..]).
      assert (∀ d, 0 ≤ d < l_cnt (a_layout a) → table (freed_one c a) d = 0 ∨ table (freed_one c a) d = table a d) as Hd.
      { intros d Hd. cbn. rewrite (table_put o) by (done || by apply (represents_sectors v)). case_bool; auto. }
      destruct (has fl CLUST_LAST) eqn:Hl; [apply wp_ret; split; [by left|]; exists (freed_one c a); auto|].
      assert (2 ≤ table a c < l_cnt (a_layout a)) as Hv
        by (apply classify_cases in Ecl as [[-> ?]|[[-> ?]|[[-> ?]|[-> ?]]]]; done).
      pose proof (put_zero_in_use _ _ c Hg (represents_sectors v a Hr) Hc Hne) as Hcnt.
      rewrite Hcnt in Hf. apply Nat.succ_lt_mono in Hf.
      refine (wp_mono _ _ _ _ (IH v' (freed_one c a) _ Hr' Hg (conj (Z.le_trans 0 2 _ ltac:(done) (proj1 Hv)) (proj2 Hv)) Hf) _).
      intros r v2 (Hres & a' & Hr2 & Hl2 & Hi2 & Hd2). split; [done|]. exists a'. repeat (split; [done|]).
      intros d Hdr. destruct (Hd2 d Hdr) as [?|E]; [by left|]. rewrite E. by apply Hd.
Qed.

(** The counters are not in the table. *)
Lemma synced_table a d :
  well_laid o (a_layout a) → 0 ≤ d < l_cnt (a_layout a) → table (synced a) d = table a d.
Proof.
  intros Hg Hd. unfold synced. cbn. destruct (a_info a); [|done]. pose proof (wl_first o _ Hg) as [Hp Hq].
  pose proof (table_sector o _ _ d Hd Hp Hq (wl_cap o _ Hg)) as [_ Hs]. pose proof (wl_info_first o _ Hg).
  unfold entry. by rewrite set_sector_ne by lia.
Qed.

Lemma chain_fuel_ok v a : represents o v a →
  succeeds chain_fuel v (λ n v', n = S (S (Z.to_nat (l_cnt (a_layout a)))) ∧ v' = v).
Proof.
  intros Hr. unfold chain_fuel. wp_prim. apply su_ret. split; [|done]. by rewrite <- (re_layout o v a Hr).
Qed.

(** ** Chains *)

(** [l] is the clusters of the chain that starts at [c], in order. *)
Inductive chain (g : Layout) (w : image) : Z → list Z → Prop :=
| chain_last c :
    0 ≤ c < l_cnt g → 0x0ffffff8 ≤ entry (l_fat g).1 w c → chain g w c [c]
| chain_next c l :
    0 ≤ c < l_cnt g → 2 ≤ entry (l_fat g).1 w c < l_cnt g → c ∉ l →
    chain g w (entry (l_fat g).1 w c) l → chain g w c (c :: l).

Lemma chain_range g w c l : chain g w c l → ∀ d, d ∈ l → 0 ≤ d < l_cnt g.
Proof. induction 1; intros d; rewrite ?elem_of_cons, ?elem_of_nil; intros Hd; destruct Hd; subst; try done; auto. Qed.

Lemma chain_NoDup g w c l : chain g w c l → NoDup l.
Proof. induction 1 as [|c l ? ? ? ? IH]; [apply NoDup_singleton|by apply NoDup_cons]. Qed.

Lemma chain_frame g w w' c l :
  (∀ d, d ∈ l → entry (l_fat g).1 w' d = entry (l_fat g).1 w d) → chain g w c l → chain g w' c l.
Proof.
  intros Hd H. induction H as [c Hc Hl|c l Hc Hn Hni Hch IH].
  - apply chain_last; [done|]. by rewrite Hd by set_solver.
  - apply chain_next; [done|by rewrite Hd by set_solver|done|]. rewrite Hd by set_solver. apply IH. set_solver.
Qed.

Lemma u32_add_succ n k : u32 (u32 (n + 1) + k) = u32 (n + (1 + k)).
Proof. unfold u32, wrap_u. rewrite Z.add_mod_idemp_l by done. f_equal. lia. Qed.

(** The loop frees the clusters of a chain and touches nothing else. *)
Lemma remove_loop_chain l : ∀ fuel v a c,
  represents o v a → well_laid o (a_layout a) → chain (a_layout a) (a_img a) c l → (length l < fuel)%nat →
  succeeds (remove_loop fuel c) v (λ _ v', ∃ a', represents o v' a' ∧ a_layout a' = a_layout a ∧ a_info a' = a_info a ∧
    a_last a' = a_last a ∧ a_free a' = u32 (a_free a + Z.of_nat (length l)) ∧
    (∀ d, 0 ≤ d < l_cnt (a_layout a) → table a' d = if bool_decide (d ∈ l) then 0 else table a d) ∧
    (∀ t, ¬ in_table (a_layout a) t → a_img a' t = a_img a t)).
Proof.
  induction l as [|x l IH]; intros fuel v a c Hr Hg Hch Hf; [inversion Hch|].
  destruct fuel as [|fuel]; [lia|]. pose proof (represents_sectors v a Hr) as Hsec.
  assert (∀ d, 0 ≤ d < l_cnt (a_layout a) → table (freed_one x a) d = if d =? x then 0 else table a d) as Hone.
  { intros d Hd. cbn. rewrite (table_put o) by (done || apply (chain_range _ _ _ _ Hch); set_solver). by case_bool. }
  assert (∀ t, ¬ in_table (a_layout a) t → a_img (freed_one x a) t = a_img a t) as Hout.
  { intros t Ht. apply (put_table_outside o); [done| |done]. apply (chain_range _ _ _ _ Hch). set_solver. }
  inversion Hch as [c' Hc Hl|c' l' Hc Hn Hni Hch' E]; subst.
  - refine (remove_turn fuel v a x (table a x) (Z.lor CLUST_USED CLUST_LAST) _ Hr Hg Hc _ eq_refl _).
    { unfold read_entry, classify. rewrite !(proj2 (Z.eqb_neq _ _)), (proj2 (Z.leb_le _ _)) by lia. done. }
    intros v' Hr'. apply su_ret. exists (freed_one x a). split; [done|]. do 4 (split; [done|]). split; [|done].
    intros d Hd. rewrite Hone by done. destruct (Z.eqb_spec d x); [rewrite bool_decide_true by set_solver|rewrite bool_decide_false by set_solver]; done.
  - refine (remove_turn fuel v a x (table a x) CLUST_USED _ Hr Hg Hc _ eq_refl _).
    { pose proof (wl_cnt o _ Hg). unfold read_entry, classify. rewrite !(proj2 (Z.eqb_neq _ _)), (proj2 (Z.leb_gt _ _)) by lia.
      by rewrite (proj2 (Z.leb_le _ _)), (proj2 (Z.ltb_lt _ _)) by lia. }
    intros v' Hr'. change (has CLUST_USED CLUST_LAST) with false. cbv iota.
    assert (chain (a_layout a) (a_img (freed_one x a)) (table a x) l) as Hch2.
    { refine (chain_frame _ _ _ _ _ _ Hch'). intros d Hd. rewrite Hone by (apply (chain_range _ _ _ _ Hch'); done).
      rewrite (proj2 (Z.eqb_neq d x)) by set_solver. done. }
    simpl in Hf. refine (su_mono _ _ _ _ (IH fuel v' (freed_one x a) _ Hr' Hg Hch2 (proj2 (Nat.succ_lt_mono _ _) Hf)) _).
    intros _ v2 (a' & Hr2 & El & Ei & Ela & Ef & Ht & Ho). exists a'. do 4 (split; [done|]). split; [|split].
    + rewrite Ef. cbn [length]. unfold freed_one at 1. cbn [a_free set_free]. rewrite u32_add_succ. f_equal. lia.
    + intros d Hd. rewrite Ht, Hone by done. destruct (Z.eqb_spec d x) as [->|Hne].
      * rewrite (bool_decide_true (x ∈ x :: l)) by set_solver. by case_bool_decide.
      * do 2 case_bool_decide; set_solver.
    + intros t Hnt. by rewrite Ho, Hout.
Qed.

(** ** Taking a cluster *)

(** The candidates for a free cluster, in the order the search tries them: those
    after the last used one, then those before it. *)
Definition candidates (g : Layout) (last : Z) : list Z := seqZ (last + 1) (l_cnt g - last - 1) ++ seqZ 2 (last - 2).

(** Every entry has a value a table may have. *)
Definition valid_table (g : Layout) (w : image) : Prop :=
  ∀ d, 2 ≤ d < l_cnt g → classify (l_cnt g) (entry (l_fat g).1 w d) ≠ None.

(** The cluster that is taken: the next one when it is free, or the first free candidate. *)
Definition chosen (g : Layout) (w : image) (last prev : Z) : option Z :=
  let next := next_clust prev (l_cnt g) in
  if negb (prev =? 0) && (entry (l_fat g).1 w next =? 0) then Some next
  else head (filter (λ d, entry (l_fat g).1 w d = 0) (candidates g last)).

(** [l] is what the search tries from [c] on. *)
Fixpoint follows (g : Layout) (last c : Z) (l : list Z) : Prop :=
  match l with
  | [] => next_clust c (l_cnt g) = last
  | d :: l => next_clust c (l_cnt g) = d ∧ d ≠ last ∧ follows g last d l
  end.

Lemma next_clust_succ c cnt : 0 ≤ c → c + 1 < cnt → cnt ≤ 2 ^ 32 → next_clust c cnt = c + 1.
Proof. intros Hc Hs Hcnt. unfold next_clust. rewrite u32_id by lia. by rewrite (proj2 (Z.leb_gt _ _)) by lia. Qed.

Lemma next_clust_wrap c cnt : 0 ≤ c → c + 1 = cnt → cnt < 2 ^ 32 → next_clust c cnt = 2.
Proof. intros Hc Hs Hcnt. unfold next_clust. rewrite u32_id by lia. by rewrite (proj2 (Z.leb_le _ _)) by lia. Qed.

Lemma next_clust_range c cnt : 2 < cnt → 2 ≤ c < cnt → cnt < 2 ^ 32 → 2 ≤ next_clust c cnt < cnt.
Proof.
  intros H2 Hc Hcnt. destruct (decide (c + 1 = cnt)); [rewrite next_clust_wrap by lia; lia|].
  rewrite next_clust_succ by lia. lia.
Qed.

Lemma follows_below g last n : ∀ c,
  l_cnt g < 2 ^ 32 → 0 ≤ c → last < l_cnt g → last - c - 1 = Z.of_nat n →
  follows g last c (seqZ (c + 1) (last - c - 1)).
Proof.
  induction n as [|n IH]; intros c Hcnt Hc Hl Hn.
  - rewrite Hn. change (seqZ (c + 1) (Z.of_nat 0)) with (@nil Z). cbn [follows]. rewrite next_clust_succ by lia. lia.
  - rewrite seqZ_cons by lia. cbn [follows]. rewrite next_clust_succ by lia. split; [done|]. split; [lia|].
    replace (Z.succ (c + 1)) with (c + 1 + 1) by lia. replace (Z.pred (last - c - 1)) with (last - (c + 1) - 1) by lia.
    apply IH; lia.
Qed.

Lemma follows_candidates g last n : ∀ c,
  2 < l_cnt g < 2 ^ 32 → 2 ≤ last < l_cnt g → last ≤ c → l_cnt g - c - 1 = Z.of_nat n →
  follows g last c (seqZ (c + 1) (l_cnt g - c - 1) ++ seqZ 2 (last - 2)).
Proof.
  induction n as [|n IH]; intros c Hcnt Hl Hc Hn.
  - rewrite Hn. change (seqZ (c + 1) (Z.of_nat 0)) with (@nil Z). cbn [app].
    destruct (decide (last = 2)) as [->|Hl2]; [change (seqZ 2 (2 - 2)) with (@nil Z); cbn [follows]; by rewrite next_clust_wrap by lia|].
    rewrite seqZ_cons by lia. cbn [follows]. rewrite next_clust_wrap by lia. split; [done|]. split; [lia|].
    replace (Z.succ 2) with (2 + 1) by lia. replace (Z.pred (last - 2)) with (last - 2 - 1) by lia.
    apply (follows_below g last (Z.to_nat (last - 2 - 1))); lia.
  - rewrite seqZ_cons by lia. cbn [app follows]. rewrite next_clust_succ by lia. split; [done|]. split; [lia|].
    replace (Z.succ (c + 1)) with (c + 1 + 1) by lia. replace (Z.pred (l_cnt g - c - 1)) with (l_cnt g - (c + 1) - 1) by lia.
    apply IH; lia.
Qed.

Lemma candidates_follow g last :
  2 < l_cnt g < 2 ^ 32 → 2 ≤ last < l_cnt g → follows g last last (candidates g last).
Proof. intros Hcnt Hl. apply (follows_candidates g last (Z.to_nat (l_cnt g - last - 1))); lia. Qed.

(** The search reads the candidates in order. *)
Lemma scan_loop_ok l : ∀ fuel fl v a c,
  represents o v a → well_laid o (a_layout a) → valid_table (a_layout a) (a_img a) →
  (∀ d, d ∈ l → 2 ≤ d < l_cnt (a_layout a)) → follows (a_layout a) (a_last a) c l → (length l < fuel)%nat →
  wp (scan_loop fuel fl c) v (λ r v', represents o v' a ∧
    r = match head (filter (λ d, table a d = 0) l) with Some d => inr d | None => inl FAT_ERR_FULL end).
Proof.
  induction l as [|d l IH]; intros fuel fl v a c Hr Hg Hv Hin Hfo Hf; (destruct fuel as [|fuel]; [simpl in Hf; lia|]).
  - cbn [scan_loop]. wp_prim. rewrite (re_last o v a Hr). cbn [follows] in Hfo.
    assert (clust_cnt (fat v) = l_cnt (a_layout a)) as -> by (by rewrite <- (re_layout o v a Hr)).
    rewrite Hfo, Z.eqb_refl. by apply wp_throw.
  - cbn [scan_loop]. wp_prim. rewrite (re_last o v a Hr). destruct Hfo as (Hn & Hne & Hfo).
    assert (clust_cnt (fat v) = l_cnt (a_layout a)) as -> by (by rewrite <- (re_layout o v a Hr)).
    rewrite Hn, (proj2 (Z.eqb_neq _ _) Hne). assert (2 ≤ d < l_cnt (a_layout a)) as Hd by (apply Hin; left).
    apply wp_bind, wp_catch. refine (wp_mono _ _ _ _ (get_fat_ok o v a d Hr Hg ltac:(lia)) _).
    intros r v1 [H1 ->]. unfold read_entry. pose proof (Hv d Hd) as Hcl.
    destruct (classify (l_cnt (a_layout a)) (table a d)) as [fl'|] eqn:Ecl; [|done]. cbv beta iota.
    rewrite (free_iff _ _ _ Ecl), filter_cons. destruct (Z.eqb_spec (table a d) 0) as [E|E].
    + apply wp_ret. rewrite decide_True by done. done.
    + rewrite decide_False by done. apply IH; try done; [|simpl in Hf; lia]. intros x Hx. apply Hin. by right.
Qed.

Lemma candidates_range g last d : 2 < l_cnt g → 2 ≤ last < l_cnt g → d ∈ candidates g last ↔ 2 ≤ d < l_cnt g ∧ d ≠ last.
Proof. intros H2 Hl. unfold candidates. rewrite elem_of_app, !elem_of_seqZ. lia. Qed.

Lemma candidates_length g last : 2 < l_cnt g → 2 ≤ last < l_cnt g → (length (candidates g last) < S (S (Z.to_nat (l_cnt g))))%nat.
Proof. intros H2 Hl. unfold candidates. rewrite length_app, !length_seqZ. lia. Qed.

(** The cluster found is the one chosen, and nothing is written. *)
Lemma find_free_ok v a prev :
  represents o v a → well_laid o (a_layout a) → valid_table (a_layout a) (a_img a) →
  2 ≤ a_last a < l_cnt (a_layout a) → (prev = 0 ∨ 2 ≤ prev < l_cnt (a_layout a)) →
  wp (find_free prev) v (λ r v', represents o v' a ∧
    r = match chosen (a_layout a) (a_img a) (a_last a) prev with Some d => inr d | None => inl FAT_ERR_FULL end).
Proof.
  intros Hr Hg Hv Hl Hp. pose proof (wl_cnt o _ Hg) as Hcnt. unfold find_free.
  assert (∀ v' fl, represents o v' a → wp (scan_loop (S (S (Z.to_nat (l_cnt (a_layout a))))) fl (a_last a)) v' (λ r v', represents o v' a ∧
    r = match head (filter (λ d, table a d = 0) (candidates (a_layout a) (a_last a))) with Some d => inr d | None => inl FAT_ERR_FULL end)) as Hscan.
  { intros v' fl Hr'. apply scan_loop_ok; try done; [|apply candidates_follow; lia|apply candidates_length; lia].
    intros d Hd. apply candidates_range in Hd; lia. }
  eapply wp_seq; [by apply chain_fuel_ok|]. intros n v1 [-> ->]. wp_prim. unfold chosen.
  destruct (Z.eqb_spec prev 0) as [->|Hp0]; cbn [negb andb]; [rewrite (re_last o v a Hr); by apply Hscan|].
  assert (clust_cnt (fat v) = l_cnt (a_layout a)) as -> by (by rewrite <- (re_layout o v a Hr)).
  pose proof (next_clust_range prev (l_cnt (a_layout a)) ltac:(lia) ltac:(lia) ltac:(lia)) as Hn.
  set (next := next_clust prev (l_cnt (a_layout a))) in *.
  apply wp_bind. refine (wp_mono _ _ _ _ (get_fat_ok o v a next Hr Hg ltac:(lia)) _).
  intros r v1 [H1 ->]. unfold read_entry. pose proof (Hv next Hn) as Hcl.
  destruct (classify (l_cnt (a_layout a)) (table a next)) as [fl'|] eqn:Ecl; [|done]. cbv beta iota.
  rewrite (free_iff _ _ _ Ecl). destruct (table a next =? 0); [by apply wp_ret|].
  wp_prim. rewrite (re_last o v1 a H1). by apply Hscan.
Qed.

Lemma chosen_free g w last prev c :
  2 < l_cnt g < 2 ^ 32 → 2 ≤ last < l_cnt g → (prev = 0 ∨ 2 ≤ prev < l_cnt g) →
  chosen g w last prev = Some c → 2 ≤ c < l_cnt g ∧ entry (l_fat g).1 w c = 0.
Proof.
  intros Hcnt Hl Hp. unfold chosen.
  destruct (negb (prev =? 0) && (entry (l_fat g).1 w (next_clust prev (l_cnt g)) =? 0)) eqn:E.
  - intros [= <-]. zify_bools. split; [apply next_clust_range; lia|done].
  - intros H. apply head_Some_elem_of, list_elem_of_filter in H as [He Hc]. apply candidates_range in Hc; [|lia..]. tauto.
Qed.

Lemma chosen_none g w last prev d :
  2 < l_cnt g → 2 ≤ last < l_cnt g → chosen g w last prev = None → 2 ≤ d < l_cnt g → d ≠ last → entry (l_fat g).1 w d ≠ 0.
Proof.
  intros Hcnt Hl. unfold chosen. case_bool; [done|]. intros H Hd Hne E. apply head_None in H.
  assert (d ∈ filter (λ d, entry (l_fat g).1 w d = 0) (candidates g last)) as Hin
    by (apply list_elem_of_filter; split; [done|]; by apply candidates_range; [lia..|]).
  rewrite H in Hin. by apply elem_of_nil in Hin.
Qed.

(** When there is no choice: the last used cluster itself is looked at only as the one
    after the end of the chain. *)
Lemma chosen_none_iff g w last prev :
  2 < l_cnt g → 2 ≤ last < l_cnt g →
  chosen g w last prev = None ↔
    (∀ d, 2 ≤ d < l_cnt g → d ≠ last → entry (l_fat g).1 w d ≠ 0) ∧
    (prev ≠ 0 → entry (l_fat g).1 w (next_clust prev (l_cnt g)) ≠ 0).
Proof.
  intros Hcnt Hl. split.
  - intros H. split; [intros d; by apply (chosen_none _ _ _ prev)|].
    intros Hp. unfold chosen in H. destruct (Z.eqb_spec prev 0); [done|]. cbn [negb andb] in H.
    by destruct (Z.eqb_spec (entry (l_fat g).1 w (next_clust prev (l_cnt g))) 0).
  - intros [Hd Hp]. unfold chosen. destruct (Z.eqb_spec prev 0) as [->|Hne]; cbn [negb andb].
    2: destruct (Z.eqb_spec (entry (l_fat g).1 w (next_clust prev (l_cnt g))) 0); [by destruct (Hp Hne)|].
    all: rewrite filter_none; [done|]; intros d Hin;
      apply (candidates_range g last) in Hin; [apply Hd; apply Hin|lia..].
Qed.

(** The table after taking [c] at the end of the chain of [prev]. *)
Definition linked (c prev d old : Z) : Z :=
  if negb (prev =? 0) && (d =? prev) then c else if d =? c then 0x0fffffff else old.

Lemma link_ok v a c prev :
  represents o v a → well_laid o (a_layout a) → 2 ≤ c < l_cnt (a_layout a) → (prev = 0 ∨ 2 ≤ prev < l_cnt (a_layout a)) →
  succeeds (put_fat c 0x0fffffff;; (if negb (prev =? 0) then put_fat prev c else mret tt)) v (λ _ v', ∃ w,
    represents o v' (with_img w a) ∧
    (∀ d, 0 ≤ d < l_cnt (a_layout a) → entry (l_fat (a_layout a)).1 w d = linked c prev d (table a d)) ∧
    (∀ t, ¬ in_table (a_layout a) t → w t = a_img a t)).
Proof.
  intros Hr Hg Hc Hp. pose proof (wl_cnt o _ Hg) as Hcnt. pose proof (represents_sectors v a Hr) as Hs.
  eapply wp_seq; [apply (put_fat_ok o v a); [done|done|lia]|]. intros u v1 H1. cbv beta in H1. unfold linked.
  destruct (Z.eqb_spec prev 0) as [->|Hp0]; cbn [negb andb].
  - apply su_ret. eexists. split; [exact H1|]. split.
    + intros d Hd. rewrite (table_put o) by (done || lia). case_bool; [|done]. done.
    + intros t Ht. by apply (put_table_outside o); [|lia|].
  - refine (su_mono _ _ _ _ (put_fat_ok o v1 _ prev c H1 Hg ltac:(cbn; lia)) _). intros u2 v2 H2. cbn in H2.
    eexists. split; [exact H2|]. split.
    + intros d Hd. rewrite (table_put o) by (done || lia || (apply (put_table_sectors o); [done|lia|done])).
      case_bool; [rewrite land_low28; apply Z.mod_small; lia|]. rewrite (table_put o) by (done || lia). by case_bool.
    + intros t Ht. rewrite (put_table_outside o) by (done || lia). apply (put_table_outside o); [done|lia|done].
Qed.

Lemma linked_valid g w w' c prev :
  well_laid o g → valid_table g w → 2 ≤ c < l_cnt g →
  (∀ d, 0 ≤ d < l_cnt g → entry (l_fat g).1 w' d = linked c prev d (entry (l_fat g).1 w d)) → valid_table g w'.
Proof.
  intros Hg Hv Hc Hw d Hd. pose proof (wl_cnt o _ Hg). rewrite Hw by lia. unfold linked. repeat case_bool; [|done|by apply Hv].
  unfold classify. rewrite !(proj2 (Z.eqb_neq _ _)), (proj2 (Z.leb_gt _ _)) by lia.
  by rewrite (proj2 (Z.leb_le _ _)), (proj2 (Z.ltb_lt _ _)) by lia.
Qed.

(** [remove_chain] returns, whatever the table holds, chains that are
    cyclic or broken included: with an error code or without, every entry is as
    it was or free, and nothing else about the volume's layout has changed. *)
Theorem remove_chain_terminates v a c :
  represents o v a → well_laid o (a_layout a) → 0 ≤ c < l_cnt (a_layout a) →
  wp (remove_chain c) v (λ r v', (r = inr tt ∨ r = inl FAT_ERR_BROKEN) ∧
    ∃ a', represents o v' a' ∧ a_layout a' = a_layout a ∧
      ∀ d, 0 ≤ d < l_cnt (a_layout a) → table a' d = 0 ∨ table a' d = table a d).
Proof.
  intros Hr Hg Hc. unfold remove_chain, set_flag. wp_prim. pose proof (set_info_ok v a Hr) as Hr1.
  eapply wp_seq; [by apply chain_fuel_ok|]. intros n v1 [-> ->].
  pose proof (in_use_length (a_img a) (l_fat (a_layout a)).1 (l_cnt (a_layout a))) as Hn. apply wp_bind.
  refine (wp_mono _ _ _ _ (remove_loop_returns _ _ _ c Hr1 Hg Hc _) _); [cbn [set_info a_img a_layout]; lia|].
  intros r v2 (Hres & a' & Hr2 & El & _ & Ht). destruct r as [e|[]]; [split; [done|]; by exists a'|].
  assert (0 < l_info (a_layout a') < capacity) as Hi by (rewrite El; apply Hg).
  refine (wp_mono _ _ _ _ (sync_fs_ok o v2 a' Hr2 Hi) _). intros r v3 ([] & -> & H3 & _). split; [by left|].
  exists (synced a'). split; [done|]. split; [done|]. intros d Hd. rewrite synced_table by (rewrite El; done).
  by apply Ht.
Qed.

(** C24: [remove_chain] on a well-formed chain frees exactly its clusters: their
    entries become free, every other entry keeps its value, the count of free
    clusters grows by the length of the chain, the counters and the table are on
    the disk when it returns, and no other sector has changed. *)
Theorem remove_chain_frees v a c l :
  represents o v a → well_laid o (a_layout a) → chain (a_layout a) (a_img a) c l →
  succeeds (remove_chain c) v (λ _ v', ∃ a', represents o v' a' ∧ a_layout a' = a_layout a ∧
    a_last a' = a_last a ∧ a_free a' = u32 (a_free a + Z.of_nat (length l)) ∧
    (∀ d, 0 ≤ d < l_cnt (a_layout a) → table a' d = if bool_decide (d ∈ l) then 0 else table a d) ∧
    (∀ t, 0 < t → sector (disk v') t = a_img a' t) ∧
    (∀ t, ¬ in_table (a_layout a) t → t ≠ l_info (a_layout a) → a_img a' t = a_img a t)).
Proof.
  intros Hr Hg Hch. unfold remove_chain, set_flag. wp_prim. pose proof (set_info_ok v a Hr) as Hr1.
  eapply wp_seq; [by apply chain_fuel_ok|]. intros n v1 [-> ->].
  assert (length l ≤ Z.to_nat (l_cnt (a_layout a)))%nat as Hlen.
  { assert (l ⊆+ seqZ 0 (l_cnt (a_layout a))) as Hsub%submseteq_length; [|by rewrite length_seqZ in Hsub].
    apply NoDup_submseteq; [by apply (chain_NoDup (a_layout a) (a_img a) c)|].
    intros d Hd. apply (chain_range _ _ _ _ Hch) in Hd. apply elem_of_seqZ. lia. }
  eapply wp_seq; [apply (remove_loop_chain l _ _ _ c Hr1 Hg Hch); cbn [set_info a_img a_layout]; lia|].
  intros _ v2 (a' & Hr2 & El & Ei & Ela & Ef & Ht & Ho).
  assert (0 < l_info (a_layout a') < capacity) as Hi by (rewrite El; apply Hg).
  refine (su_mono _ _ _ _ (sync_fs_ok o v2 a' Hr2 Hi) _). intros _ v3 (H3 & Hd3). exists (synced a').
  split; [done|]. do 3 (split; [done|]). split; [|split; [done|]].
  - intros d Hd. rewrite synced_table by (rewrite El; done). by apply Ht.
  - intros t Hnt Hti. unfold synced. cbn. destruct (a_info a'); [rewrite set_sector_ne by (by rewrite El)|]; by apply Ho.
Qed.

(** C23: [stretch_chain] on a table whose entries are all valid, the last used
    cluster being one of the volume, always returns.  It takes the free cluster
    [chosen]: the one after the end of the chain when it is free, otherwise the
    first free one, the last used one aside, in the circle after the last used; that
    cluster becomes the end of a chain, the chain's end links to it, every other entry
    keeps its value, the count of free clusters goes down by one, the table and the
    counters are on the disk, no other sector has changed, and the table is still
    valid.  It answers FAT_ERR_FULL, with nothing written, exactly when no cluster
    but the last used is free and the one after the end of the chain, when there is a
    chain, is not free either: the last used cluster itself may be free then. *)
Theorem stretch_chain_spec v a prev :
  represents o v a → well_laid o (a_layout a) → valid_table (a_layout a) (a_img a) →
  2 ≤ a_last a < l_cnt (a_layout a) → (prev = 0 ∨ 2 ≤ prev < l_cnt (a_layout a)) →
  wp (stretch_chain prev) v (λ r v',
    match chosen (a_layout a) (a_img a) (a_last a) prev with
    | Some c =>
      r = inr c ∧ 2 ≤ c < l_cnt (a_layout a) ∧ table a c = 0 ∧
      ∃ a', represents o v' a' ∧ a_layout a' = a_layout a ∧ a_last a' = c ∧ a_free a' = u32 (a_free a - 1) ∧
        (∀ d, 0 ≤ d < l_cnt (a_layout a) → table a' d = linked c prev d (table a d)) ∧
        (∀ t, 0 < t → sector (disk v') t = a_img a' t) ∧
        (∀ t, ¬ in_table (a_layout a) t → t ≠ l_info (a_layout a) → a_img a' t = a_img a t) ∧
        valid_table (a_layout a') (a_img a')
    | None =>
      r = inl FAT_ERR_FULL ∧ represents o v' (set_info a)
    end) ∧
  (chosen (a_layout a) (a_img a) (a_last a) prev = None ↔
     (∀ d, 2 ≤ d < l_cnt (a_layout a) → d ≠ a_last a → table a d ≠ 0) ∧
     (prev ≠ 0 → table a (next_clust prev (l_cnt (a_layout a))) ≠ 0)).
Proof.
  intros Hr Hg Hv Hl Hp. pose proof (wl_cnt o _ Hg) as Hcnt. split; [|apply chosen_none_iff; lia].
  unfold stretch_chain, set_flag. wp_prim. pose proof (set_info_ok v a Hr) as Hr1. apply wp_bind. refine (wp_mono _ _ _ _ (find_free_ok _ _ prev Hr1 Hg Hv Hl Hp) _).
  cbn [set_info a_layout a_img a_last]. intros r v1 [Hr2 ->].
  destruct (chosen (a_layout a) (a_img a) (a_last a) prev) as [c|] eqn:Ech.
  2: by split.
  destruct (chosen_free (a_layout a) (a_img a) (a_last a) prev c ltac:(lia) Hl Hp Ech) as [Hc Hfree]. apply wp_assoc.
  eapply wp_seq; [by apply (link_ok v1 _ c prev Hr2 Hg)|]. cbn [set_info a_layout a_img].
  intros [] v2 (w & Hr3 & Ht & Ho). wp_prim. unfold with_fat; cbn [fat disk g_buf g_len g_crc].
  pose proof (set_last_ok _ _ c Hr3) as Hr4.
  pose proof (set_free_ok _ _ (u32 (a_free a - 1)) Hr4) as Hr5. cbn in Hr5.
  assert (free_cnt (fat v2) = a_free a) as Ef by (by rewrite (re_free o _ _ Hr3)). cbn [free_cnt with_last_used]. rewrite Ef.
  eapply wp_seq; [apply (sync_fs_ok o _ _ Hr5); apply Hg|]. intros [] v3 (H3 & Hd3). cbv beta in H3. apply wp_ret.
  split; [done|]. split; [done|]. split; [done|]. eexists. split; [exact H3|]. do 3 (split; [done|]).
  assert (∀ d, 0 ≤ d < l_cnt (a_layout a) → table (synced (set_free (u32 (a_free a - 1)) (set_last c (with_img w (set_info a))))) d =
    linked c prev d (table a d)) as Ht2 by (intros d Hd; rewrite synced_table by done; by apply Ht).
  split; [exact Ht2|]. split; [done|]. split.
  - intros t Hnt Hti. unfold synced. cbn. rewrite set_sector_ne by done. by apply Ho.
  - exact (linked_valid _ _ _ c prev Hg Hv Hc Ht2).
Qed.
End chain.

(** ** Concrete tables *)

(** A cycle: cluster 2 is followed by 3, and 3 by 2. *)
Definition cyclic : list Z := [0x0ffffff8; 0x0fffffff; 3; 2].

Lemma remove_chain_terminates_witness :
  entry 2 (a_img (small_avol 2 5 cyclic)) 2 = 3 ∧ entry 2 (a_img (small_avol 2 5 cyclic)) 3 = 2 ∧
  wp (remove_chain 2) (small_volume 2 5 cyclic) (λ r _, r = inr tt ∨ r = inl FAT_ERR_BROKEN).
Proof.
  split; [vm_compute; reflexivity|]. split; [vm_compute; reflexivity|].
  refine (wp_mono _ _ _ _ (remove_chain_terminates ram_disk (small_volume 2 5 cyclic) (small_avol 2 5 cyclic) 2
    (small_volume_represents _ _ _) (small_well_laid _ _ _) _) _); [cbn; lia|]. intros r v' [H _]. exact H.
Defined.

(** A chain of two clusters. *)
Definition two_clusters : list Z := [0x0ffffff8; 0x0fffffff; 3; 0x0fffffff].

Lemma two_clusters_chain last free :
  chain (a_layout (small_avol last free two_clusters)) (a_img (small_avol last free two_clusters)) 2 [2; 3].
Proof.
  assert (entry 2 (ram_sector (table_sectors two_clusters)) 2 = 3) as E2 by (vm_compute; reflexivity).
  assert (entry 2 (ram_sector (table_sectors two_clusters)) 3 = 0x0fffffff) as E3 by (vm_compute; reflexivity).
  assert (2 ∉ [3]) as Hn by (rewrite elem_of_cons, elem_of_nil; lia).
  apply chain_next; cbn -[entry ram_sector]; rewrite ?E2; try lia; [done|].
  apply chain_last; cbn -[entry ram_sector]; rewrite ?E3; lia.
Qed.

Lemma remove_chain_frees_witness :
  chain (a_layout (small_avol 2 5 two_clusters)) (a_img (small_avol 2 5 two_clusters)) 2 [2; 3] ∧
  succeeds (remove_chain 2) (small_volume 2 5 two_clusters) (λ _ v', free_cnt (fat v') = 7).
Proof.
  split; [apply two_clusters_chain|].
  refine (su_mono _ _ _ _ (remove_chain_frees ram_disk (small_volume 2 5 two_clusters) (small_avol 2 5 two_clusters) 2 [2; 3]
    (small_volume_represents _ _ _) (small_well_laid _ _ _) (two_clusters_chain 2 5)) _).
  intros _ v' (a' & Hr & _ & _ & Hf & _). rewrite (re_free _ _ _ Hr), Hf. reflexivity.
Defined.

Definition valid_entries (g : Layout) (w : image) : bool :=
  forallb (λ d, match classify (l_cnt g) (entry (l_fat g).1 w d) with Some _ => true | None => false end) (seqZ 2 (l_cnt g - 2)).

Lemma valid_entries_table g w : valid_entries g w = true → valid_table g w.
Proof.
  unfold valid_entries. rewrite forallb_forall. intros H d Hd Hn. specialize (H d). rewrite Hn in H.
  assert (false = true); [|done]. apply H, list_elem_of_In, elem_of_seqZ. lia.
Qed.

(** A table with entries of every cluster, the last used one, 3, being the only one
    that is free. *)
Definition full_but_last : list Z :=
  [0x0ffffff8; 0x0fffffff; 0x0fffffff; 0] ++ replicate 8 0x0fffffff.

(** The chain of cluster 2 is given cluster 4: cluster 3 is in use.  A new chain is
    refused although cluster 3, the last used, is free. *)
Lemma stretch_chain_spec_witness :
  wp (stretch_chain 2) (small_volume 3 5 [0x0ffffff8; 0x0fffffff; 0x0fffffff; 0x0fffffff]) (λ r v', r = inr 4 ∧ free_cnt (fat v') = 4) ∧
  entry 2 (a_img (small_avol 3 1 full_but_last)) 3 = 0 ∧
  wp (stretch_chain 0) (small_volume 3 1 full_but_last) (λ r _, r = inl FAT_ERR_FULL).
Proof.
  set (l := [0x0ffffff8; 0x0fffffff; 0x0fffffff; 0x0fffffff]).
  assert (valid_entries (a_layout (small_avol 3 5 l)) (a_img (small_avol 3 5 l)) = true) as Hv by (vm_compute; reflexivity).
  assert (chosen (a_layout (small_avol 3 5 l)) (a_img (small_avol 3 5 l)) 3 2 = Some 4) as Hc by (vm_compute; reflexivity).
  assert (valid_entries (a_layout (small_avol 3 1 full_but_last)) (a_img (small_avol 3 1 full_but_last)) = true) as Hv2
    by (vm_compute; reflexivity).
  assert (chosen (a_layout (small_avol 3 1 full_but_last)) (a_img (small_avol 3 1 full_but_last)) 3 0 = None) as Hc2
    by (vm_compute; reflexivity).
  split; [|split; [vm_compute; reflexivity|]].
  - destruct (stretch_chain_spec ram_disk (small_volume 3 5 l) (small_avol 3 5 l) 2
      (small_volume_represents _ _ _) (small_well_laid _ _ _) (valid_entries_table _ _ Hv)) as [H _];
      [cbn; lia|right; cbn; lia|]. refine (wp_mono _ _ _ _ H _).
    change (a_last (small_avol 3 5 l)) with 3. rewrite Hc. intros r v' (-> & _ & _ & a' & Hr & _ & _ & Hf & _).
    split; [reflexivity|]. rewrite (re_free _ _ _ Hr), Hf. reflexivity.
  - destruct (stretch_chain_spec ram_disk (small_volume 3 1 full_but_last) (small_avol 3 1 full_but_last) 0
      (small_volume_represents _ _ _) (small_well_laid _ _ _) (valid_entries_table _ _ Hv2)) as [H _];
      [cbn; lia|by left|]. refine (wp_mono _ _ _ _ H _).
    change (a_last (small_avol 3 1 full_but_last)) with 3. rewrite Hc2. intros r v' [-> _]. reflexivity.
Defined.
