(* ===== verification/FatVolumeProps.v ===== *)
(** * FAT32: properties of the volume and of the directory cursor

    The operations on the table against their image, reading back what was
    written, the error code of [stretch_chain], and the order in which the cursor
    of a directory visits the entries of a cluster. *)
From stdpp Require Import base list sets gmap.
From Stdlib Require Import ZArith Lia.
From S2P Require Import Prelude FatFormat FatVolume FatDir FatBytes FatVolumeSpec FatChain.

#[local] Open Scope Z_scope.

Section volume.
Context {D : Type} (o : DiskOps D) `{!BlockDevice o}.

Abbreviation table a := (entry (l_fat (a_layout a)).1 (a_img a)) (only parsing).

(** C18: The operations of a volume act on the image it represents, whichever
    sector is buffered and whatever is still to be written: [update_buf] buffers
    a sector of the image and changes nothing, [get_fat] answers the entry of the
    image, [put_fat] writes it to both copies of the table, and after [sync_fs]
    the disk itself is the image, with the counters in the FsInfo sector. *)
Theorem volume_refines_image v a :
  represents o v a → well_laid o (a_layout a) →
  (∀ s, 0 < s < capacity →
    succeeds (update_buf s) v (λ _ v', represents o v' a ∧ sect (fat v') = s ∧ buf (fat v') = a_img a s)) ∧
  (∀ c, 0 ≤ c < l_cnt (a_layout a) →
    wp (get_fat c) v (λ r v', represents o v' a ∧ r = read_entry (a_layout a) (a_img a) c)) ∧
  (∀ c val, 0 ≤ c < l_cnt (a_layout a) →
    succeeds (put_fat c val) v (λ _ v', represents o v' (with_img (put_table (a_layout a) c val (a_img a)) a))) ∧
  succeeds sync_fs v (λ _ v', represents o v' (synced a) ∧ ∀ t, 0 < t → sector (disk v') t = a_img (synced a) t).
Proof.
  intros Hr Hg. split; [intros s; by apply update_buf_ok|]. split; [intros c; by apply get_fat_ok|].
  split; [intros c val; by apply put_fat_ok|]. apply sync_fs_ok; [done|apply Hg].
Qed.

(** What get_fat answers for a value of 28 bits. *)
Definition answer (g : Layout) (val : Z) : Z + Z * Z :=
  match classify (l_cnt g) val with Some fl => inr (val, fl) | None => inl FAT_ERR_BROKEN end.

(** What [put_fat] writes, [get_fat] reads: the low 28 bits of the value for
    that cluster, and for every other cluster what it answered before.  Both
    copies of the table hold the value, the upper four bits of the entry are kept,
    and no sector outside the table changes. *)
Theorem table_round_trip v a c val :
  represents o v a → well_laid o (a_layout a) → 0 ≤ c < l_cnt (a_layout a) →
  succeeds (put_fat c val) v (λ _ v',
    (∀ d, 0 ≤ d < l_cnt (a_layout a) →
      wp (get_fat d) v' (λ r _, r = if d =? c then answer (a_layout a) (Z.land val 0x0fffffff)
                                    else read_entry (a_layout a) (a_img a) d)) ∧
    ∃ a', represents o v' a' ∧ a_layout a' = a_layout a ∧
      ((l_fat (a_layout a)).2 ≠ 0 → ∀ d, 0 ≤ d < l_cnt (a_layout a) →
        entry (l_fat (a_layout a)).2 (a_img a') d =
          if d =? c then Z.land val 0x0fffffff else entry (l_fat (a_layout a)).2 (a_img a) d) ∧
      ∀ t, ¬ in_table (a_layout a) t → a_img a' t = a_img a t).
Proof.
  intros Hr Hg Hc. pose proof (represents_sectors o v a Hr) as Hs.
  refine (su_mono _ _ _ _ (put_fat_ok o v a c val Hr Hg Hc) _). intros _ v' H'. split.
  - intros d Hd. refine (wp_mono _ _ _ _ (get_fat_ok o v' _ d H' Hg Hd) _). intros r _ [_ ->].
    unfold read_entry, answer. cbn [with_img a_layout a_img]. rewrite (table_put o) by done. by case_bool.
  - eexists. split; [exact H'|]. split; [done|]. split; cbn [with_img a_img].
    + intros H2 d Hd. by apply (mirror_put o).
    + intros t Ht. by apply (put_table_outside o).
Qed.

(** ** The search on a broken table *)
Lemma fault_bind {S A B} (m : E S A) (f : A → E S B) s e : m s = Fault e → (m ≫= f) s = Fault e.
Proof. intros H. unfold mbind, E_bind. by rewrite H. Qed.

Lemma fault_seq {S A B} (m : E S A) (f : A → E S B) s (P : A → S → Prop) e :
  succeeds m s P → (∀ a s', P a s' → f a s' = Fault e) → (m ≫= f) s = Fault e.
Proof. intros (r & s' & Em & x & -> & Hx) Hf. unfold mbind, E_bind. rewrite Em. by apply Hf. Qed.

(** The first candidate has an entry of no table. *)
Definition bad_candidate (a : AVol) : Prop :=
  let next := next_clust (a_last a) (l_cnt (a_layout a)) in
  next ≠ a_last a ∧ classify (l_cnt (a_layout a)) (table a next) = None.

Lemma scan_bad fuel fl v a :
  represents o v a → well_laid o (a_layout a) → 2 ≤ a_last a < l_cnt (a_layout a) → bad_candidate a →
  match fl with
  | Some e => wp (scan_loop (S fuel) fl (a_last a)) v (λ r _, r = inl e)
  | None => scan_loop (S fuel) fl (a_last a) v = Fault Uninitialised
  end.
Proof.
  intros Hr Hg Hl [Hne Hbad]. pose proof (wl_cnt o _ Hg) as Hcnt.
  pose proof (next_clust_range (a_last a) (l_cnt (a_layout a)) ltac:(lia) Hl ltac:(lia)) as Hn.
  pose proof (get_fat_ok o v a _ Hr Hg (conj (Z.le_trans 0 2 _ ltac:(done) (proj1 Hn)) (proj2 Hn))) as Hget.
  unfold read_entry in Hget. rewrite Hbad in Hget.
  assert (clust_cnt (fat v) = l_cnt (a_layout a)) as Ec by (by rewrite <- (re_layout o v a Hr)).
  assert (succeeds (catch (get_fat (next_clust (a_last a) (l_cnt (a_layout a))))) v (λ r _, ∃ e, r = inl e)) as Hcatch
    by (apply wp_catch; refine (wp_mono _ _ _ _ Hget _); intros r v' [_ ->]; eauto).
  destruct fl as [e|]; cbn [scan_loop].
  - wp_prim. rewrite Ec, (re_last o v a Hr), (proj2 (Z.eqb_neq _ _) Hne).
    eapply wp_seq; [exact Hcatch|]. intros r v' [e' ->]. by apply wp_throw.
  - eapply (fault_seq _ _ _ (λ f v', f = fat v ∧ v' = v)); [by apply su_vol|]. intros f v' [-> ->].
    rewrite Ec, (re_last o v a Hr), (proj2 (Z.eqb_neq _ _) Hne).
    eapply fault_seq; [exact Hcatch|]. by intros r v' [e' ->].
Qed.

(** When the search for a free cluster meets an entry that no table may
    have, [stretch_chain] does not return FAT_ERR_BROKEN: it returns the flags
    of the entry read before, a positive number that is no error code, and when
    it was called to start a chain there is no such entry and what it returns is
    undefined. *)
Theorem stretch_chain_error v a prev fl :
  represents o v a → well_laid o (a_layout a) → 2 ≤ a_last a < l_cnt (a_layout a) → 2 ≤ prev < l_cnt (a_layout a) →
  bad_candidate a →
  classify (l_cnt (a_layout a)) (table a (next_clust prev (l_cnt (a_layout a)))) = Some fl →
  table a (next_clust prev (l_cnt (a_layout a))) ≠ 0 →
  wp (stretch_chain prev) v (λ r _, r = inl fl ∧ 0 < fl) ∧ create_chain v = Fault Uninitialised.
Proof.
  intros Hr Hg Hl Hp Hbad Hcl Hne. pose proof (wl_cnt o _ Hg) as Hcnt.
  pose proof (next_clust_range prev (l_cnt (a_layout a)) ltac:(lia) Hp ltac:(lia)) as Hn.
  assert (0 < fl) as Hpos by (apply classify_cases in Hcl as [[-> ?]|[[-> ?]|[[-> ?]|[-> ?]]]]; done).
  pose proof (set_info_ok o v a Hr) as Hr1. split.
  - unfold stretch_chain, set_flag. wp_prim. apply wp_bind. unfold find_free.
    eapply wp_seq; [by apply (chain_fuel_ok o)|]. intros n v1 [-> ->]. wp_prim.
    rewrite (proj2 (Z.eqb_neq prev 0)) by lia. cbn [negb].
    rewrite (f_equal l_cnt (re_layout o _ _ Hr1) : clust_cnt _ = l_cnt (a_layout a)). apply wp_bind.
    refine (wp_mono _ _ _ _ (get_fat_ok o _ _ (next_clust prev (l_cnt (a_layout a))) Hr1 Hg ltac:(cbn; lia)) _).
    intros r v1 [H1 ->]. unfold read_entry. cbn [set_info a_layout a_img]. rewrite Hcl. cbv beta iota.
    rewrite (free_iff _ _ _ Hcl), (proj2 (Z.eqb_neq _ _) Hne). wp_prim. rewrite (re_last o _ _ H1). cbn [set_info a_last].
    refine (wp_mono _ _ _ _ (scan_bad _ (Some fl) v1 _ H1 Hg Hl Hbad) _). by intros r _ ->.
  - unfold create_chain, stretch_chain, set_flag.
    eapply (fault_seq _ _ _ (λ _ v', represents o v' (set_info a))); [by apply su_upd|]. intros _ v1 H1. apply fault_bind.
    unfold find_free. eapply fault_seq; [by apply (chain_fuel_ok o)|]. intros n v2 [-> ->].
    eapply (fault_seq _ _ _ (λ f v', f = fat v1 ∧ v' = v1)); [by apply su_vol|]. intros f v' [-> ->].
    cbn [Z.eqb negb]. rewrite (re_last o _ _ H1). exact (scan_bad _ None v1 _ H1 Hg Hl Hbad).
Qed.
End volume.

Lemma volume_refines_image_witness :
  wp (get_fat 2) (small_volume 2 5 two_clusters) (λ r _, r = inr (3, CLUST_USED)).
Proof.
  destruct (volume_refines_image ram_disk (small_volume 2 5 two_clusters) (small_avol 2 5 two_clusters)
    (small_volume_represents _ _ _) (small_well_laid _ _ _)) as (_ & H & _).
  refine (wp_mono _ _ _ _ (H 2 _) _); [cbn; lia|]. intros r _ [_ ->]. vm_compute. reflexivity.
Defined.

Lemma table_round_trip_witness :
  succeeds (put_fat 5 0xf0000007) (small_volume 2 5 two_clusters)
    (λ _ v', wp (get_fat 5) v' (λ r _, r = inr (7, CLUST_USED)) ∧ wp (get_fat 3) v' (λ r _, r = inr (0x0fffffff, 6))).
Proof.
  refine (su_mono _ _ _ _ (table_round_trip ram_disk (small_volume 2 5 two_clusters) (small_avol 2 5 two_clusters) 5 0xf0000007
    (small_volume_represents _ _ _) (small_well_laid _ _ _) _) _); [cbn; lia|]. intros _ v' [H _].
  split; (refine (wp_mono _ _ _ _ (H _ _) _); [cbn; lia|]; intros r _ ->; vm_compute; reflexivity).
Defined.

(** Clusters 2 and 3 in use, an entry that is no link at cluster 4. *)
Definition broken_table : list Z := [0x0ffffff8; 0x0fffffff; 0x0fffffff; 0x0fffffff; 1].

Lemma stretch_chain_error_witness :
  wp (stretch_chain 2) (small_volume 3 5 broken_table) (λ r _, r = inl 6) ∧
  create_chain (small_volume 3 5 broken_table) = Fault Uninitialised.
Proof.
  destruct (stretch_chain_error ram_disk (small_volume 3 5 broken_table) (small_avol 3 5 broken_table) 2 6
    (small_volume_represents _ _ _) (small_well_laid _ _ _)) as [H1 H2];
    [cbn; lia|cbn; lia|split; [done|vm_compute; reflexivity]|vm_compute; reflexivity|vm_compute; discriminate|].
  split; [|exact H2]. refine (wp_mono _ _ _ _ H1 _). intros r _ [-> _]. reflexivity.
Defined.

(** ** The cursor of a directory *)
Section cursor.
Context {D : Type} (o : DiskOps D) `{!BlockDevice o}.

Lemma wp_on_vol {A} (m : FS D A) (d : Dir) v Q : wp m v (λ r v', Q r (d, v')) → wp (on_vol m) (d, v) Q.
Proof. intros (r & v' & Em & H). exists r, (d, v'). unfold on_vol, zoom. cbn. by rewrite Em. Qed.

Lemma wp_dir {A} (f : Dir → E (Dir * Vol D) A) d v Q : wp (f d) (d, v) Q → wp (get_dir ≫= f) (d, v) Q.
Proof. done. Qed.

Lemma wp_place {A} (g : Dir → Dir) (f : unit → E (Dir * Vol D) A) d v Q :
  wp (f tt) (g d, v) Q → wp (upd_dir g ≫= f) (d, v) Q.
Proof. done. Qed.

Lemma wp_get_vol {A} (f : Fat D → E (Dir * Vol D) A) d v Q :
  wp (f (fat v)) (d, v) Q → wp (on_vol (vol id) ≫= f) (d, v) Q.
Proof. done. Qed.

(** Clusters of [2 ^ l_shift] sectors that start on a multiple of their size, and
    whose sectors have numbers of 32 bits. *)
Record aligned (g : Layout) : Prop := mk_aligned {
  al_shift : 0 ≤ l_shift g ≤ 7;
  al_msk : l_msk g = 2 ^ l_shift g - 1;
  al_data : 0 < l_data g ∧ (2 ^ l_shift g | l_data g);
  al_end : l_data g + l_cnt g * 2 ^ l_shift g < 2 ^ 32
}.

(** The cursor at entry [k] of cluster [c]. *)
Definition at_entry (g : Layout) (c k : Z) (d : Dir) : Dir :=
  with_place c (l_data g + (c - 2) * 2 ^ l_shift g + k / 16) (32 * (k mod 16)) d.

Definition entries_per_cluster (g : Layout) : Z := 16 * 2 ^ l_shift g.

Lemma clust_to_sect_value (f : Fat D) g c :
  layout f = g → aligned g → 2 ≤ c < l_cnt g → clust_to_sect f c = l_data g + (c - 2) * 2 ^ l_shift g.
Proof.
  intros <- [Hs Hm Hd He] Hc. unfold clust_to_sect. cbn in *. pose proof (Z.pow_pos_nonneg 2 (clust_shift f) ltac:(lia) ltac:(lia)).
  rewrite (u32_id (c - 2)) by nia. rewrite Z.shiftl_mul_pow2 by lia. rewrite u32_id by nia. lia.
Qed.

Lemma at_entry_step g c k d :
  k mod 16 < 15 → 0 ≤ k → at_entry g c (k + 1) d = with_place c (l_data g + (c - 2) * 2 ^ l_shift g + k / 16) (32 * (k mod 16) + 32) d.
Proof. intros Hk H0. unfold at_entry. f_equal; Z.to_euclidean_division_equations; lia. Qed.

(** The sector after entry [k] is in the same cluster when its number is not a
    multiple of the cluster size. *)
Lemma cluster_end g c k :
  aligned g → k mod 16 = 15 → 0 ≤ k < entries_per_cluster g →
  (Z.land (l_data g + (c - 2) * 2 ^ l_shift g + k / 16 + 1) (l_msk g) =? 0) = negb (k + 1 <? entries_per_cluster g).
Proof.
  intros [Hs Hm [Hd [q Hq]] He] Hk H. unfold entries_per_cluster in *. rewrite Hm.
  set (p := 2 ^ l_shift g) in *. assert (0 < p) as Hp by (apply Z.pow_pos_nonneg; lia).
  replace (p - 1) with (Z.ones (l_shift g)) by (rewrite Z.ones_equiv; unfold p; lia).
  rewrite Z.land_ones by lia. fold p. rewrite Hq.
  replace (q * p + (c - 2) * p + k / 16 + 1) with (k / 16 + 1 + (q + (c - 2)) * p) by lia.
  rewrite Z.mod_add by lia. destruct (Z.ltb_spec (k + 1) (16 * p)) as [Hlt|Hge]; cbn [negb].
  - apply Z.eqb_neq. rewrite Z.mod_small; Z.to_euclidean_division_equations; lia.
  - apply Z.eqb_eq. replace (k / 16 + 1) with p by (Z.to_euclidean_division_equations; lia). by apply Z.mod_same; lia.
Qed.

(** Where clusters are aligned to their size, [dir_next] visits the entries
    of a cluster one after the other without touching the volume, and from the
    last entry follows the table: to the first entry of the next cluster of the
    chain, to FAT_ERR_EOF at its end, to FAT_ERR_BROKEN on a free, bad or
    impossible one. *)
Theorem dir_next_order v a d c k :
  represents o v a → well_laid o (a_layout a) → aligned (a_layout a) →
  2 ≤ c < l_cnt (a_layout a) → 0 ≤ k < entries_per_cluster (a_layout a) →
  wp dir_next (at_entry (a_layout a) c k d, v) (λ r s',
    if k + 1 <? entries_per_cluster (a_layout a)
    then r = inr tt ∧ s' = (at_entry (a_layout a) c (k + 1) d, v)
    else represents o s'.2 a ∧
      match read_entry (a_layout a) (a_img a) c with
      | inl e => r = inl e
      | inr (next, fl) =>
        if has fl (Z.lor CLUST_BAD CLUST_FREE) then r = inl FAT_ERR_BROKEN
        else if has fl CLUST_LAST then r = inl FAT_ERR_EOF
        else r = inr tt ∧ s'.1 = at_entry (a_layout a) next 0 d
      end).
Proof.
  intros Hr Hg Ha Hc Hk. unfold entries_per_cluster in Hk. pose proof Ha as [Hs Hm Hd He].
  pose proof (Z.pow_pos_nonneg 2 (l_shift (a_layout a)) ltac:(lia) ltac:(lia)) as Hp.
  pose proof (Z.mod_pos_bound k 16 ltac:(lia)) as Hk16.
  unfold dir_next. apply (wp_dir _ _ _ _). rewrite u16_id by (cbn; unfold SFN_SIZE; lia).
  cbn [at_entry with_place d_idx d_sect d_clust d_fat d_sclust]. unfold SFN_SIZE. apply wp_place.
  destruct (Z.ltb_spec (32 * (k mod 16) + 32) 512) as [Hi|Hi].
  - assert (k + 1 < 16 * 2 ^ l_shift (a_layout a)) as Hlt.
    { destruct (decide (k + 1 < 16 * 2 ^ l_shift (a_layout a))); [done|]. exfalso.
      assert (k = 15 + (2 ^ l_shift (a_layout a) - 1) * 16) as E by lia. rewrite E, Z.mod_add in Hi by lia.
      change (15 mod 16) with 15 in Hi. lia. }
    unfold entries_per_cluster. rewrite (proj2 (Z.ltb_lt _ _)) by done. apply wp_ret. split; [done|].
    by rewrite at_entry_step by lia.
  - assert (k mod 16 = 15) as Hk15 by lia.
    assert (∀ x, l_data (a_layout a) + (c - 2) * 2 ^ l_shift (a_layout a) + k / 16 + 1 = x → 0 ≤ x < 2 ^ 32) as Hx.
    { intros x <-. assert (k / 16 < 2 ^ l_shift (a_layout a)) by (Z.to_euclidean_division_equations; lia).
      assert (0 ≤ k / 16) by (apply Z.div_pos; lia). nia. }
    apply wp_place, wp_get_vol. cbn [at_entry with_place d_clust d_sect d_idx d_fat d_sclust].
    rewrite u32_id by (by apply Hx). rewrite (f_equal l_msk (re_layout o v a Hr) : clust_msk (fat v) = l_msk (a_layout a)).
    rewrite cluster_end by done. rewrite negb_involutive. unfold entries_per_cluster.
    destruct (Z.ltb_spec (k + 1) (16 * 2 ^ l_shift (a_layout a))) as [Hlt|Hge].
    + apply wp_ret. split; [done|]. unfold at_entry.
      assert ((k + 1) / 16 = k / 16 + 1) as -> by (clear - Hk15; Z.to_euclidean_division_equations; lia).
      assert ((k + 1) mod 16 = 0) as -> by (clear - Hk15; Z.to_euclidean_division_equations; lia).
      by rewrite Z.add_assoc.
    + apply wp_bind, wp_on_vol. refine (wp_mono _ _ _ _ (get_fat_ok o v a c Hr Hg ltac:(lia)) _). intros r v1 [H1 ->].
      destruct (read_entry (a_layout a) (a_img a) c) as [e|[next fl]] eqn:Er; [done|].
      destruct (has fl (Z.lor CLUST_BAD CLUST_FREE)) eqn:Ebf; [by apply wp_throw|].
      destruct (has fl CLUST_LAST) eqn:El; [by apply wp_throw|].
      assert (2 ≤ next < l_cnt (a_layout a)) as Hn.
      { unfold read_entry in Er. destruct (classify _ _) as [fl'|] eqn:Ecl; [|done]. injection Er as <- ->.
        apply classify_cases in Ecl as [[-> ?]|[[-> ?]|[[-> ?]|[-> ?]]]]; done. }
      unfold dir_at_clust. apply wp_get_vol. eexists _, _. split; [reflexivity|]. split; [done|]. split; [done|].
      rewrite (clust_to_sect_value _ _ _ (re_layout o v1 a H1) Ha Hn). unfold at_entry.
      change (32 * (0 mod 16)) with 0. change (0 / 16) with 0. by rewrite Z.add_0_r.
Qed.
End cursor.

(** The last entry of cluster 2, whose chain goes on at cluster 3. *)
Lemma dir_next_order_witness :
  let d := mk_Dir (Some 1) 2 2 11 480 in
  wp dir_next (d, small_volume 2 5 two_clusters) (λ r s', r = inr tt ∧ s'.1 = mk_Dir (Some 1) 2 3 12 0).
Proof.
  assert (aligned (a_layout (small_avol 2 5 two_clusters))) as Ha.
  { split; cbn; [lia|reflexivity|split; [lia|by exists 2]|lia]. }
  refine (wp_mono _ _ _ _ (dir_next_order ram_disk (small_volume 2 5 two_clusters) (small_avol 2 5 two_clusters)
    (mk_Dir (Some 1) 2 0 0 0) 2 63 (small_volume_represents _ _ _) (small_well_laid _ _ _) Ha _ _) _); [cbn; lia|unfold entries_per_cluster; cbn; lia|].
  assert (read_entry (a_layout (small_avol 2 5 two_clusters)) (a_img (small_avol 2 5 two_clusters)) 2 = inr (3, 2)) as Er
    by (vm_compute; reflexivity).
  rewrite Er. intros r s' [_ H]. exact H.
Defined.

(** On a volume whose data starts at sector 9, in clusters of four sectors, the
    cursor leaves cluster 2 after three of them: the cluster ends after sector 12,
    and [dir_next] takes the multiple of four for the end. *)
Example dir_next_unaligned :
  let f := small_fat 2 5 in
  let v := mk_Vol (mk_Fat ram_disk 3 12 1 (2, 4) 9 2 2 5 0 zero_sector 0 2 3 (replicate 32 0)) (table_sectors two_clusters) zero_sector 0 0 in
  clust_to_sect (fat v) 2 = 9 ∧
  match dir_next (mk_Dir (Some 1) 2 2 11 480, v) with
  | Done (r, (d, _)) => r = inr tt ∧ d = mk_Dir (Some 1) 2 3 13 0
  | Fault _ => False
  end.
Proof. vm_compute. split; [reflexivity|split; reflexivity]. Qed.
