(* ===== verification/FatFileProps.v ===== *)
(** * FAT32: reading files

    The bytes of a file are those of the sectors of its chain of clusters; seeking
    puts the cursor of an open file on any of them and reading returns them. *)
From stdpp Require Import base list sets gmap.
From Stdlib Require Import ZArith Lia.
From S2P Require Import Prelude FatFormat FatVolume FatDir FatFile FatBytes FatVolumeSpec FatChain.

#[local] Open Scope Z_scope.

Section file.
Context {D : Type} (o : DiskOps D) `{!BlockDevice o}.

(** ** Code on an open file and its volume *)
Lemma wp_file_vol {A} (m : FS D A) (f : File) v Q : wp m v (λ r v', Q r (f, v')) → wp (file_vol m) (f, v) Q.
Proof. intros (r & v' & Em & H). exists r, (f, v'). unfold file_vol, zoom. cbn. by rewrite Em. Qed.

Lemma wp_get_file {A} (k : File → E (File * Vol D) A) f v Q : wp (k f) (f, v) Q → wp (get_file ≫= k) (f, v) Q.
Proof. done. Qed.

Lemma wp_upd_file {A} (g : File → File) (k : unit → E (File * Vol D) A) f v Q :
  wp (k tt) (g f, v) Q → wp (upd_file g ≫= k) (f, v) Q.
Proof. done. Qed.

Lemma wp_file_read {A B} (g : Fat D → A) (k : A → E (File * Vol D) B) f v Q :
  wp (k (g (fat v))) (f, v) Q → wp (file_vol (vol g) ≫= k) (f, v) Q.
Proof. done. Qed.

Lemma wp_value {S A B} (x : A) (k : A → E S B) s Q : wp (k x) s Q → wp (mret x ≫= k) s Q.
Proof. done. Qed.

Lemma wp_and {S A} (m : E S A) s (P Q : Z + A → S → Prop) : wp m s P → wp m s Q → wp m s (λ r s', P r s' ∧ Q r s').
Proof. intros (r & s' & Em & HP) (r2 & s2 & Em2 & HQ). rewrite Em in Em2. injection Em2 as <- <-. by exists r, s'. Qed.

(** ** Where the bytes of a file are *)

(** Clusters of [2 ^ l_shift] sectors, all on the device. *)
Record data_laid (g : Layout) : Prop := mk_data_laid {
  dl_shift : 0 ≤ l_shift g ≤ 7;
  dl_msk : l_msk g = 2 ^ l_shift g - 1;
  dl_data : 0 < l_data g;
  dl_end : l_data g + (l_cnt g - 2) * 2 ^ l_shift g ≤ capacity
}.

Definition cluster_size (g : Layout) : Z := 512 * 2 ^ l_shift g.

(** The sector with byte [off] of the file whose clusters are [l], and the byte. *)
Definition sector_of (g : Layout) (l : list Z) (off : Z) : Z :=
  l_data g + (default 0 (l !! Z.to_nat (off / cluster_size g)) - 2) * 2 ^ l_shift g + (off / 512) mod 2 ^ l_shift g.
Definition byte_of (g : Layout) (w : image) (l : list Z) (off : Z) : Z := get8 (w (sector_of g l off)) (off mod 512).

(** What the clusters of the file can hold. *)
Definition room (g : Layout) (l : list Z) : Z := Z.of_nat (length l) * cluster_size g.

(** The open file [f] has the clusters [l] and nothing to write back: its buffer is
    the sector its offset is in. *)
Record positioned (f : File) (a : AVol) (l : list Z) : Prop := mk_positioned {
  po_fat : f_fat f ≠ None;
  po_chain : chain (a_layout a) (a_img a) (f_sclust f) l;
  po_two : ∀ c, c ∈ l → 2 ≤ c;
  po_off : 0 ≤ f_offset f < room (a_layout a) l;
  po_clust : l !! Z.to_nat (f_offset f / cluster_size (a_layout a)) = Some (f_clust f);
  po_sect : f_sect f = sector_of (a_layout a) l (f_offset f);
  po_buf : f_buf f = a_img a (f_sect f);
  po_clean : has (f_flags f) FAT_FILE_DIRTY = false
}.

(** The buffer of the volume holds no unwritten sector of the file. *)
Definition apart (v : Vol D) (g : Layout) (l : list Z) : Prop :=
  dirty (flags (fat v)) = true → ∀ off, 0 ≤ off < room g l → sect (fat v) ≠ sector_of g l off.

Lemma cluster_size_pos g : data_laid g → 0 < cluster_size g.
Proof. intros Hg. unfold cluster_size. pose proof (Z.pow_pos_nonneg 2 (l_shift g) ltac:(lia) (proj1 (dl_shift g Hg))). lia. Qed.

Lemma cluster_index g l off :
  data_laid g → 0 ≤ off < room g l → ∃ c, l !! Z.to_nat (off / cluster_size g) = Some c.
Proof.
  intros Hg Hoff. pose proof (cluster_size_pos g Hg) as Hp. unfold room in Hoff. apply lookup_lt_is_Some.
  assert (0 ≤ off / cluster_size g) by (apply Z.div_pos; lia).
  assert (off / cluster_size g < Z.of_nat (length l)) by (apply Z.div_lt_upper_bound; lia). lia.
Qed.

Lemma sector_of_range g w c0 l off :
  data_laid g → chain g w c0 l → (∀ c, c ∈ l → 2 ≤ c) → 0 ≤ off < room g l → 0 < sector_of g l off < capacity.
Proof.
  intros Hg Hch H2 Hoff. destruct (cluster_index g l off Hg Hoff) as [c Hc]. unfold sector_of. rewrite Hc. cbn [from_option id].
  pose proof (list_elem_of_lookup_2 _ _ _ Hc) as Hin. pose proof (chain_range _ _ _ _ Hch c Hin) as Hr. specialize (H2 c Hin).
  pose proof Hg as [Hs Hm Hd He]. pose proof (Z.pow_pos_nonneg 2 (l_shift g) ltac:(lia) ltac:(lia)) as Hp.
  pose proof (Z.mod_pos_bound (off / 512) (2 ^ l_shift g) Hp). nia.
Qed.

(** ** The chain and the list of its clusters *)
Lemma chain_head g w c l : chain g w c l → l !! 0%nat = Some c.
Proof. by destruct 1. Qed.

Lemma chain_link g w c l : chain g w c l → ∀ i x y, l !! i = Some x → l !! S i = Some y →
  entry (l_fat g).1 w x = y ∧ 2 ≤ y < l_cnt g.
Proof.
  induction 1 as [c Hc Hl|c l Hc Hn Hni Hch IH]; intros i x y Hx Hy; [by destruct i|].
  destruct i as [|i]; [|by apply (IH i)]. injection Hx as <-. change (l !! 0%nat = Some y) in Hy. rewrite (chain_head _ _ _ _ Hch) in Hy. by injection Hy as <-.
Qed.

(** ** Reading the table leaves the buffer clean or untouched *)
Lemma update_buf_calm v a s :
  represents o v a → 0 < s < capacity → succeeds (update_buf s) v (λ _ v', v' = v ∨ dirty (flags (fat v')) = false).
Proof.
  intros Hr Hs. unfold update_buf. wp_prim. destruct (Z.eqb_spec (sect (fat v)) s) as [E|Hne]; cbn [negb].
  { apply su_ret. by left. }
  eapply wp_seq; [by apply (sync_buf_ok o v a)|]. intros _ v1 (Hr1 & Hc & _). wp_prim.
  pose proof (read_law (buf (fat v1)) (disk v1) s) as Hrd. destruct (Hrd (co_ok o v1 (re_co o v1 a Hr1)) ltac:(apply (co_buf o v1 (re_co o v1 a Hr1))) ltac:(lia)) as (d' & Er & _ & Ed).
  eapply wp_seq; [apply (su_done _ _ (λ p v', p = (true, sector (disk v1) s) ∧ v' = with_disk d' v1) (true, sector (disk v1) s)
    (with_disk d' v1)); [|done]|].
  { unfold ops_read. by rewrite (co_ops o v1 (re_co o v1 a Hr1)), Er. }
  intros _ _ [-> ->]. cbn [fst snd]. wp_prim. apply su_upd. by right.
Qed.

Lemma get_fat_calm v a c :
  represents o v a → well_laid o (a_layout a) → 0 ≤ c < l_cnt (a_layout a) →
  wp (get_fat c) v (λ _ v', v' = v ∨ dirty (flags (fat v')) = false).
Proof.
  intros Hr Hg Hc. pose proof (wl_first o _ Hg) as [Hp Hq].
  destruct (table_sector o _ _ c Hc Hp Hq (wl_cap o _ Hg)) as [Eu Hs]. unfold get_fat. wp_prim.
  rewrite (f_equal l_fat (re_layout o v a Hr) : fat_sect (fat v) = l_fat (a_layout a)), Eu.
  eapply wp_seq; [apply (update_buf_calm v a); [done|lia]|]. intros [] v1 H1. wp_prim.
  repeat case_bool; (eapply wp_done; [reflexivity|exact H1]).
Qed.

Lemma get_fat_file v a g l c :
  represents o v a → well_laid o (a_layout a) → 0 ≤ c < l_cnt (a_layout a) → apart v g l →
  wp (get_fat c) v (λ r v', r = read_entry (a_layout a) (a_img a) c ∧ represents o v' a ∧ apart v' g l).
Proof.
  intros Hr Hg Hc Hap. refine (wp_mono _ _ _ _ (wp_and _ _ _ _ (get_fat_ok o v a c Hr Hg Hc) (get_fat_calm v a c Hr Hg Hc)) _).
  intros r v' [[H1 ->] H2]. split; [done|]. split; [done|]. destruct H2 as [->|H2]; [done|]. intros H. congruence.
Qed.

(** A link between clusters of the volume, as get_fat answers it. *)
Lemma read_link g w c next :
  well_laid o g → entry (l_fat g).1 w c = next → 2 ≤ next < l_cnt g → read_entry g w c = inr (next, CLUST_USED).
Proof.
  intros Hg <- Hn. pose proof (wl_cnt o g Hg). unfold read_entry, classify.
  rewrite !(proj2 (Z.eqb_neq _ _)), (proj2 (Z.leb_gt _ _)) by lia.
  by rewrite (proj2 (Z.leb_le _ _)), (proj2 (Z.ltb_lt _ _)) by lia.
Qed.

(** ** Seeking *)
Lemma seek_loop_keeps (K : Vol D → Prop) a l n :
  (∀ v c, represents o v a → 0 ≤ c < l_cnt (a_layout a) → K v →
    wp (get_fat c) v (λ r v', r = read_entry (a_layout a) (a_img a) c ∧ represents o v' a ∧ K v')) →
  ∀ f v i, represents o v a → well_laid o (a_layout a) → K v →
  chain (a_layout a) (a_img a) (f_sclust f) l → l !! i = Some (f_clust f) → (i + n < length l)%nat →
  succeeds (seek_loop n) (f, v) (λ _ s', ∃ c, l !! (i + n)%nat = Some c ∧ s'.1 = with_f_clust c f ∧ represents o s'.2 a ∧ K s'.2).
Proof.
  intros HK. induction n as [|n IH]; intros f v i Hr Hg Hap Hch Hi Hn.
  - apply su_ret. exists (f_clust f). rewrite Nat.add_0_r. split; [done|]. split; [by destruct f|done].
  - cbn [seek_loop]. apply wp_get_file, wp_bind, wp_file_vol.
    destruct (lookup_lt_is_Some_2 l (S i)) as [next Hnext]; [lia|].
    destruct (chain_link _ _ _ _ Hch i _ _ Hi Hnext) as [He Hrange].
    pose proof (chain_range _ _ _ _ Hch _ (list_elem_of_lookup_2 _ _ _ Hi)) as Hc.
    refine (wp_mono _ _ _ _ (HK v _ Hr Hc Hap) _). intros r v1 (-> & H1 & Ha1).
    rewrite (read_link _ _ _ next Hg He Hrange). change (has CLUST_USED (Z.lor CLUST_BAD CLUST_FREE)) with false.
    change (has CLUST_USED CLUST_LAST) with false. cbv iota. apply wp_upd_file.
    refine (su_mono _ _ _ _ (IH (with_f_clust next f) v1 (S i) H1 Hg Ha1 Hch Hnext ltac:(lia)) _).
    intros _ s' (c & E & Es & Hr2 & Ha2). exists c. rewrite Nat.add_succ_comm in E. split; [done|]. split; [by destruct f|done].
Qed.

Lemma seek_loop_ok a l n f v i :
  represents o v a → well_laid o (a_layout a) → apart v (a_layout a) l →
  chain (a_layout a) (a_img a) (f_sclust f) l → l !! i = Some (f_clust f) → (i + n < length l)%nat →
  succeeds (seek_loop n) (f, v) (λ _ s', ∃ c, l !! (i + n)%nat = Some c ∧ s'.1 = with_f_clust c f ∧
    represents o s'.2 a ∧ apart s'.2 (a_layout a) l).
Proof.
  intros Hr Hg. apply (seek_loop_keeps (λ v, apart v (a_layout a) l)); [|done|done].
  intros v1 c H1 Hc Hk. by apply get_fat_file.
Qed.

Lemma disk_sector v a s :
  represents o v a → 0 < s → (dirty (flags (fat v)) = true → sect (fat v) ≠ s) → sector (disk v) s = a_img a s.
Proof.
  intros Hr Hs Hd. rewrite <- (re_view o v a Hr s Hs). destruct (dirty (flags (fat v))) eqn:E.
  - unfold view. by rewrite (proj2 (Z.eqb_neq s _)) by (specialize (Hd eq_refl); congruence).
  - by apply (clean_view o); [apply Hr|..].
Qed.

(** A sector read past the buffer of the volume. *)
Lemma read_direct v a s b :
  represents o v a → 0 < s < capacity → (dirty (flags (fat v)) = true → sect (fat v) ≠ s) → length b = 512%nat →
  succeeds (ops_read b s) v (λ r v', r = (true, a_img a s) ∧ represents o v' a ∧ fat v' = fat v).
Proof.
  intros Hr Hs Hne Hb. pose proof (disk_sector v a s Hr ltac:(lia) Hne) as Esec.
  pose proof (read_law b (disk v) s) as Hrd. destruct (Hrd (co_ok o v (re_co o v a Hr)) Hb ltac:(lia)) as (d' & Er & Hok & Ed).
  eapply su_done; [unfold ops_read; by rewrite (co_ops o v (re_co o v a Hr)), Er|].
  split; [by rewrite Esec|]. split; [|done].
  destruct Hr as [[? ? ? Hco ?] ? ? ? ? Hv]. split; try done.
  - split; try done. cbn. intros ? ?. rewrite Ed. by apply Hco.
  - intros t Ht. rewrite <- Hv by done. unfold view. cbn. by rewrite Ed.
Qed.

Lemma cluster_sector (t : Fat D) g c :
  layout t = g → data_laid g → capacity ≤ 2 ^ 32 → 2 ≤ c < l_cnt g → clust_to_sect t c = l_data g + (c - 2) * 2 ^ l_shift g.
Proof.
  intros <- [Hs Hm Hd He] Hcap Hc. unfold clust_to_sect. cbn in *.
  pose proof (Z.pow_pos_nonneg 2 (clust_shift t) ltac:(lia) ltac:(lia)).
  rewrite (u32_id (c - 2)) by nia. rewrite Z.shiftl_mul_pow2 by lia. rewrite u32_id by nia. lia.
Qed.

(** The sector the seek goes to is that of the byte. *)
Lemma target_sector v a l c c0 T :
  represents o v a → well_laid o (a_layout a) → data_laid (a_layout a) →
  chain (a_layout a) (a_img a) c0 l → (∀ c, c ∈ l → 2 ≤ c) → 0 ≤ T < room (a_layout a) l →
  l !! Z.to_nat (T / cluster_size (a_layout a)) = Some c →
  u32 (clust_to_sect (fat v) c + Z.land (T / 512) (clust_msk (fat v))) = sector_of (a_layout a) l T.
Proof.
  intros Hr Hg Hd Hch H2 HT Hl. pose proof (list_elem_of_lookup_2 _ _ _ Hl) as Hin.
  rewrite (cluster_sector _ _ c (re_layout o v a Hr) Hd (wl_cap o _ Hg)); [|split; [by apply H2|apply (chain_range _ _ _ _ Hch c Hin)]].
  rewrite (f_equal l_msk (re_layout o v a Hr) : clust_msk (fat v) = l_msk (a_layout a)).
  rewrite (dl_msk _ Hd). pose proof (dl_shift _ Hd). replace (2 ^ l_shift (a_layout a) - 1) with (Z.ones (l_shift (a_layout a)))
    by (rewrite Z.ones_equiv; lia). rewrite Z.land_ones by lia.
  pose proof (sector_of_range _ _ _ _ T Hd Hch H2 HT) as Hs. unfold sector_of in *. rewrite Hl in *. cbn [from_option id] in *.
  apply u32_id. pose proof (wl_cap o _ Hg). lia.
Qed.

(** The last part of the seek: the sector of the new offset is read if it is another one. *)
Definition arrive (T ssect : Z) : E (File * Vol D) unit :=
  f ← get_file;
  v ← file_vol (vol id);
  upd_file (with_f_sect (u32 (clust_to_sect v (f_clust f) + Z.land (T / 512) (clust_msk v))));;
  upd_file (with_f_offset T);;
  f ← get_file;
  if negb (f_sect f =? ssect) then
    (if has (f_flags f) FAT_FILE_DIRTY then
       ok ← file_vol (ops_write (f_buf f) ssect);
       if (ok : bool) then upd_file (λ f, with_f_flags (Z.land (f_flags f) (Z.lnot FAT_FILE_DIRTY)) f) else throw FAT_ERR_IO
     else mret tt);;
    r ← file_vol (ops_read (f_buf f) (f_sect f));
    upd_file (with_f_buf r.2);;
    if (r.1 : bool) then mret tt else throw FAT_ERR_IO
  else mret tt.

Lemma arrive_ok f v a l c T ssect :
  represents o v a → well_laid o (a_layout a) → data_laid (a_layout a) → apart v (a_layout a) l →
  f_fat f ≠ None → chain (a_layout a) (a_img a) (f_sclust f) l → (∀ c, c ∈ l → 2 ≤ c) → has (f_flags f) FAT_FILE_DIRTY = false →
  0 ≤ T < room (a_layout a) l → l !! Z.to_nat (T / cluster_size (a_layout a)) = Some c → f_clust f = c →
  f_buf f = a_img a ssect → length (f_buf f) = 512%nat →
  succeeds (arrive T ssect) (f, v)
    (λ _ s', positioned s'.1 a l ∧ f_offset s'.1 = T ∧ f_size s'.1 = f_size f ∧ f_flags s'.1 = f_flags f ∧
      represents o s'.2 a ∧ apart s'.2 (a_layout a) l).
Proof.
  intros Hr Hg Hd Hap Hfat Hch H2 Hcl HT Hl Hc Hbuf Hlen.
  pose proof (target_sector v a l c _ T Hr Hg Hd Hch H2 HT Hl) as Es.
  pose proof (sector_of_range _ _ _ _ T Hd Hch H2 HT) as Hs. unfold arrive.
  apply wp_get_file, wp_file_read, wp_upd_file, wp_upd_file, wp_get_file. rewrite Hc. unfold id. rewrite Es.
  cbn [f_sect with_f_offset with_f_sect f_flags f_buf]. destruct (Z.eqb_spec (sector_of (a_layout a) l T) ssect) as [E|Hne]; cbn [negb].
  - apply su_ret. split; [|done]. split; try done; cbn; congruence.
  - rewrite Hcl. apply wp_value.
    apply wp_bind, wp_file_vol.
    assert (dirty (flags (fat v)) = true → sect (fat v) ≠ sector_of (a_layout a) l T) as Hne2 by (intros Hdirty; by apply Hap).
    refine (wp_mono _ _ _ _ (read_direct v a (sector_of (a_layout a) l T) (f_buf f) Hr Hs Hne2 Hlen) _).
    intros r v1 (x & -> & -> & H1 & Ef). cbn [fst snd]. apply wp_upd_file, su_ret.
    split; [|split; [done|split; [done|split; [done|split; [done|]]]]].
    + split; try done; cbn; by rewrite Hc.
    + unfold apart. cbn [snd]. by rewrite Ef.
Qed.

(** What seeking to [T] leaves. *)
Definition placed (f : File) (a : AVol) (l : list Z) (T : Z) (s' : File * Vol D) : Prop :=
  positioned s'.1 a l ∧ f_offset s'.1 = T ∧ f_size s'.1 = f_size f ∧ f_flags s'.1 = f_flags f ∧
  represents o s'.2 a ∧ apart s'.2 (a_layout a) l.

(** The number asked for is the offset itself, or relative to the current one. *)
Definition asks (f : File) (offset how T : Z) : Prop :=
  how = FAT_SEEK_START ∧ offset = T ∨ how = FAT_SEEK_CURR ∧ f_offset f + offset = T.

Lemma travel_ok f0 f v a l T i :
  represents o v a → well_laid o (a_layout a) → data_laid (a_layout a) → apart v (a_layout a) l →
  f_fat f0 ≠ None → chain (a_layout a) (a_img a) (f_sclust f0) l → (∀ c, c ∈ l → 2 ≤ c) → has (f_flags f0) FAT_FILE_DIRTY = false →
  0 ≤ T < room (a_layout a) l → 0 ≤ i ≤ T / cluster_size (a_layout a) → l !! Z.to_nat i = Some (f_clust f0) →
  f_buf f0 = a_img a (f_sect f) → length (f_buf f0) = 512%nat → f_size f0 = f_size f → f_flags f0 = f_flags f →
  succeeds (seek_loop (Z.to_nat (T / cluster_size (a_layout a) - i));; arrive T (f_sect f)) (f0, v) (λ _ s', placed f a l T s').
Proof.
  intros Hr Hg Hd Hap Hfat Hch H2 Hclean HT Hi Hcl Hbuf Hlen Hsz Hfl. pose proof (cluster_size_pos _ Hd) as Hcs.
  assert (T / cluster_size (a_layout a) < Z.of_nat (length l)) as HlenT by
    (apply Z.div_lt_upper_bound; unfold room in *; lia).
  eapply wp_seq; [apply (seek_loop_ok a l _ f0 v _ Hr Hg Hap Hch Hcl); lia|].
  intros [] [f1 v1] (c & Hc & Ef & H1 & Ha1). cbn [fst snd] in Ef, H1, Ha1. subst f1.
  replace (_ + _)%nat with (Z.to_nat (T / cluster_size (a_layout a))) in Hc by lia.
  refine (su_mono _ _ _ _ (arrive_ok (with_f_clust c f0) v1 a l c T (f_sect f) H1 Hg Hd Ha1 Hfat Hch H2 Hclean HT Hc eq_refl Hbuf Hlen) _).
  cbn [f_size f_flags with_f_clust]. rewrite Hsz, Hfl. done.
Qed.

Lemma seek_ok f v a l offset how T :
  represents o v a → well_laid o (a_layout a) → data_laid (a_layout a) → apart v (a_layout a) l → positioned f a l →
  0 ≤ T < room (a_layout a) l → T < 2 ^ 32 → asks f offset how T →
  succeeds (fat_file_seek offset how) (f, v) (λ _ s', placed f a l T s').
Proof.
  intros Hr Hg Hd Hap Hpo HT HT2 Hask. pose proof Hpo as [Hfat Hch H2 Hoff Hcl Hse Hbuf Hclean].
  pose proof (cluster_size_pos _ Hd) as Hcs. pose proof (dl_shift _ Hd) as Hsh.
  assert (0 ≤ f_offset f / cluster_size (a_layout a)) as Hq by (apply Z.div_pos; lia).
  assert (0 ≤ T / cluster_size (a_layout a)) as HqT by (apply Z.div_pos; lia).
  assert (u32 (Z.shiftl 512 (clust_shift (fat v))) = cluster_size (a_layout a)) as Ecs.
  { rewrite (f_equal l_shift (re_layout o v a Hr) : clust_shift (fat v) = l_shift (a_layout a)).
    rewrite Z.shiftl_mul_pow2 by lia. apply u32_id. unfold cluster_size in *.
    assert (2 ^ l_shift (a_layout a) ≤ 2 ^ 7) by (apply Z.pow_le_mono_r; lia). lia. }
  assert (length (f_buf f) = 512%nat) as Hlen.
  { rewrite Hbuf, Hse. apply (image_sector o v a _ Hr). pose proof (sector_of_range _ _ _ _ _ Hd Hch H2 Hoff). lia. }
  unfold fat_file_seek. apply wp_get_file. destruct (f_fat f) as [p|] eqn:Ep; [|done].
  assert ((if how =? FAT_SEEK_START then 0 else if how =? FAT_SEEK_CURR then f_offset f
           else if how =? FAT_SEEK_END then f_size f else 0) + offset = T) as -> by (destruct Hask as [[-> <-]|[-> <-]]; done).
  rewrite (proj2 (Z.ltb_ge T 0)), (proj2 (Z.ltb_ge _ T)) by lia. cbn [orb]. apply wp_file_read. unfold id. rewrite Ecs.
  destruct (Z.ltb_spec (T / cluster_size (a_layout a)) (f_offset f / cluster_size (a_layout a))) as [Hb|Hb].
  - set (f0 := with_f_offset 0 (with_f_sect (clust_to_sect (fat v) (f_sclust f)) (with_f_clust (f_sclust f) f))).
    eapply (wp_seq _ _ _ (λ x s', x = 0 ∧ s' = (f0, v))); [by eapply su_done|]. intros _ _ [-> ->].
    refine (travel_ok f0 f v a l T 0 Hr Hg Hd Hap _ Hch H2 Hclean HT _ _ Hbuf Hlen eq_refl eq_refl); [by cbn; rewrite Ep|lia|].
    exact (chain_head _ _ _ _ Hch).
  - apply wp_value.
    refine (travel_ok f f v a l T _ Hr Hg Hd Hap _ Hch H2 Hclean HT _ Hcl Hbuf Hlen eq_refl eq_refl); [by rewrite Ep|lia].
Qed.

(** ** Reading *)

(** The bytes of the file from [off] on, [n] of them. *)
Definition file_bytes (g : Layout) (w : image) (l : list Z) (off : Z) (n : nat) : list Z :=
  (λ i, byte_of g w l i) <$> seqZ off (Z.of_nat n).
Definition contents (a : AVol) (l : list Z) (off : Z) (n : nat) : list Z := file_bytes (a_layout a) (a_img a) l off n.

Lemma get_bytes_lookup n b i k : (k < n)%nat → get_bytes n b i !! k = Some (get8 b (i + Z.of_nat k)).
Proof.
  revert i k. induction n as [|n IH]; intros i k Hk; [lia|]. destruct k as [|k]; cbn.
  - by rewrite Z.add_0_r.
  - rewrite IH by lia. do 2 f_equal. lia.
Qed.

Lemma get_bytes_length n b i : length (get_bytes n b i) = n.
Proof. revert i. induction n as [|n IH]; intros i; cbn; [done|]. by rewrite IH. Qed.

Lemma sector_of_shift g l off k :
  data_laid g → 0 ≤ k < 512 - off mod 512 → sector_of g l (off + k) = sector_of g l off ∧ (off + k) mod 512 = off mod 512 + k.
Proof.
  intros Hd Hk.
  assert ((off + k) / 512 = off / 512) as E1 by (Z.to_euclidean_division_equations; lia).
  assert ((off + k) mod 512 = off mod 512 + k) as E2 by (Z.to_euclidean_division_equations; lia).
  split; [|exact E2]. unfold sector_of. rewrite E1. do 5 f_equal. unfold cluster_size.
  pose proof (Z.pow_pos_nonneg 2 (l_shift g) ltac:(lia) (proj1 (dl_shift _ Hd))).
  rewrite <- !Z.div_div by lia. by rewrite E1.
Qed.

(** The bytes of one sector. *)
Lemma get_bytes_contents g w l off b n :
  data_laid g → b = w (sector_of g l off) → Z.of_nat n ≤ 512 - off mod 512 →
  get_bytes n b (off mod 512) = file_bytes g w l off n.
Proof.
  intros Hd -> Hn. apply list_eq. intros k. unfold file_bytes. destruct (decide (k < n)%nat) as [Hk|Hk].
  - rewrite get_bytes_lookup, list_lookup_fmap by done. rewrite lookup_seqZ_lt by lia. cbn. f_equal.
    unfold byte_of. destruct (sector_of_shift g l off (Z.of_nat k) Hd) as [E1 E2]; [lia|]. by rewrite E1, E2.
  - rewrite !(proj2 (lookup_ge_None _ _)); [done|rewrite length_fmap, length_seqZ; lia|rewrite get_bytes_length; lia].
Qed.

Lemma file_bytes_app g w l off m n : file_bytes g w l off m ++ file_bytes g w l (off + Z.of_nat m) n = file_bytes g w l off (m + n).
Proof. unfold file_bytes. rewrite <- fmap_app. f_equal. rewrite Nat2Z.inj_add, seqZ_app by lia. done. Qed.

(** The number of bytes a read of [len] bytes at [off] returns. *)
Definition readable (size off len : Z) : Z := Z.max 0 (Z.min len (size - off)).

Lemma LIMIT_min a b : LIMIT a b = Z.min a b.
Proof. unfold LIMIT. case_bool; lia. Qed.

(** The loop, on any state of an open file [P] that a seek keeps and whose buffer is
    the sector of the offset in the image [w]. *)
Section loop.
Context (g : Layout) (w : image) (l : list Z) (P : File → Vol D → Prop) (Hd : data_laid g).
Context (P_at : ∀ f v, P f v → 0 ≤ f_offset f ∧ f_buf f = w (sector_of g l (f_offset f))).
Context (P_seek : ∀ f v n, P f v → 0 ≤ n → f_offset f + n < room g l → f_offset f + n < 2 ^ 32 →
  succeeds (fat_file_seek n FAT_SEEK_CURR) (f, v)
    (λ _ s', P s'.1 s'.2 ∧ f_offset s'.1 = f_offset f + n ∧ f_size s'.1 = f_size f)).

Lemma read_loop_ok fuel : ∀ f v len out,
  P f v → 0 ≤ len < 2 ^ 31 → 0 ≤ f_size f < 2 ^ 32 → f_offset f + readable (f_size f) (f_offset f) len < room g l →
  (Z.to_nat (readable (f_size f) (f_offset f) len) < fuel)%nat →
  succeeds (read_loop fuel len out) (f, v) (λ r s',
    r = (FAT_ERR_NONE, out ++ file_bytes g w l (f_offset f) (Z.to_nat (readable (f_size f) (f_offset f) len))) ∧
    P s'.1 s'.2 ∧ f_offset s'.1 = f_offset f + readable (f_size f) (f_offset f) len ∧ f_size s'.1 = f_size f).
Proof.
  induction fuel as [|fuel IH]; intros f v len out HP Hlen Hsize Hroom Hf; [lia|].
  cbn [read_loop]. apply wp_get_file. destruct (negb (len =? 0) && (f_offset f <? f_size f)) eqn:E.
  - apply andb_true_iff in E as [E1 E2]. zify_bools. destruct (P_at f v HP) as [Hoff Hbuf].
    pose proof (Z.mod_pos_bound (f_offset f) 512 ltac:(lia)) as Hidx.
    set (cnt := Z.min len (Z.min (512 - f_offset f mod 512) (f_size f - f_offset f))).
    assert (s32 (LIMIT (u32 len) (LIMIT (512 - f_offset f mod 512) (u32 (f_size f - f_offset f)))) = cnt) as ->.
    { rewrite !u32_id by lia. rewrite !LIMIT_min. apply s32_id. lia. }
    assert (0 < cnt ≤ readable (f_size f) (f_offset f) len) as Hcnt by (unfold readable, cnt; lia).
    rewrite (s32_id (len - cnt)) by (unfold cnt; lia).
    rewrite (get_bytes_contents g w l) by (done || unfold cnt; lia).
    eapply (wp_seq _ _ _ (λ r s', r = inr tt ∧ P s'.1 s'.2 ∧ f_offset s'.1 = f_offset f + cnt ∧ f_size s'.1 = f_size f));
      [apply wp_catch; refine (wp_mono _ _ _ _ (P_seek f v cnt HP _ _ _) _); [lia|lia|unfold cnt; lia|];
       intros r s' ([] & -> & H); eauto|].
    intros _ [f1 v1] (-> & HP1 & Eo & Es). cbn [fst snd] in *.
    assert (readable (f_size f1) (f_offset f1) (len - cnt) = readable (f_size f) (f_offset f) len - cnt) as Ere
      by (rewrite Eo, Es; unfold readable, cnt; lia).
    refine (su_mono _ _ _ _ (IH f1 v1 (len - cnt) _ HP1 _ _ _ _) _);
      [unfold cnt; lia|by rewrite Es|rewrite Ere, Eo; lia|rewrite Ere; lia|].
    intros r s' (-> & H' & Eo' & Es'). rewrite Ere, Eo in *. split; [|split; [exact H'|split; [lia|congruence]]].
    rewrite <- app_assoc. do 2 f_equal.
    replace (f_offset f + cnt) with (f_offset f + Z.of_nat (Z.to_nat cnt)) by lia. rewrite file_bytes_app. f_equal. lia.
  - assert (readable (f_size f) (f_offset f) len = 0) as Ere.
    { apply andb_false_iff in E as [E|E]; zify_bools; unfold readable; lia. }
    rewrite Ere. apply su_ret. cbn. rewrite app_nil_r, Z.add_0_r. done.
Qed.
End loop.

Lemma accessed_ok f a l fl :
  positioned f a l → has fl FAT_FILE_DIRTY = false → positioned (with_f_flags fl f) a l.
Proof. intros [? ? ? ? ? ? ? ?] H. by split. Qed.

(** Reading from where the file is. *)
Lemma file_read_ok f v a l len :
  represents o v a → well_laid o (a_layout a) → data_laid (a_layout a) → apart v (a_layout a) l → positioned f a l →
  has (f_flags f) FAT_READ = true → 0 ≤ len < 2 ^ 31 → 0 ≤ f_size f < 2 ^ 32 →
  f_offset f + readable (f_size f) (f_offset f) len < room (a_layout a) l →
  succeeds (fat_file_read len) (f, v) (λ r s',
    r = (FAT_ERR_NONE, contents a l (f_offset f) (Z.to_nat (readable (f_size f) (f_offset f) len))) ∧
    positioned s'.1 a l ∧ f_offset s'.1 = f_offset f + readable (f_size f) (f_offset f) len ∧ f_size s'.1 = f_size f ∧
    represents o s'.2 a ∧ apart s'.2 (a_layout a) l).
Proof.
  intros Hr Hg Hd Hap Hpo Hread Hlen Hsize Hroom.
  pose proof (po_off _ _ _ Hpo) as Hoff.
  assert (0 ≤ readable (f_size f) (f_offset f) len ≤ f_size f) as Hre by (unfold readable; lia).
  unfold fat_file_read. apply wp_get_file. destruct (f_fat f) as [p|] eqn:Ep; [|by destruct (po_fat _ _ _ Hpo)].
  unfold has in Hread. apply negb_true_iff in Hread. rewrite Hread. apply wp_upd_file, wp_get_file.
  assert (has (Z.lor (f_flags f) FAT_ACCESSED) FAT_FILE_DIRTY = false) as Hfd.
  { pose proof (has_set (f_flags f) 5 7 ltac:(done) ltac:(done)) as E. change (5 =? 7) with false in E.
    rewrite orb_false_r in E. exact (eq_trans E (po_clean _ _ _ Hpo)). }
  pose proof (accessed_ok f a l _ Hpo Hfd) as Hp2.
  refine (su_mono _ _ _ _ (read_loop_ok (a_layout a) (a_img a) l
    (λ f v, positioned f a l ∧ represents o v a ∧ apart v (a_layout a) l) Hd _ _ _
    (with_f_flags (Z.lor (f_flags f) FAT_ACCESSED) f) v len [] _ Hlen _ _ _) _); cbn [with_f_flags f_size f_offset]; [..|done|lia|lia|lia|].
  - intros f1 v1 (Hp1 & _). split; [apply (po_off _ _ _ Hp1)|]. by rewrite (po_buf _ _ _ Hp1), (po_sect _ _ _ Hp1).
  - intros f1 v1 n (Hp1 & H1 & Ha1) Hn Hr1 H32. pose proof (po_off _ _ _ Hp1) as Ho1.
    refine (su_mono _ _ _ _ (seek_ok f1 v1 a l n FAT_SEEK_CURR _ H1 Hg Hd Ha1 Hp1 _ H32 (or_intror (conj eq_refl eq_refl))) _); [lia|].
    intros _ s' (? & ? & ? & _ & ? & ?). done.
  - intros r s' (-> & (Hp3 & Hr3 & Ha3) & Eo3 & Es3). done.
Qed.

(** C16: Seeking in an open file and reading returns the bytes of the file: from
    wherever the file is positioned, [fat_file_seek] to a byte [T] of its clusters
    followed by [fat_file_read] of [len] bytes answers no error and the bytes of
    the file from [T] on, as many as are asked for and the size allows, wherever
    sector and cluster boundaries fall; the file is left positioned after them,
    and the volume is the same image.  The read must stop short of the end of the
    last cluster, since reaching it makes the code extend the file. *)
Theorem file_read_spec f v a l T len :
  represents o v a → well_laid o (a_layout a) → data_laid (a_layout a) → apart v (a_layout a) l → positioned f a l →
  has (f_flags f) FAT_READ = true → 0 ≤ len < 2 ^ 31 → 0 ≤ f_size f < 2 ^ 32 → 0 ≤ T < 2 ^ 32 →
  T + readable (f_size f) T len < room (a_layout a) l →
  succeeds (fat_file_seek T FAT_SEEK_START;; fat_file_read len) (f, v) (λ r s',
    r = (FAT_ERR_NONE, contents a l T (Z.to_nat (readable (f_size f) T len))) ∧
    positioned s'.1 a l ∧ f_offset s'.1 = T + readable (f_size f) T len ∧ f_size s'.1 = f_size f ∧
    represents o s'.2 a ∧ apart s'.2 (a_layout a) l).
Proof.
  intros Hr Hg Hd Hap Hpo Hread Hlen Hsize HT Hroom.
  assert (0 ≤ readable (f_size f) T len ≤ f_size f) as Hre by (unfold readable; lia).
  eapply wp_seq; [apply (seek_ok f v a l T FAT_SEEK_START T); (done || lia || (by left))|].
  intros [] [f1 v1] (Hp1 & Eo & Es & Ef & Hr1 & Ha1). cbn [fst snd] in *.
  rewrite <- Eo, <- Es. refine (file_read_ok f1 v1 a l len Hr1 Hg Hd Ha1 Hp1 _ Hlen _ _); rewrite ?Ef, ?Eo, ?Es; done.
Qed.
End file.

(** A file of two clusters, its second one with the text [Hi!] at its start. *)
Definition text_disk : list (Z * list Z) := (12, [72; 105; 33] ++ replicate 509 0) :: table_sectors two_clusters.
Definition text_file : File := mk_File (Some 1) 20 2 2 8 2051 0 0 0 FAT_READ zero_sector.

Lemma text_chain : chain (a_layout (disk_avol 2 5 text_disk)) (a_img (disk_avol 2 5 text_disk)) 2 [2; 3].
Proof.
  refine (chain_frame _ (a_img (small_avol 2 5 two_clusters)) _ _ _ _ (two_clusters_chain 2 5)).
  intros d Hd. apply elem_of_cons in Hd as [->|Hd]; [vm_compute; reflexivity|].
  apply list_elem_of_singleton in Hd as ->. vm_compute. reflexivity.
Qed.

(** Asked for 100 bytes at 2046, the read crosses the clusters and stops at the size. *)
Lemma file_read_spec_witness :
  succeeds (fat_file_seek 2046 FAT_SEEK_START;; fat_file_read 100) (text_file, disk_volume 2 5 text_disk)
    (λ r _, r = (FAT_ERR_NONE, [0; 0; 72; 105; 33])).
Proof.
  assert (data_laid ram_disk (a_layout (disk_avol 2 5 text_disk))) as Hd by (split; cbn; lia).
  assert (positioned text_file (disk_avol 2 5 text_disk) [2; 3]) as Hp.
  { apply mk_positioned; [done|exact text_chain| |vm_compute; done|vm_compute; reflexivity..].
    intros c Hc. rewrite !elem_of_cons, elem_of_nil in Hc. lia. }
  assert (apart (disk_volume 2 5 text_disk) (a_layout (disk_avol 2 5 text_disk)) [2; 3]) as Ha by done.
  refine (su_mono _ _ _ _ (file_read_spec ram_disk text_file (disk_volume 2 5 text_disk) (disk_avol 2 5 text_disk) [2; 3] 2046 100
    (disk_volume_represents _ _ _) (disk_well_laid _ _ _) Hd Ha Hp eq_refl _ _ _ _) _);
    [lia|cbn; lia|lia|vm_compute; reflexivity|].
  intros r s' [-> _]. vm_compute. reflexivity.
Defined.
