(* ===== verification/FatWrite.v ===== *)
(** * FAT32: writing files

    An open file with bytes to write back shows an image of its volume in which its
    own buffer stands for its sector.  Seeking keeps that image, writing changes the
    bytes written and no other, and closing puts it on the disk. *)
From stdpp Require Import base list sets gmap.
From Stdlib Require Import ZArith Lia.
From S2P Require Import Prelude FatFormat FatVolume FatDir FatFile FatBytes FatVolumeSpec FatChain FatFileProps.

#[local] Open Scope Z_scope.

(** The tables come before the data area. *)
Definition tables_first (g : Layout) : Prop :=
  (l_fat g).1 + table_len g ≤ l_data g ∧ ((l_fat g).2 ≠ 0 → (l_fat g).2 + table_len g ≤ l_data g) ∧ l_info g < l_data g.

(** ** Bytes put into a buffer *)
Lemma put_bytes_sector bs : ∀ i b, is_sector b → is_sector (put_bytes i bs b).
Proof. induction bs as [|x bs IH]; intros i b Hb; [done|]. cbn. apply IH. by apply put8_sector. Qed.

Lemma get8_put_bytes bs : ∀ i j b, bytes bs → 0 ≤ i → i + Z.of_nat (length bs) ≤ Z.of_nat (length b) → 0 ≤ j →
  get8 (put_bytes i bs b) j = if decide (i ≤ j < i + Z.of_nat (length bs)) then default 0 (bs !! Z.to_nat (j - i)) else get8 b j.
Proof.
  induction bs as [|x bs IH]; intros i j b Hb Hi Hl Hj; cbn [put_bytes length] in *; [by rewrite decide_False by lia|].
  apply Forall_cons in Hb as [Hx Hb]. rewrite IH by (done || rewrite ?put8_length; lia).
  destruct (decide (j = i)) as [->|Hne].
  - rewrite decide_False, decide_True by lia. rewrite Z.sub_diag. rewrite get8_put8 by lia. apply wrap_u_id. done.
  - rewrite get8_put8_ne by lia. destruct (decide (i + 1 ≤ j < i + 1 + Z.of_nat (length bs))).
    + rewrite decide_True by lia. by replace (Z.to_nat (j - i)) with (S (Z.to_nat (j - (i + 1)))) by lia.
    + by rewrite decide_False by lia.
Qed.

Lemma get_bytes_take n b : (n ≤ length b)%nat → get_bytes n b 0 = take n b.
Proof.
  intros Hn. apply list_eq. intros k. destruct (decide (k < n)%nat) as [Hk|Hk].
  - rewrite get_bytes_lookup, lookup_take_lt by done. unfold get8. rewrite Z.add_0_l, Nat2Z.id.
    destruct (lookup_lt_is_Some_2 b k) as [x Hx]; [lia|]. by rewrite Hx.
  - rewrite !(proj2 (lookup_ge_None _ _)); [done|rewrite length_take; lia|rewrite get_bytes_length; lia].
Qed.

Section file.
Context {D : Type} (o : DiskOps D) `{!BlockDevice o}.

(** ** A sector written past the buffer of the volume *)
Lemma write_direct v a s b :
  represents o v a → 0 < s < capacity → sect (fat v) ≠ s → is_sector b →
  succeeds (ops_write b s) v (λ r v', r = true ∧ represents o v' (with_img (set_sector s b (a_img a)) a) ∧ fat v' = fat v).
Proof.
  intros Hr Hs Hne Hb. pose proof (write_law b (disk v) s) as Hwr.
  destruct (Hwr (co_ok o v (re_co o v a Hr)) ltac:(lia) Hb) as (d' & Ew & Hok & E1 & E2).
  eapply su_done; [unfold ops_write; by rewrite (co_ops o v (re_co o v a Hr)), Ew|]. split; [done|]. split; [|done].
  destruct Hr as [[? ? ? Hco ?] ? ? ? ? Hv]. split; try done.
  - split; try done. cbn. intros ? ?. rewrite E2 by done. by apply Hco.
  - intros t Ht. unfold view, set_sector. cbn. destruct (Z.eqb_spec t (sect (fat v))) as [->|Hts].
    + rewrite (proj2 (Z.eqb_neq _ _)) by done. rewrite <- Hv by done. unfold view. by rewrite Z.eqb_refl.
    + destruct (Z.eqb_spec t s) as [->|]; [exact E1|]. rewrite E2 by done. rewrite <- Hv by done. unfold view. by rewrite (proj2 (Z.eqb_neq _ _)) by done.
Qed.

(** ** Images that differ in the data area only *)
Definition same_tables (g : Layout) (w w' : image) : Prop := ∀ t, in_table g t → w' t = w t.

Lemma same_tables_set g w t b : tables_first g → l_data g ≤ t → same_tables g w (set_sector t b w).
Proof. intros (H1 & H2 & _) Ht s [Hs|[Hn Hs]]; rewrite set_sector_ne; try done; try (specialize (H2 Hn)); lia. Qed.

Lemma chain_tables g w w' c l : well_laid o g → same_tables g w w' → chain g w c l → chain g w' c l.
Proof.
  intros Hg Hs Hch. refine (chain_frame _ _ _ _ _ _ Hch). intros d Hd. unfold entry. rewrite Hs; [done|].
  pose proof (wl_first o _ Hg) as [Hp Hq]. left.
  apply (table_sector o g _ d (chain_range _ _ _ _ Hch d Hd) Hp Hq (wl_cap o _ Hg)).
Qed.

Section volume.
Context (g : Layout) (l : list Z).
Context (Hg : well_laid o g) (Hd : data_laid o g) (Ht : tables_first g) (H2 : ∀ c, c ∈ l → 2 ≤ c).

(** The buffer of the volume is not a sector of the file. *)
Definition clear (v : Vol D) : Prop := ∀ off, 0 ≤ off < room g l → sect (fat v) ≠ sector_of g l off.

Lemma sector_of_data w c0 off : chain g w c0 l → 0 ≤ off < room g l → l_data g ≤ sector_of g l off < capacity.
Proof.
  intros Hch Hoff. split; [|apply (sector_of_range o g w c0 l off Hd Hch H2 Hoff)].
  destruct (cluster_index o g l off Hd Hoff) as [c Hc]. unfold sector_of. rewrite Hc. cbn [from_option id].
  specialize (H2 c (list_elem_of_lookup_2 _ _ _ Hc)). pose proof (dl_shift o g Hd).
  pose proof (Z.pow_pos_nonneg 2 (l_shift g) ltac:(lia) ltac:(lia)) as Hp.
  pose proof (Z.mod_pos_bound (off / 512) (2 ^ l_shift g) Hp). nia.
Qed.

Lemma get_fat_clear v a c w c0 :
  a_layout a = g → chain g w c0 l → represents o v a → 0 ≤ c < l_cnt (a_layout a) → clear v →
  wp (get_fat c) v (λ r v', r = read_entry (a_layout a) (a_img a) c ∧ represents o v' a ∧ clear v').
Proof.
  intros El Hch Hr Hc Hcl. rewrite <- El in Hg. pose proof (wl_first o _ Hg) as [Hp Hq].
  destruct (table_sector o _ _ c Hc Hp Hq (wl_cap o _ Hg)) as [Eu Hs].
  assert (wp (get_fat c) v (λ _ v', clear v')) as Hcl'.
  { unfold get_fat. wp_prim. rewrite (f_equal l_fat (re_layout o v a Hr) : fat_sect (fat v) = l_fat (a_layout a)), Eu.
    eapply wp_seq; [apply (update_buf_ok o v a); [done|lia]|]. intros _ v1 (_ & Es & _). wp_prim.
    assert (clear v1) as H1.
    { intros off Hoff. pose proof (sector_of_data w c0 off Hch Hoff) as [Hlo _]. destruct Ht as (Hfirst & _). rewrite El in Hs. rewrite Es, El. lia. }
    repeat case_bool; (eapply wp_done; [reflexivity|exact H1]). }
  refine (wp_mono _ _ _ _ (wp_and _ _ _ _ (get_fat_ok o v a c Hr Hg Hc) Hcl') _). by intros r v' [[? ->] ?].
Qed.

(** ** Open files *)

(** The file [f] of the volume [v] is open with the clusters [l], and [w] is the
    image it shows: that of the volume, with the file's buffer for its sector. *)
Record opened (w : image) (f : File) (v : Vol D) : Prop := mk_opened {
  op_fat : f_fat f ≠ None;
  op_chain : chain g w (f_sclust f) l;
  op_off : 0 ≤ f_offset f < room g l;
  op_clust : l !! Z.to_nat (f_offset f / cluster_size g) = Some (f_clust f);
  op_sect : f_sect f = sector_of g l (f_offset f);
  op_buf : is_sector (f_buf f);
  op_clear : clear v;
  op_vol : ∃ a, a_layout a = g ∧ represents o v a ∧
    (∀ t, 0 < t → w t = set_sector (f_sect f) (f_buf f) (a_img a) t) ∧
    (has (f_flags f) FAT_FILE_DIRTY = false → f_buf f = a_img a (f_sect f))
}.

Lemma opened_at w f v : opened w f v → 0 ≤ f_offset f ∧ f_buf f = w (sector_of g l (f_offset f)).
Proof.
  intros [_ Hch Hoff _ Hse _ _ (a & _ & _ & Hw & _)]. split; [lia|]. pose proof (sector_of_data w _ _ Hch Hoff) as Hs.
  pose proof (dl_data o g Hd). rewrite Hw, <- Hse by lia. by rewrite set_sector_eq.
Qed.

(** The file is the same one, with the same flags but for the one that says there are
    bytes to write. *)
Record kept (f f' : File) : Prop := mk_kept {
  kp_flags : Z.land (f_flags f') (Z.lnot FAT_FILE_DIRTY) = Z.land (f_flags f) (Z.lnot FAT_FILE_DIRTY);
  kp_dir : f_dir_sect f' = f_dir_sect f;
  kp_idx : f_dir_idx f' = f_dir_idx f
}.

Lemma kept_file_trans f1 f2 f3 : kept f1 f2 → kept f2 f3 → kept f1 f3.
Proof. intros [A B C] [A' B' C']. split; congruence. Qed.

(** A file with nothing to write takes the sector of its offset into its buffer. *)
Lemma fetch_opened w f v a :
  a_layout a = g → represents o v a → (∀ t, 0 < t → w t = a_img a t) → clear v → f_fat f ≠ None → chain g w (f_sclust f) l →
  0 ≤ f_offset f < room g l → l !! Z.to_nat (f_offset f / cluster_size g) = Some (f_clust f) →
  f_sect f = sector_of g l (f_offset f) → length (f_buf f) = 512%nat →
  succeeds (r ← file_vol (ops_read (f_buf f) (f_sect f));
    upd_file (with_f_buf r.2);;
    if (r.1 : bool) then mret tt else throw FAT_ERR_IO) (f, v) (λ _ s', opened w s'.1 s'.2 ∧ ∃ b, s'.1 = with_f_buf b f).
Proof.
  intros El Hr Hw Hcl Hfat Hch Hoff Hl Hse Hlen. pose proof (sector_of_data _ _ _ Hch Hoff) as Hs. pose proof (dl_data o g Hd) as Hd0.
  rewrite Hse. apply wp_bind, wp_file_vol.
  refine (wp_mono _ _ _ _ (read_direct o v a (sector_of g l (f_offset f)) (f_buf f) Hr ltac:(lia) (λ _, Hcl _ Hoff) Hlen) _).
  intros r v1 (x & -> & -> & H1 & E1). cbn [fst snd]. apply wp_upd_file, su_ret. split; [|by eexists]. cbn [fst snd].
  assert (∀ t, 0 < t → w t = set_sector (sector_of g l (f_offset f)) (a_img a (sector_of g l (f_offset f))) (a_img a) t) as Hw'.
  { intros t Ht0. rewrite Hw by done. unfold set_sector. by destruct (Z.eqb_spec t (sector_of g l (f_offset f))) as [->|]. }
  split; try done; cbn.
  - apply (image_sector o v a _ Hr). lia.
  - unfold clear. by rewrite E1.
  - exists a. rewrite Hse. by split.
Qed.

(** The end of a seek. *)
Lemma arrive_opened f v a c T ssect :
  a_layout a = g → represents o v a → clear v → f_fat f ≠ None → chain g (a_img a) (f_sclust f) l →
  l !! Z.to_nat (T / cluster_size g) = Some c → f_clust f = c → 0 ≤ T < room g l → is_sector (f_buf f) →
  (∃ off, 0 ≤ off < room g l ∧ ssect = sector_of g l off) →
  (has (f_flags f) FAT_FILE_DIRTY = false → f_buf f = a_img a ssect) →
  succeeds (arrive T ssect) (f, v) (λ _ s', opened (set_sector ssect (f_buf f) (a_img a)) s'.1 s'.2 ∧
    f_offset s'.1 = T ∧ f_size s'.1 = f_size f ∧ kept f s'.1).
Proof.
  intros El Hr Hcl Hfat Hch Hl Hc HT Hbuf (off & Hoff & ->) Hclean.
  pose proof (list_elem_of_lookup_2 _ _ _ Hl) as Hin.
  pose proof (sector_of_data _ _ _ Hch HT) as HsT. pose proof (sector_of_data _ _ _ Hch Hoff) as Hs0. pose proof (dl_data o g Hd) as Hd0.
  assert (u32 (clust_to_sect (fat v) c + Z.land (T / 512) (clust_msk (fat v))) = sector_of g l T) as Es.
  { clear - Hg Hd H2 El Hr Hch HT Hl BlockDevice0. subst g. by apply (target_sector o v a l c (f_sclust f) T). }
  unfold arrive. apply wp_get_file, wp_file_read, wp_upd_file, wp_upd_file, wp_get_file. rewrite Hc. unfold id. rewrite Es.
  cbn [f_sect with_f_offset with_f_sect f_flags f_buf].
  assert (chain g (set_sector (sector_of g l off) (f_buf f) (a_img a)) (f_sclust f) l) as Hch'.
  { refine (chain_tables g _ _ _ _ Hg _ Hch). apply same_tables_set; [exact Ht|lia]. }
  destruct (Z.eqb_spec (sector_of g l T) (sector_of g l off)) as [E|Hne]; cbn [negb].
  { apply su_ret. split; [|done]. split; try done; cbn; [congruence|]. exists a. split; [done|]. split; [done|]. rewrite E. by split. }
  destruct (has (f_flags f) FAT_FILE_DIRTY) eqn:Ef; [|specialize (Hclean eq_refl)].
  - eapply wp_seq with (P := λ _ s', s'.1 = with_f_flags (Z.land (f_flags f) (Z.lnot FAT_FILE_DIRTY)) (with_f_offset T (with_f_sect (sector_of g l T) f)) ∧
      represents o s'.2 (with_img (set_sector (sector_of g l off) (f_buf f) (a_img a)) a) ∧ fat s'.2 = fat v).
    { apply wp_bind, wp_file_vol. refine (wp_mono _ _ _ _ (write_direct v a (sector_of g l off) (f_buf f) Hr ltac:(lia) (Hcl off Hoff) Hbuf) _).
      intros r v1 (x & -> & -> & H1 & E1). cbn iota. by apply su_ret. }
    intros [] [f1 v1] (Ef1 & H1 & E1). cbn [fst snd] in *. subst f1.
    refine (su_mono _ _ _ _ (fetch_opened _ (with_f_flags (Z.land (f_flags f) (Z.lnot FAT_FILE_DIRTY)) (with_f_offset T (with_f_sect (sector_of g l T) f))) v1 (with_img (set_sector (sector_of g l off) (f_buf f) (a_img a)) a) El H1 _ _ Hfat Hch' HT _ eq_refl (proj1 Hbuf)) _);
      [done|unfold clear; by rewrite E1|cbn; by rewrite Hc|].
    intros _ [f2 v2] (Ho & b & Ef2). cbn [fst snd] in *. subst f2. split; [exact Ho|]. split; [done|]. split; [done|].
    split; [|done..]. cbn. by rewrite <- Z.land_assoc, Z.land_diag.
  - apply wp_value.
    refine (su_mono _ _ _ _ (fetch_opened (set_sector (sector_of g l off) (f_buf f) (a_img a)) (with_f_offset T (with_f_sect (sector_of g l T) f)) v a El Hr _ Hcl Hfat Hch' HT _ eq_refl (proj1 Hbuf)) _);
      [intros t Ht0; unfold set_sector; by destruct (Z.eqb_spec t (sector_of g l off)) as [->|]|cbn; by rewrite Hc|].
    intros _ [f2 v2] (Ho & b & Ef2). cbn [fst snd] in *. subst f2. by split.
Qed.

Lemma opened_volume w f v : opened w f v → ∃ a, a_layout a = g ∧ represents o v a ∧ chain g (a_img a) (f_sclust f) l ∧
  (∀ t, 0 < t → w t = set_sector (f_sect f) (f_buf f) (a_img a) t) ∧
  (has (f_flags f) FAT_FILE_DIRTY = false → f_buf f = a_img a (f_sect f)).
Proof.
  intros [_ Hch Hoff _ Hse _ _ (a & El & Hr & Hw & Hc)]. exists a. split; [done|]. split; [done|]. split; [|by split].
  pose proof (sector_of_data _ _ _ Hch Hoff) as Hs. pose proof (wl_first o _ Hg) as [Hp Hq].
  refine (chain_tables g _ _ _ _ Hg _ Hch). intros t Hin.
  assert (0 < t ∧ t < l_data g) as [Hlo Hhi].
  { destruct Ht as (A & B & _). destruct Hin as [Hin|[Hn Hin]]; [lia|]. specialize (B Hn). pose proof (wl_second o _ Hg Hn). lia. }
  rewrite Hw, set_sector_ne by lia. done.
Qed.

Lemma opened_ext w w' f v : (∀ t, 0 < t → w' t = w t) → opened w f v → opened w' f v.
Proof.
  intros E [? Hch ? ? ? ? ? (a & ? & ? & Hw & ?)]. split; try done.
  - refine (chain_tables g _ _ _ _ Hg _ Hch). intros t Hin. apply E. pose proof (wl_first o _ Hg).
    destruct Hin as [Hin|[Hn Hin]]; [lia|]. pose proof (wl_second o _ Hg Hn). lia.
  - exists a. repeat (split; [done|]). split; [|done]. intros t Ht0. by rewrite E, Hw.
Qed.

(** The file at another place of its chain, as the seek leaves it before it moves. *)
Record moved (f f0 : File) : Prop := mk_moved {
  mv_fat : f_fat f0 = f_fat f;
  mv_sclust : f_sclust f0 = f_sclust f;
  mv_flags : f_flags f0 = f_flags f;
  mv_buf : f_buf f0 = f_buf f;
  mv_size : f_size f0 = f_size f;
  mv_dir : f_dir_sect f0 = f_dir_sect f;
  mv_idx : f_dir_idx f0 = f_dir_idx f
}.

Lemma travel_opened w f f0 v T i :
  opened w f v → moved f f0 → 0 ≤ T < room g l → 0 ≤ i ≤ T / cluster_size g → l !! Z.to_nat i = Some (f_clust f0) →
  succeeds (seek_loop (Z.to_nat (T / cluster_size g - i));; arrive T (f_sect f)) (f0, v)
    (λ _ s', opened w s'.1 s'.2 ∧ f_offset s'.1 = T ∧ f_size s'.1 = f_size f ∧ kept f s'.1).
Proof.
  intros Ho [E1 E2 E3 E4 E5 E6 E7] HT Hi Hli. pose proof Ho as [Hfat Hch Hoff Hcl Hse Hbuf Hclr _].
  destruct (opened_volume w f v Ho) as (a & El & Hr & Hcha & Hw & Hclean).
  pose proof (cluster_size_pos o _ Hd) as Hcs.
  assert (T / cluster_size g < Z.of_nat (length l)) as HlenT by (apply Z.div_lt_upper_bound; unfold room in *; lia).
  eapply wp_seq.
  { refine (seek_loop_keeps o clear a l _ _ f0 v (Z.to_nat i) Hr _ Hclr _ Hli _); [|by rewrite El|by rewrite El, E2|lia].
    intros v1 c1 H1 Hc1 Hk. by apply (get_fat_clear v1 a c1 (a_img a) (f_sclust f)). }
  intros [] [f1 v1] (c & Hc & Ef & H1 & Hk1). cbn [fst snd] in *. subst f1.
  replace (_ + _)%nat with (Z.to_nat (T / cluster_size g)) in Hc by lia.
  refine (su_mono _ _ _ _ (arrive_opened (with_f_clust c f0) v1 a c T (f_sect f) El H1 Hk1 _ _ Hc eq_refl HT _ _ _) _);
    cbn [f_fat f_sclust f_buf f_flags with_f_clust]; rewrite ?E1, ?E2, ?E3, ?E4; try done; [by exists (f_offset f)|].
  intros _ s' (Hop & Eo & Es & [K1 K2 K3]). split; [by eapply opened_ext; [exact Hw|]|]. split; [done|].
  cbn in *. split; [congruence|]. split; congruence.
Qed.

(** Seeking keeps the image the file shows. *)
Lemma seek_opened w f v offset how T :
  opened w f v → 0 ≤ T < room g l → T < 2 ^ 32 → asks f offset how T →
  succeeds (fat_file_seek offset how) (f, v) (λ _ s', opened w s'.1 s'.2 ∧ f_offset s'.1 = T ∧ f_size s'.1 = f_size f ∧ kept f s'.1).
Proof.
  intros Ho HT HT2 Hask. pose proof Ho as [Hfat Hch Hoff Hcl Hse Hbuf Hclr (a & El & Hr & _)].
  pose proof (cluster_size_pos o _ Hd) as Hcs. pose proof (dl_shift o _ Hd) as Hsh.
  assert (0 ≤ f_offset f / cluster_size g) as Hq by (apply Z.div_pos; lia).
  assert (0 ≤ T / cluster_size g) as HqT by (apply Z.div_pos; lia).
  assert (u32 (Z.shiftl 512 (clust_shift (fat v))) = cluster_size g) as Ecs.
  { rewrite (f_equal l_shift (re_layout o v a Hr) : clust_shift (fat v) = l_shift (a_layout a)), El.
    rewrite Z.shiftl_mul_pow2 by lia. apply u32_id. unfold cluster_size in *.
    assert (2 ^ l_shift g ≤ 2 ^ 7) by (apply Z.pow_le_mono_r; lia). lia. }
  unfold fat_file_seek. apply wp_get_file. destruct (f_fat f) as [p|] eqn:Ep; [|done].
  assert ((if how =? FAT_SEEK_START then 0 else if how =? FAT_SEEK_CURR then f_offset f
           else if how =? FAT_SEEK_END then f_size f else 0) + offset = T) as -> by (destruct Hask as [[-> <-]|[-> <-]]; done).
  rewrite (proj2 (Z.ltb_ge T 0)), (proj2 (Z.ltb_ge _ T)) by lia. cbn [orb]. apply wp_file_read. unfold id. rewrite Ecs.
  destruct (Z.ltb_spec (T / cluster_size g) (f_offset f / cluster_size g)) as [Hb|Hb].
  - set (f0 := with_f_offset 0 (with_f_sect (clust_to_sect (fat v) (f_sclust f)) (with_f_clust (f_sclust f) f))).
    eapply (wp_seq _ _ _ (λ x s', x = 0 ∧ s' = (f0, v))); [by eapply su_done|]. intros _ _ [-> ->].
    apply (travel_opened w f f0 v T 0 Ho); [by split|done|lia|exact (chain_head _ _ _ _ Hch)].
  - apply wp_value. apply (travel_opened w f f v T _ Ho); [by split|done|lia|exact Hcl].
Qed.

(** ** Different bytes are in different places *)
Lemma sector_of_inj w c0 i j :
  chain g w c0 l → 0 ≤ i < room g l → 0 ≤ j < room g l → sector_of g l i = sector_of g l j → i / 512 = j / 512.
Proof.
  intros Hch Hi Hj E. destruct (cluster_index o g l i Hd Hi) as [ci Hci]. destruct (cluster_index o g l j Hd Hj) as [cj Hcj].
  pose proof (cluster_size_pos o _ Hd) as Hcs. pose proof (dl_shift o _ Hd) as Hsh.
  pose proof (Z.pow_pos_nonneg 2 (l_shift g) ltac:(lia) ltac:(lia)) as Hp.
  unfold sector_of in E. rewrite Hci, Hcj in E. cbn [from_option id] in E.
  pose proof (Z.mod_pos_bound (i / 512) (2 ^ l_shift g) Hp) as Hmi. pose proof (Z.mod_pos_bound (j / 512) (2 ^ l_shift g) Hp) as Hmj.
  assert (ci = cj) as -> by nia.
  assert (0 ≤ i / cluster_size g ∧ 0 ≤ j / cluster_size g) as [Hqi Hqj] by (split; apply Z.div_pos; lia).
  pose proof (NoDup_lookup _ _ _ _ (chain_NoDup _ _ _ _ Hch) Hci Hcj) as Eq.
  assert (i / 512 / 2 ^ l_shift g = j / 512 / 2 ^ l_shift g) as Eq2.
  { rewrite !Z.div_div by lia. fold (cluster_size g). lia. }
  rewrite (Z.div_mod (i / 512) (2 ^ l_shift g)), (Z.div_mod (j / 512) (2 ^ l_shift g)) by lia. rewrite Eq2. lia.
Qed.

(** ** Writing *)

(** [w'] is [w] with the bytes [bs] at [off] of the file, and nothing else changed. *)
Record written (w w' : image) (off : Z) (bs : list Z) : Prop := mk_written {
  wr_bytes : ∀ i, 0 ≤ i < room g l → byte_of g w' l i =
    if decide (off ≤ i < off + Z.of_nat (length bs)) then default 0 (bs !! Z.to_nat (i - off)) else byte_of g w l i;
  wr_other : ∀ t, 0 < t → (∀ i, 0 ≤ i < room g l → t ≠ sector_of g l i) → w' t = w t
}.

Lemma written_nil w off : written w w off [].
Proof. split; [|done]. intros i _. cbn. by rewrite decide_False by lia. Qed.

Lemma written_app w w1 w2 off b1 b2 :
  0 ≤ off → written w w1 off b1 → written w1 w2 (off + Z.of_nat (length b1)) b2 → written w w2 off (b1 ++ b2).
Proof.
  intros Hoff [H1 O1] [H2' O2]. split.
  - intros i Hi. rewrite H2', H1 by done. rewrite length_app. repeat case_decide; try lia; try done.
    + f_equal. rewrite lookup_app_r by lia. f_equal. lia.
    + f_equal. by rewrite lookup_app_l by lia.
  - intros t Ht0 Hne. by rewrite O2, O1.
Qed.

(** Bytes put into the buffer of the file, as the body of the loop does. *)
Definition fill (idx : Z) (bs : list Z) (f : File) : File :=
  let f := with_f_buf (put_bytes idx bs (f_buf f)) f in with_f_flags (Z.lor (f_flags f) FAT_FILE_DIRTY) f.

Lemma fill_opened w f v bs :
  opened w f v → bytes bs → Z.of_nat (length bs) ≤ 512 - f_offset f mod 512 → f_offset f + Z.of_nat (length bs) ≤ room g l →
  ∃ w', opened w' (fill (f_offset f mod 512) bs f) v ∧ written w w' (f_offset f) bs.
Proof.
  intros Ho Hbs Hlen Hroom. pose proof Ho as [Hfat Hch Hoff Hcl Hse [Hbl Hbb] Hclr (a & El & Hr & Hw & Hclean)].
  pose proof (sector_of_data w _ _ Hch Hoff) as Hs. pose proof (dl_data o g Hd) as Hd0.
  pose proof (Z.mod_pos_bound (f_offset f) 512 ltac:(lia)) as Hidx.
  set (b' := put_bytes (f_offset f mod 512) bs (f_buf f)).
  exists (set_sector (f_sect f) b' w). split; [split|split]; try done.
  - refine (chain_tables g _ _ _ _ Hg _ Hch). apply same_tables_set; [exact Ht|]. lia.
  - by apply put_bytes_sector.
  - exists a. split; [done|]. split; [done|]. split.
    + intros t Ht0. cbn. fold b'. unfold set_sector. destruct (Z.eqb_spec t (f_sect f)) as [|Hne]; [done|].
      rewrite Hw by done. by rewrite set_sector_ne.
    + intros Hf. exfalso. cbn in Hf. pose proof (has_set (f_flags f) 7 7 ltac:(done) ltac:(done)) as E.
      change (2 ^ 7) with FAT_FILE_DIRTY in E. change (7 =? 7) with true in E. rewrite orb_true_r in E. congruence.
  - intros i Hi. unfold byte_of. pose proof (Z.mod_pos_bound i 512 ltac:(lia)) as Him.
    destruct (decide (sector_of g l i = f_sect f)) as [E|E].
    + rewrite E, set_sector_eq. unfold b'. rewrite get8_put_bytes by (done || lia).
      rewrite Hse in E. pose proof (sector_of_inj _ _ _ _ Hch Hi Hoff E) as Eq.
      assert (i - f_offset f = i mod 512 - f_offset f mod 512) as Ed by (Z.to_euclidean_division_equations; lia).
      destruct (decide (f_offset f ≤ i < f_offset f + Z.of_nat (length bs))).
      * rewrite decide_True by lia. by rewrite Ed.
      * rewrite decide_False by lia. rewrite Hw by lia. by rewrite set_sector_eq.
    + rewrite set_sector_ne by done. destruct (decide (f_offset f ≤ i < f_offset f + Z.of_nat (length bs))) as [Hin|]; [|done].
      exfalso. apply E. rewrite Hse. replace i with (f_offset f + (i - f_offset f)) by lia. apply (sector_of_shift o g l); [done|lia].
  - intros t Ht0 Hne. rewrite set_sector_ne; [done|]. rewrite Hse. by apply Hne.
Qed.

Lemma kept_fill f idx bs : kept f (fill idx bs f).
Proof.
  split; [|done..]. cbn. apply Z.bits_inj'. intros n Hn. rewrite !Z.land_spec, Z.lor_spec.
  destruct (Z.testbit FAT_FILE_DIRTY n) eqn:E; rewrite Z.lnot_spec, E by done; by rewrite ?andb_false_r, ?orb_false_r.
Qed.

Lemma write_loop_ok fuel : ∀ w f v src len n,
  opened w f v → bytes src → 0 ≤ len < 2 ^ 31 → len ≤ Z.of_nat (length src) → 0 ≤ n → n + len < 2 ^ 31 →
  f_offset f + len < room g l → f_offset f + len < 2 ^ 32 → (Z.to_nat len < fuel)%nat →
  succeeds (write_loop fuel src len n) (f, v) (λ r s', r = n + len ∧
    ∃ w', opened w' s'.1 s'.2 ∧ written w w' (f_offset f) (take (Z.to_nat len) src) ∧
      f_offset s'.1 = f_offset f + len ∧ f_size s'.1 = f_size f ∧ kept f s'.1).
Proof.
  induction fuel as [|fuel IH]; intros w f v src len n Ho Hsrc Hlen Hl Hn Hnl Hroom H32 Hf; [lia|]. cbn [write_loop].
  destruct (Z.eqb_spec len 0) as [->|Hne].
  { apply su_ret. split; [lia|]. exists w. rewrite Z.add_0_r. repeat (split; [done || apply written_nil|]). done. }
  apply wp_get_file. pose proof (op_off _ _ _ Ho) as Hoff. pose proof (Z.mod_pos_bound (f_offset f) 512 ltac:(lia)) as Hidx.
  rewrite LIMIT_min. set (cnt := Z.min len (512 - f_offset f mod 512)).
  assert (0 < cnt ≤ len) as Hcnt by (unfold cnt; lia). rewrite (Z.max_r 1) by lia. rewrite get_bytes_take by lia.
  apply wp_upd_file, wp_upd_file. rewrite (s32_id (n + cnt)), (s32_id (len - cnt)) by lia.
  set (bs := take (Z.to_nat cnt) src). assert (length bs = Z.to_nat cnt) as Hbl by (unfold bs; rewrite length_take; lia).
  destruct (fill_opened w f v bs Ho) as (w1 & Ho1 & Hw1); [by apply Forall_take|unfold cnt in *; lia|lia|].
  fold (fill (f_offset f mod 512) bs f). set (f1 := fill _ _ _) in *.
  eapply (wp_seq _ _ _ (λ r s', r = inr tt ∧ opened w1 s'.1 s'.2 ∧ f_offset s'.1 = f_offset f + cnt ∧ f_size s'.1 = f_size f ∧ kept f1 s'.1)).
  { apply wp_catch. refine (wp_mono _ _ _ _ (seek_opened w1 f1 v cnt FAT_SEEK_CURR (f_offset f + cnt) Ho1 ltac:(lia) ltac:(lia) (or_intror (conj eq_refl eq_refl))) _).
    intros r s' ([] & -> & H). eauto. }
  intros _ [f2 v2] (-> & Ho2 & Eo & Es & Efl). cbn [fst snd] in *.
  refine (su_mono _ _ _ _ (IH w1 f2 v2 (drop (Z.to_nat cnt) src) (len - cnt) (n + cnt) Ho2 _ _ _ _ _ _ _ _) _);
    [by apply Forall_drop|lia|rewrite length_drop; lia|lia..|].
  intros r s' (-> & w' & Ho' & Hw' & Eo' & Es' & Efl'). split; [lia|]. exists w'. split; [exact Ho'|].
  split; [|split; [lia|split; [congruence|]]].
  - replace (take (Z.to_nat len) src) with (bs ++ take (Z.to_nat (len - cnt)) (drop (Z.to_nat cnt) src)).
    + eapply written_app; [lia|exact Hw1|]. rewrite Hbl, Z2Nat.id by lia. by rewrite <- Eo.
    + unfold bs. rewrite take_take_drop. f_equal. lia.
  - eapply kept_file_trans; [apply (kept_fill f)|]. by eapply kept_file_trans.
Qed.

Lemma kept_has f f' k : kept f f' → 0 ≤ k → k ≠ 7 → has (f_flags f') (2 ^ k) = has (f_flags f) (2 ^ k).
Proof.
  intros [E _ _] Hk Hne. rewrite !has_bit by done. apply (f_equal (λ x, Z.testbit x k)) in E. rewrite !Z.land_spec in E.
  change FAT_FILE_DIRTY with (2 ^ 7) in E. rewrite Z.lnot_spec, Z.pow2_bits_eqb, (proj2 (Z.eqb_neq 7 k)) in E by lia.
  by rewrite !andb_true_r in E.
Qed.

Lemma has_lor fl m k : 0 ≤ k → has (Z.lor fl m) (2 ^ k) = has fl (2 ^ k) || Z.testbit m k.
Proof. intros Hk. by rewrite !has_bit, Z.lor_spec. Qed.

(** A change of the flags and the size only. *)
Lemma opened_marks w f f' v :
  opened w f v → f_fat f' = f_fat f → f_sclust f' = f_sclust f → f_clust f' = f_clust f → f_sect f' = f_sect f →
  f_offset f' = f_offset f → f_buf f' = f_buf f → has (f_flags f') FAT_FILE_DIRTY = has (f_flags f) FAT_FILE_DIRTY → opened w f' v.
Proof.
  intros [? ? ? ? ? ? ? (a & ? & ? & ? & ?)] E1 E2 E3 E4 E5 E6 E7.
  split; rewrite ?E1, ?E2, ?E3, ?E4, ?E5, ?E6; try done. exists a. by rewrite ?E4, ?E6, E7.
Qed.

Definition modified (f : File) : Prop := has (f_flags f) FAT_MODIFIED = true.

(** Writing from where the file is. *)
Lemma file_write_ok w f v src len :
  opened w f v → has (f_flags f) FAT_WRITE = true → bytes src → 0 ≤ len < 2 ^ 31 → len ≤ Z.of_nat (length src) →
  f_offset f + len < room g l → f_offset f + len < 2 ^ 32 →
  succeeds (fat_file_write src len) (f, v) (λ r s', r = (FAT_ERR_NONE, len) ∧ modified s'.1 ∧
    ∃ w', opened w' s'.1 s'.2 ∧ written w w' (f_offset f) (take (Z.to_nat len) src) ∧
      f_offset s'.1 = f_offset f + len ∧ f_size s'.1 = Z.max (f_size f) (f_offset f + len) ∧
      has (f_flags s'.1) FAT_READ = has (f_flags f) FAT_READ ∧ f_dir_sect s'.1 = f_dir_sect f ∧ f_dir_idx s'.1 = f_dir_idx f).
Proof.
  intros Ho Hwr Hsrc Hlen Hl Hroom H32. unfold fat_file_write. apply wp_get_file.
  pose proof (op_fat _ _ _ Ho) as Hfat. destruct (f_fat f) as [p|] eqn:Ep; [|done].
  unfold has in Hwr. apply negb_true_iff in Hwr. rewrite Hwr. apply wp_upd_file.
  set (f1 := with_f_flags (Z.lor (f_flags f) (Z.lor FAT_MODIFIED FAT_ACCESSED)) f).
  assert (∀ k, 0 ≤ k → has (f_flags f1) (2 ^ k) = has (f_flags f) (2 ^ k) || Z.testbit (Z.lor FAT_MODIFIED FAT_ACCESSED) k) as Hfl
    by (intros k Hk; by apply has_lor).
  assert (opened w f1 v) as Ho1.
  { apply (opened_marks w f); try done. exact (eq_trans (Hfl 7 ltac:(done)) (orb_false_r _)). }
  eapply wp_seq; [apply (write_loop_ok _ w f1 v src len 0 Ho1); (done || lia)|].
  intros r [f2 v2] (-> & w' & Ho2 & Hw & Eo & Es & Efl). cbn [fst snd] in *. apply wp_upd_file, su_ret. cbn [fst snd].
  assert (∀ k, 0 ≤ k → k ≠ 7 → has (f_flags f2) (2 ^ k) = has (f_flags f) (2 ^ k) || Z.testbit (Z.lor FAT_MODIFIED FAT_ACCESSED) k) as Hfl2
    by (intros k Hk Hne; by rewrite (kept_has f1), Hfl).
  assert (modified f2 ∧ has (f_flags f2) FAT_READ = has (f_flags f) FAT_READ) as [Hm Hrd].
  { split; [exact (eq_trans (Hfl2 6 ltac:(done) ltac:(done)) (orb_true_r _))|exact (eq_trans (Hfl2 1 ltac:(done) ltac:(done)) (orb_false_r _))]. }
  split; [done|]. split; [by destruct (f_size f2 <? f_offset f2)|]. exists w'.
  split; [destruct (f_size f2 <? f_offset f2); [by apply (opened_marks w' f2)|done]|]. split; [exact Hw|].
  change (f_offset f1) with (f_offset f) in *. change (f_size f1) with (f_size f) in *.
  destruct (Z.ltb_spec (f_size f2) (f_offset f2)); cbn; (split; [lia|split; [lia|split; [exact Hrd|split; [exact (kp_dir _ _ Efl)|exact (kp_idx _ _ Efl)]]]]).
Qed.

Lemma file_bytes_written w w' off bs : 0 ≤ off → off + Z.of_nat (length bs) ≤ room g l → written w w' off bs → file_bytes g w' l off (length bs) = bs.
Proof.
  intros Hoff Hroom [H _]. unfold file_bytes. apply list_eq. intros k. destruct (decide (k < length bs)%nat) as [Hk|Hk].
  - rewrite list_lookup_fmap, lookup_seqZ_lt by lia. cbn. rewrite H, decide_True by lia.
    replace (Z.to_nat (off + Z.of_nat k - off)) with k by lia. destruct (lookup_lt_is_Some_2 bs k Hk) as [x Hx]. by rewrite Hx.
  - rewrite !(proj2 (lookup_ge_None _ _)); [done|lia|rewrite length_fmap, length_seqZ; lia].
Qed.

(** Reading from where the file is, whatever is still to be written. *)
Lemma opened_read_ok w f v len :
  opened w f v → has (f_flags f) FAT_READ = true → 0 ≤ len < 2 ^ 31 → 0 ≤ f_size f < 2 ^ 32 →
  f_offset f + readable (f_size f) (f_offset f) len < room g l →
  succeeds (fat_file_read len) (f, v) (λ r s',
    r = (FAT_ERR_NONE, file_bytes g w l (f_offset f) (Z.to_nat (readable (f_size f) (f_offset f) len))) ∧
    opened w s'.1 s'.2 ∧ f_size s'.1 = f_size f).
Proof.
  intros Ho Hread Hlen Hsize Hroom. pose proof (op_off _ _ _ Ho) as Hoff.
  assert (0 ≤ readable (f_size f) (f_offset f) len ≤ f_size f) as Hre by (unfold readable; lia).
  unfold fat_file_read. apply wp_get_file. pose proof (op_fat _ _ _ Ho) as Hfat. destruct (f_fat f) as [p|] eqn:Ep; [|done].
  unfold has in Hread. apply negb_true_iff in Hread. rewrite Hread. apply wp_upd_file, wp_get_file.
  assert (opened w (with_f_flags (Z.lor (f_flags f) FAT_ACCESSED) f) v) as Ho1.
  { apply (opened_marks w f); try done. exact (eq_trans (has_lor (f_flags f) FAT_ACCESSED 7 ltac:(done)) (orb_false_r _)). }
  refine (su_mono _ _ _ _ (read_loop_ok o g w l (opened w) Hd (λ f v H, opened_at w f v H) _ _
    (with_f_flags (Z.lor (f_flags f) FAT_ACCESSED) f) v len [] Ho1 Hlen _ _ _) _); cbn [with_f_flags f_size f_offset]; [|lia|lia|lia|].
  - intros f1 v1 n H1 Hn Hr1 H32. pose proof (op_off _ _ _ H1) as Ho1'.
    refine (su_mono _ _ _ _ (seek_opened w f1 v1 n FAT_SEEK_CURR _ H1 _ H32 (or_intror (conj eq_refl eq_refl))) _); [lia|].
    intros _ s' (? & ? & ? & _). done.
  - intros r s' (-> & H3 & _ & Es). done.
Qed.

(** ** Closing *)

(** The entry of the file is in a directory of the data area, none of whose sectors
    is one of the file. *)
Definition entry_apart (f : File) : Prop :=
  l_data g ≤ f_dir_sect f < capacity ∧ 0 ≤ f_dir_idx f ≤ 480 ∧ ∀ i, 0 ≤ i < room g l → f_dir_sect f ≠ sector_of g l i.

(** The sector of the directory with the entry of the file brought up to date. *)
Definition entry_updated (f : File) (b : list Z) : Prop := get32 b (f_dir_idx f + SFN_FILE_SIZE) = f_size f.

Lemma get32_put16_ne i j v b : 0 ≤ i → 0 ≤ j → i + 2 ≤ j ∨ j + 4 ≤ i → get32 (put16 i v b) j = get32 b j.
Proof. intros Hi Hj Hij. unfold get32. by rewrite !get16_put16_ne by lia. Qed.

(** The change of the directory's sector, for a file that was written. *)
Lemma touch_entry v a f :
  represents o v a → entry_apart f → 0 ≤ f_size f < 2 ^ 32 → sect (fat v) = f_dir_sect f → buf (fat v) = a_img a (f_dir_sect f) →
  modified f →
  succeeds (let o := f_dir_idx f in
    file_vol (set_flag FAT_BUF_DIRTY);;
    let '(date, time) := encode_timestamp in
    (if has (f_flags f) FAT_ACCESSED then file_vol (upd_buf (put16 (o + SFN_ACC_DATE) date)) else mret tt);;
    (if has (f_flags f) FAT_MODIFIED then
       file_vol (upd_buf (λ b, put8 (o + SFN_ATTR) (Z.lor (get8 b (o + SFN_ATTR)) FAT_ATTR_ARCHIVE) b));;
       file_vol (upd_buf (put32 (o + SFN_FILE_SIZE) (f_size f)));;
       file_vol (upd_buf (put16 (o + SFN_MOD_DATE) date));;
       file_vol (upd_buf (put16 (o + SFN_MOD_TIME) time))
     else mret tt)) (f, v)
    (λ _ s', s'.1 = f ∧ ∃ b, entry_updated f b ∧ represents o s'.2 (with_img (set_sector (f_dir_sect f) b (a_img a)) a)).
Proof.
  intros Hr (Hds & Hdi & _) Hsz Es Eb Hm. pose proof (dl_data o g Hd) as Hd0.
  pose proof (image_sector o v a (f_dir_sect f) Hr ltac:(lia)) as Hsec. rewrite <- Eb in Hsec.
  cbv zeta. destruct encode_timestamp as [date time]. apply wp_bind, wp_file_vol. eapply wp_done; [reflexivity|]. cbn beta iota.
  set (v1 := with_fat (with_flags _ _) v).
  set (b1 := if has (f_flags f) FAT_ACCESSED then put16 (f_dir_idx f + SFN_ACC_DATE) date (buf (fat v)) else buf (fat v)).
  assert (is_sector b1) as Hb1 by (unfold b1; destruct (has _ _); [by apply put16_sector|done]).
  eapply wp_seq with (P := λ _ s', s' = (f, with_fat (with_buf b1 (fat v1)) v1)).
  { unfold b1. destruct (has (f_flags f) FAT_ACCESSED); [by eapply su_done|]. apply su_ret. by destruct v as [[] ? ? ? ?]. }
  intros _ _ ->. rewrite Hm.
  set (b2 := put8 (f_dir_idx f + SFN_ATTR) (Z.lor (get8 b1 (f_dir_idx f + SFN_ATTR)) FAT_ATTR_ARCHIVE) b1).
  set (b5 := put16 (f_dir_idx f + SFN_MOD_TIME) time (put16 (f_dir_idx f + SFN_MOD_DATE) date (put32 (f_dir_idx f + SFN_FILE_SIZE) (f_size f) b2))).
  eapply (su_done _ _ _ tt (f, with_fat (with_buf b5 (fat v1)) v1)); [reflexivity|]. split; [done|]. exists b5. split.
  - unfold entry_updated, b5. rewrite !get32_put16_ne by (unfold SFN_MOD_TIME, SFN_MOD_DATE, SFN_FILE_SIZE; lia).
    rewrite get32_put32; [by apply u32_id|unfold SFN_FILE_SIZE; lia|]. unfold b2. rewrite put8_length, (proj1 Hb1). unfold SFN_FILE_SIZE. lia.
  - apply (edit_ok o v a (f_dir_sect f)); [done|done|lia|repeat (apply put16_sector || apply put32_sector || apply put8_sector); done|done].
Qed.

(** What is on the disk: the bytes the file shows, and its size. *)
Definition on_disk (w : image) (f : File) (d : D) : Prop :=
  (∀ i, 0 ≤ i < room g l → get8 (sector d (sector_of g l i)) (i mod 512) = byte_of g w l i) ∧
  entry_updated f (sector d (f_dir_sect f)).

Lemma file_close_ok w f v :
  opened w f v → entry_apart f → 0 ≤ f_size f < 2 ^ 32 → modified f →
  succeeds fat_file_close (f, v) (λ _ s', on_disk w f (disk s'.2)).
Proof.
  intros Ho Hen Hsz Hm. pose proof Ho as [Hfat Hch Hoff Hcl Hse Hbuf Hclr (a & El & Hr & Hw & _)].
  pose proof (sector_of_data w _ _ Hch Hoff) as Hs. pose proof (dl_data o g Hd) as Hd0. pose proof Hen as (Hds & Hdi & Hne).
  unfold fat_file_close, fat_file_sync. apply wp_get_file. destruct (f_fat f) as [p|] eqn:Ep; [|done]. apply wp_get_file. rewrite Ep.
  rewrite Hse. eapply wp_seq with (P := λ r s', r = true ∧ s'.1 = f ∧ represents o s'.2 (with_img (set_sector (f_sect f) (f_buf f) (a_img a)) a)).
  { apply wp_file_vol. rewrite <- Hse. refine (wp_mono _ _ _ _ (write_direct v a (f_sect f) (f_buf f) Hr ltac:(lia) _ Hbuf) _); [rewrite Hse; by apply Hclr|].
    intros r v1 (x & -> & -> & H1 & _). by exists true. }
  intros _ [f1 v1] (-> & Ef1 & H1). cbn [fst snd negb] in *. subst f1.
  set (a1 := with_img (set_sector (f_sect f) (f_buf f) (a_img a)) a) in *.
  assert (has (f_flags f) (Z.lor FAT_ACCESSED FAT_MODIFIED) = true) as ->.
  { unfold modified, has in *. apply negb_true_iff, Z.eqb_neq. apply negb_true_iff, Z.eqb_neq in Hm. intros E. apply Hm.
    rewrite Z.land_lor_distr_r in E. by apply Z.lor_eq_0_iff in E as [_ E]. }
  eapply wp_seq with (P := λ _ s', s'.1 = f ∧ ∃ b, entry_updated f b ∧ represents o s'.2 (with_img (set_sector (f_dir_sect f) b (a_img a1)) a1)).
  { eapply wp_seq with (P := λ _ s', s'.1 = f ∧ represents o s'.2 a1 ∧ sect (fat s'.2) = f_dir_sect f ∧ buf (fat s'.2) = a_img a1 (f_dir_sect f)).
    { apply wp_file_vol. refine (wp_mono _ _ _ _ (update_buf_ok o v1 a1 (f_dir_sect f) H1 ltac:(lia)) _).
      intros r v2 (x & -> & H2' & E1 & E2). by exists x. }
    intros [] [f2 v2] (Ef2 & Hr2 & E1 & E2). cbn [fst snd] in *. subst f2. by apply (touch_entry v2 a1 f). }
  intros [] [f3 v3] (Ef3 & b & Hb & Hr3). cbn [fst snd] in *. subst f3.
  eapply wp_seq with (P := λ _ s', on_disk w f (disk s'.2)).
  2: { intros [] [f4 v4] H4. by eapply su_done. }
  apply wp_file_vol. assert (l_info (a_layout a1) = l_info g) as Ei by (by rewrite <- El). destruct Ht as (_ & _ & Hti).
  refine (wp_mono _ _ _ _ (sync_fs_ok o v3 _ Hr3 _) _); [cbn; rewrite El; apply (wl_info o _ Hg)|].
  intros r v4 (x & -> & _ & Hdisk). exists x. split; [done|]. cbn [fst snd].
  assert (∀ t, l_data g ≤ t → sector (disk v4) t = set_sector (f_dir_sect f) b (a_img a1) t) as Ht4.
  { intros t Hlo. rewrite Hdisk by lia. unfold synced. cbn [a_img a_info a_layout with_img]. destruct (a_info a1); [|done].
    rewrite set_sector_ne; [done|]. cbn in Ei |- *. rewrite Ei. lia. }
  split.
  - intros i Hi. pose proof (sector_of_data w _ _ Hch Hi) as Hsi. rewrite Ht4 by lia.
    rewrite set_sector_ne by (symmetry; by apply Hne). unfold byte_of. f_equal. cbn. by rewrite Hw by lia.
  - rewrite Ht4 by lia. by rewrite set_sector_eq.
Qed.
End volume.

(** C15: what is written to a file is read back, and nothing else changes.  From any
    state of an open file, whether or not its buffer has bytes to write, a write
    of [len] bytes at [T] inside its clusters answers no error and [len]; seeking
    to [T] again and reading returns these bytes, wherever sector and cluster
    boundaries fall; every other byte of the file and every sector that is not one
    of its own are unchanged in the image the file shows, and its size has grown to
    the end of what was written, if that is past it.  The write must stop short of
    the end of the last cluster. *)
Theorem write_read_back g l w f v T src len :
  well_laid o g → data_laid o g → tables_first g → (∀ c, c ∈ l → 2 ≤ c) → opened g l w f v →
  has (f_flags f) FAT_WRITE = true → has (f_flags f) FAT_READ = true → bytes src → 0 ≤ len < 2 ^ 31 → len ≤ Z.of_nat (length src) →
  0 ≤ f_size f < 2 ^ 32 → 0 ≤ T → T + len < room g l → T + len < 2 ^ 32 →
  succeeds (fat_file_seek T FAT_SEEK_START;; n ← fat_file_write src len;
            fat_file_seek T FAT_SEEK_START;; r ← fat_file_read len; mret (n, r)) (f, v)
    (λ r s', r = ((FAT_ERR_NONE, len), (FAT_ERR_NONE, take (Z.to_nat len) src)) ∧
      f_size s'.1 = Z.max (f_size f) (T + len) ∧
      ∃ w', opened g l w' s'.1 s'.2 ∧ written g l w w' T (take (Z.to_nat len) src)).
Proof.
  intros Hg Hd Ht H2 Ho Hwr Hrd Hsrc Hlen Hl Hsz HT Hroom H32.
  eapply wp_seq; [apply (seek_opened g l Hg Hd Ht H2 w f v T FAT_SEEK_START T Ho); (lia || by left)|].
  intros [] [f1 v1] (Ho1 & Eo1 & Es1 & Efl). cbn [fst snd] in *.
  eapply wp_seq; [apply (file_write_ok g l Hg Hd Ht H2 w f1 v1 src len Ho1); rewrite ?Eo1; try done; exact (eq_trans (kept_has f f1 0 Efl ltac:(done) ltac:(done)) Hwr)|].
  intros r [f2 v2] (-> & _ & w' & Ho2 & Hw & Eo2 & Es2 & Er2 & _). cbn [fst snd] in *. rewrite Eo1, Es1 in *.
  assert (has (f_flags f2) FAT_READ = true) as Hr2 by (rewrite Er2; exact (eq_trans (kept_has f f1 1 Efl ltac:(done) ltac:(done)) Hrd)).
  eapply wp_seq; [apply (seek_opened g l Hg Hd Ht H2 w' f2 v2 T FAT_SEEK_START T Ho2); (lia || by left)|].
  intros [] [f3 v3] (Ho3 & Eo3 & Es3 & Efl3). cbn [fst snd] in *.
  assert (readable (f_size f3) (f_offset f3) len = len) as Ere by (rewrite Es3, Es2, Eo3; unfold readable; lia).
  eapply wp_seq; [apply (opened_read_ok g l Hg Hd Ht H2 w' f3 v3 len Ho3); [|lia|lia|by rewrite Ere, Eo3]|].
  { exact (eq_trans (kept_has f2 f3 1 Efl3 ltac:(done) ltac:(done)) Hr2). }
  intros r [f4 v4] (-> & Ho4 & Es4). cbn [fst snd] in *. apply su_ret. cbn [fst snd]. rewrite Ere, Eo3.
  split; [|split; [congruence|by exists w']]. do 2 f_equal.
  assert (length (take (Z.to_nat len) src) = Z.to_nat len) as Ebl by (rewrite length_take; lia).
  rewrite <- Ebl at 1. apply (file_bytes_written g l w w'); [lia|lia|exact Hw].
Qed.

(** A write reaches the disk when the file is closed.  From any state of an open
    file, a seek to [T], a write of [len] bytes inside its clusters and the close
    answer no error, and then the sectors of the file on the device, without any
    buffer, hold the bytes written at [T] and the bytes the file showed before
    everywhere else; the entry of the file in its directory, on the device too, has
    the new size. *)
Theorem write_close_spec g l w f v T src len :
  well_laid o g → data_laid o g → tables_first g → (∀ c, c ∈ l → 2 ≤ c) → opened g l w f v → entry_apart g l f →
  has (f_flags f) FAT_WRITE = true → bytes src → 0 ≤ len < 2 ^ 31 → len ≤ Z.of_nat (length src) →
  0 ≤ f_size f < 2 ^ 32 → 0 ≤ T → T + len < room g l → T + len < 2 ^ 32 →
  succeeds (fat_file_seek T FAT_SEEK_START;; fat_file_write src len;; fat_file_close) (f, v) (λ _ s',
    (∀ i, 0 ≤ i < room g l → get8 (sector (disk s'.2) (sector_of g l i)) (i mod 512) =
      if decide (T ≤ i < T + len) then default 0 (src !! Z.to_nat (i - T)) else byte_of g w l i) ∧
    get32 (sector (disk s'.2) (f_dir_sect f)) (f_dir_idx f + SFN_FILE_SIZE) = Z.max (f_size f) (T + len)).
Proof.
  intros Hg Hd Ht H2 Ho (Hds & Hdi & Hne) Hwr Hsrc Hlen Hl Hsz HT Hroom H32.
  eapply wp_seq; [apply (seek_opened g l Hg Hd Ht H2 w f v T FAT_SEEK_START T Ho); (lia || by left)|].
  intros [] [f1 v1] (Ho1 & Eo1 & Es1 & Efl). cbn [fst snd] in *.
  eapply wp_seq; [apply (file_write_ok g l Hg Hd Ht H2 w f1 v1 src len Ho1); rewrite ?Eo1; try done; exact (eq_trans (kept_has f f1 0 Efl ltac:(done) ltac:(done)) Hwr)|].
  intros r [f2 v2] (_ & Hm & w' & Ho2 & [Hw _] & Eo2 & Es2 & _ & Ed & Ei). cbn [fst snd] in *. rewrite Eo1, Es1 in *.
  destruct Efl as [_ Ed1 Ei1]. rewrite Ed1 in Ed. rewrite Ei1 in Ei.
  refine (su_mono _ _ _ _ (file_close_ok g l Hg Hd Ht H2 w' f2 v2 Ho2 _ _ Hm) _); [unfold entry_apart; by rewrite Ed, Ei|lia|].
  intros _ s' [H1 H3]. unfold entry_updated in H3. rewrite Ed, Ei in H3. split; [|by rewrite H3].
  intros i Hi. rewrite H1, Hw by done. rewrite length_take, Nat.min_l, Z2Nat.id by lia.
  case_decide; [|done]. by rewrite lookup_take_lt by lia.
Qed.
End file.

(** ** The file of two clusters again, open for reading and writing *)
Definition notes : File := with_f_flags (Z.lor FAT_READ FAT_WRITE) text_file.

Lemma notes_layout : let g := a_layout (disk_avol 2 5 text_disk) in
  well_laid ram_disk g ∧ data_laid ram_disk g ∧ tables_first g ∧ ∀ c, c ∈ [2; 3] → 2 ≤ c.
Proof.
  split; [apply disk_well_laid|]. split; [split; cbn; lia|]. split; [vm_compute; split; [|split]; congruence|].
  intros c Hc. rewrite !elem_of_cons, elem_of_nil in Hc. lia.
Qed.

Lemma notes_opened : opened ram_disk (a_layout (disk_avol 2 5 text_disk)) [2; 3] (ram_sector text_disk) notes (disk_volume 2 5 text_disk).
Proof.
  destruct notes_layout as (Hg & Hd & Ht & H2).
  split; [done|exact text_chain|vm_compute; done|vm_compute; reflexivity..|apply zero_sector_wf| |].
  - intros off Hoff. pose proof (sector_of_data ram_disk _ _ Hd H2 _ _ off text_chain Hoff) as Hs. cbn in Hs |- *. lia.
  - exists (disk_avol 2 5 text_disk). split; [done|]. split; [apply disk_volume_represents|]. split; [|by intros _; vm_compute].
    intros t _. unfold set_sector. cbn [a_img disk_avol]. destruct (Z.eqb_spec t (f_sect notes)) as [->|]; [by vm_compute|done].
Qed.

Lemma notes_room : room (a_layout (disk_avol 2 5 text_disk)) [2; 3] = 4096.
Proof. reflexivity. Qed.

(** Five bytes across the boundary of the clusters. *)
Lemma write_read_back_witness :
  succeeds (fat_file_seek 2046 FAT_SEEK_START;; n ← fat_file_write [1; 2; 3; 4; 5; 6] 5;
            fat_file_seek 2046 FAT_SEEK_START;; r ← fat_file_read 5; mret (n, r)) (notes, disk_volume 2 5 text_disk)
    (λ r s', r = ((FAT_ERR_NONE, 5), (FAT_ERR_NONE, [1; 2; 3; 4; 5])) ∧ f_size s'.1 = 2051).
Proof.
  destruct notes_layout as (Hg & Hd & Ht & H2).
  refine (su_mono _ _ _ _ (write_read_back ram_disk _ [2; 3] _ notes _ 2046 [1; 2; 3; 4; 5; 6] 5 Hg Hd Ht H2 notes_opened eq_refl eq_refl _ _ _ _ _ _ _) _);
    [repeat constructor; lia|lia|cbn; lia|cbn; lia|lia|rewrite notes_room; lia|lia|].
  intros r s' (-> & Es & _). split; [reflexivity|]. by rewrite Es.
Defined.

Lemma write_close_spec_witness :
  succeeds (fat_file_seek 3000 FAT_SEEK_START;; fat_file_write [72; 105] 2;; fat_file_close) (notes, disk_volume 2 5 text_disk)
    (λ _ s', get8 (ram_sector (disk s'.2) 13) 441 = 105 ∧ get32 (ram_sector (disk s'.2) 20) 28 = 3002).
Proof.
  destruct notes_layout as (Hg & Hd & Ht & H2).
  assert (entry_apart ram_disk (a_layout (disk_avol 2 5 text_disk)) [2; 3] notes) as Hen.
  { split; [cbn; lia|]. split; [cbn; lia|]. intros i Hi.
    destruct (cluster_index ram_disk _ _ i Hd Hi) as [c Hc]. unfold sector_of. rewrite Hc. apply list_elem_of_lookup_2 in Hc.
    rewrite !elem_of_cons, elem_of_nil in Hc. intros E. change (20 = 8 + (c - 2) * 4 + (i / 512) mod 4) in E.
    pose proof (Z.mod_pos_bound (i / 512) 4). lia. }
  refine (su_mono _ _ _ _ (write_close_spec ram_disk _ [2; 3] _ notes _ 3000 [72; 105] 2 Hg Hd Ht H2 notes_opened Hen eq_refl _ _ _ _ _ _ _) _);
    [repeat constructor; lia|lia|cbn; lia|cbn; lia|lia|rewrite notes_room; lia|lia|].
  intros _ s' [Hb Hs]. split; [|exact Hs]. exact (Hb 3001 ltac:(rewrite notes_room; lia)).
Defined.
