(* ===== verification/Sd.v ===== *)
(** * The SD card driver: drivers/sd/sd.c

    The driver over the registers of the board.  A board is a type with the reads
    and writes of its memory-mapped registers ([Bus]); a read may change it.  What
    the driver says on the UART is the list [console]; delay, a loop without
    effects, is left out.

    wait_msec polls the timer until it has passed its target: [spin] is the number
    of polls the model follows, and [OutOfFuel] the answer when the target is
    not reached in as many (SdProps.v gives a number that is enough). *)
From stdpp Require Import base list strings.
From Stdlib Require Import ZArith Lia.
From S2P Require Import Prelude Mem FatFormat.

#[local] Open Scope Z_scope.

Class Bus (B : Type) := { read_reg : Z → B → Z * B; write_reg : Z → Z → B → B }.

(** ** Registers and constants *)
Definition MMIO_BASE : Z := 0x3F000000.
Definition emmc (offset : Z) : Z := VA_START + MMIO_BASE + 0x00300000 + offset.
Definition EMMC_BLKSIZECNT : Z := emmc 0x04.
Definition EMMC_ARG1 : Z := emmc 0x08.
Definition EMMC_CMDTM : Z := emmc 0x0C.
Definition EMMC_RESP0 : Z := emmc 0x10.
Definition EMMC_RESP1 : Z := emmc 0x14.
Definition EMMC_RESP2 : Z := emmc 0x18.
Definition EMMC_RESP3 : Z := emmc 0x1C.
Definition EMMC_DATA : Z := emmc 0x20.
Definition EMMC_STATUS : Z := emmc 0x24.
Definition EMMC_CONTROL0 : Z := emmc 0x28.
Definition EMMC_CONTROL1 : Z := emmc 0x2C.
Definition EMMC_INTERRUPT : Z := emmc 0x30.
Definition EMMC_INT_MASK : Z := emmc 0x34.
Definition EMMC_INT_EN : Z := emmc 0x38.
Definition EMMC_SLOTISR_VER : Z := emmc 0xFC.

Definition CMD_NEED_APP : Z := 0x80000000.
Definition CMD_RSPNS_48 : Z := 0x00020000.
Definition CMD_ERRORS_MASK : Z := 0xfff9c004.
Definition CMD_RCA_MASK : Z := 0xffff0000.
Definition CMD_GO_IDLE : Z := 0x00000000.
Definition CMD_ALL_SEND_CID : Z := 0x02010000.
Definition CMD_SEND_REL_ADDR : Z := 0x03020000.
Definition CMD_CARD_SELECT : Z := 0x07030000.
Definition CMD_SEND_IF_COND : Z := 0x08020000.
Definition CMD_STOP_TRANS : Z := 0x0C030000.
Definition CMD_READ_SINGLE : Z := 0x11220010.
Definition CMD_READ_MULTI : Z := 0x12220032.
Definition CMD_SET_BLOCKCNT : Z := 0x17020000.
Definition CMD_WRITE_SINGLE : Z := 0x18220000.
Definition CMD_WRITE_MULTI : Z := 0x19220022.
Definition CMD_APP_CMD : Z := 0x37000000.
Definition CMD_SET_BUS_WIDTH : Z := Z.lor 0x06020000 CMD_NEED_APP.
Definition CMD_SEND_OP_COND : Z := Z.lor 0x29020000 CMD_NEED_APP.
Definition CMD_SEND_SCR : Z := Z.lor 0x33220010 CMD_NEED_APP.

Definition SR_READ_AVAILABLE : Z := 0x00000800.
Definition SR_WRITE_AVAILABLE : Z := 0x00000400.
Definition SR_DAT_INHIBIT : Z := 0x00000002.
Definition SR_CMD_INHIBIT : Z := 0x00000001.
Definition SR_APP_CMD : Z := 0x00000020.

Definition INT_DATA_TIMEOUT : Z := 0x00100000.
Definition INT_CMD_TIMEOUT : Z := 0x00010000.
Definition INT_READ_RDY : Z := 0x00000020.
Definition INT_WRITE_RDY : Z := 0x00000010.
Definition INT_DATA_DONE : Z := 0x00000002.
Definition INT_CMD_DONE : Z := 0x00000001.
Definition INT_ERROR_MASK : Z := 0x017E8000.

Definition C0_HCTL_DWITDH : Z := 0x00000002.
Definition C1_SRST_HC : Z := 0x01000000.
Definition C1_TOUNIT_MAX : Z := 0x000e0000.
Definition C1_CLK_EN : Z := 0x00000004.
Definition C1_CLK_STABLE : Z := 0x00000002.
Definition C1_CLK_INTLEN : Z := 0x00000001.

Definition HOST_SPEC_NUM : Z := 0x00ff0000.
Definition HOST_SPEC_NUM_SHIFT : Z := 16.
Definition HOST_SPEC_V2 : Z := 1.

Definition SCR_SD_BUS_WIDTH_4 : Z := 0x00000400.
Definition SCR_SUPP_SET_BLKCNT : Z := 0x02000000.
Definition SCR_SUPP_CCS : Z := 0x00000001.

Definition ACMD41_VOLTAGE : Z := 0x00ff8000.
Definition ACMD41_CMD_COMPLETE : Z := 0x80000000.
Definition ACMD41_CMD_CCS : Z := 0x40000000.
Definition ACMD41_ARG_HC : Z := 0x51ff8000.

Definition SD_OK : Z := 0.
Definition SD_TIMEOUT : Z := -1.
Definition SD_ERROR : Z := -2.

(** The timer and the GPIO are read at their physical addresses. *)
Definition SYS_TIMER_BASE : Z := 0x3F003000.
Definition SYS_TIMER_CLOCK : Z := SYS_TIMER_BASE + 0x04.
Definition GPFSEL4 : Z := MMIO_BASE + 0x00200010.
Definition GPFSEL5 : Z := MMIO_BASE + 0x00200014.
Definition GPHEN1 : Z := MMIO_BASE + 0x00200068.
Definition GPPUD : Z := MMIO_BASE + 0x00200094.
Definition GPPUDCLK1 : Z := MMIO_BASE + 0x0020009C.

Definition newline : string := String (Ascii.ascii_of_nat 10) EmptyString.
Definition carriage_return : string := String (Ascii.ascii_of_nat 13) EmptyString.

(** ** The state: the variables of the file, the board, the terminal.
    [sd_scr] is the array of two, and sd_err holds its codes as an unsigned long. *)
Record Sd (B : Type) : Type := mk_Sd {
  sd_scr : list Z;
  sd_rca : Z;
  sd_err : Z;
  sd_hv : Z;
  board : B;
  console : list string
}.
Arguments mk_Sd {B}. Arguments sd_scr {B}. Arguments sd_rca {B}. Arguments sd_err {B}.
Arguments sd_hv {B}. Arguments board {B}. Arguments console {B}.

Definition with_scr {B} (v : list Z) (s : Sd B) : Sd B := mk_Sd v (sd_rca s) (sd_err s) (sd_hv s) (board s) (console s).
Definition with_rca {B} (v : Z) (s : Sd B) : Sd B := mk_Sd (sd_scr s) v (sd_err s) (sd_hv s) (board s) (console s).
Definition with_err {B} (v : Z) (s : Sd B) : Sd B := mk_Sd (sd_scr s) (sd_rca s) v (sd_hv s) (board s) (console s).
Definition with_hv {B} (v : Z) (s : Sd B) : Sd B := mk_Sd (sd_scr s) (sd_rca s) (sd_err s) v (board s) (console s).
Definition with_board {B} (b : B) (s : Sd B) : Sd B := mk_Sd (sd_scr s) (sd_rca s) (sd_err s) (sd_hv s) b (console s).
Definition with_console {B} (c : list string) (s : Sd B) : Sd B := mk_Sd (sd_scr s) (sd_rca s) (sd_err s) (sd_hv s) (board s) c.

Definition test (v mask : Z) : bool := negb (Z.land v mask =? 0).

Section driver.
Context {B : Type} `{!Bus B} (spin : nat).

Definition read (a : Z) : M (Sd B) Z := λ s,
  let '(v, b) := read_reg a (board s) in Done (u32 v, with_board b s).
Definition write (a v : Z) : M (Sd B) unit := modify (λ s, with_board (write_reg a (u32 v) (board s)) s).
Definition uart_puts (m : string) : M (Sd B) unit := modify (λ s, with_console (console s ++ [m]) s).

(** [sd_err = v], an int or an unsigned int converted to unsigned long. *)
Definition set_err (v : Z) : M (Sd B) unit := modify (with_err (u64 v)).
Definition scr0 : M (Sd B) Z := l ← gets sd_scr; require OutOfBounds (array_get l 0).

(** ** Waiting *)
Fixpoint wait_loop (fuel : nat) (target : Z) : M (Sd B) unit :=
  match fuel with
  | O => fail_with OutOfFuel
  | S fuel =>
    now ← read SYS_TIMER_CLOCK;
    if s32 (u32 (now - target)) <? 0 then wait_loop fuel target else mret tt
  end.

Definition wait_msec (n : Z) : M (Sd B) unit :=
  system_clock ← read SYS_TIMER_CLOCK;
  wait_loop spin (u32 (system_clock + u32 (n * 1000))).

(** [while (busy && cnt--) wait_msec(ms);] for [cnt = n]: what [cnt] is at the end,
    -1 when it ran out. *)
Fixpoint poll (n : nat) (busy : M (Sd B) bool) (ms : Z) : M (Sd B) Z :=
  b ← busy;
  if (b : bool) then
    match n with
    | O => mret (-1)
    | S n => wait_msec ms;; poll n busy ms
    end
  else mret (Z.of_nat n).

(** [*EMMC_INTERRUPT & INT_ERROR_MASK] *)
Definition int_error : M (Sd B) bool := i ← read EMMC_INTERRUPT; mret (test i INT_ERROR_MASK).

Definition sd_status (mask : Z) : M (Sd B) Z :=
  cnt ← poll (Z.to_nat 500000)
    (st ← read EMMC_STATUS;
     if test st mask then e ← int_error; mret (negb e) else mret false) 1;
  if cnt <=? 0 then mret SD_ERROR else
  e ← int_error; mret (if (e : bool) then SD_ERROR else SD_OK).

Definition sd_int (mask : Z) : M (Sd B) Z :=
  let m := Z.lor mask INT_ERROR_MASK in
  cnt ← poll (Z.to_nat 1000000) (i ← read EMMC_INTERRUPT; mret (negb (test i m))) 1;
  r ← read EMMC_INTERRUPT;
  if (cnt <=? 0) || test r INT_CMD_TIMEOUT || test r INT_DATA_TIMEOUT then
    write EMMC_INTERRUPT r;; mret SD_TIMEOUT
  else if test r INT_ERROR_MASK then write EMMC_INTERRUPT r;; mret SD_ERROR
  else write EMMC_INTERRUPT mask;; mret 0.

(** ** Commands *)

(** What sd_execute_command makes of the response [r] (an int) to [code]; the
    other response registers and sd_err where it uses them. *)
Definition command_result (code arg r : Z) : M (Sd B) Z :=
  if (code =? CMD_GO_IDLE) || (code =? CMD_APP_CMD) then mret 0
  else if code =? Z.lor CMD_APP_CMD CMD_RSPNS_48 then mret (Z.land r SR_APP_CMD)
  else if code =? CMD_SEND_OP_COND then mret r
  else if code =? CMD_SEND_IF_COND then mret (if u32 r =? arg then SD_OK else SD_ERROR)
  else if code =? CMD_ALL_SEND_CID then
    r3 ← read EMMC_RESP3;
    r2 ← read EMMC_RESP2;
    r1 ← read EMMC_RESP1;
    mret (s32 (Z.lor (Z.lor (Z.lor r r3) r2) r1))
  else if code =? CMD_SEND_REL_ADDR then
    set_err (Z.land (u32 (Z.lor (Z.lor (Z.lor (Z.land r 0x1fff) (Z.shiftl (Z.land r 0x2000) 6))
      (Z.shiftl (Z.land r 0x4000) 8)) (Z.shiftl (Z.land r 0x8000) 8))) CMD_ERRORS_MASK);;
    mret (s32 (Z.land (u32 r) CMD_RCA_MASK))
  else mret (s32 (Z.land (u32 r) CMD_ERRORS_MASK)).

(** The function from the test of [SR_CMD_INHIBIT] on. *)
Definition issue_command (code arg : Z) : M (Sd B) Z :=
  st ← sd_status SR_CMD_INHIBIT;
  if negb (st =? 0) then
    uart_puts ("ERROR: EMMC busy" +:+ newline);; set_err SD_TIMEOUT;; mret 0
  else
    i ← read EMMC_INTERRUPT;
    write EMMC_INTERRUPT i;;
    write EMMC_ARG1 arg;;
    write EMMC_CMDTM code;;
    (if code =? CMD_SEND_OP_COND then wait_msec 1000
     else if (code =? CMD_SEND_IF_COND) || (code =? CMD_APP_CMD) then wait_msec 100
     else mret tt);;
    r ← sd_int INT_CMD_DONE;
    if negb (r =? 0) then
      uart_puts ("ERROR: failed to send EMMC command" +:+ newline);; set_err r;; mret 0
    else
      r ← read EMMC_RESP0;
      command_result code arg (s32 r).

(** The call for the APP command has no [CMD_NEED_APP], so it does not call itself. *)
Definition sd_execute_command (code arg : Z) : M (Sd B) Z :=
  set_err SD_OK;;
  if test code CMD_NEED_APP then
    rca ← gets sd_rca;
    set_err SD_OK;;
    r ← issue_command (Z.lor CMD_APP_CMD (if rca =? 0 then 0 else CMD_RSPNS_48)) (u32 rca);
    rca ← gets sd_rca;
    if negb (rca =? 0) && (r =? 0) then
      uart_puts ("ERROR: failed to send SD APP command" +:+ newline);; set_err SD_ERROR;; mret 0
    else issue_command (Z.land code (Z.lnot CMD_NEED_APP)) arg
  else issue_command code arg.

(** ** Blocks *)

(** [buf[i]], an unsigned int of the buffer. *)
Definition get_word (buffer : list Z) (i : Z) : M (Sd B) Z :=
  if (i <? 0) || (Z.of_nat (length buffer) <? 4 * i + 4) then fail_with OutOfBounds
  else mret (get32 buffer (4 * i)).
Definition put_word (buffer : list Z) (i v : Z) : M (Sd B) (list Z) :=
  if (i <? 0) || (Z.of_nat (length buffer) <? 4 * i + 4) then fail_with OutOfBounds
  else mret (put32 (4 * i) v buffer).

(** [for (d = 0; d < n; d++) buf[d] = *EMMC_DATA;] from the [d]-th word on *)
Fixpoint read_words (n : nat) (d : Z) (buffer : list Z) : M (Sd B) (list Z) :=
  match n with
  | O => mret buffer
  | S n => w ← read EMMC_DATA; buffer ← put_word buffer d w; read_words n (d + 1) buffer
  end.
Fixpoint write_words (n : nat) (d : Z) (buffer : list Z) : M (Sd B) unit :=
  match n with
  | O => mret tt
  | S n => w ← get_word buffer d; write EMMC_DATA w;; write_words n (d + 1) buffer
  end.

Definition has_err : M (Sd B) bool := e ← gets sd_err; mret (negb (e =? 0)).

(** The commands before the blocks: [false] where the function returns 0. *)
Definition open_transfer (single multi lba num : Z) : M (Sd B) bool :=
  scr ← scr0;
  if test scr SCR_SUPP_CCS then
    ok ← (if (1 <? num) && test scr SCR_SUPP_SET_BLKCNT then
            sd_execute_command CMD_SET_BLOCKCNT num;; e ← has_err; mret (negb e)
          else mret true);
    if (ok : bool) then
      write EMMC_BLKSIZECNT (Z.lor (u32 (Z.shiftl num 16)) 512);;
      sd_execute_command (if num =? 1 then single else multi) lba;;
      e ← has_err; mret (negb e)
    else mret false
  else write EMMC_BLKSIZECNT (Z.lor (Z.shiftl 1 16) 512);; mret true.

(** The start of a turn of the loop: the command where each block needs one, and
    the controller ready for the block; [false] where the function returns 0. *)
Definition start_block (single lba c ready : Z) (message : string) : M (Sd B) bool :=
  scr ← scr0;
  ok ← (if test scr SCR_SUPP_CCS then mret true
        else sd_execute_command single (u32 (u32 (lba + c) * 512));; e ← has_err; mret (negb e));
  if (ok : bool) then
    r ← sd_int ready;
    if negb (r =? 0) then
      uart_puts (carriage_return +:+ message +:+ newline);; set_err r;; mret false
    else mret true
  else mret false.

Fixpoint read_blocks (n : nat) (lba c : Z) (buffer : list Z) : M (Sd B) (bool * list Z) :=
  match n with
  | O => mret (true, buffer)
  | S n =>
    ok ← start_block CMD_READ_SINGLE lba c INT_READ_RDY "ERROR: Timeout waiting for ready to read";
    if (ok : bool) then
      buffer ← read_words 128 (128 * c) buffer;
      read_blocks n lba (c + 1) buffer
    else mret (false, buffer)
  end.
Fixpoint write_blocks (n : nat) (lba c : Z) (buffer : list Z) : M (Sd B) bool :=
  match n with
  | O => mret true
  | S n =>
    ok ← start_block CMD_WRITE_SINGLE lba c INT_WRITE_RDY "ERROR: Timeout waiting for ready to write";
    if (ok : bool) then write_words 128 (128 * c) buffer;; write_blocks n lba (c + 1) buffer
    else mret false
  end.

(** The end of both functions, reached with [c = num]. *)
Definition close_transfer (num : Z) : M (Sd B) Z :=
  scr ← scr0;
  (if (1 <? num) && negb (test scr SCR_SUPP_SET_BLKCNT) && test scr SCR_SUPP_CCS
   then sd_execute_command CMD_STOP_TRANS 0;; mret tt else mret tt);;
  e ← has_err;
  mret (if (e : bool) then 0 else s32 (u32 (num * 512))).

(** The result and the buffer. *)
Definition sd_readblock (lba : Z) (buffer : list Z) (num : Z) : M (Sd B) (Z * list Z) :=
  let num := if num <? 1 then 1 else num in
  st ← sd_status SR_DAT_INHIBIT;
  if negb (st =? 0) then set_err SD_TIMEOUT;; mret (0, buffer) else
  ok ← open_transfer CMD_READ_SINGLE CMD_READ_MULTI lba num;
  if (ok : bool) then
    p ← read_blocks (Z.to_nat num) lba 0 buffer;
    if (p.1 : bool) then r ← close_transfer num; mret (r, p.2) else mret (0, p.2)
  else mret (0, buffer).

Definition sd_writeblock (buffer : list Z) (lba num : Z) : M (Sd B) Z :=
  let num := if num <? 1 then 1 else num in
  st ← sd_status (Z.lor SR_DAT_INHIBIT SR_WRITE_AVAILABLE);
  if negb (st =? 0) then set_err SD_TIMEOUT;; mret 0 else
  ok ← open_transfer CMD_WRITE_SINGLE CMD_WRITE_MULTI lba num;
  if (ok : bool) then
    ok ← write_blocks (Z.to_nat num) lba 0 buffer;
    if (ok : bool) then
      r ← sd_int INT_DATA_DONE;
      if negb (r =? 0) then
        uart_puts (carriage_return +:+ "ERROR: Timeout waiting for data done" +:+ newline);;
        set_err r;; mret 0
      else close_transfer num
    else mret 0
  else mret 0.

(** ** The clock *)

(** [if (!(x & mask)) { x <<= n; s -= n; }] *)
Definition narrow (mask n : Z) (p : Z * Z) : Z * Z :=
  if test p.1 mask then p else (u32 (Z.shiftl p.1 n), u32 (p.2 - n)).

(** [s] after the normalisation (line 320), for [x = c - 1] *)
Definition clock_shift (x : Z) : Z :=
  if x =? 0 then 0 else
  let p := narrow 0x80000000 1 (narrow 0xc0000000 2 (narrow 0xf0000000 4 (narrow 0xff000000 8
    (narrow 0xffff0000 16 (x, 32))))) in
  let s := if 0 <? p.2 then p.2 - 1 else p.2 in
  if 7 <? s then 7 else s.

(** [d] at line 328: the divisor *)
Definition clock_divisor (hv f : Z) : Z :=
  let c := 41666666 / f in
  let d := if HOST_SPEC_V2 <? hv then c else Z.shiftl 1 (clock_shift (u32 (c - 1))) in
  if d <=? 2 then 2 else d.

(** [d] at line 331: the divisor in the bits of [CONTROL1] *)
Definition clock_bits (hv f : Z) : Z :=
  let d := clock_divisor hv f in
  let h := if HOST_SPEC_V2 <? hv then Z.shiftr (Z.land d 0x300) 2 else 0 in
  Z.lor (Z.shiftl (Z.land d 0xff) 8) h.

Definition sd_set_clock (f : Z) : M (Sd B) Z :=
  cnt ← poll (Z.to_nat 100000)
    (st ← read EMMC_STATUS; mret (test st (Z.lor SR_CMD_INHIBIT SR_DAT_INHIBIT))) 1;
  if cnt <=? 0 then
    uart_puts ("ERROR: timeout waiting for inhibit flag" +:+ newline);; mret SD_ERROR
  else
    c1 ← read EMMC_CONTROL1;
    write EMMC_CONTROL1 (Z.land c1 (Z.lnot C1_CLK_EN));;
    wait_msec 10;;
    hv ← gets sd_hv;
    c1 ← read EMMC_CONTROL1;
    write EMMC_CONTROL1 (Z.lor (Z.land c1 0xffff003f) (clock_bits hv f));;
    wait_msec 10;;
    c1 ← read EMMC_CONTROL1;
    write EMMC_CONTROL1 (Z.lor c1 C1_CLK_EN);;
    wait_msec 10;;
    cnt ← poll (Z.to_nat 10000)
      (c1 ← read EMMC_CONTROL1; mret (negb (test c1 C1_CLK_STABLE))) 10;
    if cnt <=? 0 then
      uart_puts ("ERROR: failed to get stable clock" +:+ newline);; mret SD_ERROR
    else mret SD_OK.

(** ** Start-up *)
Definition enable_card_detect : M (Sd B) unit :=
  r ← read GPFSEL4;
  write GPFSEL4 (Z.land r (Z.lnot (Z.shiftl 7 (7 * 3))));;
  write GPPUD 2;;
  write GPPUDCLK1 (Z.shiftl 1 15);;
  write GPPUD 0;;
  write GPPUDCLK1 0;;
  r ← read GPHEN1;
  write GPHEN1 (Z.lor r (Z.shiftl 1 15)).

Definition enable_clock_and_command : M (Sd B) unit :=
  r ← read GPFSEL4;
  write GPFSEL4 (Z.lor r (Z.lor (Z.shiftl 7 (8 * 3)) (Z.shiftl 7 (9 * 3))));;
  write GPPUD 2;;
  write GPPUDCLK1 (Z.lor (Z.shiftl 1 16) (Z.shiftl 1 17));;
  write GPPUD 0;;
  write GPPUDCLK1 0.

Definition enable_data_pins : M (Sd B) unit :=
  r ← read GPFSEL5;
  write GPFSEL5 (Z.lor r (Z.lor (Z.lor (Z.lor (Z.shiftl 7 (0 * 3)) (Z.shiftl 7 (1 * 3)))
    (Z.shiftl 7 (2 * 3))) (Z.shiftl 7 (3 * 3))));;
  write GPPUD 2;;
  k ← read GPPUDCLK1;
  write GPPUDCLK1 (Z.lor k (Z.lor (Z.lor (Z.lor (Z.shiftl 1 18) (Z.shiftl 1 19)) (Z.shiftl 1 20))
    (Z.shiftl 1 21)));;
  write GPPUD 0;;
  write GPPUDCLK1 0.

(** [do { wait_msec(10); } while (busy && cnt--)] *)
Definition reset_emmc : M (Sd B) Z :=
  write EMMC_CONTROL0 0;;
  c1 ← read EMMC_CONTROL1;
  write EMMC_CONTROL1 (Z.lor c1 C1_SRST_HC);;
  wait_msec 10;;
  poll (Z.to_nat 10000) (c1 ← read EMMC_CONTROL1; mret (test c1 C1_SRST_HC)) 10.

(** The loop of enable_card with [cnt = n]: [inl] a code it returns, [inr] the last
    response and [cnt]. *)
Fixpoint card_loop (n : nat) (r : Z) : M (Sd B) (Z + Z * Z) :=
  if test r ACMD41_CMD_COMPLETE then mret (inr (r, Z.of_nat n)) else
  match n with
  | O => mret (inr (r, -1))
  | S n =>
    r ← sd_execute_command CMD_SEND_OP_COND ACMD41_ARG_HC;
    e ← gets sd_err;
    if negb (s32 e =? SD_TIMEOUT) && negb (s32 e =? SD_OK) then
      uart_puts ("ERROR: EMMC ACMD41 returned error" +:+ newline);; mret (inl (s32 e))
    else card_loop n r
  end.

(** The result, and [*ccs]. *)
Definition enable_card (ccs : Z) : M (Sd B) (Z * Z) :=
  p ← card_loop 6 0;
  match p with
  | inl e => mret (e, ccs)
  | inr (r, cnt) =>
    if negb (test r ACMD41_CMD_COMPLETE) || (cnt =? 0) then mret (SD_TIMEOUT, ccs)
    else if negb (test r ACMD41_VOLTAGE) then mret (SD_ERROR, ccs)
    else mret (SD_OK, if test r ACMD41_CMD_CCS then SCR_SUPP_CCS else ccs)
  end.

(** [while (r < 2 && cnt)], where nothing changes [cnt]. *)
Fixpoint scr_loop (fuel : nat) (r cnt : Z) : M (Sd B) Z :=
  if negb ((r <? 2) && negb (cnt =? 0)) then mret r else
  match fuel with
  | O => fail_with OutOfFuel
  | S fuel =>
    st ← read EMMC_STATUS;
    if test st SR_READ_AVAILABLE then
      w ← read EMMC_DATA;
      l ← gets sd_scr;
      l ← require OutOfBounds (array_set l r w);
      modify (with_scr l);;
      scr_loop fuel (r + 1) cnt
    else wait_msec 1;; scr_loop fuel r cnt
  end.

(** [sd_execute_command(code, arg); if (sd_err) return sd_err;] before [k] *)
Definition checked (m : M (Sd B) Z) (k : Z → M (Sd B) Z) : M (Sd B) Z :=
  r ← m;
  e ← gets sd_err;
  if negb (e =? 0) then mret (s32 e) else k r.

(** sd_init from the selection of the card on. *)
Definition select_card (ccs : Z) : M (Sd B) Z :=
  rca ← gets sd_rca;
  checked (sd_execute_command CMD_CARD_SELECT (u32 rca)) (λ _,
  st ← sd_status SR_DAT_INHIBIT;
  if negb (st =? 0) then mret SD_TIMEOUT else
  write EMMC_BLKSIZECNT (Z.lor (Z.shiftl 1 16) 8);;
  checked (sd_execute_command CMD_SEND_SCR 0) (λ _,
  r ← sd_int INT_READ_RDY;
  if negb (r =? 0) then mret SD_TIMEOUT else
  r ← scr_loop spin 0 100000;
  if negb (r =? 2) then mret SD_TIMEOUT else
  let finish : M (Sd B) Z :=
    scr ← scr0;
    l ← gets sd_scr;
    l ← require OutOfBounds (array_set l 0 (Z.lor (Z.land scr (Z.lnot SCR_SUPP_CCS)) ccs));
    modify (with_scr l);;
    mret SD_OK in
  scr ← scr0;
  if test scr SCR_SD_BUS_WIDTH_4 then
    rca ← gets sd_rca;
    checked (sd_execute_command CMD_SET_BUS_WIDTH (u32 (Z.lor rca 2))) (λ _,
    c0 ← read EMMC_CONTROL0;
    write EMMC_CONTROL0 (Z.lor c0 C0_HCTL_DWITDH);;
    finish)
  else finish)).

Definition sd_init : M (Sd B) Z :=
  enable_card_detect;; enable_clock_and_command;; enable_data_pins;;
  ver ← read EMMC_SLOTISR_VER;
  modify (with_hv (Z.shiftr (Z.land ver HOST_SPEC_NUM) HOST_SPEC_NUM_SHIFT));;
  cnt ← reset_emmc;
  if cnt <=? 0 then uart_puts ("[ERROR] Failed to reset EMMC" +:+ newline);; mret SD_ERROR else
  c1 ← read EMMC_CONTROL1;
  write EMMC_CONTROL1 (Z.lor c1 (Z.lor C1_CLK_INTLEN C1_TOUNIT_MAX));;
  wait_msec 10;;
  r ← sd_set_clock 400000;
  if negb (r =? 0) then mret r else
  write EMMC_INT_EN 0xffffffff;;
  write EMMC_INT_MASK 0xffffffff;;
  modify (with_scr [0; 0] ∘ with_rca 0 ∘ with_err 0);;
  checked (sd_execute_command CMD_GO_IDLE 0) (λ _,
  checked (sd_execute_command CMD_SEND_IF_COND 0x000001AA) (λ _,
  p ← enable_card 0;
  if negb (p.1 =? SD_OK) then mret p.1 else
  sd_execute_command CMD_ALL_SEND_CID 0;;
  checked (rca ← sd_execute_command CMD_SEND_REL_ADDR 0; modify (with_rca (u64 rca));; mret rca) (λ _,
  r ← sd_set_clock 25000000;
  if negb (r =? 0) then mret r else select_card p.2))).
End driver.
