(* ===== verification/Video.v ===== *)
(** * The mailbox and the framebuffer: drivers/mbox, drivers/framebuffer

    The mailbox of the video processor over the registers of a board ([Bus], of
    Sd.v), the message that sets the screen up, and printing with a PSF font.  What
    the video processor leaves in the message buffer is the interface [Gpu].  The
    polling loops have no bound; [spin] is the number of polls the model follows. *)
From stdpp Require Import base gmap list.
From Stdlib Require Import ZArith Lia.
From S2P Require Import Prelude Mem CString Sd.

#[local] Open Scope Z_scope.

(** ** arch/mmio.h *)
Definition mmio (reg : Z) : Z := VA_START + 0x3F000000 + reg.

(** The variables of both files and the board: [fb_address] is 0 before the screen
    is set up. *)
Record Video (B : Type) : Type := mk_Video {
  mbox : list Z;
  fb_address : Z;
  fb_width : Z;
  fb_height : Z;
  fb_pitch : Z;
  fb_isrgb : Z;
  vboard : B
}.
Arguments mk_Video {B}. Arguments mbox {B}. Arguments fb_address {B}. Arguments fb_width {B}. Arguments fb_height {B}.
Arguments fb_pitch {B}. Arguments fb_isrgb {B}. Arguments vboard {B}.

Definition with_mbox {B} (l : list Z) (s : Video B) : Video B :=
  mk_Video l (fb_address s) (fb_width s) (fb_height s) (fb_pitch s) (fb_isrgb s) (vboard s).
Definition with_vboard {B} (b : B) (s : Video B) : Video B :=
  mk_Video (mbox s) (fb_address s) (fb_width s) (fb_height s) (fb_pitch s) (fb_isrgb s) b.

(** The message buffer after the video processor has answered the message in it. *)
Class Gpu (B : Type) := { gpu_reply : list Z → B → list Z }.

Definition MBOX_BASE : Z := 0xB880.
Definition MBOX_READ : Z := MBOX_BASE + 0x00.
Definition MBOX_STATUS : Z := MBOX_BASE + 0x18.
Definition MBOX_WRITE : Z := MBOX_BASE + 0x20.
Definition MBOX_REQUEST : Z := 0.
Definition MBOX_CH_PROP : Z := 8.
Definition MBOX_TAG_LAST : Z := 0.
Definition MBOX_TAG_SETCLKRATE : Z := 0x38002.
Definition MBOX_TAG_ALLOCFB : Z := 0x40001.
Definition MBOX_TAG_GETPITCH : Z := 0x40008.
Definition MBOX_TAG_SETPHYWH : Z := 0x48003.
Definition MBOX_TAG_SETVIRTWH : Z := 0x48004.
Definition MBOX_TAG_SETDEPTH : Z := 0x48005.
Definition MBOX_TAG_SETPIXLORDR : Z := 0x48006.
Definition MBOX_TAG_SETVIRTOFST : Z := 0x48009.
Definition MBOX_RESPONSE : Z := 0x80000000.
Definition MBOX_FULL : Z := 0x80000000.
Definition MBOX_EMPTY : Z := 0x40000000.
Definition MBOX_MAIL_CHANNEL_MASK : Z := 0xF.

Definition WIDTH : Z := 1024.
Definition HEIGHT : Z := 768.
Definition DEPTH : Z := 32.

Section mailbox.
Context {B : Type} `{!Bus B, !Gpu B} (spin : nat).

(** The address of the array [mbox]. *)
Context (mbox_address : Z).

Definition mmio_read (reg : Z) : M (Video B) Z := λ s,
  let '(v, b) := read_reg (mmio reg) (vboard s) in Done (u32 v, with_vboard b s).
Definition mmio_write (reg data : Z) : M (Video B) unit := modify (λ s, with_vboard (write_reg (mmio reg) (u32 data) (vboard s)) s).

(** [while (mmio_read(MBOX_STATUS) & MBOX_FULL) {}] *)
Fixpoint wait_room (fuel : nat) : M (Video B) unit :=
  match fuel with
  | O => fail_with OutOfFuel
  | S fuel => st ← mmio_read MBOX_STATUS; if test st MBOX_FULL then wait_room fuel else mret tt
  end.

(** [while ((mmio_read(MBOX_STATUS) & MBOX_EMPTY) || mmio_read(MBOX_READ) != r) {}] *)
Fixpoint wait_reply (fuel : nat) (r : Z) : M (Video B) unit :=
  match fuel with
  | O => fail_with OutOfFuel
  | S fuel =>
    st ← mmio_read MBOX_STATUS;
    if test st MBOX_EMPTY then wait_reply fuel r else
    v ← mmio_read MBOX_READ;
    if negb (v =? r) then wait_reply fuel r else mret tt
  end.

Definition get_mbox (i : Z) : M (Video B) Z := l ← gets mbox; require OutOfBounds (array_get l i).

(** The message is answered between the write and the reply. *)
Definition mbox_call (channel : Z) : M (Video B) bool :=
  let physical_mbox := u64 (mbox_address - VA_START) in
  let r := Z.lor (Z.land physical_mbox (Z.lnot MBOX_MAIL_CHANNEL_MASK)) (Z.land channel MBOX_MAIL_CHANNEL_MASK) in
  wait_room spin;;
  mmio_write MBOX_WRITE r;;
  wait_reply spin r;;
  modify (λ s, with_mbox (gpu_reply (mbox s) (vboard s)) s);;
  v ← get_mbox 1;
  mret (v =? MBOX_RESPONSE).

(** [mbox[0] = ...; mbox[1] = ...;] from the start of the array *)
Definition fill_mbox (l : list Z) : M (Video B) unit := modify (λ s, with_mbox (l ++ drop (length l) (mbox s)) s).

(** ** framebuffer_init *)
Definition screen_message : list Z := [
  35 * 4; MBOX_REQUEST;
  MBOX_TAG_SETPHYWH; 8; 8; WIDTH; HEIGHT;
  MBOX_TAG_SETVIRTWH; 8; 8; WIDTH; HEIGHT;
  MBOX_TAG_SETVIRTOFST; 8; 8; 0; 0;
  MBOX_TAG_SETDEPTH; 4; 4; DEPTH;
  MBOX_TAG_SETPIXLORDR; 4; 4; 1;
  MBOX_TAG_ALLOCFB; 8; 8; 4096; 0;
  MBOX_TAG_GETPITCH; 4; 4; 0;
  MBOX_TAG_LAST].

Definition framebuffer_init : M (Video B) bool :=
  fill_mbox screen_message;;
  answered ← mbox_call MBOX_CH_PROP;
  depth ← get_mbox 20;
  base ← get_mbox 28;
  let ok := (answered : bool) && (depth =? DEPTH) && negb (base =? 0) in
  if ok then
    w ← get_mbox 5; h ← get_mbox 6; p ← get_mbox 33; c ← get_mbox 24;
    modify (λ s, mk_Video (mbox s) (Z.land base 0x3FFFFFFF) w h p c (vboard s));;
    mret true
  else mret false.

(** ** uart_init: drivers/uart/uart.c *)
Definition UART0_BASE : Z := 0x201000.
Definition UART0_IBRD : Z := UART0_BASE + 0x24.
Definition UART0_FBRD : Z := UART0_BASE + 0x28.
Definition UART0_LCRH : Z := UART0_BASE + 0x2C.
Definition UART0_CR : Z := UART0_BASE + 0x30.
Definition UART0_IMSC : Z := UART0_BASE + 0x38.
Definition UART0_ICR : Z := UART0_BASE + 0x44.
Definition GPIO_PUD : Z := 0x00200094.
Definition GPIO_PUDCLK0 : Z := 0x00200098.

Definition clock_message : list Z := [9 * 4; MBOX_REQUEST; MBOX_TAG_SETCLKRATE; 12; 8; 2; 30000000; 0; MBOX_TAG_LAST].

(** [1 << i | 1 << j | ...] *)
Definition bits (l : list Z) : Z := foldr (λ i v, Z.lor (Z.shiftl 1 i) v) 0 l.

(** [mmio_write( *GPPUD, v)]: GPPUD is a macro for a pointer, so the register's
    value is what is written to. *)
Definition uart_init : M (Video B) unit :=
  mmio_write UART0_CR 0x00000000;;
  pud ← mmio_read GPIO_PUD; mmio_write pud 0x00000000;;
  clk ← mmio_read GPIO_PUDCLK0; mmio_write clk (bits [14; 15]);;
  clk ← mmio_read GPIO_PUDCLK0; mmio_write clk 0x00000000;;
  mmio_write UART0_ICR 0x7FF;;
  fill_mbox clock_message;;
  mbox_call MBOX_CH_PROP;;
  mmio_write UART0_IBRD 1;;
  mmio_write UART0_FBRD 40;;
  mmio_write UART0_LCRH (bits [4; 5; 6]);;
  mmio_write UART0_IMSC (bits [1; 4; 5; 6; 7; 8; 9; 10]);;
  mmio_write UART0_CR (bits [0; 8; 9]).
End mailbox.

(** ** Printing: the screen, the font and the string are in one memory *)

(** The fields of [psf_t], and its first glyph byte's place. *)
Definition headersize (font : Z) (m : mem) : Z := load32 (font + 8) m.
Definition numglyph (font : Z) (m : mem) : Z := load32 (font + 16) m.
Definition bytesperglyph (font : Z) (m : mem) : Z := load32 (font + 20) m.
Definition font_height (font : Z) (m : mem) : Z := load32 (font + 24) m.
Definition font_width (font : Z) (m : mem) : Z := load32 (font + 28) m.

Section printing.
(** [framebuffer_address], [pitch] and [&__font_start]. *)
Context (fb pitch font : Z).

(** [for (i = 0; i < font->width; i++)]: one row of a glyph. *)
Fixpoint row_loop (fuel : nat) (glyph i mask line : Z) : M mem unit :=
  match fuel with
  | O => fail_with OutOfFuel
  | S fuel =>
    w ← gets (font_width font);
    if i <? w then
      g ← getc glyph;
      modify (store32 (fb + line) (if Z.land g mask =? 0 then 0 else 0xFFFFFF));;
      row_loop fuel glyph (i + 1) (Z.shiftr mask 1) (line + 4)
    else mret tt
  end.

(** [for (j = 0; j < font->height; j++)]: the rows. *)
Fixpoint glyph_loop (fuel : nat) (bytesperline glyph j offs : Z) : M mem unit :=
  match fuel with
  | O => fail_with OutOfFuel
  | S fuel =>
    h ← gets (font_height font);
    if j <? h then
      w ← gets (font_width font);
      row_loop (S (Z.to_nat w)) glyph 0 (s32 (Z.shiftl 1 (w - 1))) offs;;
      glyph_loop fuel bytesperline (glyph + bytesperline) (j + 1) (s32 (u32 (offs + pitch)))
    else mret tt
  end.

(** The body of the loop for the character [c]: the next position. *)
Definition print_char (x y c : Z) : M mem (Z * Z) :=
  m ← gets id;
  let glyph := font + headersize font m + u32 ((if c <? numglyph font m then c else 0) * bytesperglyph font m) in
  let offs := s32 (u32 (u32 (y * pitch) + x * 4)) in
  let bytesperline := u32 (font_width font m + 7) / 8 in
  if c =? 13 then mret (0, y)
  else if c =? 10 then mret (0, s32 (u32 (y + font_height font m)))
  else
    glyph_loop (S (Z.to_nat (font_height font m))) bytesperline glyph 0 offs;;
    w ← gets (font_width font);
    mret (s32 (u32 (x + u32 (w + 1))), y).

(** [while ( *s ) { ...; s++; }] *)
Fixpoint print_loop (fuel : nat) (x y s : Z) : M mem unit :=
  match fuel with
  | O => fail_with OutOfFuel
  | S fuel =>
    c ← getc s;
    if c =? 0 then mret tt else
    p ← print_char x y c;
    print_loop fuel p.1 p.2 (s + 1)
  end.
Definition framebuffer_print (x y s : Z) : M mem unit := fuel ← gets string_fuel; print_loop fuel x y s.
End printing.
