(* ===== verification/VideoProps.v ===== *)
(** * Printing on the framebuffer

    The loops of framebuffer_print against a picture: a function from the
    coordinates to the colours. *)
From stdpp Require Import base gmap list.
From Stdlib Require Import ZArith Lia.
From S2P Require Import Prelude Mem CString Video.

#[local] Open Scope Z_scope.
#[local] Opaque load_le store_le.

Lemma land_pow2 g k : 0 ≤ k → (Z.land g (2 ^ k) =? 0) = negb (Z.testbit g k).
Proof.
  intros Hk. destruct (Z.testbit g k) eqn:E; cbn [negb].
  - apply Z.eqb_neq. intros H. assert (Z.testbit (Z.land g (2 ^ k)) k = true) as H1 by (rewrite Z.land_spec, E, Z.pow2_bits_true by done; done).
    rewrite H, Z.testbit_0_l in H1. done.
  - apply Z.eqb_eq. apply Z.bits_inj'. intros n Hn. rewrite Z.land_spec, Z.testbit_0_l, Z.pow2_bits_eqb by done.
    destruct (Z.eqb_spec k n) as [<-|]; [by rewrite E|by rewrite andb_false_r].
Qed.

Section printing.
(** The screen: [rows] lines of [pitch] bytes at [fb]; the font and what it says. *)
Context (fb pitch rows font w h : Z).
Context (Hpitch : 0 < pitch < 2 ^ 31) (Hscreen : rows * pitch < 2 ^ 31) (Hw : 1 ≤ w ≤ 31) (Hh : 1 ≤ h < 2 ^ 31).

Definition on_screen (x : Z) : Prop := fb ≤ x < fb + rows * pitch.
Definition off_screen (a n : Z) : Prop := a + n ≤ fb ∨ fb + rows * pitch ≤ a.

(** A memory that differs on the screen only. *)
Definition redrawn (m m' : mem) : Prop := ∀ x, ¬ on_screen x → byte_at m' x = byte_at m x.

(** The font: its header is off the screen, and so are the bytes of its glyphs. *)
Definition glyph_at (m : mem) (c : Z) : Z := font + headersize font m + u32 ((if c <? numglyph font m then c else 0) * bytesperglyph font m).
Definition line_bytes : Z := (w + 7) / 8.
Record font_ok (m : mem) : Prop := mk_font_ok {
  fo_width : font_width font m = w;
  fo_height : font_height font m = h;
  fo_header : off_screen font 32;
  fo_glyph : ∀ c j, 0 ≤ c < 256 → 0 ≤ j < h → ¬ on_screen (glyph_at m c + j * line_bytes)
}.

(** The colour of the pixel [i], [j] of the character [c]. *)
Definition ink (m : mem) (c i j : Z) : Z :=
  if Z.testbit (byte_at m (glyph_at m c + j * line_bytes)) (w - 1 - i) then 0xFFFFFF else 0.

Lemma redrawn_field m m' i : off_screen font 32 → 0 ≤ i → i + 4 ≤ 32 → redrawn m m' → load32 (font + i) m' = load32 (font + i) m.
Proof. intros Hf Hi Hi' Hr. apply load_le_ext. intros x Hx. apply Hr. unfold off_screen, on_screen in *. lia. Qed.

Lemma redrawn_glyph m m' c : off_screen font 32 → redrawn m m' → glyph_at m' c = glyph_at m c.
Proof.
  intros Hf Hr. unfold glyph_at, headersize, numglyph, bytesperglyph.
  by rewrite !(redrawn_field m m') by (done || lia).
Qed.

Lemma redrawn_font m m' : redrawn m m' → font_ok m → font_ok m'.
Proof.
  intros Hr [H1 H2 H3 H4]. unfold font_width, font_height in *. split.
  - unfold font_width. by rewrite (redrawn_field m m') by (done || lia).
  - unfold font_height. by rewrite (redrawn_field m m') by (done || lia).
  - done.
  - intros c j. rewrite (redrawn_glyph m m') by done. apply H4.
Qed.

Lemma redrawn_ink m m' c i j : redrawn m m' → font_ok m → 0 ≤ c < 256 → 0 ≤ j < h → ink m' c i j = ink m c i j.
Proof.
  intros Hr Hf Hc Hj. unfold ink. rewrite (redrawn_glyph m m') by (done || apply Hf). by rewrite (Hr _ (fo_glyph _ Hf c j Hc Hj)).
Qed.

Lemma redrawn_trans m1 m2 m3 : redrawn m1 m2 → redrawn m2 m3 → redrawn m1 m3.
Proof. intros H1 H2 x Hx. rewrite H2, H1; done. Qed.

(** ** One row *)
Lemma row_loop_run fuel m glyph i line :
  font_ok m → ¬ on_screen glyph → 0 ≤ i ≤ w → 0 ≤ line → line + 4 * (w - i) ≤ rows * pitch → w - i < Z.of_nat fuel →
  ∃ m', row_loop fb font fuel glyph i (Z.shiftr (2 ^ (w - 1)) i) line m = Done (tt, m') ∧
    (∀ k, i ≤ k < w → load32 (fb + line + 4 * (k - i)) m' = if Z.testbit (byte_at m glyph) (w - 1 - k) then 0xFFFFFF else 0) ∧
    ∀ x, ¬ fb + line ≤ x < fb + line + 4 * (w - i) → byte_at m' x = byte_at m x.
Proof.
  revert m i line. induction fuel as [|fuel IH]; intros m i line Hf Hg Hi Hl Hle Hfu; [lia|]. cbn [row_loop]. mrun.
  rewrite (fo_width _ Hf). destruct (Z.ltb_spec i w) as [Hlt|Hge].
  2: { exists m. split; [done|]. split; [lia|done]. }
  unfold getc. mrun. set (v := if Z.land _ _ =? 0 then 0 else 0xFFFFFF).
  assert (v = if Z.testbit (byte_at m glyph) (w - 1 - i) then 0xFFFFFF else 0) as Hv.
  { unfold v. rewrite Z.shiftr_div_pow2 by lia. rewrite <- Z.pow_sub_r by lia. rewrite land_pow2 by lia. by destruct (Z.testbit _ _). }
  set (m1 := store32 (fb + line) v m).
  assert (∀ x, ¬ fb + line ≤ x < fb + line + 4 → byte_at m1 x = byte_at m x) as Hx1
    by (intros x Hx; unfold m1; by rewrite byte_at_store_le, decide_False by (change (Z.of_nat 4) with 4; lia)).
  assert (redrawn m m1) as Hr by (intros x Hx; apply Hx1; unfold on_screen in Hx; lia).
  rewrite Z.shiftr_shiftr by lia.
  destruct (IH m1 (i + 1) (line + 4)) as (m' & E & Hp & Hx); [by eapply redrawn_font|done|lia..|].
  exists m'. split; [exact E|]. split.
  - intros k Hk. destruct (decide (k = i)) as [->|Hne].
    + rewrite Z.sub_diag, Z.add_0_r.
      transitivity (load32 (fb + line) m1); [apply load_le_ext; intros x Hx'; apply Hx; lia|].
      unfold m1. rewrite load_store_le, <- Hv. unfold v. by destruct (_ =? 0).
    + replace (fb + line + 4 * (k - i)) with (fb + (line + 4) + 4 * (k - (i + 1))) by lia. rewrite Hp by lia. by rewrite (Hr _ Hg).
  - intros x Hx'. rewrite Hx by lia. apply Hx1. lia.
Qed.

(** ** One character *)
Lemma glyph_loop_run fuel m c j offs :
  font_ok m → 0 ≤ c < 256 → 0 ≤ j ≤ h → 4 * w ≤ pitch → 0 ≤ offs → (j < h → offs + (h - 1 - j) * pitch + 4 * w ≤ rows * pitch) → h - j < Z.of_nat fuel →
  ∃ m', glyph_loop fb pitch font fuel line_bytes (glyph_at m c + j * line_bytes) j offs m = Done (tt, m') ∧
    (∀ r i, j ≤ r < h → 0 ≤ i < w → load32 (fb + offs + (r - j) * pitch + 4 * i) m' = ink m c i r) ∧
    ∀ x, (∀ r, j ≤ r < h → ¬ fb + offs + (r - j) * pitch ≤ x < fb + offs + (r - j) * pitch + 4 * w) → byte_at m' x = byte_at m x.
Proof.
  revert m j offs. induction fuel as [|fuel IH]; intros m j offs Hf Hc Hj Hwp Ho Hle Hfu; [lia|]. cbn [glyph_loop]. mrun.
  rewrite (fo_height _ Hf). destruct (Z.ltb_spec j h) as [Hlt|Hge].
  2: { exists m. split; [done|]. split; [lia|done]. }
  mrun. rewrite (fo_width _ Hf). specialize (Hle Hlt).
  assert (0 ≤ (h - 1 - j) * pitch) as Hnn by (apply Z.mul_nonneg_nonneg; lia).
  assert (s32 (Z.shiftl 1 (w - 1)) = Z.shiftr (2 ^ (w - 1)) 0) as ->.
  { rewrite Z.shiftr_0_r, Z.shiftl_1_l, s32_id; [done|]. pose proof (Z.pow_le_mono_r 2 (w - 1) 30 ltac:(lia) ltac:(lia)).
    pose proof (Z.pow_nonneg 2 (w - 1)). lia. }
  destruct (row_loop_run (S (Z.to_nat w)) m (glyph_at m c + j * line_bytes) 0 offs) as (m1 & E1 & Hp1 & Hx1); [done|apply (fo_glyph _ Hf); lia|lia..|].
  rewrite (bind_done _ _ _ _ _ E1).
  assert (redrawn m m1) as Hr by (intros x Hx; apply Hx1; unfold on_screen in Hx; lia).
  destruct (decide (j + 1 = h)) as [Hlast|Hmore].
  { exists m1. split; [|split].
    - destruct fuel as [|fuel]; [lia|]. cbn [glyph_loop]. mrun. rewrite (fo_height _ (redrawn_font _ _ Hr Hf)). by rewrite (proj2 (Z.ltb_ge _ _)) by lia.
    - intros r i Hr' Hi. assert (r = j) as -> by lia. rewrite Z.sub_diag. replace (fb + offs + 0 * pitch + 4 * i) with (fb + offs + 4 * (i - 0)) by lia.
      by apply Hp1.
    - intros x Hx. apply Hx1. specialize (Hx j ltac:(lia)). lia. }
  assert (offs + pitch ≤ rows * pitch) as Hnext by nia.
  rewrite u32_id, s32_id by lia.
  replace (glyph_at m c + j * line_bytes + line_bytes) with (glyph_at m1 c + (j + 1) * line_bytes)
    by (rewrite (redrawn_glyph m m1) by (done || apply Hf); lia).
  destruct (IH m1 (j + 1) (offs + pitch)) as (m' & E & Hp & Hx); [by eapply redrawn_font|done|lia|done|lia| |lia|].
  { intros _. replace (h - 1 - (j + 1)) with (h - 1 - j - 1) by lia. lia. }
  exists m'. split; [exact E|]. split.
  - intros r i Hr' Hi. destruct (decide (r = j)) as [->|Hne].
    + rewrite Z.sub_diag. replace (fb + offs + 0 * pitch + 4 * i) with (fb + offs + 4 * (i - 0)) by lia.
      transitivity (load32 (fb + offs + 4 * (i - 0)) m1); [|by apply Hp1]. apply load_le_ext. intros x Hx'. apply Hx. intros r Hr2. assert (pitch ≤ (r - j) * pitch) by nia. lia.
    + replace (fb + offs + (r - j) * pitch + 4 * i) with (fb + (offs + pitch) + (r - (j + 1)) * pitch + 4 * i) by lia.
      rewrite Hp by lia. by apply redrawn_ink; [|..|lia].
  - intros x Hx'. rewrite Hx; [apply Hx1|].
    + specialize (Hx' j ltac:(lia)). lia.
    + intros r Hr'. specialize (Hx' r ltac:(lia)). lia.
Qed.

(** ** Pictures *)
Definition pixel (m : mem) (X Y : Z) : Z := load32 (fb + Y * pitch + 4 * X) m.

(** A picture with a character of [w] by [h] drawn at [x], [y]. *)
Definition stamp (glyph : Z → Z → Z) (x y : Z) (old : Z → Z → Z) (X Y : Z) : Z :=
  if decide (x ≤ X < x + w ∧ y ≤ Y < y + h) then glyph (X - x) (Y - y) else old X Y.

(** Text written from [x], [y] on: a carriage return goes to the left, a line feed
    to the left of the next line, other characters are drawn a column apart. *)
Fixpoint picture (glyph : Z → Z → Z → Z) (l : list Z) (x y : Z) (old : Z → Z → Z) : Z → Z → Z :=
  match l with
  | [] => old
  | c :: l =>
    if c =? 13 then picture glyph l 0 y old
    else if c =? 10 then picture glyph l 0 (y + h) old
    else picture glyph l (x + w + 1) y (stamp (glyph c) x y old)
  end.

(** Every character that is drawn is on the screen. *)
Fixpoint fits (l : list Z) (x y : Z) : bool :=
  match l with
  | [] => true
  | c :: l =>
    if c =? 13 then fits l 0 y
    else if c =? 10 then (0 <=? y) && (y + h <? 2 ^ 31) && fits l 0 (y + h)
    else (0 <=? x) && (4 * (x + w) <=? pitch) && (0 <=? y) && (y + h <=? rows) && fits l (x + w + 1) y
  end.

Definition visible (X Y : Z) : Prop := 0 ≤ X ∧ 4 * X + 4 ≤ pitch ∧ 0 ≤ Y < rows.

Lemma pixel_cell x y X Y b r :
  visible X Y → 0 ≤ x → 4 * (x + w) ≤ pitch → ¬ (x ≤ X < x + w ∧ Y = y + r) →
  fb + Y * pitch + 4 * X ≤ b < fb + Y * pitch + 4 * X + 4 →
  ¬ fb + (y * pitch + 4 * x) + (r - 0) * pitch ≤ b < fb + (y * pitch + 4 * x) + (r - 0) * pitch + 4 * w.
Proof.
  intros (HX & HX' & HY) Hx Hx' Hne Hb. replace ((r - 0) * pitch) with (r * pitch) by lia.
  destruct (Z.lt_trichotomy Y (y + r)) as [Hlt|[->|Hgt]].
  - assert ((Y + 1) * pitch ≤ (y + r) * pitch) by nia. lia.
  - lia.
  - assert ((y + r + 1) * pitch ≤ Y * pitch) by nia. lia.
Qed.

Lemma print_char_run m x y c :
  font_ok m → 0 ≤ c < 256 → c ≠ 13 → c ≠ 10 → 0 ≤ x → 4 * (x + w) ≤ pitch → 0 ≤ y → y + h ≤ rows →
  ∃ m', print_char fb pitch font x y c m = Done ((x + w + 1, y), m') ∧ redrawn m m' ∧
    ∀ X Y, visible X Y → pixel m' X Y = stamp (ink m c) x y (pixel m) X Y.
Proof.
  intros Hf Hc H13 H10 Hx Hx' Hy Hy'. unfold print_char. mrun. unfold id.
  rewrite (proj2 (Z.eqb_neq c 13)), (proj2 (Z.eqb_neq c 10)) by done.
  change (font + headersize font m + u32 ((if c <? numglyph font m then c else 0) * bytesperglyph font m)) with (glyph_at m c).
  rewrite (fo_width _ Hf), (fo_height _ Hf). rewrite (u32_id (w + 7)) by lia. change ((w + 7) / 8) with line_bytes.
  assert (0 ≤ y * pitch) as Hb1 by (apply Z.mul_nonneg_nonneg; lia).
  assert (y * pitch + 4 * x + (h - 1 - 0) * pitch + 4 * w ≤ rows * pitch) as Hb2.
  { assert ((y + h) * pitch ≤ rows * pitch) by (apply Z.mul_le_mono_nonneg_r; lia). lia. }
  assert (0 ≤ (h - 1 - 0) * pitch) as Hb3 by (apply Z.mul_nonneg_nonneg; lia).
  rewrite (u32_id (y * pitch)) by lia. rewrite u32_id, s32_id by lia.
  destruct (glyph_loop_run (S (Z.to_nat h)) m c 0 (y * pitch + x * 4)) as (m' & E & Hp & Hx0); [done|done|lia..|].
  rewrite Z.mul_0_l, Z.add_0_r in E. rewrite (bind_done _ _ _ _ _ E). mrun.
  assert (redrawn m m') as Hr.
  { intros b Hb. apply Hx0. intros r Hr Hin. apply Hb. unfold on_screen.
    assert (0 ≤ (r - 0) * pitch ≤ (h - 1 - 0) * pitch) by (split; [apply Z.mul_nonneg_nonneg; lia|apply Z.mul_le_mono_nonneg_r; lia]). lia. }
  exists m'. split; [|split; [exact Hr|]].
  - rewrite (fo_width _ (redrawn_font _ _ Hr Hf)). rewrite (u32_id (w + 1)) by lia. rewrite u32_id, s32_id by lia. by rewrite Z.add_assoc.
  - intros X Y Hv. unfold stamp. replace (x * 4) with (4 * x) in * by lia. case_decide as Hd.
    + rewrite <- (Hp (Y - y) (X - x)) by lia. unfold pixel. f_equal. lia.
    + apply load_le_ext. intros b Hb. apply Hx0. intros r Hr'. apply (pixel_cell x y X Y); try done. lia.
Qed.

Lemma print_return m x y : print_char fb pitch font x y 13 m = Done ((0, y), m).
Proof. done. Qed.

Lemma print_feed m x y : font_ok m → 0 ≤ y → y + h < 2 ^ 31 → print_char fb pitch font x y 10 m = Done ((0, y + h), m).
Proof. intros Hf Hy Hy'. unfold print_char. mrun. unfold id. cbn [Z.eqb]. rewrite (fo_height _ Hf), u32_id, s32_id by lia. done. Qed.

(** ** The text *)
Lemma stamp_ext g1 g2 x y old1 old2 X Y :
  (∀ i j, 0 ≤ j < h → g1 i j = g2 i j) → old1 X Y = old2 X Y → stamp g1 x y old1 X Y = stamp g2 x y old2 X Y.
Proof. intros Hg Ho. unfold stamp. case_decide; [apply Hg; lia|done]. Qed.

Lemma picture_ext g1 g2 l : ∀ x y old1 old2 X Y,
  (∀ c i j, c ∈ l → 0 ≤ j < h → g1 c i j = g2 c i j) → old1 X Y = old2 X Y → picture g1 l x y old1 X Y = picture g2 l x y old2 X Y.
Proof.
  induction l as [|c l IH]; intros x y old1 old2 X Y Hg Ho; [done|]. cbn [picture].
  assert (∀ c' i j, c' ∈ l → 0 ≤ j < h → g1 c' i j = g2 c' i j) as Hl by (intros c' i j Hc'; apply Hg; by right).
  destruct (c =? 13); [by apply IH|]. destruct (c =? 10); [by apply IH|].
  apply IH; [done|]. apply stamp_ext; [|done]. intros i j. apply Hg. by left.
Qed.

Lemma print_loop_run l : ∀ fuel m x y s,
  font_ok m → cstring m s l → off_screen s (Z.of_nat (length l) + 1) → fits l x y = true → (length l < fuel)%nat →
  ∃ m', print_loop fb pitch font fuel x y s m = Done (tt, m') ∧ redrawn m m' ∧
    ∀ X Y, visible X Y → pixel m' X Y = picture (ink m) l x y (pixel m) X Y.
Proof.
  induction l as [|c l IH]; intros [|fuel] m x y s Hf Hs Ho Hfit Hfu; cbn [length] in Hfu; try lia; cbn [print_loop]; unfold getc; mrun.
  { rewrite (cstring_nil _ _ Hs). by exists m. }
  pose proof (cstring_cons _ _ _ _ Hs) as (Ec & Hne & Hs'). pose proof (byte_at_range m s) as Hc. rewrite Ec in *.
  rewrite (proj2 (Z.eqb_neq c 0)) by done.
  assert (off_screen (s + 1) (Z.of_nat (length l) + 1)) as Ho' by (unfold off_screen in *; cbn [length] in Ho; lia).
  assert (∀ m1 x1 y1, redrawn m m1 → fits l x1 y1 = true → ∃ m', print_loop fb pitch font fuel x1 y1 (s + 1) m1 = Done (tt, m') ∧ redrawn m m' ∧
    ∀ X Y, visible X Y → pixel m' X Y = picture (ink m) l x1 y1 (pixel m1) X Y) as Hrest.
  { intros m1 x1 y1 Hr Hfit1. destruct (IH fuel m1 x1 y1 (s + 1)) as (m' & E & Hr' & Hp); [by eapply redrawn_font| |done|done|lia|].
    { eapply cstring_ext; [|exact Hs']. intros b Hb. apply Hr. unfold off_screen, on_screen in *. lia. }
    exists m'. split; [exact E|]. split; [by eapply redrawn_trans|]. intros X Y Hv. rewrite (Hp X Y Hv). apply picture_ext; [|done].
    intros c' i j Hin Hj. apply redrawn_ink; try done. destruct Hs' as [Hb _]. apply bytes_at_range, Forall_app in Hb as [Hb _].
    by eapply Forall_forall in Hb. }
  cbn [fits picture] in *. destruct (Z.eqb_spec c 13) as [->|H13]; [|destruct (Z.eqb_spec c 10) as [->|H10]].
  - rewrite (bind_done _ _ _ _ _ (print_return m x y)). by apply Hrest.
  - rewrite !andb_true_iff in Hfit. destruct Hfit as [[Hy Hy'] Hfit]. zify_bools.
    rewrite (bind_done _ _ _ _ _ (print_feed m x y Hf Hy Hy')). by apply Hrest.
  - rewrite !andb_true_iff in Hfit. destruct Hfit as [[[[Hx Hx'] Hy] Hy'] Hfit]. zify_bools.
    destruct (print_char_run m x y c Hf Hc H13 H10 Hx Hx' Hy Hy') as (m1 & E1 & Hr1 & Hp1). rewrite (bind_done _ _ _ _ _ E1).
    destruct (Hrest m1 (x + w + 1) y Hr1 Hfit) as (m' & E & Hr & Hp). exists m'. split; [exact E|]. split; [exact Hr|].
    intros X Y Hv. rewrite (Hp X Y Hv). apply picture_ext; [done|]. by apply Hp1.
Qed.
End printing.

(** C17: framebuffer_print draws the text.  For a font up to 31 pixels wide whose
    header and glyphs, like the string, are not on the screen, and text every
    character of which fits, the call returns, the screen shows the reference
    picture (each pixel of each character white where the bit of its glyph's row is
    set and black elsewhere, later characters over earlier ones, a carriage return
    and a line feed as written), and no byte off the screen changes. *)
Theorem framebuffer_print_spec fb pitch rows font w h (m : mem) x y s l :
  0 < pitch < 2 ^ 31 → rows * pitch < 2 ^ 31 → 1 ≤ w ≤ 31 → 1 ≤ h < 2 ^ 31 →
  font_ok fb pitch rows font w h m → cstring m s l → off_screen fb pitch rows s (Z.of_nat (length l) + 1) →
  fits pitch rows w h l x y = true →
  ∃ m', framebuffer_print fb pitch font x y s m = Done (tt, m') ∧
    (∀ X Y, visible pitch rows X Y → pixel fb pitch m' X Y = picture w h (ink font w m) l x y (pixel fb pitch m) X Y) ∧
    ∀ a, ¬ on_screen fb pitch rows a → byte_at m' a = byte_at m a.
Proof.
  intros Hp Hs Hw Hh Hf Hc Ho Hfit. unfold framebuffer_print. mrun.
  destruct (print_loop_run fb pitch rows font w h Hp Hs Hw Hh l (string_fuel m) m x y s Hf Hc Ho Hfit) as (m' & E & Hred & Hpic);
    [by eapply cstring_fuel|]. by exists m'.
Qed.

(** ** A screen of twenty by two pixels at 4096 *)

(** A font of 66 glyphs, two bytes each, of which only the last one, "A", has ink;
    the string "A" at 2048. *)
Definition tiny_font : mem :=
  store32 28 8 (store32 24 2 (store32 20 2 (store32 16 66 (store32 8 32 (write_bytes 162 [0xF0; 0x81] (write_bytes 2048 [65; 0] ∅)))))).

Lemma tiny_fields : headersize 0 tiny_font = 32 ∧ numglyph 0 tiny_font = 66 ∧ bytesperglyph 0 tiny_font = 2 ∧
  font_height 0 tiny_font = 2 ∧ font_width 0 tiny_font = 8.
Proof. by vm_compute. Qed.

Lemma tiny_font_ok : font_ok 4096 80 2 0 8 2 tiny_font.
Proof.
  destruct tiny_fields as (E1 & E2 & E3 & E4 & E5). split; [done|done|unfold off_screen; lia|].
  intros c j Hc Hj. unfold glyph_at, on_screen. rewrite E1, E2, E3. change (line_bytes 8) with 1.
  destruct (Z.ltb_spec c 66); rewrite u32_id by lia; lia.
Qed.

Lemma framebuffer_print_spec_witness :
  ∃ m', framebuffer_print 4096 80 0 3 0 2048 tiny_font = Done (tt, m') ∧
    (λ X, pixel 4096 80 m' X 1) <$> [2; 3; 4; 10; 11] = [0; 0xFFFFFF; 0; 0xFFFFFF; 0].
Proof.
  assert (cstring tiny_font 2048 [65]) as Hs by (split; [by vm_compute|by repeat constructor]).
  assert (off_screen 4096 80 2 2048 (Z.of_nat (length [65]) + 1)) as Ho by (unfold off_screen; cbn; lia).
  destruct (framebuffer_print_spec 4096 80 2 0 8 2 tiny_font 3 0 2048 [65]) as (m' & E & Hp & _);
    [lia|lia|lia|lia|exact tiny_font_ok|exact Hs|exact Ho|reflexivity|].
  exists m'. split; [exact E|]. cbn [fmap list_fmap].
  rewrite !Hp by (unfold visible; lia). vm_compute. reflexivity.
Defined.
