(* ===== verification/BootMap.v ===== *)
(** * The kernel's tables: boot/start.S

    __create_page_tables, which runs before the MMU is on: [mem] is the physical
    memory here; Start.v has the code around it.  The macros of start.S are functions that answer the registers they
    change.  The theorem is about the processor's walk with blocks of 2 MiB: it
    justifies the linear map that the rest of the development takes for granted. *)
From stdpp Require Import base gmap list.
From Stdlib Require Import ZArith Lia.
From S2P Require Import Prelude Mem Kernel Machine Mm MmSpec Video.

#[local] Open Scope Z_scope.
#[local] Opaque memzero store_le load_le byte_at put_byte.

(** ** Constants: libs/mm.h, arch/mmu.h, arch/peripherals/base.h *)
Definition PHYS_MEMORY_SIZE : Z := 0x40000000.
Definition PGD_SIZE : Z := 3 * PAGE_SIZE.
Definition DEVICE_BASE : Z := 0x3F000000.
Definition MM_TYPE_BLOCK : Z := 1.
Definition MM_ACCESS : Z := Z.shiftl 1 10.
Definition MT_DEVICE_nGnRnE : Z := 0.
Definition MT_NORMAL_NC : Z := 1.
Definition MMU_FLAGS : Z := Z.lor (Z.lor MM_TYPE_BLOCK (Z.shiftl MT_NORMAL_NC 2)) MM_ACCESS.
Definition MMU_DEVICE_FLAGS : Z := Z.lor (Z.lor MM_TYPE_BLOCK (Z.shiftl MT_DEVICE_nGnRnE 2)) MM_ACCESS.

(** ** The macros *)

(** [lsr; and #PTRS_PER_TABLE - 1] *)
Definition index_of (virt shift : Z) : Z := Z.land (Z.shiftr virt shift) (PTRS_PER_TABLE - 1).

(** The next table is the next page; [tbl] becomes its address. *)
Definition create_table_entry (tbl virt shift : Z) (m : mem) : Z * mem :=
  let tmp1 := index_of virt shift in
  let tmp2 := u64 (tbl + PAGE_SIZE) in
  let tmp2 := Z.lor tmp2 MM_TYPE_PAGE_TABLE in
  (u64 (tbl + PAGE_SIZE), store64 (tbl + 8 * tmp1) tmp2 m).

Definition create_pgd_entry (tbl virt : Z) (m : mem) : Z * mem :=
  let '(tbl, m) := create_table_entry tbl virt PGD_SHIFT m in
  create_table_entry tbl virt PUD_SHIFT m.

(** [9999: str phys; add start; add phys; cmp; b.ls]: at most [PTRS_PER_TABLE] turns,
    since the two indexes are below it. *)
Fixpoint block_loop (fuel : nat) (tbl phys start last : Z) (m : mem) : mem :=
  match fuel with
  | O => m
  | S fuel =>
    let m := store64 (tbl + 8 * start) phys m in
    let start := start + 1 in
    let phys := u64 (phys + SECTION_SIZE) in
    if start <=? last then block_loop fuel tbl phys start last m else m
  end.

Definition create_block_map (tbl phys start last flags : Z) (m : mem) : mem :=
  let start := index_of start SECTION_SHIFT in
  let last := index_of last SECTION_SHIFT in
  let phys := Z.shiftr phys SECTION_SHIFT in
  let phys := Z.lor flags (u64 (Z.shiftl phys SECTION_SHIFT)) in
  block_loop (Z.to_nat PTRS_PER_TABLE) tbl phys start last m.

(** [pgd] is the address of the three pages of that name. *)
Definition create_page_tables (pgd : Z) (m : mem) : mem :=
  let m := memzero pgd PGD_SIZE m in
  let '(tbl, m) := create_pgd_entry pgd VA_START m in
  let m := create_block_map tbl 0 VA_START (VA_START + DEVICE_BASE - SECTION_SIZE) MMU_FLAGS m in
  create_block_map tbl DEVICE_BASE (VA_START + DEVICE_BASE) (VA_START + PHYS_MEMORY_SIZE - SECTION_SIZE) MMU_DEVICE_FLAGS m.

(** ** The processor's walk *)
Definition table_target (e : Z) : option Z := if Z.land e 3 =? 3 then Some (Z.land e ADDRESS_MASK) else None.

(** A block: the address of its 2 MiB and the other fields of the descriptor. *)
Definition BLOCK_MASK : Z := 0x0000ffffffe00000.
Definition block_target (e : Z) : option (Z * Z) :=
  if Z.land e 3 =? 1 then Some (Z.land e BLOCK_MASK, Z.land e 0xfff) else None.

(** Translation from the root in TTBR0 and TTBR1: the physical address and the
    attributes. *)
Definition walk (m : mem) (root va : Z) : option (Z * Z) :=
  pud ← table_target (load64 (root + 8 * index_of va PGD_SHIFT) m);
  pmd ← table_target (load64 (pud + 8 * index_of va PUD_SHIFT) m);
  block ← block_target (load64 (pmd + 8 * index_of va PMD_SHIFT) m);
  Some (block.1 + Z.land va (SECTION_SIZE - 1), block.2).

(** ** The tables as words *)
Definition word (m : mem) (tbl i : Z) : Z := load64 (tbl + 8 * i) m.

Lemma index_range va shift : 0 ≤ index_of va shift < 512.
Proof. apply (table_index_range va shift). Qed.

Lemma word_store tbl i v m tbl' i' :
  0 ≤ v < 2 ^ 64 → (tbl = tbl' ∨ tbl + PAGE_SIZE ≤ tbl' ∨ tbl' + PAGE_SIZE ≤ tbl) → 0 ≤ i < 512 → 0 ≤ i' < 512 →
  word (store64 (tbl + 8 * i) v m) tbl' i' = if decide (tbl' = tbl ∧ i' = i) then v else word m tbl' i'.
Proof.
  unfold word, PAGE_SIZE. intros Hv Ht Hi Hi'. case_decide as E.
  - destruct E as [-> ->]. rewrite load_store_le. by apply Z.mod_small.
  - apply load_store_disjoint. change (Z.of_nat 8) with 8. destruct Ht as [->|Ht]; [|lia].
    assert (i ≠ i') by naive_solver. lia.
Qed.

Lemma block_loop_word fuel : ∀ tbl phys start last m i,
  0 ≤ phys → phys + Z.of_nat fuel * SECTION_SIZE ≤ 2 ^ 64 → 0 ≤ start ≤ last → last < 512 → last - start < Z.of_nat fuel → 0 ≤ i < 512 →
  word (block_loop fuel tbl phys start last m) tbl i =
    if decide (start ≤ i ≤ last) then phys + (i - start) * SECTION_SIZE else word m tbl i.
Proof.
  unfold SECTION_SIZE. induction fuel as [|fuel IH]; intros tbl phys start last m i Hp Hpf Hs Hl Hf Hi; [lia|].
  cbn [block_loop]. case_bool.
  - rewrite u64_id by (unfold SECTION_SIZE; lia). rewrite IH by (unfold SECTION_SIZE; lia).
    rewrite word_store by (lia || by left). unfold SECTION_SIZE. repeat case_decide; try lia.
  - rewrite word_store by (lia || by left). repeat case_decide; try lia.
Qed.

Lemma block_loop_other fuel : ∀ tbl phys start last m tbl' i,
  0 ≤ start → last < 512 → start ≤ last → 0 ≤ i < 512 → tbl + PAGE_SIZE ≤ tbl' ∨ tbl' + PAGE_SIZE ≤ tbl →
  word (block_loop fuel tbl phys start last m) tbl' i = word m tbl' i.
Proof.
  unfold PAGE_SIZE. induction fuel as [|fuel IH]; intros tbl phys start last m tbl' i Hs Hl Hle Hi Ht; [done|].
  cbn [block_loop].
  assert (∀ m, word (store64 (tbl + 8 * start) phys m) tbl' i = word m tbl' i) as Hw
    by (intros; apply load_store_disjoint; change (Z.of_nat 8) with 8; lia).
  case_bool; [rewrite IH by lia|]; apply Hw.
Qed.

(** ** Descriptors *)
Lemma table_target_page q : 0 ≤ q < 2 ^ 36 →
  0 ≤ Z.lor (4096 * q) MM_TYPE_PAGE_TABLE < 2 ^ 64 ∧ table_target (Z.lor (4096 * q) MM_TYPE_PAGE_TABLE) = Some (4096 * q).
Proof.
  intros Hq. unfold MM_TYPE_PAGE_TABLE, table_target. rewrite lor_flags by lia. split; [lia|].
  change ADDRESS_MASK with (Z.shiftl (Z.ones 36) 12). rewrite land_mask by lia.
  change 3 with (Z.ones 2) at 2. rewrite Z.land_ones by lia. change (2 ^ 2) with 4.
  assert ((4096 * q + 3) mod 4 = 3) as -> by (rewrite Z.add_comm; replace (4096 * q) with (1024 * q * 4) by lia; by rewrite Z.mod_add by lia).
  reflexivity.
Qed.

Definition section_flags (i : Z) : Z := if i <? DEVICE_BASE / SECTION_SIZE then MMU_FLAGS else MMU_DEVICE_FLAGS.

Lemma block_target_section i : 0 ≤ i < 512 →
  block_target (section_flags i + i * SECTION_SIZE) = Some (i * SECTION_SIZE, section_flags i).
Proof.
  intros Hi. cut (Forall (λ i, block_target (section_flags i + i * SECTION_SIZE) = Some (i * SECTION_SIZE, section_flags i)) (seqZ 0 512)).
  - rewrite Forall_forall. intros H. apply H, elem_of_seqZ. lia.
  - apply (bool_decide_eq_true_1 _). vm_compute. reflexivity.
Qed.

(** ** The tables that create_page_tables leaves *)
Section tables.
Context (q : Z) (m : mem).
Context (Hq : 0 ≤ q ∧ q + 3 < 2 ^ 36).

Abbreviation page n := (4096 * (q + n)).

Definition built : mem := create_page_tables (page 0) m.

Lemma cleared n i : 0 ≤ n < 3 → 0 ≤ i < 512 → word (memzero (page 0) PGD_SIZE m) (page n) i = 0.
Proof.
  intros Hn Hi. apply load_le_zero. intros x Hx. change (Z.of_nat 8) with 8 in Hx. unfold PGD_SIZE, PAGE_SIZE.
  rewrite memzero_spec by lia. change (zeroed (3 * 4096)) with 12288. by rewrite decide_True by lia.
Qed.

(** After the two entries that lead to the third table. *)
Definition linked : mem :=
  store64 (page 1 + 8 * 0) (Z.lor (page 2) MM_TYPE_PAGE_TABLE)
    (store64 (page 0 + 8 * 0) (Z.lor (page 1) MM_TYPE_PAGE_TABLE) (memzero (page 0) PGD_SIZE m)).

Lemma create_pgd_entry_run : create_pgd_entry (page 0) VA_START (memzero (page 0) PGD_SIZE m) = (page 2, linked).
Proof.
  unfold create_pgd_entry, create_table_entry, linked.
  change (index_of VA_START PGD_SHIFT) with 0. change (index_of VA_START PUD_SHIFT) with 0. unfold PAGE_SIZE.
  rewrite !u64_id by (rewrite ?u64_id by lia; lia).
  replace (page 0 + 4096) with (page 1) by lia. by replace (page 1 + 4096) with (page 2) by lia.
Qed.

Lemma built_run : built =
  block_loop 512 (page 2) (Z.lor MMU_DEVICE_FLAGS DEVICE_BASE) 504 511
    (block_loop 512 (page 2) (Z.lor MMU_FLAGS 0) 0 503 linked).
Proof. unfold built, create_page_tables. rewrite create_pgd_entry_run. reflexivity. Qed.

Lemma linked_word n i : 0 ≤ n < 3 → 0 ≤ i < 512 →
  word linked (page n) i = if decide (i = 0 ∧ n < 2) then Z.lor (page (n + 1)) MM_TYPE_PAGE_TABLE else 0.
Proof.
  intros Hn Hi. unfold linked.
  pose proof (table_target_page (q + 1) ltac:(lia)) as [H1 _]. pose proof (table_target_page (q + 2) ltac:(lia)) as [H2 _].
  rewrite word_store by (done || unfold PAGE_SIZE; lia). rewrite word_store by (done || unfold PAGE_SIZE; lia).
  destruct (decide (n = 0)) as [->|H0]; [|destruct (decide (n = 1)) as [->|H3]].
  - rewrite (decide_False (P := page 0 = page 1 ∧ i = 0)) by lia. repeat case_decide; try lia; [reflexivity|by apply cleared].
  - rewrite (decide_False (P := page 1 = page 0 ∧ i = 0)) by lia. repeat case_decide; try lia; [reflexivity|by apply cleared].
  - rewrite !decide_False by lia. by apply cleared.
Qed.

Lemma built_link n i : 0 ≤ n < 2 → 0 ≤ i < 512 →
  word built (page n) i = if decide (i = 0) then Z.lor (page (n + 1)) MM_TYPE_PAGE_TABLE else 0.
Proof.
  intros Hn Hi. rewrite built_run. rewrite !block_loop_other by (unfold PAGE_SIZE; lia).
  rewrite linked_word by lia. repeat case_decide; (done || lia).
Qed.

Lemma built_section i : 0 ≤ i < 512 → word built (page 2) i = section_flags i + i * SECTION_SIZE.
Proof.
  intros Hi. rewrite built_run. rewrite block_loop_word by (done || lia). rewrite block_loop_word by (done || lia).
  unfold section_flags. change (DEVICE_BASE / SECTION_SIZE) with 504.
  change (Z.lor MMU_DEVICE_FLAGS DEVICE_BASE) with (MMU_DEVICE_FLAGS + 504 * SECTION_SIZE). change (Z.lor MMU_FLAGS 0) with MMU_FLAGS.
  repeat case_decide; case_bool; lia.
Qed.
End tables.

#[local] Opaque create_page_tables.

(** ** Addresses *)
Lemma index_div va k : 0 ≤ k → index_of va (21 + 9 * k) = (va / SECTION_SIZE / 512 ^ k) mod 512.
Proof.
  intros Hk. unfold index_of, PTRS_PER_TABLE, SECTION_SIZE. change (512 - 1) with (Z.ones 9).
  rewrite Z.land_ones, Z.shiftr_div_pow2, Z.div_div by lia. do 2 f_equal.
  rewrite Z.pow_add_r, Z.pow_mul_r by lia. done.
Qed.

Lemma address_digits va :
  va mod 2 ^ 48 = va mod SECTION_SIZE + SECTION_SIZE * (index_of va PMD_SHIFT + 512 * (index_of va PUD_SHIFT + 512 * index_of va PGD_SHIFT)).
Proof.
  change PMD_SHIFT with (21 + 9 * 0). change PUD_SHIFT with (21 + 9 * 1). change PGD_SHIFT with (21 + 9 * 2).
  rewrite !index_div by lia. set (a := va / SECTION_SIZE). change (512 ^ 0) with 1. change (512 ^ 1) with 512. rewrite Z.div_1_r.
  replace (a / 512 ^ 2) with (a / 512 / 512) by (rewrite Z.div_div by lia; done).
  change (2 ^ 48) with (SECTION_SIZE * (512 * (512 * 512))). rewrite Z.rem_mul_r by done. fold a. do 2 f_equal.
  rewrite Z.rem_mul_r by lia. do 2 f_equal. by rewrite Z.rem_mul_r by lia.
Qed.

(** The walk through tables with these words. *)
Lemma walk_words m p0 q1 q2 va : 0 ≤ q1 < 2 ^ 36 → 0 ≤ q2 < 2 ^ 36 →
  (∀ i, 0 ≤ i < 512 → word m p0 i = if decide (i = 0) then Z.lor (4096 * q1) MM_TYPE_PAGE_TABLE else 0) →
  (∀ i, 0 ≤ i < 512 → word m (4096 * q1) i = if decide (i = 0) then Z.lor (4096 * q2) MM_TYPE_PAGE_TABLE else 0) →
  (∀ i, 0 ≤ i < 512 → word m (4096 * q2) i = section_flags i + i * SECTION_SIZE) →
  walk m p0 va =
    if decide (index_of va PGD_SHIFT = 0 ∧ index_of va PUD_SHIFT = 0)
    then Some (index_of va PMD_SHIFT * SECTION_SIZE + va mod SECTION_SIZE, section_flags (index_of va PMD_SHIFT)) else None.
Proof.
  intros H1 H2 W0 W1 W2. unfold walk.
  specialize (W0 _ (index_range va PGD_SHIFT)). specialize (W1 _ (index_range va PUD_SHIFT)). specialize (W2 _ (index_range va PMD_SHIFT)).
  unfold word in *. rewrite W0. destruct (decide (index_of va PGD_SHIFT = 0)) as [E0|E0]; [|by rewrite decide_False by tauto].
  rewrite (proj2 (table_target_page q1 H1)). cbn [mbind option_bind].
  rewrite W1. destruct (decide (index_of va PUD_SHIFT = 0)) as [E1|E1]; [|by rewrite decide_False by tauto].
  rewrite (proj2 (table_target_page q2 H2)). cbn [mbind option_bind].
  rewrite W2, block_target_section by apply index_range. cbn [mbind option_bind fst snd]. rewrite decide_True by tauto.
  do 3 f_equal. change (SECTION_SIZE - 1) with (Z.ones 21). by rewrite Z.land_ones by lia.
Qed.

#[local] Opaque walk index_of.

Lemma walk_built q m va : 0 ≤ q ∧ q + 3 < 2 ^ 36 →
  walk (built q m) (4096 * (q + 0)) va =
    let pa := va mod 2 ^ 48 in
    if pa <? PHYS_MEMORY_SIZE then Some (pa, if pa <? DEVICE_BASE then MMU_FLAGS else MMU_DEVICE_FLAGS) else None.
Proof.
  intros Hq. rewrite (walk_words (built q m) _ (q + 1) (q + 2) va ltac:(lia) ltac:(lia)
    (λ i, built_link q m Hq 0 i ltac:(lia)) (λ i, built_link q m Hq 1 i ltac:(lia)) (built_section q m Hq)).
  cbv zeta. pose proof (address_digits va) as Hpa. pose proof (Z.mod_pos_bound va SECTION_SIZE eq_refl) as Hoff.
  pose proof (index_range va PGD_SHIFT) as B0. pose proof (index_range va PUD_SHIFT) as B1. pose proof (index_range va PMD_SHIFT) as B2.
  unfold section_flags. change (DEVICE_BASE / SECTION_SIZE) with 504. unfold PHYS_MEMORY_SIZE, SECTION_SIZE, DEVICE_BASE in *.
  case_decide as E; [|by rewrite (proj2 (Z.ltb_ge (va mod 2 ^ 48) _)) by lia].
  rewrite (proj2 (Z.ltb_lt (va mod 2 ^ 48) 0x40000000)) by lia. do 2 f_equal; [lia|]. repeat case_bool; (reflexivity || lia).
Qed.

(** The kernel's tables. __create_page_tables builds, in the three pages of
    pgd and whatever they held, tables through which the processor translates
    every address, from TTBR0 and from TTBR1, to its 48 low bits when these are
    below 1 GiB, as normal memory below DEVICE_BASE and as device memory from
    there on, and translates no other address.  So every page of the allocator is
    seen at its kernel address, and every register of the peripherals at PBASE
    plus its offset. *)
Theorem boot_map_spec pgd m :
  pgd mod PAGE_SIZE = 0 → 0 ≤ pgd → pgd + PGD_SIZE < 2 ^ 48 →
  let m' := create_page_tables pgd m in
  (∀ va, walk m' pgd va =
    let pa := va mod 2 ^ 48 in
    if pa <? PHYS_MEMORY_SIZE then Some (pa, if pa <? DEVICE_BASE then MMU_FLAGS else MMU_DEVICE_FLAGS) else None) ∧
  (∀ j off, page_index j → 0 ≤ off < PAGE_SIZE → walk m' pgd (kva j + off) = Some (page_addr j + off, MMU_FLAGS)) ∧
  ∀ reg, 0 ≤ reg < PHYS_MEMORY_SIZE - DEVICE_BASE → walk m' pgd (mmio reg) = Some (DEVICE_BASE + reg, MMU_DEVICE_FLAGS).
Proof.
  intros Hal Hp Hb m'. unfold PGD_SIZE in Hb. unfold PAGE_SIZE in *.
  assert (∀ va, walk m' pgd va = let pa := va mod 2 ^ 48 in
    if pa <? PHYS_MEMORY_SIZE then Some (pa, if pa <? DEVICE_BASE then MMU_FLAGS else MMU_DEVICE_FLAGS) else None) as H.
  { intros va. assert (pgd = 4096 * (pgd / 4096 + 0)) as E by (rewrite Z.add_0_r; apply Z_div_exact_full_2; [done|exact Hal]).
    pose proof (walk_built (pgd / 4096) m va ltac:(lia)) as Hw. unfold built in Hw. rewrite <- E in Hw. exact Hw. }
  split; [exact H|]. clearbody m'. split.
  - intros j off Hj Ho. rewrite H. cbv zeta.
    assert ((kva j + off) mod 2 ^ 48 = page_addr j + off) as -> by (symmetry; apply (Z.mod_unique _ _ 65535); mm_consts; lia).
    unfold PHYS_MEMORY_SIZE, DEVICE_BASE. rewrite !(proj2 (Z.ltb_lt _ _)) by (mm_consts; lia). reflexivity.
  - intros reg Hr. rewrite H. cbv zeta. unfold PHYS_MEMORY_SIZE, DEVICE_BASE, mmio, VA_START in *.
    assert ((0xffff000000000000 + 0x3F000000 + reg) mod 2 ^ 48 = 0x3F000000 + reg) as -> by (symmetry; apply (Z.mod_unique _ _ 65535); lia).
    rewrite (proj2 (Z.ltb_lt _ _)), (proj2 (Z.ltb_ge _ _)) by lia. reflexivity.
Qed.

(** The tables at 0x90000, over memory full of ones. *)
Lemma boot_map_spec_witness :
  let m' := create_page_tables 0x90000 (store64 0x90008 (2 ^ 64 - 1) ∅) in
  walk m' 0x90000 (VA_START + 0x80123) = Some (0x80123, MMU_FLAGS) ∧
  walk m' 0x90000 0x3F201000 = Some (0x3F201000, MMU_DEVICE_FLAGS) ∧ walk m' 0x90000 (VA_START + 0x40000000) = None.
Proof.
  destruct (boot_map_spec 0x90000 (store64 0x90008 (2 ^ 64 - 1) ∅)) as [H _]; [done|done|done|].
  cbv zeta. rewrite !H. by vm_compute.
Defined.
