(* ===== verification/Start.v ===== *)
(** * The first instructions: boot/start.S

    [_start], from the firmware's jump to the branch to kernel_main.  [phys] is the
    physical memory; the firmware has put the image at its link address less
    VA_START.  The translation tables are in BootMap.v. *)
From stdpp Require Import base gmap list.
From Stdlib Require Import ZArith Lia.
From S2P Require Import Prelude Mem Kernel Machine Mm MmSpec Video BootMap.

#[local] Open Scope Z_scope.
#[local] Opaque memzero store_le load_le byte_at put_byte.

(** ** Control registers: arch/sysregs.h, arch/mmu.h *)
Definition SCTLR_RESERVED : Z := Z.lor (Z.lor (Z.lor (Z.shiftl 3 28) (Z.shiftl 3 22)) (Z.shiftl 1 20)) (Z.shiftl 1 11).
Definition SCTLR_EE_LITTLE_ENDIAN : Z := Z.shiftl 0 25.
Definition SCTLR_I_CACHE_DISABLED : Z := Z.shiftl 0 12.
Definition SCTLR_D_CACHE_DISABLED : Z := Z.shiftl 0 2.
Definition SCTLR_MMU_DISABLED : Z := Z.shiftl 0 0.
Definition SCTLR_MMU_ENABLED : Z := Z.shiftl 1 0.
Definition SCTLR_VALUE_MMU_DISABLED : Z :=
  Z.lor (Z.lor (Z.lor (Z.lor SCTLR_RESERVED SCTLR_EE_LITTLE_ENDIAN) SCTLR_I_CACHE_DISABLED) SCTLR_D_CACHE_DISABLED) SCTLR_MMU_DISABLED.
Definition HCR_RW : Z := Z.shiftl 1 31.
Definition HCR_VALUE : Z := HCR_RW.
Definition SPSR_MASK_ALL : Z := Z.shiftl 7 6.
Definition SPSR_EL1h : Z := Z.shiftl 5 0.
Definition SPSR_VALUE : Z := Z.lor SPSR_MASK_ALL SPSR_EL1h.

Definition MT_DEVICE_nGnRnE_FLAGS : Z := 0x00.
Definition MT_NORMAL_NC_FLAGS : Z := 0x44.
Definition TCR_T0SZ : Z := 64 - 48.
Definition TCR_T1SZ : Z := Z.shiftl (64 - 48) 16.
Definition TCR_TG0_4K : Z := Z.shiftl 0 14.
Definition TCR_TG1_4K : Z := Z.shiftl 2 30.
Definition TCR_VALUE : Z := Z.lor (Z.lor (Z.lor TCR_T0SZ TCR_T1SZ) TCR_TG0_4K) TCR_TG1_4K.
Definition MAIR_VALUE : Z :=
  Z.lor (Z.shiftl MT_DEVICE_nGnRnE_FLAGS (8 * MT_DEVICE_nGnRnE)) (Z.shiftl MT_NORMAL_NC_FLAGS (8 * MT_NORMAL_NC)).

(** ** A core *)
Record Core : Type := mk_Core {
  el : Z;
  pstate : Z;
  core_sp : Z;
  hcr_el2 : Z;
  sctlr_el1 : Z;
  ttbr0_el1 : Z;
  ttbr1_el1 : Z;
  tcr_el1 : Z;
  mair_el1 : Z;
  phys : mem
}.

Definition with_sp (v : Z) (c : Core) : Core :=
  mk_Core (el c) (pstate c) v (hcr_el2 c) (sctlr_el1 c) (ttbr0_el1 c) (ttbr1_el1 c) (tcr_el1 c) (mair_el1 c) (phys c).
Definition with_sctlr (v : Z) (c : Core) : Core :=
  mk_Core (el c) (pstate c) (core_sp c) (hcr_el2 c) v (ttbr0_el1 c) (ttbr1_el1 c) (tcr_el1 c) (mair_el1 c) (phys c).
Definition with_hcr (v : Z) (c : Core) : Core :=
  mk_Core (el c) (pstate c) (core_sp c) v (sctlr_el1 c) (ttbr0_el1 c) (ttbr1_el1 c) (tcr_el1 c) (mair_el1 c) (phys c).
Definition with_tables (t0 t1 tcr mair : Z) (c : Core) : Core :=
  mk_Core (el c) (pstate c) (core_sp c) (hcr_el2 c) (sctlr_el1 c) t0 t1 tcr mair (phys c).
Definition with_phys (m : mem) (c : Core) : Core :=
  mk_Core (el c) (pstate c) (core_sp c) (hcr_el2 c) (sctlr_el1 c) (ttbr0_el1 c) (ttbr1_el1 c) (tcr_el1 c) (mair_el1 c) m.

(** [mrs x, CurrentEL]: the level is in bits 2 and 3. *)
Definition CurrentEL (c : Core) : Z := Z.shiftl (el c) 2.

(** [eret] with the state in SPSR_EL2, whose low bits give the level. *)
Definition eret (spsr : Z) (c : Core) : Core :=
  mk_Core (Z.land (Z.shiftr spsr 2) 3) spsr (core_sp c) (hcr_el2 c) (sctlr_el1 c) (ttbr0_el1 c) (ttbr1_el1 c) (tcr_el1 c) (mair_el1 c) (phys c).

(** Where the core ends: in wait_for_event for ever, or at an address. *)
Inductive booting : Type :=
| Waits (c : Core)
| Jumps (pc : Z) (c : Core).

Section start.
(** The link addresses of the symbols. *)
Context (start_address bss_start bss_end pgd kernel_main : Z).

(** [adr] and [adrp] give addresses where the code runs, [ldr =] link addresses. *)
Definition adr (symbol : Z) : Z := u64 (symbol - VA_START).
Definition adrp (symbol : Z) : Z := Z.land (adr symbol) (Z.lnot 4095).

(** [mpidr] is the core's number. *)
Definition _start (mpidr : Z) (c : Core) : booting :=
  let c := if Z.shiftr (CurrentEL c) 2 =? 2 then eret SPSR_VALUE (with_hcr HCR_VALUE c) else c in
  let c := with_sctlr SCTLR_VALUE_MMU_DISABLED c in
  if negb (Z.land mpidr 3 =? 0) then Waits c else
  let c := with_sp start_address c in
  let c := with_phys (memzero (adr bss_start) (u64 (adr bss_end - adr bss_start)) (phys c)) c in
  let c := with_phys (create_page_tables (adrp pgd) (phys c)) c in
  let c := with_sp (u64 (VA_START + LOW_MEMORY)) c in
  let c := with_tables (adrp pgd) (adrp pgd) TCR_VALUE MAIR_VALUE c in
  let x2 := kernel_main in
  Jumps x2 (with_sctlr SCTLR_MMU_ENABLED c).
End start.

(** ** What the code of the tables leaves alone *)
Lemma block_loop_outside fuel : ∀ tbl phys start last m a,
  start ≤ last → a < tbl + 8 * start ∨ tbl + 8 * last + 8 ≤ a → byte_at (block_loop fuel tbl phys start last m) a = byte_at m a.
Proof.
  induction fuel as [|fuel IH]; intros tbl phys start last m a Hle Ha; [done|]. cbn [block_loop].
  assert (∀ v, byte_at (store64 (tbl + 8 * start) v m) a = byte_at m a) as Hw
    by (intros v; rewrite byte_at_store_le; change (Z.of_nat 8) with 8; by rewrite decide_False by lia).
  case_bool; [rewrite IH by lia|]; apply Hw.
Qed.

Lemma create_page_tables_outside q m a : 0 ≤ q ∧ q + 3 < 2 ^ 36 → a < 4096 * q ∨ 4096 * q + PGD_SIZE ≤ a →
  byte_at (create_page_tables (4096 * q) m) a = byte_at m a.
Proof.
  intros Hq Ha. pose proof (built_run q m Hq) as E. unfold built in E. rewrite Z.add_0_r in E. rewrite E. clear E.
  unfold PGD_SIZE, PAGE_SIZE in Ha. rewrite !block_loop_outside by lia. unfold linked.
  rewrite !byte_at_store_le. change (Z.of_nat 8) with 8. rewrite !decide_False by lia.
  unfold PGD_SIZE, PAGE_SIZE. rewrite memzero_spec by lia. change (zeroed (3 * 4096)) with 12288. by rewrite decide_False by lia.
Qed.

#[local] Opaque create_page_tables walk.

(** ** The image *)

(** The layout of linker/link.ld: .bss, then the tables, within the memory that the
    page allocator leaves to the kernel. *)
Record layout_ok (bss_start bss_end pgd kernel_main : Z) : Prop := mk_layout_ok {
  lo_bss : VA_START ≤ bss_start < bss_end ∧ (bss_end - bss_start) mod 8 = 0;
  lo_pgd : bss_end ≤ pgd ∧ (pgd - VA_START) mod PAGE_SIZE = 0 ∧ pgd + PGD_SIZE ≤ VA_START + LOW_MEMORY;
  lo_main : VA_START ≤ kernel_main < VA_START + LOW_MEMORY
}.

Lemma adr_low x : VA_START ≤ x < VA_START + LOW_MEMORY → adr x = x - VA_START.
Proof. intros H. unfold adr. apply u64_id. unfold LOW_MEMORY, SECTION_SIZE, VA_START in *. lia. Qed.

Lemma adrp_page x : VA_START ≤ x < VA_START + LOW_MEMORY → (x - VA_START) mod PAGE_SIZE = 0 → adrp x = x - VA_START.
Proof.
  intros H Hal. unfold adrp. rewrite adr_low by done. change 4095 with (Z.ones 12). rewrite <- Z.ldiff_land.
  rewrite Z.ldiff_ones_r, Z.shiftl_mul_pow2, Z.shiftr_div_pow2 by lia. change (2 ^ 12) with PAGE_SIZE.
  pose proof (Z_div_exact_full_2 (x - VA_START) PAGE_SIZE ltac:(done) Hal). lia.
Qed.

(** The address space once the MMU is on. *)
Definition linear (va : Z) : option (Z * Z) :=
  let pa := va mod 2 ^ 48 in
  if pa <? PHYS_MEMORY_SIZE then Some (pa, if pa <? DEVICE_BASE then MMU_FLAGS else MMU_DEVICE_FLAGS) else None.

(** The state in which kernel_main is entered. *)
Record launched (bss_start bss_end pgd : Z) (c c' : Core) : Prop := mk_launched {
  la_el : el c' = if el c =? 2 then 1 else el c;
  la_pstate : pstate c' = if el c =? 2 then 0x1c5 else pstate c;
  la_mmu : Z.testbit (sctlr_el1 c') 0 = true ∧ 64 - Z.land (tcr_el1 c') 63 = 48 ∧ 64 - Z.land (Z.shiftr (tcr_el1 c') 16) 63 = 48;
  la_memory : (Z.shiftr (mair_el1 c') (8 * MT_DEVICE_nGnRnE)) mod 256 = MT_DEVICE_nGnRnE_FLAGS ∧
    (Z.shiftr (mair_el1 c') (8 * MT_NORMAL_NC)) mod 256 = MT_NORMAL_NC_FLAGS;
  la_walk : ∀ va, walk (phys c') (ttbr0_el1 c') va = linear va ∧ walk (phys c') (ttbr1_el1 c') va = linear va;
  la_sp : core_sp c' = VA_START + LOW_MEMORY;
  la_bss : ∀ x, bss_start ≤ x < bss_end → byte_at (phys c') (x - VA_START) = 0;
  la_rest : ∀ a, a + VA_START < bss_start ∨ bss_end ≤ a + VA_START < pgd ∨ pgd + PGD_SIZE ≤ a + VA_START →
    byte_at (phys c') a = byte_at (phys c) a
}.

Lemma linear_low x : VA_START ≤ x < VA_START + LOW_MEMORY →
  linear x = Some (x - VA_START, MMU_FLAGS) ∧ linear (x - VA_START) = Some (x - VA_START, MMU_FLAGS).
Proof.
  unfold linear, LOW_MEMORY, SECTION_SIZE, VA_START, PHYS_MEMORY_SIZE, DEVICE_BASE. intros H.
  assert (x mod 2 ^ 48 = x - 0xffff000000000000) as -> by (symmetry; apply (Z.mod_unique _ _ 65535); lia).
  rewrite (Z.mod_small (x - 0xffff000000000000)) by lia. by rewrite !(proj2 (Z.ltb_lt _ _)) by lia.
Qed.

Section run.
Context (start_address bss_start bss_end pgd kernel_main : Z) (c : Core).
Context (Hl : layout_ok bss_start bss_end pgd kernel_main).

(** The memory when kernel_main is entered. *)
Definition final_memory : mem :=
  create_page_tables (pgd - VA_START) (memzero (bss_start - VA_START) (bss_end - bss_start) (phys c)).

Lemma layout_page : ∃ q, pgd - VA_START = 4096 * q ∧ 0 ≤ q ∧ q + 3 < 2 ^ 36.
Proof.
  destruct Hl as [[H1 _] (H2 & H3 & H4) _]. exists ((pgd - VA_START) / 4096).
  pose proof (Z_div_exact_full_2 (pgd - VA_START) 4096 ltac:(done) H3) as E. split; [exact E|].
  unfold LOW_MEMORY, SECTION_SIZE, PGD_SIZE, PAGE_SIZE, VA_START in *. lia.
Qed.

Lemma final_byte a : a < pgd - VA_START ∨ pgd - VA_START + PGD_SIZE ≤ a →
  byte_at final_memory a = if decide (bss_start ≤ a + VA_START < bss_end) then 0 else byte_at (phys c) a.
Proof.
  intros Ha. destruct layout_page as (q & Eq & Hq). destruct Hl as [[H1 H8] (H2 & H3 & H4) _].
  unfold final_memory. rewrite Eq in *. rewrite create_page_tables_outside by done.
  assert (zeroed (bss_end - bss_start) = bss_end - bss_start) as Ez.
  { unfold zeroed. pose proof (Z_div_exact_full_2 (bss_end - bss_start) 8 ltac:(done) H8) as E8.
    set (k := (bss_end - bss_start) / 8) in *. clearbody k. rewrite E8.
    replace ((8 * k + 7) / 8) with k by (apply (Z.div_unique _ _ _ 7); lia). lia. }
  rewrite memzero_spec, Ez by (unfold LOW_MEMORY, SECTION_SIZE, PGD_SIZE, PAGE_SIZE, VA_START in *; lia).
  repeat case_decide; (done || lia).
Qed.

Lemma final_walk va : walk final_memory (pgd - VA_START) va = linear va.
Proof.
  destruct layout_page as (q & Eq & Hq). unfold final_memory. rewrite Eq.
  pose proof (walk_built q (memzero (bss_start - VA_START) (bss_end - bss_start) (phys c)) va Hq) as H.
  unfold built in H. rewrite Z.add_0_r in H. exact H.
Qed.

(** The core that enters kernel_main, with the memory [m]. *)
Definition primary (m : mem) : Core :=
  let e := if el c =? 2 then eret SPSR_VALUE (with_hcr HCR_VALUE c) else c in
  with_sctlr SCTLR_MMU_ENABLED (with_tables (pgd - VA_START) (pgd - VA_START) TCR_VALUE MAIR_VALUE
    (with_sp (VA_START + LOW_MEMORY) (with_phys m (with_sctlr SCTLR_VALUE_MMU_DISABLED e)))).

Lemma primary_fields m :
  el (primary m) = (if el c =? 2 then 1 else el c) ∧ pstate (primary m) = (if el c =? 2 then 0x1c5 else pstate c) ∧
  sctlr_el1 (primary m) = SCTLR_MMU_ENABLED ∧ tcr_el1 (primary m) = TCR_VALUE ∧ mair_el1 (primary m) = MAIR_VALUE ∧
  ttbr0_el1 (primary m) = pgd - VA_START ∧ ttbr1_el1 (primary m) = pgd - VA_START ∧
  core_sp (primary m) = VA_START + LOW_MEMORY ∧ phys (primary m) = m.
Proof. unfold primary. by destruct (el c =? 2). Qed.

(** _start as far as the memory, for any code of the tables. *)
Lemma start_primary mpidr : Z.land mpidr 3 = 0 →
  _start start_address bss_start bss_end pgd kernel_main mpidr c = Jumps kernel_main (primary final_memory).
Proof.
  intros Hm. pose proof Hl as [[H1 H8] (H2 & H3 & H4) _]. unfold _start. cbv zeta. rewrite Hm.
  change (negb (0 =? 0)) with false. cbv iota.
  unfold CurrentEL. rewrite Z.shiftr_shiftl_l, Z.sub_diag, Z.shiftl_0_r by lia.
  assert (0 < PGD_SIZE) as Hp by done.
  rewrite !adr_low by lia. rewrite adrp_page by (assumption || lia).
  rewrite (u64_id (VA_START + LOW_MEMORY)) by (unfold LOW_MEMORY, SECTION_SIZE, VA_START; lia).
  replace (bss_end - VA_START - (bss_start - VA_START)) with (bss_end - bss_start) by lia.
  rewrite u64_id by (unfold LOW_MEMORY, SECTION_SIZE, VA_START in *; lia).
  unfold primary, final_memory. generalize create_page_tables. generalize memzero. intros f g.
  destruct (el c =? 2); reflexivity.
Qed.

Lemma primary_launched : launched bss_start bss_end pgd c (primary final_memory).
Proof.
  assert (0 < PGD_SIZE) as Hp by done.
  pose proof final_walk as Hw. pose proof final_byte as Hb. pose proof Hl as [[H1 H8] (H2 & H3 & H4) _].
  destruct (primary_fields final_memory) as (P1 & P2 & P3 & P4 & P5 & P6 & P7 & P8 & P9).
  generalize dependent final_memory. intros m Hw Hb P1 P2 P3 P4 P5 P6 P7 P8 P9.
  split.
  - exact P1.
  - exact P2.
  - rewrite P3, P4. repeat split.
  - rewrite P5. repeat split.
  - intros va. rewrite P6, P7, P9. by split.
  - exact P8.
  - intros x Hx. rewrite P9, Hb by lia. by rewrite decide_True by lia.
  - intros a Ha. rewrite P9, Hb by lia. by rewrite decide_False by lia.
Qed.
End run.

(** C11: from the firmware to kernel_main.  A core other than the first waits for
    ever and changes no memory.  The first one, entered at EL2 or already at EL1,
    whatever its registers and the memory hold, reaches kernel_main at EL1 (from
    EL2: with the exceptions masked, on SP_EL1) with the MMU on, 48-bit addresses
    and the two memory types of the descriptors, and both table registers at
    tables that map every address linearly as [linear] says; the stack at the end
    of the kernel's memory; .bss zero and every byte outside .bss and the tables
    as it was.  In that map each address of the kernel's image leads to where the
    image is, and so does the low address from which the code goes on when the
    MMU comes on. *)
Theorem start_spec start_address bss_start bss_end pgd kernel_main mpidr c :
  layout_ok bss_start bss_end pgd kernel_main →
  (Z.land mpidr 3 ≠ 0 → ∃ c', _start start_address bss_start bss_end pgd kernel_main mpidr c = Waits c' ∧ phys c' = phys c) ∧
  (Z.land mpidr 3 = 0 → ∃ c', _start start_address bss_start bss_end pgd kernel_main mpidr c = Jumps kernel_main c' ∧
    launched bss_start bss_end pgd c c' ∧
    ∀ x, VA_START ≤ x < VA_START + LOW_MEMORY →
      walk (phys c') (ttbr1_el1 c') x = Some (adr x, MMU_FLAGS) ∧ walk (phys c') (ttbr0_el1 c') (adr x) = Some (adr x, MMU_FLAGS)).
Proof.
  intros Hl. split; intros Hm.
  - unfold _start. cbv zeta. rewrite (proj2 (Z.eqb_neq _ _) Hm). eexists. split; [reflexivity|]. by destruct (_ =? 2).
  - exists (primary pgd c (final_memory bss_start bss_end pgd c)). split; [exact (start_primary _ _ _ _ _ c Hl mpidr Hm)|].
    pose proof (primary_launched _ _ _ _ c Hl) as Hla. split; [exact Hla|]. intros x Hx.
    destruct (linear_low x Hx) as [E1 E2]. rewrite adr_low by done. destruct (la_walk _ _ _ _ _ Hla x) as [_ ->].
    destruct (la_walk _ _ _ _ _ Hla (x - VA_START)) as [-> _]. by rewrite E1, E2.
Qed.

(** An image at 0x80000 whose .bss holds a byte. *)
Definition firmware : Core := mk_Core 2 0x3c9 0 0 0 0 0 0 0 (put_byte 0x90010 77 (put_byte 0x80004 5 ∅)).

Lemma start_spec_witness : ∃ c',
  _start (VA_START + 0x80000) (VA_START + 0x90000) (VA_START + 0x91000) (VA_START + 0x91000) (VA_START + 0x80100) 0x80000000 firmware
    = Jumps (VA_START + 0x80100) c' ∧
  el c' = 1 ∧ byte_at (phys c') 0x90010 = 0 ∧ byte_at (phys c') 0x80004 = 5 ∧
  walk (phys c') (ttbr1_el1 c') (VA_START + 0x3f200000) = Some (0x3f200000, MMU_DEVICE_FLAGS).
Proof.
  destruct (start_spec (VA_START + 0x80000) (VA_START + 0x90000) (VA_START + 0x91000) (VA_START + 0x91000) (VA_START + 0x80100) 0x80000000 firmware)
    as [_ H].
  - split; [split; [split; [discriminate|reflexivity]|reflexivity]|split; [discriminate|split; [reflexivity|discriminate]]|split; [discriminate|reflexivity]].
  - destruct (H eq_refl) as (c' & E & [L1 _ _ _ L5 _ L7 L8] & _). exists c'. split; [exact E|]. split; [exact L1|].
    split; [exact (L7 (VA_START + 0x90010) ltac:(unfold VA_START; lia))|]. split.
    + rewrite L8 by (unfold VA_START; lia). unfold firmware. cbn [phys]. rewrite !byte_at_put. reflexivity.
    + destruct (L5 (VA_START + 0x3f200000)) as [_ ->]. reflexivity.
Defined.
