(* ===== verification/SdSpec.v ===== *)
(** * The SD card driver on any board: waiting, and that it returns

    Total correctness of driver code ([runs]); the system timer as an interface
    ([Timer]); wait_msec; and the termination of the driver's functions whatever
    the card and its controller answer. *)
From stdpp Require Import base list strings.
From Stdlib Require Import ZArith Lia.
From S2P Require Import Prelude FatFormat FatBytes Sd.

#[local] Open Scope Z_scope.

(** ** Total correctness *)
Definition runs {S A} (m : M S A) (s : S) (Q : A → S → Prop) : Prop :=
  ∃ a s', m s = Done (a, s') ∧ Q a s'.

Section rules.
Context {S A B : Type}.
Implicit Types (m : M S A) (k : A → M S B).

Lemma runs_ret (a : A) s (Q : A → S → Prop) : Q a s → runs (mret a) s Q.
Proof. intros H. by exists a, s. Qed.

Lemma runs_bind m k s Q R : runs m s R → (∀ a s', R a s' → runs (k a) s' Q) → runs (m ≫= k) s Q.
Proof.
  intros (a & s1 & E & HR) Hk. destruct (Hk a s1 HR) as (b & s2 & E2 & HQ). exists b, s2. split; [|done].
  unfold mbind, M_bind. by rewrite E.
Qed.

Lemma runs_mono m s (Q R : A → S → Prop) : runs m s Q → (∀ a s', Q a s' → R a s') → runs m s R.
Proof. intros (a & s1 & E & HQ) H. exists a, s1. eauto. Qed.

Lemma runs_gets (f : S → A) k s Q : runs (k (f s)) s Q → runs (gets f ≫= k) s Q.
Proof. done. Qed.

Lemma runs_modify (f : S → S) (k : unit → M S B) s Q : runs (k tt) (f s) Q → runs (modify f ≫= k) s Q.
Proof. done. Qed.

Lemma runs_modify' (f : S → S) s (Q : unit → S → Prop) : Q tt (f s) → runs (modify f) s Q.
Proof. intros H. by exists tt, (f s). Qed.

Lemma runs_require e (o : option A) a k s Q : o = Some a → runs (k a) s Q → runs (require e o ≫= k) s Q.
Proof. by intros ->. Qed.

Lemma runs_assoc {C} (m : M S C) (f : C → M S A) k s Q : runs (m ≫= λ c, f c ≫= k) s Q → runs ((m ≫= f) ≫= k) s Q.
Proof. unfold runs, mbind, M_bind. destruct (m s) as [[c s1]|e]; done. Qed.
End rules.

(** ** The system timer

    A counter of microseconds that only grows, by less than half its range between
    two reads; it may stand still for [stall_max] reads in a row. *)
Class Timer (B : Type) `{!Bus B} := {
  clock : B → Z;
  stall : B → nat;
  stall_max : nat;
  timer_read : ∀ b, ∃ b', read_reg SYS_TIMER_CLOCK b = (u32 (clock b'), b') ∧
    clock b ≤ clock b' ≤ clock b + 2 ^ 30 ∧ (clock b < clock b' ∨ (stall b' < stall b)%nat) ∧ (stall b' ≤ stall_max)%nat
}.

(** Enough polls for the longest wait of the driver, of a second. *)
Definition patience (stall_max : nat) : nat := (Z.to_nat 1000001 * S stall_max)%nat.

(** The comparison of wait_msec, across the wrap of the 32-bit counter. *)
Lemma timer_compare now target : - 2 ^ 31 ≤ now - target < 2 ^ 31 → s32 (u32 (u32 now - u32 target)) = now - target.
Proof.
  intros H. rewrite <- (s32_id (now - target)) by done. unfold s32, u32, wrap_s, wrap_u. change (2 ^ (32 - 1)) with 2147483648.
  change (2 ^ 32) with 4294967296. f_equal. rewrite Zplus_mod_idemp_l, <- Zplus_mod_idemp_l, <- Zminus_mod, Zplus_mod_idemp_l. done.
Qed.

Section waiting.
Context {B : Type} `{!Bus B, !Timer B} (spin : nat).

(** A property of the board that reading the timer keeps. *)
Definition timeless (P : B → Prop) : Prop := ∀ b, P b → P (read_reg SYS_TIMER_CLOCK b).2.

Lemma wait_loop_ok P fuel s deadline :
  timeless P → P (board s) → deadline - clock (board s) ≤ 2 ^ 30 → (stall (board s) ≤ stall_max)%nat →
  (Z.to_nat (deadline - clock (board s)) * S stall_max + stall (board s) < fuel)%nat →
  clock (board s) ≤ deadline →
  runs (wait_loop fuel (u32 deadline)) s (λ _ s', ∃ b, s' = with_board b s ∧ deadline ≤ clock b ≤ deadline + 2 ^ 30 ∧ P b).
Proof.
  intros HP. revert s. induction fuel as [|fuel IH]; intros s Hs Hd Hst Hf Hle; [lia|].
  destruct (timer_read (board s)) as (b & Er & Hc & Hadv & Hmax). cbn [wait_loop].
  assert (P b) as Hb by (specialize (HP _ Hs); by rewrite Er in HP).
  eapply (runs_bind _ _ _ _ (λ v s', v = u32 (clock b) ∧ s' = with_board b s)).
  { exists (u32 (clock b)), (with_board b s). split; [|done]. unfold read. rewrite Er. f_equal. f_equal. apply u32_id, u32_range. }
  intros _ _ [-> ->]. rewrite timer_compare by lia. case_bool.
  - eapply runs_mono; [apply (IH (with_board b s)); cbn [board with_board]; try done; try lia|].
    + destruct Hadv as [Hadv|Hadv].
      * assert (S (Z.to_nat (deadline - clock b)) ≤ Z.to_nat (deadline - clock (board s)))%nat as Hlt by lia.
        apply (Nat.mul_le_mono_r _ _ (S stall_max)) in Hlt. lia.
      * assert (Z.to_nat (deadline - clock b) ≤ Z.to_nat (deadline - clock (board s)))%nat as Hlt by lia.
        apply (Nat.mul_le_mono_r _ _ (S stall_max)) in Hlt. lia.
    + intros _ s' (b' & -> & ? & ?). by exists b'.
  - apply runs_ret. exists b. split; [done|]. split; [lia|done].
Qed.

(** [wait_msec n] returns, after at least [n] milliseconds. *)
Lemma wait_msec_ok P n s :
  timeless P → P (board s) → 0 ≤ n ≤ 1000 → (patience stall_max ≤ spin)%nat →
  runs (wait_msec spin n) s (λ _ s', ∃ b, s' = with_board b s ∧ clock (board s) + 1000 * n ≤ clock b ≤ clock (board s) + 1000 * n + 2 ^ 31 ∧ P b).
Proof.
  intros HP Hs Hn Hsp. destruct (timer_read (board s)) as (b & Er & Hc & Hadv & Hmax). unfold wait_msec.
  assert (P b) as Hb by (specialize (HP _ Hs); by rewrite Er in HP).
  eapply (runs_bind _ _ _ _ (λ v s', v = u32 (clock b) ∧ s' = with_board b s)).
  { exists (u32 (clock b)), (with_board b s). split; [|done]. unfold read. rewrite Er. f_equal. f_equal. apply u32_id, u32_range. }
  intros _ _ [-> ->].
  assert (u32 (u32 (clock b) + u32 (n * 1000)) = u32 (clock b + 1000 * n)) as ->.
  { unfold u32, wrap_u. rewrite <- Zplus_mod. f_equal. lia. }
  eapply runs_mono; [apply (wait_loop_ok P _ (with_board b s) (clock b + 1000 * n)); cbn [board with_board]; try done; try lia|].
  - replace (clock b + 1000 * n - clock b) with (1000 * n) by lia. unfold patience in Hsp.
    assert (S (Z.to_nat (1000 * n)) ≤ Z.to_nat 1000001)%nat as Hle by lia.
    apply (Nat.mul_le_mono_r _ _ (S stall_max)) in Hle. lia.
  - intros _ s' (b' & -> & ? & ?). exists b'. split; [done|]. split; [lia|done].
Qed.
End waiting.

(** ** The driver returns on any board *)

(** The array [sd_scr] has its two elements. *)
Definition settled {B} (s : Sd B) : Prop := length (sd_scr s) = 2%nat.
Definition total {B A} (m : M (Sd B) A) : Prop := ∀ s, settled s → runs m s (λ _ s', settled s').

Section totality.
Context {B : Type} `{!Bus B, !Timer B} (spin : nat) (Hspin : (patience stall_max ≤ spin)%nat).

Lemma total_ret {A} (a : A) : total (mret a : M (Sd B) A).
Proof. intros s Hs. by apply runs_ret. Qed.
Lemma total_bind {A C} (m : M (Sd B) A) (k : A → M (Sd B) C) : total m → (∀ a, total (k a)) → total (m ≫= k).
Proof. intros Hm Hk s Hs. eapply runs_bind; [by apply Hm|]. intros a s' Hs'. by apply Hk. Qed.
Lemma total_gets {A} (f : Sd B → A) : total (gets f).
Proof. intros s Hs. by exists (f s), s. Qed.
Lemma total_modify (f : Sd B → Sd B) : (∀ s, settled s → settled (f s)) → total (modify f).
Proof. intros Hf s Hs. exists tt, (f s). auto. Qed.
Lemma total_read a : total (read a : M (Sd B) Z).
Proof. intros s Hs. unfold runs, read. destruct (read_reg a (board s)) as [v b]. by exists (u32 v), (with_board b s). Qed.
Lemma total_write a v : total (write a v : M (Sd B) unit).
Proof. by apply total_modify. Qed.
Lemma total_puts m : total (uart_puts m : M (Sd B) unit).
Proof. by apply total_modify. Qed.
Lemma total_set_err v : total (set_err v : M (Sd B) unit).
Proof. by apply total_modify. Qed.
Lemma total_wait n : 0 ≤ n ≤ 1000 → total (wait_msec spin n : M (Sd B) unit).
Proof.
  intros Hn s Hs. eapply runs_mono; [by apply (wait_msec_ok spin (λ _, True))|]. by intros _ s' (b & -> & _).
Qed.
Lemma total_scr0 : total (scr0 : M (Sd B) Z).
Proof.
  intros s Hs. unfold settled in Hs. destruct s as [[|x [|y [|]]] rca e h b c]; try done. by exists x, (mk_Sd [x; y] rca e h b c).
Qed.
Lemma total_has_err : total (has_err : M (Sd B) bool).
Proof. apply total_bind; [apply total_gets|]. intros e. apply total_ret. Qed.

Lemma total_poll n (busy : M (Sd B) bool) ms : total busy → 0 ≤ ms ≤ 1000 → total (poll spin n busy ms).
Proof.
  intros Hb Hms. induction n as [|n IH]; cbn [poll]; (apply total_bind; [done|]); intros [|]; try apply total_ret.
  apply total_bind; [by apply total_wait|]. by intros _.
Qed.
End totality.

Create HintDb total discriminated.
#[export] Hint Constants Opaque : total.
#[export] Hint Resolve total_ret total_gets total_read total_write total_puts total_set_err total_scr0 total_has_err : total.

(** Descends through the code: binds, tests, and the operations known to return. *)
Ltac total_auto :=
  repeat match goal with
  | |- total (mbind _ _) => apply total_bind
  | |- total (if ?b then _ else _) => destruct b
  | |- total (match ?p with _ => _ end) => destruct p
  | |- total (modify _) => apply total_modify; done
  | |- total (wait_msec _ _) => apply total_wait; done || lia
  | |- total _ => solve [eauto 2 with total]
  | |- ∀ _, _ => intros ?
  end.

Section terminates.
Context {B : Type} `{!Bus B, !Timer B} (spin : nat) (Hspin : (patience stall_max ≤ spin)%nat).

Lemma total_int_error : total (int_error : M (Sd B) bool).
Proof. unfold int_error. total_auto. Qed.
#[local] Hint Resolve total_int_error : total.

Lemma total_status mask : total (sd_status spin mask : M (Sd B) Z).
Proof. unfold sd_status. apply total_bind; [apply total_poll; [done|total_auto|done]|]; total_auto. Qed.
Lemma total_int mask : total (sd_int spin mask : M (Sd B) Z).
Proof. unfold sd_int. cbv zeta. apply total_bind; [apply total_poll; [done|total_auto|done]|]; total_auto. Qed.
#[local] Hint Resolve total_status total_int : total.

Lemma total_result code arg r : total (command_result code arg r : M (Sd B) Z).
Proof. unfold command_result. total_auto. Qed.
#[local] Hint Resolve total_result : total.
Lemma total_issue code arg : total (issue_command spin code arg : M (Sd B) Z).
Proof. unfold issue_command. total_auto. Qed.
#[local] Hint Resolve total_issue : total.
Lemma total_command code arg : total (sd_execute_command spin code arg : M (Sd B) Z).
Proof. unfold sd_execute_command. total_auto. Qed.
#[local] Hint Resolve total_command : total.

Lemma total_open_transfer single multi lba num : total (open_transfer spin single multi lba num : M (Sd B) bool).
Proof. unfold open_transfer. total_auto. Qed.
Lemma total_start_block single lba c ready m : total (start_block spin single lba c ready m : M (Sd B) bool).
Proof. unfold start_block. total_auto. Qed.
Lemma total_set_clock f : total (sd_set_clock spin f : M (Sd B) Z).
Proof.
  unfold sd_set_clock. apply total_bind; [apply total_poll; [done|total_auto|done]|]. total_auto.
  apply total_poll; [done|total_auto|done].
Qed.
Lemma total_reset : total (reset_emmc spin : M (Sd B) Z).
Proof. unfold reset_emmc. total_auto. apply total_poll; [done|total_auto|done]. Qed.
Lemma total_card_loop n r : total (card_loop spin n r : M (Sd B) (Z + Z * Z)).
Proof. revert r. induction n as [|n IH]; intros r; cbn [card_loop]; total_auto. Qed.

(** ** Transfers of blocks *)
Lemma read_words_total n d buffer s :
  settled s → 0 ≤ d → 4 * (d + Z.of_nat n) ≤ Z.of_nat (length buffer) →
  runs (read_words n d buffer) s (λ b s', settled s' ∧ length b = length buffer).
Proof.
  revert d buffer s. induction n as [|n IH]; intros d buffer s Hs Hd Hl; cbn [read_words]; [by apply runs_ret|].
  eapply runs_bind; [by apply total_read|]. intros w s1 Hs1.
  eapply (runs_bind _ _ _ _ (λ b s', b = put32 (4 * d) w buffer ∧ s' = s1)).
  { unfold put_word. rewrite (proj2 (Z.ltb_ge d 0)), (proj2 (Z.ltb_ge _ (4 * d + 4))) by lia. by apply runs_ret. }
  intros b0 s2 [-> ->]. eapply runs_mono; [apply IH; rewrite ?put32_length; done || lia|].
  cbv beta. intros b s'. by rewrite put32_length.
Qed.

Lemma write_words_total n d buffer s :
  settled s → 0 ≤ d → 4 * (d + Z.of_nat n) ≤ Z.of_nat (length buffer) →
  runs (write_words n d buffer) s (λ _ s', settled s').
Proof.
  revert d s. induction n as [|n IH]; intros d s Hs Hd Hl; cbn [write_words]; [by apply runs_ret|].
  eapply (runs_bind _ _ _ _ (λ _ s', s = s')).
  { unfold get_word. rewrite (proj2 (Z.ltb_ge d 0)), (proj2 (Z.ltb_ge _ (4 * d + 4))) by lia. by apply runs_ret. }
  intros w s2 <-. eapply runs_bind; [by apply total_write|]. intros u s1 Hs1. by apply IH; [|lia..].
Qed.

Lemma read_blocks_total n lba c buffer s :
  settled s → 0 ≤ c → 512 * (c + Z.of_nat n) ≤ Z.of_nat (length buffer) →
  runs (read_blocks spin n lba c buffer) s (λ p s', settled s' ∧ length p.2 = length buffer).
Proof.
  revert c buffer s. induction n as [|n IH]; intros c buffer s Hs Hc Hl; cbn [read_blocks]; [by apply runs_ret|].
  eapply runs_bind; [by apply total_start_block|]. intros [|] s1 Hs1; [|by apply runs_ret].
  eapply runs_bind; [apply read_words_total; done || lia|]. intros b s2 [Hs2 Hb].
  eapply runs_mono; [apply IH; done || lia|]. cbv beta. by rewrite Hb.
Qed.

Lemma write_blocks_total n lba c buffer s :
  settled s → 0 ≤ c → 512 * (c + Z.of_nat n) ≤ Z.of_nat (length buffer) →
  runs (write_blocks spin n lba c buffer) s (λ _ s', settled s').
Proof.
  revert c s. induction n as [|n IH]; intros c s Hs Hc Hl; cbn [write_blocks]; [by apply runs_ret|].
  eapply runs_bind; [by apply total_start_block|]. intros [|] s1 Hs1; [|by apply runs_ret].
  eapply runs_bind; [apply write_words_total; done || lia|]. intros u s2 Hs2. by apply IH; [|lia..].
Qed.

(** A transfer of [num] blocks answers 0, or the bytes moved and no error. *)
Definition answers (num r : Z) (s : Sd B) : Prop := r = 0 ∨ r = s32 (u32 (num * 512)) ∧ sd_err s = 0.

Lemma close_transfer_total num s :
  settled s → runs (close_transfer spin num) s (λ r s', settled s' ∧ answers num r s').
Proof.
  intros Hs. unfold close_transfer. eapply runs_bind; [by apply total_scr0|]. intros scr s1 Hs1.
  eapply (runs_bind _ _ _ _ (λ _ s', settled s')); [case_match; [|by apply runs_ret]|].
  { eapply runs_bind; [by apply total_command|]. intros r s2 Hs2. by apply runs_ret. }
  intros u s2 Hs2. unfold has_err. apply runs_assoc, runs_gets, runs_ret.
  split; [done|]. destruct (Z.eqb_spec (sd_err s2) 0) as [E|E]; cbn [negb]; [by right|by left].
Qed.

Definition blocks (num : Z) : Z := if num <? 1 then 1 else num.

Lemma sd_readblock_total lba buffer num s :
  settled s → 512 * blocks num ≤ Z.of_nat (length buffer) →
  runs (sd_readblock spin lba buffer num) s
    (λ p s', settled s' ∧ answers (blocks num) p.1 s' ∧ length p.2 = length buffer).
Proof.
  intros Hs Hl. unfold sd_readblock. fold (blocks num). cbv zeta.
  assert (0 < blocks num) as Hn by (unfold blocks; case_bool; lia).
  assert (∀ s', settled s' → runs (mret (0, buffer)) s'
    (λ p s', settled s' ∧ answers (blocks num) p.1 s' ∧ length p.2 = length buffer)) as Hfail.
  { intros s' Hs'. apply runs_ret. split; [done|]. split; [by left|done]. }
  eapply runs_bind; [by apply total_status|]. intros st s1 Hs1. case_match.
  { apply runs_modify. by apply Hfail. }
  eapply runs_bind; [by apply total_open_transfer|]. intros [|] s2 Hs2; [|by apply Hfail].
  eapply runs_bind; [apply read_blocks_total; done || lia|]. intros [[|] b] s3 [Hs3 Hb]; cbn [fst snd] in *.
  - eapply runs_bind; [by apply close_transfer_total|]. intros r s4 [Hs4 Ha]. by apply runs_ret.
  - apply runs_ret. split; [done|]. split; [by left|done].
Qed.

Lemma sd_writeblock_total buffer lba num s :
  settled s → 512 * blocks num ≤ Z.of_nat (length buffer) →
  runs (sd_writeblock spin buffer lba num) s (λ r s', settled s' ∧ answers (blocks num) r s').
Proof.
  intros Hs Hl. unfold sd_writeblock. fold (blocks num). cbv zeta.
  assert (0 < blocks num) as Hn by (unfold blocks; case_bool; lia).
  assert (∀ s', settled s' → runs (mret 0) s' (λ r s', settled s' ∧ answers (blocks num) r s')) as Hfail.
  { intros s' Hs'. apply runs_ret. split; [done|]. by left. }
  eapply runs_bind; [by apply total_status|]. intros st s1 Hs1. case_match.
  { apply runs_modify. by apply Hfail. }
  eapply runs_bind; [by apply total_open_transfer|]. intros [|] s2 Hs2; [|by apply Hfail].
  eapply runs_bind; [apply write_blocks_total; done || lia|]. intros [|] s3 Hs3; [|by apply Hfail].
  eapply runs_bind; [by apply total_int|]. intros r s4 Hs4. case_match; [|by apply close_transfer_total].
  apply runs_modify, runs_modify. by apply Hfail.
Qed.
End terminates.
