(* ===== verification/SdClock.v ===== *)
(** * The clock of the SD card: the divisor sd_set_clock programs *)
From stdpp Require Import base list strings.
From Stdlib Require Import ZArith Lia.
From S2P Require Import Prelude Sd.

#[local] Open Scope Z_scope.

(** ** The normalisation of [x = c - 1]: s is the place of its highest bit *)
Lemma top_bits y k n : 0 ≤ k → 0 ≤ n → 0 ≤ y < 2 ^ (k + n) → Z.land y (Z.shiftl (Z.ones n) k) = Z.shiftl (y / 2 ^ k) k.
Proof.
  intros Hk Hn Hy. rewrite <- Z.shiftr_div_pow2 by done. apply Z.bits_inj'. intros i Hi.
  rewrite Z.land_spec, !Z.shiftl_spec by done. destruct (decide (i < k)) as [Hlt|Hge].
  { rewrite !(Z.testbit_neg_r _ (i - k)) by lia. apply andb_false_r. }
  rewrite Z.shiftr_spec by lia. replace (i - k + k) with i by lia. destruct (decide (i < k + n)) as [H|H].
  - rewrite Z.ones_spec_low by lia. apply andb_true_r.
  - assert (y < 2 ^ i) by (apply Z.lt_le_trans with (2 ^ (k + n)); [lia|apply Z.pow_le_mono_r; lia]).
    by rewrite <- (Z.mod_small y (2 ^ i)), Z.mod_pow2_bits_high by lia.
Qed.

Lemma narrow_ok x s n :
  0 < n ≤ 16 → 2 * n ≤ s ≤ 32 → 2 ^ (32 - 2 * n) ≤ x * 2 ^ (32 - s) < 2 ^ 32 →
  ∃ s', narrow (Z.shiftl (Z.ones n) (32 - n)) n (x * 2 ^ (32 - s), s) = (x * 2 ^ (32 - s'), s') ∧ n ≤ s' ≤ 32 ∧
    2 ^ (32 - n) ≤ x * 2 ^ (32 - s') < 2 ^ 32.
Proof.
  intros Hn Hs Hx. unfold narrow, test. cbn [fst snd].
  rewrite top_bits by (replace (32 - n + n) with 32 by lia; lia). rewrite Z.shiftl_mul_pow2 by lia.
  assert (0 < 2 ^ (32 - n)) by lia. pose proof (Z.div_mod (x * 2 ^ (32 - s)) (2 ^ (32 - n)) ltac:(lia)) as Hdiv.
  pose proof (Z.mod_pos_bound (x * 2 ^ (32 - s)) (2 ^ (32 - n)) ltac:(lia)).
  destruct (Z.eqb_spec (x * 2 ^ (32 - s) / 2 ^ (32 - n) * 2 ^ (32 - n)) 0) as [E|E]; cbn [negb].
  - assert (x * 2 ^ (32 - s) < 2 ^ (32 - n)) as Hlt by nia.
    assert (Z.shiftl (x * 2 ^ (32 - s)) n = x * 2 ^ (32 - (s - n))) as ->.
    { rewrite Z.shiftl_mul_pow2, <- Z.mul_assoc, <- Z.pow_add_r by lia. do 2 f_equal. lia. }
    exists (s - n). assert (x * 2 ^ (32 - (s - n)) = x * 2 ^ (32 - s) * 2 ^ n) as Epow.
    { rewrite <- Z.mul_assoc, <- Z.pow_add_r by lia. do 2 f_equal. lia. }
    assert (2 ^ 32 = 2 ^ (32 - n) * 2 ^ n) as E32 by (rewrite <- Z.pow_add_r by lia; f_equal; lia).
    assert (2 ^ (32 - n) = 2 ^ (32 - 2 * n) * 2 ^ n) as En by (rewrite <- Z.pow_add_r by lia; f_equal; lia).
    assert (0 < 2 ^ n) by lia. assert (2 ^ (32 - n) ≤ x * 2 ^ (32 - (s - n)) < 2 ^ 32) as Hr by (rewrite Epow; nia).
    rewrite (u32_id (s - n)) by lia. rewrite u32_id by (split; [etransitivity; [|apply Hr]; lia|apply Hr]).
    split; [done|]. split; [lia|done].
  - exists s. split; [done|]. split; [lia|]. split; [|lia].
    set (q := x * 2 ^ (32 - s) / 2 ^ (32 - n)) in *. set (y := x * 2 ^ (32 - s)) in *.
    assert (0 ≤ q) by (apply Z.div_pos; [|lia]; apply Z.le_trans with (2 ^ (32 - 2 * n)); lia).
    assert (q ≠ 0) by (intros ->; by apply E). nia.
Qed.

Lemma clock_shift_log2 x : 0 < x < 2 ^ 32 → clock_shift x = Z.min 7 (Z.log2 x).
Proof.
  intros Hx. unfold clock_shift. rewrite (proj2 (Z.eqb_neq x 0)) by lia.
  change 0xffff0000 with (Z.shiftl (Z.ones 16) (32 - 16)). change 0xff000000 with (Z.shiftl (Z.ones 8) (32 - 8)).
  change 0xf0000000 with (Z.shiftl (Z.ones 4) (32 - 4)). change 0xc0000000 with (Z.shiftl (Z.ones 2) (32 - 2)).
  change 0x80000000 with (Z.shiftl (Z.ones 1) (32 - 1)).
  assert ((x, 32) = (x * 2 ^ (32 - 32), 32)) as -> by (f_equal; change (2 ^ (32 - 32)) with 1; lia).
  destruct (narrow_ok x 32 16) as (s1 & -> & H1 & B1); [lia|lia|change (2 ^ (32 - 32)) with 1; change (2 ^ (32 - 2 * 16)) with 1; lia|].
  destruct (narrow_ok x s1 8) as (s2 & -> & H2 & B2); [lia|lia|exact B1|].
  destruct (narrow_ok x s2 4) as (s3 & -> & H3 & B3); [lia|lia|exact B2|].
  destruct (narrow_ok x s3 2) as (s4 & -> & H4 & B4); [lia|lia|exact B3|].
  destruct (narrow_ok x s4 1) as (s5 & -> & H5 & B5); [lia|lia|exact B4|]. cbn [snd].
  assert (Z.log2 x = s5 - 1) as ->.
  { apply Z.log2_unique; [lia|]. replace (Z.succ (s5 - 1)) with s5 by lia.
    assert (2 ^ 32 = 2 ^ s5 * 2 ^ (32 - s5)) as E by (rewrite <- Z.pow_add_r by lia; f_equal; lia).
    assert (2 ^ (32 - 1) = 2 ^ (s5 - 1) * 2 ^ (32 - s5)) as E' by (rewrite <- Z.pow_add_r by lia; f_equal; lia).
    split; [apply (Z.mul_le_mono_pos_r _ _ (2 ^ (32 - s5)))|apply (Z.mul_lt_mono_pos_r (2 ^ (32 - s5)))];
      rewrite <- ?E, <- ?E'; lia. }
  rewrite (proj2 (Z.ltb_lt 0 s5)) by lia. case_bool; lia.
Qed.

(** The divisor is at least half of what was asked for, so that the clock of the
    card, the base clock over twice the divisor, is not above [f]. *)
Lemma clock_divisor_ok hv f :
  0 < f ≤ 41666666 → hv ≤ HOST_SPEC_V2 → 41666666 / f ≤ 256 →
  2 ≤ clock_divisor hv f ≤ 128 ∧ 41666666 / f ≤ 2 * clock_divisor hv f ∧
  (clock_divisor hv f < 41666666 / f ∨ clock_divisor hv f = 2).
Proof.
  intros Hf Hhv Hc. unfold clock_divisor. rewrite (proj2 (Z.ltb_ge HOST_SPEC_V2 hv)) by done. cbv zeta.
  assert (1 ≤ 41666666 / f) by (apply Z.div_le_lower_bound; lia).
  set (c := 41666666 / f) in *. rewrite u32_id by lia. destruct (decide (c = 1)) as [->|Hne]; [split; [split|split; [|right]]; cbv; done|].
  rewrite clock_shift_log2 by lia. pose proof (Z.log2_spec (c - 1) ltac:(lia)) as Hl. pose proof (Z.log2_nonneg (c - 1)).
  assert (Z.log2 (c - 1) < 8) as H8 by (apply Z.log2_lt_pow2; lia). rewrite Z.min_r by lia. rewrite Z.shiftl_1_l.
  rewrite Z.pow_succ_r in Hl by done. assert (2 ^ Z.log2 (c - 1) ≤ 2 ^ 7) by (apply Z.pow_le_mono_r; lia). case_bool; lia.
Qed.

(** ** The bits of CONTROL1 *)

(** The divisor a controller reads in them: eight bits, and two more above. *)
Definition divisor_field (bits : Z) : Z :=
  Z.land (Z.shiftr bits 8) 0xff + 256 * Z.land (Z.shiftr bits 6) 3.

Definition divisor_bits (hv d : Z) : Z :=
  Z.lor (Z.shiftl (Z.land d 0xff) 8) (if HOST_SPEC_V2 <? hv then Z.shiftr (Z.land d 0x300) 2 else 0).

Lemma below_check (n : Z) (P : Z → bool) : forallb P (seqZ 0 n) = true → ∀ d, 0 ≤ d < n → P d = true.
Proof. intros H d Hd. apply forallb_forall with (x := d) in H; [done|]. apply list_elem_of_In, elem_of_seqZ. lia. Qed.

Lemma divisor_round_trip hv d :
  0 ≤ d < (if HOST_SPEC_V2 <? hv then 1024 else 256) →
  divisor_field (divisor_bits hv d) = d ∧ Z.land (divisor_bits hv d) 0xffff003f = 0.
Proof.
  intros Hd. unfold divisor_bits. destruct (HOST_SPEC_V2 <? hv); rewrite <- (Z.eqb_eq (divisor_field _)), <- Z.eqb_eq, <- andb_true_iff.
  - apply (below_check 1024 (λ d, (divisor_field (Z.lor (Z.shiftl (Z.land d 0xff) 8) (Z.shiftr (Z.land d 0x300) 2)) =? d) &&
      (Z.land (Z.lor (Z.shiftl (Z.land d 0xff) 8) (Z.shiftr (Z.land d 0x300) 2)) 0xffff003f =? 0))); [vm_compute; reflexivity|done].
  - apply (below_check 256 (λ d, (divisor_field (Z.lor (Z.shiftl (Z.land d 0xff) 8) 0) =? d) &&
      (Z.land (Z.lor (Z.shiftl (Z.land d 0xff) 8) 0) 0xffff003f =? 0))); [vm_compute; reflexivity|done].
Qed.

(** C39: the clock setting: for a frequency [f] with a ratio [c] to the base clock
    that fits the controller (256, or the ten bits of a version 3 host), the bits
    sd_set_clock puts in CONTROL1 leave the others alone and encode a divisor
    [d ≥ 2] with [c ≤ 2 d]: the card's clock (the base clock over [2 d]) is not
    above the ratio asked for; and [d] is below [c] (or 2) on an older host, whose
    divisors are powers of two, and [c] itself on a version 3 one. *)
Theorem clock_bits_spec hv f :
  0 < f ≤ 41666666 → 41666666 / f ≤ (if HOST_SPEC_V2 <? hv then 1023 else 256) →
  let c := 41666666 / f in
  let d := clock_divisor hv f in
  divisor_field (clock_bits hv f) = d ∧ Z.land (clock_bits hv f) 0xffff003f = 0 ∧
  2 ≤ d ∧ c ≤ 2 * d ∧ (if HOST_SPEC_V2 <? hv then d = Z.max 2 c else d < c ∨ d = 2).
Proof.
  intros Hf Hc. cbv zeta. destruct (Z.ltb_spec HOST_SPEC_V2 hv) as [Hhv|Hhv].
  - assert (clock_divisor hv f = Z.max 2 (41666666 / f)) as E.
    { unfold clock_divisor. rewrite (proj2 (Z.ltb_lt HOST_SPEC_V2 hv)) by done. cbv zeta. case_bool; lia. }
    destruct (divisor_round_trip hv (clock_divisor hv f)) as [H1 H2].
    { rewrite (proj2 (Z.ltb_lt HOST_SPEC_V2 hv)) by done. lia. }
    split; [exact H1|]. split; [exact H2|]. lia.
  - destruct (clock_divisor_ok hv f Hf Hhv Hc) as (Hd & H2d & Hle).
    destruct (divisor_round_trip hv (clock_divisor hv f)) as [H1 H2].
    { rewrite (proj2 (Z.ltb_ge HOST_SPEC_V2 hv)) by done. lia. }
    split; [exact H1|]. split; [exact H2|]. lia.
Qed.

Lemma clock_bits_spec_witness :
  (0 < 400000 ≤ 41666666) ∧ clock_divisor 1 400000 = 64 ∧ clock_divisor 2 400000 = 104 ∧ divisor_field (clock_bits 2 400000) = 104.
Proof.
  split; [lia|]. split; [vm_compute; reflexivity|]. split; [vm_compute; reflexivity|].
  refine (eq_trans (proj1 (clock_bits_spec 2 400000 _ _)) _); [lia|vm_compute; discriminate|vm_compute; reflexivity].
Defined.
