(* ===== verification/Filesystem.v ===== *)
(** * The file system of the kernel: libs/filesystem.c

    The SD card's operations as DiskOps, mounting at start-up, and the functions
    that put a process's path under the mount point.  The disk of the FAT library is
    the state of the driver (Sd.v). *)
From stdpp Require Import base gmap list.
From Stdlib Require Import ZArith Lia.
From S2P Require Import Prelude FatFormat FatVolume FatDir FatFile Sd.

#[local] Open Scope Z_scope.

Definition SD_FILESYSTEM_INIT_OK : Z := 0.
Definition SD_FILESYSTEM_INIT_ERROR : Z := 1.
Definition FAT_MAX_PATH_SIZE : Z := 128.

Section filesystem.
Context {B : Type} `{!Bus B} (spin : nat).

(** The address of the object [g_fat]. *)
Context (g_fat : Z).

Definition sd_read_adapter (buffer : list Z) (sector : Z) (d : Sd B) : outcome (bool * list Z * Sd B) :=
  match sd_readblock spin sector buffer 1 d with
  | Done (res, buffer, d) => Done (negb (res =? 0), buffer, d)
  | Fault e => Fault e
  end.
Definition sd_write_adapter (buffer : list Z) (sector : Z) (d : Sd B) : outcome (bool * Sd B) :=
  match sd_writeblock spin buffer sector 1 d with
  | Done (res, d) => Done (negb (res =? 0), d)
  | Fault e => Fault e
  end.

Definition disk_operations : DiskOps (Sd B) := mk_DiskOps (Sd B) sd_read_adapter sd_write_adapter.

(** The driver's code on the state of the FAT library, whose disk it is. *)
Definition on_card {A} (m : M (Sd B) A) : E (FatSys (Sd B)) A := λ t,
  match m (s_disk t) with
  | Done (a, d) => Done (inr a, mk_FatSys (g_fat_list t) (fats t) d (s_buf t) (s_len t) (s_crc t))
  | Fault e => Fault e
  end.

Definition sd_filesystem_init : E (FatSys (Sd B)) Z :=
  sd_result ← on_card (sd_init spin);
  if negb (sd_result =? SD_OK) then mret SD_FILESYSTEM_INIT_ERROR else
  r ← catch (fat_probe disk_operations 0);
  match r with
  | inl _ => mret SD_FILESYSTEM_INIT_ERROR
  | inr _ =>
    r ← catch (fat_mount disk_operations 0 g_fat [109; 110; 116]);
    match r with
    | inl _ => mret SD_FILESYSTEM_INIT_ERROR
    | inr _ => mret SD_FILESYSTEM_INIT_OK
    end
  end.
End filesystem.

(** ["/mnt/"] and the path, when they fit in the array [complete_path]. *)
Definition mount_prefix : list Z := [47; 109; 110; 116; 47].
Definition complete_path (path : list Z) : option (list Z) :=
  if FAT_MAX_PATH_SIZE <=? Z.of_nat (length mount_prefix) + Z.of_nat (length path) then None
  else Some (mount_prefix ++ path).

Section paths.
Context {D : Type}.

Definition create_dir (dir_path : list Z) : E (Dir * FatSys D) unit :=
  match complete_path dir_path with None => throw (-1) | Some p => fat_dir_create p end.
Definition open_dir (dir_path : list Z) : E (Dir * FatSys D) unit :=
  match complete_path dir_path with None => throw (-1) | Some p => fat_dir_open p end.
Definition open_file (file_path : list Z) (flags : Z) : E (File * FatSys D) unit :=
  match complete_path file_path with None => throw (-1) | Some p => fat_file_open p flags end.
End paths.
