(* ===== verification/SdHost.v ===== *)
(** * The SD card driver on a working controller

    What the driver relies on of the EMMC controller and the card ([SdHost]), a
    controller that has it ([Emmc]), and the blocks read and written through it:
    the driver is a block device for the FAT library. *)
From stdpp Require Import base list strings.
From Stdlib Require Import ZArith Lia.
From S2P Require Import Prelude FatFormat FatVolume FatBytes FatVolumeSpec Sd SdSpec Filesystem.

#[local] Open Scope Z_scope.

(** ** The words of a block *)

(** The [n] words of [b] from the [d]-th on, and the words [ws] put there. *)
Fixpoint words_from (n : nat) (d : Z) (b : list Z) : list Z :=
  match n with O => [] | S n => get32 b (4 * d) :: words_from n (d + 1) b end.
Fixpoint put_words (ws : list Z) (d : Z) (b : list Z) : list Z :=
  match ws with [] => b | w :: ws => put_words ws (d + 1) (put32 (4 * d) w b) end.
Definition words (b : list Z) : list Z := words_from 128 0 b.
Definition unwords (ws : list Z) : list Z := put_words ws 0 zero_sector.

Lemma words_from_length n d b : length (words_from n d b) = n.
Proof. revert d. induction n as [|n IH]; intros d; cbn; [done|]. by rewrite IH. Qed.

Lemma get8_list_eq b1 b2 : length b1 = length b2 → (∀ i, 0 ≤ i < Z.of_nat (length b1) → get8 b1 i = get8 b2 i) → b1 = b2.
Proof.
  intros Hl H. apply list_eq_same_length with (length b1); [done|done|]. intros i x y Hi Hx Hy.
  specialize (H (Z.of_nat i) ltac:(lia)). unfold get8 in H. rewrite Nat2Z.id, Hx, Hy in H. done.
Qed.

Lemma get8_put16 i v b j :
  0 ≤ i → i + 2 ≤ Z.of_nat (length b) → 0 ≤ j →
  get8 (put16 i v b) j = if j =? i then u8 v else if j =? i + 1 then u8 (v / 256) else get8 b j.
Proof.
  intros Hi Hl Hj. unfold put16. destruct (Z.eqb_spec j i) as [->|]; [rewrite get8_put8_ne, get8_put8 by lia; done|].
  destruct (Z.eqb_spec j (i + 1)) as [->|]; [rewrite get8_put8 by (rewrite put8_length; lia); done|].
  by rewrite !get8_put8_ne by lia.
Qed.

(** Copying a word copies its four bytes. *)
Lemma get8_put32_get32 c b i j :
  bytes c → 0 ≤ i → i + 4 ≤ Z.of_nat (length b) → 0 ≤ j →
  get8 (put32 i (get32 c i) b) j = if (i <=? j) && (j <? i + 4) then get8 c j else get8 b j.
Proof.
  intros Hc Hi Hl Hj. unfold put32. rewrite !get8_put16 by (rewrite ?put16_length; lia).
  pose proof (get8_range c i Hc). pose proof (get8_range c (i + 1) Hc). pose proof (get8_range c (i + 2) Hc).
  pose proof (get8_range c (i + 2 + 1) Hc). unfold get32, get16, u8, wrap_u. change (2 ^ 8) with 256.
  destruct (Z.eqb_spec j (i + 2)) as [->|]; [|destruct (Z.eqb_spec j (i + 2 + 1)) as [->|];
    [|destruct (Z.eqb_spec j i) as [->|]; [|destruct (Z.eqb_spec j (i + 1)) as [->|]]]].
  5: { replace ((i <=? j) && (j <? i + 4)) with false; [done|]. symmetry. apply andb_false_iff.
       destruct (Z.leb_spec i j); [right; apply Z.ltb_ge; lia|by left]. }
  all: replace ((_ <=? _) && (_ <? _)) with true by (symmetry; apply andb_true_iff; split; [apply Z.leb_le|apply Z.ltb_lt]; lia).
  all: Z.div_mod_to_equations; lia.
Qed.

Lemma put_words_get8 n d c b j :
  bytes c → 0 ≤ d → 4 * (d + Z.of_nat n) ≤ Z.of_nat (length b) → 0 ≤ j →
  length (put_words (words_from n d c) d b) = length b ∧
  get8 (put_words (words_from n d c) d b) j = if (4 * d <=? j) && (j <? 4 * (d + Z.of_nat n)) then get8 c j else get8 b j.
Proof.
  intros Hc. revert d b. induction n as [|n IH]; intros d b Hd Hl Hj; cbn [words_from put_words].
  - split; [done|]. replace ((4 * d <=? j) && (j <? 4 * (d + Z.of_nat 0))) with false; [done|].
    symmetry. apply andb_false_iff. destruct (Z.leb_spec (4 * d) j); [right; apply Z.ltb_ge; lia|by left].
  - destruct (IH (d + 1) (put32 (4 * d) (get32 c (4 * d)) b)) as [-> ->]; [lia|rewrite put32_length; lia|done|].
    rewrite put32_length. split; [done|]. rewrite get8_put32_get32 by (done || lia).
    destruct (Z.leb_spec (4 * (d + 1)) j), (Z.ltb_spec j (4 * (d + 1 + Z.of_nat n))), (Z.leb_spec (4 * d) j),
      (Z.ltb_spec j (4 * d + 4)), (Z.ltb_spec j (4 * (d + Z.of_nat (S n)))); cbn [andb]; try done; lia.
Qed.

(** All the words of a sector make it. *)
Lemma put_words_sector c b : is_sector c → length b = 512%nat → put_words (words c) 0 b = c.
Proof.
  intros [Hl Hb] Hbl. unfold words. apply get8_list_eq.
  { rewrite (proj1 (put_words_get8 128 0 c b 0 Hb ltac:(lia) ltac:(lia) ltac:(lia))). lia. }
  intros j Hj. rewrite (proj1 (put_words_get8 128 0 c b 0 Hb ltac:(lia) ltac:(lia) ltac:(lia))) in Hj.
  rewrite (proj2 (put_words_get8 128 0 c b j Hb ltac:(lia) ltac:(lia) ltac:(lia))).
  replace ((4 * 0 <=? j) && (j <? 4 * (0 + Z.of_nat 128))) with true; [done|].
  symmetry. apply andb_true_iff. split; [apply Z.leb_le|apply Z.ltb_lt]; lia.
Qed.

Lemma unwords_words c : is_sector c → unwords (words c) = c.
Proof. intros Hc. apply put_words_sector; [done|apply zero_sector_wf]. Qed.

(** ** The controller and the card *)

(** What a controller that has been given a command waits for. *)
Inductive stage : Type :=
| Replying (wr : bool) (s : Z)
| ReadReady (s : Z)
| WriteReady (s : Z)
| DataDone.

(** The controller between commands, with its registers BLKSIZECNT and ARG1; about
    to raise an interrupt after [n] more polls; with words of a block to be read,
    and with the words of a block written so far. *)
Inductive phase : Type :=
| Idle (blk arg : Z)
| Waiting (n : nat) (w : stage)
| Sending (ws : list Z)
| Receiving (s : Z) (ws : list Z).

Definition flag (w : stage) : Z :=
  match w with
  | Replying _ _ => INT_CMD_DONE
  | ReadReady _ => INT_READ_RDY
  | WriteReady _ => INT_WRITE_RDY
  | DataDone => INT_DATA_DONE
  end.

(** In time for the 1000000 polls of sd_int. *)
Definition prompt (n : nat) : Prop := Z.of_nat n < 1000000.

(** The phase after an interrupt is acknowledged. *)
Definition follows (im : image) (w : stage) (p : phase) : Prop :=
  match w with
  | Replying false s => ∃ n, prompt n ∧ p = Waiting n (ReadReady s)
  | Replying true s => ∃ n, prompt n ∧ p = Waiting n (WriteReady s)
  | ReadReady s => p = Sending (words (im s))
  | WriteReady s => p = Receiving s []
  | DataDone => ∃ blk arg, p = Idle blk arg
  end.

(** The phase after a word is read, [ws] being left. *)
Definition sent (ws : list Z) (p : phase) : Prop :=
  match ws with [] => ∃ blk arg, p = Idle blk arg | _ => p = Sending ws end.

Definition one_block : Z := Z.lor (Z.shiftl 1 16) 512.
Definition INT_FAILED : Z := Z.lor INT_ERROR_MASK (Z.lor INT_CMD_TIMEOUT INT_DATA_TIMEOUT).
Definition SR_BUSY : Z := Z.lor SR_CMD_INHIBIT (Z.lor SR_DAT_INHIBIT SR_WRITE_AVAILABLE).

Definition reads {B} `{!Bus B} (a : Z) (b : B) (v : Z) (b' : B) : Prop := ∃ w, read_reg a b = (w, b') ∧ u32 w = v.

(** A controller and a card that answer every command on a sector of the card:
    [card] is its contents and [host] the phase of the controller. *)
Class SdHost (B : Type) `{!Bus B, !Timer B} := {
  high_capacity : bool;
  card_size : Z;
  card_size_ok : 0 ≤ card_size ∧ card_size * (if high_capacity then 1 else 512) ≤ 2 ^ 32;
  host : B → phase → Prop;
  card : B → image;
  card_wf : ∀ b s, is_sector (card b s);
  host_clock : ∀ b p, host b p → host (read_reg SYS_TIMER_CLOCK b).2 p ∧ card (read_reg SYS_TIMER_CLOCK b).2 = card b;
  host_status : ∀ b k a, host b (Idle k a) →
    ∃ v b', reads EMMC_STATUS b v b' ∧ Z.land v SR_BUSY = 0 ∧ host b' (Idle k a) ∧ card b' = card b;
  host_pending : ∀ b k a, host b (Idle k a) →
    ∃ v b', reads EMMC_INTERRUPT b v b' ∧ Z.land v INT_FAILED = 0 ∧ host b' (Idle k a) ∧ card b' = card b;
  host_clear : ∀ b k a v, host b (Idle k a) →
    host (write_reg EMMC_INTERRUPT v b) (Idle k a) ∧ card (write_reg EMMC_INTERRUPT v b) = card b;
  host_block : ∀ b k a v, host b (Idle k a) →
    host (write_reg EMMC_BLKSIZECNT v b) (Idle v a) ∧ card (write_reg EMMC_BLKSIZECNT v b) = card b;
  host_arg : ∀ b k a v, host b (Idle k a) →
    host (write_reg EMMC_ARG1 v b) (Idle k v) ∧ card (write_reg EMMC_ARG1 v b) = card b;
  host_command : ∀ b (wr : bool) s, 0 ≤ s < card_size → host b (Idle one_block (if high_capacity then s else s * 512)) →
    let b' := write_reg EMMC_CMDTM (if wr then CMD_WRITE_SINGLE else CMD_READ_SINGLE) b in
    ∃ n, prompt n ∧ host b' (Waiting n (Replying wr s)) ∧ card b' = card b;
  host_wait : ∀ b n w, host b (Waiting (S n) w) →
    ∃ v b', reads EMMC_INTERRUPT b v b' ∧ Z.land v (Z.lor (flag w) INT_FAILED) = 0 ∧ host b' (Waiting n w) ∧ card b' = card b;
  host_ready : ∀ b w, host b (Waiting 0 w) →
    ∃ v b', reads EMMC_INTERRUPT b v b' ∧ (Z.land v (flag w) ≠ 0 ∧ Z.land v INT_FAILED = 0) ∧ host b' (Waiting 0 w) ∧ card b' = card b;
  host_ack : ∀ b w, host b (Waiting 0 w) →
    ∃ p, follows (card b) w p ∧ host (write_reg EMMC_INTERRUPT (flag w) b) p ∧ card (write_reg EMMC_INTERRUPT (flag w) b) = card b;
  host_response : ∀ b n w, host b (Waiting n w) →
    ∃ v b', reads EMMC_RESP0 b v b' ∧ host b' (Waiting n w) ∧ card b' = card b;
  host_send : ∀ b w ws, host b (Sending (w :: ws)) →
    ∃ b' p, reads EMMC_DATA b w b' ∧ sent ws p ∧ host b' p ∧ card b' = card b;
  host_receive : ∀ b s ws w, (length ws < 127)%nat → host b (Receiving s ws) →
    host (write_reg EMMC_DATA w b) (Receiving s (ws ++ [w])) ∧ card (write_reg EMMC_DATA w b) = card b;
  host_receive_last : ∀ b s ws w, length ws = 127%nat → host b (Receiving s ws) →
    let b' := write_reg EMMC_DATA w b in
    ∃ n, prompt n ∧ host b' (Waiting n DataDone) ∧ card b' s = unwords (ws ++ [w]) ∧ ∀ t, t ≠ s → card b' t = card b t
}.

Lemma test_false v big m : Z.land v big = 0 → Z.land big m = m → test v m = false.
Proof.
  intros Hv Hm. unfold test. apply negb_false_iff, Z.eqb_eq. rewrite <- Hm, Z.land_assoc, Hv. apply Z.land_0_l.
Qed.

Section transfer.
Context {B : Type} `{!Bus B, !Timer B, !SdHost B} (spin : nat) (Hspin : (patience stall_max ≤ spin)%nat).

(** The driver's state: the phase of the controller, the contents of the card, and
    the variables sd_scr and sd_err. *)
Record at_phase (p : phase) (im : image) (scr : list Z) (e : Z) (s : Sd B) : Prop := mk_at_phase {
  at_host : host (board s) p;
  at_card : card (board s) = im;
  at_scr : sd_scr s = scr;
  at_err : sd_err s = e
}.

Lemma at_read p q im scr e s a (P : Z → Prop) :
  at_phase p im scr e s →
  (∃ v b', reads a (board s) v b' ∧ P v ∧ host b' q ∧ card b' = card (board s)) →
  runs (read a) s (λ v s', P v ∧ at_phase q im scr e s').
Proof.
  intros [_ Hc Hs He] (v & b' & (w & Er & <-) & HP & Hq & Hc'). exists (u32 w), (with_board b' s). unfold read. rewrite Er.
  split; [done|]. split; [done|]. by split; cbn; [|rewrite Hc'|..].
Qed.

Lemma at_write p q im im' scr e s a v :
  at_phase p im scr e s → host (write_reg a (u32 v) (board s)) q → card (write_reg a (u32 v) (board s)) = im' →
  runs (write a v) s (λ _ s', at_phase q im' scr e s').
Proof. intros [_ _ Hs He] Hq Hc. apply runs_modify'. by split. Qed.

Lemma at_wait p im scr e s n :
  at_phase p im scr e s → 0 ≤ n ≤ 1000 → runs (wait_msec spin n) s (λ _ s', at_phase p im scr e s').
Proof.
  intros [Hh Hc Hs He] Hn. eapply runs_mono; [apply (wait_msec_ok spin (λ b, host b p ∧ card b = im)); try done|].
  - intros b [Hb <-]. by destruct (host_clock b p Hb) as [? ?].
  - by intros _ s' (b & -> & _ & Hb & Hcb).
Qed.

(** Tests of a status or interrupt register one of whose masks is known to be clear. *)
Ltac clear_test H := rewrite (test_false _ _ _ H) by reflexivity.

Lemma idle_error p im scr e s :
  (∃ k a, p = Idle k a) → at_phase p im scr e s → runs int_error s (λ b s', b = false ∧ at_phase p im scr e s').
Proof.
  intros (k & a & ->) Hs. unfold int_error. eapply runs_bind; [apply (at_read _ (Idle k a) _ _ _ _ _ (λ v, Z.land v INT_FAILED = 0) Hs)|].
  { destruct (host_pending _ _ _ (at_host _ _ _ _ _ Hs)) as (v & b' & Hr & ?). by exists v, b'. }
  intros v s1 [Hv Hs1]. apply runs_ret. split; [|done]. by clear_test Hv.
Qed.

(** An idle controller is ready at once. *)
Lemma status_ok k a im scr e s m :
  Z.land SR_BUSY m = m → at_phase (Idle k a) im scr e s →
  runs (sd_status spin m) s (λ r s', r = 0 ∧ at_phase (Idle k a) im scr e s').
Proof.
  intros Hm Hs. unfold sd_status.
  eapply (runs_bind _ _ _ _ (λ c s', c = 500000 ∧ at_phase (Idle k a) im scr e s')).
  - destruct (Z.to_nat 500000) as [|cnt] eqn:Ecnt; [done|]. cbn [poll].
    eapply (runs_bind _ _ _ _ (λ b s', b = false ∧ at_phase (Idle k a) im scr e s')).
    + eapply runs_bind; [apply (at_read _ (Idle k a) _ _ _ _ _ (λ v, Z.land v SR_BUSY = 0) Hs)|].
      { destruct (host_status _ _ _ (at_host _ _ _ _ _ Hs)) as (v & b' & Hr & ?). by exists v, b'. }
      intros v s1 [Hv Hs1]. rewrite (test_false _ _ _ Hv Hm). by apply runs_ret.
    + intros _ s1 [-> Hs1]. apply runs_ret. split; [|done]. rewrite <- Ecnt. reflexivity.
  - intros _ s1 [-> Hs1]. cbn [Z.leb Z.compare]. eapply runs_bind; [by apply idle_error; [eauto|]|].
    intros _ s2 [-> Hs2]. by apply runs_ret.
Qed.

(** ** Interrupts *)
Lemma poll_flag w n cnt im scr e s :
  (n < cnt)%nat → at_phase (Waiting n w) im scr e s →
  runs (poll spin cnt (i ← read EMMC_INTERRUPT; mret (negb (test i (Z.lor (flag w) INT_ERROR_MASK)))) 1) s
    (λ c s', 0 < c ∧ at_phase (Waiting 0 w) im scr e s').
Proof.
  revert cnt s. induction n as [|n IH]; intros [|cnt] s Hn Hs; try lia; cbn [poll].
  - eapply (runs_bind _ _ _ _ (λ b s', b = false ∧ at_phase (Waiting 0 w) im scr e s')).
    + eapply runs_bind; [apply (at_read _ (Waiting 0 w) _ _ _ _ _ (λ v, Z.land v (flag w) ≠ 0) Hs)|].
      { destruct (host_ready _ _ (at_host _ _ _ _ _ Hs)) as (v & b' & Hr & [? ?] & ?). by exists v, b'. }
      intros v s1 [Hv Hs1]. apply runs_ret. split; [|done]. apply negb_false_iff, negb_true_iff, Z.eqb_neq.
      intros H0. apply Hv. rewrite <- (Z.land_0_l (flag w)), <- H0, <- Z.land_assoc. f_equal.
      by rewrite Z.land_comm, Z.lor_comm, Z.land_comm, Z.lor_comm, Z.land_comm; destruct w.
    + intros _ s1 [-> Hs1]. apply runs_ret. split; [lia|done].
  - eapply (runs_bind _ _ _ _ (λ b s', b = true ∧ at_phase (Waiting n w) im scr e s')).
    + eapply runs_bind; [apply (at_read _ (Waiting n w) _ _ _ _ _ (λ v, Z.land v (Z.lor (flag w) INT_FAILED) = 0) Hs)|].
      { destruct (host_wait _ _ _ (at_host _ _ _ _ _ Hs)) as (v & b' & Hr & ?). by exists v, b'. }
      intros v s1 [Hv Hs1]. apply runs_ret. split; [|done].
      rewrite (test_false _ _ (Z.lor (flag w) INT_ERROR_MASK) Hv); [done|by destruct w].
    + intros _ s1 [-> Hs1]. eapply runs_bind; [by apply at_wait|]. intros u s2 Hs2. apply IH; [lia|done].
Qed.

(** The expected interrupt comes, and is acknowledged. *)
Lemma int_ok w n im scr e s :
  prompt n → at_phase (Waiting n w) im scr e s →
  runs (sd_int spin (flag w)) s (λ r s', r = 0 ∧ ∃ p, follows im w p ∧ at_phase p im scr e s').
Proof.
  intros Hn Hs. unfold prompt in Hn. unfold sd_int. cbv zeta. eapply runs_bind; [apply (poll_flag w n); [lia|done]|].
  intros c s1 [Hc Hs1]. eapply runs_bind; [apply (at_read _ (Waiting 0 w) _ _ _ _ _ (λ v, Z.land v INT_FAILED = 0) Hs1)|].
  { destruct (host_ready _ _ (at_host _ _ _ _ _ Hs1)) as (v & b' & Hr & [? ?] & ?). by exists v, b'. }
  intros v s2 [Hv Hs2]. rewrite (proj2 (Z.leb_gt c 0)) by lia. do 2 clear_test Hv. cbn [orb]. clear_test Hv.
  destruct (host_ack _ _ (at_host _ _ _ _ _ Hs2)) as (p & Hp & Hh & Hcd). rewrite (at_card _ _ _ _ _ Hs2) in Hp, Hcd.
  eapply runs_bind; [apply (at_write _ p _ im _ _ _ _ _ Hs2); by destruct w|].
  intros u s3 Hs3. apply runs_ret. eauto.
Qed.

(** ** The command of a transfer *)
Definition single (wr : bool) : Z := if wr then CMD_WRITE_SINGLE else CMD_READ_SINGLE.
Definition readiness (wr : bool) (t : Z) : stage := if wr then WriteReady t else ReadReady t.
Definition address (t : Z) : Z := if high_capacity then t else t * 512.

Lemma address_range t : 0 ≤ t < card_size → 0 ≤ address t < 2 ^ 32.
Proof. intros Ht. pose proof card_size_ok as [_ Hc]. unfold address. destruct high_capacity; lia. Qed.

(** No code of a transfer is one of those treated apart. *)
Lemma result_single wr arg r : command_result (B := B) (single wr) arg r = mret (s32 (Z.land (u32 r) CMD_ERRORS_MASK)).
Proof. by destruct wr. Qed.

Lemma at_pending k a im scr e s :
  at_phase (Idle k a) im scr e s → runs (read EMMC_INTERRUPT) s (λ _ s', at_phase (Idle k a) im scr e s').
Proof.
  intros Hs. eapply runs_mono; [apply (at_read _ (Idle k a) _ _ _ _ _ (λ _, True) Hs)|by intros v s' [_ ?]].
  destruct (host_pending _ _ _ (at_host _ _ _ _ _ Hs)) as (v & b' & Hr & _ & ?). by exists v, b'.
Qed.

Lemma issue_ok wr t k im scr e s :
  0 ≤ t < card_size → at_phase (Idle one_block k) im scr e s →
  runs (issue_command spin (single wr) (address t)) s
    (λ _ s', ∃ n, prompt n ∧ at_phase (Waiting n (readiness wr t)) im scr e s').
Proof.
  intros Ht Hs. pose proof (address_range t Ht) as Ha. unfold issue_command.
  eapply runs_bind; [by apply (status_ok one_block k im scr e)|]. intros _ s1 [-> Hs1]. cbn [Z.eqb negb].
  eapply runs_bind; [by apply at_pending|]. intros i s2 Hs2.
  destruct (host_clear _ _ _ (u32 i) (at_host _ _ _ _ _ Hs2)) as [H3 C3]. rewrite (at_card _ _ _ _ _ Hs2) in C3.
  eapply runs_bind; [apply (at_write _ _ _ _ _ _ _ _ _ Hs2 H3 C3)|]. intros u1 s3 Hs3.
  destruct (host_arg _ _ _ (u32 (address t)) (at_host _ _ _ _ _ Hs3)) as [H4 C4]. rewrite (at_card _ _ _ _ _ Hs3) in C4.
  eapply runs_bind; [apply (at_write _ _ _ _ _ _ _ _ _ Hs3 H4 C4)|]. intros u2 s4 Hs4. rewrite u32_id in Hs4 by done.
  destruct (host_command _ wr t Ht (at_host _ _ _ _ _ Hs4)) as (n & Hn & H5 & C5). rewrite (at_card _ _ _ _ _ Hs4) in C5.
  eapply runs_bind; [eapply (at_write _ _ _ _ _ _ _ _ (single wr) Hs4); [by destruct wr; exact H5|by destruct wr; exact C5]|].
  intros u3 s5 Hs5. replace (single wr =? CMD_SEND_OP_COND) with false by (by destruct wr).
  replace (single wr =? CMD_SEND_IF_COND) with false by (by destruct wr).
  replace (single wr =? CMD_APP_CMD) with false by (by destruct wr). cbn [orb].
  eapply (runs_bind _ _ _ _ (λ _ s', s' = s5)); [by apply runs_ret|]. intros u4 s6 ->.
  eapply runs_bind; [exact (int_ok (Replying wr t) n im scr e s5 Hn Hs5)|]. intros _ s7 [-> (p & Hp & Hs7)]. cbn [Z.eqb negb].
  assert (∃ m, prompt m ∧ p = Waiting m (readiness wr t)) as (m & Hm & ->) by (destruct wr; exact Hp).
  eapply runs_bind; [apply (at_read _ (Waiting m (readiness wr t)) _ _ _ _ _ (λ _, True) Hs7)|].
  { destruct (host_response _ _ _ (at_host _ _ _ _ _ Hs7)) as (v & b' & Hr & ?). by exists v, b'. }
  intros v s8 [_ Hs8]. rewrite result_single. apply runs_ret. eauto.
Qed.

Lemma at_set_err p im scr e s : at_phase p im scr e s → at_phase p im scr 0 (with_err (u64 SD_OK) s).
Proof. intros []. by split. Qed.

Lemma execute_ok wr t k im scr e s :
  0 ≤ t < card_size → at_phase (Idle one_block k) im scr e s →
  runs (sd_execute_command spin (single wr) (address t)) s
    (λ _ s', ∃ n, prompt n ∧ at_phase (Waiting n (readiness wr t)) im scr 0 s').
Proof.
  intros Ht Hs. unfold sd_execute_command. apply runs_modify.
  replace (test (single wr) CMD_NEED_APP) with false by (by destruct wr).
  apply (issue_ok wr t k); [done|]. by eapply at_set_err.
Qed.

Lemma has_err_ok p im scr s : at_phase p im scr 0 s → runs has_err s (λ b s', b = false ∧ s' = s).
Proof. intros [_ _ _ He]. unfold has_err. apply runs_gets. rewrite He. by apply runs_ret. Qed.

(** The card's register SCR says how the card is addressed. *)
Definition scr_ok (scr : list Z) : Prop := ∃ x y, scr = [x; y] ∧ test x SCR_SUPP_CCS = high_capacity.

Lemma scr0_ok p im scr e s :
  scr_ok scr → at_phase p im scr e s → runs scr0 s (λ x s', test x SCR_SUPP_CCS = high_capacity ∧ s' = s).
Proof. intros (x & y & -> & Hx) [_ _ Hs _]. unfold scr0. apply runs_gets. rewrite Hs. by exists x, s. Qed.

(** After open_transfer: the command has been given, or will be with the block. *)
Definition opened (wr : bool) (t : Z) (im : image) (scr : list Z) (s : Sd B) : Prop :=
  if high_capacity then ∃ n, prompt n ∧ at_phase (Waiting n (readiness wr t)) im scr 0 s
  else ∃ k e, at_phase (Idle one_block k) im scr e s.

Lemma open_ok wr multi t k a im scr e s :
  0 ≤ t < card_size → scr_ok scr → at_phase (Idle k a) im scr e s →
  runs (open_transfer spin (single wr) multi t 1) s (λ r s', r = true ∧ opened wr t im scr s').
Proof.
  intros Ht Hscr Hs. unfold open_transfer, opened. eapply runs_bind; [by apply (scr0_ok (Idle k a) im scr e)|]. intros x s1 [Hx ->]. rewrite Hx.
  destruct (host_block _ _ _ one_block (at_host _ _ _ _ _ Hs)) as [H1 C1]. rewrite (at_card _ _ _ _ _ Hs) in C1.
  pose proof (execute_ok wr t a im scr e) as Hex. unfold address in Hex. destruct high_capacity.
  - eapply (runs_bind _ _ _ _ (λ b s', b = true ∧ s' = s)); [by apply runs_ret|]. intros b s1 [-> ->].
    eapply runs_bind; [apply (at_write (Idle k a) (Idle one_block a) im im _ _ _ _ _ Hs); [exact H1|exact C1]|]. intros u s1 Hs1.
    eapply runs_bind; [by apply Hex|]. intros r s2 (n & Hn & Hs2).
    eapply runs_bind; [by eapply has_err_ok|]. intros b s3 [-> ->]. apply runs_ret. eauto.
  - eapply runs_bind; [apply (at_write (Idle k a) (Idle one_block a) im im _ _ _ _ _ Hs); [exact H1|exact C1]|].
    intros u s1 Hs1. apply runs_ret. split; [done|]. by exists a, e.
Qed.

(** ** A block *)
Definition at_idle (im : image) (scr : list Z) (e : Z) (s : Sd B) : Prop := ∃ k a, at_phase (Idle k a) im scr e s.

Lemma start_ok wr t im scr s message :
  0 ≤ t < card_size → scr_ok scr → opened wr t im scr s →
  runs (start_block spin (single wr) t 0 (flag (readiness wr t)) message) s
    (λ r s', r = true ∧ ∃ p, follows im (readiness wr t) p ∧ at_phase p im scr 0 s').
Proof.
  intros Ht Hscr Ho. pose proof (address_range t Ht) as Ha. unfold start_block, opened in *.
  pose proof card_size_ok as [_ Hsz].
  assert (∀ n s, prompt n → at_phase (Waiting n (readiness wr t)) im scr 0 s →
    runs (r ← sd_int spin (flag (readiness wr t));
      if negb (r =? 0) then
        uart_puts (carriage_return +:+ message +:+ newline);; set_err r;; mret false
      else mret true) s (λ r s', r = true ∧ ∃ p, follows im (readiness wr t) p ∧ at_phase p im scr 0 s')) as Hint.
  { intros n s1 Hn Hs1. eapply runs_bind; [exact (int_ok _ n im scr 0 s1 Hn Hs1)|]. intros r s2 [-> Hp]. by apply runs_ret. }
  pose proof (λ k e, execute_ok wr t k im scr e) as Hex. unfold address in Hex, Ha.
  destruct high_capacity eqn:Ehc.
  - destruct Ho as (n & Hn & Hs). eapply runs_bind; [by apply (scr0_ok _ im scr 0 s Hscr Hs)|]. intros x s1 [Hx ->]. rewrite Hx, Ehc.
    eapply (runs_bind _ _ _ _ (λ b s', b = true ∧ s' = s)); [by apply runs_ret|]. intros b s1 [-> ->]. by apply (Hint n).
  - destruct Ho as (k & e & Hs). eapply runs_bind; [by apply (scr0_ok _ im scr e s Hscr Hs)|]. intros x s1 [Hx ->]. rewrite Hx, Ehc.
    rewrite Z.add_0_r, (u32_id t) by lia. rewrite u32_id by done. apply runs_assoc.
    eapply runs_bind; [by apply (Hex k e)|]. intros r s2 (n & Hn & Hs2). apply runs_assoc.
    eapply runs_bind; [by eapply has_err_ok|]. intros b s3 [-> ->].
    eapply (runs_bind _ _ _ _ (λ b s', b = true ∧ s' = s2)); [by apply runs_ret|]. intros b s3 [-> ->]. by apply (Hint n).
Qed.

Lemma read_words_ok ws d buffer p im scr e s :
  sent ws p → at_phase p im scr e s → 0 ≤ d → 4 * (d + Z.of_nat (length ws)) ≤ Z.of_nat (length buffer) →
  runs (read_words (length ws) d buffer) s (λ b s', b = put_words ws d buffer ∧ at_idle im scr e s').
Proof.
  revert d buffer p s. induction ws as [|w ws IH]; intros d buffer p s Hp Hs Hd Hl; cbn [length read_words put_words].
  { destruct Hp as (k & a & ->). apply runs_ret. split; [done|]. by exists k, a. }
  cbn in Hp. subst p. cbn [length] in Hl. destruct (host_send _ _ _ (at_host _ _ _ _ _ Hs)) as (b' & q & Hr & Hq & Hh & Hc).
  eapply runs_bind; [apply (at_read _ q _ _ _ _ _ (λ v, v = w) Hs); by exists w, b'|]. intros v s1 [-> Hs1].
  eapply (runs_bind _ _ _ _ (λ b s', b = put32 (4 * d) w buffer ∧ s1 = s')).
  { unfold put_word. rewrite (proj2 (Z.ltb_ge d 0)), (proj2 (Z.ltb_ge _ (4 * d + 4))) by lia. by apply runs_ret. }
  intros b s2 [-> <-]. apply (IH _ _ q); [done|done|lia|rewrite put32_length; lia].
Qed.

Lemma write_words_ok n t pre d buffer im scr e s :
  (length pre + S n = 128)%nat → at_phase (Receiving t pre) im scr e s → bytes buffer →
  0 ≤ d → 4 * (d + Z.of_nat (S n)) ≤ Z.of_nat (length buffer) →
  runs (write_words (S n) d buffer) s (λ _ s', ∃ m im', prompt m ∧ at_phase (Waiting m DataDone) im' scr e s' ∧
    im' t = unwords (pre ++ words_from (S n) d buffer) ∧ ∀ u, u ≠ t → im' u = im u).
Proof.
  revert pre d s. induction n as [|n IH]; intros pre d s Hpre Hs Hb Hd Hl; cbn [write_words].
  all: eapply (runs_bind _ _ _ _ (λ w s', w = get32 buffer (4 * d) ∧ s = s'));
    [unfold get_word; rewrite (proj2 (Z.ltb_ge d 0)), (proj2 (Z.ltb_ge _ (4 * d + 4))) by lia; by apply runs_ret|].
  all: intros w s1 [-> <-]; pose proof (get32_range buffer (4 * d) Hb) as Hw.
  - destruct (host_receive_last _ t pre (get32 buffer (4 * d)) ltac:(lia) (at_host _ _ _ _ _ Hs)) as (m & Hm & H1 & H2 & H3).
    eapply runs_bind; [eapply (at_write _ (Waiting m DataDone) _ _ _ _ _ _ _ Hs); rewrite u32_id by done; [exact H1|reflexivity]|].
    intros u s1 Hs1. apply runs_ret. eexists m, _. split; [done|]. split; [exact Hs1|]. split; [exact H2|].
    by rewrite <- (at_card _ _ _ _ _ Hs).
  - destruct (host_receive _ t pre (get32 buffer (4 * d)) ltac:(lia) (at_host _ _ _ _ _ Hs)) as [H1 H2].
    rewrite (at_card _ _ _ _ _ Hs) in H2.
    eapply runs_bind; [apply (at_write _ (Receiving t (pre ++ [get32 buffer (4 * d)])) _ im _ _ _ _ _ Hs); rewrite u32_id by done; done|].
    intros u s1 Hs1. eapply runs_mono; [apply (IH (pre ++ [get32 buffer (4 * d)])); rewrite ?length_app; cbn [length]; done || lia|].
    intros _ s2 (m & im' & Hm & Hs2 & H3 & H4). exists m, im'. by rewrite <- app_assoc in H3.
Qed.

Lemma close_ok im scr s :
  scr_ok scr → at_idle im scr 0 s → runs (close_transfer spin 1) s (λ r s', r = 512 ∧ at_idle im scr 0 s').
Proof.
  intros Hscr (k & a & Hs). unfold close_transfer. eapply runs_bind; [by apply (scr0_ok _ im scr 0 s Hscr Hs)|]. intros x s1 [_ ->].
  eapply (runs_bind _ _ _ _ (λ _ s', s' = s)); [by apply runs_ret|]. intros u s1 ->.
  eapply runs_bind; [by eapply has_err_ok|]. intros b s1 [-> ->]. apply runs_ret. split; [done|]. by exists k, a.
Qed.

(** Reading a sector of the card gives its contents. *)
Lemma readblock_ok t buffer im scr e s :
  0 ≤ t < card_size → scr_ok scr → length buffer = 512%nat → at_idle im scr e s →
  runs (sd_readblock spin t buffer 1) s (λ p s', p = (512, im t) ∧ at_idle im scr 0 s').
Proof.
  intros Ht Hscr Hb (k & a & Hs). unfold sd_readblock. cbn [Z.ltb Z.compare Pos.compare Pos.compare_cont].
  eapply runs_bind; [by apply (status_ok k a im scr e)|]. intros r s1 [-> Hs1]. cbn [Z.eqb negb].
  eapply runs_bind; [exact (open_ok false CMD_READ_MULTI t k a im scr e s1 Ht Hscr Hs1)|]. intros ok s2 [-> Ho].
  eapply (runs_bind _ _ _ _ (λ p s', p = (true, im t) ∧ at_idle im scr 0 s')).
  - change (Z.to_nat 1) with 1%nat. cbn [read_blocks].
    eapply runs_bind; [exact (start_ok false t im scr s2 _ Ht Hscr Ho)|]. intros ok s3 [-> (p & Hp & Hs3)]. cbn in Hp. subst p.
    assert (length (words (im t)) = 128%nat) as Hw by apply words_from_length.
    rewrite <- Hw at 1. eapply runs_bind; [apply (read_words_ok (words (im t)) _ buffer (Sending (words (im t))) im scr 0); [done|done|lia|lia]|].
    intros b s4 [-> Hs4]. apply runs_ret. split; [|done]. f_equal. apply put_words_sector; [|done].
    rewrite <- (at_card _ _ _ _ _ Hs). apply card_wf.
  - intros p s3 [-> Hs3]. cbn [fst snd]. eapply runs_bind; [by apply (close_ok im scr)|]. intros r s4 [-> Hs4]. by apply runs_ret.
Qed.

(** Writing a sector of the card replaces it. *)
Lemma writeblock_ok t buffer im scr e s :
  0 ≤ t < card_size → scr_ok scr → is_sector buffer → at_idle im scr e s →
  runs (sd_writeblock spin buffer t 1) s (λ r s', r = 512 ∧ ∃ im', at_idle im' scr 0 s' ∧ im' t = buffer ∧ ∀ u, u ≠ t → im' u = im u).
Proof.
  intros Ht Hscr [Hb Hby] (k & a & Hs). unfold sd_writeblock. cbn [Z.ltb Z.compare Pos.compare Pos.compare_cont].
  eapply runs_bind; [by apply (status_ok k a im scr e)|]. intros r s1 [-> Hs1]. cbn [Z.eqb negb].
  eapply runs_bind; [exact (open_ok true CMD_WRITE_MULTI t k a im scr e s1 Ht Hscr Hs1)|]. intros ok s2 [-> Ho].
  eapply (runs_bind _ _ _ _ (λ r s', r = true ∧ ∃ m im', prompt m ∧ at_phase (Waiting m DataDone) im' scr 0 s' ∧
    im' t = buffer ∧ ∀ u, u ≠ t → im' u = im u)).
  - change (Z.to_nat 1) with 1%nat. cbn [write_blocks].
    eapply runs_bind; [exact (start_ok true t im scr s2 _ Ht Hscr Ho)|]. intros ok s3 [-> (p & Hp & Hs3)]. cbn in Hp. subst p.
    eapply runs_bind; [apply (write_words_ok 127 t [] (128 * 0) buffer im scr 0); [done|done|done|lia|lia]|].
    intros u s4 (m & im' & Hm & Hs4 & H1 & H2). apply runs_ret. split; [done|]. exists m, im'. split; [done|]. split; [done|].
    split; [|done]. rewrite H1. apply unwords_words. by split.
  - intros r s3 [-> (m & im' & Hm & Hs3 & H1 & H2)].
    eapply runs_bind; [exact (int_ok DataDone m im' scr 0 s3 Hm Hs3)|]. intros r s4 [-> (p & Hp & Hs4)]. cbn [Z.eqb negb].
    eapply runs_mono; [apply (close_ok im' scr); [done|]|].
    + destruct Hp as (k' & a' & ->). by exists k', a'.
    + intros r s5 [-> Hs5]. split; [done|]. by exists im'.
Qed.
End transfer.

(** ** The driver as the disk of the FAT library *)
Section device.
Context {B : Type} `{!Bus B, !Timer B, !SdHost B} (spin : nat) (Hspin : (patience stall_max ≤ spin)%nat).

(** The driver between two transfers, after a successful sd_init. *)
Definition card_ready (s : Sd B) : Prop := scr_ok (sd_scr s) ∧ ∃ k a, host (board s) (Idle k a).

Lemma ready_idle s : card_ready s → at_idle (card (board s)) (sd_scr s) (sd_err s) s.
Proof. intros [_ (k & a & Hh)]. by exists k, a. Qed.
Lemma idle_ready im scr e s : scr_ok scr → at_idle im scr e s → card_ready s ∧ card (board s) = im.
Proof. intros Hscr (k & a & [Hh Hc Hs He]). split; [|done]. rewrite <- Hs in Hscr. split; [done|]. by exists k, a. Qed.

Lemma read_adapter_ok t buffer s :
  card_ready s → 0 ≤ t < card_size → length buffer = 512%nat →
  ∃ s', sd_read_adapter spin buffer t s = Done (true, card (board s) t, s') ∧ card_ready s' ∧ card (board s') = card (board s).
Proof.
  intros Hs Ht Hb. destruct (readblock_ok spin Hspin t buffer _ _ _ s Ht (proj1 Hs) Hb (ready_idle s Hs)) as (p & s' & E & -> & Hs').
  exists s'. unfold sd_read_adapter. rewrite E. split; [done|]. by apply (idle_ready _ _ _ _ (proj1 Hs) Hs').
Qed.

Lemma write_adapter_ok t buffer s :
  card_ready s → 0 ≤ t < card_size → is_sector buffer →
  ∃ s', sd_write_adapter spin buffer t s = Done (true, s') ∧ card_ready s' ∧ card (board s') t = buffer ∧
    ∀ u, u ≠ t → card (board s') u = card (board s) u.
Proof.
  intros Hs Ht Hb.
  destruct (writeblock_ok spin Hspin t buffer _ _ _ s Ht (proj1 Hs) Hb (ready_idle s Hs)) as (r & s' & E & -> & im & Hs' & H1 & H2).
  exists s'. unfold sd_write_adapter. rewrite E. split; [done|].
  destruct (idle_ready _ _ _ _ (proj1 Hs) Hs') as [Hr ->]. done.
Qed.

Definition sd_device : BlockDevice (disk_operations spin).
Proof.
  refine {| capacity := card_size; device_ok := card_ready; sector := λ s, card (board s) |}.
  - intros d s. apply card_wf.
  - intros b d s Hd Hb Hs. destruct (read_adapter_ok s b d Hd Hs Hb) as (d' & E & Hr & Hc). exists d'. by rewrite Hc.
  - intros b d s Hd Hs Hb. exact (write_adapter_ok s b d Hd Hs Hb).
Defined.
End device.

(** ** A controller *)

(** A high-capacity card of 2000 sectors behind a controller that raises its
    interrupts after two polls, and a clock that ticks once per read. *)
Record Emmc : Type := mk_Emmc { e_phase : phase; e_time : Z; e_card : list (Z * list Z) }.

Definition e_with (p : phase) (b : Emmc) : Emmc := mk_Emmc p (e_time b) (e_card b).

Definition emmc_read (a : Z) (b : Emmc) : Z * Emmc :=
  if a =? SYS_TIMER_CLOCK then (u32 (e_time b + 1), mk_Emmc (e_phase b) (e_time b + 1) (e_card b))
  else match e_phase b with
  | Waiting (S n) w => if a =? EMMC_INTERRUPT then (0, e_with (Waiting n w) b) else (0, b)
  | Waiting O w => if a =? EMMC_INTERRUPT then (flag w, b) else (0, b)
  | Sending (w :: ws) =>
    if a =? EMMC_DATA then (w, e_with (match ws with [] => Idle 0 0 | _ => Sending ws end) b) else (0, b)
  | _ => (0, b)
  end.

Definition emmc_next (w : stage) (b : Emmc) : phase :=
  match w with
  | Replying false s => Waiting 2 (ReadReady s)
  | Replying true s => Waiting 2 (WriteReady s)
  | ReadReady s => Sending (words (ram_sector (e_card b) s))
  | WriteReady s => Receiving s []
  | DataDone => Idle 0 0
  end.

Definition emmc_write (a v : Z) (b : Emmc) : Emmc :=
  match e_phase b with
  | Idle k arg =>
    if a =? EMMC_BLKSIZECNT then e_with (Idle v arg) b
    else if a =? EMMC_ARG1 then e_with (Idle k v) b
    else if a =? EMMC_CMDTM then
      if v =? CMD_READ_SINGLE then e_with (Waiting 2 (Replying false arg)) b
      else if v =? CMD_WRITE_SINGLE then e_with (Waiting 2 (Replying true arg)) b else b
    else b
  | Waiting O w => if (a =? EMMC_INTERRUPT) && (v =? flag w) then e_with (emmc_next w b) b else b
  | Receiving s ws =>
    if a =? EMMC_DATA then
      if Nat.eqb (length ws) 127 then mk_Emmc (Waiting 2 DataDone) (e_time b) ((s, unwords (ws ++ [v])) :: e_card b)
      else e_with (Receiving s (ws ++ [v])) b
    else b
  | _ => b
  end.

#[export] Instance emmc_bus : Bus Emmc := {| read_reg := emmc_read; write_reg := emmc_write |}.

#[export] Instance emmc_timer : Timer Emmc.
Proof.
  refine {| clock := e_time; stall := λ _, 0%nat; stall_max := 0%nat |}.
  intros b. exists (mk_Emmc (e_phase b) (e_time b + 1) (e_card b)). split; [done|]. cbn. split; [lia|]. split; [left; lia|lia].
Defined.

(** The words a controller holds fit in its register. *)
Definition emmc_host (b : Emmc) (p : phase) : Prop :=
  e_phase b = p ∧ match p with Sending ws => Forall (λ w, 0 ≤ w < 2 ^ 32) ws | _ => True end.

Lemma words_from_range n d c : bytes c → Forall (λ w, 0 ≤ w < 2 ^ 32) (words_from n d c).
Proof. intros Hc. revert d. induction n as [|n IH]; intros d; cbn; constructor; [by apply get32_range|apply IH]. Qed.

Lemma put_words_wf ws d c : is_sector c → is_sector (put_words ws d c).
Proof. revert d c. induction ws as [|w ws IH]; intros d c Hc; cbn; [done|]. by apply IH, put32_sector. Qed.

#[export] Instance emmc_sd_host : SdHost Emmc.
Proof.
  refine {| high_capacity := true; card_size := 2000; host := emmc_host; card := λ b, ram_sector (e_card b) |}.
  - lia.
  - intros b s. apply ram_sector_wf.
  - intros b p [Hp Hw]. split; [split; [exact Hp|exact Hw]|done].
  - intros b k a [Hp _]. exists 0, b. split; [|done]. exists 0. split; [|done]. cbn. unfold emmc_read. by rewrite Hp.
  - intros b k a [Hp _]. exists 0, b. split; [|done]. exists 0. split; [|done]. cbn. unfold emmc_read. by rewrite Hp.
  - intros b k a v [Hp _]. cbn. unfold emmc_write. by rewrite Hp.
  - intros b k a v [Hp _]. cbn. unfold emmc_write. by rewrite Hp.
  - intros b k a v [Hp _]. cbn. unfold emmc_write. by rewrite Hp.
  - intros b wr s _ [Hp _]. exists 2%nat. split; [done|]. cbn. unfold emmc_write. rewrite Hp. by destruct wr.
  - intros b n w [Hp _]. exists 0, (e_with (Waiting n w) b). split; [|done]. exists 0. split; [|done]. cbn. unfold emmc_read. by rewrite Hp.
  - intros b w [Hp Ht]. exists (flag w), b. split; [|split; [by destruct w|done]]. exists (flag w). split; [|by destruct w].
    cbn. unfold emmc_read. by rewrite Hp.
  - intros b w [Hp _]. exists (emmc_next w b). cbn. unfold emmc_write. rewrite Hp, !Z.eqb_refl. cbn [andb].
    split; [|split; [|done]]; [destruct w as [[]| | |]; cbn -[words]; eauto; by exists 2%nat|]. split; [done|].
    destruct w as [[]| | |]; try exact I. apply (words_from_range 128 0), ram_sector_wf.
  - intros b n w [Hp Ht]. exists 0, b. split; [|done]. exists 0. split; [|done]. cbn. unfold emmc_read. rewrite Hp. by destruct n.
  - intros b w ws [Hp Hw]. apply Forall_cons in Hw as [Hw Hws].
    exists (e_with (match ws with [] => Idle 0 0 | _ => Sending ws end) b), (match ws with [] => Idle 0 0 | _ => Sending ws end).
    split; [exists w; split; [cbn; unfold emmc_read; by rewrite Hp|by apply u32_id]|].
    split; [destruct ws; cbn; eauto|]. split; [|done]. split; [done|]. by destruct ws.
  - intros b s ws w Hl [Hp _]. cbn. unfold emmc_write. rewrite Hp. cbn [Z.eqb]. rewrite (proj2 (Nat.eqb_neq _ _)) by lia. done.
  - intros b s ws w Hl [Hp _]. cbn. unfold emmc_write. rewrite Hp, Hl. cbn [Z.eqb Nat.eqb]. exists 2%nat. split; [done|]. split; [done|].
    apply ram_sector_cons, put_words_wf, zero_sector_wf.
Defined.
