(* ===== verification/SdProps.v ===== *)
(** * Properties of the SD card driver

    Reading and writing blocks on a working card; the driver returns on any board;
    the time wait_msec waits; the one loop that may not end. *)
From stdpp Require Import base list strings.
From Stdlib Require Import ZArith Lia.
From S2P Require Import Prelude FatFormat FatVolume FatBytes FatVolumeSpec Sd SdSpec Filesystem SdHost.

#[local] Open Scope Z_scope.

(** ** Blocks of a card *)

(** C2: the driver as a disk: on a controller and a card that answer, addressed by
    block or by byte as its SCR register says, the read adapter of the file system
    returns success and the contents of the sector and changes nothing of the card;
    the write adapter returns success and replaces that sector only; both leave
    the driver ready for the next transfer.  All the driver's code runs: the busy
    tests, the command, the interrupts polled, acknowledged and awaited, and the
    128 words of the block. *)
Theorem sd_card_spec {B} `{!Bus B, !Timer B, !SdHost B} (spin : nat) (t : Z) (buffer : list Z) (s : Sd B) :
  (patience stall_max ≤ spin)%nat → card_ready s → 0 ≤ t < card_size → is_sector buffer →
  (∃ s', sd_read_adapter spin buffer t s = Done (true, card (board s) t, s') ∧ card_ready s' ∧ card (board s') = card (board s)) ∧
  (∃ s', sd_write_adapter spin buffer t s = Done (true, s') ∧ card_ready s' ∧ card (board s') t = buffer ∧
     ∀ u, u ≠ t → card (board s') u = card (board s) u).
Proof. intros Hsp Hs Ht Hb. split; [by apply read_adapter_ok; [..|apply Hb]|by apply write_adapter_ok]. Qed.

Definition fresh_emmc : Emmc := mk_Emmc (Idle 0 0) (2 ^ 32 - 5) [(7, replicate 512 65)].
Definition fresh_card : Sd Emmc := mk_Sd [SCR_SUPP_CCS; 0] 0 0 1 fresh_emmc [].

Lemma fresh_card_ready : card_ready fresh_card.
Proof. split; [by exists SCR_SUPP_CCS, 0|]. by exists 0, 0. Qed.

Lemma sd_card_spec_witness :
  ∃ s', sd_write_adapter (patience 0) zero_sector 7 fresh_card = Done (true, s') ∧ card_ready s' ∧
    card (board s') 7 = zero_sector ∧ ∀ u, u ≠ 7 → card (board s') u = card (board fresh_card) u.
Proof.
  refine (proj2 (sd_card_spec (B := Emmc) (patience 0) 7 zero_sector fresh_card _ fresh_card_ready _ zero_sector_wf)); [|cbn; lia].
  apply Nat.le_refl.
Defined.

(** ** Termination *)

(** C38: on any board with a running clock, whatever its other registers answer,
    sd_readblock and sd_writeblock return: 0, or the number of bytes of the blocks
    asked for (at least one) with sd_err clear; the buffer keeps its size.  The
    buffer holds the blocks. *)
Theorem sd_transfer_returns {B} `{!Bus B, !Timer B} (spin : nat) (lba num : Z) (buffer : list Z) (s : Sd B) :
  (patience stall_max ≤ spin)%nat → settled s → 512 * blocks num ≤ Z.of_nat (length buffer) →
  (∃ r b s', sd_readblock spin lba buffer num s = Done (r, b, s') ∧ settled s' ∧ answers (blocks num) r s' ∧ length b = length buffer) ∧
  (∃ r s', sd_writeblock spin buffer lba num s = Done (r, s') ∧ settled s' ∧ answers (blocks num) r s').
Proof.
  intros Hsp Hs Hl. split.
  - destruct (sd_readblock_total spin Hsp lba buffer num s Hs Hl) as ((r & b) & s' & E & H1 & H2 & H3). by exists r, b, s'.
  - destruct (sd_writeblock_total spin Hsp buffer lba num s Hs Hl) as (r & s' & E & H1 & H2). by exists r, s'.
Qed.

(** A board whose registers all read as ones, and whose clock ticks. *)
Record Dead : Type := mk_Dead { dead_time : Z }.
#[export] Instance dead_bus : Bus Dead := {|
  read_reg := λ a b, if a =? SYS_TIMER_CLOCK then (u32 (dead_time b + 1), mk_Dead (dead_time b + 1)) else (2 ^ 32 - 1, b);
  write_reg := λ _ _ b, b |}.
#[export] Instance dead_timer : Timer Dead.
Proof.
  refine {| clock := dead_time; stall := λ _, 0%nat; stall_max := 0%nat |}.
  intros b. exists (mk_Dead (dead_time b + 1)). split; [done|]. cbn. split; [lia|]. split; [left; lia|lia].
Defined.

Lemma sd_transfer_returns_witness :
  ∃ r s', sd_writeblock (patience 0) (replicate (Z.to_nat 1024) 65) 5 2 (mk_Sd [0; 0] 0 0 1 (mk_Dead 0) []) = Done (r, s') ∧
    settled s' ∧ answers 2 r s'.
Proof.
  refine (proj2 (sd_transfer_returns (B := Dead) (patience 0) 5 2 (replicate (Z.to_nat 1024) 65) _ _ _ _)).
  - apply Nat.le_refl.
  - reflexivity.
  - rewrite length_replicate. change (blocks 2) with 2. lia.
Defined.

(** The time wait_msec waits: for up to a second, on any board whose clock
    advances, it returns after at least [n] milliseconds of the clock, changes
    nothing else of the driver, and keeps whatever reading the clock keeps.  The
    clock may wrap during the wait. *)
Theorem wait_msec_spec {B} `{!Bus B, !Timer B} (spin : nat) (P : B → Prop) (n : Z) (s : Sd B) :
  (patience stall_max ≤ spin)%nat → 0 ≤ n ≤ 1000 → timeless P → P (board s) →
  ∃ b, wait_msec spin n s = Done (tt, with_board b s) ∧ P b ∧
    clock (board s) + 1000 * n ≤ clock b ≤ clock (board s) + 1000 * n + 2 ^ 31.
Proof.
  intros Hsp Hn HP Hs. destruct (wait_msec_ok spin P n s HP Hs Hn Hsp) as ([] & s' & E & b & -> & Hc & Hb). by exists b.
Qed.

Lemma wait_msec_spec_witness :
  ∃ b, wait_msec (patience 0) 10 (mk_Sd [0; 0] 0 0 1 (mk_Dead (2 ^ 32 - 5)) []) = Done (tt, with_board b (mk_Sd [0; 0] 0 0 1 (mk_Dead (2 ^ 32 - 5)) [])) ∧
    True ∧ 2 ^ 32 - 5 + 10000 ≤ dead_time b ≤ 2 ^ 32 - 5 + 10000 + 2 ^ 31.
Proof.
  refine (wait_msec_spec (B := Dead) (patience 0) (λ _, True) 10 (mk_Sd [0; 0] 0 0 1 (mk_Dead (2 ^ 32 - 5)) []) _ _ _ _); try done.
Defined.

(** The loop of sd_init that reads the SCR register tests a count of tries that
    nothing decrements: on a board that never reports data available it does not
    end, for any number of turns, so that its timeout is never returned. *)
Theorem scr_loop_never_ends {B} `{!Bus B} (spin fuel : nat) (r cnt : Z) (s : Sd B) :
  (∀ b : B, test (u32 (read_reg EMMC_STATUS b).1) SR_READ_AVAILABLE = false) → r < 2 → cnt ≠ 0 →
  scr_loop spin fuel r cnt s = Fault OutOfFuel.
Proof.
  intros Hb Hr Hc. revert s. induction fuel as [|fuel IH]; intros s; cbn [scr_loop];
    rewrite (proj2 (Z.ltb_lt r 2)), (proj2 (Z.eqb_neq cnt 0)) by done; cbn [andb negb]; [done|].
  specialize (Hb (board s)). unfold mbind at 1, M_bind at 1, read at 1. destruct (read_reg EMMC_STATUS (board s)) as [v b].
  cbn [fst] in Hb. rewrite Hb. unfold mbind, M_bind. destruct (wait_msec spin 1 (with_board b s)) as [[u s1]|f] eqn:E; [apply IH|].
  f_equal. assert (∀ n t s f, wait_loop n t s = Fault f → f = OutOfFuel) as Hw.
  { clear. induction n as [|n IH]; intros t s f; cbn [wait_loop]; [by injection 1|].
    unfold mbind, M_bind, read. destruct (read_reg SYS_TIMER_CLOCK (board s)) as [v b]. case_match; [apply IH|done]. }
  unfold wait_msec, mbind, M_bind, read in E. destruct (read_reg SYS_TIMER_CLOCK (board (with_board b s))) as [v' b']. by eapply Hw.
Qed.

(** The board of the witness: no status bit is ever set. *)
Record Quiet : Type := mk_Quiet { quiet_time : Z }.
#[export] Instance quiet_bus : Bus Quiet := {|
  read_reg := λ a b, if a =? SYS_TIMER_CLOCK then (u32 (quiet_time b + 1), mk_Quiet (quiet_time b + 1)) else (0, b);
  write_reg := λ _ _ b, b |}.

Lemma scr_loop_never_ends_witness :
  scr_loop (patience 0) (patience 0) 0 100000 (mk_Sd [0; 0] 0 0 1 (mk_Quiet 0) []) = Fault OutOfFuel.
Proof. apply (scr_loop_never_ends (B := Quiet)); [reflexivity|lia|lia]. Defined.
