(* ===== verification/Main.v ===== *)
(** * The kernel's entry: kernel/kernel.c

    kernel_main puts the parts together: one board under the drivers, the machine
    with its interrupts, and the file system.  The exception vectors are assembly;
    that they are installed is a flag of the state.  The endless loop at the end is
    the idle task, whose turns are the interrupts of Irq.v. *)
From stdpp Require Import base gmap list strings relations.
From Stdlib Require Import ZArith Lia.
From S2P Require Import Prelude Mem CString Kernel Queue Scheduler SchedulerSpec Dispatch Entries Boot Ipc Machine Uart Irq Mm MmSpec MmMap Fork ForkSpec UserMode Exceptions FatFormat FatVolume FatDir FatFile Sd Video Filesystem.

#[local] Open Scope Z_scope.
#[local] Opaque memzero memcpy store_le load_le free_list N_PAGES page_used byte_at put_byte.

(** The drivers' board is the one in [video]. *)
Record System (B : Type) : Type := mk_System {
  irq : Irq;
  video : Video B;
  files : FatSys (Sd B);
  vectors : bool
}.
Arguments mk_System {B}. Arguments irq {B}. Arguments video {B}. Arguments files {B}. Arguments vectors {B}.

Definition TIMER_CLO : Z := 0x00003004.

Section kernel.
Context {B : Type} `{!Bus B, !Gpu B} (spin : nat).

(** The addresses of [mbox] and [g_fat], and of the code the kernel refers to. *)
Context (mbox_address g_fat ret_from_fork kernel_process_address user_begin user_end init_process_address : Z).

Definition on_irq {A} (m : M Irq A) : M (System B) A := λ s,
  match m (irq s) with
  | Done (x, i) => Done (x, mk_System i (video s) (files s) (vectors s))
  | Fault e => Fault e
  end.
Definition on_video {A} (m : M (Video B) A) : M (System B) A := λ s,
  match m (video s) with
  | Done (x, v) => Done (x, mk_System (irq s) v (files s) (vectors s))
  | Fault e => Fault e
  end.

(** The state of the file system with the driver's board. *)
Definition on_board (b : B) (t : FatSys (Sd B)) : FatSys (Sd B) :=
  mk_FatSys (g_fat_list t) (fats t) (with_board b (s_disk t)) (s_buf t) (s_len t) (s_crc t).

(** A function of the file system that answers a number. *)
Definition on_files (m : E (FatSys (Sd B)) Z) : M (System B) Z := λ s,
  match m (on_board (vboard (video s)) (files s)) with
  | Done (r, t) => Done (match r with inl e => e | inr x => x end, mk_System (irq s) (with_vboard (board (s_disk t)) (video s)) t (vectors s))
  | Fault e => Fault e
  end.

Definition announce (s : string) : M Machine unit := Uart.uart_puts (text s ++ [10])%list.
Definition print (s : string) : M (System B) unit := on_irq (on_machine (announce s)).

Definition irq_vector_init : M (System B) unit := modify (λ s, mk_System (irq s) (video s) (files s) true).

Definition kernel_main : M (System B) unit :=
  on_video (uart_init spin mbox_address);;
  print "demoOS v.0.0.1";;
  irq_vector_init;;
  print "[DONE] irq vector init";;
  on_irq enable_interrupt_controller;;
  print "[DONE] enable interrupt controller";;
  on_irq (on_machine (on_kernel enable_irq));;
  print "[DONE] enable irq";;
  fs_ok ← on_files (sd_filesystem_init spin g_fat);
  (if fs_ok =? SD_FILESYSTEM_INIT_OK then print "[DONE] SD filesystem init success"
   else print "[ERROR] SD filesystem init error");;
  res ← on_irq (on_machine (copy_process ret_from_fork PF_KTHREAD kernel_process_address 0));
  (if res <? 0 then print "[ERROR] Cannot create kernel process." else mret tt);;
  clo ← on_video (mmio_read TIMER_CLO);
  on_irq (timer_init clo);;
  print "[DONE] timer init".

Definition kernel_process : M Machine unit :=
  announce "[DEBUG] Kernel process started.";;
  let process := init_process_address in
  let size := u64 (user_end - user_begin) in
  let pc := u64 (process - user_begin) in
  error ← move_to_user_mode user_begin size pc;
  if error <? 0 then announce "[ERROR] Cannot move process from kernel mode to user mode" else mret tt.

(** ** kernel_main, on every branch *)
Definition machine_of (s : System B) : Machine := machine (irq s).

(** A system that has printed. *)
Definition printed (l : list Z) (s : System B) : System B :=
  mk_System (with_machine (with_output l (machine (irq s))) (irq s)) (video s) (files s) (vectors s).

Lemma print_run t s : ∃ l, print t s = Done (tt, printed l s).
Proof. destruct (uart_puts_done (text t ++ [10])%list (machine (irq s))) as [l E]. exists l. unfold print, announce, on_irq, on_machine. by rewrite E. Qed.

Lemma print_steps t s (m : M (System B) unit) : ∃ l, (print t;; m) s = m (printed l s).
Proof. destruct (print_run t s) as [l E]. exists l. by rewrite (bind_done _ _ _ _ _ E). Qed.

(** The scheduler and the ring buffer of a system. *)
Definition runs (d : Z) (a : AKernel) (q : list Z) (s : System B) : Prop :=
  R (kernel (machine_of s)) a ∧ Inv d a ∧ uart_ring (uart (machine_of s)) q.

Lemma runs_printed d a q l s : runs d a q s → runs d a q (printed l s).
Proof. intros (HR & HI & Hq). split; [exact HR|]. split; [exact HI|]. by apply uart_ring_output. Qed.

Lemma runs_steady d a q s : 0 ≤ d → runs d a q s → steady (machine_of s).
Proof. intros Hd H. exists d. split; [exact Hd|]. by exists a, q. Qed.

Lemma on_irq_done {A} (m : M Irq A) (x : A) i s :
  m (irq s) = Done (x, i) → on_irq m s = Done (x, mk_System i (video s) (files s) (vectors s)).
Proof. intros E. unfold on_irq. by rewrite E. Qed.

Lemma on_machine_done {A} (m : M Machine A) (x : A) k i :
  m (machine i) = Done (x, k) → on_machine m i = Done (x, with_machine k i).
Proof. intros E. unfold on_machine. by rewrite E. Qed.

(** The rest of kernel_main, once the first process exists. *)
Definition start_timer : M (System B) unit :=
  clo ← on_video (mmio_read TIMER_CLO);
  on_irq (timer_init clo);;
  print "[DONE] timer init".

(** The counter's value at the start. *)
Definition counter (s : System B) : Z := u32 (read_reg (mmio TIMER_CLO) (vboard (video s))).1.

Lemma timer_init_keeps clo i : ∃ i', timer_init clo i = Done (tt, i') ∧ machine i' = machine i ∧ irqs_1 i' = irqs_1 i ∧ irqs_2 i' = irqs_2 i.
Proof. unfold timer_init, next_tick. mrun. by eexists. Qed.

Lemma start_timer_run d a q s : 0 ≤ d → runs d a q s →
  ∃ s', start_timer s = Done (tt, s') ∧ on_grid (counter s) 0 (irq s') ∧ runs d a q s' ∧
    files s' = files s ∧ vectors s' = vectors s ∧ irqs_1 (irq s') = irqs_1 (irq s) ∧ irqs_2 (irq s') = irqs_2 (irq s).
Proof.
  intros Hd Hr. unfold start_timer, mmio_read. fold (counter s).
  set (v := with_vboard (read_reg (mmio TIMER_CLO) (vboard (video s))).2 (video s)).
  rewrite (bind_done _ _ s (counter s) (mk_System (irq s) v (files s) (vectors s)))
    by (unfold on_video, counter, v; by destruct (read_reg _ _)).
  destruct (on_grid_init (counter s) (irq s)) as (i & E & _ & Hg2 & Hg3); [by eapply runs_steady|].
  destruct (timer_init_keeps (counter s) (irq s)) as (i' & E' & Hm & H1 & H2).
  rewrite E in E'. injection E' as <-.
  rewrite (bind_done _ _ _ tt (mk_System i v (files s) (vectors s))) by exact (on_irq_done _ _ i (mk_System (irq s) v (files s) (vectors s)) E).
  set (s3 := mk_System i v (files s) (vectors s)).
  destruct (print_run "[DONE] timer init" s3) as [l E4]. exists (printed l s3). split; [exact E4|].
  assert (runs d a q (printed l s3)) as Hr'.
  { apply runs_printed. unfold runs, machine_of in *. cbn [irq s3]. rewrite Hm. exact Hr. }
  split; [|split; [exact Hr'|]; by split].
  split; [by eapply runs_steady|]. by split.
Qed.

(** From the creation of the first process on. *)
Definition start_processes : M (System B) unit :=
  res ← on_irq (on_machine (copy_process ret_from_fork PF_KTHREAD kernel_process_address 0));
  (if res <? 0 then print "[ERROR] Cannot create kernel process." else mret tt);;
  start_timer.

(** The first process: a kernel thread that the scheduler will find and that starts
    in kernel_process. *)
Definition first_process (n p : Z) (a : AKernel) : Prop :=
  ∃ c, a_pcbs a !! p = Some c ∧ queued a p ∧ pid c = n ∧ state c = PROCESS_READY ∧
    x19 (cpu_ctx c) = kernel_process_address ∧ pc (cpu_ctx c) = ret_from_fork.

Lemma start_processes_run d a q s f fl cp :
  runs d a q s → 0 ≤ d < 2 ^ 30 → free_list (memory_pages (machine_of s)) = f :: fl →
  n_processes (a_globals a) < N_PROCESSES → a_pcbs a !! a_cur a = Some cp → a_pcbs a !! kva f = None →
  ∃ s' a', start_processes s = Done (tt, s') ∧ on_grid (counter s) 0 (irq s') ∧ runs d a' q s' ∧
    first_process (n_processes (a_globals a)) (kva f) a' ∧ files s' = files s ∧ vectors s' = vectors s ∧
    irqs_1 (irq s') = irqs_1 (irq s) ∧ irqs_2 (irq s') = irqs_2 (irq s).
Proof.
  intros (HR & HI & Hq) Hd Hfl Hn Hcp Hnew. destruct (inv_slots _ _ HI) as [[Hn1 _] _].
  destruct (kernel_thread_spec ret_from_fork kernel_process_address 0 d (machine_of s) a f fl cp HR HI Hd Hfl Hn Hcp Hnew)
    as (m' & a' & E & HR' & HI' & Hp & Hqu & _ & Hu & _).
  set (s1 := mk_System (with_machine m' (irq s)) (video s) (files s) (vectors s)).
  unfold start_processes.
  rewrite (bind_done _ _ s (n_processes (a_globals a)) s1) by (by apply on_irq_done, on_machine_done).
  rewrite (proj2 (Z.ltb_ge _ 0)) by lia. rewrite bind_ret.
  assert (runs d a' q s1) as Hr1.
  { split; [exact HR'|]. split; [exact HI'|]. cbn [machine_of s1 irq machine with_machine]. unfold machine_of. cbn. rewrite Hu. exact Hq. }
  destruct (start_timer_run d a' q s1 (proj1 Hd) Hr1) as (s' & E' & Hg & Hr' & Hkeep).
  exists s', a'. split; [exact E'|]. split; [exact Hg|]. split; [exact Hr'|]. split; [|exact Hkeep].
  eexists. split; [rewrite Hp; apply lookup_insert_eq|]. split; [exact Hqu|]. by repeat split.
Qed.

(** The part before the file system: the vectors, the controller and the interrupts. *)
Definition start_interrupts (rest : M (System B) unit) : M (System B) unit :=
  print "demoOS v.0.0.1";;
  irq_vector_init;;
  print "[DONE] irq vector init";;
  on_irq enable_interrupt_controller;;
  print "[DONE] enable interrupt controller";;
  on_irq (on_machine (on_kernel enable_irq));;
  print "[DONE] enable irq";;
  rest.

Definition enabled (s : System B) : Prop :=
  vectors s = true ∧ Z.land (irqs_1 (irq s)) SYSTEM_TIMER_IRQ_1 = SYSTEM_TIMER_IRQ_1 ∧ Z.land (irqs_2 (irq s)) UART0_IRQ_BIT = UART0_IRQ_BIT.

Lemma land_lor_same a b : Z.land (Z.lor a b) b = b.
Proof. apply Z.bits_inj'. intros n _. rewrite Z.land_spec, Z.lor_spec. by destruct (Z.testbit a n), (Z.testbit b n). Qed.

Lemma start_interrupts_run d a q s rest : runs d a q s →
  ∃ s', start_interrupts rest s = rest s' ∧ runs d (a_set_globals (with_irq_enabled true) a) q s' ∧ enabled s' ∧
    video s' = video s ∧ files s' = files s ∧ memory_pages (machine_of s') = memory_pages (machine_of s).
Proof.
  intros Hr. unfold start_interrupts.
  edestruct print_steps as [l1 ->].
  unfold irq_vector_init at 1. rewrite bind_modify.
  set (s1 := mk_System _ _ _ true).
  edestruct print_steps as [l2 ->]. set (s2 := printed l2 s1).
  assert (runs d a q s2) as Hr2 by exact (runs_printed d a q l2 s1 (runs_printed d a q l1 s Hr)).
  assert (∃ i, enable_interrupt_controller (irq s2) = Done (tt, i) ∧ machine i = machine (irq s2) ∧
    irqs_1 i = Z.lor (irqs_1 (irq s2)) SYSTEM_TIMER_IRQ_1 ∧ irqs_2 i = Z.lor (irqs_2 (irq s2)) UART0_IRQ_BIT) as (i3 & E3 & M3 & I1 & I2).
  { unfold enable_interrupt_controller. mrun. by eexists. }
  rewrite (bind_done _ _ _ _ _ (on_irq_done _ _ _ _ E3)). set (s3 := mk_System i3 _ _ _).
  edestruct print_steps as [l4 ->]. set (s4 := printed l4 s3).
  assert (runs d a q s4) as (HR & HI & Hq).
  { apply runs_printed. unfold runs, machine_of in *. cbn [irq s3]. rewrite M3. exact Hr2. }
  destruct (sim_set_global_last _ _ (with_irq_enabled true) HR) as (k5 & E5 & HR5).
  rewrite (bind_done _ _ _ _ _ (on_irq_done _ _ _ _ (on_machine_done _ _ _ _ (on_kernel_done _ _ _ _ E5)))).
  set (s5 := mk_System _ _ _ _).
  edestruct print_steps as [l6 E6]. exists (printed l6 s5). split; [exact E6|].
  split; [|split; [|split; [reflexivity|split; [reflexivity|]]]].
  - apply runs_printed. split; [exact HR5|]. split; [by apply Inv_irq|exact Hq].
  - split; [reflexivity|]. cbn [printed s5 irq irqs_1 irqs_2 with_machine s4 s3]. rewrite I1, I2. split; apply land_lor_same.
  - cbn. rewrite M3. reflexivity.
Qed.

(** What kernel_main leaves when no driver waits forever: the interrupts are on, the
    timer is on its grid and the first process is ready. *)
Definition booted (d n f : Z) (q : list Z) (t : FatSys (Sd B)) (s : System B) : Prop :=
  ∃ a, on_grid (u32 (read_reg (mmio TIMER_CLO) (board (s_disk t))).1) 0 (irq s) ∧ runs d a q s ∧
    first_process n (kva f) a ∧ files s = t ∧ enabled s.

(** C13: kernel_main starts the system.  From a sound kernel with a free page, on any
    board: kernel_main stops only where uart_init or the mounting of the file
    system stops (a register that never answers); otherwise, and whatever the file
    system answers, it gets to its endless loop with the vectors installed, the
    timer's and the UART's interrupts enabled, the compare register one period
    after the counter's value, the file system as the mounting left it, and a
    ready, queued process of the next number that starts in kernel_process. *)
Theorem kernel_main_spec d a q s f fl cp :
  runs d a q s → 0 ≤ d < 2 ^ 30 → free_list (memory_pages (machine_of s)) = f :: fl →
  n_processes (a_globals a) < N_PROCESSES → a_pcbs a !! a_cur a = Some cp → a_pcbs a !! kva f = None →
  (∀ e, uart_init spin mbox_address (video s) = Fault e → kernel_main s = Fault e) ∧
  ∀ v, uart_init spin mbox_address (video s) = Done (tt, v) →
    (∀ e, sd_filesystem_init spin g_fat (on_board (vboard v) (files s)) = Fault e → kernel_main s = Fault e) ∧
    ∀ r t, sd_filesystem_init spin g_fat (on_board (vboard v) (files s)) = Done (r, t) →
      ∃ s', kernel_main s = Done (tt, s') ∧ booted d (n_processes (a_globals a)) f q t s'.
Proof.
  intros Hr Hd Hfl Hn Hcp Hnew. split.
  { intros e Eu. apply bind_fault. unfold on_video. by rewrite Eu. }
  intros v Eu.
  set (s1 := mk_System (irq s) v (files s) (vectors s)).
  set (rest := fs_ok ← on_files (sd_filesystem_init spin g_fat);
    (if fs_ok =? SD_FILESYSTEM_INIT_OK then print "[DONE] SD filesystem init success"
     else print "[ERROR] SD filesystem init error");; start_processes).
  destruct (start_interrupts_run d a q s1 rest Hr) as (s2 & E2 & Hr2 & He2 & V2 & F2 & P2).
  assert (kernel_main s = rest s2) as ->.
  { rewrite <- E2. unfold kernel_main. etrans; [apply (bind_done _ _ s tt s1); unfold on_video; by rewrite Eu|]. unfold start_interrupts, rest, start_processes, start_timer. cbv beta. reflexivity. }
  clear E2. unfold rest. change (files s) with (files s1). rewrite <- F2. change (vboard v) with (vboard (video s1)). rewrite <- V2.
  split.
  { intros e Ef. apply bind_fault. unfold on_files. by rewrite Ef. }
  intros r t Ef.
  set (s3 := mk_System (irq s2) (with_vboard (board (s_disk t)) (video s2)) t (vectors s2)).
  rewrite (bind_done _ _ s2 (match r with inl e => e | inr x => x end) s3) by (unfold on_files; by rewrite Ef).
  assert (∃ l, ((if (match r with inl e => e | inr x => x end) =? SD_FILESYSTEM_INIT_OK then print "[DONE] SD filesystem init success"
     else print "[ERROR] SD filesystem init error");; start_processes) s3 = start_processes (printed l s3)) as [l ->]
    by (destruct (_ =? _); apply print_steps).
  destruct (start_processes_run d (a_set_globals (with_irq_enabled true) a) q (printed l s3) f fl cp) as (s4 & a4 & E4 & Hg & Hr4 & Hfirst & F4 & V4 & I4 & J4).
  - by apply runs_printed.
  - exact Hd.
  - etrans; [|exact Hfl]. cbn. f_equal. exact P2.
  - exact Hn.
  - exact Hcp.
  - exact Hnew.
  - exists s4. split; [exact E4|]. exists a4. split; [exact Hg|]. split; [exact Hr4|]. split; [exact Hfirst|]. split; [exact F4|].
    destruct He2 as (H1 & H2 & H3). split; [by rewrite V4|]. by rewrite I4, J4.
Qed.

(** ** kernel_process *)

(** What the first process can start from: it is the current one, in page [f], and
    the user's code is linked in the kernel's image. *)
Record first_ready (f : Z) (s : Machine) : Prop := mk_first_ready {
  fr_image : 0 ≤ user_begin ≤ init_process_address ∧ init_process_address < user_end ∧ user_end ≤ kva 0;
  fr_page : page_index f ∧ page_used (memory_pages s) f ≠ 0;
  fr_current : cur (kernel s) = kva f;
  fr_memory : mm_of (kva f) s = Some zero_mm;
  fr_free : 20 ≤ Z.of_nat (length (free_list (memory_pages s)))
}.

(** Everything of the code below 16 pages is mapped where it was linked, less the
    code's start. *)
Definition program_loaded (s s' : Machine) (m : mm_struct) : Prop :=
  ttbr0 (globals (kernel s')) = pgd m ∧
  ∀ x, user_begin ≤ x < user_end → x - user_begin < 16 * PAGE_SIZE →
    user_byte s' m (x - user_begin) = Some (byte_at (ram s) x).

Lemma kernel_process_run f s : first_ready f s →
  ∃ s' m, kernel_process s = Done (tt, s') ∧ mm_of (kva f) s' = Some m ∧ program_loaded s s' m ∧
    ∀ i, 0 ≤ i < 34 → trap_word (ram s') (kva f) i =
      if i =? 31 then 16 * PAGE_SIZE else if i =? 32 then init_process_address - user_begin else 0.
Proof.
  intros [(H1 & H2 & H3) [Hf Hfu] Hcur Hmm Hfree]. unfold kernel_process. cbv zeta.
  destruct (uart_puts_done (text "[DEBUG] Kernel process started." ++ [10])%list s) as [l E0].
  unfold announce at 1. rewrite (bind_done _ _ _ _ _ E0).
  assert (kva 0 < 2 ^ 64) as Hk by (mm_consts; lia). rewrite !u64_id by lia.
  destruct (move_to_user_mode_spec user_begin (user_end - user_begin) (init_process_address - user_begin) (with_output l s) f)
    as (s' & m & E & Hm & Ht & Hin & _ & Hw & _); [lia|lia|lia|lia|exact Hf|exact Hfu|exact Hcur|exact Hmm|exact Hfree|].
  rewrite (bind_done _ _ _ _ _ E). change (0 <? 0) with false. cbv iota.
  exists s', m. split; [reflexivity|]. split; [exact Hm|]. split; [|exact Hw]. split; [exact Ht|].
  intros x Hx Hx'. etrans; [apply Hin; lia|]. unfold code_byte. rewrite decide_True by lia.
  do 2 f_equal. lia.
Qed.

Lemma schedule_tail_run (s : Machine) c : heap (kernel s) !! cur (kernel s) = Some c →
  on_kernel schedule_tail s = Done (tt, with_kernel
    (with_heap (<[cur (kernel s) := with_preempt_disabled (s32 (preempt_disabled c - 1)) c]> (heap (kernel s))) (kernel s)) s).
Proof.
  intros Hc. apply on_kernel_done. unfold schedule_tail, preempt_enable.
  erewrite bind_done by reflexivity. erewrite bind_done by (apply load_some; exact Hc). by apply store_some.
Qed.

(** C3: the first process reaches the user's code.  When the scheduler switches to
    the process kernel_main made, so that it starts in ret_from_fork with
    kernel_process in x19 on its own stack, it leaves the kernel for
    init_process_main: with the address of that function in the program, as the
    program is mapped, in the program counter, EL0t in the state, its stack
    pointer at the end of 16 pages and nothing in its registers; TTBR0 holds
    tables through which it sees the bytes between user_begin and user_end, up to
    16 pages; interrupts are off until it is there. *)
Theorem first_process_spec f call r s :
  first_ready f s → (∀ argument, call kernel_process_address argument = kernel_process) →
  kernel_process_address ≠ 0 → reg 19 r = kernel_process_address → length (xregs r) = 31%nat → ksp r = task_pt_regs (kva f) →
  ∃ s' m r', Exceptions.ret_from_fork call r s = Done (r', s') ∧ mm_of (kva f) s' = Some m ∧ program_loaded s s' m ∧
    irq_enabled (globals (kernel s')) = false ∧
    elr r' = init_process_address - user_begin ∧ usp r' = 16 * PAGE_SIZE ∧ spsr r' = PSR_MODE_EL0t ∧
    (∀ n, (n < 31)%nat → reg n r' = 0) ∧ ksp r' = kva f + THREAD_SIZE.
Proof.
  intros Hr Hcall Hne Hx Hl Hk. pose proof Hr as [H1 [Hf Hfu] Hcur Hmm Hfree].
  destruct (proj1 (fmap_Some _ _ _) Hmm) as (c & Hc & Hcm). rewrite <- Hcur in Hc.
  unfold Exceptions.ret_from_fork. rewrite (bind_done _ _ _ _ _ (schedule_tail_run s c Hc)), Hx.
  set (s1 := with_kernel _ s). rewrite (proj2 (Z.eqb_neq _ _) Hne), Hcall.
  assert (first_ready f s1) as Hr1.
  { split; [exact H1|by split|exact Hcur| |exact Hfree]. unfold mm_of. cbn [kernel s1 with_kernel heap with_heap].
    rewrite Hcur, lookup_insert_eq. by rewrite Hcm. }
  destruct (kernel_process_run f s1 Hr1) as (s2 & m & E & Hm & [Ht Hin] & Hw). rewrite (bind_done _ _ _ _ _ E).
  set (s3 := with_kernel (with_globals (with_irq_enabled false (globals (kernel s2))) (kernel s2)) s2).
  rewrite (bind_done _ _ s2 tt s3) by (by apply on_kernel_done). unfold get_ram. rewrite bind_gets.
  destruct (user_entry (kva f) (init_process_address - user_begin) (ram s3) r) as (U1 & U2 & U3 & U4 & U5);
    [mm_consts; lia|unfold THREAD_SIZE; mm_consts; lia|exact Hl|exact Hk|exact Hw|].
  exists s3, m, (kernel_exit 0 (ram s3) r). split; [reflexivity|]. split; [exact Hm|]. split; [split; [exact Ht|exact Hin]|].
  split; [reflexivity|]. split; [exact U3|]. split; [exact U2|]. split; [exact U4|]. split; [exact U1|exact U5].
Qed.
End kernel.

(** ** Loading three bytes of code, whose second is the entry *)
Abbreviation first_call := (λ _ _ : Z, kernel_process first_code (first_code + 3) (first_code + 1)).
Definition first_regs : Regs := mk_Regs (<[19%nat := 0x82000]> (replicate 31 7)) (task_pt_regs (kva 0)) 5 5 5.

Lemma first_machine_ready : first_ready first_code (first_code + 3) (first_code + 1) 0 first_machine.
Proof.
  split.
  - vm_compute. repeat split; discriminate.
  - split; [unfold page_index; rewrite N_PAGES_value; lia|vm_compute; discriminate].
  - reflexivity.
  - reflexivity.
  - exact first_pages.
Qed.

Lemma first_process_spec_witness :
  ∃ s' m r', Exceptions.ret_from_fork first_call first_regs first_machine = Done (r', s') ∧
    elr r' = 1 ∧ user_byte s' m 1 = Some 8 ∧ reg 7 r' = 0.
Proof.
  destruct (first_process_spec 0x82000 first_code (first_code + 3) (first_code + 1) 0 first_call first_regs first_machine
    first_machine_ready (λ _, eq_refl)) as (s' & m & r' & E & _ & [_ Hin] & _ & He & _ & _ & Hx & _).
  - discriminate.
  - reflexivity.
  - reflexivity.
  - reflexivity.
  - exists s', m, r'. split; [exact E|]. clear E. split; [exact He|]. split; [|exact (Hx 7%nat ltac:(lia))].
    exact (Hin (first_code + 1) ltac:(unfold first_code; lia) ltac:(unfold first_code, PAGE_SIZE; lia)).
Defined.

(** ** A board without a card, whose clock runs fast *)
Record Bare : Type := mk_Bare { bare_time : Z; bare_mail : Z }.

#[export] Instance bare_bus : Bus Bare := {|
  read_reg := λ a b,
    if a =? SYS_TIMER_CLOCK then (u32 (bare_time b + 2000000), mk_Bare (bare_time b + 2000000) (bare_mail b))
    else if a =? mmio TIMER_CLO then (u32 (bare_time b), b)
    else if a =? mmio MBOX_READ then (bare_mail b, b) else (0, b);
  write_reg := λ a v b, if a =? mmio MBOX_WRITE then mk_Bare (bare_time b) v else b |}.
#[export] Instance bare_gpu : Gpu Bare := {| gpu_reply := λ l _, <[1%nat := MBOX_RESPONSE]> l |}.

Definition bare_system : System Bare :=
  mk_System (mk_Irq (mk_Machine (boot_kernel MLQ (λ _, 0)) (uart_with [] 0 []) ∅ ∅ (-1)) 0 0 0 0 0)
    (mk_Video (replicate 36 0) 0 0 0 0 0 (mk_Bare 0 0))
    (mk_FatSys None ∅ (mk_Sd [0; 0] 0 0 0 (mk_Bare 0 0) []) [] 0 0) false.

Definition both {V T R} (u : outcome (unit * V)) (m : V → outcome (R * T)) : bool :=
  match u with
  | Done (_, v) => match m v with Done _ => true | Fault _ => false end
  | Fault _ => false
  end.

Lemma both_done {V T R} (u : outcome (unit * V)) (m : V → outcome (R * T)) :
  both u m = true → ∃ v r t, u = Done (tt, v) ∧ m v = Done (r, t).
Proof. unfold both. destruct u as [[[] v]|]; [|done]. destruct (m v) as [[r t]|] eqn:E; [|done]. intros _. by exists v, r, t. Qed.

Abbreviation bare_uart := (uart_init 4 (VA_START + 0x90000) (video bare_system)).
Abbreviation bare_files v := (sd_filesystem_init 4 0x1000 (on_board (vboard v) (files bare_system))).

Lemma bare_runs_on : both bare_uart (λ v, bare_files v) = true.
Proof. vm_compute. reflexivity. Qed.

Lemma bare_runs : runs 0 (boot_akernel MLQ (λ _, 0)) [] bare_system.
Proof. split; [apply boot_R|]. split; [apply boot_Inv|]. split; done. Qed.

Lemma bare_free : ∃ fl, free_list (memory_pages (machine_of bare_system)) = 0 :: fl.
Proof.
  change (memory_pages (machine_of bare_system)) with (∅ : gmap Z Z). eexists.
  rewrite free_list_filter, first_free, decide_True by (lia || apply page_used_empty). reflexivity.
Qed.


(** The kernel starts on a board without a card. *)
Lemma kernel_main_spec_witness :
  ∃ t s', kernel_main 4 (VA_START + 0x90000) 0x1000 0x81000 0x82000 bare_system = Done (tt, s') ∧
    booted 0x81000 0x82000 0 1 0 [] t s'.
Proof.
  destruct bare_free as [fl Hfl].
  assert (a_pcbs (boot_akernel MLQ (λ _, 0)) !! kva 0 = None) as Hnew by reflexivity.
  destruct (both_done _ _ bare_runs_on) as (v & r & t & Eu & Ef). cbv beta in Ef.
  destruct (kernel_main_spec 4 (VA_START + 0x90000) 0x1000 0x81000 0x82000 0 (boot_akernel MLQ (λ _, 0)) [] bare_system 0 fl INIT_PROCESS
    bare_runs (conj (Z.le_refl 0) eq_refl) Hfl eq_refl eq_refl Hnew) as [_ H].
  destruct (H v Eu) as [_ H']. destruct (H' r t Ef) as (s' & E & Hb). exists t, s'. split; [exact E|exact Hb].
Defined.
