(* ===== verification/Syscalls.v ===== *)
(** * System calls: libs/syscalls.c

    The kernel with its file system ([OS]), the descriptors of a process, and the
    dispatcher.  A FatResource is a page with a type and a pointer to a File or a
    Dir, which are pages too; all three are kept by address.  Pointers a process
    passes are followed through its translation tables. *)
From stdpp Require Import base gmap list.
From Stdlib Require Import ZArith Lia.
From S2P Require Import FatFormat FatVolume FatDir FatFile Filesystem.
From S2P Require Import Prelude Mem CString Kernel Scheduler Ipc Machine Uart Mm MmSpec MmMap Fork.

#[local] Open Scope Z_scope.

Definition RESOURCE_TYPE_FILE : Z := 0.
Definition RESOURCE_TYPE_FOLDER : Z := 1.
Definition FAT_MAX_NAME_SIZE : Z := 64.

(** [r_handle] is the union of the fields [f] and [d]. *)
Record FatResource : Type := mk_FatResource { resource_type : Z; r_handle : option ptr }.

Record OS (D : Type) : Type := mk_OS {
  machine : Machine;
  fsys : FatFile.FatSys D;
  resources : gmap ptr FatResource;
  open_files : gmap ptr FatFile.File;
  open_dirs : gmap ptr FatDir.Dir
}.
Arguments mk_OS {D}. Arguments machine {D}. Arguments fsys {D}. Arguments resources {D}.
Arguments open_files {D}. Arguments open_dirs {D}.

(** ** Memory as a process sees it *)

(** Kernel addresses are mapped linearly, the others by the current tables. *)
Definition cpu_address (a : Z) : M Machine Z := λ s,
  if VA_START <=? a then Done (a, s) else
  match translate (ram s) (ttbr0 (globals (kernel s))) a with
  | Some pa => Done (u64 (pa + VA_START), s)
  | None => Fault DanglingPointer
  end.

Definition read_byte (a : Z) : M Machine Z := a ← cpu_address a; gets (λ s, byte_at (ram s) a).
Definition write_byte (a v : Z) : M Machine unit := a ← cpu_address a; set_ram (put_byte a v).

Fixpoint write_list (a : Z) (l : list Z) : M Machine unit :=
  match l with [] => mret tt | v :: l => write_byte a v;; write_list (a + 1) l end.
Fixpoint read_list (n : nat) (a : Z) : M Machine (list Z) :=
  match n with O => mret [] | S n => v ← read_byte a; l ← read_list n (a + 1); mret (v :: l) end.

(** The characters of a string; no string is longer than the memory of a process. *)
Fixpoint read_string_loop (fuel : nat) (a : Z) : M Machine (list Z) :=
  match fuel with
  | O => fail_with OutOfFuel
  | S fuel => v ← read_byte a; if v =? 0 then mret [] else l ← read_string_loop fuel (a + 1); mret (v :: l)
  end.
Definition read_string (a : Z) : M Machine (list Z) := read_string_loop (16 * Z.to_nat PAGE_SIZE + 1) a.
Definition write_string (a : Z) (l : list Z) : M Machine unit := write_list a (l ++ [0]).
Definition write_int (a v : Z) : M Machine unit := a ← cpu_address a; set_ram (store_le 4 a v).

(** The characters of an array up to its terminator. *)
Fixpoint string_of (l : list Z) : list Z :=
  match l with [] => [] | v :: l => if v =? 0 then [] else v :: string_of l end.

(** ** Processes *)
Fixpoint search_loop (n : nat) (i pid : Z) : M Kernel (option ptr) :=
  match n with
  | O => mret None
  | S n =>
    ps ← get_global processes;
    o ← require OutOfBounds (array_get ps i);
    match o with
    | None => search_loop n (i + 1) pid
    | Some p => c ← load p; if Kernel.pid c =? pid then mret (Some p) else search_loop n (i + 1) pid
    end
  end.
Definition search_process (pid : Z) : M Kernel (option ptr) := search_loop (Z.to_nat N_PROCESSES) 0 pid.

Definition syscall_yield : M Kernel unit :=
  p ← get_current; store p (with_counter 0);; schedule.

(** [Some r]: the call returns [r]; [None]: the process has left the CPU. *)
Definition syscall_wait (pid : Z) : M Kernel (option Z) :=
  o ← search_process pid;
  match o with
  | None => mret (Some (-1))
  | Some p =>
    c ← load p;
    if state c =? PROCESS_ZOMBIE then mret (Some 0) else
    current ← get_current;
    store current (with_state PROCESS_WAITING_ANOTHER_PROCESS);;
    store current (with_pid_to_wait pid);;
    schedule;;
    mret None
  end.

Definition syscall_set_sched_param (pid param value : Z) : M Kernel Z :=
  o ← search_process pid;
  match o with None => mret (-1) | Some p => sched_set_param (Some p) param value end.

Definition syscall_send_message (pid : Z) (frame text : list Z) : M Kernel (option Z) :=
  o ← search_process pid;
  match o with
  | None => mret (Some (-1))
  | Some p => current ← get_current; send_message current p frame text
  end.

Definition syscall_receive_message (frame : Message) (out : list Z) : M Kernel (option (list Z)) :=
  current ← get_current; receive_turn current frame out.

Definition syscall_send_signal (pid signal_flag : Z) : M Kernel Z :=
  o ← search_process pid;
  match o with None => mret (-1) | Some p => send_signal p signal_flag end.

Definition syscall_malloc : M Machine Z :=
  address ← allocate_kernel_page;
  if address =? 0 then mret (u64 (-1)) else mret address.

Definition syscall_write_hex (number : Z) : M Machine unit := uart_hex (u64 number).

Definition syscall_write (buffer : Z) : M Machine unit := s ← read_string buffer; uart_puts s.

Definition syscall_clone (ret_from_fork : Z) : M Machine Z := copy_process ret_from_fork 0 0 0.

Definition syscall_fork (ret_from_fork : Z) : M Machine Z := copy_process ret_from_fork 0 0 0.

(** ** Descriptors *)
Fixpoint free_descriptor_loop (n : nat) (i : Z) (process : ptr) : M Kernel Z :=
  match n with
  | O => mret (-1)
  | S n =>
    c ← load process;
    o ← require OutOfBounds (array_get (files c) i);
    match o with None => mret i | Some _ => free_descriptor_loop n (i + 1) process end
  end.
Definition get_first_free_file_descriptor (process : ptr) : M Kernel Z :=
  free_descriptor_loop (Z.to_nat MAX_FILES_PER_PROCESS) 0 process.

Section descriptors.
Context {D : Type}.

Definition on_machine {A} (m : M Machine A) : M (OS D) A := λ s,
  match m (machine s) with
  | Done (a, t) => Done (a, mk_OS t (fsys s) (resources s) (open_files s) (open_dirs s))
  | Fault e => Fault e
  end.
Definition on_os {A} (m : M Kernel A) : M (OS D) A := on_machine (on_kernel m).

Definition set_resource (p : ptr) (r : FatResource) : M (OS D) unit :=
  modify (λ s, mk_OS (machine s) (fsys s) (<[p := r]> (resources s)) (open_files s) (open_dirs s)).
Definition get_resource (p : ptr) : M (OS D) FatResource := λ s,
  match resources s !! p with Some r => Done (r, s) | None => Fault DanglingPointer end.

(** Library code on the File (or the Dir) at [p], and the file system. *)
Definition on_file {A} (p : ptr) (m : E (FatFile.File * FatFile.FatSys D) A) : M (OS D) (Z + A) := λ s,
  match open_files s !! p with
  | None => Fault DanglingPointer
  | Some f =>
    match m (f, fsys s) with
    | Done (r, (f, t)) => Done (r, mk_OS (machine s) t (resources s) (<[p := f]> (open_files s)) (open_dirs s))
    | Fault e => Fault e
    end
  end.
Definition on_dir {A} (p : ptr) (m : E (FatDir.Dir * FatFile.FatSys D) A) : M (OS D) (Z + A) := λ s,
  match open_dirs s !! p with
  | None => Fault DanglingPointer
  | Some d =>
    match m (d, fsys s) with
    | Done (r, (d, t)) => Done (r, mk_OS (machine s) t (resources s) (open_files s) (<[p := d]> (open_dirs s)))
    | Fault e => Fault e
    end
  end.

(** Library code that takes a File (or a Dir) and finds the volume in it. *)
Definition file_volume {A} (m : E (FatFile.File * FatVolume.Vol D) A) : E (FatFile.File * FatFile.FatSys D) A := λ x,
  match FatFile.f_fat x.1 with
  | Some p => FatFile.in_volume p m x
  | None => Done (inl FatFormat.FAT_ERR_PARAM, x)
  end.
Definition dir_volume {A} (m : E (FatDir.Dir * FatVolume.Vol D) A) : E (FatDir.Dir * FatFile.FatSys D) A := λ x,
  match FatDir.d_fat x.1 with
  | Some p => FatFile.in_volume p m x
  | None => Done (inl FatFormat.FAT_ERR_PARAM, x)
  end.

(** A page for an object; there is no check that the allocator had one. *)
Definition new_page : M (OS D) ptr := on_machine allocate_kernel_page.
Definition blank_file : FatFile.File := FatFile.mk_File None 0 0 0 0 0 0 0 0 0 (replicate 512 0).
Definition new_file : M (OS D) ptr :=
  p ← new_page;
  modify (λ s, mk_OS (machine s) (fsys s) (resources s) (<[p := blank_file]> (open_files s)) (open_dirs s));;
  mret p.
Definition new_dir : M (OS D) ptr :=
  p ← new_page;
  modify (λ s, mk_OS (machine s) (fsys s) (resources s) (open_files s) (<[p := FatFile.new_dir]> (open_dirs s)));;
  mret p.
Definition drop_page (p : ptr) : M (OS D) unit :=
  on_machine (free_page p);;
  modify (λ s, mk_OS (machine s) (fsys s) (resources s) (delete p (open_files s)) (delete p (open_dirs s))).

(** [current_process->files[fd] = allocate_kernel_page()] with its two fields. *)
Definition install (fd : Z) (kind : Z) (handle : option ptr) : M (OS D) unit :=
  p ← new_page;
  current ← on_os get_current;
  on_os (set_file current fd (Some p));;
  set_resource p (mk_FatResource kind handle).

Definition current_descriptor (fd : Z) : M (OS D) (option ptr) :=
  current ← on_os get_current;
  c ← on_os (load current);
  require OutOfBounds (array_get (files c) fd).

Definition is_null {A} (o : option A) : bool := match o with None => true | Some _ => false end.

Definition syscall_create_dir (dir_path : list Z) : M (OS D) Z :=
  current ← on_os get_current;
  fd ← on_os (get_first_free_file_descriptor current);
  if fd =? -1 then mret (-1) else
  created_dir ← new_dir;
  r ← on_dir created_dir (Filesystem.create_dir dir_path);
  match r with
  | inl error => drop_page created_dir;; mret error
  | inr _ => install fd RESOURCE_TYPE_FOLDER (Some created_dir);; mret fd
  end.

Definition syscall_open_dir (dir_path : list Z) : M (OS D) Z :=
  current ← on_os get_current;
  fd ← on_os (get_first_free_file_descriptor current);
  if fd =? -1 then mret (-1) else
  dir ← new_dir;
  r ← on_dir dir (Filesystem.open_dir dir_path);
  match r with
  | inl _ => drop_page dir;; mret (-1)
  | inr _ => install fd RESOURCE_TYPE_FOLDER (Some dir);; mret fd
  end.

Definition syscall_open_file (file_path : list Z) (flags : Z) : M (OS D) Z :=
  current ← on_os get_current;
  fd ← on_os (get_first_free_file_descriptor current);
  if fd =? -1 then mret (-1) else
  file ← new_file;
  r ← on_file file (Filesystem.open_file file_path flags);
  match r with
  | inl _ => drop_page file;; mret (-1)
  | inr _ => install fd RESOURCE_TYPE_FILE (Some file);; mret fd
  end.

Definition syscall_close_file (file_descriptor : Z) : M (OS D) Z :=
  if (file_descriptor <? 0) || (MAX_FILES_PER_PROCESS <=? file_descriptor) then mret (-1) else
  o ← current_descriptor file_descriptor;
  p ← require NullPointer o;
  r ← get_resource p;
  file ← require NullPointer (r_handle r);
  e ← on_file file (file_volume FatFile.fat_file_close);
  match e with
  | inl error => mret error
  | inr _ =>
    drop_page file;;
    install file_descriptor 0 None;;
    mret 0
  end.

(** The error code and what [*bytes] receives. *)
Definition syscall_write_file (file_descriptor : Z) (src : list Z) (len : Z) : M (OS D) (Z * option Z) :=
  o ← current_descriptor file_descriptor;
  match o with
  | None => mret (-1, None)
  | Some p =>
    r ← get_resource p;
    file ← require NullPointer (r_handle r);
    e ← on_file file (file_volume (FatFile.fat_file_write src len));
    match e with
    | inl error => mret (error, Some 0)
    | inr (error, bytes) => mret (error, Some bytes)
    end
  end.

(** The error code and the bytes read, from the start of the file. *)
Definition syscall_read_file (file_descriptor len : Z) : M (OS D) (Z * list Z) :=
  o ← current_descriptor file_descriptor;
  p ← require NullPointer o;
  r ← get_resource p;
  file ← require NullPointer (r_handle r);
  _ ← on_file file (file_volume (FatFile.fat_file_seek 0 FatFile.FAT_SEEK_START));
  e ← on_file file (file_volume (FatFile.fat_file_read len));
  match e with
  | inl error => mret (error, [])
  | inr (error, out) => mret (error, out)
  end.

(** The bytes stored in [entry_info->name], and [is_dir]. *)
Definition syscall_get_next_entry (file_descriptor : Z) : M (OS D) (Z * option (list Z * Z)) :=
  o ← current_descriptor file_descriptor;
  p ← require NullPointer o;
  r ← get_resource p;
  match r_handle r with
  | None => mret (-1, None)
  | Some dir =>
    e ← on_dir dir (dir_volume FatFile.fat_dir_read);
    match e with
    | inl _ => mret (-1, None)
    | inr i =>
      let size := if FatFile.i_name_len i <? 255 then FatFile.i_name_len i else 255 in
      let out := (FatFormat.get_bytes (Z.to_nat size) (FatFile.i_name i) 0,
        if Z.land (FatFile.i_attr i) FatFormat.FAT_ATTR_DIR =? 0 then 0 else 1) in
      e ← on_dir dir (dir_volume FatFile.fat_dir_next);
      match e with inl _ => mret (-1, Some out) | inr _ => mret (0, Some out) end
    end
  end.

(** ** exec *)
Definition SYSCALL_EXEC_ARGUMENT_DIMENSION : Z := 64.

(** The rows of the array [safe_arguments]; a longer argument overruns its row. *)
Fixpoint save_arguments (n : nat) (arguments : Z) : M Machine (list (list Z)) :=
  match n with
  | O => mret []
  | S n =>
    a ← read_string arguments;
    if SYSCALL_EXEC_ARGUMENT_DIMENSION <=? Z.of_nat (length a) then fail_with OutOfBounds else
    l ← save_arguments n (arguments + SYSCALL_EXEC_ARGUMENT_DIMENSION);
    mret (a :: l)
  end.

Fixpoint free_user_pages (n : nat) (i : Z) : M Machine unit :=
  match n with
  | O => mret tt
  | S n =>
    current ← on_kernel get_current;
    m ← load_mm current;
    u ← require OutOfBounds (array_get (user_pages m) i);
    free_page (u64 (physical_address u + VA_START));;
    m ← load_mm current;
    l ← require OutOfBounds (array_set (user_pages m) i (mk_user_page 0 0));
    store_mm current (mk_mm_struct (pgd m) (s32 (n_user_pages m - 1)) l (n_kernel_pages m) (kernel_pages m));;
    free_user_pages n (i + 1)
  end.

Fixpoint push_arguments (l : list (list Z)) (i stack_pointer trap_frame : Z) : M Machine Z :=
  match l with
  | [] => mret stack_pointer
  | a :: l =>
    let stack_pointer := stack_pointer - SYSCALL_EXEC_ARGUMENT_DIMENSION in
    write_string stack_pointer a;;
    set_ram (store64 (trap_frame + 8 * (i + 1)) stack_pointer);;
    push_arguments l (i + 1) stack_pointer trap_frame
  end.

Definition exec_image (buffer read_bytes trap_frame n_arguments : Z) (safe : list (list Z)) : M Machine unit :=
  current ← on_kernel get_current;
  m ← load_mm current;
  free_user_pages (Z.to_nat (n_user_pages m)) 0;;
  copy_code current buffer read_bytes;;
  set_ram (store64 trap_frame (u64 n_arguments));;
  stack_pointer ← push_arguments safe 0 (16 * PAGE_SIZE) trap_frame;
  set_ram (store64 (trap_frame + 8 * 31) stack_pointer);;
  set_ram (store64 (trap_frame + 8 * 32) 0).

Definition syscall_exec (path : list Z) (trap_frame n_arguments arguments : Z) : M (OS D) Z :=
  fd ← syscall_open_file path FatFormat.FAT_READ;
  if fd =? -1 then mret (-1) else
  buffer ← new_page;
  r ← syscall_read_file fd (PAGE_SIZE * 16);
  on_machine (write_list buffer r.2);;
  let read_bytes := Z.of_nat (length r.2) in
  _ ← syscall_close_file fd;
  if PAGE_SIZE * 15 <? read_bytes then mret (-1) else
  safe ← on_machine (save_arguments (Z.to_nat n_arguments) arguments);
  on_machine (exec_image buffer read_bytes trap_frame n_arguments safe);;
  mret 0.

(** ** The dispatcher *)

(** What a call does to x0: a value is returned, x0 is kept, or the process has
    left the CPU inside the call. *)
Inductive reply : Type :=
| Returns (v : Z)
| Keeps
| Blocks.

Definition reply_of (o : option Z) : reply := match o with Some v => Returns v | None => Blocks end.
Definition int_arg (v : Z) : Z := s32 v.

Definition run_input (buffer len : Z) : M Machine reply :=
  old ← read_list (Z.to_nat (Z.max 1 len)) buffer;
  r ← syscall_input old len;
  match r with
  | None => mret Blocks
  | Some (InputLine n new) => write_list buffer new;; mret (Returns n)
  | Some (InputBlocked _ new) => write_list buffer new;; mret Blocks
  end.

(** [stack] is what the part of the kernel stack used for messages held before. *)
Definition dispatch (ret_from_fork : Z) (stack : list Z) (number x0 x1 x2 x3 registers : Z) : M (OS D) reply :=
  match number with
  | 0 => on_machine (syscall_write x0);; mret Keeps
  | 18 => on_machine (syscall_write_hex (int_arg x0));; mret Keeps
  | 1 => v ← on_machine syscall_malloc; mret (Returns v)
  | 2 => on_os exit_process;; mret Keeps
  | 3 => p ← on_machine (read_string x0); v ← syscall_create_dir p; mret (Returns v)
  | 4 => p ← on_machine (read_string x0); v ← syscall_open_dir p; mret (Returns v)
  | 5 => p ← on_machine (read_string x0); v ← syscall_open_file p (u8 x1); mret (Returns v)
  | 6 => v ← syscall_close_file (int_arg x0); mret (Returns v)
  | 7 =>
    src ← on_machine (read_list (Z.to_nat (int_arg x2)) x1);
    r ← syscall_write_file (int_arg x0) src (int_arg x2);
    match r.2 with Some b => on_machine (write_int x3 b) | None => mret tt end;;
    mret (Returns r.1)
  | 8 =>
    r ← syscall_read_file (int_arg x0) (int_arg x2);
    on_machine (write_list x1 r.2);;
    on_machine (write_int x3 (Z.of_nat (length r.2)));;
    mret (Returns r.1)
  | 9 => on_os syscall_yield;; mret Keeps
  | 10 => on_machine (run_input x0 (int_arg x1))
  | 11 =>
    r ← syscall_get_next_entry (int_arg x0);
    match r.2 with
    | Some (nm, d) => on_machine (write_list (x1 + 4) nm);; on_machine (write_byte (x1 + 4 + FAT_MAX_NAME_SIZE) d)
    | None => mret tt
    end;;
    mret (Returns r.1)
  | 12 => v ← on_machine (syscall_fork ret_from_fork); mret (Returns v)
  | 13 => t ← on_machine (read_string x1); o ← on_os (syscall_send_message (int_arg x0) stack (t ++ [0])); mret (reply_of o)
  | 14 =>
    o ← on_os (syscall_receive_message (mk_Message None None stack) stack);
    match o with
    | Some text => on_machine (write_string x0 (string_of text));; mret Keeps
    | None => mret Blocks
    end
  | 15 => v ← on_os (syscall_send_signal (int_arg x0) (int_arg x1)); mret (Returns v)
  | 16 => p ← on_machine (read_string x0); _ ← syscall_exec p registers (int_arg x1) x2; mret Keeps
  | 17 => o ← on_os (syscall_wait (int_arg x0)); mret (reply_of o)
  | 19 => v ← on_os read_system_timer; mret (Returns v)
  | 20 => v ← on_os (syscall_set_sched_param (int_arg x0) (int_arg x1) (int_arg x2)); mret (Returns v)
  | _ => mret Keeps
  end.

Definition SYSCALLS_NUMBER : Z := 21.

Definition register (registers i : Z) : M (OS D) Z := on_machine (gets (λ s, load64 (registers + 8 * i) (ram s))).

Definition syscall_dispatcher (ret_from_fork : Z) (stack : list Z) (registers : Z) : M (OS D) reply :=
  number ← register registers 8;
  if SYSCALLS_NUMBER <? number then mret Keeps else
  x0 ← register registers 0;
  x1 ← register registers 1;
  x2 ← register registers 2;
  x3 ← register registers 3;
  r ← dispatch ret_from_fork stack number x0 x1 x2 x3 registers;
  match r with
  | Returns v => on_machine (set_ram (store64 registers (u64 v)));; mret r
  | _ => mret r
  end.
End descriptors.
