(* ===== verification/SyscallsSpec.v ===== *)
(** * System calls on files: descriptors, down to the disk

    What the descriptor of a process refers to, the runs of the pieces the calls
    are made of, and reading a file through one. *)
From stdpp Require Import base gmap list.
From Stdlib Require Import ZArith Lia.
From S2P Require Import Prelude Mem Kernel Scheduler Machine Mm MmSpec FatFormat FatVolume FatDir FatFile FatBytes FatVolumeSpec FatChain FatFileProps Filesystem Fork Syscalls.

#[local] Open Scope Z_scope.
#[local] Opaque memzero memcpy store_le load_le free_list N_PAGES page_used byte_at put_byte.

(** ** Library code keeps the volume a File is on *)
Definition keeps {S A} (m : E (File * S) A) : Prop :=
  ∀ x r x', m x = Done (r, x') → f_fat x'.1 = f_fat x.1.

Section keeping.
Context {S : Type}.

Lemma keeps_ret {A} (a : A) : keeps (mret a : E (File * S) A).
Proof. by intros x r x' [= <- <-]. Qed.
Lemma keeps_throw {A} e : keeps (throw e : E (File * S) A).
Proof. by intros x r x' [= <- <-]. Qed.
Lemma keeps_stop {A} e : keeps (stop e : E (File * S) A).
Proof. done. Qed.
Lemma keeps_bind {A B} (m : E (File * S) A) (k : A → E (File * S) B) : keeps m → (∀ a, keeps (k a)) → keeps (m ≫= k).
Proof.
  intros Hm Hk x r x' E. unfold mbind, E_bind in E. destruct (m x) as [[[e|a] x1]|e] eqn:Em; [|..|done].
  - injection E as <- <-. by eapply Hm.
  - etransitivity; [by eapply Hk|by eapply Hm].
Qed.
Lemma keeps_catch {A} (m : E (File * S) A) : keeps m → keeps (catch m).
Proof. intros Hm x r x' E. unfold catch in E. destruct (m x) as [[r1 x1]|e] eqn:Em; [|done]. injection E as <- <-. by eapply Hm. Qed.
End keeping.

Section keeping_files.
Context {D : Type}.
Lemma keeps_get : keeps (get_file (D := D)).
Proof. by intros x r x' [= <- <-]. Qed.
Lemma keeps_upd g : (∀ f, f_fat (g f) = f_fat f) → keeps (upd_file (D := D) g).
Proof. intros Hg x r x' [= <- <-]. apply Hg. Qed.
Lemma keeps_vol {A} (m : FS D A) : keeps (file_vol m).
Proof. intros x r x' E. unfold file_vol, zoom in E. destruct (m x.2) as [[r1 v]|e]; [|done]. by injection E as <- <-. Qed.
End keeping_files.

Ltac keeps_auto :=
  repeat match goal with
  | |- keeps (mbind _ _) => apply keeps_bind
  | |- keeps (mret _) => apply keeps_ret
  | |- keeps (throw _) => apply keeps_throw
  | |- keeps (stop _) => apply keeps_stop
  | |- keeps (catch _) => apply keeps_catch
  | |- keeps get_file => apply keeps_get
  | |- keeps (upd_file _) => apply keeps_upd; by intros []
  | |- keeps (file_vol _) => apply keeps_vol
  | |- keeps (if ?b then _ else _) => destruct b
  | |- keeps (match ?p with _ => _ end) => destruct p
  | |- keeps (let _ := _ in _) => cbv zeta
  | |- ∀ _, _ => intros ?
  | _ => solve [eauto]
  end.

Section keeping_reads.
Context {D : Type}.
Lemma keeps_seek_loop n : keeps (seek_loop (D := D) n).
Proof. induction n; cbn [seek_loop]; keeps_auto. Qed.
Lemma keeps_seek off how : keeps (fat_file_seek (D := D) off how).
Proof. pose proof keeps_seek_loop. unfold fat_file_seek. keeps_auto. Qed.
Lemma keeps_read_loop n len out : keeps (read_loop (D := D) n len out).
Proof. pose proof keeps_seek. revert len out. induction n; intros len out; cbn [read_loop]; keeps_auto. Qed.
Lemma keeps_read len : keeps (fat_file_read (D := D) len).
Proof. pose proof keeps_read_loop. unfold fat_file_read. keeps_auto. Qed.
Lemma keeps_close : keeps (fat_file_close (D := D)).
Proof. unfold fat_file_close, fat_file_sync. keeps_auto. Qed.
End keeping_reads.

(** ** The descriptor of an open file *)
Section descriptors.
Context {D : Type}.

(** Descriptor [fd] of the current process is the object [h]. *)
Definition describes (s : OS D) (fd : Z) (h : ptr) : Prop :=
  ∃ c p r, heap (kernel (machine s)) !! cur (kernel (machine s)) = Some c ∧ array_get (files c) fd = Some (Some p) ∧
    resources s !! p = Some r ∧ r_handle r = Some h.

(** It is the File [f] at [h], on the volume [v]. *)
Record file_at (s : OS D) (fd : Z) (h : ptr) (f : File) (v : Vol D) : Prop := mk_file_at {
  fa_desc : describes s fd h;
  fa_file : open_files s !! h = Some f;
  fa_vol : ∃ vp next, f_fat f = Some vp ∧ fats (fsys s) !! vp = Some (next, fat v) ∧ vol_of (fat v) (fsys s) = v
}.

Lemma on_os_run {A} (m : M Kernel A) (s : OS D) a :
  m (kernel (machine s)) = Done (a, kernel (machine s)) → on_os m s = Done (a, s).
Proof. intros E. unfold on_os, on_machine, on_kernel. rewrite E. destruct s as [m']. by destruct m'. Qed.

Lemma current_run (s : OS D) : on_os get_current s = Done (cur (kernel (machine s)), s).
Proof. by apply on_os_run. Qed.

Lemma load_run p c (s : OS D) : heap (kernel (machine s)) !! p = Some c → on_os (load p) s = Done (c, s).
Proof. intros Hc. apply on_os_run. unfold load. by rewrite Hc. Qed.

Lemma current_descriptor_run (s : OS D) fd c o :
  heap (kernel (machine s)) !! cur (kernel (machine s)) = Some c → array_get (files c) fd = Some o →
  current_descriptor fd s = Done (o, s).
Proof.
  intros Hc Ho. unfold current_descriptor. rewrite (bind_done _ _ _ _ _ (current_run s)), (bind_done _ _ _ _ _ (load_run _ c s Hc)).
  by rewrite Ho.
Qed.

Lemma resource_run p r (s : OS D) : resources s !! p = Some r → get_resource p s = Done (r, s).
Proof. intros Hr. unfold get_resource. by rewrite Hr. Qed.

(** Library code on an open file. *)
Lemma on_file_run {A} (s : OS D) fd h f v (m : E (File * Vol D) A) r f' v' :
  file_at s fd h f v → m (f, v) = Done (r, (f', v')) → f_fat f' = f_fat f →
  ∃ s', on_file h (file_volume m) s = Done (r, s') ∧ file_at s' fd h f' v' ∧ machine s' = machine s ∧ resources s' = resources s.
Proof.
  intros [Hd Hf (vp & next & Hvp & Hfat & Hv)] Em Hk.
  eexists. split.
  - unfold on_file, file_volume, in_volume. rewrite Hf. cbn [fst]. rewrite Hvp, Hfat, Hv, Em. reflexivity.
  - split; [|done]. split.
    + exact Hd.
    + cbn. by rewrite lookup_insert_eq.
    + exists vp, next. rewrite Hk. split; [done|]. cbn. rewrite lookup_insert_eq. split; [done|]. by destruct v'.
Qed.
End descriptors.

(** ** Opening and closing *)
Section opening.
Context {D : Type}.
Implicit Types s : OS D.

Definition os_with (t : Machine) (s : OS D) : OS D := mk_OS t (fsys s) (resources s) (open_files s) (open_dirs s).

Lemma free_descriptor_run n p c k : ∀ i,
  heap k !! p = Some c → length (files c) = (i + n)%nat →
  free_descriptor_loop n (Z.of_nat i) p k =
    Done (match list_find (λ o, o = None) (drop i (files c)) with Some (j, _) => Z.of_nat (i + j) | None => -1 end, k).
Proof.
  induction n as [|n IH]; intros i Hp Hl.
  { rewrite drop_ge by lia. done. }
  cbn [free_descriptor_loop]. rewrite (bind_done _ _ _ _ _ (load_some _ _ _ Hp)).
  destruct (lookup_lt_is_Some_2 (files c) i ltac:(lia)) as [o Ho]. rewrite (drop_S _ _ _ Ho).
  rewrite (bind_require_some _ _ o) by (by rewrite array_get_nat). cbn [list_find]. destruct o as [q|].
  - rewrite decide_False by done. replace (Z.of_nat i + 1) with (Z.of_nat (S i)) by lia. rewrite IH by (done || lia).
    destruct (list_find _ (drop (S i) (files c))) as [[j x]|]; cbn; [|done]. do 3 f_equal. lia.
  - rewrite decide_True by done. cbn. by rewrite Nat.add_0_r.
Qed.

(** The first descriptor that is free. *)
Definition first_free (c : PCB) : option nat := fst <$> list_find (λ o, o = None) (files c).

Lemma first_descriptor_run s c :
  heap (kernel (machine s)) !! cur (kernel (machine s)) = Some c → length (files c) = Z.to_nat MAX_FILES_PER_PROCESS →
  on_os (get_first_free_file_descriptor (cur (kernel (machine s)))) s =
    Done (match first_free c with Some i => Z.of_nat i | None => -1 end, s).
Proof.
  intros Hc Hl. apply on_os_run. unfold get_first_free_file_descriptor.
  change 0 with (Z.of_nat 0). rewrite (free_descriptor_run _ _ c _ 0 Hc Hl), drop_0. unfold first_free. by destruct (list_find _ (files c)) as [[i x]|].
Qed.

Lemma first_free_lookup c i : first_free c = Some i → files c !! i = Some None ∧ (i < length (files c))%nat.
Proof.
  unfold first_free. intros (x & E & ->)%fmap_Some. destruct x as [i x]. apply list_find_Some in E as (E & -> & _).
  split; [done|]. by apply lookup_lt_Some in E.
Qed.

(** A descriptor in use, set to another object, frees and takes none. *)
Lemma first_free_taken c fd p q :
  array_get (files c) fd = Some (Some p) → first_free (with_files (<[Z.to_nat fd := Some q]> (files c)) c) = first_free c.
Proof.
  unfold array_get. destruct (fd <? 0); [done|]. unfold first_free. cbn [files with_files].
  generalize (Z.to_nat fd). induction (files c) as [|x l IH]; [done|]. intros [|i] Hi; cbn in *.
  - injection Hi as ->. by rewrite !decide_False by done.
  - case_decide; [done|]. specialize (IH i Hi). destruct (list_find _ (<[i:=Some q]> l)) as [[]|], (list_find _ l) as [[]|]; cbn in *; congruence.
Qed.

Lemma array_get_insert_eq {A} (l : list A) i x : 0 ≤ i < Z.of_nat (length l) → array_get (<[Z.to_nat i := x]> l) i = Some x.
Proof. intros Hi. unfold array_get. rewrite (proj2 (Z.ltb_ge i 0)) by lia. apply list_lookup_insert_eq. lia. Qed.

Lemma new_page_run s j l :
  free_list (memory_pages (machine s)) = j :: l → new_page s = Done (kva j, os_with (take_page j (machine s)) s).
Proof. intros E. unfold new_page, on_machine. by rewrite (allocate_run _ j l E). Qed.

Lemma set_file_run k p c fd v :
  heap k !! p = Some c → 0 ≤ fd < Z.of_nat (length (files c)) →
  set_file p fd v k = Done (tt, with_heap (<[p := with_files (<[Z.to_nat fd := v]> (files c)) c]> (heap k)) k).
Proof.
  intros Hp Hfd. unfold set_file. rewrite (bind_done _ _ _ _ _ (load_some _ _ _ Hp)).
  rewrite (bind_require_some _ _ (<[Z.to_nat fd := v]> (files c))) by (by apply array_set_Some). by rewrite (store_some _ _ _ _ Hp).
Qed.

(** The kernel after descriptor [fd] of the current process is set to [p]. *)
Definition with_descriptor (c : PCB) (fd : Z) (p : ptr) (k : Kernel) : Kernel :=
  with_heap (<[cur k := with_files (<[Z.to_nat fd := Some p]> (files c)) c]> (heap k)) k.

Lemma with_descriptor_current c fd p k :
  heap (with_descriptor c fd p k) !! cur (with_descriptor c fd p k) = Some (with_files (<[Z.to_nat fd := Some p]> (files c)) c).
Proof. exact (lookup_insert_eq _ _ _). Qed.

Lemma install_run s c fd kind h j l :
  free_list (memory_pages (machine s)) = j :: l → heap (kernel (machine s)) !! cur (kernel (machine s)) = Some c →
  0 ≤ fd < Z.of_nat (length (files c)) →
  install fd kind h s = Done (tt, mk_OS (with_kernel (with_descriptor c fd (kva j) (kernel (machine s))) (take_page j (machine s)))
    (fsys s) (<[kva j := mk_FatResource kind h]> (resources s)) (open_files s) (open_dirs s)).
Proof.
  intros Hf Hc Hfd. unfold install. rewrite (bind_done _ _ _ _ _ (new_page_run s j l Hf)).
  set (s1 := os_with (take_page j (machine s)) s). rewrite (bind_done _ _ _ _ _ (current_run s1)).
  rewrite (bind_done _ _ s1 tt (os_with (with_kernel (with_descriptor c fd (kva j) (kernel (machine s))) (take_page j (machine s))) s)); [done|].
  unfold on_os, on_machine, on_kernel. change (kernel (machine s1)) with (kernel (machine s)).
  by rewrite (set_file_run _ _ c) by done.
Qed.

(** Freeing the page of an object. *)
Lemma drop_page_run s j :
  page_index j → ∃ t, drop_page (kva j) s = Done (tt, mk_OS t (fsys s) (resources s) (delete (kva j) (open_files s)) (delete (kva j) (open_dirs s))) ∧
    kernel t = kernel (machine s) ∧ ∀ i, i ∈ free_list (memory_pages t) ↔ i = j ∨ i ∈ free_list (memory_pages (machine s)).
Proof.
  intros Hj. destruct (free_page_ok (machine s) j Hj) as (t & Et & Hk & Hfree & _). exists t. split; [|done].
  unfold drop_page. by rewrite (bind_done _ _ s 0 (os_with t s)) by (unfold on_machine; by rewrite Et).
Qed.

Lemma describes_installed c fd p kind h k t fs res ofs ods :
  0 ≤ fd < Z.of_nat (length (files c)) →
  describes (mk_OS (D := D) (with_kernel (with_descriptor c fd p k) t) fs (<[p := mk_FatResource kind (Some h)]> res) ofs ods) fd h.
Proof.
  intros Hfd. exists (with_files (<[Z.to_nat fd := Some p]> (files c)) c), p, (mk_FatResource kind (Some h)).
  split; [exact (with_descriptor_current _ _ _ _)|]. split; [|split; [exact (lookup_insert_eq _ _ _)|done]].
  by apply array_get_insert_eq.
Qed.
End opening.

(** ** Reading *)
Section reading.
Context {D : Type} (o : DiskOps D) `{!BlockDevice o}.

(** What the data of the file system satisfies: the volume represents the image
    [a], and [f] is a file of the clusters [l]. *)
Record file_data (f : File) (v : Vol D) (a : AVol) (l : list Z) : Prop := mk_file_data {
  fd_rep : represents o v a;
  fd_laid : well_laid o (a_layout a);
  fd_data : data_laid o (a_layout a);
  fd_apart : apart v (a_layout a) l;
  fd_pos : positioned f a l;
  fd_size : 0 ≤ f_size f < 2 ^ 32
}.

(** syscall_read_file reads a file from its start, whatever has been done with the
    descriptor before. *)
Lemma read_file_run (s : OS D) fd h f v a l len :
  file_at s fd h f v → file_data f v a l → has (f_flags f) FAT_READ = true → 0 ≤ len < 2 ^ 31 →
  readable (f_size f) 0 len < room (a_layout a) l →
  ∃ s' f' v', syscall_read_file fd len s = Done (FAT_ERR_NONE, contents a l 0 (Z.to_nat (readable (f_size f) 0 len)), s') ∧
    file_at s' fd h f' v' ∧ file_data f' v' a l ∧ f_size f' = f_size f ∧ f_offset f' = readable (f_size f) 0 len ∧
    machine s' = machine s ∧ resources s' = resources s.
Proof.
  intros Hat [Hr Hg Hd Ha Hp Hsz] Hread Hlen Hroom.
  pose proof (fa_desc _ _ _ _ _ Hat) as (c & p & r & Hc & Hfd & Hres & Hh).
  assert (0 < room (a_layout a) l) as Hroom0 by (pose proof (po_off _ _ _ Hp); lia).
  destruct (seek_ok o f v a l 0 FAT_SEEK_START 0 Hr Hg Hd Ha Hp ltac:(lia) ltac:(lia) ltac:(by left)) as (r1 & [f1 v1] & E1 & [] & -> & Hp1).
  destruct Hp1 as (Hpo1 & Eo1 & Es1 & Ef1 & Hr1 & Ha1). cbn [fst snd] in *.
  destruct (file_read_ok o f1 v1 a l len Hr1 Hg Hd Ha1 Hpo1) as (r2 & [f2 v2] & E2 & x2 & -> & -> & Hpo2 & Eo2 & Es2 & Hr2 & Ha2);
    [by rewrite Ef1|done|by rewrite Es1|by rewrite Eo1, Es1|].
  cbn [fst snd] in *. rewrite Eo1, Es1 in *.
  destruct (on_file_run s fd h f v _ _ _ _ Hat E1 (keeps_seek 0 FAT_SEEK_START (f, v) _ _ E1)) as (s1 & R1 & Hat1 & Em1 & Er1).
  destruct (on_file_run s1 fd h f1 v1 _ _ _ _ Hat1 E2 (keeps_read len (f1, v1) _ _ E2)) as (s2 & R2 & Hat2 & Em2 & Er2).
  exists s2, f2, v2. split.
  { unfold syscall_read_file. rewrite (bind_done _ _ _ _ _ (current_descriptor_run s fd c _ Hc Hfd)). cbn [require].
    rewrite bind_ret, (bind_done _ _ _ _ _ (resource_run p r s Hres)), Hh. cbn [require].
    by rewrite bind_ret, (bind_done _ _ _ _ _ R1), (bind_done _ _ _ _ _ R2). } split; [done|]. split; [split; (done || lia)|]. rewrite Em2, Er2. done.
Qed.
End reading.
