(* ===== verification/SyscallsProps.v ===== *)
(** * Properties of the system calls on files

    Opening and closing through the descriptors of a process, and reading a file
    of the SD card through one. *)
From stdpp Require Import base gmap list.
From Stdlib Require Import ZArith Lia.
From S2P Require Import Prelude Mem Kernel Scheduler Boot Machine Mm MmSpec MmProps FatFormat FatVolume FatDir FatFile FatBytes FatVolumeSpec FatChain FatFileProps Sd SdSpec Filesystem SdHost SdProps Syscalls SyscallsSpec.

#[local] Open Scope Z_scope.
#[local] Opaque memzero memcpy store_le load_le free_list N_PAGES page_used byte_at put_byte.

Section opening.
Context {D : Type}.
Implicit Types s : OS D.

(** A call of syscall_open_file. *)
Lemma open_file_run s c path fl :
  heap (kernel (machine s)) !! cur (kernel (machine s)) = Some c → length (files c) = Z.to_nat MAX_FILES_PER_PROCESS →
  match first_free c with
  | None => syscall_open_file path fl s = Done (-1, s)
  | Some i => ∀ j1 j2 l r f t,
      free_list (memory_pages (machine s)) = j1 :: j2 :: l →
      Filesystem.open_file path fl (blank_file, fsys s) = Done (r, (f, t)) →
      ∃ v s', syscall_open_file path fl s = Done (v, s') ∧ fsys s' = t ∧
        match r with
        | inl _ => v = -1 ∧ kernel (machine s') = kernel (machine s) ∧ resources s' = resources s ∧
            open_files s' = delete (kva j1) (open_files s) ∧
            ∀ k, k ∈ free_list (memory_pages (machine s')) ↔ k ∈ free_list (memory_pages (machine s))
        | inr _ => v = Z.of_nat i ∧ describes s' v (kva j1) ∧ open_files s' = <[kva j1 := f]> (open_files s) ∧
            kernel (machine s') = with_descriptor c v (kva j2) (kernel (machine s)) ∧ memory_pages (machine s') = <[j2 := 1]> (<[j1 := 1]> (memory_pages (machine s)))
        end
  end.
Proof.
  intros Hc Hl. pose proof (first_descriptor_run s c Hc Hl) as Hfd.
  destruct (first_free c) as [i|] eqn:Ei.
  2: { unfold syscall_open_file. rewrite (bind_done _ _ _ _ _ (current_run s)), (bind_done _ _ _ _ _ Hfd). done. }
  intros j1 j2 l r f t Hfree Hopen. pose proof (first_free_lookup c i Ei) as [Hi Hlt].
  set (s1 := mk_OS (take_page j1 (machine s)) (fsys s) (resources s) (<[kva j1 := blank_file]> (open_files s)) (open_dirs s)).
  set (s2 := mk_OS (take_page j1 (machine s)) t (resources s) (<[kva j1 := f]> (<[kva j1 := blank_file]> (open_files s))) (open_dirs s)).
  assert (new_file s = Done (kva j1, s1)) as E1.
  { unfold new_file. by rewrite (bind_done _ _ _ _ _ (new_page_run s j1 _ Hfree)). }
  assert (on_file (kva j1) (Filesystem.open_file path fl) s1 = Done (r, s2)) as E2.
  { unfold on_file. cbn [open_files s1]. rewrite lookup_insert_eq. cbn [fsys s1]. by rewrite Hopen. }
  assert (syscall_open_file path fl s = match r with
    | inl _ => (drop_page (kva j1);; mret (-1)) s2
    | inr _ => (install (Z.of_nat i) RESOURCE_TYPE_FILE (Some (kva j1));; mret (Z.of_nat i)) s2 end) as E.
  { unfold syscall_open_file. rewrite (bind_done _ _ _ _ _ (current_run s)), (bind_done _ _ _ _ _ Hfd).
    rewrite (proj2 (Z.eqb_neq _ _)) by lia. rewrite (bind_done _ _ _ _ _ E1), (bind_done _ _ _ _ _ E2). by destruct r. }
  rewrite E. destruct r as [e|[]].
  - destruct (free_list_head _ _ _ Hfree) as [Hj1 _].
    destruct (drop_page_run s2 j1 Hj1) as (t' & E3 & Hk & Hin).
    eexists (-1), _. rewrite (bind_done _ _ _ _ _ E3). split; [reflexivity|]. cbn [fsys machine resources open_files].
    split; [done|]. split; [done|]. split; [exact Hk|]. split; [done|].
    split; [cbn [open_files s2]; by rewrite insert_insert_eq, delete_insert_eq|]. intros k. rewrite Hin. cbn [machine s2].
    change (memory_pages (take_page j1 (machine s))) with (<[j1 := 1]> (memory_pages (machine s))).
    rewrite (free_list_take _ _ _ Hfree), Hfree, (elem_of_cons (j2 :: l)). done.
  - assert (free_list (memory_pages (machine s2)) = j2 :: l) as Hfree2 by exact (free_list_take _ _ _ Hfree).
    eexists (Z.of_nat i), _. rewrite (bind_done _ _ _ _ _ (install_run s2 c (Z.of_nat i) RESOURCE_TYPE_FILE (Some (kva j1)) j2 l Hfree2 Hc ltac:(lia))).
    split; [reflexivity|]. split; [done|]. split; [done|]. split; [apply describes_installed; lia|].
    split; [exact (insert_insert_eq _ _ _ _)|]. done.
Qed.

(** C27: syscall_open_file.  A process with no free descriptor gets -1 and nothing
    changes.  Otherwise the library opens the file in a fresh object on a page of
    its own: when it fails the call returns -1, the page is free again, and the
    processes and the descriptors are as before; when it succeeds the call returns
    the first free descriptor, which from then on is that object, and no other
    descriptor or process has changed. *)
Theorem open_file_spec s c path fl :
  heap (kernel (machine s)) !! cur (kernel (machine s)) = Some c → length (files c) = Z.to_nat MAX_FILES_PER_PROCESS →
  match first_free c with
  | None => syscall_open_file path fl s = Done (-1, s)
  | Some i => ∀ j1 j2 l r f t,
      free_list (memory_pages (machine s)) = j1 :: j2 :: l →
      Filesystem.open_file path fl (blank_file, fsys s) = Done (r, (f, t)) →
      ∃ v s', syscall_open_file path fl s = Done (v, s') ∧ fsys s' = t ∧
        match r with
        | inl _ => v = -1 ∧ kernel (machine s') = kernel (machine s) ∧ resources s' = resources s ∧
            open_files s' = delete (kva j1) (open_files s) ∧
            ∀ k, k ∈ free_list (memory_pages (machine s')) ↔ k ∈ free_list (memory_pages (machine s))
        | inr _ => v = Z.of_nat i ∧ describes s' v (kva j1) ∧ open_files s' = <[kva j1 := f]> (open_files s) ∧
            kernel (machine s') = with_descriptor c v (kva j2) (kernel (machine s)) ∧ memory_pages (machine s') = <[j2 := 1]> (<[j1 := 1]> (memory_pages (machine s)))
        end
  end.
Proof. apply open_file_run. Qed.

Lemma close_file_run s c fd j f v r f' v' :
  heap (kernel (machine s)) !! cur (kernel (machine s)) = Some c → length (files c) = Z.to_nat MAX_FILES_PER_PROCESS →
  0 ≤ fd < MAX_FILES_PER_PROCESS → page_index j → page_used (memory_pages (machine s)) j ≠ 0 →
  file_at s fd (kva j) f v → fat_file_close (f, v) = Done (r, (f', v')) →
  ∃ s', match r with
  | inl e => syscall_close_file fd s = Done (e, s') ∧ file_at s' fd (kva j) f' v' ∧ machine s' = machine s
  | inr _ => syscall_close_file fd s = Done (0, s') ∧ s_disk (fsys s') = disk v' ∧ open_files s' !! kva j = None ∧
      length (free_list (memory_pages (machine s'))) = length (free_list (memory_pages (machine s))) ∧
      (∃ c', heap (kernel (machine s')) !! cur (kernel (machine s')) = Some c' ∧ first_free c' = first_free c) ∧
      ∀ len, syscall_read_file fd len s' = Fault NullPointer
  end.
Proof.
  intros Hc Hl Hfd Hj Hu Hat Hclose. pose proof (fa_desc _ _ _ _ _ Hat) as (c0 & p & res & Hc0 & Hp & Hres & Hh).
  rewrite Hc in Hc0. injection Hc0 as <-.
  destruct (on_file_run s fd (kva j) f v _ _ _ _ Hat Hclose (keeps_close (f, v) _ _ Hclose)) as (s1 & R1 & Hat1 & Em1 & Er1).
  assert (syscall_close_file fd s = match r with
    | inl e => Done (e, s1)
    | inr _ => (drop_page (kva j);; install fd 0 None;; mret 0) s1 end) as E.
  { unfold syscall_close_file. rewrite (proj2 (Z.ltb_ge fd 0)), (proj2 (Z.leb_gt _ fd)) by lia. cbn [orb].
    rewrite (bind_done _ _ _ _ _ (current_descriptor_run s fd c _ Hc Hp)). cbn [require].
    rewrite bind_ret, (bind_done _ _ _ _ _ (resource_run p res s Hres)), Hh. cbn [require].
    rewrite bind_ret, (bind_done _ _ _ _ _ R1). by destruct r. }
  rewrite E. destruct r as [e|[]]; [by exists s1|].
  destruct (drop_page_run s1 j Hj) as (t & E2 & Hk & Hin). rewrite Em1 in Hk, Hin.
  set (s2 := mk_OS t (fsys s1) (resources s1) (delete (kva j) (open_files s1)) (delete (kva j) (open_dirs s1))) in E2.
  assert (free_list (memory_pages t) ≡ₚ j :: free_list (memory_pages (machine s))) as Hperm.
  { apply NoDup_Permutation; [apply NoDup_free_list|constructor; [|apply NoDup_free_list]|].
    - intros Hin'. apply elem_of_free_list in Hin' as [_ Hz]. by apply Hu.
    - intros k. by rewrite Hin, elem_of_cons. }
  destruct (free_list (memory_pages t)) as [|j' l] eqn:Ef; [by apply Permutation_nil_cons in Hperm|].
  rewrite (bind_done _ _ _ _ _ E2). rewrite <- Hk in Hc.
  pose proof (install_run s2 c fd 0 None j' l Ef Hc ltac:(unfold MAX_FILES_PER_PROCESS in *; lia)) as E3.
  rewrite (bind_done _ _ _ _ _ E3). eexists. split; [reflexivity|]. cbn [machine open_files s2].
  split; [destruct (fa_vol _ _ _ _ _ Hat1) as (vp & next & _ & _ & Hv); exact (f_equal disk Hv)|].
  split; [by rewrite lookup_delete_eq|].
  split.
  { transitivity (length (free_list (<[j' := 1]> (memory_pages t)))); [reflexivity|].
    rewrite (free_list_take _ _ _ Ef). apply Permutation_length in Hperm. simpl in Hperm. lia. }
  pose proof (lookup_insert_eq (heap (kernel t)) (cur (kernel t)) (with_files (<[Z.to_nat fd := Some (kva j')]> (files c)) c)) as Hc'.
  split; [exists (with_files (<[Z.to_nat fd := Some (kva j')]> (files c)) c); split; [exact Hc'|by apply (first_free_taken c fd p)]|].
  intros len. unfold syscall_read_file. erewrite bind_done; [|eapply (current_descriptor_run _ fd _ (Some (kva j'))); [exact Hc'|]].
  - cbn [require]. rewrite bind_ret. erewrite bind_done; [|apply resource_run; cbn [resources]; by rewrite lookup_insert_eq].
    reflexivity.
  - apply array_get_insert_eq. rewrite Hl, Z2Nat.id by done. exact Hfd.
Qed.
(** C40: syscall_close_file on a descriptor of an open file.  An error of the library
    is returned, the descriptor still is the same file and no page changes hands.
    On success the call returns 0, the disk is as the
    library left it and the File is gone; but the process keeps the
    descriptor: a new page without an object takes its place, so as many pages are
    free as before, the next open finds the same descriptors free as before, and
    reading this one follows a null pointer. *)
Theorem close_file_spec s c fd j f v r f' v' :
  heap (kernel (machine s)) !! cur (kernel (machine s)) = Some c → length (files c) = Z.to_nat MAX_FILES_PER_PROCESS →
  0 ≤ fd < MAX_FILES_PER_PROCESS → page_index j → page_used (memory_pages (machine s)) j ≠ 0 →
  file_at s fd (kva j) f v → fat_file_close (f, v) = Done (r, (f', v')) →
  ∃ s', match r with
  | inl e => syscall_close_file fd s = Done (e, s') ∧ file_at s' fd (kva j) f' v' ∧ machine s' = machine s
  | inr _ => syscall_close_file fd s = Done (0, s') ∧ s_disk (fsys s') = disk v' ∧ open_files s' !! kva j = None ∧
      length (free_list (memory_pages (machine s'))) = length (free_list (memory_pages (machine s))) ∧
      (∃ c', heap (kernel (machine s')) !! cur (kernel (machine s')) = Some c' ∧ first_free c' = first_free c) ∧
      ∀ len, syscall_read_file fd len s' = Fault NullPointer
  end.
Proof. apply close_file_run. Qed.
End opening.

(** ** Reading the SD card *)

(** C4: from the system call down to the registers of the controller.  On a card and
    a controller that answer, syscall_read_file on a descriptor of a file of the
    mounted volume returns FAT_ERR_NONE and the first bytes of the file, as many as
    are asked for and the size allows, taken from the clusters of the file as they
    are on the card, whatever the descriptor has been used for before; the file is
    then positioned after them, and the processes, the pages and the descriptors are
    as before. *)
Theorem card_read_spec {B} `{!Bus B, !Timer B, !SdHost B} (spin : nat) (Hspin : (patience stall_max ≤ spin)%nat)
    (s : OS (Sd B)) fd h f v a l len :
  let o := disk_operations spin in
  let dev := sd_device spin Hspin in
  file_at s fd h f v → file_data o f v a l → has (f_flags f) FAT_READ = true → 0 ≤ len < 2 ^ 31 →
  readable (f_size f) 0 len < room (a_layout a) l →
  ∃ s' f' v', syscall_read_file fd len s = Done (FAT_ERR_NONE, contents a l 0 (Z.to_nat (readable (f_size f) 0 len)), s') ∧
    file_at s' fd h f' v' ∧ file_data o f' v' a l ∧ f_size f' = f_size f ∧ f_offset f' = readable (f_size f) 0 len ∧
    machine s' = machine s ∧ resources s' = resources s.
Proof. intros o dev. by apply read_file_run. Qed.

(** ** A kernel with a card *)

(** A card with the file [HI.TXT] in the root directory: its entry in sector 8, its
    text in sector 12. *)
Definition hi_name : list Z := [72; 73; 46; 84; 88; 84].
Definition hi_text : list Z := [72; 105; 33] ++ replicate 509 0.
Definition hi_entry : list Z := [72; 73; 32; 32; 32; 32; 32; 32; 84; 88; 84; 32] ++ replicate 14 0 ++ [3; 0; 3; 0; 0; 0].
Definition hi_disk : list (Z * list Z) :=
  (8, hi_entry ++ replicate 480 0) :: (12, hi_text) :: table_sectors [0x0ffffff8; 0x0fffffff; 0x0fffffff; 0x0fffffff].
Definition hi_card : Sd Emmc := mk_Sd [SCR_SUPP_CCS; 0] 0 0 1 (mk_Emmc (Idle 0 0) 0 hi_disk) [].

Definition card_fat (spin : nat) : Fat (Sd Emmc) :=
  mk_Fat (disk_operations spin) 3 12 1 (2, 4) 8 2 3 8 0 zero_sector 0 2 3 ([109; 110; 116] ++ replicate 29 0).
Definition card_sys (spin : nat) : FatSys (Sd Emmc) := mk_FatSys (Some 1) {[1 := (None, card_fat spin)]} hi_card zero_sector 0 0.
Definition card_kernel (spin : nat) : OS (Sd Emmc) := mk_OS (machine_with (demo_run FCFS) ∅ ∅) (card_sys spin) ∅ ∅ ∅.

Lemma all_free : ∃ l, free_list ∅ = 0 :: 1 :: l.
Proof. rewrite free_list_filter. eexists. by rewrite MmSpec.first_free, decide_True, MmSpec.first_free, decide_True by done. Qed.

Lemma card_running : ∃ c, heap (demo_run FCFS) !! cur (demo_run FCFS) = Some c ∧ files c = no_files.
Proof. vm_compute. by eexists. Qed.

(** The directory is read from the card to find the entry. *)
Lemma hi_opens : ∃ f t, Filesystem.open_file hi_name FAT_READ (blank_file, card_sys 3000) = Done (inr tt, (f, t)).
Proof.
  assert (match Filesystem.open_file hi_name FAT_READ (blank_file, card_sys 3000) with Done (inr _, _) => true | _ => false end = true)
    as Ho by (vm_compute; reflexivity).
  destruct (Filesystem.open_file hi_name FAT_READ (blank_file, card_sys 3000)) as [[[?|[]] [f t]]|?]; [discriminate|by exists f, t|discriminate].
Qed.

Lemma open_file_spec_witness :
  ∃ s', syscall_open_file hi_name FAT_READ (card_kernel 3000) = Done (0, s') ∧ describes s' 0 (kva 0).
Proof.
  destruct card_running as (c & Hc & Hf). destruct all_free as [l Hl].
  assert (first_free c = Some 0%nat) as Hfirst by (unfold first_free; by rewrite Hf).
  destruct hi_opens as (f & t & E).
  pose proof (open_file_spec (card_kernel 3000) c hi_name FAT_READ Hc ltac:(by rewrite Hf)) as H.
  rewrite Hfirst in H. destruct (H 0 1 l (inr tt) f t Hl E) as (v & s' & Es & _ & -> & Hd & _).
  exists s'. split; [exact Es|exact Hd].
Defined.

#[local] Opaque demo_run.

(** Descriptor 0 is the file, its object on page 0 and its resource on page 1. *)
Definition hi_file : File := mk_File (Some 1) 8 3 3 12 3 0 0 32 FAT_READ hi_text.
Definition hi_os (spin : nat) (c : PCB) : OS (Sd Emmc) :=
  mk_OS (with_kernel (with_descriptor c 0 (kva 1) (demo_run FCFS)) (machine_with (demo_run FCFS) (<[1 := 1]> (<[0 := 1]> ∅)) ∅))
    (card_sys spin) (<[kva 1 := mk_FatResource RESOURCE_TYPE_FILE (Some (kva 0))]> ∅) {[kva 0 := hi_file]} ∅.
Definition hi_volume (spin : nat) : Vol (Sd Emmc) := mk_Vol (card_fat spin) hi_card zero_sector 0 0.
Definition hi_image (spin : nat) : AVol := mk_AVol (layout (card_fat spin)) 3 8 false (ram_sector hi_disk).

Lemma hi_file_at spin c : length (files c) = Z.to_nat MAX_FILES_PER_PROCESS → file_at (hi_os spin c) 0 (kva 0) hi_file (hi_volume spin).
Proof.
  intros Hl. split; [|exact (lookup_singleton_eq _ _)|].
  - unfold hi_os. refine (describes_installed c 0 (kva 1) RESOURCE_TYPE_FILE (kva 0) (demo_run FCFS) _ _ _ _ _ _).
    rewrite Hl. split; [apply Z.le_refl|reflexivity].
  - exists 1, None. split; [reflexivity|]. split; [exact (lookup_singleton_eq _ _)|reflexivity].
Qed.

Lemma hi_current spin c :
  heap (kernel (machine (hi_os spin c))) !! cur (kernel (machine (hi_os spin c))) = Some (with_files (<[0%nat := Some (kva 1)]> (files c)) c).
Proof.
  exact (with_descriptor_current c 0 (kva 1) (demo_run FCFS)).
Qed.

Lemma hi_close_returns :
  ∃ f t, fat_file_close (hi_file, hi_volume 3000) = Done (inr tt, (f, t)).
Proof.
  assert (match fat_file_close (hi_file, hi_volume 3000) with Done (inr _, _) => true | _ => false end = true)
    as Ho by (vm_compute; reflexivity).
  destruct (fat_file_close (hi_file, hi_volume 3000)) as [[[?|[]] [f t]]|?]; [discriminate|by exists f, t|discriminate].
Qed.

Lemma close_file_spec_witness :
  ∃ c s', syscall_close_file 0 (hi_os 3000 c) = Done (0, s') ∧ ∀ len, syscall_read_file 0 len s' = Fault NullPointer.
Proof.
  destruct card_running as (c & _ & Hf).
  assert (length (files c) = Z.to_nat MAX_FILES_PER_PROCESS) as Hl by (by rewrite Hf).
  assert (length (<[0%nat := Some (kva 1)]> (files c)) = Z.to_nat MAX_FILES_PER_PROCESS) as Hl' by (by rewrite Hf).
  assert (0 ≤ 0 < MAX_FILES_PER_PROCESS) as Hfd by done.
  assert (page_index 0) as Hj by (unfold page_index; rewrite N_PAGES_value; lia).
  assert (page_used (memory_pages (machine (hi_os 3000 c))) 0 ≠ 0) as Hu
    by (change (page_used (<[1 := 1]> (<[0 := 1]> ∅)) 0 ≠ 0); by rewrite !page_used_insert).
  destruct hi_close_returns as (f & t & E).
  destruct (close_file_spec (hi_os 3000 c) (with_files (<[0%nat := Some (kva 1)]> (files c)) c) 0 0 hi_file (hi_volume 3000) (inr tt) f t
    (hi_current 3000 c) Hl' Hfd Hj Hu (hi_file_at 3000 c Hl) E) as (s' & Es & _ & _ & _ & _ & Hr).
  exists c, s'. split; [exact Es|exact Hr].
Defined.

Lemma hi_chain spin : chain (a_layout (hi_image spin)) (a_img (hi_image spin)) 3 [3].
Proof.
  assert (entry 2 (ram_sector hi_disk) 3 = 0x0fffffff) as E by (vm_compute; reflexivity).
  apply chain_last; cbn -[entry ram_sector]; rewrite ?E; lia.
Qed.

Lemma hi_represents spin Hspin : @represents _ (disk_operations spin) (sd_device spin Hspin) (hi_volume spin) (hi_image spin).
Proof.
  split; [|done..|].
  - split; [done| |apply zero_sector_wf|done|done]. split; [by exists SCR_SUPP_CCS, 0|]. by exists 0, 0.
  - intros t Ht. unfold view. cbn -[ram_sector]. by rewrite (proj2 (Z.eqb_neq t 0)) by lia.
Qed.

Lemma hi_data spin Hspin : @file_data _ (disk_operations spin) (sd_device spin Hspin) hi_file (hi_volume spin) (hi_image spin) [3].
Proof.
  assert (table_len (a_layout (hi_image spin)) = 1) as E by reflexivity.
  split; [apply hi_represents|split; rewrite ?E; cbn; lia|split; cbn; lia|done| |cbn; lia].
  apply mk_positioned; [done|exact (hi_chain spin)| |vm_compute; done|vm_compute; reflexivity..].
  intros c Hc%list_elem_of_singleton. lia.
Qed.

Lemma emmc_patience : (patience (stall_max (B := Emmc)) ≤ patience 0)%nat.
Proof. change (stall_max (B := Emmc)) with 0%nat. apply Nat.le_refl. Qed.

(** Asked for 100 bytes, the read stops at the end of the file. *)
Lemma card_read_spec_witness :
  ∃ c s', syscall_read_file 0 100 (hi_os (patience 0) c) = Done (FAT_ERR_NONE, [72; 105; 33], s').
Proof.
  destruct card_running as (c & _ & Hf).
  assert (length (files c) = Z.to_nat MAX_FILES_PER_PROCESS) as Hl by (by rewrite Hf).
  assert (0 ≤ 100 < 2 ^ 31) as Hlen by lia.
  assert (readable (f_size hi_file) 0 100 < room (a_layout (hi_image (patience 0))) [3]) as Hroom by reflexivity.
  destruct (card_read_spec (B := Emmc) (patience 0) emmc_patience (hi_os (patience 0) c) 0 (kva 0) hi_file (hi_volume (patience 0))
    (hi_image (patience 0)) [3] 100 (hi_file_at (patience 0) c Hl) (hi_data (patience 0) emmc_patience) eq_refl Hlen Hroom)
    as (s' & f' & v' & Es & _).
  exists c, s'. rewrite Es. reflexivity.
Defined.
