(* ===== verification/CardWrite.v ===== *)
(** * Writing files through descriptors, down to the SD card

    The write of FatWrite.v behind the system calls, and the same on the driver of
    the card. *)
From stdpp Require Import base gmap list.
From Stdlib Require Import ZArith Lia.
From S2P Require Import Prelude Mem Kernel Scheduler Machine Boot Mm MmSpec Fork ForkSpec FatFormat FatVolume FatDir FatFile FatBytes FatVolumeSpec FatChain FatFileProps FatWrite Sd SdSpec SdHost Filesystem Syscalls SyscallsSpec SyscallsProps.

#[local] Open Scope Z_scope.
#[local] Opaque memzero memcpy store_le load_le free_list N_PAGES page_used byte_at put_byte.

Section writing.
Context {D : Type} (o : DiskOps D) `{!BlockDevice o}.

Lemma keeps_write_loop n src len bytes : keeps (write_loop (D := D) n src len bytes).
Proof. pose proof (keeps_seek (D := D)). revert src len bytes. induction n; intros src len bytes; cbn [write_loop]; keeps_auto. Qed.
Lemma keeps_write src len : keeps (fat_file_write (D := D) src len).
Proof.
  pose proof keeps_write_loop. unfold fat_file_write. apply keeps_bind; [apply keeps_get|]. intros f. destruct (f_fat f); [|apply keeps_ret].
  destruct (_ =? 0); [apply keeps_ret|]. apply keeps_bind; [apply keeps_upd; by intros []|]. intros _. apply keeps_bind; [auto|]. intros b.
  apply keeps_bind; [|intros _; apply keeps_ret]. apply keeps_upd. intros f1. by destruct (_ <? _).
Qed.

(** What the data of the file system satisfies for a file open for writing: it shows
    the image [w], and its directory entry is not in one of its own sectors. *)
Record write_data (g : Layout) (l : list Z) (w : image) (f : File) (v : Vol D) : Prop := mk_write_data {
  wd_laid : well_laid o g;
  wd_data : data_laid o g;
  wd_tables : tables_first g;
  wd_two : ∀ c, c ∈ l → 2 ≤ c;
  wd_open : FatWrite.opened o g l w f v;
  wd_entry : entry_apart o g l f;
  wd_size : 0 ≤ f_size f < 2 ^ 32
}.

(** The bytes of the file after a write of [src] at [off]. *)
Definition patched (g : Layout) (l : list Z) (w : image) (off : Z) (src : list Z) (i : Z) : Z :=
  if decide (off ≤ i < off + Z.of_nat (length src)) then default 0 (src !! Z.to_nat (i - off)) else byte_of g w l i.

Lemma write_close_run (s : OS D) c fd j g l w f v src len :
  heap (kernel (machine s)) !! cur (kernel (machine s)) = Some c → length (files c) = Z.to_nat MAX_FILES_PER_PROCESS →
  0 ≤ fd < MAX_FILES_PER_PROCESS → page_index j → page_used (memory_pages (machine s)) j ≠ 0 →
  file_at s fd (kva j) f v → write_data g l w f v → has (f_flags f) FAT_WRITE = true → bytes src → len = Z.of_nat (length src) → len < 2 ^ 31 →
  f_offset f + len < room g l → f_offset f + len < 2 ^ 32 →
  ∃ s1 s2, syscall_write_file fd src len s = Done ((FAT_ERR_NONE, Some len), s1) ∧ machine s1 = machine s ∧ resources s1 = resources s ∧
    syscall_close_file fd s1 = Done (0, s2) ∧
    (∀ i, 0 ≤ i < room g l → get8 (sector (s_disk (fsys s2)) (sector_of g l i)) (i mod 512) = patched g l w (f_offset f) src i) ∧
    get32 (sector (s_disk (fsys s2)) (f_dir_sect f)) (f_dir_idx f + SFN_FILE_SIZE) = Z.max (f_size f) (f_offset f + len).
Proof.
  intros Hc Hl Hfd Hj Hu Hat [Hg Hd Ht H2 Ho (Hds & Hdi & Hne) Hsz] Hwr Hsrc -> Hlen Hroom H32.
  pose proof (fa_desc _ _ _ _ _ Hat) as (c0 & p & r & Hc0 & Hp & Hres & Hh). rewrite Hc in Hc0. injection Hc0 as <-.
  destruct (file_write_ok o g l Hg Hd Ht H2 w f v src (Z.of_nat (length src)) Ho Hwr Hsrc ltac:(lia) ltac:(lia) Hroom H32)
    as (r1 & [f1 v1] & E1 & x1 & -> & -> & Hm & w1 & Ho1 & [Hw1 _] & _ & Es1 & _ & Ed1 & Ei1). cbn [fst snd] in *.
  destruct (on_file_run s fd (kva j) f v _ _ _ _ Hat E1 (keeps_write src _ (f, v) _ _ E1)) as (s1 & R1 & Hat1 & Em1 & Er1).
  pose proof (op_off _ _ _ _ _ _ Ho) as Hoff.
  destruct (file_close_ok o g l Hg Hd Ht H2 w1 f1 v1 Ho1) as (r2 & [f2 v2] & E2 & [] & -> & Hdisk); [unfold entry_apart; by rewrite Ed1, Ei1|lia|exact Hm|].
  cbn [fst snd] in *. rewrite <- Em1 in Hc, Hu.
  destruct (close_file_run s1 c fd j f1 v1 (inr tt) f2 v2 Hc Hl Hfd Hj Hu Hat1 E2) as (s2 & R2 & Ed & _).
  exists s1, s2. split.
  { unfold syscall_write_file. rewrite Em1 in Hc. rewrite (bind_done _ _ _ _ _ (current_descriptor_run s fd c _ Hc Hp)).
    rewrite (bind_done _ _ _ _ _ (resource_run p r s Hres)), Hh. cbn [require]. by rewrite bind_ret, (bind_done _ _ _ _ _ R1). }
  split; [exact Em1|]. split; [exact Er1|]. split; [exact R2|]. rewrite Ed. destruct Hdisk as [Hb He]. unfold entry_updated in He.
  rewrite Ed1, Ei1, Es1 in He. split; [|exact He].
  intros i Hi. rewrite Hb, Hw1 by exact Hi. unfold patched. by rewrite Nat2Z.id, take_ge by lia.
Qed.
End writing.

(** C6: a write through a descriptor reaches the card.  On a card and a controller that
    answer, syscall_write_file on a descriptor of a file that is open for writing
    returns FAT_ERR_NONE and the number of bytes asked for, and changes no process,
    no page and no descriptor; syscall_close_file then returns 0, and the sectors of
    the file on the card hold the bytes written, at the place the file was, and the
    bytes of the file everywhere else, with the new size in its directory entry. *)
Theorem card_write_spec {B} `{!Bus B, !Timer B, !SdHost B} (spin : nat) (Hspin : (patience stall_max ≤ spin)%nat)
    (s : OS (Sd B)) c fd j g l w f v src len :
  let o := disk_operations spin in
  let dev := sd_device spin Hspin in
  heap (kernel (machine s)) !! cur (kernel (machine s)) = Some c → length (files c) = Z.to_nat MAX_FILES_PER_PROCESS →
  0 ≤ fd < MAX_FILES_PER_PROCESS → page_index j → page_used (memory_pages (machine s)) j ≠ 0 →
  file_at s fd (kva j) f v → write_data o g l w f v → has (f_flags f) FAT_WRITE = true → bytes src → len = Z.of_nat (length src) → len < 2 ^ 31 →
  f_offset f + len < room g l → f_offset f + len < 2 ^ 32 →
  ∃ s1 s2, syscall_write_file fd src len s = Done ((FAT_ERR_NONE, Some len), s1) ∧ machine s1 = machine s ∧ resources s1 = resources s ∧
    syscall_close_file fd s1 = Done (0, s2) ∧
    let contents := card (board (s_disk (fsys s2))) in
    (∀ i, 0 ≤ i < room g l → get8 (contents (sector_of g l i)) (i mod 512) = patched g l w (f_offset f) src i) ∧
    get32 (contents (f_dir_sect f)) (f_dir_idx f + SFN_FILE_SIZE) = Z.max (f_size f) (f_offset f + len).
Proof. intros o dev. exact (write_close_run o s c fd j g l w f v src len). Qed.

(** ** The kernel with a card of SyscallsProps.v, its file open for writing too *)
#[local] Opaque demo_run.

Definition note_file : File := with_f_flags (Z.lor FAT_READ FAT_WRITE) hi_file.
Definition note_os (spin : nat) (c : PCB) : OS (Sd Emmc) :=
  mk_OS (machine (hi_os spin c)) (fsys (hi_os spin c)) (resources (hi_os spin c)) {[kva 0 := note_file]} ∅.

Lemma note_file_at spin c : length (files c) = Z.to_nat MAX_FILES_PER_PROCESS → file_at (note_os spin c) 0 (kva 0) note_file (hi_volume spin).
Proof.
  intros Hl. destruct (hi_file_at spin c Hl) as [Hd _ (vp & next & E & Hv)]. split; [exact Hd|exact (lookup_singleton_eq _ _)|].
  exists vp, next. split; [exact E|exact Hv].
Qed.

Lemma note_data spin Hspin : @write_data _ (disk_operations spin) (sd_device spin Hspin) (a_layout (hi_image spin)) [3] (ram_sector hi_disk) note_file (hi_volume spin).
Proof.
  destruct (hi_data spin Hspin) as [Hr Hg Hd _ [Hfat Hch H2 Hoff Hcl Hse Hbuf _] Hsz].
  assert (room (a_layout (hi_image spin)) [3] = 2048) as Hroom by reflexivity.
  assert (∀ i, 0 ≤ i < 2048 → 12 ≤ sector_of (a_layout (hi_image spin)) [3] i) as Hsec.
  { intros i Hi. rewrite <- Hroom in Hi. pose proof (sector_of_data (disk_operations spin) _ _ Hd H2 _ _ i Hch Hi) as Hlo.
    destruct (cluster_index (disk_operations spin) _ _ i Hd Hi) as [c Hc]. unfold sector_of in *. rewrite Hc in *.
    apply list_elem_of_lookup_2, list_elem_of_singleton in Hc as ->. cbn [from_option id].
    pose proof (Z.mod_pos_bound (i / 512) (2 ^ l_shift (a_layout (hi_image spin))) ltac:(done)) as Hm.
    change (l_data (a_layout (hi_image spin))) with 8 in *. change (l_shift (a_layout (hi_image spin))) with 2 in *. clear Hlo. change (2 ^ 2) with 4 in *. lia. }
  split; [exact Hg|exact Hd|vm_compute; split; [|split]; congruence|exact H2| |split; [cbn; lia|split; [cbn; lia|]]|exact Hsz].
  - split; [done|exact Hch|exact Hoff|exact Hcl|exact Hse|vm_compute; by repeat constructor| |].
    + intros i Hi. rewrite Hroom in Hi. specialize (Hsec i Hi). change (0 ≠ sector_of (a_layout (hi_image spin)) [3] i). lia.
    + exists (hi_image spin). split; [done|]. split; [exact Hr|]. split; [|by intros _].
      intros t _. unfold set_sector. destruct (Z.eqb_spec t (f_sect note_file)) as [->|]; [by vm_compute|done].
  - intros i Hi. rewrite Hroom in Hi. specialize (Hsec i Hi). cbn [note_file hi_file f_dir_sect with_f_flags]. lia.
Qed.

Lemma note_current spin c :
  heap (kernel (machine (note_os spin c))) !! cur (kernel (machine (note_os spin c))) = Some (with_files (<[0%nat := Some (kva 1)]> (files c)) c).
Proof. exact (hi_current spin c). Qed.

Lemma note_place spin i : 0 ≤ i < 3 → sector_of (a_layout (hi_image spin)) [3] i = 12 ∧ i mod 512 = i ∧ 0 ≤ i < room (a_layout (hi_image spin)) [3].
Proof.
  intros Hi. assert (i = 0 ∨ i = 1 ∨ i = 2) as [->|[->| ->]] by lia; (split; [vm_compute; reflexivity|split; [reflexivity|split; [done|reflexivity]]]).
Qed.

(** "Ho" over the start of "Hi!": what the card has after the close. *)
Lemma card_write_spec_witness :
  ∃ c s1 s2, syscall_write_file 0 [72; 111] 2 (note_os (patience 0) c) = Done ((FAT_ERR_NONE, Some 2), s1) ∧
    syscall_close_file 0 s1 = Done (0, s2) ∧
    (λ i, get8 (card (board (s_disk (fsys s2))) 12) i) <$> [0; 1; 2] = [72; 111; 33] ∧
    get32 (card (board (s_disk (fsys s2))) 8) 28 = 3.
Proof.
  destruct card_running as (c & _ & Hf).
  assert (length (files c) = Z.to_nat MAX_FILES_PER_PROCESS) as Hl by (by rewrite Hf).
  assert (length (<[0%nat := Some (kva 1)]> (files c)) = Z.to_nat MAX_FILES_PER_PROCESS) as Hl' by (by rewrite Hf).
  assert (0 ≤ 0 < MAX_FILES_PER_PROCESS) as Hfd by done.
  assert (page_index 0) as Hj by (unfold page_index; rewrite N_PAGES_value; lia).
  assert (page_used (memory_pages (machine (note_os (patience 0) c))) 0 ≠ 0) as Hu
    by (change (page_used (<[1 := 1]> (<[0 := 1]> ∅)) 0 ≠ 0); by rewrite !page_used_insert).
  assert (bytes [72; 111]) as Hb by (repeat constructor; lia).
  assert (f_offset note_file + 2 < room (a_layout (hi_image (patience 0))) [3]) as Hr by reflexivity.
  destruct (card_write_spec (B := Emmc) (patience 0) emmc_patience (note_os (patience 0) c) _ 0 0 _ [3] _ note_file (hi_volume (patience 0))
    [72; 111] 2 (note_current (patience 0) c) Hl' Hfd Hj Hu (note_file_at (patience 0) c Hl) (note_data (patience 0) emmc_patience)
    eq_refl Hb eq_refl eq_refl Hr eq_refl) as (s1 & s2 & E1 & _ & _ & E2 & Hc & Hs).
  exists c, s1, s2. split; [exact E1|]. split; [exact E2|]. split; [|exact Hs].
  set (g := a_layout (hi_image (patience 0))) in *. set (now := card (board (s_disk (fsys s2)))) in *.
  change (f_offset note_file) with 0 in Hc.
  assert (∀ i x, 0 ≤ i < 3 → patched g [3] (ram_sector hi_disk) 0 [72; 111] i = x → get8 (now 12) i = x) as Hat.
  { intros i x Hi <-. destruct (note_place (patience 0) i Hi) as (E3 & E4 & Hi'). fold g in E3, Hi'. specialize (Hc i Hi'). rewrite E3, E4 in Hc. exact Hc. }
  assert (get8 (now 12) 0 = 72 ∧ get8 (now 12) 1 = 111 ∧ get8 (now 12) 2 = 33) as (A0 & A1 & A2)
    by (split; [|split]; (apply Hat; [split; [done|reflexivity]|vm_compute; reflexivity])).
  cbn [fmap list_fmap]. rewrite A0, A1, A2. reflexivity.
Defined.
