(* ===== verification/Kept.v ===== *)
(** * What the kernel's own code leaves alone

    Of all the fields of the PCBs, the descriptors and the list of user pages say
    which pages a process has.  The scheduler, signals, messages, the timer tick, the
    end of a process and its creation may only take away from them: no process gets a
    descriptor or a user page by any of it. *)
From stdpp Require Import base gmap list.
From Stdlib Require Import ZArith Lia.
From S2P Require Import Prelude Kernel Queue Scheduler SchedulerSpec Ipc Machine Uart Irq Mm Fork FatFormat FatVolume FatFile Syscalls.

#[local] Open Scope Z_scope.

(** ** Descriptors and user pages of the processes *)

(** Descriptor [fd] of the process [a] is the resource at [p]. *)
Definition has_descriptor (k : Kernel) (a : ptr) (fd : nat) (p : ptr) : Prop :=
  ∃ c, heap k !! a = Some c ∧ files c !! fd = Some (Some p).

(** Entry [i] of the user pages of [a] names a page; entries that are not in use are zero. *)
Definition has_page (k : Kernel) (a : ptr) (i : nat) (u : user_page) : Prop :=
  ∃ c, heap k !! a = Some c ∧ user_pages (mm c) !! i = Some u ∧ physical_address u ≠ 0.

Record shrinks (k k' : Kernel) : Prop := mk_shrinks {
  sh_descriptor : ∀ a fd p, has_descriptor k' a fd p → has_descriptor k a fd p;
  sh_page : ∀ a i u, has_page k' a i u → has_page k a i u
}.

#[export] Instance shrinks_preorder : PreOrder shrinks.
Proof. split; [by intros k; split|]. intros k1 k2 k3 [A1 B1] [A2 B2]. split; auto. Qed.

Lemma shrinks_heap k k' : heap k' = heap k → shrinks k k'.
Proof. intros E. split; unfold has_descriptor, has_page; by rewrite E. Qed.

(** A PCB that is changed, or new, in what matters here. *)
Definition fewer (c c' : PCB) : Prop :=
  (∀ fd p, files c' !! fd = Some (Some p) → files c !! fd = Some (Some p)) ∧
  (∀ i u, user_pages (mm c') !! i = Some u → physical_address u ≠ 0 → user_pages (mm c) !! i = Some u).

Definition bare (c : PCB) : Prop :=
  (∀ fd p, files c !! fd ≠ Some (Some p)) ∧ ∀ i u, user_pages (mm c) !! i = Some u → physical_address u = 0.

Lemma shrinks_insert k p c' :
  bare c' ∨ (∃ c, heap k !! p = Some c ∧ fewer c c') → shrinks k (with_heap (<[p := c']> (heap k)) k).
Proof.
  intros H. split.
  - intros a fd q (c1 & Hc1 & Hq). cbn in Hc1. destruct (decide (a = p)) as [->|Hne].
    2: { rewrite lookup_insert_ne in Hc1 by done. by exists c1. }
    rewrite lookup_insert_eq in Hc1. injection Hc1 as <-.
    destruct H as [[Hb _]|(c & Hc & Hf & _)]; [by edestruct Hb|]. exists c. auto.
  - intros a i u (c1 & Hc1 & Hu & H0). cbn in Hc1. destruct (decide (a = p)) as [->|Hne].
    2: { rewrite lookup_insert_ne in Hc1 by done. by exists c1. }
    rewrite lookup_insert_eq in Hc1. injection Hc1 as <-.
    destruct H as [[_ Hb]|(c & Hc & _ & Hf)]; [by destruct (H0 (Hb i u Hu))|]. exists c. auto.
Qed.

(** ** The basic operations *)
Abbreviation kept k0 m := (preserves (shrinks k0) m).

Lemma kept_step {A} k0 (m : M Kernel A) : (∀ k x k', m k = Done (x, k') → shrinks k k') → kept k0 m.
Proof. intros H k x k' H0 E. etrans; [exact H0|]. by eapply H. Qed.

Lemma kept_load k0 p : kept k0 (load p).
Proof. apply kept_step. intros k x k' E. unfold load in E. destruct (heap k !! p); [|done]. by injection E as _ <-. Qed.

Lemma kept_store_fewer k0 p f : (∀ c, fewer c (f c)) → kept k0 (store p f).
Proof.
  intros Hf. apply kept_step. intros k x k' E. unfold store in E. destruct (heap k !! p) as [c|] eqn:Ec; [|done].
  injection E as _ <-. apply shrinks_insert. right. exists c. auto.
Qed.

Lemma kept_store k0 p f : (∀ c, files (f c) = files c ∧ mm (f c) = mm c) → kept k0 (store p f).
Proof. intros Hf. apply kept_store_fewer. intros c. destruct (Hf c) as [E1 E2]. split; [by rewrite E1|by rewrite E2]. Qed.

Lemma kept_modify k0 f : (∀ k, heap (f k) = heap k) → kept k0 (modify f).
Proof. intros Hf. apply preserves_modify. intros k Hk. etrans; [exact Hk|]. by apply shrinks_heap. Qed.

Lemma kept_global k0 f : kept k0 (set_global f).
Proof. by apply kept_modify. Qed.

Lemma kept_set_queue k0 q v : kept k0 (set_queue q v).
Proof. apply kept_modify. by destruct q. Qed.

Create HintDb kept discriminated.
#[export] Hint Constants Opaque : kept.
#[export] Hint Resolve preserves_ret preserves_fail preserves_gets preserves_require kept_load kept_global kept_set_queue : kept.
#[export] Hint Extern 1 (preserves (shrinks _) (store _ _)) => (apply kept_store; intros ?; split; reflexivity) : kept.
#[export] Hint Extern 1 (preserves _ (get_global _)) => apply preserves_gets : kept.
#[export] Hint Extern 1 (preserves _ get_current) => apply preserves_gets : kept.
#[export] Hint Extern 1 (preserves _ (nonnull _)) => apply preserves_require : kept.

(** Through the binds, tests and cases of a computation. *)
Ltac kept_tac := repeat first
  [ solve [eauto with kept] | apply preserves_bind; [|intros ?] | apply preserves_for; intros ? | case_match ].

Lemma kept_get_queue k0 q : kept k0 (get_queue q).
Proof. unfold get_queue. kept_tac. Qed.
Lemma kept_get_level k0 i : kept k0 (get_queue_level i).
Proof. unfold get_queue_level. kept_tac. Qed.
Lemma kept_set_level k0 i v : kept k0 (set_queue_level i v).
Proof. unfold set_queue_level. kept_tac. Qed.
#[export] Hint Resolve kept_get_queue kept_get_level kept_set_level : kept.

(** ** The queues *)
Lemma kept_enqueue_to k0 q o : kept k0 (enqueue_process_to q o).
Proof. unfold enqueue_process_to. kept_tac. Qed.
Lemma kept_dequeue k0 q : kept k0 (dequeue_process_from q).
Proof. unfold dequeue_process_from. kept_tac. Qed.
Lemma kept_remove k0 q o p : kept k0 (remove_process_from q o p).
Proof. unfold remove_process_from. kept_tac. Qed.
Lemma kept_position k0 fuel p : ∀ c, kept k0 (sorted_position fuel p c).
Proof. induction fuel as [|fuel IH]; intros c; cbn [sorted_position]; [apply preserves_fail|]. kept_tac; apply IH. Qed.
#[export] Hint Resolve kept_enqueue_to kept_dequeue kept_remove kept_position : kept.

Lemma kept_sorted k0 q o : kept k0 (enqueue_sorted_to q o).
Proof. unfold enqueue_sorted_to. kept_tac. Qed.
#[export] Hint Resolve kept_sorted : kept.

Lemma kept_ref k0 l : kept k0 (ml_queue_ref l).
Proof. unfold ml_queue_ref. kept_tac. Qed.
#[export] Hint Resolve kept_ref : kept.

Lemma kept_policy k0 a p : kept k0 (algorithm_enqueue a p).
Proof. destruct a; cbn [algorithm_enqueue]; unfold _enqueue_fifo, _enqueue_sjf, _enqueue_multilevel; kept_tac. Qed.
#[export] Hint Resolve kept_policy : kept.

Lemma kept_enqueue k0 o : kept k0 (enqueue_process o).
Proof. unfold enqueue_process. kept_tac. Qed.
#[export] Hint Resolve kept_enqueue : kept.

(** ** The scheduler *)
Lemma kept_enable k0 : kept k0 preempt_enable.
Proof. unfold preempt_enable. kept_tac. Qed.
Lemma kept_disable k0 : kept k0 preempt_disable.
Proof. unfold preempt_disable. kept_tac. Qed.
#[export] Hint Resolve kept_enable kept_disable : kept.

Lemma kept_add k0 p : kept k0 (add_process_to_scheduler p).
Proof. unfold add_process_to_scheduler. kept_tac. Qed.
Lemma kept_set_param k0 o param v : kept k0 (sched_set_param o param v).
Proof. unfold sched_set_param. kept_tac. Qed.
Lemma kept_handle_signals k0 p : kept k0 (handle_process_signals p).
Proof. unfold handle_process_signals. kept_tac. Qed.
Lemma kept_switch k0 p : kept k0 (switch_to_process p).
Proof. unfold switch_to_process, cpu_switch_to_process, set_pgd. kept_tac. Qed.
#[export] Hint Resolve kept_add kept_set_param kept_handle_signals kept_switch : kept.

Lemma kept_runnable k0 m : kept k0 m → kept k0 (if_current_runnable m).
Proof. intros Hm. unfold if_current_runnable, current_is_runnable. kept_tac. Qed.
Lemma kept_dequeue_ready k0 q fuel : kept k0 (dequeue_ready fuel q).
Proof. induction fuel as [|fuel IH]; cbn [dequeue_ready]; [apply preserves_fail|]. kept_tac. Qed.
Lemma kept_recharged k0 n o : kept k0 (recharged_or_init n o).
Proof. unfold recharged_or_init. kept_tac. Qed.
Lemma kept_walk k0 fuel : ∀ s o1 o2, kept k0 (aging_walk fuel s o1 o2).
Proof. induction fuel as [|fuel IH]; intros s o1 [p|]; cbn [aging_walk]; kept_tac. Qed.
#[export] Hint Resolve kept_runnable kept_dequeue_ready kept_recharged kept_walk : kept.

Lemma kept_epoch k0 : kept k0 new_epoch.
Proof. unfold new_epoch. kept_tac. Qed.
#[export] Hint Resolve kept_epoch : kept.
Lemma kept_aging_select k0 fuel : kept k0 (aging_select fuel).
Proof. induction fuel as [|fuel IH]; cbn [aging_select]; kept_tac. Qed.
Lemma kept_timer k0 : kept k0 read_system_timer.
Proof. unfold read_system_timer. kept_tac. Qed.
#[export] Hint Resolve kept_aging_select kept_timer : kept.
Lemma kept_random k0 : kept k0 lottery_random.
Proof. unfold lottery_random. kept_tac. Qed.
Lemma kept_sum k0 fuel : ∀ o t, kept k0 (sum_tickets fuel o t).
Proof. induction fuel as [|fuel IH]; intros [p|] t; cbn [sum_tickets]; kept_tac. Qed.
Lemma kept_winner k0 fuel : ∀ w t o1 o2, kept k0 (find_winner fuel w t o1 o2).
Proof. induction fuel as [|fuel IH]; intros w t o1 [p|]; cbn [find_winner]; kept_tac. Qed.
#[export] Hint Resolve kept_random kept_sum kept_winner : kept.
Lemma kept_lottery k0 fuel : kept k0 (lottery_select fuel).
Proof. induction fuel as [|fuel IH]; cbn [lottery_select]; kept_tac. Qed.
Lemma kept_levels k0 n : ∀ q, kept k0 (scan_levels n q).
Proof. induction n as [|n IH]; intros q; cbn [scan_levels]; kept_tac. Qed.
Lemma kept_boost_queue k0 q fuel : kept k0 (boost_queue fuel q).
Proof. induction fuel as [|fuel IH]; cbn [boost_queue]; kept_tac. Qed.
Lemma kept_active k0 : kept k0 active_policy.
Proof. unfold active_policy. kept_tac. Qed.
#[export] Hint Resolve kept_lottery kept_levels kept_boost_queue kept_active : kept.

Lemma kept_pick k0 a : kept k0 (pick_next (descriptor a)).
Proof.
  destruct a; cbn [descriptor pick_next sched_round_robin sched_fcfs sched_sjf sched_lottery sched_priority_aging sched_mlq sched_mlfq];
    unfold _schedule_round_robin, _schedule_queue_head, _schedule_lottery, _schedule_priority_aging, _schedule_multilevel, _enqueue_multilevel;
    repeat first [ solve [eauto with kept] | apply preserves_bind; [|intros ?] | apply kept_runnable | case_match ].
Qed.
#[export] Hint Resolve kept_pick : kept.

Lemma kept_schedule k0 : kept k0 schedule.
Proof. unfold schedule, _schedule. kept_tac. Qed.
Lemma kept_multilevel_tick k0 : kept k0 _multilevel_on_tick.
Proof. unfold _multilevel_on_tick, boost. kept_tac. Qed.
#[export] Hint Resolve kept_schedule kept_multilevel_tick : kept.
Lemma kept_on_tick k0 a : kept k0 (default (mret tt) (on_tick (descriptor a))).
Proof. destruct a; cbn; eauto with kept. Qed.
#[export] Hint Resolve kept_on_tick : kept.

Lemma kept_tick k0 : kept k0 handle_timer_tick.
Proof. unfold handle_timer_tick, enable_irq, disable_irq, _schedule. kept_tac. Qed.
Lemma kept_exit k0 : kept k0 exit_process.
Proof. unfold exit_process. kept_tac. Qed.
Lemma kept_tail k0 : kept k0 schedule_tail.
Proof. apply kept_enable. Qed.
#[export] Hint Resolve kept_tick kept_exit kept_tail : kept.

(** ** Messages, signals and the other calls on processes *)
Lemma kept_search k0 n pid : ∀ i, kept k0 (search_loop n i pid).
Proof. induction n as [|n IH]; intros i; cbn [search_loop]; kept_tac. Qed.
Lemma kept_push k0 p m : kept k0 (push_message p m).
Proof. unfold push_message. kept_tac. Qed.
Lemma kept_pop k0 p m : kept k0 (pop_message p m).
Proof. unfold pop_message. kept_tac. Qed.
Lemma kept_wake k0 w i : kept k0 (wake_slot w i).
Proof. unfold wake_slot. kept_tac. Qed.
#[export] Hint Resolve kept_search kept_push kept_pop kept_wake : kept.

Lemma kept_send_turn k0 p q m : kept k0 (send_turn p q m).
Proof. unfold send_turn. kept_tac. Qed.
Lemma kept_receive_turn k0 p f o : kept k0 (receive_turn p f o).
Proof. unfold receive_turn. kept_tac. Qed.
#[export] Hint Resolve kept_send_turn kept_receive_turn : kept.

Lemma kept_yield k0 : kept k0 syscall_yield.
Proof. unfold syscall_yield. kept_tac. Qed.
Lemma kept_wait k0 pid : kept k0 (syscall_wait pid).
Proof. unfold syscall_wait, search_process. kept_tac. Qed.
Lemma kept_param k0 pid param v : kept k0 (syscall_set_sched_param pid param v).
Proof. unfold syscall_set_sched_param, search_process. kept_tac. Qed.
Lemma kept_send k0 pid f t : kept k0 (syscall_send_message pid f t).
Proof. unfold syscall_send_message, search_process, send_message, make_message. kept_tac. Qed.
Lemma kept_receive k0 f o : kept k0 (syscall_receive_message f o).
Proof. unfold syscall_receive_message. kept_tac. Qed.
Lemma kept_signal k0 pid n : kept k0 (syscall_send_signal pid n).
Proof. unfold syscall_send_signal, search_process, send_signal. kept_tac. Qed.
#[export] Hint Resolve kept_yield kept_wait kept_param kept_send kept_receive kept_signal : kept.

(** ** The PCB of a new process *)
Lemma bare_zero : bare zero_PCB.
Proof.
  split.
  - intros fd p. unfold zero_PCB. cbn [files]. unfold no_files. rewrite lookup_replicate. by intros [? _].
  - intros i u. unfold zero_PCB. cbn [mm]. unfold zero_mm. cbn [user_pages]. by intros [-> _]%lookup_replicate_1.
Qed.

Lemma kept_as_PCB k0 p : kept k0 (as_PCB p).
Proof. apply preserves_modify. intros k Hk. etrans; [exact Hk|]. apply shrinks_insert. left. apply bare_zero. Qed.

Lemma kept_clear_file k0 p i : kept k0 (set_file p i None).
Proof.
  apply kept_step. intros k x k' E. unfold set_file in E. apply bind_inv in E as (c & k1 & E1 & E).
  unfold load in E1. destruct (heap k !! p) as [c0|] eqn:Ec; [|done]. injection E1 as <- <-.
  apply bind_inv in E as (l & k2 & E2 & E). destruct (array_set (files c0) i None) as [l0|] eqn:El; [|done].
  injection E2 as <- <-. unfold store in E. rewrite Ec in E. injection E as _ <-.
  apply shrinks_insert. right. exists c0. split; [done|]. split; [|done]. cbn [files with_files].
  unfold array_set in El. repeat case_match; simplify_eq. intros fd q.
  destruct (decide (fd = Z.to_nat i)) as [->|]; [|by rewrite list_lookup_insert_ne].
  intros Hq. apply list_lookup_insert_Some in Hq as [(_ & ? & _)|(? & _)]; done.
Qed.

Lemma kept_context k0 p f : kept k0 (update_context p f).
Proof. unfold update_context. kept_tac. Qed.
#[export] Hint Resolve kept_as_PCB kept_clear_file kept_context : kept.
Lemma kept_init k0 r f p : kept k0 (init_PCB r f p).
Proof. unfold init_PCB. kept_tac. Qed.
#[export] Hint Resolve kept_init : kept.
