(* ===== verification/Ownership.v ===== *)
(** * Who has which page

    A page of the allocator belongs to a descriptor of a process, as its resource or as
    the object of it, or to the memory of a process.  Typed: those pages are in use, each
    has one owner, and what a descriptor names is there and of its kind.  The memory
    manager, fork, the change to user mode and the replacement of a program by exec
    keep that. *)
From stdpp Require Import base gmap list.
From Stdlib Require Import ZArith Lia.
From S2P Require Import Prelude Mem Kernel Scheduler SchedulerSpec Ipc Machine Uart Irq Mm MmSpec Fork FatFormat FatVolume FatFile Syscalls SyscallsSpec Kept.

#[local] Open Scope Z_scope.
#[local] Opaque memzero memcpy store_le load_le free_list N_PAGES page_used byte_at put_byte.

Definition used_page (t : Machine) (q : ptr) : Prop := ∃ j, q = kva j ∧ page_index j ∧ page_used (memory_pages t) j ≠ 0.

Lemma used_with_kernel k t q : used_page t q → used_page (with_kernel k t) q.
Proof. done. Qed.

(** What a page is to the process that has it. *)
Inductive part : Type := Resource | Object | Memory.
Definition in_memory (k : part) : bool := match k with Memory => true | _ => false end.

(** ** What takes no page away *)

(** No process has got a descriptor or a user page; pages may have been taken. *)
Record grows (t t' : Machine) : Prop := mk_grows {
  gr_kernel : shrinks (kernel t) (kernel t');
  gr_used : ∀ q, used_page t q → used_page t' q
}.

#[export] Instance grows_preorder : PreOrder grows.
Proof.
  split; [intros t; split; [reflexivity|done]|]. intros t1 t2 t3 [A1 B1] [A2 B2]. split; [by etrans|auto].
Qed.

Lemma grows_same t t' : kernel t' = kernel t → memory_pages t' = memory_pages t → grows t t'.
Proof. intros Hk Hm. split; [by apply shrinks_heap; rewrite Hk|]. unfold used_page. by rewrite Hm. Qed.

Abbreviation growing t0 m := (preserves (grows t0) m).

Lemma growing_step {A} t0 (m : M Machine A) : (∀ t x t', m t = Done (x, t') → grows t t') → growing t0 m.
Proof. intros H t x t' H0 E. etrans; [exact H0|]. by eapply H. Qed.

Lemma growing_kernel {A} t0 (m : M Kernel A) : (∀ k0, preserves (shrinks k0) m) → growing t0 (on_kernel m).
Proof.
  intros Hm. apply growing_step. intros t x t' E. unfold on_kernel in E. destruct (m (kernel t)) as [[y k]|] eqn:Em; [|done].
  injection E as _ <-. split; [|done]. eapply Hm; [|exact Em]. reflexivity.
Qed.

Lemma growing_modify t0 f : (∀ t, kernel (f t) = kernel t ∧ memory_pages (f t) = memory_pages t) → growing t0 (modify f).
Proof. intros Hf. apply preserves_modify. intros t Ht. etrans; [exact Ht|]. destruct (Hf t). by apply grows_same. Qed.

Lemma growing_outputs t0 m : outputs m → growing t0 m.
Proof. intros Ho. apply growing_step. intros t [] t' E. destruct (Ho t) as [l El]. rewrite El in E. injection E as <-. by apply grows_same. Qed.

#[export] Hint Extern 1 (preserves (grows _) (on_kernel _)) => apply growing_kernel : kept.
#[export] Hint Extern 1 (preserves (grows _) (uart_puts _)) => apply growing_outputs, outputs_puts : kept.
#[export] Hint Extern 1 (preserves (grows _) (uart_putc _)) => apply growing_outputs, outputs_putc : kept.
#[export] Hint Extern 1 (preserves (grows _) (uart_hex _)) => apply growing_outputs, outputs_hex : kept.
#[export] Hint Extern 1 (preserves (grows _) (set_ram _)) => (apply growing_modify; intros ?; split; reflexivity) : kept.
#[export] Hint Extern 1 (preserves (grows _) (set_uart _)) => (apply growing_modify; intros ?; split; reflexivity) : kept.
#[export] Hint Extern 1 (preserves (grows _) (set_device _)) => (apply growing_modify; intros ?; split; reflexivity) : kept.
#[export] Hint Extern 1 (preserves (grows _) (modify (with_abort_index _))) => (apply growing_modify; intros ?; split; reflexivity) : kept.
#[export] Hint Extern 1 (preserves (grows _) (write_entry _ _ _)) => (apply growing_modify; intros ?; split; reflexivity) : kept.
#[export] Hint Extern 1 (preserves _ get_ram) => apply preserves_gets : kept.
#[export] Hint Extern 1 (preserves _ (get_uart _)) => apply preserves_gets : kept.
#[export] Hint Extern 1 (preserves _ (read_entry _ _)) => apply preserves_gets : kept.

(** *** The allocator *)
Lemma used_take j t q : used_page t q → used_page (take_page j t) q.
Proof.
  intros (i & -> & Hi & Hu). exists i. split; [done|]. split; [done|].
  change (memory_pages (take_page j t)) with (<[j := 1]> (memory_pages t)). rewrite page_used_insert. by case_decide.
Qed.

Lemma grows_take j t : grows t (take_page j t).
Proof. split; [by apply shrinks_heap|]. intros q. apply used_take. Qed.

Lemma growing_free_page t0 : growing t0 get_free_page.
Proof.
  apply growing_step. intros t x t'. rewrite get_free_page_run. destruct (free_list (memory_pages t)) as [|j l].
  - intros E. by injection E as _ <-.
  - intros E. injection E as _ <-. apply grows_take.
Qed.
#[export] Hint Resolve growing_free_page : kept.

Lemma growing_kernel_page t0 : growing t0 allocate_kernel_page.
Proof. unfold allocate_kernel_page. kept_tac. Qed.
Lemma growing_load_mm t0 p : growing t0 (load_mm p).
Proof. unfold load_mm. kept_tac. Qed.
#[export] Hint Resolve growing_kernel_page growing_load_mm : kept.

(** Two fields of the memory descriptor other than the user pages are changed. *)
Lemma growing_store_mm t0 p f : 
  (∀ c, user_pages (f (mm c)) = user_pages (mm c)) →
  growing t0 (m ← load_mm p; store_mm p (f m)).
Proof.
  intros Hf. apply growing_step. intros t x t' E. unfold load_mm, store_mm, on_kernel in E.
  unfold mbind, M_bind in E. unfold load, store in E. destruct (heap (kernel t) !! p) as [c|] eqn:Ec; [|done].
  cbn [mret M_ret kernel with_kernel] in E. rewrite Ec in E. injection E as _ <-. split; [|done].
  apply shrinks_insert. right. exists c. split; [done|]. split; [done|]. cbn [mm with_mm]. intros i u. by rewrite Hf.
Qed.

Lemma growing_track_kernel t0 p page : growing t0 (track_kernel_page p page).
Proof.
  apply growing_step. intros t x t' E. unfold track_kernel_page in E.
  apply bind_inv in E as (m & t1 & E1 & E). apply bind_inv in E as (l & t2 & E2 & E).
  assert (t2 = t1) as -> by (destruct (array_set (kernel_pages m) (n_kernel_pages m) page); [by injection E2 as _ <-|done]).
  eapply (growing_store_mm t p (λ m, mk_mm_struct (pgd m) (n_user_pages m) (user_pages m) (s32 (n_kernel_pages m + 1)) l)); [done|reflexivity|].
  rewrite (bind_done _ _ _ _ _ E1). exact E.
Qed.

Lemma growing_new_pgd t0 p page : growing t0 (m ← load_mm p; store_mm p (with_pgd page m)).
Proof. by apply (growing_store_mm t0 p (with_pgd page)). Qed.
#[export] Hint Resolve growing_track_kernel : kept.

Lemma growing_map_table t0 a i v : growing t0 (map_table a i v).
Proof. unfold map_table. kept_tac. Qed.
#[export] Hint Resolve growing_map_table : kept.
Lemma growing_next_table t0 p a i v : growing t0 (next_table p a i v).
Proof. unfold next_table. kept_tac. Qed.
Lemma growing_map_entry t0 a v p : growing t0 (map_table_entry a v p).
Proof. unfold map_table_entry. kept_tac. Qed.
#[export] Hint Resolve growing_next_table growing_map_entry : kept.

(** *** Memory of a process, and the terminal *)
Lemma growing_address t0 a : growing t0 (cpu_address a).
Proof. apply growing_step. intros t x t' E. unfold cpu_address in E. repeat case_match; simplify_eq; reflexivity. Qed.
#[export] Hint Resolve growing_address : kept.
Lemma growing_read t0 a : growing t0 (read_byte a).
Proof. unfold read_byte. kept_tac. Qed.
Lemma growing_write t0 a v : growing t0 (write_byte a v).
Proof. unfold write_byte. kept_tac. Qed.
Lemma growing_write_int t0 a v : growing t0 (write_int a v).
Proof. unfold write_int. kept_tac. Qed.
#[export] Hint Resolve growing_read growing_write growing_write_int : kept.
Lemma growing_write_list t0 l : ∀ a, growing t0 (write_list a l).
Proof. induction l as [|v l IH]; intros a; cbn [write_list]; kept_tac. Qed.
Lemma growing_read_list t0 n : ∀ a, growing t0 (read_list n a).
Proof. induction n as [|n IH]; intros a; cbn [read_list]; kept_tac. Qed.
Lemma growing_read_string t0 a : growing t0 (read_string a).
Proof.
  unfold read_string. generalize (16 * Z.to_nat PAGE_SIZE + 1)%nat. intros n. revert a.
  induction n as [|n IH]; intros a; cbn [read_string_loop]; kept_tac.
Qed.
#[export] Hint Resolve growing_write_list growing_read_list growing_read_string : kept.
Lemma growing_write_string t0 a l : growing t0 (write_string a l).
Proof. apply growing_write_list. Qed.
#[export] Hint Resolve growing_write_string : kept.

Lemma growing_store t0 c : growing t0 (uart_store c).
Proof. unfold uart_store. kept_tac. Qed.
#[export] Hint Resolve growing_store : kept.
Lemma growing_receive t0 dr : growing t0 (uart_receive dr).
Proof. unfold uart_receive. repeat first [ solve [eauto with kept] | apply growing_kernel; intros ?; kept_tac | apply preserves_bind; [|intros ?] | case_match ]. Qed.
Lemma growing_echo t0 dr : growing t0 (uart_echo dr).
Proof. unfold uart_echo. kept_tac. Qed.
Lemma growing_rx t0 body : (∀ dr, growing t0 (body dr)) → growing t0 (rx_all body).
Proof.
  intros Hb. unfold rx_all. apply preserves_bind; [apply preserves_gets|]. intros l. generalize (S (length l)). intros n.
  induction n as [|n IH]; cbn [rx_loop]; kept_tac.
Qed.
Lemma growing_uart_irq t0 : growing t0 handle_uart_irq.
Proof.
  unfold handle_uart_irq.
  repeat first [ solve [eauto with kept] | apply growing_rx; intros ?; apply growing_receive || apply growing_echo
               | apply preserves_bind; [|intros ?] | case_match ].
Qed.

Lemma growing_put t0 b i v : growing t0 (put_char b i v).
Proof. unfold put_char. kept_tac. Qed.
#[export] Hint Resolve growing_put growing_uart_irq : kept.
Lemma growing_drain t0 fuel : ∀ b c m, growing t0 (input_drain fuel b c m).
Proof. induction fuel as [|fuel IH]; intros b c m; cbn [input_drain]; kept_tac. Qed.
#[export] Hint Resolve growing_drain : kept.
Lemma growing_turn t0 b c m : growing t0 (input_turn b c m).
Proof. unfold input_turn. kept_tac. Qed.
#[export] Hint Resolve growing_turn : kept.
Lemma growing_input t0 b l : growing t0 (syscall_input b l).
Proof. unfold syscall_input. kept_tac. Qed.
#[export] Hint Resolve growing_input : kept.
Lemma growing_run_input t0 b l : growing t0 (run_input b l).
Proof. unfold run_input. kept_tac. Qed.
Lemma growing_malloc t0 : growing t0 syscall_malloc.
Proof. unfold syscall_malloc. kept_tac. Qed.
Lemma growing_syscall_write t0 b : growing t0 (syscall_write b).
Proof. unfold syscall_write. kept_tac. Qed.
Lemma growing_write_hex t0 n : growing t0 (syscall_write_hex n).
Proof. unfold syscall_write_hex. kept_tac. Qed.
Lemma growing_save t0 n : ∀ a, growing t0 (save_arguments n a).
Proof. induction n as [|n IH]; intros a; cbn [save_arguments]; kept_tac. Qed.
Lemma growing_push t0 l : ∀ i sp f, growing t0 (push_arguments l i sp f).
Proof. induction l as [|x l IH]; intros i sp f; cbn [push_arguments]; kept_tac. Qed.
#[export] Hint Resolve growing_run_input growing_malloc growing_syscall_write growing_write_hex growing_save growing_push : kept.

(** ** Owners *)
Section owners.
Context {D : Type}.
Implicit Types s o : OS D.

Definition descriptor s (a : ptr) (fd : nat) (p : ptr) : Prop := has_descriptor (kernel (machine s)) a fd p.

(** The object of a resource is of the resource's kind. *)
Definition object_of s (kind : Z) (h : ptr) : Prop :=
  if kind =? RESOURCE_TYPE_FILE then is_Some (open_files s !! h) else is_Some (open_dirs s !! h).

(** The page at [q] is the resource of descriptor [i] of [a], its object, or entry [i]
    of its user pages. *)
Inductive owns s (a : ptr) (i : nat) : part → ptr → Prop :=
| owns_resource p : descriptor s a i p → owns s a i Resource p
| owns_object p r h : descriptor s a i p → resources s !! p = Some r → r_handle r = Some h → owns s a i Object h
| owns_memory u : has_page (kernel (machine s)) a i u → owns s a i Memory (u64 (physical_address u + VA_START)).

(** Well typed, as far as the owners of [P] go; the first argument tells memory from descriptors. *)
Record typed_on (P : bool → ptr → nat → Prop) s : Prop := mk_typed {
  ty_used : ∀ a i k q, P (in_memory k) a i → owns s a i k q → used_page (machine s) q;
  ty_own : ∀ a i k a' i' k' q, P (in_memory k) a i → P (in_memory k') a' i' →
    owns s a i k q → owns s a' i' k' q → a = a' ∧ i = i' ∧ k = k';
  ty_resource : ∀ a fd p, P false a fd → descriptor s a fd p →
    ∃ r, resources s !! p = Some r ∧ ∀ h, r_handle r = Some h → object_of s (resource_type r) h
}.

Definition typed s : Prop := typed_on (λ _ _ _, True) s.

(** All but one. *)
Definition other_than (b0 : bool) (a0 : ptr) (i0 : nat) (b : bool) (a : ptr) (i : nat) : Prop := ¬ (b = b0 ∧ a = a0 ∧ i = i0).

(** Fewer owners, more pages in use, more objects. *)
Lemma typed_sub (P Q : bool → ptr → nat → Prop) s s' :
  typed_on P s → (∀ q, used_page (machine s) q → used_page (machine s') q) →
  (∀ a i k q, Q (in_memory k) a i → owns s' a i k q → P (in_memory k) a i ∧ owns s a i k q) →
  (∀ a fd p, Q false a fd → descriptor s' a fd p → P false a fd ∧ descriptor s a fd p ∧ resources s' !! p = resources s !! p) →
  (∀ a fd kind h, Q false a fd → owns s' a fd Object h → object_of s kind h → object_of s' kind h) →
  typed_on Q s'.
Proof.
  intros [Hu Ho Hr] Hused Hown Hdesc Hobj. split.
  - intros a i k q HQ H. destruct (Hown _ _ _ _ HQ H). eauto.
  - intros a i k a' i' k' q HQ HQ' H H'. destruct (Hown _ _ _ _ HQ H), (Hown _ _ _ _ HQ' H'). eauto.
  - intros a fd p HQ Hd. destruct (Hdesc a fd p HQ Hd) as (HP & Hd' & Er). destruct (Hr a fd p HP Hd') as (r & Hres & H).
    exists r. rewrite Er. split; [done|]. intros h Hh. apply (Hobj a fd); [done| |by apply H].
    eapply owns_object; [exact Hd|by rewrite Er|exact Hh].
Qed.

Lemma typed_weaken (P Q : bool → ptr → nat → Prop) s : (∀ b a i, Q b a i → P b a i) → typed_on P s → typed_on Q s.
Proof. intros HPQ Ht. apply (typed_sub P Q s s Ht); auto. Qed.

(** *** Changes of the machine *)
Lemma os_machine s : os_with (machine s) s = s.
Proof. by destruct s. Qed.

Lemma owns_shrinks s o t t' a i k q :
  shrinks (kernel t) (kernel t') → owns (os_with t' o) a i k q → owns (os_with t o) a i k q.
Proof.
  intros Hs [p Hp|p r h Hp Hr Hh|u Hu].
  - apply owns_resource. by apply (sh_descriptor _ _ Hs).
  - eapply owns_object; [by apply (sh_descriptor _ _ Hs)|exact Hr|exact Hh].
  - apply owns_memory. by apply (sh_page _ _ Hs).
Qed.

Lemma typed_grows P o t t' : grows t t' → typed_on P (os_with t o) → typed_on P (os_with t' o).
Proof.
  intros [Hs Hu] Ht. apply (typed_sub P P _ _ Ht); [exact Hu| |..].
  - intros a i k q HP H. split; [done|]. by apply (owns_shrinks o o t t').
  - intros a fd p HP H. split; [done|]. split; [|done]. by apply (sh_descriptor _ _ Hs).
  - intros a fd kind h _ _ H. exact H.
Qed.

(** A page in use that nobody has. *)
Definition fresh s (q : ptr) : Prop := used_page (machine s) q ∧ ∀ a i k, ¬ owns s a i k q.

Lemma fresh_grows o t t' q : grows t t' → fresh (os_with t o) q → fresh (os_with t' o) q.
Proof.
  intros [Hs Hu] [H1 H2]. split; [by apply Hu|]. intros a i k H. apply (H2 a i k). by apply (owns_shrinks o o t t').
Qed.

Lemma not_used t j q : j ∈ free_list (memory_pages t) → used_page t q → q ≠ kva j.
Proof.
  intros [_ Hj]%elem_of_free_list (i & -> & _ & Hu) Heq. assert (i = j) as -> by (mm_consts; lia). done.
Qed.

Lemma taken_used j t : page_index j → used_page (take_page j t) (kva j).
Proof.
  intros Hj. exists j. split; [done|]. split; [done|].
  change (memory_pages (take_page j t)) with (<[j := 1]> (memory_pages t)). by rewrite page_used_insert, decide_True.
Qed.

(** What the allocator answers. *)
Lemma free_page_fresh o t x t' :
  typed (os_with t o) → get_free_page t = Done (x, t') →
  x = 0 ∨ (x ≠ 0 ∧ fresh (os_with t' o) (u64 (x + VA_START))).
Proof.
  intros Ht. rewrite get_free_page_run. destruct (free_list (memory_pages t)) as [|j l] eqn:Ef.
  - intros E. injection E as <- _. by left.
  - intros E. injection E as <- <-. destruct (free_list_head _ _ _ Ef) as [Hj _]. right.
    split; [mm_consts; lia|]. rewrite kva_u64 by done. split; [by apply taken_used|].
    intros a i k H. apply (owns_shrinks o o t) in H; [|apply (grows_take j t)].
    pose proof (ty_used _ _ Ht a i k _ I H) as Hu.
    apply (not_used t j (kva j)); [rewrite Ef; by left|exact Hu|done].
Qed.

(** *** A user page more *)
Lemma track_user_typed o t p x va t' :
  typed (os_with t o) → fresh (os_with t o) (u64 (x + VA_START)) →
  track_user_page p (mk_user_page x va) t = Done (tt, t') → typed (os_with t' o).
Proof.
  intros Ht [Hf1 Hf2] E. unfold track_user_page, load_mm, store_mm, on_kernel in E.
  unfold mbind, M_bind in E. unfold load, store in E. destruct (heap (kernel t) !! p) as [c|] eqn:Ec; [|done].
  cbn [mret M_ret kernel with_kernel] in E.
  destruct (array_set (user_pages (mm c)) (n_user_pages (mm c)) (mk_user_page x va)) as [l|] eqn:El; [|done].
  cbn [require mret M_ret kernel with_kernel] in E. rewrite Ec in E. injection E as <-.
  set (m' := mk_mm_struct (pgd (mm c)) (s32 (n_user_pages (mm c) + 1)) l (n_kernel_pages (mm c)) (kernel_pages (mm c))).
  set (i0 := Z.to_nat (n_user_pages (mm c))).
  assert (l = <[i0 := mk_user_page x va]> (user_pages (mm c))) as ->
    by (unfold array_set in El; repeat case_match; by simplify_eq).
  set (s' := os_with _ o).
  assert (∀ a fd q, descriptor s' a fd q → descriptor (os_with t o) a fd q) as Hd.
  { intros a fd q (c1 & Hc1 & Hq). cbn in Hc1. destruct (decide (a = p)) as [->|Hne].
    - rewrite lookup_insert_eq in Hc1. injection Hc1 as <-. by exists c.
    - rewrite lookup_insert_ne in Hc1 by done. by exists c1. }
  assert (∀ a i k q, owns s' a i k q → (a = p ∧ i = i0 ∧ k = Memory ∧ q = u64 (x + VA_START)) ∨ owns (os_with t o) a i k q) as Hown.
  { intros a i k q [q1 Hq|q1 r h Hq Hr Hh|u (c1 & Hc1 & Hu & H0)].
    - right. by apply owns_resource, Hd.
    - right. eapply owns_object; [by apply Hd|exact Hr|exact Hh].
    - cbn in Hc1. destruct (decide (a = p)) as [->|Hne].
      2: { rewrite lookup_insert_ne in Hc1 by done. right. apply owns_memory. by exists c1. }
      rewrite lookup_insert_eq in Hc1. injection Hc1 as <-. cbn [mm with_mm m' user_pages] in Hu.
      destruct (decide (i = i0)) as [->|Hne].
      + left. apply list_lookup_insert_Some in Hu as [(_ & <- & _)|(? & _)]; done.
      + rewrite list_lookup_insert_ne in Hu by done. right. apply owns_memory. by exists c. }
  split.
  - intros a i k q _ [(-> & -> & -> & ->)|H]%Hown; [exact Hf1|]. by apply (ty_used _ _ Ht a i k q I).
  - intros a i k a' i' k' q _ _ [(-> & -> & -> & ->)|H]%Hown [(-> & -> & -> & H')|H']%Hown; [done|..].
    + by destruct (Hf2 _ _ _ H').
    + subst q. by destruct (Hf2 _ _ _ H).
    + by apply (ty_own _ _ Ht a i k a' i' k' q).
  - intros a fd q _ Hq. apply (ty_resource _ _ Ht a fd q I). by apply Hd.
Qed.

(** *** Operations of the machine *)
Abbreviation keeps_typed o m := (preserves (λ t, typed (os_with t o)) m).

Lemma typed_growing {A} o (m : M Machine A) : (∀ t0, preserves (grows t0) m) → keeps_typed o m.
Proof. intros Hm t x t' Ht E. refine (typed_grows _ o t t' _ Ht). eapply Hm; [|exact E]. reflexivity. Qed.

Lemma fresh_growing {A} o q (m : M Machine A) t x t' :
  (∀ t0, preserves (grows t0) m) → m t = Done (x, t') → fresh (os_with t o) q → fresh (os_with t' o) q.
Proof. intros Hm E. apply fresh_grows. eapply Hm; [|exact E]. reflexivity. Qed.

(** [map_page] up to the entry in the user pages. *)
Definition map_tables (process : ptr) (virtual_address page_physical_address : Z) : M Machine unit :=
  m ← load_mm process;
  (if pgd m =? 0 then
     page ← get_free_page;
     m ← load_mm process;
     store_mm process (with_pgd page m);;
     set_ram (memzero (u64 (page + VA_START)) PAGE_SIZE);;
     track_kernel_page process page
   else mret tt);;
  m ← load_mm process;
  pud ← next_table process (pgd m) PGD_SHIFT virtual_address;
  pmd ← next_table process pud PUD_SHIFT virtual_address;
  pte ← next_table process pmd PMD_SHIFT virtual_address;
  map_table_entry (u64 (pte + VA_START)) virtual_address page_physical_address.

Lemma growing_tables t0 p va x : growing t0 (map_tables p va x).
Proof.
  unfold map_tables. apply preserves_bind; [apply growing_load_mm|]. intros m.
  apply preserves_bind; [|intros ?; kept_tac]. case_match; [|apply preserves_ret].
  apply preserves_bind; [apply growing_free_page|]. intros page t y t' Ht E.
  apply bind_inv in E as (m1 & t1 & E1 & E). apply bind_inv in E as ([] & t2 & E2 & E).
  assert (grows t0 t2) as H2.
  { eapply (growing_new_pgd t0 p page); [exact Ht|]. by rewrite (bind_done _ _ _ _ _ E1). }
  revert E. apply (preserves_bind (grows t0)); [kept_tac|intros _; kept_tac|done].
Qed.

Lemma map_page_inv p va x t u t' : map_page p va x t = Done (u, t') →
  ∃ t1, map_tables p va x t = Done (tt, t1) ∧ track_user_page p (mk_user_page x va) t1 = Done (tt, t').
Proof.
  unfold map_page, map_tables. intros (m & t1 & E1 & E)%bind_inv. rewrite (bind_done _ _ _ _ _ E1).
  apply bind_inv in E as ([] & t2 & E2 & E). rewrite (bind_done _ _ _ _ _ E2).
  apply bind_inv in E as (m3 & t3 & E3 & E). rewrite (bind_done _ _ _ _ _ E3).
  apply bind_inv in E as (pud & t4 & E4 & E). rewrite (bind_done _ _ _ _ _ E4).
  apply bind_inv in E as (pmd & t5 & E5 & E). rewrite (bind_done _ _ _ _ _ E5).
  apply bind_inv in E as (pte & t6 & E6 & E). rewrite (bind_done _ _ _ _ _ E6).
  apply bind_inv in E as ([] & t7 & E7 & E). destruct u. by exists t7.
Qed.

(** [map_page] of a page that nobody has yet. *)
Lemma map_page_typed o p va x t u t' :
  typed (os_with t o) → fresh (os_with t o) (u64 (x + VA_START)) → map_page p va x t = Done (u, t') → typed (os_with t' o).
Proof.
  intros Ht Hf (t1 & E1 & E2)%map_page_inv. refine (track_user_typed o t1 p x va t' _ _ E2).
  - eapply (typed_growing o (map_tables p va x)); [intros; apply growing_tables|exact Ht|exact E1].
  - eapply (fresh_growing o _ (map_tables p va x)); [intros; apply growing_tables|exact E1|exact Hf].
Qed.

Lemma growing_typed_free_page o : keeps_typed o get_free_page.
Proof. apply typed_growing. eauto with kept. Qed.

Lemma typed_user_page o p va : keeps_typed o (allocate_user_page p va).
Proof.
  intros t x t' Ht E. unfold allocate_user_page in E. apply bind_inv in E as (page & t1 & E1 & E).
  pose proof (growing_typed_free_page o t _ t1 Ht E1) as Ht1.
  destruct (free_page_fresh o t page t1 Ht E1) as [->|[Hne Hf]]; [by injection E as _ <-|].
  rewrite (proj2 (Z.eqb_neq _ _) Hne) in E. apply bind_inv in E as (u & t2 & E2 & E). injection E as _ <-.
  exact (map_page_typed o p va page t1 u t2 Ht1 Hf E2).
Qed.

Lemma typed_abort o far esr : keeps_typed o (do_mem_abort far esr).
Proof.
  intros t x t' Ht. unfold do_mem_abort. case_match; [|intros E; by injection E as _ <-].
  intros (page & t1 & E1 & E)%bind_inv. pose proof (growing_typed_free_page o t _ t1 Ht E1) as Ht1.
  destruct (free_page_fresh o t page t1 Ht E1) as [->|[Hne Hf]]; [by injection E as _ <-|].
  rewrite (proj2 (Z.eqb_neq _ _) Hne) in E. apply bind_inv in E as (c & t2 & E2 & E).
  assert (t2 = t1) as -> by (unfold on_kernel in E2; cbn in E2; injection E2 as _ <-; by destruct t1).
  apply bind_inv in E as (u & t3 & E3 & E). pose proof (map_page_typed o c _ page t1 u t3 Ht1 Hf E3) as Ht3.
  refine (typed_growing o _ _ t3 x t' Ht3 E). intros t0. kept_tac.
Qed.

Lemma typed_on_kernel {A} o (m : M Kernel A) : (∀ k0, preserves (shrinks k0) m) → keeps_typed o (on_kernel m).
Proof. intros Hm. apply typed_growing. eauto with kept. Qed.

(** Through the binds of a computation; what allocates for a process apart, all of it only grows. *)
Ltac typed_tac := cbv zeta; repeat match goal with
  | |- preserves _ (_ ≫= _) => apply preserves_bind; [|intros ?]
  | |- preserves _ (allocate_user_page _ _) => apply typed_user_page
  | |- preserves _ (if _ then _ else _) => case_match
  | |- preserves _ (on_kernel _) => apply typed_on_kernel; intros ?; kept_tac
  | |- preserves _ (copy_code _ _ _) => fail 1
  | |- preserves _ (copy_virtual_memory _) => fail 1
  | |- _ => solve [apply typed_growing; intros ?; kept_tac]
  end.

Lemma typed_copy_pages o fuel p q : ∀ i, keeps_typed o (copy_pages fuel p q i).
Proof. induction fuel as [|fuel IH]; intros i; cbn [copy_pages]; [apply preserves_fail|]. typed_tac. apply IH. Qed.

Lemma typed_copy_memory o q : keeps_typed o (copy_virtual_memory q).
Proof. unfold copy_virtual_memory. apply preserves_bind; [typed_tac|]. intros p. apply typed_copy_pages. Qed.

Lemma typed_copy_code o n p b z : ∀ i c, keeps_typed o (copy_code_loop n p b z i c).
Proof. induction n as [|n IH]; intros i c; cbn [copy_code_loop]; [apply preserves_ret|]. typed_tac; apply IH. Qed.

(** fork, and what the kernel's processes are made with. *)
Lemma typed_copy_process o r fl f x : keeps_typed o (copy_process r fl f x).
Proof.
  unfold copy_process, copy_state. cbv zeta.  typed_tac. apply typed_copy_memory.
Qed.

Lemma typed_user_mode o a z p : keeps_typed o (move_to_user_mode a z p).
Proof.
  unfold move_to_user_mode, set_pgd. cbv zeta.
  repeat match goal with
  | |- preserves _ (copy_code _ _ _) => apply typed_copy_code
  | |- _ => typed_tac
  end.
Qed.

(** ** Giving a page back *)
Lemma typed_free P s j t fs ds :
  typed_on P s → (∀ a i k, P (in_memory k) a i → ¬ owns s a i k (kva j)) → kernel t = kernel (machine s) →
  (∀ i, i ∈ free_list (memory_pages t) ↔ i = j ∨ i ∈ free_list (memory_pages (machine s))) →
  (∀ h, h ≠ kva j → fs !! h = open_files s !! h ∧ ds !! h = open_dirs s !! h) →
  typed_on P (mk_OS t (fsys s) (resources s) fs ds).
Proof.
  intros [Hu Ho Hr] Hj Hk Hin Hobjs. set (s' := mk_OS t _ _ _ _).
  assert (∀ a i k q, owns s' a i k q → owns s a i k q) as Hown.
  { intros a i k q [p Hp|p r h Hp Hres Hh|u Hp].
    - apply owns_resource. unfold descriptor in *. cbn in Hp. by rewrite Hk in Hp.
    - eapply owns_object; [|exact Hres|exact Hh]. unfold descriptor in *. cbn in Hp. by rewrite Hk in Hp.
    - apply owns_memory. cbn in Hp. by rewrite Hk in Hp. }
  split.
  - intros a i k q HP H. destruct (Hu a i k q HP (Hown _ _ _ _ H)) as (n & -> & Hn & Hused). exists n. split; [done|]. split; [done|].
    intros H0. assert (n ∈ free_list (memory_pages t)) as Hn' by (by apply elem_of_free_list).
    apply Hin in Hn' as [->|Hn']; [by eapply Hj; [|eauto]|]. by apply elem_of_free_list in Hn' as [_ ?].
  - intros a i k a' i' k' q HP HP' H H'. eauto.
  - intros a fd p HP Hp. unfold descriptor in Hp. cbn in Hp. rewrite Hk in Hp.
    destruct (Hr a fd p HP Hp) as (r & Hres & Hobj). exists r. split; [done|].
    intros h Hh. specialize (Hobj h Hh). assert (h ≠ kva j) as Hne.
    { intros ->. apply (Hj a fd Object HP). eapply owns_object; eauto. }
    destruct (Hobjs h Hne) as [Ef Ed]. unfold object_of in *. cbn [open_files open_dirs s']. by rewrite Ef, Ed.
Qed.

(** *** The pages of a program that exec replaces *)

(** An entry that is not in use is no page: freeing it is outside the allocator's table. *)
Lemma free_page_zero (t : Machine) : free_page (u64 (0 + VA_START)) t = Fault OutOfBounds.
Proof. reflexivity. Qed.

(** The entry is cleared. *)
Lemma clear_entry_typed o t a c i mm' :
  typed_on (other_than true a i) (os_with t o) → heap (kernel t) !! a = Some c →
  user_pages mm' = <[i := mk_user_page 0 0]> (user_pages (mm c)) →
  typed (os_with (with_kernel (with_heap (<[a := with_mm mm' c]> (heap (kernel t))) (kernel t)) t) o).
Proof.
  intros Ht Hc Hmm. set (s' := os_with _ o).
  assert (∀ b fd q, descriptor s' b fd q → descriptor (os_with t o) b fd q) as Hd.
  { intros b fd q (c1 & Hc1 & Hq). cbn in Hc1. destruct (decide (b = a)) as [->|Hne].
    - rewrite lookup_insert_eq in Hc1. injection Hc1 as <-. by exists c.
    - rewrite lookup_insert_ne in Hc1 by done. by exists c1. }
  apply (typed_sub (other_than true a i) _ (os_with t o) s' Ht); [done| |..].
  - intros b k kd q _ [p Hp|p r h Hp Hr Hh|u (c1 & Hc1 & Hu & H0)].
    + split; [by intros [? _]|]. by apply owns_resource, Hd.
    + split; [by intros [? _]|]. eapply owns_object; [by apply Hd|exact Hr|exact Hh].
    + cbn in Hc1. destruct (decide (b = a)) as [->|Hne].
      2: { rewrite lookup_insert_ne in Hc1 by done. split; [by intros (_ & ? & _)|]. apply owns_memory. by exists c1. }
      rewrite lookup_insert_eq in Hc1. injection Hc1 as <-. cbn [mm with_mm] in Hu. rewrite Hmm in Hu.
      destruct (decide (k = i)) as [->|Hne].
      * apply list_lookup_insert_Some in Hu as [(_ & <- & _)|(? & _)]; done.
      * rewrite list_lookup_insert_ne in Hu by done. split; [by intros (_ & _ & ?)|]. apply owns_memory. by exists c.
  - intros b fd q _ Hq. split; [by intros [? _]|]. split; [by apply Hd|done].
  - intros b fd kd h _ _ H. exact H.
Qed.

Lemma load_mm_inv p t m t' : load_mm p t = Done (m, t') → t' = t ∧ ∃ c, heap (kernel t) !! p = Some c ∧ m = mm c.
Proof.
  unfold load_mm, on_kernel. unfold mbind, M_bind. unfold load. destruct (heap (kernel t) !! p) as [c|]; [|done].
  cbn. intros E. injection E as <- <-. split; [by destruct t|by exists c].
Qed.

Lemma typed_free_pages o n : ∀ i, keeps_typed o (free_user_pages n i).
Proof.
  induction n as [|n IH]; intros i; cbn [free_user_pages]; [apply preserves_ret|]. intros t x t' Ht E.
  apply bind_inv in E as (a & t1 & E1 & E).
  assert (t1 = t) as -> by (unfold on_kernel in E1; cbn in E1; injection E1 as _ <-; by destruct t). clear E1.
  apply bind_inv in E as (m & t1 & [-> (c & Hc & ->)]%load_mm_inv & E).
  destruct (array_get (user_pages (mm c)) i) as [u|] eqn:Eu; [|done]. cbn [require] in E. rewrite bind_ret in E.
  apply bind_inv in E as (y & t1 & E1 & E).
  assert (0 ≤ i ∧ user_pages (mm c) !! Z.to_nat i = Some u) as [Hi Hu]
    by (unfold array_get in Eu; destruct (i <? 0) eqn:Ei; [done|]; zify_bools; done).
  destruct (decide (physical_address u = 0)) as [H0|H0]; [by rewrite H0, free_page_zero in E1|].
  assert (owns (os_with t o) a (Z.to_nat i) Memory (u64 (physical_address u + VA_START))) as Hown by (apply owns_memory; by exists c).
  destruct (ty_used _ _ Ht a _ Memory _ I Hown) as (j & Eq & Hj & _). rewrite Eq in *.
  destruct (free_page_ok t j Hj) as (t2 & E2 & Hk & Hin & _). rewrite E2 in E1. injection E1 as <- <-.
  assert (typed_on (other_than true a (Z.to_nat i)) (os_with t2 o)) as Ht2.
  { apply (typed_free _ (os_with t o) j t2); [by eapply typed_weaken; [|exact Ht]| |exact Hk|exact Hin|done].
    intros b k kd Hne Hb. destruct (ty_own _ _ Ht b k kd a (Z.to_nat i) Memory (kva j) I I Hb Hown) as (-> & -> & ->). by apply Hne. }
  apply bind_inv in E as (m & t3 & [-> (c2 & Hc2 & ->)]%load_mm_inv & E). rewrite Hk, Hc in Hc2. injection Hc2 as <-.
  destruct (array_set (user_pages (mm c)) i (mk_user_page 0 0)) as [l|] eqn:El; [|done]. cbn [require] in E. rewrite bind_ret in E.
  apply bind_inv in E as ([] & t3 & E3 & E). refine (IH _ t3 x t' _ E).
  unfold store_mm, on_kernel, store in E3. rewrite Hk, Hc in E3. injection E3 as <-. rewrite <- Hk.
  apply (clear_entry_typed o t2 a c (Z.to_nat i)); [exact Ht2|by rewrite Hk|].
  unfold array_set in El. repeat case_match; by simplify_eq.
Qed.

Lemma typed_exec_image o b z f n l : keeps_typed o (exec_image b z f n l).
Proof.
  unfold exec_image. repeat match goal with
  | |- preserves _ (_ ≫= _) => apply preserves_bind; [|intros ?]
  | |- preserves _ (free_user_pages _ _) => apply typed_free_pages
  | |- preserves _ (copy_code _ _ _) => apply typed_copy_code
  | |- _ => typed_tac
  end.
Qed.
End owners.
