(* ===== verification/Descriptors.v ===== *)
(** * The pages of all processes

    The descriptors and the memory of the processes stay well typed, in the sense of
    Ownership.v, through every system call, the interrupts, faults and the creation of
    processes. *)
From stdpp Require Import base gmap list relations.
From Stdlib Require Import ZArith Lia.
From S2P Require Import Prelude Mem Kernel Scheduler Boot Ipc Machine Uart Irq Mm MmSpec MmProps Fork FatFormat FatVolume FatDir FatFile FatVolumeSpec Filesystem Sd SdHost Syscalls SyscallsSpec SyscallsProps Kept Ownership.

#[local] Open Scope Z_scope.
#[local] Opaque memzero memcpy store_le load_le free_list N_PAGES page_used byte_at put_byte.

Section descriptors.
Context {D : Type}.
Implicit Types s : OS D.

(** ** Changes that keep the descriptors *)

(** Objects may appear and change, pages may be taken. *)
Record extends s s' : Prop := mk_extends {
  ex_machine : grows (machine s) (machine s');
  ex_resources : resources s' = resources s;
  ex_file : ∀ h, is_Some (open_files s !! h) → is_Some (open_files s' !! h);
  ex_dir : ∀ h, is_Some (open_dirs s !! h) → is_Some (open_dirs s' !! h)
}.

Lemma extends_trans s1 s2 s3 : extends s1 s2 → extends s2 s3 → extends s1 s3.
Proof.
  intros [M1 R1 O1 P1] [M2 R2 O2 P2]. split; [by etrans|by rewrite R2|auto|auto].
Qed.

Lemma extends_object s s' kind h : extends s s' → object_of s kind h → object_of s' kind h.
Proof. intros E. unfold object_of. destruct (kind =? RESOURCE_TYPE_FILE); [apply E|apply E]. Qed.

Lemma owns_extends s s' a i k q : extends s s' → owns s' a i k q → owns s a i k q.
Proof.
  intros [[Hs _] Hr _ _] [p Hp|p r h Hp Hres Hh|u Hu].
  - apply owns_resource. by apply (sh_descriptor _ _ Hs).
  - eapply owns_object; [by apply (sh_descriptor _ _ Hs)|by rewrite <- Hr|exact Hh].
  - apply owns_memory. by apply (sh_page _ _ Hs).
Qed.

Lemma typed_extends P s s' : extends s s' → typed_on P s → typed_on P s'.
Proof.
  intros E Ht. apply (typed_sub P P s s' Ht).
  - apply (gr_used _ _ (ex_machine _ _ E)).
  - intros a i k q HP H. split; [done|]. by apply (owns_extends s s').
  - intros a fd p HP H. split; [done|]. split; [by apply (sh_descriptor _ _ (gr_kernel _ _ (ex_machine _ _ E)))|].
    by rewrite (ex_resources _ _ E).
  - intros a fd kind h _ _ H. by apply (extends_object s).
Qed.

(** ** Setting a descriptor *)

(** The state [install] leaves. *)
Definition installed (c : PCB) (fd : nat) (kind : Z) (h : option ptr) (j : Z) s : OS D :=
  mk_OS (with_kernel (with_descriptor c (Z.of_nat fd) (kva j) (kernel (machine s))) (take_page j (machine s)))
    (fsys s) (<[kva j := mk_FatResource kind h]> (resources s)) (open_files s) (open_dirs s).

Section install.
Context (c : PCB) (fd : nat) (kind : Z) (h : option ptr) (j : Z) s.
Context (Hc : heap (kernel (machine s)) !! cur (kernel (machine s)) = Some c) (Hfd : (fd < length (files c))%nat).
Context (Hj : j ∈ free_list (memory_pages (machine s))).
Abbreviation s' := (installed c fd kind h j s).
Abbreviation Q := (other_than false (cur (kernel (machine s))) fd).
Context (Ht : typed_on Q s).

Lemma installed_descriptor a fd' p :
  descriptor s' a fd' p → (a = cur (kernel (machine s)) ∧ fd' = fd ∧ p = kva j) ∨ (Q false a fd' ∧ descriptor s a fd' p).
Proof.
  intros (c' & Hc' & Hp). change (<[cur (kernel (machine s)) := with_files (<[Z.to_nat (Z.of_nat fd) := Some (kva j)]> (files c)) c]> (heap (kernel (machine s))) !! a = Some c') in Hc'.
  rewrite Nat2Z.id in Hc'. destruct (decide (a = cur (kernel (machine s)))) as [->|Hne].
  - rewrite lookup_insert_eq in Hc'. injection Hc' as <-. cbn [files with_files] in Hp.
    destruct (decide (fd' = fd)) as [->|Hfd'].
    + rewrite list_lookup_insert_eq in Hp by done. injection Hp as <-. by left.
    + rewrite list_lookup_insert_ne in Hp by done. right. split; [by intros (_ & _ & ?)|]. by exists c.
  - rewrite lookup_insert_ne in Hc' by done. right. split; [by intros (_ & ? & _)|]. by exists c'.
Qed.

Lemma installed_page a i u : has_page (kernel (machine s')) a i u → has_page (kernel (machine s)) a i u.
Proof.
  intros (c' & Hc' & Hu). change (<[cur (kernel (machine s)) := with_files (<[Z.to_nat (Z.of_nat fd) := Some (kva j)]> (files c)) c]> (heap (kernel (machine s))) !! a = Some c') in Hc'.
  destruct (decide (a = cur (kernel (machine s)))) as [->|Hne].
  - rewrite lookup_insert_eq in Hc'. injection Hc' as <-. by exists c.
  - rewrite lookup_insert_ne in Hc' by done. by exists c'.
Qed.

Lemma old_not_new a i k q : Q (in_memory k) a i → owns s a i k q → q ≠ kva j.
Proof. intros HQ Ho. apply (not_used (machine s)); [exact Hj|]. by eapply (ty_used _ _ Ht). Qed.

Lemma installed_owns a i k q :
  owns s' a i k q →
  (a = cur (kernel (machine s)) ∧ i = fd ∧ (k = Resource ∧ q = kva j ∨ k = Object ∧ h = Some q)) ∨ (Q (in_memory k) a i ∧ owns s a i k q).
Proof.
  intros [p Hp|p r q' Hp Hres Hh|u Hu].
  - destruct (installed_descriptor _ _ _ Hp) as [(-> & -> & ->)|[HQ Hd]].
    + left. split; [done|]. split; [done|]. by left.
    + right. split; [done|]. by apply owns_resource.
  - destruct (installed_descriptor _ _ _ Hp) as [(-> & -> & ->)|[HQ Hd]].
    + left. cbn [resources installed] in Hres. rewrite lookup_insert_eq in Hres. injection Hres as <-. split; [done|]. split; [done|]. by right.
    + right. split; [done|]. cbn [resources installed] in Hres.
      rewrite lookup_insert_ne in Hres by (intros <-; by apply (old_not_new a i Resource (kva j) HQ (owns_resource _ _ _ _ Hd))).
      by eapply owns_object.
  - right. split; [by intros [? _]|]. apply owns_memory. by apply installed_page.
Qed.

Lemma typed_install :
  (∀ q, h = Some q → used_page (machine s) q ∧ object_of s kind q ∧ ∀ a i k, Q (in_memory k) a i → ¬ owns s a i k q) → typed s'.
Proof.
  intros Hh.
  assert (∀ q, used_page (take_page j (machine s)) q → used_page (machine s') q) as Hup0.
  { intros q Hq. unfold installed. cbn [machine]. by apply used_with_kernel. }
  assert (∀ q, used_page (machine s) q → used_page (machine s') q) as Hup by (intros q Hq; by apply Hup0, used_take).
  assert (∀ q, h = Some q → q ≠ kva j) as Hqj by (intros q Hq; apply (not_used (machine s)); [exact Hj|]; by apply Hh).
  assert (used_page (machine s') (kva j)) as Huj
    by (apply Hup0, taken_used; by apply elem_of_free_list in Hj as [? _]).
  clear Hup0.
  split.
  - intros a i k q _ [(-> & -> & [[-> ->]|[-> Hq]])|[HQ H]]%installed_owns; [done|by apply Hup, Hh|].
    by eapply Hup, (ty_used _ _ Ht).
  - intros a1 f1 k1 a2 f2 k2 q _ _ [(-> & -> & H1)|[HQ1 H1]]%installed_owns [(-> & -> & H2)|[HQ2 H2]]%installed_owns.
    + split; [done|]. split; [done|]. destruct H1 as [[-> ->]|[-> Hq]], H2 as [[-> H2]|[-> Hq2]]; try done; by edestruct Hqj.
    + exfalso. destruct H1 as [[-> ->]|[-> Hq]]; [by eapply old_not_new|]. by eapply Hh.
    + exfalso. destruct H2 as [[-> ->]|[-> Hq]]; [by eapply old_not_new|]. by eapply Hh.
    + by eapply (ty_own _ _ Ht).
  - intros a fd' p _ [(-> & -> & ->)|[HQ Hd]]%installed_descriptor; cbn [resources installed].
    + rewrite lookup_insert_eq. eexists. split; [done|]. cbn. intros q Hq. by apply Hh.
    + rewrite lookup_insert_ne by (intros <-; by apply (old_not_new a fd' Resource (kva j) HQ (owns_resource _ _ _ _ Hd))).
      by apply (ty_resource _ _ Ht a fd').
Qed.
End install.

(** ** The pieces of the calls *)
Lemma on_os_inv {A} (m : M Kernel A) s v s' :
  (∀ k u k', m k = Done (u, k') → k' = k) → on_os m s = Done (v, s') → s' = s ∧ m (kernel (machine s)) = Done (v, kernel (machine s)).
Proof.
  intros Hro E. unfold on_os, on_machine, on_kernel in E. destruct (m (kernel (machine s))) as [[u k']|] eqn:Em; [|done].
  pose proof (Hro _ _ _ Em) as ->. injection E as <- <-. split; [|done]. destruct s as [t]. by destruct t.
Qed.

Lemma get_current_inv s v s' : on_os get_current s = Done (v, s') → s' = s ∧ v = cur (kernel (machine s)).
Proof. rewrite current_run. by intros [= <- <-]. Qed.

Lemma load_inv p (k : Kernel) c k' : load p k = Done (c, k') → k' = k ∧ heap k !! p = Some c.
Proof. unfold load. destruct (heap k !! p); [|done]. by intros [= <- <-]. Qed.

Lemma require_inv {S A} e (o : option A) (x : S) a x' : require e o x = Done (a, x') → x' = x ∧ o = Some a.
Proof. destruct o; [|done]. by intros [= <- <-]. Qed.

Lemma array_get_inv {A} (l : list A) i x : array_get l i = Some x → 0 ≤ i ∧ l !! Z.to_nat i = Some x.
Proof. unfold array_get. destruct (i <? 0) eqn:E; [done|]. zify_bools. done. Qed.

Lemma free_descriptor_inv n p : ∀ i k v k',
  free_descriptor_loop n i p k = Done (v, k') → k' = k ∧ (v = -1 ∨ ∃ c fd, heap k !! p = Some c ∧ v = Z.of_nat fd ∧ files c !! fd = Some None).
Proof.
  induction n as [|n IH]; intros i k v k'; cbn [free_descriptor_loop].
  { intros [= <- <-]. split; [done|by left]. }
  intros (c & k1 & [-> Hc]%load_inv & (o & k2 & [-> Ho]%require_inv & E)%bind_inv)%bind_inv.
  destruct o as [q|]; [by apply IH in E|]. injection E as <- <-. apply array_get_inv in Ho as [Hi Ho].
  split; [done|]. right. exists c, (Z.to_nat i). rewrite Z2Nat.id by done. done.
Qed.

Lemma first_descriptor_inv s v s' :
  on_os (get_first_free_file_descriptor (cur (kernel (machine s)))) s = Done (v, s') →
  s' = s ∧ (v = -1 ∨ ∃ c fd, heap (kernel (machine s)) !! cur (kernel (machine s)) = Some c ∧ v = Z.of_nat fd ∧ files c !! fd = Some None).
Proof.
  intros [-> E]%on_os_inv; [by apply free_descriptor_inv in E as [_ E]|].
  intros k u k' H'. by apply free_descriptor_inv in H' as [? _].
Qed.

Lemma current_descriptor_inv s fd o s' :
  current_descriptor fd s = Done (o, s') →
  s' = s ∧ ∃ c, heap (kernel (machine s)) !! cur (kernel (machine s)) = Some c ∧ 0 ≤ fd ∧ files c !! Z.to_nat fd = Some o.
Proof.
  unfold current_descriptor. intros (a & s1 & [-> ->]%get_current_inv & (c & s2 & H & [-> Ho]%require_inv)%bind_inv)%bind_inv.
  apply on_os_inv in H as [-> [_ Hc]%load_inv]; [|intros k u k' H'; by apply load_inv in H' as [? _]].
  apply array_get_inv in Ho as [Hfd Ho]. split; [done|]. by exists c.
Qed.

Lemma get_resource_inv s p r s' : get_resource p s = Done (r, s') → s' = s ∧ resources s !! p = Some r.
Proof. unfold get_resource. destruct (resources s !! p); [|done]. by intros [= <- <-]. Qed.

Lemma is_some_insert {A} (m : gmap ptr A) p x h : is_Some (m !! h) → is_Some (<[p := x]> m !! h).
Proof. intros Hh. destruct (decide (h = p)) as [->|]; [by rewrite lookup_insert_eq|by rewrite lookup_insert_ne]. Qed.

Lemma on_file_extends {A} h (m : E (File * FatSys D) A) s v s' :
  on_file h m s = Done (v, s') → machine s' = machine s ∧ extends s s'.
Proof.
  unfold on_file. destruct (open_files s !! h) as [f|]; [|done]. destruct (m (f, fsys s)) as [[r [f' t]]|]; [|done].
  intros [= <- <-]. split; [done|]. split; [reflexivity|done|..]; try done; intros h'; apply is_some_insert.
Qed.

Lemma on_dir_extends {A} h (m : E (Dir * FatSys D) A) s v s' :
  on_dir h m s = Done (v, s') → machine s' = machine s ∧ extends s s'.
Proof.
  unfold on_dir. destruct (open_dirs s !! h) as [f|]; [|done]. destruct (m (f, fsys s)) as [[r [f' t]]|]; [|done].
  intros [= <- <-]. split; [done|]. split; [reflexivity|done|..]; try done; intros h'; apply is_some_insert.
Qed.

(** ** Opening *)

(** [s2] has the page [j1] of a new object of the kind [kind], which no descriptor
    names yet. *)
Section open_tail.
Context (c : PCB) (fd : nat) (kind : Z) (j1 j2 : Z) (l : list Z) s s2.
Context (Ht : typed s) (Hfree : free_list (memory_pages (machine s)) = j1 :: j2 :: l).
Context (Hc : heap (kernel (machine s)) !! cur (kernel (machine s)) = Some c) (Hfd : files c !! fd = Some None).
Context (Hm : machine s2 = take_page j1 (machine s)) (Hex : extends s s2) (Hobj : object_of s2 kind (kva j1)).

Lemma new_object_unowned a fd' k : ¬ owns s2 a fd' k (kva j1).
Proof.
  intros Ho. apply (not_used (machine s) j1 (kva j1)); [rewrite Hfree; by left| |done].
  apply (ty_used _ _ Ht a fd' k); [done|]. by apply (owns_extends s s2).
Qed.

Lemma open_failed u s3 : drop_page (kva j1) s2 = Done (u, s3) → typed s3.
Proof.
  destruct (free_list_head _ _ _ Hfree) as [Hj _]. destruct (drop_page_run s2 j1 Hj) as (t & E & Hk & Hin). rewrite E. intros [= _ <-].
  eapply typed_free; [by eapply typed_extends| |exact Hk|exact Hin|].
  - intros a fd' k _. apply new_object_unowned.
  - intros h Hne. by rewrite !lookup_delete_ne by done.
Qed.

Lemma open_succeeded u s3 : install (Z.of_nat fd) kind (Some (kva j1)) s2 = Done (u, s3) → typed s3.
Proof.
  pose proof (lookup_lt_Some _ _ _ Hfd) as Hlt.
  assert (free_list (memory_pages (machine s2)) = j2 :: l) as Hfree2 by (rewrite Hm; exact (free_list_take _ _ _ Hfree)).
  assert (kernel (machine s2) = kernel (machine s)) as Hk by (by rewrite Hm). rewrite <- Hk in Hc.
  rewrite (install_run s2 c (Z.of_nat fd) kind (Some (kva j1)) j2 l Hfree2 Hc) by lia. intros [= _ <-].
  apply (typed_install c fd kind (Some (kva j1)) j2 s2 Hc Hlt).
  - rewrite Hfree2. by left.
  - eapply typed_weaken; [|by eapply typed_extends]. done.
  - intros q [= <-]. split; [|split; [done|intros a fd' k _; apply new_object_unowned]].
    destruct (free_list_head _ _ _ Hfree) as [Hj _]. rewrite Hm. by apply taken_used.
Qed.
End open_tail.

(** The shape of the three calls that open. *)
Lemma new_file_extends s j1 l p s1 :
  free_list (memory_pages (machine s)) = j1 :: l → new_file s = Done (p, s1) →
  p = kva j1 ∧ machine s1 = take_page j1 (machine s) ∧ extends s s1 ∧ is_Some (open_files s1 !! kva j1).
Proof.
  intros Hf. unfold new_file. rewrite (bind_done _ _ _ _ _ (new_page_run s j1 l Hf)). intros [= <- <-].
  split; [done|]. split; [done|]. split; [|cbn; by rewrite lookup_insert_eq].
  split; [apply grows_take|done|..]; try done; intros h; apply is_some_insert.
Qed.

Lemma new_dir_extends s j1 l p s1 :
  free_list (memory_pages (machine s)) = j1 :: l → new_dir s = Done (p, s1) →
  p = kva j1 ∧ machine s1 = take_page j1 (machine s) ∧ extends s s1 ∧ is_Some (open_dirs s1 !! kva j1).
Proof.
  intros Hf. unfold new_dir. rewrite (bind_done _ _ _ _ _ (new_page_run s j1 l Hf)). intros [= <- <-].
  split; [done|]. split; [done|]. split; [|cbn; by rewrite lookup_insert_eq].
  split; [apply grows_take|done|..]; try done; intros h; apply is_some_insert.
Qed.

(** The proof of the three: the first free descriptor, the new object, what the
    library did to it, and the two ends. *)
Ltac opens new_extends on_extends objects :=
  intros Hfree Ht (a & s0 & [-> ->]%get_current_inv & (fd & s0' & [-> Hfd]%first_descriptor_inv & E)%bind_inv)%bind_inv;
  destruct (fd =? -1) eqn:Efd; [by injection E as _ <-|]; zify_bools; destruct Hfd as [?|(c & i & Hc & -> & Hi)]; [done|];
  apply bind_inv in E as (p & s1 & H1 & E); destruct (new_extends _ _ _ p s1 Hfree H1) as (-> & Hm1 & He1 & Ho1);
  apply bind_inv in E as (r & s2 & H2 & E); apply on_extends in H2 as [Hm2 He2];
  rewrite Hm1 in Hm2; pose proof (extends_trans _ _ _ He1 He2) as He; apply (objects _ _ He2) in Ho1;
  destruct r as [e|[]]; apply bind_inv in E as (u & s3 & H3 & E); injection E as _ <-;
  [by eapply open_failed|refine (open_succeeded c i _ _ _ _ _ s2 Ht Hfree Hc Hi Hm2 He _ u s3 H3); exact Ho1].

Lemma typed_open_file s j1 j2 l path fl v s' :
  free_list (memory_pages (machine s)) = j1 :: j2 :: l → typed s → syscall_open_file path fl s = Done (v, s') → typed s'.
Proof. opens new_file_extends (@on_file_extends) ex_file. Qed.

Lemma typed_open_dir s j1 j2 l path v s' :
  free_list (memory_pages (machine s)) = j1 :: j2 :: l → typed s → syscall_open_dir path s = Done (v, s') → typed s'.
Proof. opens new_dir_extends (@on_dir_extends) ex_dir. Qed.

Lemma typed_create_dir s j1 j2 l path v s' :
  free_list (memory_pages (machine s)) = j1 :: j2 :: l → typed s → syscall_create_dir path s = Done (v, s') → typed s'.
Proof. opens new_dir_extends (@on_dir_extends) ex_dir. Qed.

(** ** Closing *)
Lemma typed_close s fd v s' : typed s → syscall_close_file fd s = Done (v, s') → typed s'.
Proof.
  intros Ht. unfold syscall_close_file. destruct ((fd <? 0) || _) eqn:Eb; [by intros [= _ <-]|].
  intros (o & s0 & (-> & c & Hc & Hfd & Ho)%current_descriptor_inv & E)%bind_inv.
  apply bind_inv in E as (p & s0 & [-> ->]%require_inv & E).
  apply bind_inv in E as (r & s0 & [-> Hr]%get_resource_inv & E).
  apply bind_inv in E as (h & s0 & [-> Hh]%require_inv & E).
  apply bind_inv in E as (e & s1 & [Hm1 He1]%on_file_extends & E).
  pose proof (typed_extends _ _ _ He1 Ht) as Ht1. destruct e as [e|[]]; [by injection E as _ <-|].
  set (a := cur (kernel (machine s))) in *. rewrite <- (Z2Nat.id fd) in E by done. revert Hfd Ho E. generalize (Z.to_nat fd). intros i _ Ho E.
  assert (owns s a i Object h) as Hown by (eapply owns_object; [by exists c|done..]).
  destruct (ty_used _ _ Ht a i Object h I Hown) as (j & -> & Hj & _).
  assert (∀ a' i' k, other_than false a i (in_memory k) a' i' → ¬ owns s1 a' i' k (kva j)) as Hun.
  { intros a' i' k Hne Ho'. apply Hne. apply (owns_extends s s1) in Ho'; [|done].
    destruct (ty_own _ _ Ht a' i' k a i Object (kva j) I I Ho' Hown) as (-> & -> & ->). done. }
  destruct (drop_page_run s1 j Hj) as (t & E1 & Hk & Hin). rewrite (bind_done _ _ _ _ _ E1) in E.
  set (s2 := mk_OS t (fsys s1) (resources s1) (delete (kva j) (open_files s1)) (delete (kva j) (open_dirs s1))) in E.
  assert (typed_on (other_than false a i) s2) as Ht2.
  { apply (typed_free _ s1 j t); [|exact Hun|done|done|intros h Hne; by rewrite !lookup_delete_ne by done].
    eapply typed_weaken; [|exact Ht1]. done. }
  destruct (free_list (memory_pages (machine s2))) as [|j' l] eqn:Ef.
  { assert (j ∈ free_list (memory_pages (machine s2))) as Hj' by (apply Hin; by left). rewrite Ef in Hj'. by apply elem_of_nil in Hj'. }
  assert (kernel (machine s2) = kernel (machine s)) as Hk2 by (cbn [machine s2]; by rewrite Hk, Hm1).
  assert (heap (kernel (machine s2)) !! cur (kernel (machine s2)) = Some c) as Hc2 by (by rewrite Hk2).
  pose proof (lookup_lt_Some _ _ _ Ho) as Hlt.
  apply bind_inv in E as (u & s3 & E2 & E). injection E as _ <-.
  rewrite (install_run s2 c (Z.of_nat i) 0 None j' l Ef Hc2) in E2 by lia. injection E2 as _ <-.
  apply (typed_install c i 0 None j' s2 Hc2 Hlt); [rewrite Ef; by left| |done].
  rewrite Hk2. exact Ht2.
Qed.

(** ** Reading and writing *)
Lemma typed_read s fd len v s' : typed s → syscall_read_file fd len s = Done (v, s') → typed s'.
Proof.
  intros Ht. unfold syscall_read_file. intros (o & s0 & (-> & _)%current_descriptor_inv & E)%bind_inv.
  apply bind_inv in E as (p & s0 & [-> _]%require_inv & E).
  apply bind_inv in E as (r & s0 & [-> _]%get_resource_inv & E).
  apply bind_inv in E as (h & s0 & [-> _]%require_inv & E).
  apply bind_inv in E as (e1 & s1 & [_ He1]%on_file_extends & E).
  apply bind_inv in E as (e2 & s2 & [_ He2]%on_file_extends & E).
  assert (s' = s2) as -> by (destruct e2 as [?|[]]; by injection E).
  eapply typed_extends; [exact He2|]. by eapply typed_extends.
Qed.

Lemma typed_write s fd src len v s' : typed s → syscall_write_file fd src len s = Done (v, s') → typed s'.
Proof.
  intros Ht. unfold syscall_write_file. intros (o & s0 & (-> & _)%current_descriptor_inv & E)%bind_inv.
  destruct o as [p|]; [|by injection E as _ <-].
  apply bind_inv in E as (r & s0 & [-> _]%get_resource_inv & E).
  apply bind_inv in E as (h & s0 & [-> _]%require_inv & E).
  apply bind_inv in E as (e & s1 & [_ He]%on_file_extends & E).
  assert (s' = s1) as -> by (destruct e as [?|[]]; by injection E). by eapply typed_extends.
Qed.

Lemma typed_next_entry s fd v s' : typed s → syscall_get_next_entry fd s = Done (v, s') → typed s'.
Proof.
  intros Ht. unfold syscall_get_next_entry. intros (o & s0 & (-> & _)%current_descriptor_inv & E)%bind_inv.
  apply bind_inv in E as (p & s0 & [-> _]%require_inv & E).
  apply bind_inv in E as (r & s0 & [-> _]%get_resource_inv & E).
  destruct (r_handle r) as [h|]; [|by injection E as _ <-].
  apply bind_inv in E as (e & s1 & [_ He]%on_dir_extends & E). apply (typed_extends _ _ _ He) in Ht.
  destruct e as [?|i]; [by injection E as _ <-|].
  apply bind_inv in E as (e & s2 & [_ He2]%on_dir_extends & E).
  assert (s' = s2) as -> by (destruct e; by injection E). by eapply typed_extends.
Qed.

(** ** Every system call *)
Abbreviation keeps m := (preserves typed m).

Lemma typed_machine {A} (m : M Machine A) : (∀ o : OS D, preserves (λ t, typed (os_with t o)) m) → keeps (on_machine m : M (OS D) A).
Proof.
  intros Hm s x s' Ht E. unfold on_machine in E. destruct (m (machine s)) as [[y t]|] eqn:Em; [|done].
  injection E as _ <-. change (typed (os_with t s)). eapply Hm; [|exact Em]. by rewrite os_machine.
Qed.

Lemma typed_os {A} (m : M Kernel A) : (∀ k0, preserves (shrinks k0) m) → keeps (on_os m : M (OS D) A).
Proof. intros Hm. apply typed_machine. intros o. by apply typed_on_kernel. Qed.

Lemma typed_grow {A} (m : M Machine A) : (∀ t0, preserves (grows t0) m) → keeps (on_machine m : M (OS D) A).
Proof. intros Hm. apply typed_machine. intros o. by apply typed_growing. Qed.

(** Two pages are free. *)
Definition two_free s : Prop := (2 ≤ length (free_list (memory_pages (machine s))))%nat.

Lemma two_free_list s : two_free s → ∃ j1 j2 l, free_list (memory_pages (machine s)) = j1 :: j2 :: l.
Proof. unfold two_free. destruct (free_list _) as [|j1 [|j2 l]]; simpl; [lia..|]. by exists j1, j2, l. Qed.

(** Strings are only read. *)
Lemma read_string_same a (t : Machine) l t' : read_string a t = Done (l, t') → t' = t.
Proof.
  unfold read_string. generalize (16 * Z.to_nat PAGE_SIZE + 1)%nat. intros n. revert a l t'.
  induction n as [|n IH]; intros a l t' E; [done|]. cbn [read_string_loop] in E.
  apply bind_inv in E as (v & t1 & E1 & E). unfold read_byte in E1. apply bind_inv in E1 as (b & t2 & E2 & E1).
  assert (t2 = t) as -> by (unfold cpu_address in E2; repeat case_match; by simplify_eq).
  injection E1 as _ <-. destruct (v =? 0); [by injection E as _ <-|].
  apply bind_inv in E as (l' & t3 & E3 & E). apply IH in E3 as ->. by injection E as _ <-.
Qed.

Lemma os_read_string a s l s' : on_machine (read_string a) s = Done (l, s') → s' = s.
Proof.
  unfold on_machine. destruct (read_string a (machine s)) as [[y t]|] eqn:E; [|done].
  intros E'. injection E' as _ <-. apply read_string_same in E as ->. apply os_machine.
Qed.

Lemma typed_exec path frame n args s v s' :
  two_free s → typed s → syscall_exec path frame n args s = Done (v, s') → typed s'.
Proof.
  intros (j1 & j2 & l & Hf)%two_free_list Ht. unfold syscall_exec. intros (fd & s1 & E1 & E)%bind_inv.
  assert (typed s1) as H1 by (by eapply typed_open_file).
  destruct (fd =? -1); [by injection E as _ <-|].
  apply bind_inv in E as (b & s2 & E2 & E). assert (typed s2) as H2.
  { refine (typed_grow allocate_kernel_page _ s1 b s2 H1 E2). intros t0. kept_tac. }
  apply bind_inv in E as (r & s3 & E3 & E). assert (typed s3) as H3 by (by eapply typed_read).
  apply bind_inv in E as (u & s4 & E4 & E). assert (typed s4) as H4.
  { refine (typed_grow (write_list b r.2) _ s3 u s4 H3 E4). intros t0. kept_tac. }
  apply bind_inv in E as (w & s5 & E5 & E). assert (typed s5) as H5 by (by eapply typed_close).
  destruct (PAGE_SIZE * 15 <? _); [by injection E as _ <-|].
  apply bind_inv in E as (safe & s6 & E6 & E). assert (typed s6) as H6.
  { refine (typed_grow (save_arguments (Z.to_nat n) args) _ s5 safe s6 H5 E6). intros t0. kept_tac. }
  apply bind_inv in E as ([] & s7 & E7 & E). injection E as _ <-.
  refine (typed_machine (exec_image b _ frame n safe) _ s6 tt s7 H6 E7). intros o. apply typed_exec_image.
Qed.

(** The numbers of the calls that open. *)
Definition opening : list Z := [3; 4; 5; 16].

Ltac call_tac := cbv zeta; repeat match goal with
  | |- preserves _ (_ ≫= _) => apply preserves_bind; [|intros ?]
  | |- preserves _ (mret _) => apply preserves_ret
  | |- preserves _ (on_os _) => apply typed_os; intros ?; kept_tac
  | |- preserves _ (on_machine (syscall_fork _)) => apply typed_machine; intros ?; unfold syscall_fork; apply typed_copy_process
  | |- preserves _ (on_machine _) => apply typed_grow; intros ?; kept_tac
  | |- preserves _ (syscall_close_file _) => intros ? ? ?; apply typed_close
  | |- preserves _ (syscall_read_file _ _) => intros ? ? ?; apply typed_read
  | |- preserves _ (syscall_write_file _ _ _) => intros ? ? ?; apply typed_write
  | |- preserves _ (syscall_get_next_entry _) => intros ? ? ?; apply typed_next_entry
  | |- preserves _ (match ?o with _ => _ end) => destruct o
  end.

Lemma dispatch_typed ret stack n x0 x1 x2 x3 r : n ∉ opening → keeps (dispatch ret stack n x0 x1 x2 x3 r : M (OS D) reply).
Proof.
  intros Hn. unfold opening in Hn. rewrite !not_elem_of_cons in Hn. destruct Hn as (N3 & N4 & N5 & N16 & _).
  destruct n as [|q|q]; [|do 5 (try destruct q as [q|q|])|].
  all: try (exfalso; (exact (N3 eq_refl) || exact (N4 eq_refl) || exact (N5 eq_refl) || exact (N16 eq_refl))).
  all: unfold dispatch; call_tac.
Qed.

Lemma typed_dispatch ret stack n x0 x1 x2 x3 r s a s' :
  (n ∈ opening → two_free s) → typed s → dispatch ret stack n x0 x1 x2 x3 r s = Done (a, s') → typed s'.
Proof.
  intros Hf Ht. destruct (decide (n ∈ opening)) as [Hin|Hout]; [|by apply dispatch_typed].
  specialize (Hf Hin). pose proof Hf as (j1 & j2 & l & El)%two_free_list.
  unfold opening in Hin. rewrite !elem_of_cons in Hin.
  destruct Hin as [->|[->|[->|[->|Hin]]]]; [..|by apply not_elem_of_nil in Hin]; unfold dispatch;
    intros (p & s1 & ->%os_read_string & (v & s2 & E & [= _ <-])%bind_inv)%bind_inv.
  - by eapply typed_create_dir.
  - by eapply typed_open_dir.
  - by eapply typed_open_file.
  - by eapply typed_exec.
Qed.

(** The number of the call in the frame of a process. *)
Definition call_number s (registers : Z) : Z := load64 (registers + 8 * 8) (ram (machine s)).

Lemma register_same registers i s v s' : register registers i s = Done (v, s') → s' = s ∧ v = load64 (registers + 8 * i) (ram (machine s)).
Proof. unfold register, on_machine. cbn. intros E. injection E as <- <-. split; [|done]. by destruct s. Qed.

Lemma typed_syscall ret stack registers s a s' :
  (call_number s registers ∈ opening → two_free s) → typed s →
  syscall_dispatcher ret stack registers s = Done (a, s') → typed s'.
Proof.
  intros Hf Ht. unfold syscall_dispatcher. intros (n & s1 & [-> En]%register_same & E)%bind_inv. fold (call_number s registers) in En.
  destruct (SYSCALLS_NUMBER <? n); [by injection E as _ <-|].
  apply bind_inv in E as (x0 & s1 & [-> _]%register_same & E). apply bind_inv in E as (x1 & s1 & [-> _]%register_same & E).
  apply bind_inv in E as (x2 & s1 & [-> _]%register_same & E). apply bind_inv in E as (x3 & s1 & [-> _]%register_same & E).
  apply bind_inv in E as (r & s1 & E1 & E).
  assert (typed s1) as H1 by (rewrite En in E1; exact (typed_dispatch _ _ _ _ _ _ _ _ _ _ _ Hf Ht E1)).
  revert E. assert (keeps (match r with Returns v => on_machine (set_ram (store64 registers (u64 v)));; mret r | _ => mret r end : M (OS D) reply)) as H
    by (destruct r; call_tac).
  by apply H.
Qed.

(** ** Runs of the system *)

(** What the kernel does, each part to its end: a system call of the process that runs,
    those that open with two pages free; the rest of a call that had given up the
    processor; an interrupt; a fault; the creation of a process and its first run.
    Between them programs write to memory and the terminal's registers change. *)
Inductive system_step : OS D → OS D → Prop :=
| step_syscall ret stack registers a s s' :
    (call_number s registers ∈ opening → two_free s) →
    syscall_dispatcher ret stack registers s = Done (a, s') → system_step s s'
| step_send_on p q message r s s' : on_os (send_turn p q message) s = Done (r, s') → system_step s s'
| step_receive_on p frame out r s s' : on_os (receive_turn p frame out) s = Done (r, s') → system_step s s'
| step_input_on buffer n max r s s' : on_machine (input_turn buffer n max) s = Done (r, s') → system_step s s'
| step_input_again buffer n r s s' : on_machine (run_input buffer n) s = Done (r, s') → system_step s s'
| step_tick s s' : on_os handle_timer_tick s = Done (tt, s') → system_step s s'
| step_uart s s' : on_machine handle_uart_irq s = Done (tt, s') → system_step s s'
| step_abort far esr r s s' : on_machine (do_mem_abort far esr) s = Done (r, s') → system_step s s'
| step_create ret fl f x r s s' : on_machine (copy_process ret fl f x) s = Done (r, s') → system_step s s'
| step_tail s s' : on_os schedule_tail s = Done (tt, s') → system_step s s'
| step_user_mode start size pc r s s' : on_machine (move_to_user_mode start size pc) s = Done (r, s') → system_step s s'
| step_irqs b s s' : on_os (if b : bool then enable_irq else disable_irq) s = Done (tt, s') → system_step s s'
| step_memory m s : system_step s (os_with (with_ram m (machine s)) s)
| step_device u s : system_step s (os_with (with_uart u (machine s)) s).

Lemma typed_step s s' : system_step s s' → typed s → typed s'.
Proof.
  intros [ret stack registers a s0 s1 Hf E|p q m r s0 s1 E|p f o r s0 s1 E|b n m r s0 s1 E|b n r s0 s1 E|s0 s1 E|s0 s1 E|far esr r s0 s1 E
    |ret fl f x r s0 s1 E|s0 s1 E|a z p r s0 s1 E|b s0 s1 E|m s0|u s0] Ht.
  - by eapply typed_syscall.
  - refine (typed_os (send_turn p q m) _ _ _ _ Ht E). intros k0. kept_tac.
  - refine (typed_os (receive_turn p f o) _ _ _ _ Ht E). intros k0. kept_tac.
  - refine (typed_grow (input_turn b n m) _ _ _ _ Ht E). intros t0. kept_tac.
  - refine (typed_grow (run_input b n) _ _ _ _ Ht E). intros t0. kept_tac.
  - refine (typed_os handle_timer_tick _ _ _ _ Ht E). intros k0. kept_tac.
  - refine (typed_grow handle_uart_irq _ _ _ _ Ht E). intros t0. kept_tac.
  - refine (typed_machine (do_mem_abort far esr) _ _ _ _ Ht E). intros o. apply typed_abort.
  - refine (typed_machine (copy_process ret fl f x) _ _ _ _ Ht E). intros o. apply typed_copy_process.
  - refine (typed_os schedule_tail _ _ _ _ Ht E). intros k0. kept_tac.
  - refine (typed_machine (move_to_user_mode a z p) _ _ _ _ Ht E). intros o. apply typed_user_mode.
  - refine (typed_os (if b then enable_irq else disable_irq) _ _ _ _ Ht E). intros k0. destruct b; apply kept_global.
  - apply (typed_grows _ s0 (machine s0)); [by apply grows_same|by rewrite os_machine].
  - apply (typed_grows _ s0 (machine s0)); [by apply grows_same|by rewrite os_machine].
Qed.

(** *** Opening without a page for the resource *)
Lemma install_without_page s c fd kind h :
  free_list (memory_pages (machine s)) = [] → heap (kernel (machine s)) !! cur (kernel (machine s)) = Some c →
  0 ≤ fd < Z.of_nat (length (files c)) →
  ∃ s', install fd kind h s = Done (tt, s') ∧ descriptor s' (cur (kernel (machine s))) (Z.to_nat fd) 0.
Proof.
  intros Hf Hc Hfd. unfold install.
  assert (new_page s = Done (0, s)) as E1.
  { unfold new_page, on_machine, allocate_kernel_page. rewrite (bind_done _ _ _ 0 (machine s)) by (by rewrite get_free_page_run, Hf).
    cbn. by destruct s. }
  rewrite (bind_done _ _ _ _ _ E1), (bind_done _ _ _ _ _ (current_run s)).
  pose proof (set_file_run (kernel (machine s)) (cur (kernel (machine s))) c fd (Some 0) Hc Hfd) as E2.
  erewrite bind_done by (unfold on_os, on_machine, on_kernel; rewrite E2; reflexivity).
  eexists. split; [reflexivity|]. eexists. split; [cbn; by rewrite lookup_insert_eq|]. cbn [files with_files].
  apply list_lookup_insert_eq. lia.
Qed.

Lemma open_one_page s c i j path fl f t :
  heap (kernel (machine s)) !! cur (kernel (machine s)) = Some c → length (files c) = Z.to_nat MAX_FILES_PER_PROCESS →
  first_free c = Some i → free_list (memory_pages (machine s)) = [j] →
  Filesystem.open_file path fl (blank_file, fsys s) = Done (inr tt, (f, t)) →
  ∃ s', syscall_open_file path fl s = Done (Z.of_nat i, s') ∧ ¬ typed s'.
Proof.
  intros Hc Hl Hi Hfree Hopen. pose proof (first_descriptor_run s c Hc Hl) as Hfd. rewrite Hi in Hfd.
  pose proof (first_free_lookup c i Hi) as [_ Hlt].
  set (s2 := mk_OS (take_page j (machine s)) t (resources s) (<[kva j := f]> (<[kva j := blank_file]> (open_files s))) (open_dirs s)).
  assert (syscall_open_file path fl s = (install (Z.of_nat i) RESOURCE_TYPE_FILE (Some (kva j));; mret (Z.of_nat i)) s2) as E.
  { unfold syscall_open_file. rewrite (bind_done _ _ _ _ _ (current_run s)), (bind_done _ _ _ _ _ Hfd).
    rewrite (proj2 (Z.eqb_neq _ _)) by lia.
    assert (new_file s = Done (kva j, mk_OS (take_page j (machine s)) (fsys s) (resources s) (<[kva j := blank_file]> (open_files s)) (open_dirs s))) as E1
      by (unfold new_file; by rewrite (bind_done _ _ _ _ _ (new_page_run s j _ Hfree))).
    rewrite (bind_done _ _ _ _ _ E1).
    erewrite bind_done by (unfold on_file; cbn [open_files fsys]; rewrite lookup_insert_eq, Hopen; reflexivity). done. }
  assert (free_list (memory_pages (machine s2)) = []) as Hfree2 by exact (free_list_take _ _ _ Hfree).
  destruct (install_without_page s2 c (Z.of_nat i) RESOURCE_TYPE_FILE (Some (kva j)) Hfree2 Hc ltac:(lia)) as (s3 & E3 & Hd).
  exists s3. rewrite E, (bind_done _ _ _ _ _ E3). split; [done|]. intros Ht.
  destruct (ty_used _ _ Ht _ _ Resource 0 I (owns_resource _ _ _ _ Hd)) as (k & Hk & Hp & _). mm_consts. lia.
Qed.


(** With no descriptor set and no memory, a state is well typed. *)
Lemma typed_start s : (∀ a c, heap (kernel (machine s)) !! a = Some c → bare c) → typed s.
Proof.
  intros H. assert (∀ a i k q, ¬ owns s a i k q) as Hn.
  { intros a i k q [p (c & Hc & Hp)|p r h (c & Hc & Hp) _ _|u (c & Hc & Hu & H0)].
    - by destruct (proj1 (H a c Hc) _ _ Hp).
    - by destruct (proj1 (H a c Hc) _ _ Hp).
    - by destruct (H0 (proj2 (H a c Hc) _ _ Hu)). }
  split.
  - intros a i k q _ Ho. by destruct (Hn _ _ _ _ Ho).
  - intros a i k a' i' k' q _ _ Ho. by destruct (Hn _ _ _ _ Ho).
  - intros a fd p _ Hp. by destruct (Hn _ _ _ _ (owns_resource _ _ _ _ Hp)).
Qed.
End descriptors.

(** ** A run from the boot of the card's kernel *)
Lemma card_kernel_typed : typed (card_kernel 3000).
Proof.
  assert (map_Forall (λ _ c, files c = no_files ∧ Forall (λ u, physical_address u = 0) (user_pages (mm c))) (heap (demo_run FCFS))) as H
    by (apply (bool_decide_unpack _); vm_compute; exact I).
  apply typed_start. intros a c Hc. destruct (H a c Hc) as [Hf Hm]. split.
  - intros fd p. rewrite Hf. exact (proj1 bare_zero fd p).
  - intros i u Hu. exact (proj1 (Forall_lookup _ _) Hm i u Hu).
Qed.

(** The frame of a call of open_file, and the name it passes. *)
Definition call_frame : Z := VA_START + 0x8000.
Definition call_path : Z := VA_START + 0x9000.
Definition call_memory : mem :=
  store64 (call_frame + 8 * 8) 5 (store64 (call_frame + 8 * 1) FAT_READ (store64 (call_frame + 8 * 0) call_path
    (foldr (λ p m, put_byte (call_path + Z.of_nat p.1) p.2 m) ∅ (zip (seq 0 7) (hi_name ++ [0]))))).

Definition calling_card : OS (Sd Emmc) := os_with (with_ram call_memory (machine (card_kernel 3000))) (card_kernel 3000).

#[local] Transparent store_le load_le byte_at put_byte.
Lemma call_memory_path k :
  read_string call_path (machine_with k ∅ call_memory) = Done (hi_name, machine_with k ∅ call_memory).
Proof. vm_compute. reflexivity. Qed.

Lemma call_memory_words :
  load64 (call_frame + 8 * 8) call_memory = 5 ∧ load64 (call_frame + 8 * 0) call_memory = call_path ∧
  u8 (load64 (call_frame + 8 * 1) call_memory) = FAT_READ.
Proof. vm_compute. split; [reflexivity|split; reflexivity]. Qed.
#[local] Opaque store_le load_le byte_at put_byte.
#[local] Opaque demo_run call_memory read_string.

(** The process that runs opens the file through the dispatcher. *)
Lemma calling_card_opens : ∃ s', syscall_dispatcher 0x80000 [] call_frame calling_card = Done (Returns 0, s').
Proof.
  destruct card_running as (c & Hc & Hf). destruct all_free as [l Hl].
  assert (first_free c = Some 0%nat) as Hfirst by (unfold first_free; by rewrite Hf).
  destruct hi_opens as (f & t & E).
  pose proof (open_file_run calling_card c hi_name FAT_READ Hc ltac:(by rewrite Hf)) as H. rewrite Hfirst in H.
  destruct (H 0 1 l (inr tt) f t Hl E) as (v & s' & Es & _ & -> & _). clear H.
  destruct call_memory_words as (W8 & W0 & W1).
  assert (∀ i, register call_frame i calling_card = Done (load64 (call_frame + 8 * i) call_memory, calling_card)) as Er by (intros i; reflexivity).
  assert (on_machine (read_string call_path) calling_card = Done (hi_name, calling_card)) as Ep.
  { unfold on_machine. change (machine calling_card) with (machine_with (demo_run FCFS) ∅ call_memory). by rewrite call_memory_path. }
  eexists. unfold syscall_dispatcher. rewrite (bind_done _ _ _ _ _ (Er 8)), W8. change (SYSCALLS_NUMBER <? 5) with false. cbv iota.
  rewrite (bind_done _ _ _ _ _ (Er 0)), (bind_done _ _ _ _ _ (Er 1)), (bind_done _ _ _ _ _ (Er 2)), (bind_done _ _ _ _ _ (Er 3)), W0.
  unfold dispatch. rewrite bind_assoc, (bind_done _ _ _ _ _ Ep), bind_assoc, W1, (bind_done _ _ _ _ _ Es), bind_ret. reflexivity.
Qed.

(** Every page but the first is in use. *)
Definition one_page : gmap Z Z := gset_to_gmap 1 (list_to_set (seqZ 1 (N_PAGES - 1))).
Definition full_kernel : OS (Sd Emmc) := mk_OS (machine_with (demo_run FCFS) one_page ∅) (card_sys 3000) ∅ ∅ ∅.

Lemma all_but_first n : 0 < n →
  filter (λ i, page_used (gset_to_gmap 1 (list_to_set (seqZ 1 (n - 1)))) i = 0) (seqZ 0 n) = [0].
Proof.
  intros Hn. set (pages := gset_to_gmap 1 (list_to_set (seqZ 1 (n - 1)))).
  assert (∀ i, 1 ≤ i < n → page_used pages i = 1) as Hu.
  { intros i Hi. rewrite page_used_lookup. unfold pages. rewrite (proj2 (lookup_gset_to_gmap_Some 1 _ i 1)); [done|].
    split; [|done]. apply elem_of_list_to_set, elem_of_seqZ. lia. }
  assert (page_used pages 0 = 0) as H0.
  { rewrite page_used_lookup. unfold pages. rewrite (proj2 (lookup_gset_to_gmap_None 1 _ 0)); [done|].
    intros [H _]%elem_of_list_to_set%elem_of_seqZ. lia. }
  clearbody pages. rewrite MmSpec.first_free, decide_True by done. f_equal. apply filter_none.
  intros i Hi%elem_of_seqZ. rewrite Hu by lia. done.
Qed.

Lemma one_page_free : free_list one_page = [0].
Proof. rewrite free_list_filter. unfold one_page. rewrite N_PAGES_value. by apply all_but_first. Qed.

