(* ===== verification/Shell.v ===== *)
(** * The shell: app/shell.c

    The user's program: its memory ([mem], with the string functions of CString.v)
    and the system calls it makes, which are the interface [Services] over the rest
    of the machine.  A call's arrays are taken from a stack that grows upwards, in
    the order of their declarations, and given back when it returns; string
    literals are put in memory where they are used.  A call answers whether the
    process goes on: exec that succeeds replaces the program and exit ends it. *)
From stdpp Require Import base gmap list strings.
From Stdlib Require Import ZArith Lia.
From S2P Require Import Prelude Mem CString.

#[local] Open Scope Z_scope.

(** ** System calls *)

(** What call_syscall_... answers, strings and buffers being lists of bytes:
    [sys_input] the bytes stored in the buffer, [sys_get_next_entry] the result and,
    where an entry was stored, its name and kind, [sys_read_file] the error, the
    bytes stored and their number.  [sys_exec] answers only when it fails. *)
Class Services (W : Type) := {
  sys_write : list Z → W → W;
  sys_write_hex : Z → W → W;
  sys_input : Z → W → list Z * W;
  sys_create_dir : list Z → W → Z * W;
  sys_open_dir : list Z → W → Z * W;
  sys_open_file : list Z → Z → W → Z * W;
  sys_close_file : Z → W → Z * W;
  sys_write_file : Z → list Z → W → Z * W;
  sys_read_file : Z → Z → W → Z * list Z * W;
  sys_get_next_entry : Z → W → Z * option (list Z * bool) * W;
  sys_fork : W → Z * W;
  sys_exec : list Z → list (list Z) → W → option Z * W;
  sys_wait : Z → W → Z * W;
  sys_exit : W → W
}.

Definition MAX_COMMAND_DIMENSION : Z := 64.
Definition MAX_FILE_DIMENSION : Z := 256.
Definition MAX_EXEC_ARGUMENTS : Z := 4.
Definition FAT_MAX_NAME_SIZE : Z := 64.
Definition SYSCALL_EXEC_ARGUMENT_DIMENSION : Z := 64.
Definition FAT_WRITE : Z := 1.
Definition FAT_READ : Z := 2.
Definition FAT_CREATE : Z := 16.

Definition chars (s : string) : list Z := Z.of_nat ∘ Ascii.nat_of_ascii <$> String.list_ascii_of_string s.
Definition NL : string := String (Ascii.ascii_of_nat 10) EmptyString.
Definition ESC : string := String (Ascii.ascii_of_nat 27) EmptyString.
Definition UART_GREEN_COLOR : string := ESC +:+ "[32m".
Definition UART_BLUE_COLOR : string := ESC +:+ "[34m".
Definition UART_WHITE_COLOR : string := ESC +:+ "[37m".
Definition UART_CLEAR_SCREEN : string := ESC +:+ "[1;1H" +:+ ESC +:+ "[2J".

(** Characters the code tests: space, dot, slash. *)
Definition SP : Z := 32.
Definition DOT : Z := 46.
Definition SLASH : Z := 47.

(** ** normalize_path *)

(** [while (write > 0 && path[write - 1] != '/') write--;] *)
Fixpoint back_loop (n : nat) (path write : Z) : M mem Z :=
  match n with
  | O => mret write
  | S n =>
    if 0 <? write then
      c ← getc (path + (write - 1));
      if negb (c =? SLASH) then back_loop n path (write - 1) else mret write
    else mret write
  end.

Fixpoint normalize_loop (fuel : nat) (path read write : Z) : M mem Z :=
  match fuel with
  | O => fail_with OutOfFuel
  | S fuel =>
    c ← getc (path + read);
    if c =? 0 then mret write else
    c1 ← getc (path + (read + 1));
    if (c =? DOT) && ((c1 =? SLASH) || (c1 =? 0)) then
      normalize_loop fuel path (read + (if c1 =? SLASH then 2 else 1)) write
    else
      c2 ← getc (path + (read + 2));
      if (c =? DOT) && (c1 =? DOT) && ((c2 =? SLASH) || (c2 =? 0)) then
        write ← back_loop (Z.to_nat (write - 1)) path (write - 1);
        normalize_loop fuel path (read + (if c2 =? SLASH then 3 else 2)) write
      else
        putc (path + write) c;;
        normalize_loop fuel path (read + 1) (write + 1)
  end.

Definition normalize_path (path : Z) : M mem unit :=
  fuel ← gets string_fuel;
  write ← normalize_loop fuel path 0 0;
  putc (path + write) 0;;
  if write =? 0 then putc (path + write) SLASH;; putc (path + (write + 1)) 0 else mret tt.

(** ** The program's state *)
Record Shell (W : Type) : Type := mk_Shell { sh_mem : mem; sh_sp : Z; sh_world : W }.
Arguments mk_Shell {W}. Arguments sh_mem {W}. Arguments sh_sp {W}. Arguments sh_world {W}.

Section shell.
Context {W : Type} `{!Services W}.

Abbreviation P := (M (Shell W)) (only parsing).

Definition on_mem {A} (m : M mem A) : P A := λ s,
  match m (sh_mem s) with
  | Done (a, r) => Done (a, mk_Shell r (sh_sp s) (sh_world s))
  | Fault e => Fault e
  end.
Definition set_mem (f : mem → mem) : P unit := modify (λ s, mk_Shell (f (sh_mem s)) (sh_sp s) (sh_world s)).
Definition service {A} (f : W → A * W) : P A := λ s,
  let '(a, w) := f (sh_world s) in Done (a, mk_Shell (sh_mem s) (sh_sp s) w).

(** An array of [n] bytes of the frame, and a call that gives its arrays back. *)
Definition local (n : Z) : P Z := λ s, Done (sh_sp s, mk_Shell (sh_mem s) (sh_sp s + n) (sh_world s)).
Definition call {A} (m : P A) : P A := λ s,
  match m s with
  | Done (a, s') => Done (a, mk_Shell (sh_mem s') (sh_sp s) (sh_world s'))
  | Fault e => Fault e
  end.

Definition literal (t : string) : P Z :=
  a ← local (Z.of_nat (length (chars t)) + 1); set_mem (write_bytes a (chars t ++ [0]));; mret a.

(** The string at an address, as the kernel reads it. *)
Fixpoint string_at (fuel : nat) (a : Z) : M mem (list Z) :=
  match fuel with
  | O => fail_with OutOfFuel
  | S fuel =>
    c ← getc a; if c =? 0 then mret [] else l ← string_at fuel (a + 1); mret (c :: l)
  end.
Definition str (a : Z) : P (list Z) := on_mem (fuel ← gets string_fuel; string_at fuel a).
Fixpoint bytes_of (n : nat) (a : Z) : M mem (list Z) :=
  match n with O => mret [] | S n => c ← getc a; l ← bytes_of n (a + 1); mret (c :: l) end.

(** call_syscall_write of an array, and of a literal. *)
Definition write_str (a : Z) : P unit := l ← str a; service (λ w, (tt, sys_write l w)).
Definition say (t : string) : P unit := service (λ w, (tt, sys_write (chars t) w)).

(** A zeroed array: its declaration and [memzero(a, n)]. *)
Definition zeroed (n : Z) : P Z := a ← local n; set_mem (memzero a n);; mret a.

Definition begins (buffer : Z) (word : string) (n : Z) : P bool :=
  w ← literal word;
  m ← gets sh_mem;
  mret (memcmp buffer w n m =? 0).

Definition char_at (a : Z) : P Z := on_mem (getc a).
Definition set_char (a v : Z) : P unit := on_mem (putc a v).
Definition open_dir (path : Z) : P Z := l ← str path; service (sys_open_dir l).
Definition is_negative_one (fd : Z) : bool := fd =? -1.

(** "message 'path'.\n" *)
Definition complain (message : string) (path : Z) : P unit :=
  say message;; write_str path;; say ("'." +:+ NL).

(** ** Commands *)
Definition handle_help : P unit :=
  say ("[demoos shell]" +:+ NL);;
  say ("Available commands:" +:+ NL);;
  say ("  help       - Show this help message" +:+ NL);;
  say ("  pwd        - Show the current working directory" +:+ NL);;
  say ("  ls         - Show content of the current folder" +:+ NL);;
  say ("  tree       - Show directory tree" +:+ NL);;
  say ("  mkdir      - Create a directory in the working directory" +:+ NL);;
  say ("  write      - Creates a file and writes the given content in it" +:+ NL);;
  say ("  show       - Shows the content of the given file" +:+ NL);;
  say ("  clear      - Clears the screen" +:+ NL);;
  say ("  exec       - Forks the current process and launches a new one from the file system, given its path" +:+ NL);;
  say ("  any        - If '/bin/any.bin' is a file, launches it as a new process" +:+ NL).

(** The name of the FatEntryInfo is cleared, and filled by the call. *)
Definition next_entry (fd name : Z) : P (Z * bool) :=
  set_mem (memzero name FAT_MAX_NAME_SIZE);;
  r ← service (sys_get_next_entry fd);
  match r.2 with
  | Some (nm, is_dir) => set_mem (write_bytes name nm);; mret (r.1, is_dir)
  | None => mret (r.1, false)
  end.

(** The loop of handle_ls. *)
Fixpoint ls_loop (fuel : nat) (fd name : Z) : P unit :=
  match fuel with
  | O => fail_with OutOfFuel
  | S fuel =>
    r ← next_entry fd name;
    if negb (r.1 =? 0) then mret tt else
    (if (r.2 : bool) then say UART_BLUE_COLOR;; write_str name;; say (ESC +:+ "[0m") else write_str name);;
    say NL;;
    ls_loop fuel fd name
  end.

Definition handle_ls (fuel : nat) (working_directory : Z) : P unit := call (
  fd ← open_dir working_directory;
  if is_negative_one fd then complain "[SHELL] Error opening folder '" working_directory else
  name ← local FAT_MAX_NAME_SIZE;
  ls_loop fuel fd name;;
  say NL).

Definition handle_pwd (working_directory : Z) : P unit := write_str working_directory;; say NL.

Definition handle_mkdir (buffer working_directory : Z) : P unit := call (
  command ← zeroed MAX_COMMAND_DIMENSION;
  dir_name ← zeroed MAX_COMMAND_DIMENSION;
  on_mem (strsplit buffer SP command dir_name);;
  c ← char_at dir_name;
  if c =? 0 then say ("[SHELL] Error: please specify the directory name." +:+ NL) else
  temp ← zeroed MAX_COMMAND_DIMENSION;
  len ← on_mem (strlen working_directory);
  if len <? MAX_COMMAND_DIMENSION then
    on_mem (strcat temp working_directory);;
    c ← char_at dir_name;
    (if negb (c =? SLASH) then slash ← literal "/"; on_mem (strcat temp slash);; mret tt else mret tt);;
    on_mem (strcat temp dir_name);;
    path ← str temp;
    fd ← service (sys_create_dir path);
    if is_negative_one fd then complain "[SHELL] Cannot create '" temp else mret tt
  else say ("[SHELL] Error: working directory string is too big." +:+ NL)).

(** The path of cd and show: [destination] itself when it is absolute, or after the
    working directory. *)
Definition join (temp working_directory destination : Z) : P unit :=
  c ← char_at destination;
  if c =? SLASH then set_mem (memcpy temp destination MAX_COMMAND_DIMENSION) else
  set_mem (memcpy temp working_directory MAX_COMMAND_DIMENSION);;
  len ← on_mem (strlen temp);
  c ← char_at (temp + (len - 1));
  (if (2 <? len) && negb (c =? SLASH) then
     set_char (temp + len) SLASH;; set_char (temp + (len + 1)) 0
   else mret tt);;
  on_mem (strcat temp destination);; mret tt.

Definition handle_cd (buffer working_directory : Z) : P unit := call (
  command ← zeroed MAX_COMMAND_DIMENSION;
  destination ← zeroed MAX_COMMAND_DIMENSION;
  temp ← zeroed MAX_COMMAND_DIMENSION;
  on_mem (strsplit buffer SP command destination);;
  destination_len ← on_mem (strlen destination);
  c ← char_at (destination + (destination_len - 1));
  (if negb (c =? SLASH) then slash ← literal "/"; on_mem (strcat destination slash);; mret tt else mret tt);;
  join temp working_directory destination;;
  on_mem (normalize_path temp);;
  fd ← open_dir temp;
  if is_negative_one fd then complain "[SHELL] Error: cannot change directory to '" temp
  else set_mem (memcpy working_directory temp MAX_COMMAND_DIMENSION)).

Definition handle_show (buffer working_directory : Z) : P unit := call (
  command ← zeroed MAX_COMMAND_DIMENSION;
  destination ← zeroed MAX_COMMAND_DIMENSION;
  temp ← zeroed MAX_COMMAND_DIMENSION;
  on_mem (strsplit buffer SP command destination);;
  join temp working_directory destination;;
  on_mem (normalize_path temp);;
  path ← str temp;
  fd ← service (sys_open_file path FAT_READ);
  (if is_negative_one fd then complain "[SHELL] Cannot open '" temp else mret tt);;
  if -1 <? fd then
    file_content ← local MAX_FILE_DIMENSION;
    set_mem (memzero file_content MAX_COMMAND_DIMENSION);;
    r ← service (sys_read_file fd MAX_FILE_DIMENSION);
    set_mem (write_bytes file_content r.2);;
    (if negb (r.1 =? 0) then complain "[SHELL] Cannot read '" temp
     else write_str file_content;; say NL);;
    service (sys_close_file fd);; mret tt
  else mret tt).

(** ** tree *)

(** [for (i = 0; i < depth; i++) call_syscall_write("   ");] *)
Fixpoint indent (n : nat) : P unit := match n with O => mret tt | S n => say "   ";; indent n end.

(** The path of an entry that is a directory. *)
Definition child_of (path name : Z) : P Z :=
  child_path ← zeroed MAX_COMMAND_DIMENSION;
  on_mem (strcpy child_path path);;
  len ← on_mem (strlen child_path);
  c ← char_at (child_path + (len - 1));
  (if negb (c =? SLASH) then slash ← literal "/"; on_mem (strcat child_path slash);; mret tt else mret tt);;
  on_mem (strcat child_path name);;
  on_mem (normalize_path child_path);;
  mret child_path.

(** The loop of print_tree; [sub] is the call of print_tree it makes. *)
Fixpoint tree_loop (fuel : nat) (sub : Z → P unit) (path : Z) (depth : nat) (fd name : Z) : P unit :=
  match fuel with
  | O => fail_with OutOfFuel
  | S fuel =>
    r ← next_entry fd name;
    if negb (r.1 =? 1) then mret tt else
    dot ← begins name "." 2;
    dots ← begins name ".." 3;
    if (dot : bool) || (dots : bool) then tree_loop fuel sub path depth fd name else
    indent depth;;
    (if (r.2 : bool) then
       say UART_BLUE_COLOR;; write_str name;; say ("/" +:+ ESC +:+ "[0m" +:+ NL)
     else write_str name;; say NL);;
    (if (r.2 : bool) then child_path ← child_of path name; sub child_path else mret tt);;
    tree_loop fuel sub path depth fd name
  end.

Fixpoint print_tree (fuel : nat) (path : Z) (depth : nat) : P unit :=
  match fuel with
  | O => fail_with OutOfFuel
  | S fuel => call (
    fd ← open_dir path;
    if is_negative_one fd then mret tt else
    name ← local FAT_MAX_NAME_SIZE;
    tree_loop fuel (λ child, print_tree fuel child (S depth)) path depth fd name)
  end.

Definition handle_tree (fuel : nat) (buffer working_directory : Z) : P unit := call (
  command ← zeroed MAX_COMMAND_DIMENSION;
  target ← zeroed MAX_COMMAND_DIMENSION;
  fullpath ← zeroed MAX_COMMAND_DIMENSION;
  on_mem (strsplit buffer SP command target);;
  c ← char_at target;
  (if c =? 0 then set_mem (memcpy fullpath working_directory MAX_COMMAND_DIMENSION)
   else if c =? SLASH then set_mem (memcpy fullpath target MAX_COMMAND_DIMENSION)
   else
     set_mem (memcpy fullpath working_directory MAX_COMMAND_DIMENSION);;
     len ← on_mem (strlen fullpath);
     c ← char_at (fullpath + (len - 1));
     (if (1 <? len) && negb (c =? SLASH) then slash ← literal "/"; on_mem (strcat fullpath slash);; mret tt else mret tt);;
     on_mem (strcat fullpath target);; mret tt);;
  on_mem (normalize_path fullpath);;
  fd ← open_dir fullpath;
  if is_negative_one fd then complain "[SHELL] Error: cannot open directory '" fullpath else
  write_str fullpath;; say NL;;
  print_tree fuel fullpath 0).

(** ** write *)

(** [while ( *p != '\0' && (sp || *p != ' ')) { dest[i] = *p; p++; i++; }], [sp] being
    whether a space is kept: the pointer and [i]. *)
Fixpoint copy_word (fuel : nat) (sp : bool) (p dest i : Z) : M mem (Z * Z) :=
  match fuel with
  | O => fail_with OutOfFuel
  | S fuel =>
    c ← getc p;
    if negb (c =? 0) && (sp || negb (c =? SP)) then
      putc (dest + i) c;; copy_word fuel sp (p + 1) dest (i + 1)
    else mret (p, i)
  end.

(** [while ( *p != '\0' && *p != ' ') p++;] *)
Fixpoint skip_word (fuel : nat) (p : Z) : M mem Z :=
  match fuel with
  | O => fail_with OutOfFuel
  | S fuel => c ← getc p; if negb (c =? 0) && negb (c =? SP) then skip_word fuel (p + 1) else mret p
  end.

Definition handle_write (buffer working_directory : Z) : P unit := call (
  file_name ← zeroed MAX_COMMAND_DIMENSION;
  file_content ← zeroed MAX_COMMAND_DIMENSION;
  p ← on_mem (fuel ← gets string_fuel; skip_word fuel buffer);
  r ← on_mem (fuel ← gets string_fuel; copy_word fuel false (p + 1) file_name 0);
  set_char (file_name + r.2) 0;;
  r ← on_mem (fuel ← gets string_fuel; copy_word fuel true (r.1 + 1) file_content 0);
  let i := r.2 in
  set_char (file_content + i) 0;;
  file_path ← zeroed MAX_COMMAND_DIMENSION;
  n1 ← on_mem (strlen working_directory);
  n2 ← on_mem (strlen file_name);
  (if n1 + n2 <? MAX_COMMAND_DIMENSION then
     on_mem (strcat file_path working_directory);; on_mem (strcat file_path file_name);; mret tt
   else say ("[SHELL] Error: file path is too big" +:+ NL));;
  path ← str file_path;
  fd ← service (sys_open_file path (Z.lor FAT_CREATE FAT_WRITE));
  (if is_negative_one fd then complain "[SHELL] Error: cannot open file '" file_path else mret tt);;
  (if negb (is_negative_one fd) && (0 <? i) then
     content ← on_mem (bytes_of (Z.to_nat MAX_FILE_DIMENSION) file_content);
     error ← service (sys_write_file fd content);
     if negb (error =? 0) then complain "[SHELL] Error: cannot write on file '" file_path else mret tt
   else mret tt);;
  service (sys_close_file fd);; mret tt).

(** ** exec *)

(** The parent's side of both: waiting for the child. *)
Definition wait_child (pid : Z) : P bool :=
  ok ← service (sys_wait pid);
  (if negb (ok =? 0) then
     say "[SHELL] Cannot find process '";; service (λ w, (tt, sys_write_hex pid w));; say ("'" +:+ NL)
   else mret tt);;
  mret true.

Definition exit_shell : P bool := service (λ w, (false, sys_exit w)).

(** A call of exec that came back without an error would leave the child printing
    for ever: [OutOfFuel]. *)
Definition handle_exec (buffer working_directory : Z) : P bool := call (
  command ← zeroed MAX_COMMAND_DIMENSION;
  path ← zeroed MAX_COMMAND_DIMENSION;
  on_mem (strsplit buffer SP command path);;
  n ← on_mem (strlen path);
  if n =? 0 then say ("[SHELL] Please specify the path of the new program to execute." +:+ NL);; mret true else
  complete_path ← zeroed MAX_COMMAND_DIMENSION;
  n1 ← on_mem (strlen working_directory);
  n2 ← on_mem (strlen path);
  if MAX_COMMAND_DIMENSION <=? n1 + n2 then say ("[SHELL] Path is too long." +:+ NL);; mret true else
  on_mem (strcat complete_path working_directory);;
  on_mem (strcat complete_path path);;
  on_mem (normalize_path complete_path);;
  pid ← service sys_fork;
  if pid =? 0 then
    say ("[SON] I am the son." +:+ NL);;
    file ← str complete_path;
    error ← service (sys_exec file []);
    match error with
    | None => mret false
    | Some e =>
      if negb (e =? 0) then say ("[SON] Error running new process." +:+ NL);; exit_shell
      else fail_with OutOfFuel
    end
  else wait_child pid).

(** [while (strlen(arguments_raw) > 0 && n_arguments < MAX_EXEC_ARGUMENTS)], for [n]
    more arguments. *)
Fixpoint argument_loop (n : nat) (arguments_raw arguments n_arguments : Z) : P Z :=
  len ← on_mem (strlen arguments_raw);
  if negb (0 <? len) then mret n_arguments else
  match n with
  | O => mret n_arguments
  | S n =>
    call (
      temp ← zeroed SYSCALL_EXEC_ARGUMENT_DIMENSION;
      on_mem (strsplit arguments_raw SP (arguments + SYSCALL_EXEC_ARGUMENT_DIMENSION * n_arguments) temp);;
      on_mem (strcpy arguments_raw temp));;
    argument_loop n arguments_raw arguments (n_arguments + 1)
  end.

(** The arguments as the call reads them: [n] arrays from the [i]-th on. *)
Fixpoint arguments_of (n : nat) (arguments i : Z) : M mem (list (list Z)) :=
  match n with
  | O => mret []
  | S n =>
    a ← bytes_of (Z.to_nat SYSCALL_EXEC_ARGUMENT_DIMENSION) (arguments + SYSCALL_EXEC_ARGUMENT_DIMENSION * i);
    l ← arguments_of n arguments (i + 1);
    mret (a :: l)
  end.

Definition handle_exec_from_bin (buffer : Z) : P bool := call (
  file_name ← zeroed MAX_COMMAND_DIMENSION;
  arguments_raw ← zeroed MAX_COMMAND_DIMENSION;
  on_mem (strsplit buffer SP file_name arguments_raw);;
  complete_path ← zeroed MAX_COMMAND_DIMENSION;
  bin ← literal "/bin/";
  ext ← literal ".bin";
  n1 ← on_mem (strlen bin);
  n2 ← on_mem (strlen file_name);
  n3 ← on_mem (strlen ext);
  if MAX_COMMAND_DIMENSION <=? n1 + n2 + n3 then say ("[SHELL] Path is too long." +:+ NL);; mret true else
  on_mem (strcat complete_path bin);;
  on_mem (strcat complete_path file_name);;
  on_mem (strcat complete_path ext);;
  on_mem (normalize_path complete_path);;
  arguments ← local (MAX_EXEC_ARGUMENTS * SYSCALL_EXEC_ARGUMENT_DIMENSION);
  set_mem (memzero arguments (MAX_EXEC_ARGUMENTS * MAX_COMMAND_DIMENSION));;
  n_arguments ← argument_loop (Z.to_nat MAX_EXEC_ARGUMENTS) arguments_raw arguments 0;
  pid ← service sys_fork;
  if pid =? 0 then
    file ← str complete_path;
    args ← on_mem (arguments_of (Z.to_nat n_arguments) arguments 0);
    error ← service (sys_exec file args);
    match error with
    | None => mret false
    | Some e =>
      (if negb (e =? 0) then
         say "[SHELL] Cannot find '";; write_str file_name;; say ("' binary file." +:+ NL)
       else mret tt);;
      exit_shell
    end
  else wait_child pid).

(** ** The loop *)

(** The command a line starts with. *)
Definition run_command (fuel : nat) (buffer working_directory : Z) : P bool :=
  b ← begins buffer "help" 4;
  if (b : bool) then handle_help;; mret true else
  b ← begins buffer "ls" 2;
  if (b : bool) then handle_ls fuel working_directory;; mret true else
  b ← begins buffer "pwd" 3;
  if (b : bool) then handle_pwd working_directory;; mret true else
  b ← begins buffer "mkdir" 5;
  if (b : bool) then handle_mkdir buffer working_directory;; mret true else
  b ← begins buffer "cd" 2;
  if (b : bool) then handle_cd buffer working_directory;; mret true else
  b ← begins buffer "tree" 4;
  if (b : bool) then handle_tree fuel buffer working_directory;; mret true else
  b ← begins buffer "clear" 5;
  if (b : bool) then say UART_CLEAR_SCREEN;; mret true else
  b ← begins buffer "write" 5;
  if (b : bool) then handle_write buffer working_directory;; mret true else
  b ← begins buffer "show" 4;
  if (b : bool) then handle_show buffer working_directory;; mret true else
  b ← begins buffer "exec" 4;
  if (b : bool) then handle_exec buffer working_directory else
  handle_exec_from_bin buffer.

(** One turn of [while (1)]: whether the process goes on. *)
Definition shell_turn (fuel : nat) (working_directory : Z) : P bool := call (
  say UART_GREEN_COLOR;;
  say "demoos:";;
  say UART_BLUE_COLOR;;
  write_str working_directory;;
  say UART_WHITE_COLOR;;
  say "$ ";;
  buffer ← zeroed MAX_COMMAND_DIMENSION;
  line ← service (sys_input MAX_COMMAND_DIMENSION);
  set_mem (write_bytes buffer line);;
  say NL;;
  n ← on_mem (strlen buffer);
  if n =? 0 then mret true else run_command fuel buffer working_directory).

Definition ascii_art : list string := [
  "▄▄▄▄▄▄                          ▄▄▄▄▄    ▄▄▄▄▄▄▄ ";
  "███▀▀██▄                      ▄███████▄ █████▀▀▀ ";
  "███  ███ ▄█▀█▄ ███▄███▄ ▄███▄ ███   ███  ▀████▄  ";
  "███  ███ ██▄█▀ ██ ██ ██ ██ ██ ███▄▄▄███    ▀████ ";
  "██████▀  ▀█▄▄▄ ██ ██ ██ ▀███▀  ▀█████▀  ███████▀ "].

Fixpoint shell_loop (turns fuel : nat) (working_directory : Z) : P bool :=
  match turns with
  | O => mret true
  | S turns =>
    b ← shell_turn fuel working_directory;
    if (b : bool) then shell_loop turns fuel working_directory else mret false
  end.

Fixpoint say_lines (l : list string) : P unit :=
  match l with [] => mret tt | t :: l => say t;; say NL;; say_lines l end.

(** The array of the program, the banner, and [turns] turns of the loop. *)
Definition shell (turns fuel : nat) : P bool :=
  working_directory ← local MAX_COMMAND_DIMENSION;
  set_mem (write_bytes working_directory (SLASH :: replicate (Z.to_nat (MAX_COMMAND_DIMENSION - 1)) 0));;
  say UART_GREEN_COLOR;;
  say_lines ascii_art;;
  say UART_WHITE_COLOR;;
  say NL;;
  shell_loop turns fuel working_directory.
End shell.
