(* ===== verification/ShellPath.v ===== *)
(** * The paths of the shell: normalize_path against a reference definition

    normalize_path works in place, character by character, with two indexes.  Here
    it is a function on lists ([norm]), and that function computes the components
    of the path ([resolve]). *)
From stdpp Require Import base gmap list strings.
From Stdlib Require Import ZArith Lia.
From S2P Require Import Prelude Mem CString Shell.

#[local] Open Scope Z_scope.

(** ** The function on lists *)

(** What [while (write > 0 && path[write - 1] != '/') write--] leaves, for the
    characters written so far in reverse. *)
Fixpoint cut (l : list Z) : list Z :=
  match l with [] => [] | x :: t => if x =? SLASH then l else cut t end.

(** [write--] and the loop: [None] when nothing is written, where write becomes -1. *)
Definition back (out : list Z) : option (list Z) :=
  match reverse out with [] => None | _ :: t => Some (reverse (cut t)) end.

Fixpoint norm (out rest : list Z) : option (list Z) :=
  match rest with
  | [] => Some out
  | c :: r =>
    if c =? DOT then
      match r with
      | [] => Some out
      | c1 :: r1 =>
        if c1 =? SLASH then norm out r1
        else if c1 =? DOT then
          match r1 with
          | [] => back out
          | c2 :: r2 => if c2 =? SLASH then match back out with Some o => norm o r2 | None => None end else norm (out ++ [c]) r
          end
        else norm (out ++ [c]) r
      end
    else norm (out ++ [c]) r
  end.

(** ** normalize_path computes it *)
Lemma back_loop_run m a t :
  bytes_at m a (reverse t) → back_loop (length t) a (Z.of_nat (length t)) m = Done (Z.of_nat (length (cut t)), m).
Proof.
  induction t as [|x t IH]; intros Hb; [done|]. cbn [length back_loop cut].
  rewrite (proj2 (Z.ltb_lt 0 _)) by lia. rewrite reverse_cons in Hb. apply bytes_at_app in Hb as [Hb [Hx _]].
  rewrite length_reverse in Hx. unfold getc. mrun. replace (a + (Z.of_nat (S (length t)) - 1)) with (a + Z.of_nat (length t)) by lia.
  rewrite Hx. destruct (Z.eqb_spec x SLASH) as [->|]; cbn [negb]; [done|].
  replace (Z.of_nat (S (length t)) - 1) with (Z.of_nat (length t)) by lia. by apply IH.
Qed.

Lemma cut_suffix t : ∃ p, t = p ++ cut t.
Proof.
  induction t as [|x t [p IH]]; [by exists []|]. cbn. destruct (x =? SLASH); [by exists []|]. exists (x :: p). cbn. by f_equal.
Qed.

Lemma back_run m a out o :
  bytes_at m a out → back out = Some o →
  back_loop (Z.to_nat (Z.of_nat (length out) - 1)) a (Z.of_nat (length out) - 1) m = Done (Z.of_nat (length o), m) ∧
  bytes_at m a o ∧ (length o ≤ length out)%nat.
Proof.
  unfold back. intros Hb Ho. destruct (reverse out) as [|x t] eqn:E; [done|]. injection Ho as <-.
  assert (out = reverse t ++ [x]) as -> by (by rewrite <- reverse_cons, <- E, reverse_involutive).
  apply bytes_at_app in Hb as [Hb _]. rewrite length_app, !length_reverse. cbn [length].
  replace (Z.of_nat (length t + 1) - 1) with (Z.of_nat (length t)) by lia. rewrite Nat2Z.id, (back_loop_run m a t Hb).
  split; [done|]. destruct (cut_suffix t) as [p Hp]. split.
  - rewrite Hp, reverse_app in Hb. by apply bytes_at_app in Hb as [? _].
  - assert (length t = length (p ++ cut t)) as Hl by (by f_equal). rewrite length_app in Hl. lia.
Qed.

(** What the characters after the current one are, the terminator included. *)
Lemma next_char m a x l : cstring m a (x :: l) → byte_at m (a + 1) = default 0 (head l).
Proof.
  intros (_ & _ & Hc)%cstring_cons. destruct l as [|y l]; [by apply cstring_nil|]. by apply cstring_cons in Hc as [? _].
Qed.

Lemma next_next_char m a x y l : cstring m a (x :: y :: l) → byte_at m (a + 2) = default 0 (head l).
Proof. intros (_ & _ & Hc)%cstring_cons. replace (a + 2) with (a + 1 + 1) by lia. by eapply next_char. Qed.

(** A run that leaves [o] at [a] and changes nothing from [bound] on or before [a]. *)
Definition leaves (m : gmap Z Z) (a bound : Z) (o : list Z) (r : outcome (Z * gmap Z Z)) : Prop :=
  ∃ m', r = Done (Z.of_nat (length o), m') ∧ bytes_at m' a o ∧ a + Z.of_nat (length o) ≤ bound ∧
    ∀ x, ¬ a ≤ x < bound → byte_at m' x = byte_at m x.

(** Copying a character that has been read. *)
Lemma copy_leaves m a rd out c r bound o (k : Z → Z → M (gmap Z Z) Z) :
  bytes_at m a out → cstring m (a + rd) (c :: r) → Z.of_nat (length out) ≤ rd → a + rd < bound →
  (∀ m1, bytes_at m1 a (out ++ [c]) → cstring m1 (a + (rd + 1)) r → leaves m1 a bound o (k (rd + 1) (Z.of_nat (length (out ++ [c]))) m1)) →
  leaves m a bound o ((putc (a + Z.of_nat (length out)) c;; k (rd + 1) (Z.of_nat (length out) + 1)) m).
Proof.
  intros Hout Hrest Hle Hb Hk. pose proof (cstring_cons _ _ _ _ Hrest) as (Ec & _ & Hr).
  unfold putc. mrun. set (m1 := put_byte (a + Z.of_nat (length out)) c m).
  assert (∀ x, x ≠ a + Z.of_nat (length out) → byte_at m1 x = byte_at m x) as H1 by (intros x Hx; unfold m1; by rewrite byte_at_put, decide_False).
  destruct (Hk m1) as (m' & Em & Hbo & Hl & Hx).
  - apply bytes_at_app. split; [eapply bytes_at_ext; [|exact Hout]; intros; apply H1; lia|]. split; [|done].
    unfold m1. rewrite byte_at_put, decide_True by done. rewrite <- Ec. apply u8_id, byte_at_range.
  - rewrite Z.add_assoc. eapply cstring_ext; [|exact Hr]. intros x Hx. apply H1. lia.
  - rewrite length_app in Em. cbn [length] in Em. replace (Z.of_nat (length out + 1)) with (Z.of_nat (length out) + 1) in Em by lia.
    exists m'. split; [done|]. split; [done|]. split; [done|]. intros x Hx'. rewrite Hx by done. apply H1. lia.
Qed.

(** The loop, started with [out] written and [rest] to be read, at or after it. *)
Lemma normalize_loop_run fuel m a rd out rest o :
  bytes_at m a out → cstring m (a + rd) rest → Z.of_nat (length out) ≤ rd → norm out rest = Some o → (length rest < fuel)%nat →
  leaves m a (a + rd + Z.of_nat (length rest)) o (normalize_loop fuel a rd (Z.of_nat (length out)) m).
Proof.
  revert m rd out rest. induction fuel as [|fuel IH]; intros m rd out rest Hout Hrest Hle Hn Hf; [lia|]. cbn [normalize_loop].
  destruct rest as [|c r].
  { injection Hn as <-. unfold getc. mrun. rewrite (cstring_nil _ _ Hrest). exists m. cbn [Z.eqb length]. repeat (split; [done || lia|]). done. }
  pose proof (cstring_cons _ _ _ _ Hrest) as (Ec & Hc0 & Hr). pose proof (next_char _ _ _ _ Hrest) as E1.
  assert (∀ k o1 rest', bytes_at m a o1 → (length o1 ≤ length out)%nat → cstring m (a + rd + k) rest' →
    k + Z.of_nat (length rest') = Z.of_nat (length (c :: r)) → 0 < k → norm o1 rest' = Some o →
    leaves m a (a + rd + Z.of_nat (length (c :: r))) o (normalize_loop fuel a (rd + k) (Z.of_nat (length o1)) m)) as Hskip.
  { intros k o1 rest' H1 H2 H3 H4 H5 H6. rewrite <- H4, Z.add_assoc, <- (Z.add_assoc a rd k). apply IH; try done; try lia. by rewrite Z.add_assoc. }
  pose proof (copy_leaves m a rd out c r (a + rd + Z.of_nat (length (c :: r))) o (normalize_loop fuel a) Hout Hrest Hle
    ltac:(cbn [length]; lia)) as Hcopy.
  assert (norm (out ++ [c]) r = Some o → leaves m a (a + rd + Z.of_nat (length (c :: r))) o
    ((putc (a + Z.of_nat (length out)) c;; normalize_loop fuel a (rd + 1) (Z.of_nat (length out) + 1)) m)) as Hput.
  { intros Hn'. apply Hcopy. intros m1 H1 H2. replace (a + rd + Z.of_nat (length (c :: r))) with (a + (rd + 1) + Z.of_nat (length r)) by (cbn [length]; lia).
    apply IH; try done; rewrite ?length_app; cbn [length] in *; lia. }
  clear Hcopy. unfold getc. mrun. rewrite Ec, (proj2 (Z.eqb_neq c 0) Hc0). mrun. rewrite Z.add_assoc, E1.
  destruct (Z.eqb_spec c DOT) as [->|Hdot]; cbn [andb].
  2: { mrun. apply Hput. cbn [norm] in Hn. by rewrite (proj2 (Z.eqb_neq c DOT)) in Hn. }
  cbn [norm Z.eqb DOT] in Hn. destruct r as [|c1 r1]; cbn [head default from_option id] in *.
  { injection Hn as <-. apply (Hskip 1 out []); done. }
  destruct (Z.eqb_spec c1 SLASH) as [->|Hs1].
  { apply (Hskip 2 out r1); try done; [|cbn; lia]. apply cstring_cons in Hr as (_ & _ & Hr). by replace (a + rd + 2) with (a + rd + 1 + 1) by lia. }
  pose proof (cstring_cons _ _ _ _ Hr) as (_ & Hc1 & Hr1). rewrite (proj2 (Z.eqb_neq c1 0) Hc1). cbn [orb].
  pose proof (next_next_char _ _ _ _ _ Hrest) as E2. mrun. rewrite Z.add_assoc, E2.
  destruct (Z.eqb_spec c1 DOT) as [->|Hd1]; cbn [andb]; [|by apply Hput].
  destruct r1 as [|c2 r2]; cbn [head default from_option id] in *.
  { destruct (back_run m a out o Hout Hn) as (Eb & Hbo & Hlo). cbn [Z.eqb SLASH orb andb]. erewrite bind_done by exact Eb.
    apply (Hskip 2 o []); done || lia. }
  destruct (Z.eqb_spec c2 SLASH) as [->|Hs2]; cbn [orb].
  - destruct (back out) as [o1|] eqn:Eo; [|done]. destruct (back_run m a out o1 Hout Eo) as (Eb & Hbo & Hlo).
    erewrite bind_done by exact Eb. apply (Hskip 3 o1 r2); try done; try (cbn; lia).
    apply cstring_cons in Hr1 as (_ & _ & Hr2). by replace (a + rd + 3) with (a + rd + 1 + 1 + 1) by lia.
  - pose proof (cstring_cons _ _ _ _ Hr1) as (_ & Hc2 & _). rewrite (proj2 (Z.eqb_neq c2 0) Hc2). by apply Hput.
Qed.

(** ** Components *)

(** A name a path can hold: no slash, no NUL, and no dot at its end (the code takes
    the dot at the end of any name for a component of its own). *)
Definition plain_name (c : list Z) : Prop :=
  c ≠ [] ∧ Forall (λ x, x ≠ SLASH ∧ x ≠ 0) c ∧ last c ≠ Some DOT.

Inductive component : Type :=
| Here
| Parent
| Name (c : list Z).

Definition component_ok (k : component) : Prop := match k with Name c => plain_name c | _ => True end.
Definition text (k : component) : list Z := match k with Here => [DOT] | Parent => [DOT; DOT] | Name c => c end.

(** The components, each with a slash after it. *)
Definition texts (l : list component) : list Z := mjoin ((λ k, text k ++ [SLASH]) <$> l).

(** The absolute path of a directory, given by its names. *)
Definition dir_path (st : list (list Z)) : list Z := SLASH :: texts (Name <$> st).

(** One component: [st] are the names so far; [None] where a [Parent] leaves the
    root. *)
Definition resolve1 (st : list (list Z)) (k : component) : option (list (list Z)) :=
  match k with
  | Here => Some st
  | Parent => match reverse st with [] => None | _ :: t => Some (reverse t) end
  | Name c => Some (st ++ [c])
  end.
Fixpoint resolve (st : list (list Z)) (l : list component) : option (list (list Z)) :=
  match l with [] => Some st | k :: l => st' ← resolve1 st k; resolve st' l end.

(** The path of the whole: a last component without a slash after it ([None] when
    the path ends with one) adds its name, and no slash. *)
Definition resolve_path (l : list component) (k : option component) : option (list Z) :=
  st ← resolve [] l;
  match k with
  | Some (Name c) => Some (dir_path st ++ c)
  | Some k => dir_path <$> resolve1 st k
  | None => Some (dir_path st)
  end.

Definition path_text (l : list component) (k : option component) : list Z :=
  SLASH :: texts l ++ match k with Some k => text k | None => [] end.

Lemma texts_app l1 l2 : texts (l1 ++ l2) = texts l1 ++ texts l2.
Proof. unfold texts. by rewrite fmap_app, join_app. Qed.
Lemma texts_cons k l : texts (k :: l) = text k ++ SLASH :: texts l.
Proof. unfold texts. cbn. by rewrite <- app_assoc. Qed.
Lemma dir_path_snoc st c : dir_path (st ++ [c]) = dir_path st ++ c ++ [SLASH].
Proof. unfold dir_path. rewrite fmap_app, texts_app. change (Name <$> [c]) with [Name c]. by rewrite texts_cons. Qed.

(** *** Names *)
Lemma last_cons_tail (x y : Z) l : last (x :: y :: l) = last (y :: l).
Proof. done. Qed.

(** A name is copied: [rest] is the end of the path or starts with a slash. *)
Lemma norm_name out c rest :
  Forall (λ x, x ≠ SLASH ∧ x ≠ 0) c → last c ≠ Some DOT → (rest = [] ∨ head rest = Some SLASH) →
  norm out (c ++ rest) = norm (out ++ c) rest.
Proof.
  intros Hc. revert out. induction Hc as [|x c [Hx _] Hc IH]; intros out Hl Hr; [by rewrite app_nil_r|].
  assert (last c ≠ Some DOT) as Hl' by (destruct c; done).
  specialize (IH (out ++ [x]) Hl' Hr). rewrite <- app_assoc in IH. cbn [app] in IH. rewrite <- IH. cbn [app norm].
  destruct (Z.eqb_spec x DOT) as [->|]; [|done].
  destruct Hc as [|y c [Hy _] Hc]; [done|]. cbn [app]. rewrite (proj2 (Z.eqb_neq y SLASH)) by done.
  destruct (Z.eqb_spec y DOT) as [->|]; [|done]. destruct Hc as [|z c [Hz _] Hc]; [by cbn in Hl|].
  cbn [app]. by rewrite (proj2 (Z.eqb_neq z SLASH)).
Qed.

Lemma norm_slash out rest : norm out (SLASH :: rest) = norm (out ++ [SLASH]) rest.
Proof. done. Qed.

Lemma cut_name c t : Forall (λ x, x ≠ SLASH ∧ x ≠ 0) c → cut (c ++ SLASH :: t) = SLASH :: t.
Proof. induction 1 as [|x c [Hx _] Hc IH]; [done|]. cbn [app cut]. by rewrite (proj2 (Z.eqb_neq x SLASH)). Qed.

Lemma dir_path_end st : ∃ t, reverse (dir_path st) = SLASH :: t.
Proof.
  destruct st as [|st c _] using rev_ind; [by exists []|]. rewrite dir_path_snoc, !reverse_app. cbn. eauto.
Qed.

Lemma back_dir st c : Forall (λ x, x ≠ SLASH ∧ x ≠ 0) c → back (dir_path (st ++ [c])) = Some (dir_path st).
Proof.
  intros Hc. unfold back. rewrite dir_path_snoc, !reverse_app. cbn [reverse rev_append app].
  destruct (dir_path_end st) as [t Ht]. rewrite Ht, cut_name by (by apply Forall_reverse). by rewrite <- Ht, reverse_involutive.
Qed.

Lemma back_parent st st' :
  Forall plain_name st → resolve1 st Parent = Some st' → back (dir_path st) = Some (dir_path st') ∧ Forall plain_name st'.
Proof.
  intros Hst. cbn. destruct st as [|st c _] using rev_ind; [done|]. rewrite reverse_snoc, reverse_involutive. injection 1 as <-.
  apply Forall_app in Hst as [Hst Hc]. split; [|done]. apply back_dir. inversion Hc as [|? ? (_ & ? & _)]. done.
Qed.

(** *** The function resolves the components *)
Lemma norm_component st k rest st' :
  Forall plain_name st → component_ok k → resolve1 st k = Some st' →
  norm (dir_path st) (text k ++ SLASH :: rest) = norm (dir_path st') rest ∧ Forall plain_name st'.
Proof.
  intros Hst Hk Hr. destruct k as [| |c].
  - by injection Hr as <-.
  - destruct (back_parent st st' Hst Hr) as [Hb Hst']. cbn [text app norm Z.eqb DOT SLASH]. split; [|done]. by cbn; rewrite Hb.
  - destruct Hk as (Hne & Hc & Hl). injection Hr as <-. cbn [text].
    rewrite norm_name by (done || by right). rewrite norm_slash, dir_path_snoc, app_assoc. split; [done|].
    apply Forall_app. split; [done|]. by constructor.
Qed.

Lemma norm_components st l rest st' :
  Forall plain_name st → Forall component_ok l → resolve st l = Some st' →
  norm (dir_path st) (texts l ++ rest) = norm (dir_path st') rest ∧ Forall plain_name st'.
Proof.
  revert st. induction l as [|k l IH]; intros st Hst Hl Hr; [by injection Hr as <-|].
  cbn in Hr. apply bind_Some in Hr as (st1 & Hk & Hr). apply Forall_cons in Hl as [Hok Hl].
  rewrite texts_cons, <- app_assoc. cbn [app]. destruct (norm_component st k (texts l ++ rest) st1 Hst Hok Hk) as [-> Hst1]. by apply IH.
Qed.

Lemma norm_path l k out :
  Forall component_ok l → (∀ c, k = Some c → component_ok c) → resolve_path l k = Some out → norm [] (path_text l k) = Some out.
Proof.
  intros Hl Hk Hr. unfold path_text. rewrite norm_slash. cbn [app]. change [SLASH] with (dir_path []).
  unfold resolve_path in Hr. apply bind_Some in Hr as (st & Hst & Hr).
  destruct (norm_components [] l (match k with Some k => text k | None => [] end) st) as [-> Hok]; [constructor|done|done|].
  destruct k as [[| |c]|]; cbn [text].
  - apply fmap_Some in Hr as (st' & [= <-] & ->). done.
  - apply fmap_Some in Hr as (st' & Hp & ->). destruct (back_parent st st' Hok Hp) as [Hb _]. cbn. by rewrite Hb.
  - injection Hr as <-. destruct (Hk _ eq_refl) as (Hne & Hc & Hlast). rewrite <- (app_nil_r c) at 1.
    rewrite norm_name by (done || by left). done.
  - by injection Hr as <-.
Qed.

Lemma dir_path_nonzero st : Forall plain_name st → Forall (λ x, x ≠ 0) (dir_path st).
Proof.
  intros Hst. unfold dir_path. constructor; [done|]. unfold texts. apply Forall_join. induction Hst as [|c st (_ & Hc & _) Hst IH]; [constructor|].
  cbn. constructor; [|done]. apply Forall_app. split; [|by repeat constructor]. eapply Forall_impl; [exact Hc|]. by intros x [_ ?].
Qed.

Lemma resolve_path_nonzero l k out :
  Forall component_ok l → (∀ c, k = Some c → component_ok c) → resolve_path l k = Some out → out ≠ [] ∧ Forall (λ x, x ≠ 0) out.
Proof.
  intros Hl Hk Hr. unfold resolve_path in Hr. apply bind_Some in Hr as (st & Hst & Hr).
  destruct (norm_components [] l [] st) as [_ Hok]; [constructor|done|done|].
  destruct k as [[| |c]|].
  - apply fmap_Some in Hr as (st' & [= <-] & ->). split; [done|by apply dir_path_nonzero].
  - apply fmap_Some in Hr as (st' & Hp & ->). destruct (back_parent st st' Hok Hp) as [_ Hok']. split; [done|by apply dir_path_nonzero].
  - injection Hr as <-. split; [done|]. apply (Forall_app _ (dir_path st)). split; [by apply dir_path_nonzero|].
    destruct (Hk _ eq_refl) as (_ & Hc & _). eapply Forall_impl; [exact Hc|]. by intros x [_ ?].
  - injection Hr as <-. split; [done|by apply dir_path_nonzero].
Qed.

(** Helper form of the property, for the commands. *)
Lemma normalize_path_run m a l k out :
  cstring m a (path_text l k) → Forall component_ok l → (∀ c, k = Some c → component_ok c) → resolve_path l k = Some out →
  ∃ m', normalize_path a m = Done (tt, m') ∧ cstring m' a out ∧
    ∀ x, ¬ a ≤ x ≤ a + Z.of_nat (length (path_text l k)) → byte_at m' x = byte_at m x.
Proof.
  intros Hc Hl Hk Hr. pose proof (norm_path l k out Hl Hk Hr) as Hn. destruct (resolve_path_nonzero l k out Hl Hk Hr) as [Hne Hnz].
  destruct (normalize_loop_run (string_fuel m) m a 0 [] (path_text l k) out) as (m1 & E & Hb & Hlen & Hx); try done.
  { by rewrite Z.add_0_r. }
  { by eapply cstring_fuel. }
  rewrite Z.add_0_r in *. cbn [length] in E. change (Z.of_nat 0) with 0 in E.
  exists (put_byte (a + Z.of_nat (length out)) 0 m1). split; [|split].
  - unfold normalize_path. mrun. erewrite bind_done by exact E. unfold putc. mrun.
    rewrite (proj2 (Z.eqb_neq _ 0)); [done|]. destruct out; [done|]. cbn. lia.
  - split; [|done]. apply bytes_at_app. split.
    + eapply bytes_at_ext; [|exact Hb]. intros x Hx'. rewrite byte_at_put, decide_False by lia. done.
    + split; [|done]. by rewrite byte_at_put, decide_True.
  - intros x Hx'. rewrite byte_at_put, decide_False by lia. apply Hx. lia.
Qed.

(** C7: normalize_path, which rewrites a path in place with two indexes, computes
    the reference definition: for an absolute path made of names, "." and "..", with
    or without a slash at its end, whose ".." never leave the root, the array holds
    the path of the components resolved (names pushed, "." dropped, ".." popping the
    name before it, a slash after each), terminated, and no byte outside the
    original string is touched. *)
Theorem normalize_path_spec m a l k out :
  cstring m a (path_text l k) → Forall component_ok l → (∀ c, k = Some c → component_ok c) → resolve_path l k = Some out →
  ∃ m', normalize_path a m = Done (tt, m') ∧ cstring m' a out ∧
    ∀ x, ¬ a ≤ x ≤ a + Z.of_nat (length (path_text l k)) → byte_at m' x = byte_at m x.
Proof. apply normalize_path_run. Qed.

(** "/usr/./lib/../bin" *)
Definition usr_path : list component := [Name (chars "usr"); Here; Name (chars "lib"); Parent].
Definition usr_mem : gmap Z Z := write_bytes 100 (path_text usr_path (Some (Name (chars "bin"))) ++ [0]) ∅.

Lemma plain_usr : plain_name (chars "usr") ∧ plain_name (chars "lib") ∧ plain_name (chars "bin").
Proof. repeat split; try done; repeat constructor; done. Qed.

Lemma normalize_path_spec_witness :
  ∃ m', normalize_path 100 usr_mem = Done (tt, m') ∧ cstring m' 100 (chars "/usr/bin") ∧
    ∀ x, ¬ 100 ≤ x ≤ 100 + 17 → byte_at m' x = byte_at usr_mem x.
Proof.
  destruct plain_usr as (H1 & H2 & H3).
  refine (normalize_path_spec usr_mem 100 usr_path (Some (Name (chars "bin"))) (chars "/usr/bin") _ _ _ eq_refl).
  - split; [apply bytes_at_write; repeat constructor; done|]. repeat constructor; done.
  - repeat constructor; done.
  - by intros c [= <-].
Defined.

(** A ".." above the root: in "/../../" the second one makes the index -1, and the
    terminator is written before the array. *)
Example normalize_path_underflow :
  let m := write_bytes 99 (65 :: chars "/../../" ++ [0]) ∅ in
  match normalize_path 100 m with Done (_, m') => byte_at m 99 = 65 ∧ byte_at m' 99 = 0 | Fault _ => False end.
Proof. vm_compute. done. Qed.

(** A name with a dot at its end loses it, and the slash: "/a./b" is "/ab". *)
Example normalize_path_dot_name :
  match normalize_path 100 (write_bytes 100 (chars "/a./b" ++ [0]) ∅) with
  | Done (_, m') => (λ i, byte_at m' (100 + i)) <$> [0; 1; 2; 3] = chars "/ab" ++ [0]
  | Fault _ => False
  end.
Proof. vm_compute. done. Qed.
