(* ===== verification/ShellCd.v ===== *)
(** * The command cd

    The runs of the pieces the commands are made of, and cd as a whole: what it does
    to the working directory, from the line that was typed. *)
From stdpp Require Import base gmap list strings.
From Stdlib Require Import ZArith Lia.
From S2P Require Import Prelude Mem CString Shell ShellPath.

#[local] Open Scope Z_scope.
#[local] Opaque memcpy memzero.

Section runs.
Context {W : Type} `{!Services W}.
Implicit Types (m : gmap Z Z) (w : W).

(** ** Pieces *)
Lemma on_mem_done {A} (c : M mem A) m sp w a m' : c m = Done (a, m') → on_mem c (mk_Shell m sp w) = Done (a, mk_Shell m' sp w).
Proof. intros E. unfold on_mem. cbn [sh_mem]. by rewrite E. Qed.

Lemma zeroed_done n m sp w : zeroed n (mk_Shell m sp w) = Done (sp, mk_Shell (memzero sp n m) (sp + n) w).
Proof. done. Qed.

Lemma set_mem_done f m sp w : set_mem f (mk_Shell m sp w) = Done (tt, mk_Shell (f m) sp w).
Proof. done. Qed.

Lemma char_done a m sp w : char_at a (mk_Shell m sp w) = Done (byte_at m a, mk_Shell m sp w).
Proof. done. Qed.

Lemma literal_done t m sp w :
  literal t (mk_Shell m sp w) = Done (sp, mk_Shell (write_bytes sp (chars t ++ [0]) m) (sp + (Z.of_nat (length (chars t)) + 1)) w).
Proof. done. Qed.

Lemma string_at_run fuel m a l : cstring m a l → (length l < fuel)%nat → string_at fuel a m = Done (l, m).
Proof.
  revert fuel a. induction l as [|x l IH]; intros [|fuel] a Hc Hf; cbn [length] in Hf; try lia; cbn [string_at]; unfold getc; mrun.
  - by rewrite (cstring_nil _ _ Hc).
  - apply cstring_cons in Hc as (-> & Hne & Hc). rewrite (proj2 (Z.eqb_neq _ _) Hne). by rewrite (bind_done _ _ _ _ _ (IH fuel (a + 1) Hc ltac:(lia))).
Qed.

Lemma str_done m sp w a l : cstring m a l → str a (mk_Shell m sp w) = Done (l, mk_Shell m sp w).
Proof. intros Hc. apply on_mem_done. mrun. apply string_at_run; [done|by eapply cstring_fuel]. Qed.

Lemma write_str_done m sp w a l : cstring m a l → write_str a (mk_Shell m sp w) = Done (tt, mk_Shell m sp (sys_write l w)).
Proof. intros Hc. unfold write_str. by rewrite (bind_done _ _ _ _ _ (str_done _ _ _ _ _ Hc)). Qed.

Lemma open_dir_done m sp w a l :
  cstring m a l → open_dir a (mk_Shell m sp w) = Done ((sys_open_dir l w).1, mk_Shell m sp (sys_open_dir l w).2).
Proof.
  intros Hc. unfold open_dir. rewrite (bind_done _ _ _ _ _ (str_done _ _ _ _ _ Hc)). unfold service. cbn [sh_world].
  by destruct (sys_open_dir l w).
Qed.

(** What the three system calls of an error message leave. *)
Definition complained (message : string) (path : list Z) w : W :=
  sys_write (chars ("'." +:+ NL)) (sys_write path (sys_write (chars message) w)).

Lemma complain_done message m sp w a l :
  cstring m a l → complain message a (mk_Shell m sp w) = Done (tt, mk_Shell m sp (complained message l w)).
Proof.
  intros Hc. unfold complain. rewrite (bind_done _ _ _ tt (mk_Shell m sp (sys_write (chars message) w))) by done.
  by rewrite (bind_done _ _ _ _ _ (write_str_done _ _ _ _ _ Hc)).
Qed.

(** ** Arrays of 64 bytes *)
Definition keeps_out (a b : Z) m m' : Prop := ∀ x, ¬ a ≤ x < b → byte_at m' x = byte_at m x.

Lemma cstring_keeps a b m m' p l :
  keeps_out a b m m' → p + Z.of_nat (length l) + 1 ≤ a ∨ b ≤ p → cstring m p l → cstring m' p l.
Proof. intros Hk Hp. apply cstring_ext. intros x Hx. apply Hk. lia. Qed.

Lemma bytes_at_intro m a l : (∀ i v, l !! i = Some v → byte_at m (a + Z.of_nat i) = v) → bytes_at m a l.
Proof.
  revert a. induction l as [|x l IH]; intros a H; [done|]. split; [by rewrite <- (H 0%nat x), Z.add_0_r|].
  apply IH. intros i v Hi. rewrite <- (H (S i) v Hi). f_equal. lia.
Qed.

Lemma last_char m a l x : cstring m a (l ++ [x]) → byte_at m (a + (Z.of_nat (length (l ++ [x])) - 1)) = x.
Proof.
  intros [Hb _]. rewrite length_app. cbn [length]. replace (a + (Z.of_nat (length l + 1) - 1)) with (a + Z.of_nat (length l)) by lia.
  eapply bytes_at_lookup; [exact Hb|]. rewrite <- app_assoc. by apply list_lookup_middle.
Qed.

Lemma copy_array m d s l :
  cstring m s l → (length l < 64)%nat → d + 64 ≤ s ∨ s + 64 ≤ d →
  cstring (memcpy d s MAX_COMMAND_DIMENSION m) d l ∧
  keeps_out d (d + 64) m (memcpy d s MAX_COMMAND_DIMENSION m).
Proof.
  intros Hc Hl Ha. unfold MAX_COMMAND_DIMENSION.
  assert (∀ x, byte_at (memcpy d s 64 m) x = if decide (d ≤ x < d + 64) then byte_at m (s + (x - d)) else byte_at m x) as Hx
    by (intros x; rewrite memcpy_spec by lia; done).
  split; [|intros x Hn; by rewrite Hx, decide_False].
  destruct Hc as [Hb Hnz]. split; [|done].
  apply bytes_at_intro. intros i v Hi. pose proof (lookup_lt_Some _ _ _ Hi) as Hlt. rewrite length_app in Hlt. cbn [length] in Hlt.
  rewrite Hx, decide_True by lia. replace (s + (d + Z.of_nat i - d)) with (s + Z.of_nat i) by lia. by eapply bytes_at_lookup.
Qed.

(** The three arrays the commands begin with: command, destination, temp. *)
Definition three m (sp : Z) : gmap Z Z := memzero (sp + 128) 64 (memzero (sp + 64) 64 (memzero sp 64 m)).

Lemma three_byte m sp x : byte_at (three m sp) x = if decide (sp ≤ x < sp + 192) then 0 else byte_at m x.
Proof.
  unfold three. rewrite !memzero_spec by lia. change (Mem.zeroed 64) with 64. repeat case_decide; (done || lia).
Qed.

Lemma three_done {A} (k : Z → Z → Z → M (Shell W) A) m sp w :
  (command ← Shell.zeroed MAX_COMMAND_DIMENSION; destination ← Shell.zeroed MAX_COMMAND_DIMENSION; temp ← Shell.zeroed MAX_COMMAND_DIMENSION;
   k command destination temp) (mk_Shell m sp w) = k sp (sp + 64) (sp + 128) (mk_Shell (three m sp) (sp + 192) w).
Proof.
  rewrite (bind_done _ _ _ _ _ (zeroed_done _ _ _ _)), (bind_done _ _ _ _ _ (zeroed_done _ _ _ _)), (bind_done _ _ _ _ _ (zeroed_done _ _ _ _)).
  unfold MAX_COMMAND_DIMENSION. rewrite <- !Z.add_assoc. done.
Qed.

Lemma call_done {A} (c : M (Shell W) A) m sp w a m' sp' w' :
  c (mk_Shell m sp w) = Done (a, mk_Shell m' sp' w') → call c (mk_Shell m sp w) = Done (a, mk_Shell m' sp w').
Proof. intros E. unfold call. by rewrite E. Qed.

#[local] Opaque three.

(** The argument of a line, in an array of zeros. *)
Lemma split_ok m sp buffer word arg :
  cstring m buffer (word ++ SP :: arg) → plain word → SP ∉ word → plain arg → buffer + 64 ≤ sp → (length (word ++ SP :: arg) < 64)%nat →
  (∀ x, sp ≤ x < sp + 128 → byte_at m x = 0) →
  ∃ m', strsplit buffer SP sp (sp + 64) m = Done (tt, m') ∧ cstring m' (sp + 64) arg ∧ keeps_out sp (sp + 128) m m'.
Proof.
  intros [Hb Hnz] Hw HSP Ha Hbuf Hlen Hz. rewrite length_app in Hlen. cbn [length] in Hlen.
  rewrite <- app_assoc in Hb. destruct (strsplit_spec m buffer SP sp (sp + 64) word (SP :: arg) 0 Hb) as (m' & E & _ & Hd & Hc & Hx);
    [done|done|done|right; exists arg; split; [done|by constructor]|unfold apart; cbn [length]; lia..|].
  exists m'. split; [exact E|]. split; [apply Hc, Hz; lia|]. intros x Hx'. apply Hx; lia.
Qed.

(** A path with a slash at its end. *)
Definition closed (arg : list Z) : list Z := if decide (last arg = Some SLASH) then arg else arg ++ [SLASH].

Definition add_slash (c destination : Z) : M (Shell W) unit :=
  if negb (c =? SLASH) then slash ← literal "/"; on_mem (strcat destination slash);; mret tt else mret tt.

Lemma add_slash_ok m sp w d arg :
  cstring m d arg → arg ≠ [] → d + 64 ≤ sp → (length arg < 63)%nat →
  ∃ m' sp', add_slash (byte_at m (d + (Z.of_nat (length arg) - 1))) d (mk_Shell m sp w) = Done (tt, mk_Shell m' sp' w) ∧
    cstring m' d (closed arg) ∧ ∀ x, ¬ d ≤ x < d + 64 → x < sp → byte_at m' x = byte_at m x.
Proof.
  intros Hc Hne Hd Hl. destruct (exists_last Hne) as (l & y & ->). rewrite (last_char _ _ _ _ Hc). unfold add_slash, closed. rewrite last_snoc.
  destruct (Z.eqb_spec y SLASH) as [->|Hy]; cbn [negb].
  - exists m, sp. rewrite decide_True by done. done.
  - rewrite decide_False by congruence. rewrite (bind_done _ _ _ _ _ (literal_done "/" m sp w)).
    set (m1 := write_bytes sp (chars "/" ++ [0]) m).
    assert (keeps_out sp (sp + 2) m m1) as H1 by (intros x Hx; apply byte_at_write_other; cbn; lia).
    assert (cstring m1 sp [SLASH]) as Hs by (split; [apply (bytes_at_write sp [SLASH; 0]); by repeat constructor|by repeat constructor]).
    assert (cstring m1 d (l ++ [y])) as Hc1 by (eapply cstring_keeps; [exact H1|lia|exact Hc]).
    destruct (strcat_spec m1 d sp (l ++ [y]) [SLASH] Hc1 Hs) as (m' & E & Hcat & _ & _ & Hx); [unfold apart; cbn [length]; lia|].
    exists m', (sp + 2). rewrite (bind_done _ _ _ _ _ (on_mem_done _ _ _ w _ _ E)). split; [done|]. split; [done|].
    intros x Hx1 Hx2. rewrite Hx by (cbn [length]; lia). apply H1. lia.
Qed.

(** ** Paths *)

(** The argument [arg] means the components [l], from the names [base]. *)
Inductive means (st : list (list Z)) (arg : list Z) : list (list Z) → list component → Prop :=
| means_absolute l : closed arg = SLASH :: texts l → means st arg [] l
| means_relative l : closed arg = texts l → l ≠ [] → Forall component_ok l → means st arg st l.

Lemma texts_head l : l ≠ [] → Forall component_ok l → head (texts l) ≠ Some SLASH ∧ texts l ≠ [].
Proof.
  destruct l as [|[| |c] l]; [done|done|done|]. intros _ [(Hne & Hc & _) _]%Forall_cons. rewrite texts_cons. cbn [text].
  destruct c as [|x c]; [done|]. apply Forall_cons in Hc as [[Hx _] _]. cbn. split; [|done]. congruence.
Qed.

Lemma dir_path_last st : ∃ t, dir_path st = t ++ [SLASH].
Proof. destruct (dir_path_end st) as [t Ht]. exists (reverse t). by rewrite <- reverse_cons, <- Ht, reverse_involutive. Qed.

Lemma cstring_head m a l x : cstring m a l → head l = Some x → byte_at m a = x.
Proof. destruct l as [|y l]; [done|]. intros (-> & _)%cstring_cons [= ->]. done. Qed.

Lemma join_ok m sp w temp wd dest st arg base l :
  cstring m dest (closed arg) → cstring m wd (dir_path st) → means st arg base l →
  (length (dir_path base ++ texts l) < 64)%nat → (length (closed arg) < 64)%nat → (length (dir_path st) < 64)%nat →
  wd + 64 ≤ dest → dest + 64 ≤ temp →
  ∃ m', join temp wd dest (mk_Shell m sp w) = Done (tt, mk_Shell m' sp w) ∧ cstring m' temp (dir_path base ++ texts l) ∧ keeps_out temp (temp + 64) m m'.
Proof.
  intros Hd Hwd Hm Hlen Hlc Hlw Hwa Hda. unfold join. rewrite (bind_done _ _ _ _ _ (char_done dest m sp w)).
  destruct Hm as [l Hcl|l Hcl Hne Hok].
  - rewrite (cstring_head m dest (closed arg) SLASH Hd) by (by rewrite Hcl). cbn [Z.eqb].
    destruct (copy_array m temp dest (closed arg) Hd Hlc) as [H1 H2]; [lia|].
    eexists. split; [apply set_mem_done|]. split; [|exact H2]. by rewrite Hcl in H1.
  - destruct (texts_head l Hne Hok) as [Hh Hnil].
    assert (byte_at m dest =? SLASH = false) as ->.
    { apply Z.eqb_neq. intros Hb. rewrite Hcl in Hd. destruct (texts l) as [|x t]; [done|].
      apply cstring_cons in Hd as (Hx & _). apply Hh. cbn. congruence. }
    destruct (copy_array m temp wd (dir_path st) Hwd Hlw) as [H1 H2]; [lia|]. set (m1 := memcpy temp wd MAX_COMMAND_DIMENSION m) in *.
    rewrite (bind_done _ _ _ tt (mk_Shell m1 sp w)) by done.
    rewrite (bind_done _ _ _ _ _ (on_mem_done _ _ _ w _ _ (strlen_run _ _ _ H1))), (bind_done _ _ _ _ _ (char_done _ m1 sp w)).
    destruct (dir_path_last st) as [t Ht]. assert (byte_at m1 (temp + (Z.of_nat (length (dir_path st)) - 1)) = SLASH) as Hlast
      by (rewrite Ht in *; by apply last_char).
    rewrite Hlast, Z.eqb_refl, andb_false_r. rewrite bind_ret.
    assert (cstring m1 dest (closed arg)) as Hd1 by (eapply cstring_keeps; [exact H2|lia|exact Hd]).
    rewrite length_app in Hlen. rewrite Hcl in *.
    destruct (strcat_spec m1 temp dest (dir_path st) (texts l) H1 Hd1) as (m' & E & Hcat & _ & _ & Hx); [unfold apart; lia|].
    exists m'. rewrite (bind_done _ _ _ _ _ (on_mem_done _ _ _ w _ _ E)). split; [done|]. split; [done|].
    intros x Hx1. rewrite Hx by lia. by apply H2.
Qed.

Lemma dir_path_text base l : dir_path base ++ texts l = path_text ((Name <$> base) ++ l) None.
Proof. unfold dir_path, path_text. by rewrite texts_app, app_nil_r. Qed.

Lemma resolve_names st base l : resolve st ((Name <$> base) ++ l) = resolve (st ++ base) l.
Proof.
  revert st. induction base as [|c base IH]; intros st; [by rewrite app_nil_r|]. cbn. rewrite IH. by rewrite <- app_assoc.
Qed.

(** The directory is found and normalized, in the array [temp]. *)
Lemma normalize_ok m temp base l st' :
  cstring m temp (dir_path base ++ texts l) → Forall plain_name base → Forall component_ok l → resolve base l = Some st' →
  (length (dir_path base ++ texts l) < 64)%nat →
  ∃ m', normalize_path temp m = Done (tt, m') ∧ cstring m' temp (dir_path st') ∧ keeps_out temp (temp + 64) m m'.
Proof.
  intros Hc Hb Hl Hr Hlen. rewrite dir_path_text in *.
  destruct (normalize_path_run m temp _ None (dir_path st') Hc) as (m' & E & Hc' & Hx).
  - apply Forall_app. split; [|done]. apply Forall_fmap. eapply Forall_impl; [exact Hb|done].
  - done.
  - unfold resolve_path. rewrite resolve_names. cbn [app]. by rewrite Hr.
  - exists m'. split; [done|]. split; [done|]. intros x Hx1. apply Hx. lia.
Qed.

(** Resolving never lengthens a path. *)
Lemma resolve_length st l st' :
  resolve st l = Some st' → (length (dir_path st') ≤ length (dir_path st) + length (texts l))%nat.
Proof.
  revert st. induction l as [|k l IH]; intros st Hr; [injection Hr as <-; lia|].
  cbn in Hr. apply bind_Some in Hr as (st1 & Hk & Hr%IH). rewrite texts_cons, length_app. cbn [length].
  destruct k as [| |c]; cbn in Hk.
  - injection Hk as <-. lia.
  - destruct (reverse st) as [|x t] eqn:E; [done|]. injection Hk as <-.
    assert (st = reverse t ++ [x]) as -> by (by rewrite <- reverse_cons, <- E, reverse_involutive).
    rewrite dir_path_snoc, length_app. cbn [text length]. lia.
  - injection Hk as <-. rewrite dir_path_snoc, !length_app in Hr. cbn [text length] in *. lia.
Qed.

(** ** The command *)
Section cd.
Context (m : gmap Z Z) (w : W) (sp buffer wd : Z) (word arg : list Z) (st base : list (list Z)) (l : list component) (st' : list (list Z)).
Context (Hb : cstring m buffer (word ++ SP :: arg)) (Hw : plain word) (HSP : SP ∉ word) (Ha : plain arg) (Hne : arg ≠ []).
Context (Hwd : cstring m wd (dir_path st)) (Hst : Forall plain_name st).
Context (Hm : means st arg base l) (Hl : Forall component_ok l) (Hr : resolve base l = Some st').
Context (Hlen1 : (length (word ++ SP :: arg) < 64)%nat) (Hlen2 : (length (dir_path st) < 64)%nat).
Context (Hlen3 : (length (dir_path base ++ texts l) < 64)%nat) (Hwb : wd + 64 ≤ buffer) (Hbs : buffer + 64 ≤ sp).

(** Up to the opening of the directory, whose path is in the third array. *)
Lemma cd_path :
  ∃ m' sp', handle_cd buffer wd (mk_Shell m sp w) = call (λ _, (
      fd ← open_dir (sp + 128);
      if is_negative_one fd then complain "[SHELL] Error: cannot change directory to '" (sp + 128)
      else set_mem (memcpy wd (sp + 128) MAX_COMMAND_DIMENSION)) (mk_Shell m' sp' w)) (mk_Shell m sp w) ∧
    cstring m' (sp + 128) (dir_path st') ∧ ∀ x, x < sp → byte_at m' x = byte_at m x.
Proof.
  pose proof (length_app word (SP :: arg)) as Hla. cbn [length] in Hla.
  assert (keeps_out sp (sp + 192) m (three m sp)) as K1 by (intros x Hx; by rewrite three_byte, decide_False).
  assert (cstring (three m sp) buffer (word ++ SP :: arg)) as Hb1 by (eapply cstring_keeps; [exact K1|lia|exact Hb]).
  assert (∀ x, sp ≤ x < sp + 128 → byte_at (three m sp) x = 0) as Hz by (intros x Hx; by rewrite three_byte, decide_True by lia).
  destruct (split_ok (three m sp) sp buffer word arg Hb1 Hw HSP Ha Hbs Hlen1 Hz) as (m2 & E2 & Hd2 & K2).
  destruct (add_slash_ok m2 (sp + 192) w (sp + 64) arg Hd2 Hne) as (m3 & sp3 & E3 & Hd3 & K3); [lia..|].
  assert (∀ x, x < sp → byte_at m3 x = byte_at m x) as K by (intros x Hx; rewrite K3 by lia; rewrite K2 by lia; apply K1; lia).
  assert (cstring m3 wd (dir_path st)) as Hwd3 by (eapply cstring_ext; [|exact Hwd]; intros x Hx; apply K; lia).
  assert (length (closed arg) < 64)%nat as Hlc by (unfold closed; case_decide; rewrite ?length_app; cbn [length]; lia).
  destruct (join_ok m3 sp3 w (sp + 128) wd (sp + 64) st arg base l Hd3 Hwd3 Hm Hlen3 Hlc Hlen2) as (m4 & E4 & Ht4 & K4); [lia..|].
  assert (Forall plain_name base) as Hbase by (by destruct Hm).
  destruct (normalize_ok m4 (sp + 128) base l st' Ht4 Hbase Hl Hr Hlen3) as (m5 & E5 & Ht5 & K5).
  exists m5, sp3. split; [|split; [exact Ht5|intros x Hx; rewrite K5, K4 by lia; by apply K]].
  unfold handle_cd, call. rewrite three_done, (bind_done _ _ _ _ _ (on_mem_done _ _ _ w _ _ E2)).
  rewrite (bind_done _ _ _ _ _ (on_mem_done _ _ _ w _ _ (strlen_run _ _ _ Hd2))), (bind_done _ _ _ _ _ (char_done _ _ _ _)).
  by rewrite (bind_done _ _ _ _ _ E3), (bind_done _ _ _ _ _ E4), (bind_done _ _ _ _ _ (on_mem_done _ _ _ w _ _ E5)).
Qed.

Lemma handle_cd_run fd w1 :
  sys_open_dir (dir_path st') w = (fd, w1) →
  ∃ m', handle_cd buffer wd (mk_Shell m sp w) =
      Done (tt, mk_Shell m' sp (if fd =? -1 then complained "[SHELL] Error: cannot change directory to '" (dir_path st') w1 else w1)) ∧
    cstring m' wd (dir_path (if fd =? -1 then st else st')) ∧
    ∀ x, x < sp → ¬ wd ≤ x < wd + 64 → byte_at m' x = byte_at m x.
Proof.
  intros Ew. destruct cd_path as (m5 & sp5 & -> & Ht & K). pose proof (resolve_length base l st' Hr) as Hrl. rewrite length_app in Hlen3.
  pose proof (open_dir_done m5 sp5 w (sp + 128) (dir_path st') Ht) as Eo. rewrite Ew in Eo. cbn [fst snd] in Eo.
  unfold call. rewrite (bind_done _ _ _ _ _ Eo). unfold is_negative_one. destruct (fd =? -1).
  - rewrite (complain_done _ m5 sp5 w1 _ _ Ht). exists m5. split; [done|]. split; [|intros x Hx _; by apply K].
    eapply cstring_ext; [|exact Hwd]. intros x Hx. apply K. lia.
  - destruct (copy_array m5 wd (sp + 128) (dir_path st') Ht) as [H1 H2]; [lia|lia|].
    eexists. split; [done|]. split; [exact H1|]. intros x Hx Hn. rewrite H2 by lia. by apply K.
Qed.
End cd.

(** C14: the command cd, from the line typed to the working directory.  The working
    directory is the path of the names [st]; the argument is a path of names, "."
    and "..", absolute or relative, with or without a slash at its end, that stays
    below the root.  cd opens the directory its components resolve to; when the
    kernel can open it, the working directory becomes its path, in the same form,
    so that the next command finds what this one needs; when not, it stays as it was
    and the message with the path is written.  No byte below the command's own
    arrays changes but those of the working directory. *)
Theorem handle_cd_spec m w sp buffer wd word arg st base l st' :
  cstring m buffer (word ++ SP :: arg) → plain word → SP ∉ word → plain arg → arg ≠ [] →
  cstring m wd (dir_path st) → Forall plain_name st →
  means st arg base l → Forall component_ok l → resolve base l = Some st' →
  (length (word ++ SP :: arg) < 64)%nat → (length (dir_path st) < 64)%nat → (length (dir_path base ++ texts l) < 64)%nat →
  wd + 64 ≤ buffer → buffer + 64 ≤ sp →
  let '(fd, w1) := sys_open_dir (dir_path st') w in
  ∃ m', handle_cd buffer wd (mk_Shell m sp w) =
      Done (tt, mk_Shell m' sp (if fd =? -1 then complained "[SHELL] Error: cannot change directory to '" (dir_path st') w1 else w1)) ∧
    cstring m' wd (dir_path (if fd =? -1 then st else st')) ∧
    ∀ x, x < sp → ¬ wd ≤ x < wd + 64 → byte_at m' x = byte_at m x.
Proof. intros. destruct (sys_open_dir (dir_path st') w) as [fd w1] eqn:Ew. by eapply handle_cd_run. Qed.
End runs.

(** ** A console with the directories it knows, the ones opened and what was written. *)
Record Console : Type := mk_Console { known : list (list Z); opened : list (list Z); written : list (list Z) }.

#[export] Instance console_services : Services Console := {|
  sys_write l w := mk_Console (known w) (opened w) (written w ++ [l]);
  sys_write_hex _ w := w;
  sys_input _ w := ([], w);
  sys_create_dir _ w := (-1, w);
  sys_open_dir l w := if decide (l ∈ known w) then (Z.of_nat (length (opened w)), mk_Console (known w) (opened w ++ [l]) (written w)) else (-1, w);
  sys_open_file _ _ w := (-1, w);
  sys_close_file _ w := (-1, w);
  sys_write_file _ _ w := (-1, w);
  sys_read_file _ _ w := (-1, [], w);
  sys_get_next_entry _ w := (-1, None, w);
  sys_fork w := (-1, w);
  sys_exec _ _ w := (Some (-1), w);
  sys_wait _ w := (-1, w);
  sys_exit w := w
|}.

(** "cd ../lib" in "/usr/bin/", then "/usr/lib/" is the working directory. *)
Definition cd_line : list Z := chars "cd" ++ SP :: chars "../lib".
Definition usr_bin : list (list Z) := [chars "usr"; chars "bin"].
Definition cd_mem : gmap Z Z := write_bytes 164 (cd_line ++ [0]) (write_bytes 100 (dir_path usr_bin ++ [0]) ∅).
Definition cd_world : Console := mk_Console [chars "/usr/lib/"] [] [].

Lemma handle_cd_spec_witness :
  ∃ m', handle_cd 164 100 (mk_Shell cd_mem 300 cd_world) = Done (tt, mk_Shell m' 300 (mk_Console [chars "/usr/lib/"] [chars "/usr/lib/"] [])) ∧
    cstring m' 100 (chars "/usr/lib/").
Proof.
  assert (cstring cd_mem 164 (chars "cd" ++ SP :: chars "../lib")) as H1 by (split; [vm_compute; repeat split|vm_compute; repeat constructor; discriminate]).
  assert (cstring cd_mem 100 (dir_path usr_bin)) as H2 by (split; [vm_compute; repeat split|vm_compute; repeat constructor; discriminate]).
  assert (plain (chars "cd")) as H3 by (repeat constructor).
  assert (SP ∉ chars "cd") as H4 by (vm_compute; intros H; repeat (apply elem_of_cons in H as [H|H]; [discriminate H|]); by apply elem_of_nil in H).
  assert (plain (chars "../lib")) as H5 by (repeat constructor).
  assert (plain_name (chars "usr") ∧ plain_name (chars "bin") ∧ plain_name (chars "lib")) as (Hu & Hbin & Hlib)
    by (repeat split; try discriminate; repeat constructor; discriminate).
  assert (Forall component_ok [Parent; Name (chars "lib")]) as H7 by (constructor; [exact I|]; constructor; [exact Hlib|constructor]).
  assert (means usr_bin (chars "../lib") usr_bin [Parent; Name (chars "lib")]) as H6 by (apply means_relative; [vm_compute; reflexivity|discriminate|exact H7]).
  destruct (handle_cd_spec cd_mem cd_world 300 164 100 (chars "cd") (chars "../lib") usr_bin usr_bin [Parent; Name (chars "lib")]
    [chars "usr"; chars "lib"] H1 H3 H4 H5 ltac:(discriminate) H2 ltac:(by repeat constructor) H6 H7) as (m' & E & Hc & _);
    [reflexivity|first [lia|apply Nat.ltb_lt; vm_compute; reflexivity]..|].
  exists m'. split; [exact E|exact Hc].
Defined.
