(* ===== verification/Programs.v ===== *)
(** * User programs: app/, user/user.c and common/process_api.c

    A program of the user is an interaction tree whose events are its system calls;
    loops without a bound are [ITree.iter], and need no fuel.  Strings are lists of
    bytes. *)
From stdpp Require Import base list strings.
From Stdlib Require Import ZArith Lia.
From ITree Require Import ITree ITreeFacts.
From S2P Require Import Prelude Kernel.

#[local] Open Scope Z_scope.

(** The calls.  The kernel does not answer [Exit], and answers [Exec] when it fails;
    [Unset] is the use of a variable without a value. *)
Variant callE : Type → Type :=
| Write (s : list Z) : callE unit
| Fork : callE Z
| Exec (path : list Z) : callE Z
| Exit : callE unit
| Yield : callE unit
| Wait (pid : Z) : callE Z
| SendMessage (pid : Z) (body : list Z) : callE Z
| ReceiveMessage : callE (list Z)
| SendSignal (pid flag : Z) : callE Z
| SetSchedParam (pid param value : Z) : callE Z
| GetTime : callE Z
| Unset : callE Empty_set.

#[export] Instance itree_ret {E} : MRet (itree E) := λ A x, Ret x.
#[export] Instance itree_bind {E} : MBind (itree E) := λ A B k t, ITree.bind t k.

Abbreviation program := (itree callE) (only parsing).
Definition call {A} (e : callE A) : program A := ITree.trigger e.

Definition lit (s : string) : list Z := Z.of_nat ∘ Ascii.nat_of_ascii <$> String.list_ascii_of_string s.
Definition newline : list Z := [10].
Definition write (s : string) : program unit := call (Write (lit s)).
Definition write_line (s : string) : program unit := call (Write (lit s ++ newline)).

(** ** common/process_api.c *)
(** [if (value >= 0) call_syscall_set_sched_param(pid, param, value)] *)
Definition set_param (pid param value : Z) : program unit :=
  if 0 <=? value then call (SetSchedParam pid param value);; mret tt else mret tt.

Definition spawn_process (path : list Z) (priority tickets queue_priority : Z) : program Z :=
  pid ← call Fork;
  if pid <? 0 then mret (-1) else
  if pid =? 0 then
    error ← call (Exec path);
    (if negb (error =? 0) then call Exit else mret tt);;
    mret 0
  else
    set_param pid SCHED_PARAM_PRIORITY priority;;
    set_param pid SCHED_PARAM_TICKETS tickets;;
    set_param pid SCHED_PARAM_QUEUE_PRIORITY queue_priority;;
    mret pid.

(** ** user/user.c *)
Definition init_process_main : program unit :=
  pid ← call Fork;
  if pid =? 0 then
    error ← call (Exec (lit "/bin/shell.bin"));
    if negb (error =? 0) then write_line "[INIT] Cannot start shell binary";; call Exit else mret tt
  else
    write_line "[INIT] Init process started ";;
    call (Wait pid);;
    call Exit.

(** ** app/run_all.c *)
Definition NUM_PROCESSES : Z := 4.

(** [for (i = 0; i < NUM_PROCESSES; i++)] with [spawn_process]; [None] is an element of
    [pids] that is not set. *)
Fixpoint spawn_loop (n : nat) (i : Z) (pids : list (option Z)) : program (list (option Z)) :=
  match n with
  | O => mret pids
  | S n =>
    pid ← spawn_process (lit "/bin/benchmark.bin") (i + 1) ((i + 1) * 10) i;
    if pid <? 0 then
      write_line "[RUN_ALL] Error: unable to start the binary!";;
      spawn_loop n (i + 1) pids
    else spawn_loop n (i + 1) (<[Z.to_nat i := Some pid]> pids)
  end.

Fixpoint wait_loop (pids : list (option Z)) : program unit :=
  match pids with
  | [] => mret tt
  | Some pid :: pids => call (Wait pid);; wait_loop pids
  | None :: _ => e ← call Unset; match e : Empty_set with end
  end.

Definition run_all_main : program unit :=
  write_line "[RUN_ALL] Starting multiple load test...";;
  pids ← spawn_loop (Z.to_nat NUM_PROCESSES) 0 (replicate (Z.to_nat NUM_PROCESSES) None);
  write_line "[RUN_ALL] All processes started. Waiting for completion...";;
  wait_loop pids;;
  write_line "[RUN_ALL] Test completed! All processes have terminated.";;
  call Exit.

(** ** app/fork_test.c *)
Fixpoint receive_loop (n : nat) : program unit :=
  match n with
  | O => mret tt
  | S n =>
    buffer ← call ReceiveMessage;
    write "[FATHER] Message received from FATHER: '";;
    call (Write buffer);;
    call (Write (lit "'." ++ newline));;
    receive_loop n
  end.

Fixpoint send_loop (pid : Z) (messages : list string) : program unit :=
  match messages with
  | [] => mret tt
  | message :: messages =>
    ok ← call (SendMessage pid (lit message));
    if ok =? -1 then write_line "[SON] Error sending message to SON." else
    write "[SON] Message '";;
    write message;;
    write_line "' sent to SON.";;
    send_loop pid messages
  end.

Definition fork_test_main : program unit :=
  pid ← call Fork;
  (if pid =? 0 then call Yield;; receive_loop 5;; call Exit
   else
     write_line "[SON] Sending message to SON";;
     send_loop pid ["hello"; "world"; "demoos"; "is"; "great!"]%string;;
     write_line "[SON] I sent all the messages");;
  call Exit.

(** ** app/signals_test.c *)
(** [while (1)] *)
Definition son_loop : program Empty_set :=
  ITree.iter (λ _ : unit, write_line "[SON] I am the son and I'm using the CPU just for fun";; call Yield;; mret (inl tt)) tt.

Definition signals_test_main : program unit :=
  pid ← call Fork;
  (if pid =? 0 then
     write_line "[SON] Started...";;
     e ← son_loop; match e : Empty_set with end
   else
     call Yield;;
     call (SendSignal pid SIGNAL_KILL);;
     write_line "[FATHER] I terminate my son.");;
  call Exit.

(** ** app/arguments_test.c *)
Definition arguments_test_main (n_arguments : Z) (arg1 arg2 : list Z) : program unit :=
  call (Write (lit "[TEST]" ++ newline ++ lit "I'm loaded from the filesystem." ++ newline));;
  write "TEST ARGUMENTS NUMBER (EXPECTED 1) - ";;
  (if n_arguments =? 1 then write_line "SUCCESS" else write_line "FAIL");;
  write "Argument 1: ";; call (Write arg1);; call (Write newline);;
  write "Argument 2: ";; call (Write arg2);; call (Write newline);;
  call Exit;;
  write_line "This text should never appear.".

(** ** app/benchmark.c *)
Definition divisors : list Z := [1000000000; 100000000; 10000000; 1000000; 100000; 10000; 1000; 100; 10; 1].

(** [while (num >= divisors[d]) { num -= divisors[d]; count++; }] *)
Definition count_loop (d : Z) : Z * Z → program (Z * Z) := ITree.iter (λ '(num, count),
  if d <=? num then mret (inl (u64 (num - d), s32 (count + 1))) else mret (inr (num, count))).

(** [for (d = 0; d < 10; d++)]; the characters in the array so far. *)
Fixpoint digits_loop (ds : list Z) (num : Z) (buffer : list Z) (started : bool) : program (list Z) :=
  match ds with
  | [] => mret buffer
  | d :: ds =>
    '(num, count) ← count_loop d (num, 0);
    if (0 <? count) || started then digits_loop ds num (buffer ++ [u8 (s32 (count + 48))]) true
    else digits_loop ds num buffer started
  end.

Definition print_int (num : Z) : program unit :=
  if num =? 0 then write "0" else
  buffer ← digits_loop divisors num [] false;
  call (Write buffer).

(** [for (int i = 0; i < 50000000; i++)], in wrapping arithmetic. *)
Definition benchmark_step '((i, calcolo) : Z * Z) : Z * Z :=
  (s32 (i + 1), s32 (Z.lxor (s32 (calcolo + i)) (Z.rem i 3))).
Definition benchmark_loop : program Z := ITree.iter (λ s : Z * Z,
  if s.1 <? 50000000 then mret (inl (benchmark_step s)) else mret (inr s.2)) (0, 0).

Definition benchmark_main : program unit :=
  start_time ← call GetTime;
  benchmark_loop;;
  end_time ← call GetTime;
  write "Benchmark completed! Time elapsed (microseconds): ";;
  print_int (u64 (end_time - start_time));;
  call (Write newline);;
  call Exit.

(** ** print_int writes the decimal numeral *)

(** The number a list of digits denotes. *)
Fixpoint value (ds : list Z) : Z :=
  match ds with [] => 0 | d :: ds => d * 10 ^ Z.of_nat (length ds) + value ds end.

(** The decimal numerals: digits, without a zero in front but for 0 itself. *)
Definition numeral (ds : list Z) : Prop := Forall (λ d, 0 ≤ d < 10) ds ∧ (ds = [0] ∨ ∃ d l, ds = d :: l ∧ 0 < d).

Lemma bind_mret {A B} (x : A) (k : A → program B) : ITree.bind (mret x) k ≅ k x.
Proof. apply bind_ret_l. Qed.

Lemma count_loop_step d num count :
  count_loop d (num, count) ≈ if d <=? num then count_loop d (u64 (num - d), s32 (count + 1)) else Ret (num, count).
Proof. unfold count_loop at 1. rewrite unfold_iter. destruct (d <=? num); rewrite bind_mret; [apply tau_eutt|reflexivity]. Qed.

Lemma count_loop_ok d n : ∀ num count,
  0 < d → 0 ≤ num < 2 ^ 64 → num / d = Z.of_nat n → 0 ≤ count → count + Z.of_nat n < 2 ^ 31 →
  count_loop d (num, count) ≈ Ret (num mod d, count + num / d).
Proof.
  induction n as [|n IH]; intros num count Hd Hnum Hn Hc Hb; rewrite count_loop_step.
  - destruct (Z.leb_spec d num) as [H|H].
    { assert (1 ≤ num / d) by (apply Z.div_le_lower_bound; lia). lia. }
    rewrite Hn, Z.add_0_r, Z.mod_small by lia. reflexivity.
  - destruct (Z.leb_spec d num) as [H|H]; [|rewrite Z.div_small in Hn by lia; lia].
    assert (num / d = (num - d) / d + 1 ∧ num mod d = (num - d) mod d) as [Eq Em].
    { rewrite <- (Z.div_add (num - d) 1 d), <- (Z.mod_add (num - d) 1 d) by lia. split; f_equal; lia. }
    rewrite u64_id, s32_id, IH by lia. rewrite Eq, Em, <- Z.add_assoc, (Z.add_comm 1). reflexivity.
Qed.

(** The divisors from [10 ^ k] down to 1. *)
Fixpoint powers (k : nat) : list Z := match k with O => [1] | S k' => 10 ^ Z.of_nat k :: powers k' end.

Lemma value_bound ds : Forall (λ d, 0 ≤ d < 10) ds → 0 ≤ value ds < 10 ^ Z.of_nat (length ds).
Proof.
  induction 1 as [|d ds Hd _ IH]; cbn [value length]; [done|]. rewrite Nat2Z.inj_succ, Z.pow_succ_r by lia. nia.
Qed.

Definition show (ds : list Z) : list Z := (λ d, d + 48) <$> ds.

Lemma digits_step d ds num buffer started :
  0 < d → 0 ≤ num < 10 * d → num < 10 ^ 10 →
  digits_loop (d :: ds) num buffer started ≈
    if (0 <? num / d) || started then digits_loop ds (num mod d) (buffer ++ [num / d + 48]) true
    else digits_loop ds (num mod d) buffer started.
Proof.
  intros Hd Hnum H10. assert (0 ≤ num / d < 10) as Hq by (split; [apply Z.div_pos|apply Z.div_lt_upper_bound]; lia).
  cbn [digits_loop]. unfold mbind, itree_bind. rewrite (count_loop_ok d (Z.to_nat (num / d))) by lia.
  rewrite bind_ret_l, Z.add_0_l. rewrite s32_id, u8_id by lia. reflexivity.
Qed.

(** From [10 ^ k] on: the digits left, all of them once one has been written. *)
Lemma digits_loop_ok k : ∀ num buffer (started : bool),
  0 ≤ num < 10 * 10 ^ Z.of_nat k → num < 10 ^ 10 →
  ∃ ds, digits_loop (powers k) num buffer started ≈ Ret (buffer ++ show ds) ∧ Forall (λ d, 0 ≤ d < 10) ds ∧ value ds = num ∧
    if started then length ds = S k else 0 < num → ∃ d l, ds = d :: l ∧ 0 < d.
Proof.
  induction k as [|k IH]; intros num buffer started Hnum H10.
  - change (powers 0) with [1]. setoid_rewrite digits_step; [|lia..]. rewrite Z.mod_1_r, Z.div_1_r. cbn [digits_loop].
    destruct ((0 <? num) || started) eqn:E.
    + exists [num]. split; [reflexivity|]. split; [by repeat constructor; lia|]. split; [cbn; lia|]. destruct started; [done|]. eauto.
    + apply orb_false_iff in E as [E ->]. zify_bools. assert (num = 0) as -> by lia.
      exists []. split; [by rewrite app_nil_r|]. split; [done|]. split; [done|lia].
  - set (d := 10 ^ Z.of_nat (S k)) in *. assert (d = 10 * 10 ^ Z.of_nat k) as Ed by (unfold d; rewrite Nat2Z.inj_succ, Z.pow_succ_r by lia; lia).
    assert (0 < d) as Hd by (unfold d; lia). change (powers (S k)) with (d :: powers k). setoid_rewrite digits_step; [|lia..].
    pose proof (Z.mod_pos_bound num d Hd) as Hm. pose proof (Z.div_mod num d ltac:(lia)) as Hdm.
    assert (0 ≤ num / d < 10) as Hq by (split; [apply Z.div_pos|apply Z.div_lt_upper_bound]; lia).
    destruct ((0 <? num / d) || started) eqn:E.
    + destruct (IH (num mod d) (buffer ++ [num / d + 48]) true ltac:(lia) ltac:(lia)) as (ds & Er & Hds & Hv & Hl).
      exists (num / d :: ds). split; [by rewrite Er, <- app_assoc|]. split; [by constructor|].
      split; [cbn [value]; rewrite Hl, Hv; fold d; lia|]. destruct started; [cbn; by rewrite Hl|].
      intros _. exists (num / d), ds. split; [done|]. rewrite orb_false_r in E. zify_bools. lia.
    + apply orb_false_iff in E as [E ->]. zify_bools.
      destruct (IH (num mod d) buffer false ltac:(lia) ltac:(lia)) as (ds & Er & Hds & Hv & Hl).
      exists ds. split; [exact Er|]. split; [exact Hds|]. assert (num / d = 0) as Ez by lia. rewrite Ez in Hdm.
      split; [lia|]. intros Hp. apply Hl. lia.
Qed.

(** Print_int makes one call, which writes the decimal numeral of a number below
    10^10 in ASCII. *)
Theorem print_int_spec num :
  0 ≤ num < 10 ^ 10 → ∃ ds, print_int num ≈ call (Write (show ds)) ∧ numeral ds ∧ value ds = num.
Proof.
  intros Hnum. unfold print_int. destruct (Z.eqb_spec num 0) as [->|Hne].
  - exists [0]. split; [reflexivity|]. split; [split; [by repeat constructor|by left]|done].
  - destruct (digits_loop_ok 9 num [] false ltac:(lia) ltac:(lia)) as (ds & Er & Hds & Hv & Hl).
    exists ds. split; [|split; [split; [done|right; apply Hl; lia]|done]].
    change divisors with (powers 9). unfold mbind, itree_bind. rewrite Er, bind_ret_l. reflexivity.
Qed.

Lemma print_int_spec_witness : ∃ ds, print_int 1234567890 ≈ call (Write (show ds)) ∧ value ds = 1234567890.
Proof. destruct (print_int_spec 1234567890) as (ds & E & _ & H); [lia|]. exists ds. split; [exact E|exact H]. Defined.
