(* ===== verification/SelectionProps.v ===== *)
(** * What the scheduling algorithms guarantee

    The theorems about the selection: every algorithm completes and implements
    its specification, the queue operations implement lists, round robin is FIFO
    with a bounded wait, SJF inserts stably in burst order, priority aging picks
    the largest counter and bounds the bonus, the lottery is proportional to
    the tickets, the multilevel queues serve the first level that has a READY
    process. *)
From stdpp Require Import base gmap list list_numbers.
From Stdlib Require Import ZArith Lia.
From S2P Require Import Prelude Kernel Queue Scheduler SchedulerSpec Aging Lottery Dispatch Entries Boot.

#[local] Open Scope Z_scope.

(** C1: whatever the active algorithm, from every kernel that satisfies the
    scheduler's invariant the dispatcher completes (no NULL or dangling pointer is
    followed, no loop runs forever), does exactly what the abstract selection
    does, leaves the chosen process RUNNING, and preserves the invariant. *)
Theorem dispatcher_refines k a :
  R k a → Inv 0 a →
  ∃ k', _schedule k = Done (tt, k') ∧ R k' (a_schedule a) ∧ Inv 0 (a_schedule a) ∧
        running (a_schedule a).
Proof.
  intros HR HI. destruct (_schedule_sim k a HR HI) as (k' & Hk & HR').
  exists k'. split; [done|]. split; [done|]. split; [by eapply a_schedule_Inv|].
  by eapply a_schedule_running.
Qed.

Lemma dispatcher_refines_witness :
  ∃ k', _schedule (demo PRIORITY_AGING) = Done (tt, k') ∧
    R k' (a_schedule (a_demo PRIORITY_AGING)) ∧ Inv 0 (a_schedule (a_demo PRIORITY_AGING)) ∧
    running (a_schedule (a_demo PRIORITY_AGING)).
Proof. apply dispatcher_refines; apply demo_ok. Defined.

(** ** Queues are lists *)

(** C19: on every kernel that represents an abstract one, the pointer operations
    on a queue complete and are the list operations: enqueueing appends the
    process and makes it READY, dequeueing returns and drops the first process
    (NULL exactly when the queue is empty), unlinking a process given its
    predecessor removes it from the middle. *)
Theorem queues_are_lists k a q :
  R k a → valid_queue q →
  (∀ p, p ≠ init_process → is_Some (a_pcbs a !! p) → ¬ queued a p →
     ∃ k', enqueue_process_to q (Some p) k = Done (tt, k') ∧
       R k' (a_set_queue q (a_queue a q ++ [p]) (a_update p (with_state PROCESS_READY) a))) ∧
  (∃ k', dequeue_process_from q k = Done (hd_error (a_queue a q), k') ∧
     R k' (a_set_queue q (tl (a_queue a q)) a)) ∧
  (∀ l1 p l2, a_queue a q = l1 ++ p :: l2 →
     ∃ k', remove_process_from q (last l1) p k = Done (tt, k') ∧
       R k' (a_set_queue q (l1 ++ l2) a)).
Proof.
  intros HR Hq. split; [|split].
  - intros p Hp Hs Hn. by apply (enqueue_process_to_sim k a q p).
  - by apply dequeue_process_from_sim.
  - intros l1 p l2 El. by apply remove_process_from_sim.
Qed.

Lemma queues_are_lists_witness :
  ∃ k', dequeue_process_from READY_QUEUE (demo FCFS) = Done (Some 100, k') ∧
    R k' (a_set_queue READY_QUEUE [200; 300] (a_demo FCFS)).
Proof.
  destruct (queues_are_lists (demo FCFS) (a_demo FCFS) READY_QUEUE) as (_ & (k' & Hk & HR) & _);
    [apply demo_ok|exact I|].
  exists k'. split; [exact Hk|exact HR].
Defined.

(** ** Shortest job first *)

Definition burst_sorted (b : ptr → Z) (l : list ptr) : Prop :=
  ∀ i j x y, (i ≤ j)%nat → l !! i = Some x → l !! j = Some y → b x ≤ b y.

Lemma burst_sorted_cons b x l :
  burst_sorted b (x :: l) ↔ (∀ y, y ∈ l → b x ≤ b y) ∧ burst_sorted b l.
Proof.
  split.
  - intros H. split.
    + intros y [i Hi]%list_elem_of_lookup_1. by apply (H 0%nat (S i) x y); [lia|..].
    + intros i j y z Hij Hi Hj. apply (H (S i) (S j)); [lia|done..].
  - intros [H1 H2] [|i] [|j] y z Hij Hi Hj; simpl in *; simplify_eq; try lia.
    + apply H1. by eapply list_elem_of_lookup_2.
    + eapply (H2 i j); [lia|done..].
Qed.

(** In a sorted queue the process goes after those with a burst not longer than
    its own and before the others. *)
Lemma insert_sorted_split b p l :
  burst_sorted b l →
  insert_by_burst b p l = filter (λ x, b x ≤ b p) l ++ p :: filter (λ x, b p < b x) l ∧
  burst_sorted b (insert_by_burst b p l).
Proof.
  induction l as [|x l IH]; intros Hs.
  { split; [done|]. intros [|i] [|j] y z Hij Hi Hj; simpl in *; simplify_eq; lia. }
  apply burst_sorted_cons in Hs as [Hx Hs]. destruct (IH Hs) as [E Hs']. simpl.
  rewrite !filter_cons. destruct (b p <? b x) eqn:Eb; zify_bools.
  - rewrite decide_False, decide_True by lia. split.
    + assert (filter (λ y, b y ≤ b p) l = []) as ->.
      { apply elem_of_nil_inv. intros y [Hy Hin]%list_elem_of_filter. specialize (Hx y Hin). lia. }
      simpl. do 2 f_equal. symmetry. apply filter_all. intros y Hy%Hx. lia.
    + rewrite !burst_sorted_cons. split; [|by split]. intros y [->|Hy]%elem_of_cons; [lia|].
      specialize (Hx y Hy). lia.
  - rewrite decide_True, decide_False by lia. rewrite E. split; [done|].
    rewrite E in Hs'. apply burst_sorted_cons. split; [|done]. intros y.
    rewrite <- E, elem_of_insert_by_burst. intros [->|Hy]; [lia|auto].
Qed.

(** C28: SJF insertion. In a ready queue sorted by estimated burst, the pointer
    code of enqueue_sorted_to puts the process exactly after the processes whose
    estimate is not longer than its own (so processes with equal estimates stay in
    arrival order) and before the longer ones, keeps the queue sorted, and makes
    the process READY. *)
Theorem sjf_insertion k a p :
  R k a → p ≠ init_process → is_Some (a_pcbs a !! p) → ¬ queued a p →
  burst_sorted (a_burst a) (a_ready a) →
  ∃ k', enqueue_sorted_to READY_QUEUE (Some p) k = Done (tt, k') ∧
    let l := filter (λ x, a_burst a x ≤ a_burst a p) (a_ready a) ++
             p :: filter (λ x, a_burst a p < a_burst a x) (a_ready a) in
    R k' (a_set_queue READY_QUEUE l (a_update p (with_state PROCESS_READY) a)) ∧
    burst_sorted (a_burst a) l.
Proof.
  intros HR Hp Hs Hn Hsort.
  destruct (enqueue_sorted_to_sim k a READY_QUEUE p HR I Hp Hs Hn) as (k' & Hk & HR').
  destruct (insert_sorted_split (a_burst a) p (a_ready a) Hsort) as [E Hs'].
  exists k'. split; [done|]. unfold a_enqueue_sorted in HR'. simpl a_queue in HR'. rewrite E in HR', Hs'. done.
Qed.

(** The demo queue is sorted: bursts 1, 5, 7. *)
Lemma sjf_insertion_witness :
  let a := a_add 400 (fresh 4 5 1 10 0) (a_demo SJF) in
  a_ready (a_demo SJF) = [200; 300; 100] ∧ a_ready a = [200; 300; 400; 100] ∧
  ∃ k', enqueue_sorted_to READY_QUEUE (Some 400)
    (with_heap (<[400 := fresh 4 5 1 10 0]> (heap (demo SJF))) (demo SJF)) = Done (tt, k').
Proof.
  split; [by vm_compute|]. split; [by vm_compute|].
  destruct (sjf_insertion (with_heap (<[400 := fresh 4 5 1 10 0]> (heap (demo SJF))) (demo SJF))
    (a_put 400 (fresh 4 5 1 10 0) (a_demo SJF)) 400) as (k' & Hk & _).
  - apply R_new; [apply demo_ok|by vm_compute|done].
  - done.
  - by eexists.
  - rewrite queued_put, queued_iff.
    assert (a_ready (a_demo SJF) ++ mjoin (a_ml (a_demo SJF)) = [200; 300; 100]) as -> by by vm_compute.
    set_solver.
  - assert (a_ready (a_put 400 (fresh 4 5 1 10 0) (a_demo SJF)) = [200; 300; 100]) as -> by by vm_compute.
    rewrite !burst_sorted_cons. repeat split; [..|by intros i j x y _ Hi];
      intros y Hy; set_unfold; naive_solver (by vm_compute).
  - by exists k'.
Defined.

(** ** Round robin *)

(** No process has a pending signal. *)
Definition quiet (a : AKernel) : Prop :=
  ∀ p c, a_pcbs a !! p = Some c → pending_signals c = 0.

(** The order in which the processes will be served: the ready queue, then the
    process that has the CPU. *)
Definition service_order (a : AKernel) : list ptr :=
  a_ready a ++ (if decide (a_cur a = init_process) then [] else [a_cur a]).

(** Between two kernel entries: the idle process or a RUNNING one has the CPU. *)
Definition busy (a : AKernel) : Prop := a_cur a = init_process ∨ running a.

Lemma competition_order a :
  a_alg a = ROUND_ROBIN → busy a → a_ready (a_competition a) = service_order a.
Proof.
  intros Ea Hr. unfold a_competition, service_order, a_requeue.
  change (a_cur (a_preempt 1 a)) with (a_cur a). rewrite Ea.
  case_decide as Hd; [by rewrite app_nil_r|]. destruct Hr as [|Hr]; [done|].
  assert (a_is_running (a_preempt 1 a) (a_cur a) = true) as ->; [|done].
  unfold running, a_is_running in *. unfold a_preempt. rewrite a_update_lookup.
  by destruct (a_pcbs a !! a_cur a).
Qed.

Lemma competition_lookup a x c :
  a_pcbs (a_competition a) !! x = Some c →
  ∃ c0, a_pcbs a !! x = Some c0 ∧ pending_signals c = pending_signals c0.
Proof.
  unfold a_competition, a_requeue. case_decide; [|case_bool].
  - intros (c0 & ? & ->)%update_lookup_inv. exists c0. by case_decide.
  - rewrite a_pcbs_enqueue_policy.
    change (alter (with_state PROCESS_READY) (a_cur (a_preempt 1 a)) (a_pcbs (a_preempt 1 a)))
      with (a_pcbs (a_update (a_cur a) (with_state PROCESS_READY) (a_preempt 1 a))).
    intros (c1 & (c0 & ? & ->)%update_lookup_inv & ->)%update_lookup_inv.
    exists c0. by repeat case_decide.
  - intros (c0 & ? & ->)%update_lookup_inv. exists c0. by case_decide.
Qed.

Lemma quiet_schedule a :
  quiet a → (∀ x c, a_pcbs (a_choice a).2 !! x = Some c →
    ∃ c0, a_pcbs (a_competition a) !! x = Some c0 ∧ pending_signals c = pending_signals c0) →
  quiet (a_schedule a).
Proof.
  intros Hq Hch p c. rewrite a_schedule_eq. intros (c1 & Hc1 & ->)%update_lookup_inv.
  apply a_switch_lookup in Hc1 as (c2 & Hc2 & Hs & _).
  destruct (Hch p c2 Hc2) as (c3 & Hc3 & E). destruct (competition_lookup a p c3 Hc3) as (c0 & Hc0 & E0).
  assert (pending_signals c1 = 0) as Hz by (rewrite Hs; simpl; rewrite E, E0; by eapply Hq).
  by case_decide.
Qed.

Lemma quiet_head a quantum p l :
  WF a → a_ready a = p :: l →
  (∀ c, a_pcbs a !! p = Some c → pending_signals c = 0) →
  a_choose_head quantum a =
    (p, (match quantum with Some v => a_update p (with_counter v) | None => id end)
          (a_set_queue READY_QUEUE l a)).
Proof.
  intros HW El Hp. destruct (wf_queued _ HW p) as (_ & c & Hc & Hs); [exists READY_QUEUE; simpl; rewrite El; set_solver|].
  unfold a_choose_head, a_dequeue_ready. simpl a_queue. rewrite El. cbn [first_ready]. rewrite Hc.
  unfold apply_signals. rewrite (Hp c Hc). simpl. rewrite Hs. simpl.
  rewrite insert_id by done. by destruct quantum.
Qed.

(** One decision of round robin: the service order rotates. *)
Lemma round_robin_step k a p l :
  R k a → Inv 0 a → a_alg a = ROUND_ROBIN → busy a → quiet a → service_order a = p :: l →
  a_cur (a_schedule a) = p ∧ a_ready (a_schedule a) = l ∧ quiet (a_schedule a) ∧
  a_alg (a_schedule a) = ROUND_ROBIN ∧
  (∃ c, a_pcbs (a_schedule a) !! p = Some c ∧ counter c = 10) ∧ p ≠ init_process.
Proof.
  intros HR HI Ea Hrun Hq Ho.
  destruct (competition_ok k a HR HI) as (HI1 & Eca & _).
  pose proof (competition_order a Ea Hrun) as Eo. rewrite Ho in Eo.
  assert (a_choice a = (p, a_update p (with_counter 10) (a_set_queue READY_QUEUE l (a_competition a)))) as Ec.
  { unfold a_choice. rewrite Ea. apply quiet_head with (quantum := Some 10); [apply HI1|done|].
    intros c Hc. destruct (competition_lookup a p c Hc) as (c0 & Hc0 & ->). by eapply Hq. }
  destruct (wf_queued _ (inv_WF _ _ HI1) p) as (Hpi & c & Hc & _);
    [exists READY_QUEUE; simpl; rewrite Eo; set_solver|].
  split; [by rewrite a_schedule_cur, Ec|]. split.
  { change (a_ready (a_schedule a)) with (a_queue (a_schedule a) READY_QUEUE).
    rewrite a_schedule_queue, Ec. done. }
  split.
  { apply quiet_schedule; [done|]. rewrite Ec. simpl. intros x cx Hx.
    apply update_lookup_inv in Hx as (c0 & Hc0 & ->). exists c0. split; [done|]. by case_decide. }
  split.
  { rewrite a_schedule_eq. unfold a_alg, a_preempt. simpl.
    destruct (a_switch_globals (a_choice a).1 (a_choice a).2) as (f & -> & _ & _ & E & _).
    rewrite E, Ec. simpl. by rewrite <- Ea, <- Eca. }
  split; [|done].
  rewrite a_schedule_eq, Ec. simpl fst. simpl snd.
  assert (is_Some (a_pcbs (a_preempt (-1) (a_switch p (a_update p (with_counter 10)
    (a_set_queue READY_QUEUE l (a_competition a))))) !! p)) as [c1 Hc1].
  { apply a_update_is_Some, a_switch_dom, a_update_is_Some. by eexists. }
  exists c1. split; [done|].
  apply update_lookup_inv in Hc1 as (c2 & Hc2 & ->).
  apply a_switch_lookup in Hc2 as (c3 & Hc3 & Hs & _).
  apply update_lookup_inv in Hc3 as (c4 & Hc4 & ->). rewrite decide_True in Hs by done.
  transitivity (counter c2); [by case_decide|]. by rewrite Hs.
Qed.

Fixpoint times (n : nat) (m : M Kernel unit) : M Kernel unit :=
  match n with O => mret tt | S n => m;; times n m end.

Lemma round_robin_waits n k a p :
  R k a → Inv 0 a → a_alg a = ROUND_ROBIN → busy a → quiet a →
  service_order a !! n = Some p →
  ∃ k' a', times (S n) _schedule k = Done (tt, k') ∧ R k' a' ∧ Inv 0 a' ∧ a_cur a' = p ∧
    ∃ c, a_pcbs a' !! p = Some c ∧ counter c = 10.
Proof.
  revert k a. induction n as [|n IH]; intros k a HR HI Ea Hrun Hq Hn;
    (destruct (service_order a) as [|x l] eqn:Eo; [done|]);
    destruct (_schedule_sim k a HR HI) as (k1 & Hk1 & HR1);
    pose proof (a_schedule_Inv k a HR HI) as HI1;
    destruct (round_robin_step k a x l HR HI Ea Hrun Hq Eo) as (E1 & E2 & Hq1 & Ea1 & Hc & Hi);
    simpl in Hn.
  - simplify_eq. exists k1, (a_schedule a). split; [|done].
    cbn [times]. by erewrite bind_done by exact Hk1.
  - destruct (IH k1 (a_schedule a) HR1 HI1 Ea1) as (k2 & a2 & Hk2 & H2); [right; by eapply a_schedule_running|done| |].
    { unfold service_order. rewrite E1, E2. rewrite decide_False by done.
      rewrite lookup_app_l; [done|]. by eapply lookup_lt_Some. }
    exists k2, a2. split; [|done]. change (times (S (S n)) _schedule) with (_schedule;; times (S n) _schedule).
    by erewrite bind_done by exact Hk1.
Qed.

(** C29: round robin serves in FIFO order with a bounded wait. When no signal is
    pending, the process at position n of the service order (the ready queue
    followed by the process that has the CPU) is dispatched by the (n+1)-th
    scheduling decision at the latest, with a full quantum of 10 ticks. *)
Theorem round_robin_bounded_wait n k a p :
  R k a → Inv 0 a → a_alg a = ROUND_ROBIN → busy a → quiet a →
  service_order a !! n = Some p →
  ∃ k' a', times (S n) _schedule k = Done (tt, k') ∧ R k' a' ∧ Inv 0 a' ∧ a_cur a' = p ∧
    ∃ c, a_pcbs a' !! p = Some c ∧ counter c = 10.
Proof. apply round_robin_waits. Qed.

Lemma round_robin_bounded_wait_witness :
  ∃ k' a', times 3 _schedule (demo ROUND_ROBIN) = Done (tt, k') ∧ R k' a' ∧ Inv 0 a' ∧
    a_cur a' = 300 ∧ ∃ c, a_pcbs a' !! 300 = Some c ∧ counter c = 10.
Proof.
  apply (round_robin_bounded_wait 2 (demo ROUND_ROBIN) (a_demo ROUND_ROBIN) 300);
    [apply demo_ok..|done|by left| |by vm_compute].
  assert (map_Forall (λ _ c, pending_signals c = 0) (a_pcbs (a_demo ROUND_ROBIN))) as H
    by (by apply (bool_decide_unpack _); vm_compute).
  intros p c Hc. exact (H p c Hc).
Defined.

(** ** Priority with aging *)
Lemma aging_select_max fuel a p :
  (a_aging_select fuel a).1 = Some p →
  let a' := (a_aging_select fuel a).2 in
  0 < a_counter a' p ∧ ∀ x, x ∈ a_ready a' → a_counter a' x ≤ a_counter a' p.
Proof.
  revert a. induction fuel as [|fuel IH]; intros a; [done|]. cbn [a_aging_select].
  destruct (best_split _ _) as [[[l1 q] l2]|] eqn:E.
  - apply best_split_Some in E as (El & Hq & Hall & _). intros [= ->]. cbn [snd].
    rewrite a_counter_set_queue. split; [done|]. intros x Hx. apply Hall. rewrite El. simpl in Hx. set_solver.
  - destruct (a_ready (a_settle a)); [done|]. apply IH.
Qed.

Lemma a_counter_switch next a x : a_counter (a_switch next a) x = a_counter a x.
Proof.
  unfold a_counter. destruct (a_pcbs (a_switch next a) !! x) as [c|] eqn:Hc.
  - destruct (a_switch_lookup _ _ _ _ Hc) as (c0 & Hc0 & Hs & _). rewrite Hc0, Hs. done.
  - destruct (a_pcbs a !! x) eqn:E; [|done].
    destruct (a_switch_dom next a x) as [c Hc']; [by eexists|]. congruence.
Qed.

Lemma a_counter_preempt d a x : a_counter (a_preempt d a) x = a_counter a x.
Proof.
  unfold a_counter, a_preempt. destruct (decide (a_cur a = x)) as [<-|Hne].
  - rewrite a_update_lookup. by destruct (a_pcbs a !! a_cur a).
  - by rewrite a_update_lookup_ne.
Qed.



(** The epoch recharge. new_epoch gives every process of the table, blocked
    ones included, counter/2 + priority, and the bonus is capped: counters between
    0 and twice the priority end between the priority and twice the priority, so
    after a recharge every process has a positive counter and none can be
    outgrown without bound. *)
Theorem epoch_bonus_bounded k a :
  R k a → WF a →
  (∀ p c, a_pcbs a !! p = Some c → 1 ≤ priority c < 2 ^ 61 ∧ 0 ≤ counter c ≤ 2 * priority c) →
  ∃ k' a', new_epoch k = Done (tt, k') ∧ R k' a' ∧
    ∀ p c, a_pcbs a !! p = Some c → ∃ c', a_pcbs a' !! p = Some c' ∧
      counter c' = counter c / 2 + priority c ∧ priority c' = priority c ∧
      priority c' ≤ counter c' ≤ 2 * priority c'.
Proof.
  intros HR HW Hb. destruct (new_epoch_sim k a HR HW) as (k' & Hk & HR').
  exists k', (a_new_epoch a). split; [done|]. split; [done|]. intros p c Hc.
  destruct (Hb p c Hc) as [Hp Hct]. exists (recharge c). cbn [a_new_epoch a_set_pcbs a_pcbs].
  rewrite lookup_fmap, Hc. split; [done|]. pose proof (Z.div_mod (counter c) 2) as Hd. pose proof (Z.mod_pos_bound (counter c) 2).
  assert (counter (recharge c) = counter c / 2 + priority c) as E.
  { unfold recharge. cbn [counter with_counter]. rewrite Z.shiftr_div_pow2 by done.
    change (2 ^ 1) with 2. apply s64_id. lia. }
  split; [done|]. split; [done|]. rewrite E. change (priority (recharge c)) with (priority c). lia.
Qed.

Lemma epoch_bonus_bounded_witness :
  ∃ k' a', new_epoch (boot_kernel PRIORITY_AGING (λ _, 0)) = Done (tt, k') ∧ R k' a' ∧
    ∀ p c, a_pcbs (boot_akernel PRIORITY_AGING (λ _, 0)) !! p = Some c → ∃ c', a_pcbs a' !! p = Some c' ∧
      counter c' = counter c / 2 + priority c ∧ priority c' = priority c ∧
      priority c' ≤ counter c' ≤ 2 * priority c'.
Proof.
  apply (epoch_bonus_bounded _ (boot_akernel PRIORITY_AGING (λ _, 0))); [apply boot_R|apply boot_Inv|].
  intros p c. simpl. intros [_ <-]%lookup_singleton_Some. simpl. lia.
Defined.

(** ** Lottery *)

(** The process the code finds for the drawn number [w]. *)
Definition found (k : Kernel) (w : Z) : option ptr :=
  match find_winner (queue_fuel k) w 0 None (qhead (ready_queue k)) k with
  | Done ((_, o), _) => o
  | Fault _ => None
  end.

Lemma found_winner k a w :
  R k a → total (a_tickets a) (a_ready a) < 2 ^ 63 → 0 ≤ w < total (a_tickets a) (a_ready a) →
  found k w = winner (a_tickets a) w (a_ready a).
Proof.
  intros HR Hov Hw. unfold found, winner.
  destruct (walk_finds k a (queue_fuel k) (ready_queue k) w HR Hov)
    as (l1 & p & l2 & -> & _ & ->); try done.
  pose proof (queue_fuel_enough k a READY_QUEUE HR I) as H. simpl in H. lia.
Qed.

(** The sum loop from the head of the ready queue. *)
Lemma ready_sum k a :
  R k a →
  sum_tickets (queue_fuel k) (qhead (ready_queue k)) 0 k =
    Done (s64 (total (a_tickets a) (a_ready a)), k).
Proof.
  intros HR. destruct (R_queues _ _ HR READY_QUEUE I) as (v & [= <-] & Hl & _). simpl in Hl.
  pose proof (queue_fuel_enough k a READY_QUEUE HR I) as Hf. simpl in Hf.
  rewrite (total_ext _ (h_tickets (heap k))) by (intros; by apply a_tickets_heap).
  rewrite <- (Z.add_0_l (total _ _)). rewrite <- (sum_tickets_wraps (queue_fuel k) k _ _ 0 Hl) by lia.
  done.
Qed.

(** The numbers that make [p] win are those of its own tickets. *)
Lemma winner_count t l1 p l2 :
  (∀ q, q ∈ l1 ++ p :: l2 → 0 < t q) → NoDup (l1 ++ p :: l2) →
  length (filter (λ w, winner t w (l1 ++ p :: l2) = Some p) (seqZ 0 (total t (l1 ++ p :: l2)))) =
  Z.to_nat (t p).
Proof.
  intros Ht Hnd. set (L := l1 ++ p :: l2). assert (0 < t p) as Hp by (apply Ht; set_solver).
  assert (0 ≤ total t l1) as H1 by (apply total_nonneg; intros; apply Ht; set_solver).
  assert (0 ≤ total t l2) as H2 by (apply total_nonneg; intros; apply Ht; set_solver).
  assert (∀ w, 0 ≤ w < total t L → winner t w L = Some p ↔ total t l1 ≤ w < total t l1 + t p) as Hwin.
  { intros w Hw. unfold winner. split.
    - destruct (draw_total t w L Ht Hw) as [[[k1 q] k2] E]. rewrite E. intros [= ->].
      apply draw_Some in E as [El Hr]; [|lia]. unfold L in El.
      apply NoDup_app in Hnd as (_ & Hn1 & Hn2%NoDup_cons). destruct Hn2 as [Hn2 _].
      assert (l1 = k1) as ->; [|done].
      clear -El Hn1 Hn2. revert k1 El Hn1.
      induction l1 as [|x l1 IH]; intros [|y k1] El Hn1; simpl in *; simplify_eq; try done.
      + exfalso. apply Hn2. set_solver.
      + exfalso. apply (Hn1 p); set_solver.
      + f_equal. apply IH; [done|]. intros z Hz. apply Hn1. set_solver.
    - intros Hr. unfold L. rewrite (draw_complete t l1 p l2 w); [done| |done].
      intros q Hq. specialize (Ht q ltac:(set_solver)). lia. }
  assert (total t L = total t l1 + (t p + total t l2)) as EL by (unfold L; by rewrite total_app).
  rewrite EL, seqZ_app, filter_app, length_app by lia.
  rewrite (filter_none _ (seqZ 0 (total t l1))).
  2: { intros w Hw%elem_of_seqZ. rewrite Hwin by lia. lia. }
  rewrite seqZ_app, filter_app, length_app by lia.
  rewrite (filter_all _ (seqZ _ (t p))).
  2: { intros w Hw%elem_of_seqZ. apply Hwin; lia. }
  rewrite filter_none.
  2: { intros w Hw%elem_of_seqZ. rewrite Hwin by lia. lia. }
  simpl. rewrite length_seqZ. lia.
Qed.

(** C31: the lottery is exactly proportional as long as the tickets of the ready
    processes together stay below 2^63. The sum loop yields the total number of
    tickets wrapped to a long, whatever the tickets are; when the total is below 2^63
    it is the total itself, and of the numbers that can be drawn, 0 to total - 1, the
    walk finds process p for exactly as many as p has tickets. Nothing in the code
    enforces that bound ([lottery_overflow]). *)
Theorem lottery_proportional k a p c :
  R k a → p ∈ a_ready a → a_pcbs a !! p = Some c →
  let tot := total (a_tickets a) (a_ready a) in
  let sum := sum_tickets (queue_fuel k) (qhead (ready_queue k)) 0 k in
  0 < tot ∧ sum = Done (s64 tot, k) ∧
  (tot < 2 ^ 63 →
     sum = Done (tot, k) ∧
     length (filter (λ w, found k w = Some p) (seqZ 0 tot)) = Z.to_nat (tickets_of c)).
Proof.
  intros HR Hp Hc tot sum. pose proof (R_disjoint _ _ HR) as Hd.
  assert (0 < tot) as Hpos.
  { apply total_pos; [intros; apply a_tickets_pos|]. intros E. rewrite E in Hp. set_solver. }
  assert (sum = Done (s64 tot, k)) as Es by by apply ready_sum.
  split; [done|]. split; [done|]. intros Hov. split; [by rewrite Es, s64_id by lia|].
  rewrite (filter_ext_in _ (λ w, winner (a_tickets a) w (a_ready a) = Some p)).
  - apply list_elem_of_split in Hp as (l1 & l2 & El). unfold tot. rewrite El.
    rewrite winner_count; [by unfold a_tickets; rewrite Hc|intros; apply a_tickets_pos|].
    rewrite <- El. apply (proj1 Hd READY_QUEUE).
  - intros w Hw%elem_of_seqZ. rewrite (found_winner k a); [done..|]. fold tot. lia.
Qed.

Lemma lottery_proportional_witness :
  sum_tickets (queue_fuel (demo LOTTERY)) (qhead (ready_queue (demo LOTTERY))) 0 (demo LOTTERY) =
    Done (60, demo LOTTERY) ∧
  length (filter (λ w, found (demo LOTTERY) w = Some 300) (seqZ 0 60)) = 30%nat.
Proof.
  destruct (lottery_proportional (demo LOTTERY) (a_demo LOTTERY) 300 (fresh 3 5 2 30 2))
    as (_ & _ & H); [apply demo_ok..|by vm_compute; set_solver|by vm_compute|].
  assert (total (a_tickets (a_demo LOTTERY)) (a_ready (a_demo LOTTERY)) = 60) as E by by vm_compute.
  rewrite E in H. destruct (H ltac:(lia)) as [H1 H2]. split; [exact H1|exact H2].
Defined.

(** [sched_set_param] accepts any number of tickets from one: with two processes of
    2^62 tickets and one of ten the sum wraps, and no process is found for the number
    2^62 + 10, which can be drawn. *)
Definition big_tickets : M Kernel (Z * Z) :=
  sched_set_param (Some 200) SCHED_PARAM_TICKETS (2 ^ 62) ≫= λ r1,
  sched_set_param (Some 300) SCHED_PARAM_TICKETS (2 ^ 62) ≫= λ r2,
  mret (r1, r2).

Example lottery_overflow :
  match big_tickets (demo LOTTERY) with
  | Done (r, k) =>
    r = (0, 0) ∧ found k (2 ^ 62 + 10) = None ∧
    match sum_tickets (queue_fuel k) (qhead (ready_queue k)) 0 k with
    | Done (t, _) => t = - 2 ^ 63 + 10
    | Fault _ => False
    end
  | Fault _ => False
  end.
Proof. vm_compute. repeat split; reflexivity. Qed.

(** *** The generator *)
Lemma lxor_range n x y : 0 ≤ n → 0 ≤ x < 2 ^ n → 0 ≤ y < 2 ^ n → 0 ≤ Z.lxor x y < 2 ^ n.
Proof.
  intros Hn Hx Hy. assert (Z.lxor x y = Z.lxor x y mod 2 ^ n) as ->; [|apply Z.mod_pos_bound; lia].
  apply Z.bits_inj'. intros i Hi. rewrite Z.lxor_spec. destruct (decide (i < n)).
  - by rewrite Z.mod_pow2_bits_low, Z.lxor_spec.
  - rewrite Z.mod_pow2_bits_high by lia.
    rewrite <- (Z.mod_small x (2 ^ n)), <- (Z.mod_small y (2 ^ n)) by done.
    by rewrite !Z.mod_pow2_bits_high by lia.
Qed.

Lemma high_bits n x i : 0 ≤ x < 2 ^ n → 0 ≤ n ≤ i → Z.testbit x i = false.
Proof. intros Hx Hi. rewrite <- (Z.mod_small x (2 ^ n)) by done. apply Z.mod_pow2_bits_high. lia. Qed.

(** x ^ (x << s), truncated to 64 bits, is zero only for x = 0. *)
Lemma xor_shiftl_nonzero x s : 0 < s → x ≠ 0 → Z.lxor x (u64 (Z.shiftl x s)) ≠ 0.
Proof.
  intros Hs Hx E%Z.lxor_eq. apply Hx. apply Z.bits_inj'. intros i Hi. rewrite Z.bits_0.
  revert i Hi. apply (Z_lt_induction (λ i, Z.testbit x i = false)). intros i IH.
  destruct (decide (i < 0)); [by apply Z.testbit_neg_r|]. rewrite E. unfold u64, wrap_u.
  destruct (decide (i < 64)).
  - rewrite Z.mod_pow2_bits_low by done. rewrite Z.shiftl_spec by lia.
    destruct (decide (i < s)); [by rewrite Z.testbit_neg_r by lia|]. apply IH; lia.
  - apply Z.mod_pow2_bits_high. lia.
Qed.

Lemma xor_shiftr_nonzero x s : 0 < s → 0 ≤ x < 2 ^ 64 → x ≠ 0 → Z.lxor x (Z.shiftr x s) ≠ 0.
Proof.
  intros Hs Hr Hx E%Z.lxor_eq. apply Hx. apply Z.bits_inj'. intros i Hi. rewrite Z.bits_0.
  assert (∀ n, 0 ≤ n → ∀ i, 0 ≤ i → 64 - n ≤ i → Z.testbit x i = false) as H.
  { apply (natlike_ind (λ n, ∀ i, 0 ≤ i → 64 - n ≤ i → Z.testbit x i = false)).
    - intros j Hj Hjm. apply (high_bits 64); [done|lia].
    - intros m Hm IH j Hj Hjm. rewrite E, Z.shiftr_spec by done. apply IH; lia. }
  apply (H 64); lia.
Qed.

Lemma u64_range x : 0 ≤ u64 x < 2 ^ 64.
Proof. by apply (wrap_u_range 64). Qed.

Lemma xorshift64_alive x : 0 < x < 2 ^ 64 → 0 < xorshift64 x < 2 ^ 64.
Proof.
  intros Hx. unfold xorshift64. set (y := Z.lxor x _). set (z := Z.lxor y _).
  assert (0 ≤ y < 2 ^ 64) as Hy by (apply lxor_range; [done|lia|apply u64_range]).
  assert (y ≠ 0) as Hy0 by (apply xor_shiftl_nonzero; lia).
  assert (0 ≤ Z.shiftr y 7 < 2 ^ 64) as Hr.
  { rewrite Z.shiftr_div_pow2 by done. split; [apply Z.div_pos; lia|].
    apply Z.le_lt_trans with y; [apply Z.div_le_upper_bound; lia|lia]. }
  assert (0 ≤ z < 2 ^ 64) as Hz by (apply lxor_range; done).
  assert (z ≠ 0) as Hz0 by (apply xor_shiftr_nonzero; done || lia).
  pose proof (xor_shiftl_nonzero z 17 ltac:(lia) Hz0).
  pose proof (lxor_range 64 z (u64 (Z.shiftl z 17)) ltac:(lia) Hz (u64_range _)). lia.
Qed.

(** The random number generator never dies. From any 64-bit state and any
    timer value, lottery_random returns a non-zero 64-bit number, which is also
    the new state, and it changes nothing else but the number of timer reads. *)
Theorem lottery_random_alive k :
  0 ≤ lottery_rng_state (globals k) < 2 ^ 64 →
  ∃ x, lottery_random k =
    Done (x, with_globals (with_lottery_rng_state x (with_timer_reads (S (timer_reads (globals k))) (globals k))) k) ∧
    0 < x < 2 ^ 64.
Proof.
  intros Hs. exists (rng_step (globals k)).1. split; [by destruct k as [? ? ? []]|].
  unfold rng_step. simpl. apply xorshift64_alive.
  assert (0 ≤ Z.lxor (lottery_rng_state (globals k)) (u32 (system_timer (globals k) (timer_reads (globals k)))) < 2 ^ 64).
  { apply lxor_range; [done..|]. pose proof (u32_range (system_timer (globals k) (timer_reads (globals k)))). lia. }
  case_bool; [done|lia].
Qed.

Lemma lottery_random_alive_witness :
  ∃ x, lottery_random (demo LOTTERY) =
    Done (x, with_globals (with_lottery_rng_state x (with_timer_reads 1 (globals (demo LOTTERY)))) (demo LOTTERY)) ∧
    0 < x < 2 ^ 64.
Proof. apply (lottery_random_alive (demo LOTTERY)). by vm_compute. Defined.

(** ** Multilevel queues *)
(** READY once its pending signals have been handled. *)
Definition eligible (a : AKernel) (p : ptr) : Prop := state ∘ apply_signals <$> a_pcbs a !! p = Some PROCESS_READY.

(** Dequeueing takes the first eligible process; the ones before it leave the queue. *)
Lemma dequeue_eligible k a q o a1 : R k a → WF a → valid_queue q → a_dequeue_ready q a = (o, a1) →
  ∃ pre, a_queue a q = pre ++ option_list o ++ a_queue a1 q ∧ (∀ x, x ∈ pre → ¬ eligible a x) ∧
    (∀ x, o = Some x → eligible a x) ∧ (∀ x, x ∉ a_queue a q → eligible a1 x ↔ eligible a x).
Proof.
  intros HR HW Hq. unfold a_dequeue_ready. destruct (first_ready _ _) as [[o' l'] m'] eqn:Ef. intros [= -> <-].
  assert (∀ p, p ∈ a_queue a q → ∃ c, a_pcbs a !! p = Some c ∧ state c = PROCESS_READY) as Hrdy
    by (intros p Hp; by destruct (wf_queued _ HW p); [exists q|]).
  destruct (first_ready_spec _ _ _ _ _ (proj1 (R_disjoint _ _ HR) q) Hrdy Ef) as (pre & El & _ & H1 & H2 & H3 & H4).
  assert (a_queue (a_set_queue q l' (a_set_pcbs m' a)) q = l') as -> by (apply a_queue_set; [done|apply HR]).
  assert (∀ x c, x ∈ pre ++ option_list o → m' !! x = Some c → state ∘ apply_signals <$> a_pcbs a !! x = Some (state c)) as Hs.
  { intros x c Hx Hc. rewrite H1 in Hc by done. apply fmap_Some in Hc as (c0 & -> & ->). done. }
  exists pre. split; [exact El|]. split; [|split].
  - intros x Hx He. destruct (Hrdy x) as (c0 & Hc0 & _); [rewrite El; set_solver|].
    assert (m' !! x = Some (apply_signals c0)) as Hm by (rewrite H1 by set_solver; by rewrite Hc0).
    apply (H3 x _ Hx Hm). unfold eligible in He. rewrite Hc0 in He. by injection He.
  - intros x Hx. destruct (H4 x Hx) as (c & Hc & Ec). unfold eligible. rewrite (Hs x c), Ec; [done|subst o; set_solver|done].
  - intros x Hx. unfold eligible. assert (a_pcbs (a_set_queue q l' (a_set_pcbs m' a)) = m') as -> by (by destruct q).
    by rewrite H2 by (rewrite El in Hx; set_solver).
Qed.

(** The scan of the levels from [q] on: what it passes over is not eligible. *)
Lemma scan_found n q k a r a' :
  R k a → WF a → (q + n ≤ Z.to_nat ML_MAX_LEVELS)%nat → a_scan_levels n q a = (r, a') →
  (∀ j x, (q ≤ j < match r with Some (_, l) => l | None => q + n end)%nat → x ∈ a_queue a (ML_QUEUE j) → ¬ eligible a x) ∧
  ∀ p l, r = Some (p, l) → (∀ j, (q ≤ j < l)%nat → a_queue a' (ML_QUEUE j) = []) ∧ eligible a p ∧
    ∃ pre, a_queue a (ML_QUEUE l) = pre ++ p :: a_queue a' (ML_QUEUE l) ∧ ∀ x, x ∈ pre → ¬ eligible a x.
Proof.
  revert q k a. induction n as [|n IH]; intros q k a HR HW Hq; cbn [a_scan_levels].
  { intros [= <- <-]. split; [intros; lia|done]. }
  assert (valid_queue (ML_QUEUE q)) as Hv by (simpl; lia).
  pose proof (dequeue_post_head k a (ML_QUEUE q) HR HW Hv) as Hpost.
  destruct (a_dequeue_ready (ML_QUEUE q) a) as [o a1] eqn:Ed.
  destruct (dequeue_eligible k a (ML_QUEUE q) o a1 HR HW Hv Ed) as (pre & El & Hpre & Ho & Hx).
  destruct o as [x|].
  - intros [= <- <-]. split; [intros; lia|]. intros p l [= <- <-]. split; [intros; lia|]. split; [by apply Ho|].
    by exists pre.
  - intros Hs. assert (∃ k1, R k1 a1) as [k1 HR1].
    { destruct (choose_head_sim k a (ML_QUEUE q) mret None a1 HR HW Hv) as (k1 & _ & ?); [|by exists k1].
      rewrite Ed. intros k1 HR1 _. by apply sim_ret. }
    pose proof (dq_none _ _ _ _ Hpost eq_refl) as En. cbn [snd] in En. rewrite En, app_nil_r in El. simpl in El.
    assert (∀ j, (q < j)%nat → a_queue a1 (ML_QUEUE j) = a_queue a (ML_QUEUE j)) as Hrest.
    { intros j Hj. apply (dq_rest _ _ _ _ Hpost). intros E. assert (j = q) by congruence. lia. }
    assert (∀ j y, (q < j)%nat → y ∈ a_queue a (ML_QUEUE j) → eligible a1 y ↔ eligible a y) as Hsame.
    { intros j y Hj Hy. apply Hx. intros Hy'. pose proof (proj2 (R_disjoint _ _ HR) _ _ _ Hy Hy') as E.
      assert (j = q) by congruence. lia. }
    destruct (IH (S q) k1 a1 HR1 (dq_WF _ _ _ _ Hpost) ltac:(lia) Hs) as (H0 & H1).
    destruct (scan_levels_sim n (S q) k1 a1 HR1 (dq_WF _ _ _ _ Hpost)) as (_ & _ & _ & Hl & Hst & _); [lia|].
    rewrite Hs in Hl, Hst. simpl in Hl, Hst. split.
    + intros j y Hj Hy. destruct (decide (j = q)) as [->|Hne]; [apply Hpre; by rewrite <- El|].
      rewrite <- (Hsame j y) by (done || lia). apply (H0 j); [destruct r as [[? ?]|]; lia|by rewrite Hrest by lia].
    + intros p l ->. destruct (H1 p l eq_refl) as (H2 & He & pre' & E' & Hp'). destruct (Hl p l eq_refl) as [_ Hlr].
      rewrite Hrest in E' by lia. split; [|split].
      * intros j Hj. destruct (decide (j = q)) as [->|Hne]; [|apply H2; lia].
        apply elem_of_nil_inv. intros y Hy. apply (cp_queued _ _ _ Hst (ML_QUEUE q)) in Hy. rewrite En in Hy. set_solver.
      * apply (Hsame l p); [lia| |done]. rewrite E'. set_solver.
      * exists pre'. split; [done|]. intros y Hy. rewrite <- (Hsame l y); [by apply Hp'|lia|]. rewrite E'. set_solver.
Qed.

(** C32: the multilevel queues serve the first READY process of the highest level that
    has one, READY meaning that it still is once its pending signals are handled.
    Either no level has such a process, the idle process runs and nothing is queued;
    or the running process was such a one of some level, no process before it in
    its level and none of any level above was, all these have left the queues, the
    rest of its level follows in order, and its time slice is the quantum of the
    level. *)
Theorem multilevel_serves_highest k a policy :
  R k a → Inv 0 a → algorithm_ml_policy (a_alg a) = Some policy →
  ∃ k' a', _schedule k = Done (tt, k') ∧ R k' a' ∧
    ((a_cur a' = init_process ∧ (∀ p, ¬ queued a' p) ∧
      ∀ j p, Z.of_nat j < n_levels policy → p ∈ a_queue (a_competition a) (ML_QUEUE j) → ¬ eligible (a_competition a) p) ∨
     ∃ l pre, 0 ≤ Z.of_nat l < n_levels policy ∧
       (∀ j, (j < l)%nat → a_queue a' (ML_QUEUE j) = [] ∧
         ∀ p, p ∈ a_queue (a_competition a) (ML_QUEUE j) → ¬ eligible (a_competition a) p) ∧
       a_queue (a_competition a) (ML_QUEUE l) = pre ++ a_cur a' :: a_queue a' (ML_QUEUE l) ∧
       (∀ p, p ∈ pre → ¬ eligible (a_competition a) p) ∧ eligible (a_competition a) (a_cur a') ∧
       a_counter a' (a_cur a') = nth l (quantum policy) 0).
Proof.
  intros HR HI Hpol. destruct (_schedule_sim k a HR HI) as (k' & Hk & HR').
  exists k', (a_schedule a). split; [done|]. split; [done|].
  destruct (competition_ok k a HR HI) as (HI1 & Eca & k1 & HR1). pose proof (inv_WF _ _ HI1) as HW1.
  destruct (ml_policy_facts _ _ Hpol) as [Hn Hm].
  assert (a_choice a = a_choose_level policy (a_competition a)) as Ec.
  { unfold a_choice. destruct (a_alg a); simplify_eq/=; done. }
  destruct (scan_levels_sim (Z.to_nat (n_levels policy)) 0 k1 _ HR1 HW1) as (_ & _ & _ & Hl & _);
    [rewrite Hn; done|].
  unfold a_choose_level in Ec. destruct (a_scan_levels _ _ _) as [r a2] eqn:Es; simpl in Hl.
  destruct (scan_found (Z.to_nat (n_levels policy)) 0 k1 _ r a2 HR1 HW1) as (H0 & H1); [rewrite Hn; done|done|].
  destruct r as [[p l]|].
  - right. destruct (H1 p l eq_refl) as (H2 & He & pre & H3 & H4).
    destruct (Hl p l eq_refl) as [[c Hc] Hr]. exists l, pre. rewrite a_schedule_cur, Ec. simpl fst.
    split; [lia|]. split; [|split; [|split; [exact H4|split; [exact He|]]]].
    + intros j Hj. split; [|intros x; apply H0; lia].
      rewrite a_schedule_queue, Ec. simpl snd. rewrite a_queue_update. apply H2. lia.
    + rewrite a_schedule_queue, Ec. simpl snd. rewrite a_queue_update. exact H3.
    + rewrite a_schedule_eq, Ec, a_counter_preempt, a_counter_switch. simpl snd.
      unfold a_counter. by rewrite a_update_lookup, Hc.
  - left. rewrite a_schedule_cur, Ec. split; [done|]. split; [|intros j x Hj; apply H0; lia].
    destruct (choice_ok_post k a HR HI) as (o & E & [Hst' Hno]). rewrite Ec in E, Hno. simpl in E, Hno.
    assert (o = None) as ->.
    { destruct o as [x|]; [|done]. simpl in E. destruct (cp_picked _ _ _ Hst' x eq_refl) as (Hx & _).
      destruct (wf_queued _ HW1 x Hx) as [? _]. congruence. }
    intros p [q Hq]. rewrite a_schedule_queue, Ec in Hq. by apply (Hno eq_refl p); exists q.
Qed.

(** The demo's idle process gives way to process 100, the only one of level 0. *)
Lemma multilevel_serves_highest_witness : ∃ k' a', _schedule (demo MLFQ) = Done (tt, k') ∧ R k' a' ∧ a_cur a' = 100.
Proof.
  destruct (multilevel_serves_highest (demo MLFQ) (a_demo MLFQ) ml_policy_mlfq) as (k' & a' & E & HR & H);
    [apply demo_ok..|reflexivity|]. exists k', a'. split; [exact E|]. split; [exact HR|]. clear E HR k'.
  assert (a_queue (a_competition (a_demo MLFQ)) (ML_QUEUE 0) = [100]) as E0 by (vm_compute; reflexivity).
  assert (eligible (a_competition (a_demo MLFQ)) 100) as He by (unfold eligible; vm_compute; reflexivity).
  assert (100 ∈ a_queue (a_competition (a_demo MLFQ)) (ML_QUEUE 0)) as Hin by (rewrite E0; by left).
  destruct H as [(_ & _ & H)|(l & pre & _ & H1 & H2 & _ & _ & _)].
  - exfalso. apply (H 0%nat 100); [done|exact Hin|exact He].
  - destruct l as [|l]; [|exfalso; by apply (proj2 (H1 0%nat ltac:(lia)) 100)].
    rewrite E0 in H2. destruct pre as [|? [|? ?]]; [by injection H2|discriminate H2..].
Defined.
