(* ===== verification/TickProps.v ===== *)
(** * What ticks, blocking, parameters, exit and the context switch guarantee *)
From stdpp Require Import base gmap list.
From Stdlib Require Import ZArith Lia.
From S2P Require Import Prelude Kernel Queue Scheduler SchedulerSpec Aging Lottery Dispatch Entries Boot.

#[local] Open Scope Z_scope.

(** ** The multilevel bookkeeping *)
Definition level_of (a : AKernel) (i : Z) : Z := default 0 (array_get (queue_level (a_globals a)) i).
Definition boost_ticks (a : AKernel) : Z := ml_ticks_since_boost (a_globals a).

Lemma level_of_set a i v j :
  length (queue_level (a_globals a)) = Z.to_nat N_PROCESSES → 0 ≤ i < N_PROCESSES → 0 ≤ j →
  level_of (a_set_level i v a) j = if decide (i = j) then v else level_of a j.
Proof.
  intros Hl Hi Hj. unfold level_of. simpl. rewrite array_get_insert; [|rewrite Hl; unfold N_PROCESSES in *; lia|done].
  by case_decide.
Qed.

Lemma level_of_boost a i : 0 ≤ i < N_PROCESSES → level_of (a_boost a) i = 0.
Proof.
  intros Hi. unfold level_of, array_get.
  change (queue_level (a_globals (a_boost a))) with (replicate (Z.to_nat N_PROCESSES) 0).
  case_bool; [lia|]. rewrite lookup_replicate_2; [done|]. unfold N_PROCESSES in *. lia.
Qed.

Lemma level_of_current d a c :
  Inv d a → a_pcbs a !! a_cur a = Some c → a_level a (a_cur a) = level_of a (pid c).
Proof. intros HI Hc. unfold a_level, level_of. by rewrite Hc. Qed.

Lemma level_range d a i : Inv d a → 0 ≤ i < N_PROCESSES → 0 ≤ level_of a i < ML_MAX_LEVELS.
Proof.
  intros HI Hi. destruct (wf_levels _ (inv_WF _ _ HI)) as [Hl Hf].
  destruct (array_get_is_Some (queue_level (a_globals a)) i) as [v Hv]; [rewrite Hl; unfold N_PROCESSES in *; lia|].
  unfold level_of. rewrite Hv. simpl. unfold array_get in Hv. case_match; [done|].
  rewrite Forall_lookup in Hf. eauto.
Qed.

(** C33: one tick of MLFQ. The boost counter advances and the queues stay as they
    are, except on every 300th tick, when the counter restarts and all queued
    processes, higher levels first and in order, are moved to level 0. The tracked
    levels of the other processes do not change except that the boost resets them
    to 0; the level of the current process goes down by one, at most to the lowest
    level, exactly when it is not the idle process, its slice is over and it is
    not in a critical section. No PCB changes. *)
Theorem mlfq_tick d k a c :
  R k a → Inv d a → a_alg a = MLFQ → 0 ≤ boost_ticks a < MLFQ_BOOST_PERIOD →
  a_pcbs a !! a_cur a = Some c →
  let boosts := boost_ticks a =? MLFQ_BOOST_PERIOD - 1 in
  ∃ k' a', _multilevel_on_tick k = Done (tt, k') ∧ R k' a' ∧ Inv d a' ∧
    a_pcbs a' = a_pcbs a ∧
    boost_ticks a' = (if boosts then 0 else boost_ticks a + 1) ∧
    a_ml a' = (if boosts then mjoin (a_ml a) :: replicate 4 [] else a_ml a) ∧
    ∀ i, 0 ≤ i < N_PROCESSES →
      let l := if boosts then 0 else level_of a i in
      level_of a' i =
        if bool_decide (i = pid c) && negb (bool_decide (a_cur a = init_process)) && expired c
        then Z.min (l + 1) 4 else l.
Proof.
  intros HR HI Ea Ht Hc boosts.
  destruct (on_tick_sim k d a HR HI) as (Hs & HI' & _ & _ & Ep).
  rewrite Ea in Hs. destruct Hs as (k' & Hk & HR').
  exists k', (a_on_tick a). split; [exact Hk|]. split; [done|]. split; [done|]. split; [done|].
  destruct (count_boost_sim k d a ml_policy_mlfq HR HI) as (_ & HI1 & _ & Ecur & Ep1); [by rewrite Ea|].
  unfold a_on_tick. rewrite Ea. simpl algorithm_ml_policy. cbv iota. unfold a_ml_tick.
  set (a1 := a_count_boost ml_policy_mlfq a) in *.
  assert (boost_ticks a1 = (if boosts then 0 else boost_ticks a + 1) ∧
    a_ml a1 = (if boosts then mjoin (a_ml a) :: replicate 4 [] else a_ml a) ∧
    ∀ i, 0 ≤ i < N_PROCESSES → level_of a1 i = if boosts then 0 else level_of a i) as (T1 & T2 & T3).
  { unfold a1, a_count_boost. simpl boost_period. unfold MLFQ_BOOST_PERIOD in *.
    assert (0 <? 300 = true) as -> by done. cbv iota. fold (boost_ticks a).
    rewrite s32_id by lia. unfold boosts. case_bool.
    - assert (boost_ticks a =? 300 - 1 = true) as -> by (apply Z.eqb_eq; lia).
      split; [done|]. split; [|intros i Hi; by apply level_of_boost].
      simpl. unfold a_boosted_queues. by rewrite (R_alevels _ _ HR).
    - assert (boost_ticks a =? 300 - 1 = false) as -> by (apply Z.eqb_neq; lia). done. }
  assert (a_pcbs a1 !! a_cur a1 = Some c) as Hc1 by (by rewrite Ep1, Ecur).
  destruct (wf_pid _ (inv_WF _ _ HI) _ _ Hc) as [Hpid _].
  unfold a_demote. simpl demote_on_expiry. cbv iota beta. simpl negb. cbv iota.
  rewrite Ecur. case_decide as Hi.
  { split; [done|]. split; [done|]. intros i Hir. rewrite T3 by done.
    rewrite (bool_decide_eq_true_2 (a_cur a = init_process)) by done. by rewrite andb_false_r. }
  rewrite <- Ecur, Hc1, Ecur, (bool_decide_eq_false_2 (a_cur a = init_process)) by done.
  destruct (expired c) eqn:Ex; simpl negb; cbv iota.
  2: { split; [done|]. split; [done|]. intros i Hir. rewrite T3 by done. by rewrite !andb_false_r. }
  rewrite <- Ecur, (level_of_current d a1 c) by done.
  pose proof (level_range d a1 (pid c) HI1 Hpid) as Hlr. unfold ML_MAX_LEVELS in Hlr.
  simpl n_levels. case_bool.
  - split; [done|]. split; [done|]. intros i Hir.
    rewrite level_of_set; [|apply (wf_levels _ (inv_WF _ _ HI1))|done|lia]. rewrite !andb_true_r.
    case_decide as E; [subst i; rewrite bool_decide_eq_true_2 by done|rewrite bool_decide_eq_false_2 by congruence];
      rewrite ?T3 in * by done; lia.
  - split; [done|]. split; [done|]. intros i Hir. rewrite T3 by done. rewrite !andb_true_r.
    case_bool_decide as E; [|done]. subst i. rewrite <- T3 by done. lia.
Qed.

Lemma mlfq_tick_witness :
  ∃ k' a', _multilevel_on_tick (demo MLFQ) = Done (tt, k') ∧ R k' a' ∧ boost_ticks a' = 1.
Proof.
  destruct (mlfq_tick 0 (demo MLFQ) (a_demo MLFQ) INIT_PROCESS) as (k' & a' & Hk & HR & _ & _ & Ht & _);
    [apply demo_ok..|by vm_compute|by vm_compute|by vm_compute|].
  exists k', a'. split; [exact Hk|]. split; [exact HR|]. rewrite Ht. by vm_compute.
Defined.

(** ** The timer tick *)

(** The tick only charges the current process. *)
Definition only_charged (a a' : AKernel) : Prop :=
  a_cur a' = a_cur a ∧ cpu (a_globals a') = cpu (a_globals a) ∧
  ttbr0 (a_globals a') = ttbr0 (a_globals a) ∧ a_ready a' = a_ready a ∧
  (∀ p, p ≠ a_cur a → a_pcbs a' !! p = a_pcbs a !! p) ∧
  ∀ c, a_pcbs a !! a_cur a = Some c → ∃ t, 
    a_pcbs a' !! a_cur a = Some (with_counter t (with_burst_ticks (s64 (burst_ticks c + 1)) c)) ∧
    (t = s64 (counter c - 1) ∨ t = 0 ∧ s64 (counter c - 1) ≤ 0).

Lemma on_tick_frame a :
  cpu (a_globals (a_on_tick a)) = cpu (a_globals a) ∧
  ttbr0 (a_globals (a_on_tick a)) = ttbr0 (a_globals a) ∧ a_ready (a_on_tick a) = a_ready a.
Proof.
  unfold a_on_tick. destruct (algorithm_ml_policy _) as [po|]; [|done].
  assert (∀ b, cpu (a_globals (a_demote po b)) = cpu (a_globals b) ∧
    ttbr0 (a_globals (a_demote po b)) = ttbr0 (a_globals b) ∧ a_ready (a_demote po b) = a_ready b) as H.
  { intros b. unfold a_demote. repeat case_match; done. }
  unfold a_ml_tick. destruct (H (a_count_boost po a)) as (-> & -> & ->).
  unfold a_count_boost. repeat case_match; done.
Qed.

(** C34: the tick preempts exactly when it should. Let d be the depth of the
    critical sections of the current process. If after the tick it has time left, or
    d > 0, or the algorithm is not preemptive (FCFS, SJF), then the tick keeps it on
    the CPU: no switch, registers, address space, ready queue and all other PCBs
    unchanged, its counter decremented (or 0) and its burst one tick longer.
    Otherwise the tick charges it and reschedules. *)
Theorem tick_preempts_exactly d k a c :
  R k a → Inv d a → 0 ≤ d → a_pcbs a !! a_cur a = Some c →
  ∃ k', handle_timer_tick k = Done (tt, k') ∧ R k' (a_tick a) ∧ Inv d (a_tick a) ∧
    if (0 <? s64 (counter c - 1)) || (0 <? d) || negb (is_preemptive (descriptor (a_alg a)))
    then only_charged a (a_tick a)
    else a_tick a = a_reschedule (a_update (a_cur a) (with_counter 0) (a_on_tick (a_charge a))).
Proof.
  intros HR HI Hd Hc. destruct (tick_sim k a d HR HI Hd) as [(k' & Hk & HR') HI'].
  exists k'. split; [done|]. split; [done|]. split; [done|].
  pose proof (Inv_charge _ _ HI) as HI1.
  set (c1 := with_counter (s64 (counter c - 1)) (with_burst_ticks (s64 (burst_ticks c + 1)) c)).
  assert (a_pcbs (a_charge a) !! a_cur a = Some c1) as Hc1.
  { unfold a_charge. by rewrite a_update_lookup, Hc. }
  destruct (charge_sim k a c (λ _, mret tt) tt (a_charge a) HR Hc) as (k1 & _ & HR1);
    [intros k1 HR1; by apply sim_ret|].
  destruct (on_tick_sim k1 d _ HR1 HI1) as (_ & HI2 & Ealg & Ecur & Ep).
  destruct (on_tick_frame (a_charge a)) as (Ecpu & Ett & Erdy).
  unfold a_tick. set (a2 := a_on_tick (a_charge a)) in *.
  change (a_cur (a_charge a)) with (a_cur a) in *. change (a_alg (a_charge a)) with (a_alg a) in Ealg.
  assert (a_pcbs a2 !! a_cur a = Some c1) as Hc2 by by rewrite Ep.
  assert (preempt_disabled c = d) as Epre.
  { pose proof (inv_preempt _ _ HI _ _ Hc) as H. by rewrite decide_True in H. }
  unfold a_keeps_cpu. rewrite Ecur, Hc2.
  change (counter c1) with (s64 (counter c - 1)). change (preempt_disabled c1) with (preempt_disabled c).
  rewrite Epre. change (a_alg (a_update (a_cur a) (with_counter 0) a2)) with (a_alg a2). rewrite Ealg.
  assert (∀ p, p ≠ a_cur a → a_pcbs a2 !! p = a_pcbs a !! p) as Hoth.
  { intros p Hp. rewrite Ep. unfold a_charge. by apply a_update_lookup_ne. }
  destruct ((0 <? s64 (counter c - 1)) || (0 <? d)) eqn:Ek; cbn [orb].
  - split; [done|]. split; [done|]. split; [done|]. split; [done|]. split; [done|].
    intros c' Hc'. rewrite Hc in Hc'. injection Hc' as <-.
    exists (s64 (counter c - 1)). split; [done|by left].
  - apply orb_false_iff in Ek as [Ek _]. apply Z.ltb_ge in Ek.
    destruct (is_preemptive _); [done|]. simpl negb. cbv iota.
    split; [done|]. split; [done|]. split; [done|]. split; [done|]. split.
    + intros p Hp. by rewrite a_update_lookup_ne, Hoth.
    + intros c' Hc'. rewrite Hc in Hc'. injection Hc' as <-. exists 0. split; [|by right].
      by rewrite a_update_lookup, Hc2.
Qed.

Lemma tick_preempts_exactly_witness :
  ∃ k', handle_timer_tick (demo SJF) = Done (tt, k') ∧ only_charged (a_demo SJF) (a_tick (a_demo SJF)).
Proof.
  destruct (tick_preempts_exactly 0 (demo SJF) (a_demo SJF) INIT_PROCESS) as (k' & Hk & _ & _ & H);
    [apply demo_ok..|done|by vm_compute|].
  exists k'. split; [exact Hk|]. exact H.
Defined.

(** ** Blocking *)

(** The burst estimate. schedule, called by a process other than the idle one
    that has blocked or terminated, sets its estimate to the mean of the measured
    burst and the old estimate and restarts the measure; a process that merely
    yields keeps both. In every case its time slice is given up, and the decision
    is the one of the dispatcher. *)
Theorem schedule_updates_estimate k a c :
  R k a → Inv 0 a → a_pcbs a !! a_cur a = Some c → a_cur a ≠ init_process →
  0 ≤ burst_ticks c < 2 ^ 62 → 0 ≤ est_burst c < 2 ^ 62 →
  let c' := with_counter 0
    (if blocked c then with_burst_ticks 0 (with_est_burst ((burst_ticks c + est_burst c) / 2) c) else c) in
  ∃ k', schedule k = Done (tt, k') ∧ R k' (a_schedule (a_put (a_cur a) c' a)) ∧
        Inv 0 (a_schedule (a_put (a_cur a) c' a)).
Proof.
  intros HR HI Hc Hi Hb He c'. destruct (schedule_sim k a HR HI) as ((k' & Hk & HR') & HI' & _).
  assert (a_schedule_call a = a_schedule (a_put (a_cur a) c' a)) as E.
  { unfold a_schedule_call, a_account. rewrite decide_False by done. rewrite a_update_update.
    f_equal. rewrite (a_update_put _ _ _ _ Hc). f_equal. unfold c'. f_equal.
    destruct (blocked c); [|done]. unfold account.
    rewrite s64_id by lia. by rewrite Z.quot_div_nonneg by lia. }
  exists k'. rewrite <- E. done.
Qed.

Lemma schedule_updates_estimate_witness :
  let c := with_state PROCESS_WAITING_UART_INPUT (with_burst_ticks 5 (fresh 3 5 2 30 2)) in
  blocked c = true ∧
  ∃ k' a, _schedule (demo ROUND_ROBIN) = Done (tt, k') ∧ R k' a ∧
    ∃ k2, schedule k' = Done (tt, k2).
Proof.
  split; [by vm_compute|].
  destruct (_schedule_sim (demo ROUND_ROBIN) (a_demo ROUND_ROBIN)) as (k' & Hk & HR); [apply demo_ok..|].
  exists k', (a_schedule (a_demo ROUND_ROBIN)). split; [exact Hk|]. split; [exact HR|].
  assert ((λ c, (burst_ticks c, est_burst c)) <$>
    a_pcbs (a_schedule (a_demo ROUND_ROBIN)) !! a_cur (a_schedule (a_demo ROUND_ROBIN)) = Some (0, 7)) as H
    by by vm_compute.
  apply fmap_Some in H as (c & Hc & [= E1 E2]).
  destruct (schedule_updates_estimate k' (a_schedule (a_demo ROUND_ROBIN)) c HR) as (k2 & Hk2 & _).
  - eapply a_schedule_Inv; apply demo_ok.
  - exact Hc.
  - by vm_compute.
  - lia.
  - lia.
  - by exists k2.
Defined.

(** ** Exit *)

(** What the exit of the process with pid [me] does to another process. *)
Definition waits_for (me : Z) (c : PCB) : bool :=
  (state c =? PROCESS_WAITING_ANOTHER_PROCESS) && (pid_to_wait c =? me).
Definition woken (me : Z) (c : PCB) : PCB :=
  if waits_for me c then with_state PROCESS_READY (with_pid_to_wait (-1) c) else c.

Lemma wake_if_lookup d me i a x c :
  Inv d a → 0 ≤ i → a_pcbs a !! x = Some c →
  a_pcbs (a_wake_if_waiting me i a) !! x = Some (if decide (pid c = i) then woken me c else c).
Proof.
  intros HI Hi Hc. destruct (wf_pid _ (inv_WF _ _ HI) x c Hc) as [_ Hx].
  unfold a_wake_if_waiting, woken, waits_for. case_decide as E.
  - rewrite <- E, Hx, Hc. case_bool; [|done]. by rewrite wake_lookup, decide_True, a_update_lookup, Hc.
  - destruct (array_get _ i) as [[p|]|] eqn:Ep; [|done..].
    destruct (proj2 (wf_processes _ (inv_WF _ _ HI)) i p Ep) as (cp & Hcp & Epid). rewrite Hcp.
    assert (x ≠ p) as Hne by (intros ->; congruence).
    case_bool; [|done]. by rewrite wake_lookup, decide_False, a_update_lookup_ne by done.
Qed.

Lemma woken_pid me c : pid (woken me c) = pid c.
Proof. unfold woken. by case_bool. Qed.

Lemma wake_waiting_lookup n k d me a i x c :
  R k a → Inv d a → me = a_pid a (a_cur a) → 0 ≤ i → i + Z.of_nat n ≤ N_PROCESSES → a_pcbs a !! x = Some c →
  a_pcbs (a_wake_waiting n me i a) !! x =
    Some (if bool_decide (i ≤ pid c < i + Z.of_nat n) then woken me c else c).
Proof.
  revert k a i c. induction n as [|n IH]; intros k a i c HR HI -> Hi Hn Hc; cbn [a_wake_waiting].
  { rewrite bool_decide_eq_false_2 by lia. done. }
  destruct (exit_body_sim k d a i HR HI) as [(k1 & _ & HR1) HI1]; [lia|].
  pose proof (wake_if_lookup d (a_pid a (a_cur a)) i a x c HI Hi Hc) as Hc1.
  set (a1 := a_wake_if_waiting _ i a) in *.
  assert (a_pid a (a_cur a) = a_pid a1 (a_cur a1)) as E.
  { unfold a1 at 1. rewrite a_pid_wake_if. f_equal. unfold a_cur, a1. by rewrite a_globals_wake_if. }
  rewrite (IH k1 a1 (i + 1) _ HR1 HI1 E ltac:(lia) ltac:(lia) Hc1). f_equal.
  case_decide as Ei.
  - rewrite woken_pid, bool_decide_eq_false_2, bool_decide_eq_true_2 by lia. done.
  - by rewrite (bool_decide_ext _ (i ≤ pid c < i + Z.of_nat (S n))) by lia.
Qed.

Lemma a_exit_ready_cur a : a_cur (a_exit_ready a) = a_cur a.
Proof.
  unfold a_exit_ready. generalize (Z.to_nat N_PROCESSES). intros n. cbv zeta.
  match goal with |- a_cur (a_preempt _ (a_wake_waiting n ?me 0 ?b)) = _ =>
    transitivity (current_process (a_globals (a_wake_waiting n me 0 b))); [reflexivity|] end.
  by rewrite a_wake_waiting_globals.
Qed.

(** The PCBs when the exiting process gives up the CPU. *)
Lemma exit_lookup k a :
  R k a → Inv 0 a → running a → ∀ x c, a_pcbs a !! x = Some c →
  ∃ f, a_pcbs (a_exit_ready a) !! x = Some (f (woken (a_pid a (a_cur a)) (if decide (x = a_cur a)
       then with_state PROCESS_ZOMBIE c else c))) ∧
      (∀ c, state (f c) = state c) ∧ (x ≠ a_cur a → ∀ c, f c = c).
Proof.
  intros HR HI Hrun x c Hc. pose proof (running_not_queued _ _ HI Hrun) as Hq.
  destruct (preempt_disable_sim k a HR) as (k1 & _ & HR1); [apply HI|].
  pose proof (Inv_preempt 0 1 a ltac:(done) HI) as HI1. unfold a_exit_ready.
  set (a1 := a_preempt 1 a) in *. set (a2 := a_update (a_cur a1) (with_state PROCESS_ZOMBIE) a1).
  assert (Inv 1 a2) as HI2.
  { apply Inv_suspend; [done|by split|]. intros Hx. apply Hq. by apply queued_update in Hx. }
  destruct (sim_store_last k1 a1 (a_cur a1) (with_state PROCESS_ZOMBIE) HR1) as (k2 & _ & HR2); [apply HI1|].
  assert (a_pid a2 (a_cur a2) = a_pid a (a_cur a)) as Epid.
  { unfold a2. rewrite a_pid_update by apply _. unfold a1, a_preempt. by rewrite a_pid_update by apply _. }
  rewrite Epid.
  assert (a_pcbs a2 !! x = Some (if decide (x = a_cur a)
            then with_state PROCESS_ZOMBIE (bump_preempt 1 c) else c)) as Hc2.
  { unfold a2, a1, a_preempt. rewrite a_update_update. change (a_cur (a_update _ _ a)) with (a_cur a).
    case_decide as E; [subst x; by rewrite a_update_lookup, Hc|by rewrite a_update_lookup_ne]. }
  pose proof (wake_waiting_lookup (Z.to_nat N_PROCESSES) k2 1 (a_pid a (a_cur a)) a2 0 x _ HR2 HI2
    (eq_sym Epid) ltac:(done) ltac:(done) Hc2) as Hc3.
  set (a3 := a_wake_waiting _ _ _ a2) in *.
  assert (a_cur a3 = a_cur a) as Ecur3 by (unfold a_cur, a3; by rewrite a_wake_waiting_globals).
  destruct (wf_pid _ (inv_WF _ _ HI2) x _ Hc2) as [Hpid _].
  rewrite bool_decide_eq_true_2 in Hc3 by done.
  unfold a_preempt. rewrite Ecur3. destruct (decide (x = a_cur a)) as [->|Hne].
  - exists (λ c, bump_preempt (-1) (bump_preempt 1 c)). rewrite a_update_lookup, Hc3.
    split; [|done]. by unfold woken, waits_for.
  - exists id. rewrite a_update_lookup_ne by done. by rewrite Hc3.
Qed.

(** C35: exit. The exiting process becomes a ZOMBIE; every process that was in
    syscall_wait on its pid becomes READY, forgets the pid it waited for and is in
    a ready queue (unless it is the idle process); every other process is
    untouched; then the CPU is given up. *)
Theorem exit_wakes_waiters k a :
  R k a → Inv 0 a → running a →
  let me := a_pid a (a_cur a) in
  ∃ k' a1, exit_process k = Done (tt, k') ∧ R k' (a_schedule_call a1) ∧
    Inv 0 (a_schedule_call a1) ∧ a_cur a1 = a_cur a ∧
    a_is_running a1 (a_cur a) = false ∧ ¬ queued a1 (a_cur a) ∧
    (∀ c, a_pcbs a !! a_cur a = Some c →
       ∃ c1, a_pcbs a1 !! a_cur a = Some c1 ∧ state c1 = PROCESS_ZOMBIE) ∧
    ∀ p c, p ≠ a_cur a → a_pcbs a !! p = Some c →
      a_pcbs a1 !! p = Some (woken me c) ∧
      (waits_for me c = true → p ≠ init_process → queued a1 p).
Proof.
  intros HR HI Hrun me. destruct (exit_sim k a HR HI Hrun) as ((k' & Hk & HR') & HI' & HI1).
  exists k', (a_exit_ready a). split; [exact Hk|]. split; [exact HR'|]. split; [exact HI'|].
  assert (∀ x c, a_pcbs a !! x = Some c →
    ∃ f, a_pcbs (a_exit_ready a) !! x = Some (f (woken me (if decide (x = a_cur a)
       then with_state PROCESS_ZOMBIE c else c))) ∧
      (∀ c, state (f c) = state c) ∧ (x ≠ a_cur a → ∀ c, f c = c)) as Hlook by apply (exit_lookup k a HR HI Hrun).
  assert (a_cur (a_exit_ready a) = a_cur a) as Ecur by apply a_exit_ready_cur.
  split; [exact Ecur|].
  assert (∀ c, a_pcbs a !! a_cur a = Some c →
       ∃ c1, a_pcbs (a_exit_ready a) !! a_cur a = Some c1 ∧ state c1 = PROCESS_ZOMBIE) as Hz.
  { intros c Hc. destruct (Hlook _ c Hc) as (f & Hf & Hfs & _). rewrite decide_True in Hf by done.
    eexists. split; [exact Hf|]. by rewrite Hfs. }
  destruct (wf_current _ (inv_WF _ _ HI)) as [c Hc]. destruct (Hz c Hc) as (c1 & Hc1 & Hs1).
  split; [unfold a_is_running; by rewrite Hc1, Hs1|].
  split; [eapply not_ready_not_queued; [exact HI1|exact Hc1|by rewrite Hs1]|]. split; [done|].
  intros p cp Hne Hcp. destruct (Hlook p cp Hcp) as (f & Hf & _ & Hfid).
  rewrite decide_False in Hf by done. rewrite (Hfid Hne) in Hf. split; [done|].
  intros Hw Hi. apply (inv_ready _ _ HI1 p _ Hf Hi). unfold woken. by rewrite Hw.
Qed.

Lemma exit_wakes_waiters_witness :
  ∃ k a k', R k a ∧ a_pid a (a_cur a) = 1 ∧ exit_process k = Done (tt, k').
Proof.
  destruct (_schedule_sim (demo ROUND_ROBIN) (a_demo ROUND_ROBIN)) as (k & Hk & HR); [apply demo_ok..|].
  destruct (exit_wakes_waiters k (a_schedule (a_demo ROUND_ROBIN)) HR) as (k' & a1 & Hk' & _).
  - eapply a_schedule_Inv; apply demo_ok.
  - eapply a_schedule_running; apply demo_ok.
  - exists k, (a_schedule (a_demo ROUND_ROBIN)), k'. split; [exact HR|]. split; [by vm_compute|exact Hk'].
Defined.

(** ** Registers *)

Lemma a_context_update a p f x :
  (∀ c, cpu_ctx (f c) = cpu_ctx c) → a_context x (a_update p f a) = a_context x a.
Proof.
  intros Hf. unfold a_context. destruct (decide (p = x)) as [<-|Hne].
  - rewrite a_update_lookup. destruct (a_pcbs a !! p); [|done]. apply Hf.
  - by rewrite a_update_lookup_ne.
Qed.

Lemma a_pgd_update a p f x :
  (∀ c, mm (f c) = mm c) → a_pgd x (a_update p f a) = a_pgd x a.
Proof.
  intros Hf. unfold a_pgd. destruct (decide (p = x)) as [<-|Hne].
  - rewrite a_update_lookup. destruct (a_pcbs a !! p); [|done]. simpl. by rewrite Hf.
  - by rewrite a_update_lookup_ne.
Qed.

Lemma a_switch_regs next a :
  next ≠ a_cur a → is_Some (a_pcbs a !! a_cur a) →
  cpu (a_globals (a_switch next a)) = a_context next a ∧
  ttbr0 (a_globals (a_switch next a)) = a_pgd next a ∧
  a_context (a_cur a) (a_switch next a) = cpu (a_globals a) ∧
  ∀ x, x ≠ a_cur a → a_context x (a_switch next a) = a_context x a.
Proof.
  intros Hne [c Hc]. unfold a_switch.
  set (a1 := a_update next (with_state PROCESS_RUNNING) a). change (a_cur a1) with (a_cur a).
  rewrite decide_False by done.
  set (a2 := if a_is_running a1 (a_cur a) then a_update (a_cur a) (with_state PROCESS_READY) a1 else a1).
  assert (∀ x, a_context x a2 = a_context x a) as Hctx.
  { intros x. unfold a2. destruct (a_is_running _ _); rewrite ?a_context_update by done;
      unfold a1; by rewrite a_context_update. }
  assert (a_pgd next a2 = a_pgd next a) as Hpgd.
  { unfold a2. destruct (a_is_running _ _); rewrite ?a_pgd_update by done; unfold a1; by rewrite a_pgd_update. }
  assert (is_Some (a_pcbs a2 !! a_cur a)) as [c2 Hc2].
  { unfold a2, a1. destruct (a_is_running _ _); repeat apply a_update_is_Some; by eexists. }
  assert (cpu (a_globals a2) = cpu (a_globals a)) as Ecpu by (unfold a2; by destruct (a_is_running _ _)).
  assert (∀ x v g, x ≠ a_cur a →
    a_context x (a_set_globals g (a_update (a_cur a) (with_cpu_ctx v) a2)) = a_context x a2) as Hother.
  { intros x v g Hx. unfold a_context. simpl. by rewrite lookup_alter_ne. }
  split; [|split; [|split]].
  - cbn. rewrite Ecpu. rewrite <- (Hctx next). apply (Hother next _ id Hne).
  - cbn. exact Hpgd.
  - unfold a_context. simpl. rewrite lookup_alter_eq, Hc2. simpl. exact Ecpu.
  - intros x Hx. rewrite <- (Hctx x). unfold a_context at 1. simpl. by rewrite lookup_alter_ne.
Qed.

(** The context switch saves and restores. Switching from the current process
    to another one loads that process's registers and address space; after it has
    run for a while and left any values in the registers, switching back restores
    exactly the registers the first process had, and the other process's PCB holds
    the values it left. *)
Theorem context_switch_round_trip k a next regs :
  R k a → is_Some (a_pcbs a !! a_cur a) → is_Some (a_pcbs a !! next) → next ≠ a_cur a →
  ∃ k1 k2 a1 a2,
    switch_to_process next k = Done (tt, k1) ∧ R k1 a1 ∧
    a_cur a1 = next ∧ cpu (a_globals a1) = a_context next a ∧ ttbr0 (a_globals a1) = a_pgd next a ∧
    (set_global (with_cpu regs);; switch_to_process (a_cur a)) k1 = Done (tt, k2) ∧ R k2 a2 ∧
    a_cur a2 = a_cur a ∧ cpu (a_globals a2) = cpu (a_globals a) ∧ a_context next a2 = regs.
Proof.
  intros HR Hcur Hnext Hne.
  destruct (switch_to_process_sim k a next HR Hnext Hcur) as (k1 & Hk1 & HR1).
  destruct (a_switch_regs next a Hne Hcur) as (E1 & E2 & E3 & _).
  set (a1 := a_switch next a) in *.
  destruct (sim_set_global_last k1 a1 (with_cpu regs) HR1) as (k1' & Hk1' & HR1').
  set (a1' := a_set_globals (with_cpu regs) a1) in *.
  assert (a_cur a1 = next) as Ec1 by apply a_switch_cur.
  assert (a_cur a1' = next) as Ec1' by exact Ec1.
  assert (∀ x, is_Some (a_pcbs a !! x) → is_Some (a_pcbs a1' !! x)) as Hdom by (intros; by apply a_switch_dom).
  destruct (switch_to_process_sim k1' a1' (a_cur a) HR1') as (k2 & Hk2 & HR2);
    [by apply Hdom|rewrite Ec1'; by apply Hdom|].
  destruct (a_switch_regs (a_cur a) a1') as (F1 & _ & F3 & _);
    [by rewrite Ec1'|rewrite Ec1'; by apply Hdom|].
  exists k1, k2, a1, (a_switch (a_cur a) a1'). repeat (split; [done|]).
  split; [by erewrite bind_done by exact Hk1'|]. split; [done|]. split; [apply a_switch_cur|].
  split; [by rewrite F1, <- E3|]. by rewrite Ec1' in F3.
Qed.

Lemma context_switch_round_trip_witness :
  ∃ k1 k2 a1 a2,
    switch_to_process 200 (demo MLQ) = Done (tt, k1) ∧ R k1 a1 ∧
    a_cur a1 = 200 ∧ cpu (a_globals a1) = a_context 200 (a_demo MLQ) ∧
    ttbr0 (a_globals a1) = a_pgd 200 (a_demo MLQ) ∧
    (set_global (with_cpu zero_cpu_context);; switch_to_process init_process) k1 = Done (tt, k2) ∧ R k2 a2 ∧
    a_cur a2 = init_process ∧ cpu (a_globals a2) = cpu (a_globals (a_demo MLQ)) ∧
    a_context 200 a2 = zero_cpu_context.
Proof.
  apply (context_switch_round_trip (demo MLQ) (a_demo MLQ) 200 zero_cpu_context);
    [apply demo_ok|eexists; by vm_compute|eexists; by vm_compute|by vm_compute].
Defined.

(** ** Parameters *)

(** Sched_set_param. The idle process and unknown selectors are refused; a
    priority and a number of tickets must be at least 1 and a queue level must be
    one of the existing levels, otherwise -1 is returned and nothing changes. An
    accepted value is stored and 0 returned; a new queue level is stored both in the
    PCB and in the tracked level, and the critical section around the two stores is
    left as it was entered. The invariant is preserved. *)
Theorem set_param_spec d k a p param value :
  R k a → Inv d a → 0 ≤ d < 2 ^ 30 → is_Some (a_pcbs a !! p) → in_long value →
  (param = SCHED_PARAM_TICKETS → value ≤ MAX_TICKETS) →
  let refused := ∃ k', sched_set_param (Some p) param value k = Done (-1, k') ∧ R k' a in
  let accepted a' := ∃ k', sched_set_param (Some p) param value k = Done (0, k') ∧ R k' a' ∧ Inv d a' in
  if decide (p = init_process) then refused
  else if decide (param = SCHED_PARAM_PRIORITY) then
    if decide (1 ≤ value) then accepted (a_update p (with_priority value) a) else refused
  else if decide (param = SCHED_PARAM_TICKETS) then
    if decide (1 ≤ value) then accepted (a_update p (with_tickets value) a) else refused
  else if decide (param = SCHED_PARAM_QUEUE_PRIORITY) then
    if decide (0 ≤ value < ML_MAX_LEVELS)
    then accepted (a_set_level (a_pid a p) value (a_update p (with_queue_priority value) a)) else refused
  else refused.
Proof.
  intros HR HI Hd Hp Hv Ht refused accepted.
  destruct (set_param_sim k d a p param value HR HI Hd Hp) as (k' & Hk & HR').
  pose proof (set_param_Inv d a p param value) as Hinv.
  assert (∀ a', a_set_param p param value a = Some a' → accepted a') as Hacc.
  { intros a' E. rewrite E in Hk, HR'. exists k'. split; [done|]. split; [done|]. by apply Hinv. }
  assert (a_set_param p param value a = None → refused) as Href.
  { intros E. rewrite E in Hk, HR'. by exists k'. }
  unfold a_set_param in Hacc, Href.
  destruct (decide (p = init_process)); [by apply Href|].
  destruct (decide (param = SCHED_PARAM_PRIORITY)) as [E|E];
    [rewrite (proj2 (Z.eqb_eq _ _) E) in Hacc, Href|rewrite (proj2 (Z.eqb_neq _ _) E) in Hacc, Href].
  { case_decide; destruct (value <? 1) eqn:Ev; zify_bools; try lia; [by apply Hacc|by apply Href]. }
  clear E. destruct (decide (param = SCHED_PARAM_TICKETS)) as [E|E];
    [rewrite (proj2 (Z.eqb_eq _ _) E) in Hacc, Href|rewrite (proj2 (Z.eqb_neq _ _) E) in Hacc, Href].
  { case_decide; destruct (value <? 1) eqn:Ev; zify_bools; try lia; [by apply Hacc|by apply Href]. }
  clear E. destruct (decide (param = SCHED_PARAM_QUEUE_PRIORITY)) as [E|E];
    [rewrite (proj2 (Z.eqb_eq _ _) E) in Hacc, Href|rewrite (proj2 (Z.eqb_neq _ _) E) in Hacc, Href];
    [|by apply Href].
  case_decide as Hr; destruct ((value <? 0) || (ML_MAX_LEVELS <=? value)) eqn:Ev.
  - apply orb_true_iff in Ev as [?|?]; zify_bools; lia.
  - by apply Hacc.
  - by apply Href.
  - zify_bools. lia.
Qed.

Lemma set_param_spec_witness :
  (∃ k', sched_set_param (Some 200) SCHED_PARAM_QUEUE_PRIORITY 4 (demo MLQ) = Done (0, k')) ∧
  ∃ k', sched_set_param (Some 200) SCHED_PARAM_PRIORITY 0 (demo MLQ) = Done (-1, k').
Proof.
  split.
  - pose proof (set_param_spec 0 (demo MLQ) (a_demo MLQ) 200 SCHED_PARAM_QUEUE_PRIORITY 4) as H.
    destruct H as (k' & Hk & _); [apply demo_ok..|done|eexists; by vm_compute|done|done|]. by exists k'.
  - pose proof (set_param_spec 0 (demo MLQ) (a_demo MLQ) 200 SCHED_PARAM_PRIORITY 0) as H.
    destruct H as (k' & Hk & _); [apply demo_ok..|done|eexists; by vm_compute|done|done|]. by exists k'.
Defined.

(** ** Registration *)

(** Registering a new process. A READY process whose pid is the next free slot
    enters the table at that slot with a tracked level equal to its queue priority
    clamped to the existing levels, joins the ready structure of the active
    algorithm, the count grows by one, and the invariant is preserved; when the
    table is full, -1 is returned and nothing changes. *)
Theorem registration_spec d k a p c :
  R k (a_put p c a) → Inv d a → a_pcbs a !! p = None →
  pid c = n_processes (a_globals a) → state c = PROCESS_READY → params_ok c →
  preempt_disabled c = 1 →
  if decide (n_processes (a_globals a) < N_PROCESSES) then
    ∃ k' a', add_process_to_scheduler p k = Done (0, k') ∧ R k' a' ∧ Inv d a' ∧
      array_get (processes (a_globals a')) (pid c) = Some (Some p) ∧
      level_of a' (pid c) = Z.max 0 (Z.min (queue_priority c) 4) ∧
      n_processes (a_globals a') = n_processes (a_globals a) + 1 ∧ queued a' p
  else add_process_to_scheduler p k = Done (-1, k).
Proof.
  intros HR HI Hnew Hpid Hs Hpar Hpre. destruct (inv_slots _ _ HI) as [Hn _].
  assert (p ≠ init_process) as Hi.
  { intros ->. destruct (wf_init _ (inv_WF _ _ HI)). congruence. }
  case_decide as Hlt.
  - destruct (add_process_sim k d a p c HR HI Hnew Hpid Hlt Hs) as (k' & Hk & HR').
    assert (Inv d (a_add p c a)) as HI' by (by apply a_add_Inv; [apply (R_alevels _ _ HR)|..]).
    assert (a_globals (a_add p c a) = a_globals (a_register p c a)) as Eg.
    { unfold a_add. case_bool; [apply a_globals_enqueue_process|done]. }
    destruct (wf_levels _ (inv_WF _ _ HI)) as [Hll _]. destruct (wf_processes _ (inv_WF _ _ HI)) as [Hpl _].
    exists k', (a_add p c a). split; [done|]. split; [done|]. split; [done|].
    unfold level_of. rewrite Eg. split; [|split; [|split; [done|]]].
    + simpl. rewrite array_get_insert; [by rewrite decide_True|rewrite Hpl; unfold N_PROCESSES in *; lia|lia].
    + simpl. rewrite array_get_insert; [|rewrite Hll; unfold N_PROCESSES in *; lia|lia].
      rewrite decide_True by done. simpl. apply clamp_level_spec.
    + rewrite a_add_wake by done.
      assert (a_pcbs (a_wake p (a_register p (with_state PROCESS_ZOMBIE c) a)) !! p =
        Some (with_state PROCESS_READY (with_state PROCESS_ZOMBIE c))) as Hc.
      { rewrite wake_lookup, decide_True by done. simpl. by rewrite lookup_insert_eq. }
      rewrite a_add_wake in HI' by done. by apply (inv_ready _ _ HI' p _ Hc).
  - unfold add_process_to_scheduler, get_global. mrun. unfold compose. rewrite <- (R_globals _ _ HR).
    destruct (R_heap_lookup k _ p c HR) as (c' & Hc' & _); [apply a_put_lookup|].
    erewrite bind_done by (by apply load_some).
    change (n_processes (a_globals (a_put p c a))) with (n_processes (a_globals a)).
    assert (N_PROCESSES <=? n_processes (a_globals a) = true) as -> by (apply Z.leb_le; lia). done.
Qed.

Lemma registration_spec_witness :
  ∃ k' a', add_process_to_scheduler 400
    (with_heap (<[400 := fresh 4 5 1 10 9]> (heap (demo MLFQ))) (demo MLFQ)) = Done (0, k') ∧
    R k' a' ∧ level_of a' 4 = 4 ∧ queued a' 400.
Proof.
  destruct (registration_spec 0 (with_heap (<[400 := fresh 4 5 1 10 9]> (heap (demo MLFQ))) (demo MLFQ))
    (a_demo MLFQ) 400 (fresh 4 5 1 10 9)) as (k' & a' & Hk & HR & _ & _ & Hl & _ & Hq).
  - apply R_new; [apply demo_ok|by vm_compute|done].
  - apply demo_ok.
  - by vm_compute.
  - by vm_compute.
  - done.
  - by split.
  - done.
  - exists k', a'. split; [exact Hk|]. split; [exact HR|]. split; [exact Hl|exact Hq].
Defined.
