(* ===== verification/Idle.v ===== *)
(** * The idle task: the endless loop of kernel_main and the first dispatch

    After kernel_main the processor only leaves [while (1) {}] for an interrupt.
    With an algorithm that is not preemptive no interrupt gives the processor to
    another process, so the idle task keeps it. *)
From stdpp Require Import base gmap list strings relations.
From Stdlib Require Import ZArith Lia.
From S2P Require Import Prelude Mem CString Kernel Queue Scheduler SchedulerSpec Dispatch Entries Boot Ipc Machine Uart Irq SelectionProps.

#[local] Open Scope Z_scope.

(** ** What leaves the processor with the process that has it *)
Definition on_cpu (p : ptr) (al : algorithm) (k : Kernel) : Prop := cur k = p ∧ active_algorithm (globals k) = al.
Abbreviation keeps p al := (preserves (on_cpu p al)).

Lemma keeps_load p al q : keeps p al (load q).
Proof. intros k c k' Hk. unfold load. destruct (heap k !! q); [|done]. intros E. by injection E as _ <-. Qed.

Lemma keeps_store p al q f : keeps p al (store q f).
Proof. intros k c k' Hk. unfold store. destruct (heap k !! q); [|done]. intros E. by injection E as _ <-. Qed.

Lemma keeps_get_queue p al q : keeps p al (get_queue q).
Proof. apply preserves_bind; [apply preserves_gets|]. intros o. apply preserves_require. Qed.

Lemma keeps_set_queue p al q v : keeps p al (set_queue q v).
Proof. apply preserves_modify. intros k. by destruct q. Qed.

(** What the active algorithm does is known. *)
Lemma keeps_active {A} p al (f : algorithm → M Kernel A) : keeps p al (f al) → keeps p al (get_global active_algorithm ≫= f).
Proof. intros Hf k x k' Hk E. unfold get_global in E. rewrite bind_gets in E. eapply Hf; [exact Hk|]. destruct Hk as [_ <-]. exact E. Qed.

Create HintDb cpu.
#[export] Hint Resolve preserves_ret preserves_fail preserves_gets preserves_require keeps_load keeps_store keeps_get_queue keeps_set_queue : cpu.

(** Through the binds, tests and cases of a computation. *)
Ltac keep_step := repeat first
  [ solve [eauto with cpu] | apply preserves_bind; [|intros ?] | case_match ].

Lemma keeps_sorted_position p al fuel : ∀ x y, keeps p al (sorted_position fuel x y).
Proof. induction fuel as [|fuel IH]; intros x y; cbn [sorted_position]; [by intros k z k' _ E|]. keep_step; apply IH. Qed.
#[export] Hint Resolve keeps_sorted_position : cpu.

Lemma keeps_enqueue p al o : is_preemptive (descriptor al) = false → keeps p al (enqueue_process o).
Proof.
  intros Hal. destruct o as [x|]; [|apply preserves_ret]. cbn [enqueue_process]. case_decide; [apply preserves_ret|].
  apply keeps_active. destruct al; try discriminate Hal; cbn [algorithm_enqueue].
  - unfold _enqueue_fifo, enqueue_process_to. keep_step.
  - unfold _enqueue_sjf, enqueue_sorted_to. keep_step.
Qed.
#[export] Hint Resolve keeps_enqueue : cpu.

Lemma keeps_wake p al waiting i : is_preemptive (descriptor al) = false → keeps p al (wake_slot waiting i).
Proof. intros Hal. unfold wake_slot, nonnull. keep_step. Qed.

Lemma keeps_tick p al : is_preemptive (descriptor al) = false → keeps p al handle_timer_tick.
Proof.
  intros Hal. unfold handle_timer_tick. do 4 (apply preserves_bind; [eauto with cpu|intros ?]).
  apply keeps_active. rewrite Hal. cbn [negb]. destruct al; try discriminate Hal; cbn; keep_step.
Qed.

(** ** The same for the machine *)
Definition cpu_with (p : ptr) (al : algorithm) (s : Machine) : Prop := on_cpu p al (kernel s).

Lemma cpu_on_kernel {A} p al (m : M Kernel A) : keeps p al m → preserves (cpu_with p al) (on_kernel m).
Proof.
  intros Hm s x s' Hs. unfold on_kernel. destruct (m (kernel s)) as [[y k]|] eqn:E; [|done].
  intros E'. injection E' as _ <-. eapply Hm; [exact Hs|exact E].
Qed.

Lemma cpu_set_uart p al f : preserves (cpu_with p al) (set_uart f).
Proof. by apply preserves_modify. Qed.

Lemma cpu_outputs p al m : outputs m → preserves (cpu_with p al) m.
Proof. intros Ho s [] s' Hs. destruct (Ho s) as [l ->]. intros E. by injection E as <-. Qed.

Lemma cpu_rx_all p al body : (∀ dr, preserves (cpu_with p al) (body dr)) → preserves (cpu_with p al) (rx_all body).
Proof.
  intros Hb. apply preserves_bind; [apply preserves_gets|]. intros l. generalize (S (length l)). intros n.
  induction n as [|n IH]; [apply preserves_fail|]. cbn [rx_loop].
  apply preserves_bind; [apply preserves_gets|]. intros [|dr l']; [apply preserves_ret|].
  apply preserves_bind; [apply cpu_set_uart|]. intros _. apply preserves_bind; [apply Hb|]. intros _. exact IH.
Qed.

Section interrupts.
Context (p : ptr) (al : algorithm) (Hal : is_preemptive (descriptor al) = false).

Lemma cpu_store c : preserves (cpu_with p al) (uart_store c).
Proof.
  unfold uart_store, get_uart.
  repeat first [ apply preserves_ret | apply preserves_gets | apply preserves_require | apply cpu_set_uart
               | apply preserves_bind; [|intros ?] | case_match ].
Qed.

Lemma cpu_receive dr : preserves (cpu_with p al) (uart_receive dr).
Proof.
  unfold uart_receive. case_match.
  - apply cpu_outputs, outputs_bind; [apply outputs_puts|]. apply outputs_bind; [apply outputs_hex|apply outputs_puts].
  - apply preserves_bind; [apply cpu_store|]. intros _. apply preserves_bind; [apply cpu_on_kernel, preserves_gets|]. intros n.
    apply cpu_on_kernel, preserves_for. intros i. by apply keeps_wake.
Qed.

Lemma cpu_uart_irq : preserves (cpu_with p al) handle_uart_irq.
Proof.
  assert (∀ m : M Machine unit, preserves (cpu_with p al) m → ∀ b : bool, preserves (cpu_with p al) (if b then m else mret tt)) as Hif
    by (intros m Hm []; [exact Hm|apply preserves_ret]).
  apply preserves_bind; [apply preserves_gets|]. intros mis.
  apply preserves_bind; [apply Hif; apply preserves_bind; [apply cpu_rx_all, cpu_receive|intros _; apply cpu_set_uart]|]. intros _.
  apply preserves_bind; [apply Hif; apply preserves_bind; [apply preserves_gets|]; intros imsc;
    apply preserves_bind; [|intros _]; apply cpu_set_uart|]. intros _.
  apply Hif. apply preserves_bind; [apply cpu_outputs, outputs_puts|]. intros _.
  apply preserves_bind; [|intros _; apply cpu_set_uart]. apply cpu_rx_all. intros dr.
  apply cpu_outputs, outputs_bind; [apply outputs_putc|apply outputs_puts].
Qed.

Lemma cpu_on_machine m : preserves (cpu_with p al) m → preserves (λ s, cpu_with p al (machine s)) (on_machine m : M Irq unit).
Proof.
  intros Hm s x s' Hs. unfold on_machine. destruct (m (machine s)) as [[y k]|] eqn:E; [|done].
  intros E'. injection E' as _ <-. eapply Hm; [exact Hs|exact E].
Qed.

Lemma cpu_handle_irq p1 p2 : preserves (λ s, cpu_with p al (machine s)) (handle_irq p1 p2).
Proof.
  unfold handle_irq. case_match; [|case_match].
  - unfold handle_timer_irq, next_tick.
    repeat (apply preserves_bind; [|intros ?]); [by apply preserves_modify|apply preserves_gets|by apply preserves_modify|apply preserves_gets|by apply preserves_modify|].
    by apply cpu_on_machine, cpu_on_kernel, keeps_tick.
  - apply cpu_on_machine, cpu_uart_irq.
  - apply cpu_on_machine, cpu_outputs, outputs_unknown.
Qed.
End interrupts.

(** ** The idle task *)

(** While a process does nothing an interrupt is served, or the UART's registers
    change. *)
Inductive waits : Irq → Irq → Prop :=
| wait_irq s s' p1 p2 : handle_irq p1 p2 s = Done (tt, s') → waits s s'
| wait_device s d : waits s (with_machine (with_uart (with_device d (uart (machine s))) (machine s)) s).

Lemma steady_wait s s' : waits s s' → steady (machine s) → steady (machine s').
Proof.
  intros [? ? p1 p2 E|? dv] Hs.
  - destruct (handle_irq_served p1 p2 _ Hs) as (s2 & E2 & Hs2 & _). rewrite E in E2. by injection E2 as <-.
  - destruct Hs as (d & Hd & Hs). exists d. split; [exact Hd|]. exact (sound_device d (λ _, dv) _ Hs).
Qed.

Lemma cpu_wait p al s s' : is_preemptive (descriptor al) = false →
  waits s s' → cpu_with p al (machine s) → cpu_with p al (machine s').
Proof. intros Hal [? ? p1 p2 E|? dv] Hs; [|exact Hs]. exact (cpu_handle_irq p al Hal p1 p2 _ _ _ Hs E). Qed.

Lemma waits_keep p al s s' : is_preemptive (descriptor al) = false →
  rtc waits s s' → steady (machine s) → cpu_with p al (machine s) → steady (machine s') ∧ cpu_with p al (machine s').
Proof.
  intros Hal. induction 1 as [s|s s1 s2 H1 _ IH]; [done|].
  intros Hs Hp. apply IH; [by eapply steady_wait|by eapply cpu_wait].
Qed.

(** The idle task's time is up. *)
Definition idle_expired (a : AKernel) : Prop :=
  a_cur a = init_process ∧ ∃ c, a_pcbs a !! init_process = Some c ∧ s64 (counter c - 1) ≤ 0.

Lemma quiet_update a p f : (∀ c, pending_signals (f c) = pending_signals c) → quiet a → quiet (a_update p f a).
Proof. intros Hf Hq x c (c0 & Hc0 & ->)%update_lookup_inv. case_decide; [rewrite Hf|]; by eapply Hq. Qed.

(** Where the tick of the idle task calls the dispatcher. *)
Definition a_dispatched (a : AKernel) : AKernel :=
  a_set_globals (with_irq_enabled true) (a_update (a_cur a) (with_counter 0) (a_charge a)).

Lemma quiet_dispatched a : quiet a → quiet (a_dispatched a).
Proof.
  intros Hq. assert (quiet (a_charge a)) as Hq1 by (by apply quiet_update).
  exact (quiet_update (a_charge a) (a_cur a) (with_counter 0) (λ _, eq_refl) Hq1).
Qed.

Lemma idle_tick k a : R k a → Inv 0 a → a_alg a = ROUND_ROBIN → idle_expired a →
  a_tick a = a_set_globals (with_irq_enabled false) (a_schedule (a_dispatched a)) ∧
  ∃ k', R k' (a_dispatched a) ∧ Inv 0 (a_dispatched a).
Proof.
  intros HR HI Ea (Ec & c & Hc & Hle). rewrite <- Ec in Hc.
  assert (a_on_tick (a_charge a) = a_charge a) as Et.
  { unfold a_on_tick. change (algorithm_ml_policy _) with (algorithm_ml_policy (a_alg a)). by rewrite Ea. }
  pose proof (inv_preempt _ _ HI _ _ Hc) as Hpre. rewrite decide_True in Hpre by done.
  assert (a_pcbs (a_charge a) !! a_cur a =
    Some (with_burst_ticks (s64 (burst_ticks c + 1)) (with_counter (s64 (counter c - 1)) c))) as Hc1
    by (unfold a_charge; by rewrite a_update_lookup, Hc).
  split.
  - unfold a_tick. rewrite Et. unfold a_keeps_cpu. change (a_cur (a_charge a)) with (a_cur a). rewrite Hc1.
    cbn [counter with_burst_ticks with_counter preempt_disabled]. rewrite Hpre, (proj2 (Z.ltb_ge 0 _)) by exact Hle.
    cbn [Z.ltb Z.compare orb]. change (a_alg (a_update _ _ (a_charge a))) with (a_alg a). by rewrite Ea.
  - destruct (charge_sim k a c (λ _, mret tt) tt (a_charge a) HR Hc) as (k1 & _ & HR1); [intros; by apply sim_ret|].
    destruct (sim_store_last k1 (a_charge a) (a_cur a) (with_counter 0) HR1) as (k2 & _ & HR2); [by eexists|].
    destruct (sim_set_global_last k2 _ (with_irq_enabled true) HR2) as (k3 & _ & HR3). exists k3. split; [exact HR3|].
    apply Inv_irq. apply Inv_update; [apply _|]. by apply Inv_charge.
Qed.

(** C9: who gets the processor from the idle task.  With FCFS or SJF the process that has the processor, the idle
    task of kernel_main in particular, keeps it through every sequence of
    interrupts and of changes of the UART, each of which is handled without a
    fault, whatever processes are ready: nothing but a call of its own gives it
    up, and the idle task calls nothing.  With round robin, when no signal is
    pending and the idle task's time is up, the next timer interrupt gives the
    processor to the first process of the ready queue, with a full quantum. *)
Theorem idle_dispatch s :
  steady (machine s) →
  (is_preemptive (descriptor (active_algorithm (globals (kernel (machine s))))) = false →
   ∀ s1, rtc waits s s1 → cur (kernel (machine s1)) = cur (kernel (machine s)) ∧
     ∀ p1 p2, ∃ s2, handle_irq p1 p2 s1 = Done (tt, s2) ∧ cur (kernel (machine s2)) = cur (kernel (machine s))) ∧
  ∀ a p l, R (kernel (machine s)) a → Inv 0 a → a_alg a = ROUND_ROBIN → quiet a → idle_expired a → a_ready a = p :: l →
    ∀ p1 p2, timer_pending p1 = true → ∃ s1 a1, handle_irq p1 p2 s = Done (tt, s1) ∧ R (kernel (machine s1)) a1 ∧
      cur (kernel (machine s1)) = p ∧ a_ready a1 = l ∧ counter <$> a_pcbs a1 !! p = Some 10.
Proof.
  intros Hs. split.
  - intros Hal s1 Hrtc.
    destruct (waits_keep (cur (kernel (machine s))) _ s s1 Hal Hrtc Hs (conj eq_refl eq_refl)) as [Hs1 Hp1].
    split; [exact (proj1 Hp1)|]. intros p1 p2. destruct (handle_irq_served p1 p2 s1 Hs1) as (s2 & E2 & _).
    exists s2. split; [exact E2|]. exact (proj1 (cpu_handle_irq _ _ Hal p1 p2 _ _ _ Hp1 E2)).
  - intros a p l HR HI Ea Hq Hidle Hl p1 p2 Hp1.
    destruct (handle_irq_served p1 p2 s Hs) as (s1 & E1 & _ & Hserved). unfold served in Hserved. rewrite Hp1 in Hserved.
    destruct Hserved as [Ht _]. destruct (tick_sim _ _ 0 HR HI (Z.le_refl 0)) as [(k & Ek & HR1) _].
    rewrite (on_kernel_done _ _ _ _ Ek) in Ht. injection Ht as Ht.
    destruct (idle_tick _ a HR HI Ea Hidle) as [Et (k' & HR' & HI')].
    destruct (round_robin_step k' (a_dispatched a) p l HR' HI' Ea) as (Hcur & Hready & _ & _ & (c & Hc & Hn) & _).
    + left. exact (proj1 Hidle).
    + by apply quiet_dispatched.
    + unfold service_order. change (a_cur (a_dispatched a)) with (a_cur a). rewrite (proj1 Hidle).
      rewrite decide_True, app_nil_r by done. exact Hl.
    + exists s1, (a_tick a). split; [exact E1|]. rewrite <- Ht. split; [exact HR1|]. rewrite Et.
      split; [|split; [exact Hready|]].
      * cbn [kernel with_kernel]. unfold cur. rewrite <- (R_globals _ _ HR1), Et. exact Hcur.
      * change (a_pcbs (a_set_globals _ ?x)) with (a_pcbs x). rewrite Hc. cbn. by rewrite Hn.
Qed.

(** The idle task with three ready processes, under SJF and under round robin: two
    interrupts, then another one. *)
Lemma idle_dispatch_witness :
  (∃ s1 s2 s3, handle_irq 2 0 demo_irq = Done (tt, s1) ∧ handle_irq 0 33554432 s1 = Done (tt, s2) ∧
     handle_irq 2 0 s2 = Done (tt, s3) ∧ cur (kernel (machine s3)) = init_process) ∧
  ∃ s1, handle_irq 2 0 (mk_Irq (demo_machine ROUND_ROBIN (uart_with [] 0 [])) 0 0 0 0 0) = Done (tt, s1) ∧
    cur (kernel (machine s1)) = 100.
Proof.
  split.
  - destruct (idle_dispatch demo_irq demo_steady) as [H _]. specialize (H eq_refl).
    destruct (H demo_irq (rtc_refl _ _)) as [_ H1]. destruct (H1 2 0) as (s1 & E1 & _).
    assert (rtc waits demo_irq s1) as W1 by exact (rtc_once _ _ (wait_irq _ _ 2 0 E1)).
    destruct (H s1 W1) as [_ H2]. destruct (H2 0 33554432) as (s2 & E2 & _).
    assert (rtc waits demo_irq s2) as W2 by exact (rtc_r _ _ _ W1 (wait_irq _ _ 0 33554432 E2)).
    destruct (H s2 W2) as [_ H3]. destruct (H3 2 0) as (s3 & E3 & Hc).
    exists s1, s2, s3. split; [exact E1|]. split; [exact E2|]. split; [exact E3|exact Hc].
  - destruct (demo_ok ROUND_ROBIN) as [HR HI].
    set (s := mk_Irq (demo_machine ROUND_ROBIN (uart_with [] 0 [])) 0 0 0 0 0).
    assert (steady (machine s)) as Hs.
    { exists 0. split; [done|]. exists (a_demo ROUND_ROBIN), []. split; [exact HR|]. split; [exact HI|]. by split. }
    destruct (idle_dispatch s Hs) as [_ H].
    assert (map_Forall (λ _ c, pending_signals c = 0) (a_pcbs (a_demo ROUND_ROBIN))) as Hq
      by (by apply (bool_decide_unpack _); vm_compute).
    destruct (H (a_demo ROUND_ROBIN) 100 [200; 300] HR HI eq_refl) with (p1 := 2) (p2 := 0) as (s1 & a1 & E1 & _ & Hc & _).
    + intros p c Hpc. exact (Hq p c Hpc).
    + split; [done|]. exists INIT_PROCESS. split; [by vm_compute|by vm_compute].
    + by vm_compute.
    + done.
    + exists s1. split; [exact E1|exact Hc].
Defined.
