(* ===== verification/Svc.v ===== *)
(** * System calls from user mode: common/user_syscalls.S and el0_svc

    A wrapper puts the number of a call in w8 and executes svc; the processor enters
    el0_sync of drivers/irq/entry.S, which saves the registers, goes to el0_svc and
    the dispatcher, and leaves through ret_from_syscall and eret, to the address that
    kernel_exit has put into ELR: the wrapper's ret, or the start of another program.
    Exceptions.v has the saving and restoring, Syscalls.v the dispatcher. *)
From stdpp Require Import base gmap list.
From Stdlib Require Import ZArith Lia.
From S2P Require Import Prelude Mem Kernel Scheduler Dispatch Entries Boot Ipc Machine Uart Irq Mm MmSpec Fork ForkSpec UserMode Exceptions FatFormat FatVolume FatFile Filesystem Idle Syscalls SyscallsSpec.

#[local] Open Scope Z_scope.
#[local] Opaque memzero memcpy store_le load_le byte_at put_byte kernel_entry kernel_exit.

(** ** user_syscalls.S *)
Inductive wrapper : Type :=
| call_syscall_write | call_syscall_write_hex | call_syscall_malloc | call_syscall_exit
| call_syscall_create_dir | call_syscall_open_dir | call_syscall_open_file | call_syscall_close_file
| call_syscall_write_file | call_syscall_read_file | call_syscall_yield | call_syscall_input
| call_syscall_get_next_entry | call_syscall_fork | call_syscall_send_message | call_syscall_receive_message
| call_syscall_send_signal | call_syscall_exec | call_syscall_wait | call_syscall_get_time
| call_syscall_set_sched_param.

(** The operand of [mov w8, #number]. *)
Definition wrapper_number (w : wrapper) : Z :=
  match w with
  | call_syscall_write => 0 | call_syscall_write_hex => 18 | call_syscall_malloc => 1 | call_syscall_exit => 2
  | call_syscall_create_dir => 3 | call_syscall_open_dir => 4 | call_syscall_open_file => 5 | call_syscall_close_file => 6
  | call_syscall_write_file => 7 | call_syscall_read_file => 8 | call_syscall_yield => 9 | call_syscall_input => 10
  | call_syscall_get_next_entry => 11 | call_syscall_fork => 12 | call_syscall_send_message => 13 | call_syscall_receive_message => 14
  | call_syscall_send_signal => 15 | call_syscall_exec => 16 | call_syscall_wait => 17 | call_syscall_get_time => 19
  | call_syscall_set_sched_param => 20
  end.

(** The instructions of the file, in the order of the file. *)
Inductive instruction : Type :=
| mov_w8 (number : Z)
| svc_0
| ret_x30.

Definition wrappers : list wrapper :=
  [call_syscall_write; call_syscall_write_hex; call_syscall_malloc; call_syscall_exit;
   call_syscall_create_dir; call_syscall_open_dir; call_syscall_open_file; call_syscall_close_file;
   call_syscall_write_file; call_syscall_read_file; call_syscall_yield; call_syscall_input;
   call_syscall_get_next_entry; call_syscall_fork; call_syscall_send_message; call_syscall_receive_message;
   call_syscall_send_signal; call_syscall_exec; call_syscall_wait; call_syscall_get_time;
   call_syscall_set_sched_param].

#[export] Instance wrapper_eq_dec : EqDecision wrapper.
Proof. solve_decision. Defined.

Definition wrapper_text : list instruction :=
  concat ((λ w, [mov_w8 (wrapper_number w); svc_0; ret_x30]) <$> wrappers).

(** The instruction at [pc] when the file's code has been loaded at [text], and where
    the label of a wrapper is then. *)
Definition fetch (text pc : Z) : option instruction :=
  if (pc - text) mod 4 =? 0 then array_get wrapper_text ((pc - text) / 4) else None.
Definition wrapper_index (w : wrapper) : Z :=
  match list_find (w =.) wrappers with Some (i, _) => Z.of_nat i | None => 0 end.
Definition wrapper_address (text : Z) (w : wrapper) : Z := text + 12 * wrapper_index w.

(** A process in user mode: its registers, program counter and state.  [ksp] is the
    kernel stack pointer it will enter the kernel with. *)
Record User : Type := mk_User { user_regs : Regs; user_pc : Z; user_pstate : Z }.

(** What the processor does at an exception of the process: the address of the next
    instruction goes to ELR, the state to SPSR; eret is the way back. *)
Definition svc_taken (u : User) : Regs :=
  with_spsr (user_pstate u) (with_elr (u64 (user_pc u + 4)) (user_regs u)).
Definition eret_user (r : Regs) : User := mk_User r (elr r) (spsr r).
Definition moved_w8 (n : Z) (u : User) : User := mk_User (set_reg 8 n (user_regs u)) (u64 (user_pc u + 4)) (user_pstate u).
Definition returned (u : User) : User := mk_User (user_regs u) (reg 30 (user_regs u)) (user_pstate u).

(** The syndrome of [svc #0]: its class, and a 32-bit instruction. *)
Definition SVC_ESR : Z := Z.lor (Z.shiftl ESR_ELx_EC_SVC64 ESR_ELx_EC_SHIFT) (Z.shiftl 1 25).

(** How the handler ends: with the registers after kernel_exit, in another process,
    or in err_hang. *)
Inductive ending : Type :=
| Resumes (r : Regs)
| Away
| Hung.

Section svc.
Context {D : Type}.

(** The address of ret_from_fork, what the part of the kernel stack used for messages
    held, and what C code leaves in the registers. *)
Context (ret_from_fork : Z) (stack : list Z) (clobbers : Regs → Regs).

Definition leave (r : Regs) : M (OS D) ending :=
  on_os disable_irq;;
  m ← on_machine get_ram;
  mret (Resumes (kernel_exit 0 m r)).

(** The process has left the CPU inside the call. *)
Definition gone (a : reply) (p p' : ptr) : bool :=
  match a with Blocks => true | _ => negb (p' =? p) end.

Definition el0_svc (r : Regs) : M (OS D) ending :=
  on_os enable_irq;;
  p ← on_os get_current;
  a ← syscall_dispatcher ret_from_fork stack (ksp r);
  p' ← on_os get_current;
  if gone a p p' then mret Away else leave (clobbers r).

(** The vector el0_sync, with the syndrome and fault address registers. *)
Definition run_el0_sync (esr far : Z) (r : Regs) : M (OS D) ending :=
  m ← on_machine get_ram;
  let r1 := (kernel_entry 0 r m).1 in
  on_machine (set_ram (λ _, (kernel_entry 0 r m).2));;
  match el0_sync_target esr with
  | Svc => el0_svc r1
  | DataAbort =>
    x ← on_machine (el0_da far esr (elr r1));
    match x with
    | Exits => m ← on_machine get_ram; mret (Resumes (kernel_exit 0 m (clobbers r1)))
    | Hangs => mret Hung
    end
  | Unexpected type => on_machine (handle_invalid_entry type esr (elr r1));; mret Hung
  end.

(** One instruction; [None]: the process does not go on. *)
Definition exec_instruction (i : instruction) (u : User) : M (OS D) (option User) :=
  match i with
  | mov_w8 n => mret (Some (moved_w8 n u))
  | svc_0 =>
    x ← run_el0_sync SVC_ESR 0 (svc_taken u);
    match x with
    | Resumes r => mret (Some (eret_user r))
    | _ => mret None
    end
  | ret_x30 => mret (Some (returned u))
  end.

(** Up to [n] instructions, as long as the program counter is in the code at [text]. *)
Fixpoint run_text (text : Z) (n : nat) (u : User) : M (OS D) (option User) :=
  match n with
  | O => mret (Some u)
  | S n =>
    match fetch text (user_pc u) with
    | None => mret (Some u)
    | Some i =>
      o ← exec_instruction i u;
      match o with
      | Some u => run_text text n u
      | None => mret None
      end
    end
  end.

(** A wrapper has three. *)
Definition call_wrapper (text : Z) (u : User) : M (OS D) (option User) := run_text text 3 u.

(** The registers with which the kernel is entered, after [mov] and [svc]. *)
Definition svc_regs (w : wrapper) (u : User) : Regs := svc_taken (moved_w8 (wrapper_number w) u).

(** ** The way in *)
Definition irqs_to (b : bool) (t : Machine) : Machine := with_kernel (with_globals (with_irq_enabled b (globals (kernel t))) (kernel t)) t.

(** The state in which the dispatcher is called. *)
Definition entered (w : wrapper) (u : User) (s : OS D) : OS D :=
  os_with (irqs_to true (with_ram (kernel_entry 0 (svc_regs w u) (ram (machine s))).2 (machine s))) s.

(** What a process in user mode has: 64-bit registers and the top of the kernel stack
    of the process at [p]. *)
Record in_user (p : ptr) (u : User) : Prop := mk_in_user {
  iu_regs : regs_ok (user_regs u);
  iu_pstate : 0 ≤ user_pstate u < 2 ^ 64;
  iu_page : 0 ≤ p ∧ p + THREAD_SIZE < 2 ^ 64;
  iu_ksp : ksp (user_regs u) = p + THREAD_SIZE
}.

Lemma wrapper_number_bound w : 0 ≤ wrapper_number w ≤ 20.
Proof. destruct w; cbn; lia. Qed.

Lemma svc_regs_ok w u p : in_user p u → regs_ok (svc_regs w u) ∧ ksp (svc_regs w u) = p + THREAD_SIZE.
Proof.
  intros [Hr Hs _ Hk]. split; [|exact Hk]. pose proof (wrapper_number_bound w).
  destruct (regs_ok_set 8 (wrapper_number w) _ Hr ltac:(lia) ltac:(lia)) as [H1 H2 H3 _ _].
  split; [exact H1|exact H2|exact H3|apply wrap_u_range; lia|exact Hs].
Qed.

Lemma svc_reg w u p n : in_user p u → reg n (svc_regs w u) = if decide (8%nat = n) then wrapper_number w else reg n (user_regs u).
Proof. intros Hu. unfold svc_regs. apply (reg_set 8 n). rewrite (ro_length _ (iu_regs _ _ Hu)). lia. Qed.

(** The frame the dispatcher finds. *)
Lemma entered_frame w u p s : in_user p u →
  ksp (kernel_entry 0 (svc_regs w u) (ram (machine s))).1 = task_pt_regs p ∧
  (∀ n, 0 ≤ n < 34 → trap_word (ram (machine (entered w u s))) p n = frame_of 0 (svc_regs w u) n) ∧
  ∀ a, a < task_pt_regs p ∨ p + THREAD_SIZE ≤ a → byte_at (ram (machine (entered w u s))) a = byte_at (ram (machine s)) a.
Proof.
  intros Hu. destruct (svc_regs_ok w u p Hu) as [Hr Hk]. destruct (iu_page _ _ Hu) as [Hp1 Hp2].
  rewrite (task_pt_regs_frame p) by done. rewrite <- Hk. unfold trap_word. rewrite (task_pt_regs_frame p), <- Hk by done.
  apply (kernel_entry_frame 0 _ (ram (machine s)) Hr). rewrite Hk. unfold S_FRAME_SIZE, THREAD_SIZE in *. lia.
Qed.

Lemma entry_run w u s : 
  run_el0_sync SVC_ESR 0 (svc_regs w u) s =
  (p ← on_os get_current;
   a ← syscall_dispatcher ret_from_fork stack (ksp (kernel_entry 0 (svc_regs w u) (ram (machine s))).1);
   p' ← on_os get_current;
   if gone a p p' then mret Away else leave (clobbers (kernel_entry 0 (svc_regs w u) (ram (machine s))).1)) (entered w u s).
Proof. reflexivity. Qed.

(** The arguments of the call are the caller's registers. *)
Definition args_dispatch (w : wrapper) (u : User) (p : ptr) : M (OS D) reply :=
  dispatch ret_from_fork stack (wrapper_number w) (reg 0 (user_regs u)) (reg 1 (user_regs u)) (reg 2 (user_regs u)) (reg 3 (user_regs u)) (task_pt_regs p).

Lemma register_run registers i (e : OS D) : register registers i e = Done (load64 (registers + 8 * i) (ram (machine e)), e).
Proof. unfold register, on_machine. by destruct e as [[]]. Qed.

Lemma dispatcher_run w u p s : in_user p u →
  syscall_dispatcher ret_from_fork stack (task_pt_regs p) (entered w u s) =
  (r ← args_dispatch w u p;
   match r with
   | Returns v => on_machine (set_ram (store64 (task_pt_regs p) (u64 v)));; mret r
   | _ => mret r
   end) (entered w u s).
Proof.
  intros Hu. destruct (entered_frame w u p s Hu) as (_ & Hw & _). unfold trap_word in Hw.
  assert (∀ n, (n < 4)%nat → load64 (task_pt_regs p + 8 * Z.of_nat n) (ram (machine (entered w u s))) = reg n (user_regs u)) as Ha.
  { intros n Hn. rewrite Hw by lia. unfold frame_of. rewrite (proj2 (Z.ltb_lt _ _)), Nat2Z.id by lia.
    rewrite (svc_reg w u p) by done. by rewrite decide_False by lia. }
  unfold syscall_dispatcher. rewrite (bind_done _ _ _ _ _ (register_run _ 8 _)), (Hw 8) by lia.
  change (frame_of 0 (svc_regs w u) 8) with (reg 8 (svc_regs w u)). rewrite (svc_reg w u p) by done. rewrite decide_True by done.
  pose proof (wrapper_number_bound w). rewrite (proj2 (Z.ltb_ge SYSCALLS_NUMBER _)) by (unfold SYSCALLS_NUMBER; lia).
  rewrite (bind_done _ _ _ _ _ (register_run _ 0 _)), (bind_done _ _ _ _ _ (register_run _ 1 _)),
    (bind_done _ _ _ _ _ (register_run _ 2 _)), (bind_done _ _ _ _ _ (register_run _ 3 _)).
  pose proof (Ha 0%nat ltac:(lia)) as H0. pose proof (Ha 1%nat ltac:(lia)) as H1. pose proof (Ha 2%nat ltac:(lia)) as H2. pose proof (Ha 3%nat ltac:(lia)) as H3.
  change (Z.of_nat 0) with 0 in H0. change (Z.of_nat 1) with 1 in H1. change (Z.of_nat 2) with 2 in H2. change (Z.of_nat 3) with 3 in H3.
  rewrite H0, H1, H2, H3. reflexivity.
Qed.

(** ** The way back *)

(** The call has left the process on the CPU and its frame as it was. *)
Definition frame_kept (p : ptr) (e t : OS D) : Prop :=
  cur (kernel (machine t)) = cur (kernel (machine e)) ∧
  ∀ n, 0 ≤ n < 34 → trap_word (ram (machine t)) p n = trap_word (ram (machine e)) p n.

(** The state when the process goes on after a call that ended in [t]. *)
Definition left_kernel (p : ptr) (a : reply) (t : OS D) : OS D :=
  os_with (irqs_to false (match a with Returns v => with_ram (store64 (task_pt_regs p) (u64 v) (ram (machine t))) (machine t) | _ => machine t end)) t.

(** What the process finds: its registers and stack as before, less w8 and the
    result, behind the call. *)
Record back (w : wrapper) (u : User) (a : reply) (u' : User) : Prop := mk_back {
  bk_result : reg 0 (user_regs u') = match a with Returns v => u64 v | _ => reg 0 (user_regs u) end;
  bk_number : reg 8 (user_regs u') = wrapper_number w;
  bk_regs : ∀ n, (0 < n < 31)%nat → n ≠ 8%nat → reg n (user_regs u') = reg n (user_regs u);
  bk_usp : usp (user_regs u') = usp (user_regs u);
  bk_ksp : ksp (user_regs u') = ksp (user_regs u);
  bk_pc : user_pc u' = reg 30 (user_regs u);
  bk_pstate : user_pstate u' = user_pstate u
}.

Lemma on_os_current (t : OS D) : on_os get_current t = Done (cur (kernel (machine t)), t).
Proof. apply current_run. Qed.

(** The program is where, and as, the frame in memory says. *)
Record resumed (m : mem) (p : ptr) (u : User) : Prop := mk_resumed {
  rs_regs : ∀ n, (n < 31)%nat → reg n (user_regs u) = trap_word m p (Z.of_nat n);
  rs_usp : usp (user_regs u) = trap_word m p 31;
  rs_pc : user_pc u = trap_word m p 32;
  rs_pstate : user_pstate u = trap_word m p 33;
  rs_ksp : ksp (user_regs u) = p + THREAD_SIZE
}.

Lemma exit_resumes m p r :
  length (xregs r) = 31%nat → ksp r = task_pt_regs p → 0 ≤ p → p + THREAD_SIZE < 2 ^ 64 →
  resumed m p (eret_user (kernel_exit 0 m r)).
Proof.
  intros Hl Hk Hp1 Hp2. pose proof (task_pt_regs_frame p Hp1 Hp2) as Ht.
  destruct (kernel_exit_frame 0 m r Hl) as (X1 & X2 & X3 & X4 & X5);
    [rewrite Hk, Ht; unfold S_FRAME_SIZE, THREAD_SIZE in *; lia..|].
  rewrite Hk in *. split; cbn [eret_user user_regs user_pc user_pstate]; [exact X1|exact X3|exact X4|exact X5|].
  rewrite X2, Ht. lia.
Qed.

(** The words of the frame when the process goes on. *)
Lemma left_kernel_word p a t n : 0 ≤ n → trap_word (ram (machine (left_kernel p a t))) p n =
  match a with Returns v => if n =? 0 then u64 v else trap_word (ram (machine t)) p n | _ => trap_word (ram (machine t)) p n end.
Proof.
  intros Hn. unfold left_kernel. destruct a as [v| |]; [|reflexivity..].
  cbn [machine os_with irqs_to ram with_ram with_kernel]. unfold trap_word. case_bool.
  - subst n. rewrite Z.mul_0_r, Z.add_0_r, load_store_le. apply Z.mod_small. apply wrap_u_range. lia.
  - apply load_store_disjoint. change (Z.of_nat 8) with 8. lia.
Qed.

(** kernel_exit from the frame that was saved. *)
Lemma exit_back w u p (a : reply) (e t : OS D) u1 : in_user p u →
  (∀ n, 0 ≤ n < 34 → trap_word (ram (machine e)) p n = frame_of 0 (svc_regs w u) n) → frame_kept p e t →
  resumed (ram (machine (left_kernel p a t))) p u1 →
  user_pc u1 = u64 (u64 (user_pc u + 4) + 4) ∧ back w u a (returned u1).
Proof.
  intros Hu He [_ Ht] [X1 X3 X4 X5 X2].
  assert (∀ n, 0 ≤ n < 34 → trap_word (ram (machine (left_kernel p a t))) p n =
    match a with Returns v => if n =? 0 then u64 v else frame_of 0 (svc_regs w u) n | _ => frame_of 0 (svc_regs w u) n end) as Hn.
  { intros n Hn. by rewrite left_kernel_word, Ht, He by lia. }
  assert (∀ n, 0 < n < 34 → trap_word (ram (machine (left_kernel p a t))) p n = frame_of 0 (svc_regs w u) n) as Hn1.
  { intros n Hn'. rewrite Hn by lia. rewrite (proj2 (Z.eqb_neq n 0)) by lia. by destruct a. }
  assert (∀ n, (n < 31)%nat → frame_of 0 (svc_regs w u) (Z.of_nat n) = reg n (svc_regs w u)) as Hf.
  { intros n Hn'. unfold frame_of. by rewrite (proj2 (Z.ltb_lt _ _)), Nat2Z.id by lia. }
  assert (∀ n, (0 < n < 31)%nat → reg n (user_regs u1) = reg n (svc_regs w u)) as Hx.
  { intros n Hn'. by rewrite X1, Hn1, Hf by lia. }
  split; [rewrite X4; exact (Hn1 32 ltac:(lia))|]. split; cbn [returned user_regs user_pc user_pstate].
  - rewrite X1 by lia. change (Z.of_nat 0) with 0. rewrite (Hn 0) by lia.
    change (frame_of 0 (svc_regs w u) 0) with (reg 0 (svc_regs w u)). rewrite (svc_reg w u p) by done.
    rewrite decide_False by lia. by destruct a.
  - rewrite Hx, (svc_reg w u p) by (done || lia). by rewrite decide_True by done.
  - intros n Hn' Hne. rewrite Hx, (svc_reg w u p) by (done || lia). by rewrite decide_False by lia.
  - rewrite X3. exact (Hn1 31 ltac:(lia)).
  - by rewrite X2, (iu_ksp _ _ Hu).
  - rewrite Hx, (svc_reg w u p) by (done || lia). by rewrite decide_False by lia.
  - rewrite X5. exact (Hn1 33 ltac:(lia)).
Qed.
End svc.

(** ** Calls that leave the frame alone *)
Definition rests (m : mem) (p : ptr) (al : algorithm) (t : Machine) : Prop := ram t = m ∧ on_cpu p al (kernel t).
Abbreviation at_rest m p al := (preserves (λ t : OS _, rests m p al (machine t))).

Lemma rests_kernel {A} m p al (c : M Kernel A) : preserves (on_cpu p al) c → preserves (rests m p al) (on_kernel c).
Proof.
  intros Hc s x s' [Hm Hs]. unfold on_kernel. destruct (c (kernel s)) as [[y k]|] eqn:E; [|done].
  intros E'. injection E' as _ <-. split; [exact Hm|]. eapply Hc; [exact Hs|exact E].
Qed.

Lemma rests_outputs m p al c : outputs c → preserves (rests m p al) c.
Proof. intros Ho s [] s' Hs. destruct (Ho s) as [l ->]. intros E. by injection E as <-. Qed.

Lemma rests_machine {D A} m p al (c : M Machine A) : preserves (rests m p al) c → at_rest m p al (on_machine c : M (OS D) A).
Proof.
  intros Hc s x s' Hs. unfold on_machine. destruct (c (machine s)) as [[y k]|] eqn:E; [|done].
  intros E'. injection E' as _ <-. eapply Hc; [exact Hs|exact E].
Qed.

Lemma rests_read_byte m p al a : preserves (rests m p al) (read_byte a).
Proof.
  apply preserves_bind; [|intros ?; apply preserves_gets]. intros s x s' Hs. unfold cpu_address.
  repeat case_match; intros E; try discriminate E; by injection E as _ <-.
Qed.

Lemma rests_read_string m p al a : preserves (rests m p al) (read_string a).
Proof.
  unfold read_string. generalize (16 * Z.to_nat PAGE_SIZE + 1)%nat. intros n. revert a.
  induction n as [|n IH]; intros a; [apply preserves_fail|]. cbn [read_string_loop].
  apply preserves_bind; [apply rests_read_byte|]. intros v. case_match; [apply preserves_ret|].
  apply preserves_bind; [apply IH|]. intros l. apply preserves_ret.
Qed.

Lemma keeps_search p al pid : preserves (on_cpu p al) (search_process pid).
Proof.
  unfold search_process. generalize 0. generalize (Z.to_nat N_PROCESSES). intros n.
  induction n as [|n IH]; intros i; [apply preserves_ret|]. cbn [search_loop]. unfold get_global. keep_step; apply IH.
Qed.

Lemma keeps_globals p al f : (∀ g, current_process (f g) = current_process g ∧ active_algorithm (f g) = active_algorithm g) →
  preserves (on_cpu p al) (set_global f).
Proof. intros Hf. apply preserves_modify. intros k [H1 H2]. destruct (Hf (globals k)) as [F1 F2]. split; [unfold cur in *; simpl; congruence|simpl; congruence]. Qed.
#[export] Hint Resolve keeps_search : cpu.

Lemma keeps_set_param p al pid param value : preserves (on_cpu p al) (syscall_set_sched_param pid param value).
Proof.
  unfold syscall_set_sched_param, sched_set_param, preempt_disable, preempt_enable, set_queue_level, get_current, get_global.
  keep_step. by apply keeps_globals.
Qed.

(** The calls of a wrapper that change neither memory nor the process on the CPU. *)
Definition frame_calls : list wrapper :=
  [call_syscall_write; call_syscall_write_hex; call_syscall_send_signal; call_syscall_get_time; call_syscall_set_sched_param].

Lemma frame_calls_rest {D} ret stack m p al w u q : w ∈ frame_calls → at_rest m p al (args_dispatch ret stack w u q : M (OS D) reply).
Proof.
  intros Hw. unfold args_dispatch. unfold frame_calls in Hw.
  rewrite !elem_of_cons in Hw. destruct Hw as [->|[->|[->|[->|[->|Hw]]]]]; [..|by apply not_elem_of_nil in Hw]; cbn [wrapper_number dispatch];
    (apply preserves_bind; [|intros ?; apply preserves_ret]); apply rests_machine.
  - apply preserves_bind; [apply rests_read_string|]. intros l. apply rests_outputs, outputs_puts.
  - apply rests_outputs, outputs_hex.
  - apply rests_kernel. unfold syscall_send_signal, send_signal. keep_step.
  - apply rests_kernel. unfold read_system_timer, get_global. keep_step. by apply keeps_globals.
  - apply rests_kernel, keeps_set_param.
Qed.

Lemma frame_calls_kept {D} ret stack w u p (s t : OS D) a :
  w ∈ frame_calls → args_dispatch ret stack w u p (entered w u s) = Done (a, t) → frame_kept p (entered w u s) t.
Proof.
  intros Hf Hd. destruct (frame_calls_rest ret stack (ram (machine (entered w u s))) (cur (kernel (machine (entered w u s))))
    (active_algorithm (globals (kernel (machine (entered w u s))))) w u p Hf (entered w u s) a t) as [Hm [Hc _]];
    [by repeat split|exact Hd|]. split; [exact Hc|]. intros n _. by rewrite Hm.
Qed.

(** ** The whole way *)
Section way.
Context {D : Type} (ret_from_fork : Z) (stack : list Z) (clobbers : Regs → Regs).
Implicit Types s t : OS D.

(** C code keeps the stack pointer. *)
Context (Hsp : ∀ r, ksp (clobbers r) = ksp r) (Hlen : ∀ r, length (xregs (clobbers r)) = length (xregs r)).

Abbreviation call text u := (call_wrapper ret_from_fork stack clobbers text u).
Abbreviation run text n u := (run_text ret_from_fork stack clobbers text n u).
Abbreviation handled w u p s := (args_dispatch ret_from_fork stack w u p (entered w u s)).

Lemma kernel_entry_length r m : length (xregs r) = 31%nat → length (xregs (kernel_entry 0 r m).1) = 31%nat.
Proof.
  intros H. with_strategy transparent [kernel_entry] (unfold kernel_entry). cbn [fst]. unfold set_reg. cbn [xregs with_x].
  by rewrite !length_insert.
Qed.

(** The state in which the dispatcher returns. *)
Definition answered (p : ptr) (a : reply) (t : OS D) : OS D :=
  match a with Returns v => os_with (with_ram (store64 (task_pt_regs p) (u64 v) (ram (machine t))) (machine t)) t | _ => t end.

Lemma sync_reply w u p s a t : in_user p u → handled w u p s = Done (a, t) →
  run_el0_sync ret_from_fork stack clobbers SVC_ESR 0 (svc_regs w u) s =
    (if gone a (cur (kernel (machine (entered w u s)))) (cur (kernel (machine t))) then mret Away
     else leave (clobbers (kernel_entry 0 (svc_regs w u) (ram (machine s))).1)) (answered p a t).
Proof.
  intros Hu Hd. destruct (entered_frame w u p s Hu) as (Ek & _). rewrite entry_run, Ek.
  rewrite (bind_done _ _ _ _ _ (current_run _)).
  assert (syscall_dispatcher ret_from_fork stack (task_pt_regs p) (entered w u s) = Done (a, answered p a t)) as E.
  { rewrite dispatcher_run by done. rewrite (bind_done _ _ _ _ _ Hd). by destruct a. }
  rewrite (bind_done _ _ _ _ _ E), (bind_done _ _ _ _ _ (current_run _)). by destruct a.
Qed.

(** *** The instructions of a wrapper *)
Lemma wrapper_code text w k : 0 ≤ k < 3 →
  fetch text (wrapper_address text w + 4 * k) = array_get [mov_w8 (wrapper_number w); svc_0; ret_x30] k.
Proof.
  intros Hk. assert (k = 0 ∨ k = 1 ∨ k = 2) as Hk' by lia. unfold fetch, wrapper_address.
  replace (text + 12 * wrapper_index w + 4 * k - text) with (12 * wrapper_index w + 4 * k) by lia.
  destruct Hk' as [ -> | [ -> | -> ] ]; destruct w; reflexivity.
Qed.

Lemma wrapper_index_bound w : 0 ≤ wrapper_index w ≤ 20.
Proof. destruct w; vm_compute; split; discriminate. Qed.

(** The wrapper up to its svc. *)
Lemma call_svc text w u s : 0 ≤ text → text + 252 < 2 ^ 64 → user_pc u = wrapper_address text w →
  call text u s =
    (x ← run_el0_sync ret_from_fork stack clobbers SVC_ESR 0 (svc_regs w u);
     match x with Resumes r => run text 1 (eret_user r) | _ => mret None end) s.
Proof.
  intros H1 H2 Hpc. pose proof (wrapper_index_bound w) as Hi. unfold wrapper_address in *.
  unfold call_wrapper. cbn [run_text]. rewrite Hpc.
  pose proof (wrapper_code text w 0 ltac:(lia)) as F0. pose proof (wrapper_code text w 1 ltac:(lia)) as F1.
  unfold wrapper_address in F0, F1. rewrite Z.mul_0_r, Z.add_0_r in F0. rewrite Z.mul_1_r in F1.
  change (array_get _ 0) with (Some (mov_w8 (wrapper_number w))) in F0.
  change (array_get _ 1) with (Some svc_0) in F1.
  rewrite F0. cbn [exec_instruction]. rewrite bind_ret.
  change (user_pc (moved_w8 (wrapper_number w) u)) with (u64 (user_pc u + 4)).
  rewrite Hpc, u64_id by lia. rewrite F1. cbn [exec_instruction]. rewrite bind_assoc.
  change (svc_taken (moved_w8 (wrapper_number w) u)) with (svc_regs w u).
  unfold mbind, M_bind. destruct (run_el0_sync _ _ _ _ _ _ s) as [[[r| |] s']|]; reflexivity.
Qed.

(** After a call that returns, with the process still on the processor. *)
Lemma goes_on text w u p s a t :
  in_user p u → 0 ≤ text → text + 252 < 2 ^ 64 → user_pc u = wrapper_address text w →
  handled w u p s = Done (a, t) → a ≠ Blocks → cur (kernel (machine t)) = cur (kernel (machine s)) →
  ∃ u1, resumed (ram (machine (left_kernel p a t))) p u1 ∧ call text u s = run text 1 u1 (left_kernel p a t).
Proof.
  intros Hu H1 H2 Hpc Hd Ha Hcur. rewrite (call_svc text w u s H1 H2 Hpc).
  destruct (svc_regs_ok w u p Hu) as [Hr _]. destruct (iu_page _ _ Hu) as [Hp1 Hp2].
  set (r1 := (kernel_entry 0 (svc_regs w u) (ram (machine s))).1) in *.
  assert (length (xregs (clobbers r1)) = 31%nat) as Hl by (rewrite Hlen; apply kernel_entry_length, Hr).
  assert (ksp (clobbers r1) = task_pt_regs p) as Hks
    by (rewrite Hsp; exact (proj1 (entered_frame w u p s Hu))).
  eexists. split; [exact (exit_resumes (ram (machine (left_kernel p a t))) p (clobbers r1) Hl Hks Hp1 Hp2)|].
  pose proof (sync_reply w u p s _ t Hu Hd) as E.
  assert (gone a (cur (kernel (machine (entered w u s)))) (cur (kernel (machine t))) = false) as Hg.
  { change (cur (kernel (machine (entered w u s)))) with (cur (kernel (machine s))). rewrite Hcur.
    unfold gone. rewrite Z.eqb_refl. by destruct a. }
  rewrite Hg in E. fold r1 in E.
  assert (leave (clobbers r1) (answered p a t) = Done (Resumes (kernel_exit 0 (ram (machine (left_kernel p a t))) (clobbers r1)), left_kernel p a t)) as El
    by (by destruct a).
  rewrite El in E. by rewrite (bind_done _ _ _ _ _ E).
Qed.

(** C5: a system call from the program's side.  When a program has branched to a
    wrapper, the kernel runs the function of the wrapper's number on the program's
    registers x0 to x3, with the struct pt_regs of the process for all its
    registers.  If that faults, so does the call; if the process leaves the processor
    inside, the program does not go on then.  Otherwise the program goes on as the
    frame of the process says when the function returns, with the result in x0 (or
    the frame's x0, for a call without a result): at the frame's program counter,
    with its registers, stack pointer and state, and with the kernel's stack pointer
    ready for the next call; if that is an instruction of the wrappers it is
    executed, so that a function that has left the frame alone (as printing, signals,
    the time and the parameters of the scheduler always do) gets to the wrapper's ret
    and the program goes on where the wrapper was called from, with the result in x0,
    the number in x8, every other register and its stack pointer unchanged.
    Interrupts were on during the call. *)
Theorem system_call_spec text w u p s :
  in_user p u → 0 ≤ text → text + 252 < 2 ^ 64 → user_pc u = wrapper_address text w →
  (∀ e, handled w u p s = Fault e → call text u s = Fault e) ∧
  ∀ a t, handled w u p s = Done (a, t) →
    (a = Blocks → call text u s = Done (None, t)) ∧
    (a ≠ Blocks → cur (kernel (machine t)) ≠ cur (kernel (machine s)) → call text u s = Done (None, answered p a t)) ∧
    (a ≠ Blocks → cur (kernel (machine t)) = cur (kernel (machine s)) →
      ∃ u1, resumed (ram (machine (left_kernel p a t))) p u1 ∧
        call text u s = run text 1 u1 (left_kernel p a t) ∧
        (fetch text (trap_word (ram (machine t)) p 32) = None → call text u s = Done (Some u1, left_kernel p a t))) ∧
    (a ≠ Blocks → frame_kept p (entered w u s) t ∨ w ∈ frame_calls →
      ∃ u', call text u s = Done (Some u', left_kernel p a t) ∧ back w u a u').
Proof.
  intros Hu H1 H2 Hpc. destruct (entered_frame w u p s Hu) as (Ek & Hw & _).
  rewrite (call_svc text w u s H1 H2 Hpc). split; [|intros a t Hd; split; [|split]].
  - intros e He. apply bind_fault. rewrite entry_run, Ek. rewrite (bind_done _ _ _ _ _ (current_run _)).
    apply bind_fault. rewrite dispatcher_run by done. by apply bind_fault.
  - intros ->. by rewrite (bind_done _ _ _ _ _ (sync_reply w u p s _ t Hu Hd)).
  - intros Ha Hc. pose proof (sync_reply w u p s _ t Hu Hd) as E.
    assert (gone a (cur (kernel (machine (entered w u s)))) (cur (kernel (machine t))) = true) as Hg
      by (destruct a; [|  |done]; unfold gone; by rewrite (proj2 (Z.eqb_neq _ _)) by exact Hc).
    rewrite Hg in E. by rewrite (bind_done _ _ _ _ _ E).
  - pose proof (goes_on text w u p s a t Hu H1 H2 Hpc Hd) as Hgo.
    rewrite <- (call_svc text w u s H1 H2 Hpc). split.
    + intros Ha Hcur. destruct (Hgo Ha Hcur) as (u1 & Hr & E). exists u1. split; [exact Hr|]. split; [exact E|].
      intros Hf. rewrite E. cbn [run_text]. rewrite (rs_pc _ _ _ Hr), left_kernel_word by lia.
      change (32 =? 0) with false. cbv iota.
      destruct a; rewrite Hf; reflexivity.
    + intros Ha Hkept. assert (frame_kept p (entered w u s) t) as Hk
        by (destruct Hkept as [Hk|Hf]; [exact Hk|by eapply frame_calls_kept]).
      destruct (Hgo Ha (proj1 Hk)) as (u1 & Hr & E).
      destruct (exit_back w u p a _ t u1 Hu Hw Hk Hr) as [Epc Hb].
      exists (returned u1). split; [|exact Hb]. rewrite E. cbn [run_text]. rewrite Epc, Hpc.
      pose proof (wrapper_index_bound w) as Hi.
      pose proof (wrapper_code text w 2 ltac:(lia)) as F2. unfold wrapper_address in *.
      rewrite (u64_id (text + 12 * wrapper_index w + 4)) by lia. rewrite u64_id by lia.
      replace (text + 12 * wrapper_index w + 4 + 4) with (text + 12 * wrapper_index w + 4 * 2) by lia.
      rewrite F2. reflexivity.
Qed.

(** exec: the frame's program counter is 0 when the image is in place, so that the
    program goes on at the start of the new code, not behind the wrapper. *)
Lemma exec_image_pc buffer n frame k safe (m m' : Machine) :
  exec_image buffer n frame k safe m = Done (tt, m') → load64 (frame + 8 * 32) (ram m') = 0.
Proof.
  unfold exec_image. intros (c & m1 & _ & H)%bind_inv. apply bind_inv in H as (mm & m2 & _ & H).
  apply bind_inv in H as (? & m3 & _ & H). apply bind_inv in H as (? & m4 & _ & H).
  apply bind_inv in H as (? & m5 & _ & H). apply bind_inv in H as (sp & m6 & _ & H).
  apply bind_inv in H as (? & m7 & _ & H). injection H as <-. apply (load_store_le 8).
Qed.

Lemma exec_starts_at_0 text u p s a t :
  in_user p u → 0 < text → text + 252 < 2 ^ 64 → user_pc u = wrapper_address text call_syscall_exec →
  handled call_syscall_exec u p s = Done (a, t) → a ≠ Blocks → cur (kernel (machine t)) = cur (kernel (machine s)) →
  trap_word (ram (machine t)) p 32 = 0 →
  ∃ u', call text u s = Done (Some u', left_kernel p a t) ∧ user_pc u' = 0 ∧ usp (user_regs u') = trap_word (ram (machine t)) p 31.
Proof.
  intros Hu H1 H2 Hpc Hd Ha Hcur H0. destruct (goes_on text _ u p s a t Hu ltac:(lia) H2 Hpc Hd Ha Hcur) as (u1 & Hr & E).
  assert (user_pc u1 = 0) as Hpc1.
  { rewrite (rs_pc _ _ _ Hr), left_kernel_word by lia. change (32 =? 0) with false. by destruct a. }
  exists u1. split; [|split; [done|]].
  - rewrite E. cbn [run_text]. rewrite Hpc1. unfold fetch. case_bool; [|done].
    unfold array_get. rewrite (proj2 (Z.ltb_lt _ _)); [done|]. apply Z.div_lt_upper_bound; lia.
  - rewrite (rs_usp _ _ _ Hr), left_kernel_word by lia. change (31 =? 0) with false. by destruct a.
Qed.
End way.

(** A process calls set_sched_param for process 1 with priority 7. *)
Definition set_priority : User :=
  mk_User (mk_Regs ([1; 0; 7] ++ (Z.of_nat <$> seq 100 28)) (kva 0 + THREAD_SIZE) 0x10000 0 0) (0x400 + 12 * 20) 0.
Definition calling_os : OS unit :=
  mk_OS (demo_machine ROUND_ROBIN (uart_with [] 0 [])) (mk_FatSys None ∅ tt [] 0 0) ∅ ∅ ∅.

Lemma set_priority_user : in_user (kva 0) set_priority.
Proof.
  split; [|split; [discriminate|reflexivity]|split; [discriminate|reflexivity]|reflexivity].
  split; try (split; [discriminate|reflexivity]); [reflexivity|]. intros i.
  assert (Forall (λ v, 0 ≤ v < 2 ^ 64) (xregs (user_regs set_priority))) as H by (apply (bool_decide_unpack _); vm_compute; exact I).
  unfold reg. rewrite nth_lookup. destruct (xregs (user_regs set_priority) !! i) as [v|] eqn:E; cbn; [|lia].
  exact (proj1 (Forall_lookup _ _) H i v E).
Qed.

Definition sets_priority (k : Kernel) : bool :=
  match syscall_set_sched_param 1 0 7 k with
  | Done (r, k) => (r =? 0) && bool_decide (priority <$> heap k !! 100 = Some 7)
  | Fault _ => false
  end.

Lemma sets_priority_on : sets_priority (kernel (machine (entered call_syscall_set_sched_param set_priority calling_os))) = true.
Proof. vm_compute. reflexivity. Qed.

Lemma sets_priority_done {D} (s : OS D) : sets_priority (kernel (machine s)) = true →
  ∃ t, on_os (syscall_set_sched_param 1 0 7) s = Done (0, t) ∧ priority <$> heap (kernel (machine t)) !! 100 = Some 7.
Proof.
  unfold sets_priority, on_os, on_machine, on_kernel. destruct (syscall_set_sched_param 1 0 7 (kernel (machine s))) as [[r k]|]; [|done].
  intros [Hr Hp]%andb_true_iff. apply Z.eqb_eq in Hr as ->. eexists. split; [reflexivity|]. exact (bool_decide_eq_true_1 _ Hp).
Qed.

Lemma set_param_frame : call_syscall_set_sched_param ∈ frame_calls.
Proof. unfold frame_calls. rewrite !elem_of_cons. tauto. Qed.

Lemma system_call_spec_witness : ∃ u' s',
  call_wrapper 0x80000 [] id 0x400 set_priority calling_os = Done (Some u', s') ∧
  reg 0 (user_regs u') = 0 ∧ reg 19 (user_regs u') = 116 ∧ user_pc u' = 127 ∧
  priority <$> heap (kernel (machine s')) !! 100 = Some 7.
Proof.
  destruct (sets_priority_done _ sets_priority_on) as (t & Et & Hp).
  destruct (system_call_spec 0x80000 [] id (λ _, eq_refl) (λ _, eq_refl) 0x400 call_syscall_set_sched_param set_priority (kva 0) calling_os
    set_priority_user) as [_ H]; [discriminate|reflexivity|reflexivity|].
  destruct (H (Returns 0) t) as (_ & _ & _ & H').
  - etrans; [exact (bind_done _ _ _ _ _ Et)|reflexivity].
  - destruct H' as (u' & E & [B1 _ B3 _ _ B6 _]); [discriminate|right; exact set_param_frame|].
    exists u', (left_kernel (kva 0) (Returns 0) t). split; [exact E|]. split; [exact B1|]. split; [exact (B3 19%nat ltac:(lia) ltac:(lia))|].
    split; [exact B6|exact Hp].
Defined.
